(* ===== verification/_CoqProject ===== *)
-Q . S2P
Prelude.v
CString.v
Params.v
Mmu.v
X86.v
Swtch.v
Bio.v
Log.v
Trans.v
Pipe.v
Spinlock.v
Kalloc.v
Vm.v
Grep.v
Sh.v
Fs.v
Balloc.v
Inode.v
Content.v
Blockmap.v
Dir.v
File.v
Writei.v
Volume.v
Trunc.v
Links.v
Rest.v
Mkfs.v
Mount.v
Fwrite.v
Proc.v
Seg.v
Trapasm.v
Apic.v
Cmos.v
Entry.v
ProcInv.v
ProcMem.v
Ulib.v
Umalloc.v
Shrun.v
Uprogs.v
Kbd.v
Console.v
Syscall.v
Exec.v
Boot.v
Sysfile.v
Create.v
Atomic.v
Unlink.v
Ide.v
Mp.v
Trap.v
Refs.v
