(* ===== verification/Prelude.v ===== *)
(** * A verification of the xv6 teaching operating system (x86)

    xv6 is a small Unix: a kernel in C, a file system image builder that
    runs on the host, and user programs. This library translates the C code into
    Rocq functions and proves what the code promises. Names are those of the source.

    ** The parts of the system, and the files that model them

    - [Prelude] (this file): the monad of the development, fixed-width
      arithmetic, byte lists, and the proof rules and tactics they share.
    - [CString]: [string.c] and the [rep stos] of [x86.h].  [Params]:
      [param.h], [fs.h], [buf.h], [stat.h], [fcntl.h].  [Mmu]: [mmu.h],
      [memlayout.h].
    - Disk.  [Ide]: the driver [ide.c] (request queue, interrupt handler, ports).
      [Bio]: [bio.c], [sleeplock.c] and [memide.c].  [Log], [Trans]: [log.c].
      The file system runs on the buffer cache, and the buffer cache on the class
      [BlockDevice], the contract of [iderw]; [Bio] discharges it for
      [memide.c], and [Ide] proves that [ide.c] behaves as a queue of such calls.
    - File system ([fs.c]).  [Fs]: all its functions.  [Balloc]: bitmap and block
      allocation.  [Inode]: inodes on disk and the inode cache.  [Content],
      [Blockmap], [Writei]: reading and writing files.  [Trunc]: freeing them.  [Dir]:
      directories and path names.  [Volume]: what it means that a whole volume is consistent;
      [Links]: that link counts are right; [Rest]: the state between system calls.  [Mkfs]: the image
      builder [mkfs.c].  [Mount]: an image from [mkfs], booted and read.
    - System calls on the file system, whole and with crashes.  [Fwrite]: [filewrite].  [Create],
      [Atomic]: [create] and [sys_mkdir].  [Unlink]: [sys_unlink].
    - The processor.  [X86]: registers, memory, segments, privilege, interrupts and [iret], as far as the
      kernel's assembly uses them.  [Seg]: descriptor tables, [seginit], [switchuvm], [tvinit].
      [Swtch]: [swtch.S].  [Trapasm]: [vectors.pl], [trapasm.S] and the stack of a new process.
    - Starting.  [Boot]: [bootmain.c].  [Entry]: [bootasm.S], [entry.S], [entryother.S] and
      [entrypgdir] of [main.c], on a processor that comes from real mode.  [Apic]: [picirq.c], [ioapic.c], [lapic.c]
      and the sending side of [uart.c].  [Cmos]: the clock of [lapic.c].
    - Memory.  [Kalloc]: [kalloc.c].  [Vm]: [vm.c].  [ProcMem]: [growproc].
    - Processes.  [Spinlock]: [spinlock.c].  [Proc]: [proc.c].  [ProcInv]: its
      invariant under concurrency.  [Exec]: [exec.c].  [Mp]: [mp.c].
    - Files and calls.  [Pipe]: [pipe.c] under concurrency.  [File]: [file.c] and
      the calls of [pipe.c] on the kernel state.  [Syscall]: argument
      fetching and [sysproc.c].  [Sysfile]: [sysfile.c] and the dispatcher.
      [Refs]: the reference counts of open files.  [Trap]: [trap.c].
    - Console.  [Kbd]: [kbd.c].  [Console]: [console.c].  The receive side of [uart.c] is in [Trap].
    - User space.  [Ulib]: [ulib.c], [printf.c].  [Umalloc]: [umalloc.c].
      [Grep]: [grep.c].  [Sh]: the parser of [sh.c].  [Shrun]: the rest of
      [sh.c].  [Uprogs]: [cat.c], [wc.c], [echo.c], [ls.c].

    ** How code is modelled

    Functions that change state are in the monad [M S A := S -> res S A]. A
    result is a value with the new state, a [panic], [Blocked] (the
    process sleeps, in the state it leaves behind), [Fault] (an access the hardware
    would trap, such as a null pointer) or [OutOfFuel]. [wp m Q s] is total correctness: [m]
    returns from [s], in a state with [Q]; [wpe m Q E s] also allows the panics in [E].
    Structs are records, pointers into arrays are indices, and pointers into memory are
    addresses of a byte memory ([mem]): the free list of [kalloc.c], page tables,
    the heap of [umalloc.c] and the tables of [mp.c] lie in memory as the code lays them
    out. 32-bit arithmetic wraps with [u32] and [s32] wherever it can.

    Code under a spin lock runs to its next [sleep] or [release] without
    interference; [Spinlock] proves the mutual exclusion this rests on, instruction by instruction.
    Where interleaving matters (pipes, the process table, console, disk driver), each such
    section is one function, and a transition system interleaves them in any
    order. Crashes are prefixes of the sequence of disk writes.

    Code that is not in the repository is a class with its documented behaviour:
    [BlockDevice] (a disk), [Devsw] (device drivers behind a major
    number), [Ata] and [Pio] (the disk controller, with and without interrupts), [IoApic], [LocalApic], [Uart], [Rtc] and
    [Kbc] (interrupt controllers, serial port, clock, keyboard controller), [Pushseg] (whether the processor writes two bytes or four
    when it pushes a segment register), [Sbrk] (the system call as a user
    program sees it), [Kernel] (which system calls of the shell succeed). Each
    has an instance, used by the witnesses or given beside it. The linker's [end] and [data] and the addresses of
    variables are arguments.

    ** What the theorems show

    - Crash safety: [Trans.end_op_atomic], [Trans.recovery_completes]; and
      [Balloc.three_operations_panic] on the size of the log.  Whole system calls on a consistent volume, with a crash
      at any disk write: [Atomic.sys_mkdir_atomic], [Unlink.sys_unlink_atomic], [Fwrite.filewrite_spec].
    - The disk queue refines atomic disk calls: [Ide.ide_refines].
    - Files: [Balloc.balloc_spec], [Inode.iget_spec], [Inode.iupdate_spec],
      [Content.readi_spec], [Writei.writei_spec] (with the blocks that allocation, size and inode
      updates touch), [Writei.writei_reservation] (a chunk of [filewrite] fits in its log
      reservation). Operations that allocate panic only when fewer blocks are free ([Blockmap.nfree]) than they need
      ([Writei.missing_blocks], [Create.create_cost]).
    - Names: [Dir.dirlookup_spec], [Dir.namex_spec]; the image:
      [Mkfs.mkfs_spec]; all of it composed: [Mount.mkfs_boot_read].
    - Memory: [Kalloc.kalloc_exclusive], [Vm.allocuvm_spec],
      [Vm.deallocuvm_spec], [ProcMem.growproc_spec].
    - Concurrency: [Spinlock.spinlock_mutex], [Pipe.pipe_fifo],
      [Pipe.pipe_no_lost_wakeup], [ProcInv.wait_no_lost_wakeup],
      [ProcInv.zombie_reapable], [ProcInv.kill_exact].
    - The boundary to user space: [Syscall.syscall_args_safe],
      [Refs.file_refs_invariant], [Trap.trap_returns]; at the level of the processor,
      [Seg.SEG_typed] and [Seg.setup_protects] (segments and gates keep user programs out),
      [Trapasm.trap_roundtrip] (a trap saves and restores every register),
      [Trapasm.first_run] and [Swtch.swtch_roundtrip] (switching stacks).
    - Starting: [Boot.bootmain_loads], [Entry.bootasm_spec], [Entry.entry_spec], [Entry.entryother_starts],
      [Apic.ioapicinit_spec], [Apic.lapicinit_spec], [Apic.lapicstartap_spec].
    - Devices: [Console.console_refines], [Console.cgaputc_spec],
      [Mp.mpinit_spec], [Mp.mpinit_unknown_entry], [Cmos.cmostime_spec], [Apic.uartinit_spec].
    - User space: [Umalloc.malloc_spec], [Umalloc.umalloc_safe],
      [Sh.parsecmd_print], [Sh.parsecmd_total], [Shrun.shell_meaning],
      [Grep.match_correct], [Grep.grep_file], [Ulib.printint_spec], [Uprogs.wc_counts].

    ** Bounds and fuel

    Loops that are not structural take fuel, and the theorems about them show that
    they return, so the fuel given is enough: the length of the table or list that a loop
    walks ([NBUF], [NINODE], [NPROC], the bytes of a path or a line, [io_fuel] blocks of a
    transfer, [list_fuel] headers that fit below the break), or the number of polls after which the
    controllers are ready, or the port accesses until an update of the clock is over. The endless loops of the code (a lock
    or a sleep that is never granted) end in [Blocked]; the one of [mpinit] is proved to exhaust
    every fuel. Files and images are bounded as the code bounds them ([MAXFILE] blocks,
    [FSSIZE] blocks, [NINODES] inodes).

    ** What is not modelled

    - [main.c] apart from [entrypgdir], what [startothers] stores for another processor, and the order in
      which it gives memory to [kalloc.c]; [usys.S] and [initcode.S], an [int] instruction each.
    - Of the processor: the accessed bits that it sets in descriptors, the hidden parts of its segment registers after a table
      changes, and, in [X86], paging: kernel code there runs on the addresses it uses, which every page table maps alike.
      [Entry] has paging and no stack limits. The code between the instructions of [trapasm.S] and the C functions (the code the compiler makes) is
      a parameter, with what the calling convention promises.
    - [usertests.c], [stressfs.c], [forktest.c], [zombie.c]: test programs.
      [init.c], [kill.c], [ln.c], [mkdir.c], [rm.c]: a loop over system calls each.
    - In [Proc] and the files on it, the saved contexts on kernel stacks: a process that sleeps is at the point
      where it called [sleep], and goes on with the section after it; a process that yields in [Trap] goes on after the other processes have
      done anything to the state. [Swtch] shows that [swtch.S] switches stacks so.
    - Weak memory and the time that operations take. *)

From stdpp Require Export base numbers strings list.
From stdpp Require Import options.

#[global] Open Scope Z_scope.

(** ** Machine integers

    C integers are [Z]; these are the wrap-arounds of the types the sources
    use ([types.h]): [uchar], [ushort], [uint] and the two's complement
    readings of [short] and [int]. *)

Definition u8 (z : Z) : Z := z mod 256.
Definition u16 (z : Z) : Z := z mod 65536.
Definition u32 (z : Z) : Z := z mod 4294967296.
Definition s16 (z : Z) : Z := (z + 32768) mod 65536 - 32768.
Definition s32 (z : Z) : Z := (z + 2147483648) mod 4294967296 - 2147483648.

Lemma u8_range z : 0 <= u8 z < 256.
Proof. apply Z.mod_pos_bound. lia. Qed.

Lemma u32_range z : 0 <= u32 z < 4294967296.
Proof. apply Z.mod_pos_bound. lia. Qed.

Lemma u32_small z : 0 <= z < 4294967296 -> u32 z = z.
Proof. apply Z.mod_small. Qed.

Lemma u16_small z : 0 <= z < 65536 -> u16 z = z.
Proof. apply Z.mod_small. Qed.

Lemma u8_small z : 0 <= z < 256 -> u8 z = z.
Proof. apply Z.mod_small. Qed.

Lemma s32_range z : -2147483648 <= s32 z < 2147483648.
Proof. unfold s32. pose proof (Z.mod_pos_bound (z + 2147483648) 4294967296). lia. Qed.

Lemma s32_small z : -2147483648 <= z < 2147483648 -> s32 z = z.
Proof. intros. unfold s32. rewrite Z.mod_small; lia. Qed.

Lemma s16_small z : -32768 <= z < 32768 -> s16 z = z.
Proof. intros. unfold s16. rewrite Z.mod_small; lia. Qed.

(** The 16-bit round trip of a [short] through its two stored bytes. *)
Lemma s16_u16 z : -32768 <= z < 32768 -> s16 (u16 z) = z.
Proof.
  intros Hz. unfold s16, u16. rewrite Zplus_mod_idemp_l.
  fold (s16 z). by apply s16_small.
Qed.

Lemma s32_u32 z : -2147483648 <= z < 2147483648 -> s32 (u32 z) = z.
Proof.
  intros Hz. unfold s32, u32. rewrite Zplus_mod_idemp_l.
  fold (s32 z). by apply s32_small.
Qed.

(** ** Slices of a list: the regions of a byte array *)

Definition slice {A} (off n : nat) (l : list A) : list A := take n (drop off l).

Definition splice {A} (off : nat) (x l : list A) : list A :=
  take off l ++ x ++ drop (off + length x) l.

Section slices.
Context {A : Type}.
Implicit Types l x : list A.
Local Open Scope nat_scope.

Lemma lookup_slice o n l i :
  slice o n l !! i = if decide (i < n) then l !! (o + i) else None.
Proof.
  unfold slice. rewrite lookup_take. case_decide; [|done].
  by rewrite lookup_drop.
Qed.

Lemma length_slice o n l : length (slice o n l) = min n (length l - o).
Proof. unfold slice. by rewrite length_take, length_drop. Qed.

Lemma length_slice_le o n l : o + n <= length l -> length (slice o n l) = n.
Proof. intros. rewrite length_slice. lia. Qed.

Lemma length_splice o x l :
  o + length x <= length l -> length (splice o x l) = length l.
Proof.
  intros. unfold splice. rewrite !length_app, length_take, length_drop. lia.
Qed.

(** Past its end, a list grows. *)
Lemma lookup_splice_le o x l i :
  o <= length l ->
  splice o x l !! i =
    if decide (o <= i < o + length x) then x !! (i - o) else l !! i.
Proof.
  intros Hl. unfold splice. destruct (decide (i < o)) as [Hi|Hi].
  - rewrite lookup_app_l by (rewrite length_take; lia).
    rewrite decide_False by lia. by rewrite lookup_take_lt.
  - rewrite lookup_app_r by (rewrite length_take; lia).
    rewrite length_take, min_l by lia. case_decide as Hd.
    + by rewrite lookup_app_l by lia.
    + rewrite lookup_app_r by lia. rewrite lookup_drop. f_equal. lia.
Qed.

Lemma lookup_splice o x l i :
  o + length x <= length l ->
  splice o x l !! i =
    if decide (o <= i < o + length x) then x !! (i - o) else l !! i.
Proof. intros Hl. apply lookup_splice_le. lia. Qed.

Lemma slice_splice_eq o x l :
  o + length x <= length l -> slice o (length x) (splice o x l) = x.
Proof.
  intros. apply list_eq. intros i. rewrite lookup_slice. case_decide.
  - rewrite lookup_splice by done. rewrite decide_True by lia. f_equal. lia.
  - symmetry. apply lookup_ge_None_2. lia.
Qed.

Lemma slice_splice_ne o n o' x l :
  o' + length x <= length l -> o + n <= o' \/ o' + length x <= o ->
  slice o n (splice o' x l) = slice o n l.
Proof.
  intros ? ?. apply list_eq. intros i. rewrite !lookup_slice. case_decide; [|done].
  rewrite lookup_splice by done. by rewrite decide_False by lia.
Qed.

Lemma splice_slice_id o n l : o + n <= length l -> splice o (slice o n l) l = l.
Proof.
  intros. apply list_eq. intros i.
  rewrite lookup_splice by (rewrite length_slice; lia). case_decide as Hd; [|done].
  rewrite length_slice in Hd. rewrite lookup_slice, decide_True by lia. f_equal. lia.
Qed.

Lemma slice_0_all n l : length l = n -> slice 0 n l = l.
Proof. intros <-. unfold slice. by rewrite drop_0, firstn_all. Qed.

Lemma splice_all x l : length x = length l -> splice 0 x l = x.
Proof.
  intros Hx. unfold splice. rewrite take_0. simpl.
  rewrite drop_ge by lia. by rewrite app_nil_r.
Qed.

Lemma slice_app_split o n m l :
  slice o (n + m) l = slice o n l ++ slice (o + n) m l.
Proof. unfold slice. by rewrite <- take_take_drop, drop_drop. Qed.

Lemma splice_app o (a b l : list A) : o <= length l -> splice (o + length a) b (splice o a l) = splice o (a ++ b) l.
Proof.
  intros Hl. unfold splice. rewrite take_app, length_take, min_l by lia. rewrite take_take, min_r by lia.
  replace (o + length a - o) with (length a) by lia. rewrite take_app_length, length_app.
  rewrite drop_app_ge by (rewrite length_take; lia). rewrite length_take, min_l by lia.
  rewrite drop_app_ge by lia. rewrite drop_drop, <- !app_assoc. do 4 f_equal. lia.
Qed.

Lemma splice_over o (a b l : list A) : (length a <= length b) -> (o + length b <= length l) ->
  splice o a (splice o b l) = splice o (a ++ drop (length a) b) l.
Proof.
  intros Ha Hl. unfold splice. rewrite take_app_le, take_take, Nat.min_id by (rewrite length_take; lia). rewrite length_app, length_drop, <- !app_assoc. do 2 f_equal.
  rewrite drop_app_ge by (rewrite length_take; lia). rewrite length_take, min_l by lia. rewrite drop_app_le by lia. do 2 f_equal; [f_equal; lia|]. f_equal. lia.
Qed.
End slices.

(** ** Little-endian encodings

    A field of a C struct occupies consecutive bytes of the array it lives
    in, least significant byte first ([x86]). *)

Fixpoint le_bytes (n : nat) (z : Z) : list Z :=
  match n with
  | O => []
  | S n' => z mod 256 :: le_bytes n' (z / 256)
  end.

Definition le_val (l : list Z) : Z := foldr (fun b acc => b + 256 * acc) 0 l.

Definition is_byte (b : Z) : Prop := 0 <= b < 256.

Lemma length_le_bytes n z : length (le_bytes n z) = n.
Proof. revert z. induction n; intros; simpl; [done|by f_equal]. Qed.

Lemma le_bytes_bytes n z : Forall is_byte (le_bytes n z).
Proof.
  revert z. induction n; intros; simpl; constructor; [|done].
  apply Z.mod_pos_bound. lia.
Qed.

Lemma le_val_bytes n z : 0 <= z < 256 ^ Z.of_nat n -> le_val (le_bytes n z) = z.
Proof.
  revert z. induction n as [|n IH]; intros z Hz.
  - simpl in *. lia.
  - cbn [le_bytes]. change (le_val (z mod 256 :: le_bytes n (z / 256)))
      with (z mod 256 + 256 * le_val (le_bytes n (z / 256))).
    rewrite Nat2Z.inj_succ, Z.pow_succ_r in Hz by lia.
    rewrite IH.
    + pose proof (Z.div_mod z 256). lia.
    + split; [apply Z.div_pos; lia|]. apply Z.div_lt_upper_bound; lia.
Qed.

Lemma le_val_range l : Forall is_byte l -> 0 <= le_val l < 256 ^ Z.of_nat (length l).
Proof.
  induction 1 as [|b l Hb Hl IH]; [simpl; lia|].
  cbn [length le_val foldr]. fold (le_val l). unfold is_byte in Hb.
  rewrite Nat2Z.inj_succ, Z.pow_succ_r by lia. lia.
Qed.

Lemma le_bytes_val l : Forall is_byte l -> le_bytes (length l) (le_val l) = l.
Proof.
  induction 1 as [|b l Hb Hl IH]; [done|].
  cbn [length le_bytes]. cbn [le_val foldr]. fold (le_val l). unfold is_byte in Hb.
  f_equal.
  - rewrite Z.mul_comm, Z.mod_add by lia. by apply Z.mod_small.
  - rewrite Z.mul_comm, Z.div_add, Z.div_small by lia. by rewrite Z.add_0_l.
Qed.

(** The [uint] and [ushort] fields of a byte array. *)
Definition get_u32 (off : nat) (d : list Z) : Z := le_val (slice off 4 d).
Definition put_u32 (off : nat) (v : Z) (d : list Z) : list Z := splice off (le_bytes 4 v) d.
Definition get_u16 (off : nat) (d : list Z) : Z := le_val (slice off 2 d).
Definition put_u16 (off : nat) (v : Z) (d : list Z) : list Z := splice off (le_bytes 2 v) d.

Section fields.
Implicit Types d : list Z.

Lemma length_put_u32 o v d : (o + 4 <= length d)%nat -> length (put_u32 o v d) = length d.
Proof. intros. apply length_splice. by rewrite length_le_bytes. Qed.

Lemma length_put_u16 o v d : (o + 2 <= length d)%nat -> length (put_u16 o v d) = length d.
Proof. intros. apply length_splice. by rewrite length_le_bytes. Qed.

Lemma get_put_u32_eq o v d :
  (o + 4 <= length d)%nat -> 0 <= v < 4294967296 -> get_u32 o (put_u32 o v d) = v.
Proof.
  intros Ho Hv. unfold get_u32, put_u32.
  assert (E := slice_splice_eq o (le_bytes 4 v) d).
  rewrite length_le_bytes in E. rewrite E by done. by apply le_val_bytes.
Qed.

Lemma get_put_u16_eq o v d :
  (o + 2 <= length d)%nat -> 0 <= v < 65536 -> get_u16 o (put_u16 o v d) = v.
Proof.
  intros Ho Hv. unfold get_u16, put_u16.
  assert (E := slice_splice_eq o (le_bytes 2 v) d).
  rewrite length_le_bytes in E. rewrite E by done. by apply le_val_bytes.
Qed.

Lemma get_put_u32_ne o o' v d :
  (o' + 4 <= length d)%nat -> (o + 4 <= o' \/ o' + 4 <= o)%nat ->
  get_u32 o (put_u32 o' v d) = get_u32 o d.
Proof.
  intros. unfold get_u32, put_u32.
  by rewrite slice_splice_ne by (rewrite length_le_bytes; lia).
Qed.

Lemma get_u32_range o d : Forall is_byte d -> 0 <= get_u32 o d < 4294967296.
Proof.
  intros Hd. unfold get_u32.
  assert (Hs : Forall is_byte (slice o 4 d)) by (unfold slice; by apply Forall_take, Forall_drop).
  pose proof (le_val_range _ Hs) as Hr. pose proof (length_slice o 4 d).
  assert (256 ^ Z.of_nat (length (slice o 4 d)) <= 256 ^ 4) by (apply Z.pow_le_mono_r; lia).
  lia.
Qed.
End fields.

Lemma Forall_splice {A} (P : A -> Prop) o x l :
  Forall P x -> Forall P l -> Forall P (splice o x l).
Proof.
  intros. unfold splice. rewrite !Forall_app. split_and!; [by apply Forall_take|done|].
  by apply Forall_drop.
Qed.

(** ** Outcomes of kernel code

    A kernel function run to its end from a state.  [Panic] is a call of
    [panic] (the machine stops); [Blocked] a call of [sleep] (the process
    gives up the CPU: what follows depends on other processes); [Fault] a
    memory access outside the object it names; [OutOfFuel] the model's loop
    bound, which the theorems show is never reached. *)

Inductive res (S A : Type) : Type :=
| Ok (a : A) (s : S)
| Panic (msg : string)
| Blocked (s : S)
| Fault
| OutOfFuel.
Arguments Ok {S A} a s.
Arguments Panic {S A} msg.
Arguments Blocked {S A} s.
Arguments Fault {S A}.
Arguments OutOfFuel {S A}.

Definition M (S A : Type) : Type := S -> res S A.

#[global] Instance M_ret (S : Type) : MRet (M S) := fun A a s => Ok a s.
#[global] Instance M_bind (S : Type) : MBind (M S) := fun A B f m s =>
  match m s with
  | Ok a s' => f a s'
  | Panic e => Panic e
  | Blocked s' => Blocked s'
  | Fault => Fault
  | OutOfFuel => OutOfFuel
  end.

Definition get {S} : M S S := fun s => Ok s s.
Definition gets {S A} (f : S -> A) : M S A := fun s => Ok (f s) s.
Definition modify {S} (f : S -> S) : M S unit := fun s => Ok tt (f s).
Definition panic {S A} (msg : string) : M S A := fun _ => Panic msg.
Definition sleep {S A} : M S A := fun s => Blocked s.
Definition fault {S A} : M S A := fun _ => Fault.
Definition outOfFuel {S A} : M S A := fun _ => OutOfFuel.

(** [unless c m]: run the guard [m] (a panic or a fault) when the test fails. *)
Definition assert_or {S} (c : bool) (m : M S unit) : M S unit := if c then mret tt else m.

(** Code of a component run on the larger state that contains it. *)
Definition zoom {S T A} (prj : S -> T) (inj : T -> S -> S) (m : M T A) : M S A :=
  fun s =>
    match m (prj s) with
    | Ok a t => Ok a (inj t s)
    | Panic e => Panic e
    | Blocked t => Blocked (inj t s)
    | Fault => Fault
    | OutOfFuel => OutOfFuel
    end.

(** A [for(i = lo; ...; i++)] loop of [n] iterations. *)
Fixpoint for_loop {S} (n : nat) (i : Z) (body : Z -> M S unit) : M S unit :=
  match n with
  | O => mret tt
  | S n' => body i ;; for_loop n' (i + 1) body
  end.

(** ** Total correctness

    [wp m Q s]: from [s] the code returns (no panic, no block, no fault),
    and value and final state satisfy [Q]. *)

Definition wp {S A} (m : M S A) (Q : A -> S -> Prop) (s : S) : Prop :=
  match m s with Ok a s' => Q a s' | _ => False end.

Section wp.
Context {S : Type}.
Implicit Types s : S.

Lemma wp_ok {A} (m : M S A) Q s : wp m Q s <-> exists a s', m s = Ok a s' /\ Q a s'.
Proof.
  unfold wp. destruct (m s) as [a s'| | | |]; split; try done; try by intros (?&?&?&?).
  - intros HQ. by exists a, s'.
  - intros (? & ? & [= <- <-] & ?). done.
Qed.

Lemma wp_ret {A} (a : A) (Q : A -> S -> Prop) s : Q a s -> wp (mret a) Q s.
Proof. done. Qed.

Lemma wp_bind {A B} (m : M S A) (f : A -> M S B) Q s :
  wp m (fun a s' => wp (f a) Q s') s -> wp (m ≫= f) Q s.
Proof. unfold wp, mbind, M_bind. by destruct (m s). Qed.

Lemma wp_mono {A} (m : M S A) (P Q : A -> S -> Prop) s :
  wp m P s -> (forall a s', P a s' -> Q a s') -> wp m Q s.
Proof. unfold wp. destruct (m s); naive_solver. Qed.

Lemma wp_run {A} (m : M S A) (Q : A -> S -> Prop) s a s' : wp m Q s -> m s = Ok a s' -> Q a s'.
Proof. intros W E. unfold wp in W. by rewrite E in W. Qed.

Lemma wp_returns {A} (m : M S A) (Q : A -> S -> Prop) s : wp m Q s -> exists a s', m s = Ok a s' /\ Q a s'.
Proof. unfold wp. destruct (m s); naive_solver. Qed.

Lemma wp_get (Q : S -> S -> Prop) s : Q s s -> wp get Q s.
Proof. done. Qed.

Lemma wp_gets {A} (f : S -> A) (Q : A -> S -> Prop) s : Q (f s) s -> wp (gets f) Q s.
Proof. done. Qed.

Lemma wp_modify (f : S -> S) (Q : unit -> S -> Prop) s : Q tt (f s) -> wp (modify f) Q s.
Proof. done. Qed.

Lemma wp_assert_or (c : bool) m (Q : unit -> S -> Prop) s :
  c = true -> Q tt s -> wp (assert_or c m) Q s.
Proof. by intros ->. Qed.

Lemma wp_zoom {T A} prj inj (m : M T A) (Q : A -> S -> Prop) s :
  wp m (fun a t => Q a (inj t s)) (prj s) -> wp (zoom prj inj m) Q s.
Proof. unfold wp, zoom. by destruct (m (prj s)). Qed.

(** The loop rule: an invariant indexed by the loop variable. *)
Lemma wp_for_loop (I : Z -> S -> Prop) n i body s :
  I i s ->
  (forall j s, i <= j < i + Z.of_nat n -> I j s -> wp (body j) (fun _ => I (j + 1)) s) ->
  wp (for_loop n i body) (fun _ => I (i + Z.of_nat n)) s.
Proof.
  revert i s. induction n as [|n IH]; intros i s Hi Hb; simpl.
  - apply wp_ret. by rewrite Z.add_0_r.
  - apply wp_bind. eapply wp_mono; [apply Hb; [lia|done]|].
    intros [] s' Hs'. eapply wp_mono; [apply IH; [done|]|].
    + intros j s'' Hj. apply Hb. lia.
    + intros [] s''. cbn beta. by replace (i + 1 + Z.of_nat n) with (i + Z.of_nat (Datatypes.S n)) by lia.
Qed.
End wp.

(** Correctness of code that may give up: it returns with [Q], or panics. *)
Definition wpp {S A} (m : M S A) (Q : A -> S -> Prop) (s : S) : Prop :=
  match m s with Ok a s' => Q a s' | Panic _ => True | _ => False end.

Lemma wpp_bind {S A B} (m : M S A) (f : A -> M S B) Q s :
  wpp m (fun a s' => wpp (f a) Q s') s -> wpp (m ≫= f) Q s.
Proof. unfold wpp, mbind, M_bind. by destruct (m s). Qed.

Lemma wpp_mono {S A} (m : M S A) (P Q : A -> S -> Prop) s :
  wpp m P s -> (forall a s', P a s' -> Q a s') -> wpp m Q s.
Proof. unfold wpp. destruct (m s); naive_solver. Qed.

Lemma wpp_ok {S A} (m : M S A) (Q : A -> S -> Prop) s a s' : m s = Ok a s' -> Q a s' -> wpp m Q s.
Proof. intros E H. unfold wpp. by rewrite E. Qed.

(** [wpe m Q E s]: the code returns with [Q] or panics with a message in [E]. *)
Definition wpe {S A} (m : M S A) (Q : A -> S -> Prop) (E : string -> Prop) (s : S) : Prop :=
  match m s with Ok a s' => Q a s' | Panic e => E e | _ => False end.

Lemma wpe_bind {S A B} (m : M S A) (f : A -> M S B) Q E s :
  wpe m (fun a s' => wpe (f a) Q E s') E s -> wpe (m ≫= f) Q E s.
Proof. unfold wpe, mbind, M_bind. by destruct (m s). Qed.

Lemma wpe_bind_wp {S A B} (m : M S A) (f : A -> M S B) Q E s :
  wp m (fun a s' => wpe (f a) Q E s') s -> wpe (m ≫= f) Q E s.
Proof. unfold wp, wpe, mbind, M_bind. by destruct (m s). Qed.

Lemma wpe_wp {S A} (m : M S A) (Q : A -> S -> Prop) E s : wp m Q s -> wpe m Q E s.
Proof. unfold wp, wpe. by destruct (m s). Qed.

Lemma wpe_mono {S A} (m : M S A) (P Q : A -> S -> Prop) (E F : string -> Prop) s :
  wpe m P E s -> (forall a s', P a s' -> Q a s') -> (forall e, E e -> F e) -> wpe m Q F s.
Proof. unfold wpe. destruct (m s); naive_solver. Qed.

(** Without a way to panic, the code returns. *)
Lemma wp_wpe {S A} (m : M S A) (Q : A -> S -> Prop) (E : string -> Prop) s :
  wpe m Q E s -> (forall e, ~ E e) -> wp m Q s.
Proof. unfold wp, wpe. destruct (m s); naive_solver. Qed.

Lemma bind_ok {S A B} (m : M S A) (f : A -> M S B) s a s' :
  m s = Ok a s' -> (m ≫= f) s = f a s'.
Proof. intros E. unfold mbind, M_bind. by rewrite E. Qed.

Lemma bind_assoc {S A B C} (m : M S A) (f : A -> M S B) (g : B -> M S C) s :
  ((m ≫= f) ≫= g) s = (m ≫= (fun a => f a ≫= g)) s.
Proof. unfold mbind, M_bind. by destruct (m s). Qed.

(** One step of symbolic execution of monadic code under [wp]. *)
Ltac wp_step :=
  match goal with
  | |- wp (_ ≫= _) _ _ => apply wp_bind
  | |- wp (mret _) _ _ => apply wp_ret
  | |- wp (gets _) _ _ => apply wp_gets
  | |- wp get _ _ => apply wp_get
  | |- wp (modify _) _ _ => apply wp_modify
  | |- wp (zoom _ _ _) _ _ => apply wp_zoom
  end; cbn beta.
Ltac wp_steps := repeat wp_step.

(** ** Automation shared by the components *)

Create HintDb xv6.
#[export] Hint Resolve length_le_bytes le_bytes_bytes : xv6.
#[export] Hint Resolve u8_range u32_range : xv6.

Create Rewrite HintDb xv6_len.
#[export] Hint Rewrite @length_insert @length_app @length_take @length_drop
  @length_replicate length_le_bytes @length_fmap @length_seq @length_reverse : xv6_len.

(** Normalise the lengths in the goal and close it arithmetically. *)
Ltac len := autorewrite with xv6_len; simpl; try lia; try done.

(** Case analysis on every boolean comparison of integers in the goal. *)
Ltac zdec :=
  repeat match goal with
  | |- context [Z.leb ?a ?b] => destruct (Z.leb_spec a b)
  | |- context [Z.ltb ?a ?b] => destruct (Z.ltb_spec a b)
  | |- context [Z.eqb ?a ?b] => destruct (Z.eqb_spec a b)
  end; simpl; try lia; try done.

(** Turn boolean comparisons in the hypotheses into propositions. *)
Ltac zcase :=
  repeat match goal with
  | H : (_ =? _) = true |- _ => apply Z.eqb_eq in H
  | H : (_ =? _) = false |- _ => apply Z.eqb_neq in H
  | H : (_ <? _) = true |- _ => apply Z.ltb_lt in H
  | H : (_ <? _) = false |- _ => apply Z.ltb_ge in H
  | H : (_ <=? _) = true |- _ => apply Z.leb_le in H
  | H : (_ <=? _) = false |- _ => apply Z.leb_gt in H
  | H : negb _ = true |- _ => apply negb_true_iff in H
  | H : negb _ = false |- _ => apply negb_false_iff in H
  | H : (_ && _) = true |- _ => apply andb_true_iff in H; destruct H
  | H : (_ || _) = false |- _ => apply orb_false_iff in H; destruct H
  end.

(** ** Generic facts on list updates *)

Section lists.
Context {A : Type}.
Implicit Types l : list A.

Lemma lookup_total_insert_eq `{!Inhabited A} l i x :
  (i < length l)%nat -> <[i:=x]> l !!! i = x.
Proof. intros. by apply list_lookup_total_insert_eq. Qed.

Lemma insert_total_id `{!Inhabited A} l i : <[i:=l !!! i]> l = l.
Proof.
  destruct (decide (i < length l)%nat).
  - apply list_insert_id. by apply list_lookup_lookup_total_lt.
  - apply list_insert_ge. lia.
Qed.

Lemma forallb_total `{!Inhabited A} (f : A -> bool) l i :
  forallb f l = true -> (i < length l)%nat -> f (l !!! i) = true.
Proof.
  intros Hf Hi. rewrite forallb_forall in Hf. apply Hf.
  apply list_elem_of_In, list_elem_of_lookup. exists i. by apply list_lookup_lookup_total_lt.
Qed.

Lemma Forall_insert_intro (P : A -> Prop) l i x :
  Forall P l -> P x -> Forall P (<[i:=x]> l).
Proof. intros. by apply Forall_insert. Qed.
End lists.
