(* ===== verification/CString.v ===== *)
(** * [string.c]: the kernel's memory and string routines.

    Memory is the function from addresses to bytes; objects do not wrap
    around the address space.  A [char *] argument that is only read up to
    its NUL is the list of bytes from the pointer on, and a read past the end
    of the list is the terminating NUL. *)

From S2P Require Import Prelude.

(** ** Memory *)

Definition mem : Type := Z -> Z.

Definition store (m : mem) (a v : Z) : mem := fun x => if x =? a then v else m x.

Lemma store_eq m a v : store m a v a = v.
Proof. unfold store. by rewrite Z.eqb_refl. Qed.

Lemma store_ne m a v x : x <> a -> store m a v x = m x.
Proof. intros. unfold store. by rewrite (proj2 (Z.eqb_neq x a)). Qed.

(** [rep stosb]: [cnt] bytes, the low byte of [data]. *)
Fixpoint stosb (m : mem) (addr data : Z) (cnt : nat) : mem :=
  match cnt with
  | O => m
  | S n => stosb (store m addr (Z.land data 255)) (addr + 1) data n
  end.

(** A 32-bit store, little-endian. *)
Definition store32 (m : mem) (a w : Z) : mem :=
  store (store (store (store m a (Z.land w 255))
    (a + 1) (Z.land (Z.shiftr w 8) 255))
    (a + 2) (Z.land (Z.shiftr w 16) 255))
    (a + 3) (Z.land (Z.shiftr w 24) 255).

(** [rep stosl]: [cnt] 32-bit words. *)
Fixpoint stosl (m : mem) (addr data : Z) (cnt : nat) : mem :=
  match cnt with
  | O => m
  | S n => stosl (store32 m addr data) (addr + 4) data n
  end.

Definition memset (m : mem) (dst c n : Z) : mem :=
  if (Z.rem (s32 dst) 4 =? 0) && (n mod 4 =? 0) then
    let c := Z.land c 255 in
    stosl m dst (s32 (Z.lor (Z.lor (Z.lor (Z.shiftl c 24) (Z.shiftl c 16)) (Z.shiftl c 8)) c))
      (Z.to_nat (n / 4))
  else stosb m dst c (Z.to_nat n).

Fixpoint copy_down (m : mem) (d s : Z) (n : nat) : mem :=
  match n with
  | O => m
  | S n' => copy_down (store m (d - 1) (m (s - 1))) (d - 1) (s - 1) n'
  end.

Fixpoint copy_up (m : mem) (d s : Z) (n : nat) : mem :=
  match n with
  | O => m
  | S n' => copy_up (store m d (m s)) (d + 1) (s + 1) n'
  end.

Definition memmove (m : mem) (dst src n : Z) : mem :=
  if (src <? dst) && (dst <? src + n) then
    copy_down m (dst + n) (src + n) (Z.to_nat n)
  else copy_up m dst src (Z.to_nat n).

Definition memcpy (m : mem) (dst src n : Z) : mem := memmove m dst src n.

(** [while(n-- > 0)] over two byte arrays; the result is the [int]
    difference of the first bytes that differ. *)
Fixpoint memcmp (s1 s2 : list Z) (n : nat) : Z :=
  match n with
  | O => 0
  | S n' =>
      if negb (hd 0 s1 =? hd 0 s2) then hd 0 s1 - hd 0 s2
      else memcmp (tl s1) (tl s2) n'
  end.

(** ** Strings *)

Fixpoint strncmp (p q : list Z) (n : nat) : Z :=
  match n with
  | O => 0
  | S n' =>
      if negb (hd 0 p =? 0) && (hd 0 p =? hd 0 q) then strncmp (tl p) (tl q) n'
      else u8 (hd 0 p) - u8 (hd 0 q)
  end.

(** The bytes [strncpy] writes to its destination, [n] of them: the first
    loop up to and including the NUL, the second one for the rest. *)
Fixpoint strncpy_bytes (t : list Z) (n : nat) : list Z :=
  match n with
  | O => []
  | S n' =>
      let c := hd 0 t in
      if c =? 0 then c :: replicate n' 0 else c :: strncpy_bytes (tl t) n'
  end.

Definition strncpy (s t : list Z) (n : Z) : list Z :=
  splice 0 (strncpy_bytes t (Z.to_nat n)) s.

(** The bytes [safestrcpy] writes: the loop runs while [--n > 0], then one
    NUL is stored where the loop stopped. *)
Fixpoint safestrcpy_bytes (t : list Z) (n : nat) : list Z :=
  match n with
  | O => [0]
  | S n' =>
      let c := hd 0 t in
      if c =? 0 then [c; 0] else c :: safestrcpy_bytes (tl t) n'
  end.

Definition safestrcpy (s t : list Z) (n : Z) : list Z :=
  if n <=? 0 then s else splice 0 (safestrcpy_bytes t (Z.to_nat (n - 1))) s.

Fixpoint strlen (s : list Z) : Z :=
  match s with
  | [] => 0
  | c :: s' => if c =? 0 then 0 else 1 + strlen s'
  end.

(** ** Reference notions *)

(** The bytes of a string literal. *)
Fixpoint str (s : string) : list Z :=
  match s with
  | EmptyString => []
  | String c s' => Z.of_N (Ascii.N_of_ascii c) :: str s'
  end.

(** The C string held in an array: its bytes up to the first NUL. *)
Fixpoint cstr (s : list Z) : list Z :=
  match s with
  | [] => []
  | c :: s' => if c =? 0 then [] else c :: cstr s'
  end.

(** ** Properties of the memory routines *)

Lemma stosb_spec m a c n x :
  stosb m a c n x = if (a <=? x) && (x <? a + Z.of_nat n) then Z.land c 255 else m x.
Proof.
  revert m a. induction n as [|n IH]; intros m a; cbn [stosb].
  - zdec.
  - rewrite IH. unfold store. zdec.
Qed.

Lemma stosb_split m a c n k x : stosb m a c (n + k) x = stosb (stosb m a c n) (a + Z.of_nat n) c k x.
Proof.
  rewrite !stosb_spec. zdec.
Qed.

(** The word [memset] hands to [stosl] repeats the byte four times. *)
Lemma memset_word_bytes c k :
  0 <= c < 256 -> 0 <= k < 4 ->
  Z.land (Z.shiftr (s32 (Z.lor (Z.lor (Z.lor (Z.shiftl c 24) (Z.shiftl c 16)) (Z.shiftl c 8)) c))
    (8 * k)) 255 = c.
Proof.
  intros Hc Hk.
  assert (Hw : Z.lor (Z.lor (Z.lor (Z.shiftl c 24) (Z.shiftl c 16)) (Z.shiftl c 8)) c
    = c * 16777216 + c * 65536 + c * 256 + c).
  { assert (Hall : forall i : nat, (i < 256)%nat ->
      let c := Z.of_nat i in
      (Z.lor (Z.lor (Z.lor (Z.shiftl c 24) (Z.shiftl c 16)) (Z.shiftl c 8)) c
       =? c * 16777216 + c * 65536 + c * 256 + c) = true).
    { intros i Hi. apply (proj1 (forallb_forall (fun i => let c := Z.of_nat i in
        (Z.lor (Z.lor (Z.lor (Z.shiftl c 24) (Z.shiftl c 16)) (Z.shiftl c 8)) c
         =? c * 16777216 + c * 65536 + c * 256 + c)) (List.seq 0 256)) ltac:(vm_compute; reflexivity)).
      apply in_seq. lia. }
    specialize (Hall (Z.to_nat c) ltac:(lia)). cbv zeta in Hall.
    rewrite Z2Nat.id in Hall by lia. by apply Z.eqb_eq in Hall. }
  rewrite Hw. change 255 with (Z.ones 8). rewrite Z.land_ones, Z.shiftr_div_pow2 by lia.
  unfold s32.
  assert (Hk4 : k = 0 \/ k = 1 \/ k = 2 \/ k = 3) by lia.
  set (w := c * 16777216 + c * 65536 + c * 256 + c).
  assert (Hmod : exists q, (w + 2147483648) mod 4294967296 - 2147483648 = w - 4294967296 * q).
  { exists ((w + 2147483648) / 4294967296). pose proof (Z.div_mod (w + 2147483648) 4294967296). lia. }
  destruct Hmod as [q ->]. subst w.
  destruct Hk4 as [->|[->|[->| ->]]]; cbn [Z.mul Z.pow Z.pow_pos Pos.iter Pos.mul].
  all: change (2 ^ 8) with 256; change (2^16) with 65536; change (2^24) with 16777216;
       change (2 ^ 0) with 1; rewrite ?Z.div_1_r; Z.div_mod_to_equations; lia.
Qed.

Lemma store32_bytes m a c x :
  0 <= c < 256 ->
  store32 m a (s32 (Z.lor (Z.lor (Z.lor (Z.shiftl c 24) (Z.shiftl c 16)) (Z.shiftl c 8)) c)) x
  = stosb m a c 4 x.
Proof.
  intros Hc. rewrite stosb_spec. unfold store32.
  pose proof (memset_word_bytes c 0 Hc ltac:(lia)) as H0. rewrite Z.shiftr_0_r in H0.
  pose proof (memset_word_bytes c 1 Hc ltac:(lia)) as H1. change (8 * 1) with 8 in H1.
  pose proof (memset_word_bytes c 2 Hc ltac:(lia)) as H2. change (8 * 2) with 16 in H2.
  pose proof (memset_word_bytes c 3 Hc ltac:(lia)) as H3. change (8 * 3) with 24 in H3.
  rewrite H0, H1, H2, H3. clear H0 H1 H2 H3.
  change 255 with (Z.ones 8). rewrite (Z.land_ones c 8), (Z.mod_small c) by lia.
  unfold store. zdec.
Qed.

Lemma stosl_bytes m a c n x :
  0 <= c < 256 ->
  stosl m a (s32 (Z.lor (Z.lor (Z.lor (Z.shiftl c 24) (Z.shiftl c 16)) (Z.shiftl c 8)) c)) n x
  = stosb m a c (4 * n) x.
Proof.
  intros Hc. revert m a. induction n as [|n IH]; intros m a; [done|].
  cbn [stosl]. rewrite IH. replace (4 * S n)%nat with (4 + 4 * n)%nat by lia.
  rewrite stosb_split. rewrite !stosb_spec.
  rewrite store32_bytes by done. by rewrite stosb_spec.
Qed.

(** C-numbered properties are stated in the files of the components; here
    the two routines every other file relies on. *)
Lemma memset_spec m dst c n x :
  0 <= n ->
  memset m dst c n x = if (dst <=? x) && (x <? dst + n) then Z.land c 255 else m x.
Proof.
  intros Hn. unfold memset. case_match eqn:E.
  - zcase. rewrite stosl_bytes.
    + rewrite stosb_spec. replace (Z.of_nat (4 * Z.to_nat (n / 4))) with n by (Z.div_mod_to_equations; lia).
      change 255 with (Z.ones 8). rewrite !Z.land_ones by lia. by rewrite Z.mod_mod by lia.
    + change 255 with (Z.ones 8). rewrite Z.land_ones by lia. apply Z.mod_pos_bound. lia.
  - rewrite stosb_spec. by rewrite Z2Nat.id.
Qed.

Lemma copy_up_spec m d s n x :
  ~ (s < d < s + Z.of_nat n) ->
  copy_up m d s n x = if (d <=? x) && (x <? d + Z.of_nat n) then m (s + (x - d)) else m x.
Proof.
  revert m d s. induction n as [|n IH]; intros m d s Hov; cbn [copy_up].
  - zdec.
  - rewrite IH by lia. unfold store. zdec; f_equal; lia.
Qed.

Lemma copy_down_spec m d s n x :
  ~ (d < s < d + Z.of_nat n) ->
  copy_down m (d + Z.of_nat n) (s + Z.of_nat n) n x =
    if (d <=? x) && (x <? d + Z.of_nat n) then m (s + (x - d)) else m x.
Proof.
  revert m. induction n as [|n IH]; intros m Hov; cbn [copy_down].
  - zdec.
  - replace (d + Z.of_nat (S n) - 1) with (d + Z.of_nat n) by lia.
    replace (s + Z.of_nat (S n) - 1) with (s + Z.of_nat n) by lia.
    rewrite IH by lia. unfold store. zdec; f_equal; lia.
Qed.

Lemma memmove_spec m dst src n x :
  0 <= n ->
  memmove m dst src n x = if (dst <=? x) && (x <? dst + n) then m (src + (x - dst)) else m x.
Proof.
  intros Hn. unfold memmove. replace n with (Z.of_nat (Z.to_nat n)) by lia.
  rewrite Nat2Z.id. case_match eqn:E.
  - zcase. apply copy_down_spec. lia.
  - apply copy_up_spec. intros ?. apply andb_false_iff in E as [E|E]; zcase; lia.
Qed.

(** ** Properties of the string routines *)

Lemma strncmp_zero p q n :
  Forall is_byte p -> Forall is_byte q ->
  strncmp p q n = 0 <-> take n (cstr p) = take n (cstr q).
Proof.
  revert p q. induction n as [|n IH]; intros p q Hp Hq; [done|].
  assert (Hh : forall l, Forall is_byte l -> u8 (hd 0 l) = hd 0 l).
  { intros [|b l] Hl; [done|]. apply Forall_cons in Hl as [? ?]. by apply u8_small. }
  cbn [strncmp]. rewrite !Hh by done.
  destruct p as [|a p]; destruct q as [|b q]; simpl.
  - done.
  - destruct (Z.eqb_spec b 0) as [->|Hb]; [done|]. split; [|done].
    apply Forall_cons in Hq as [[??] ?]. lia.
  - destruct (Z.eqb_spec a 0) as [->|Ha]; simpl; [done|].
    split; [lia|done].
  - apply Forall_cons in Hp as [Ha Hp]. apply Forall_cons_iff in Hq as [Hb Hq].
    destruct (Z.eqb_spec a 0) as [->|Ha0]; simpl.
    + destruct (Z.eqb_spec b 0) as [->|Hb0]; [done|]. split; [lia|done].
    + destruct (Z.eqb_spec a b) as [->|Hab].
      * rewrite (proj2 (Z.eqb_neq b 0)) by done. rewrite IH by done. split; [by intros ->|by intros [= ->]].
      * split; [lia|]. destruct (Z.eqb_spec b 0); intros [=]; done.
Qed.

Lemma length_strncpy_bytes t n : length (strncpy_bytes t n) = n.
Proof.
  revert t. induction n as [|n IH]; intros t; [done|]. cbn [strncpy_bytes]. cbv zeta.
  case_match; simpl; [by rewrite length_replicate|by rewrite IH].
Qed.

Lemma cstr_replicate_0 n : cstr (replicate n 0) = [].
Proof. by destruct n. Qed.

Lemma strncpy_bytes_cstr t n : cstr (strncpy_bytes t n) = take n (cstr t).
Proof.
  revert t. induction n as [|n IH]; intros t; [done|]. cbn [strncpy_bytes]. cbv zeta.
  destruct t as [|c t]; simpl; [done|].
  destruct (Z.eqb_spec c 0) as [->|Hc]; simpl; [done|].
  rewrite (proj2 (Z.eqb_neq c 0)) by done. by rewrite IH.
Qed.

Lemma strncpy_bytes_bytes t n : Forall is_byte t -> Forall is_byte (strncpy_bytes t n).
Proof.
  revert t. induction n as [|n IH]; intros t Ht; [constructor|]. cbn [strncpy_bytes]. cbv zeta.
  assert (is_byte (hd 0 t)) by (destruct Ht; [split; simpl; lia|done]).
  case_match; constructor; try done.
  - by apply Forall_replicate.
  - apply IH. by destruct Ht.
Qed.

Lemma length_safestrcpy_bytes t n : (1 <= length (safestrcpy_bytes t n) <= S n)%nat.
Proof.
  revert t. induction n as [|n IH]; intros t; cbn [safestrcpy_bytes]; cbv zeta; [simpl; lia|].
  case_match; simpl; [lia|]. specialize (IH (tl t)). lia.
Qed.

Lemma safestrcpy_bytes_cstr t n rest :
  cstr (safestrcpy_bytes t n ++ rest) = take n (cstr t).
Proof.
  revert t. induction n as [|n IH]; intros t; cbn [safestrcpy_bytes]; cbv zeta; [done|].
  destruct t as [|c t]; simpl; [done|].
  destruct (Z.eqb_spec c 0) as [->|Hc]; simpl; [done|].
  rewrite (proj2 (Z.eqb_neq c 0)) by done. by rewrite IH.
Qed.

Lemma safestrcpy_terminated t n : 0 ∈ safestrcpy_bytes t n.
Proof.
  revert t. induction n as [|n IH]; intros t; cbn [safestrcpy_bytes]; cbv zeta; [by left|].
  case_match; right; [by left|done].
Qed.

Lemma strlen_cstr s : strlen s = Z.of_nat (length (cstr s)).
Proof. induction s as [|c s IH]; simpl; [done|]. case_match; simpl; lia. Qed.

Lemma memcmp_zero s1 s2 n :
  (n <= length s1)%nat -> (n <= length s2)%nat ->
  memcmp s1 s2 n = 0 <-> take n s1 = take n s2.
Proof.
  revert s1 s2. induction n as [|n IH]; intros s1 s2 H1 H2; [done|].
  destruct s1 as [|a s1]; [simpl in H1; lia|]. destruct s2 as [|b s2]; [simpl in H2; lia|].
  simpl in *. destruct (Z.eqb_spec a b) as [->|Hab]; simpl.
  - rewrite IH by lia. split; [by intros ->|by intros [= ->]].
  - split; [lia|]. by intros [= ?].
Qed.
