(* ===== verification/Params.v ===== *)
(** * [param.h], [fs.h], [buf.h], [stat.h], [fcntl.h]: the constants and on-disk layout
    the kernel files share. *)

From S2P Require Import Prelude.

Definition NPROC : Z := 64.
Definition KSTACKSIZE : Z := 4096.
Definition NOFILE : Z := 16.
Definition NFILE : Z := 100.
Definition NINODE : nat := 50.
Definition NDEV : Z := 10.
Definition ROOTDEV : Z := 1.
Definition MAXARG : Z := 32.
Definition MAXOPBLOCKS : Z := 10.
Definition LOGSIZE : Z := MAXOPBLOCKS * 3.
Definition NBUF : nat := 30.
Definition FSSIZE : Z := 1000.

Definition ROOTINO : Z := 1.
Definition BSIZE : nat := 512.
Definition NDIRECT : Z := 12.
Definition NINDIRECT : Z := 128.
Definition MAXFILE : Z := NDIRECT + NINDIRECT.
Definition BPB : Z := 4096.
Definition DIRSIZ : nat := 14.

(** [sizeof(struct dinode)]: four [short]s, a [uint] and [NDIRECT+1] [uint]s. *)
Definition DINODE_SIZE : nat := 64.
Definition IPB : Z := 8.

(** [sizeof(struct dirent)]. *)
Definition DIRENT_SIZE : Z := 16.

Definition T_DIR : Z := 1.
Definition T_FILE : Z := 2.
Definition T_DEV : Z := 3.

Definition O_RDONLY : Z := 0.
Definition O_WRONLY : Z := 1.
Definition O_RDWR : Z := 2.
Definition O_CREATE : Z := 0x200.

Definition B_VALID : Z := 2.
Definition B_DIRTY : Z := 4.

(** A disk block and the property that it is one. *)
Abbreviation block := (list Z).
Definition block_ok (d : block) : Prop := length d = BSIZE /\ Forall is_byte d.

(** The super block. *)
Record superblock := mkSuperblock {
  sb_size : Z;
  sb_nblocks : Z;
  sb_ninodes : Z;
  sb_nlog : Z;
  sb_logstart : Z;
  sb_inodestart : Z;
  sb_bmapstart : Z;
}.

Definition IBLOCK (i : Z) (sb : superblock) : Z := i / IPB + sb_inodestart sb.
Definition BBLOCK (b : Z) (sb : superblock) : Z := b / BPB + sb_bmapstart sb.

Definition zero_block : block := replicate BSIZE 0.

Lemma zero_block_ok : block_ok zero_block.
Proof. split; [unfold zero_block; by rewrite length_replicate|]. by apply Forall_replicate. Qed.

Lemma block_ok_splice o x d :
  block_ok d -> Forall is_byte x -> (o + length x <= BSIZE)%nat -> block_ok (splice o x d).
Proof.
  intros [Hl Hb] Hx Ho. split; [by rewrite length_splice; rewrite Hl|]. by apply Forall_splice.
Qed.

Lemma block_ok_put_u32 o v d : block_ok d -> (o + 4 <= BSIZE)%nat -> block_ok (put_u32 o v d).
Proof. intros. apply block_ok_splice; [done|auto with xv6|by rewrite length_le_bytes]. Qed.

#[export] Hint Resolve zero_block_ok block_ok_put_u32 : xv6.

(** Constants are kept folded in goals: [lia] sees them as numbers only
    where a proof asks for it. *)
Ltac unfold_params :=
  unfold NBUF, BSIZE, LOGSIZE, MAXOPBLOCKS, NDIRECT, NINDIRECT, MAXFILE, BPB, IPB,
    DIRENT_SIZE, DINODE_SIZE, DIRSIZ, FSSIZE, NINODE in *.
