(* ===== verification/Mmu.v ===== *)
(** * [mmu.h], [memlayout.h]: page arithmetic, and memory by words.

    Addresses are 32-bit numbers; [~(PGSIZE-1)] is the mask of the upper
    twenty bits. *)

From S2P Require Import Prelude CString.

Definition KERNBASE : Z := 0x80000000.
Definition PHYSTOP : Z := 0xE000000.
Definition EXTMEM : Z := 0x100000.
Definition DEVSPACE : Z := 0xFE000000.
Definition KERNLINK : Z := KERNBASE + EXTMEM.
Definition V2P (a : Z) : Z := u32 (a - KERNBASE).
Definition P2V (a : Z) : Z := u32 (a + KERNBASE).

Definition PGSIZE : Z := 4096.
Definition PTXSHIFT : Z := 12.
Definition PDXSHIFT : Z := 22.
Definition NPDENTRIES : Z := 1024.
Definition NPTENTRIES : Z := 1024.
Definition PGMASK : Z := 0xFFFFF000.
Definition PGROUNDUP (sz : Z) : Z := Z.land (u32 (sz + PGSIZE - 1)) PGMASK.
Definition PGROUNDDOWN (a : Z) : Z := Z.land a PGMASK.
Definition PDX (va : Z) : Z := Z.land (Z.shiftr va PDXSHIFT) 0x3FF.
Definition PTX (va : Z) : Z := Z.land (Z.shiftr va PTXSHIFT) 0x3FF.
Definition PGADDR (d t o : Z) : Z := u32 (Z.lor (Z.lor (Z.shiftl d PDXSHIFT) (Z.shiftl t PTXSHIFT)) o).
Definition PTE_P : Z := 1.
Definition PTE_W : Z := 2.
Definition PTE_U : Z := 4.
Definition PTE_PS : Z := 128.
Definition PTE_ADDR (pte : Z) : Z := Z.land pte PGMASK.
Definition PTE_FLAGS (pte : Z) : Z := Z.land pte 0xFFF.

(** ** Arithmetic readings *)

Lemma land_pgmask x : 0 <= x < 4294967296 -> Z.land x PGMASK = PGSIZE * (x / PGSIZE).
Proof.
  intros Hx. change PGMASK with (Z.ldiff (Z.ones 32) (Z.ones 12)). change PGSIZE with (2 ^ 12).
  transitivity (Z.ldiff x (Z.ones 12)).
  - rewrite <- (Z.mod_small x (2 ^ 32)) at 2 by lia. rewrite <- Z.land_ones by lia.
    apply Z.bits_inj'. intros n Hn. rewrite Z.ldiff_spec, !Z.land_spec, Z.ldiff_spec.
    by destruct (Z.testbit x n), (Z.testbit (Z.ones 32) n), (Z.testbit (Z.ones 12) n).
  - rewrite Z.ldiff_ones_r, Z.shiftl_mul_pow2, Z.shiftr_div_pow2 by lia. lia.
Qed.

Ltac pglia := unfold PGSIZE, KERNBASE, PHYSTOP, u32 in *; Z.to_euclidean_division_equations; lia.

Lemma PGROUNDDOWN_spec a : 0 <= a < 4294967296 -> PGROUNDDOWN a = PGSIZE * (a / PGSIZE).
Proof. apply land_pgmask. Qed.

Lemma PGROUNDDOWN_bounds a :
  0 <= a < 4294967296 -> PGROUNDDOWN a mod PGSIZE = 0 /\ PGROUNDDOWN a <= a < PGROUNDDOWN a + PGSIZE /\ 0 <= PGROUNDDOWN a.
Proof. intros Ha. rewrite PGROUNDDOWN_spec by done. pglia. Qed.

(** Rounding up is exact unless the address is in the last page. *)
Lemma PGROUNDUP_spec sz :
  0 <= sz <= 4294967296 - PGSIZE -> PGROUNDUP sz = PGSIZE * ((sz + PGSIZE - 1) / PGSIZE).
Proof.
  intros Hs. unfold PGROUNDUP. rewrite land_pgmask by apply u32_range.
  by rewrite u32_small by (unfold PGSIZE in *; lia).
Qed.

Lemma PGROUNDUP_bounds sz :
  0 <= sz <= 4294967296 - PGSIZE ->
  PGROUNDUP sz mod PGSIZE = 0 /\ sz <= PGROUNDUP sz < sz + PGSIZE /\ PGROUNDUP sz < 4294967296.
Proof. intros Hs. rewrite PGROUNDUP_spec by done. pglia. Qed.

Lemma PDX_spec va : 0 <= va < 4294967296 -> PDX va = va / 4194304.
Proof.
  intros Hv. unfold PDX, PDXSHIFT. change 0x3FF with (Z.ones 10).
  rewrite Z.land_ones, Z.shiftr_div_pow2 by lia. change (2 ^ 22) with 4194304. change (2 ^ 10) with 1024.
  apply Z.mod_small. Z.to_euclidean_division_equations; lia.
Qed.

Lemma PTX_spec va : 0 <= va < 4294967296 -> PTX va = (va / PGSIZE) mod 1024.
Proof.
  intros Hv. unfold PTX, PTXSHIFT. change 0x3FF with (Z.ones 10).
  by rewrite Z.land_ones, Z.shiftr_div_pow2 by lia.
Qed.

Lemma PTE_ADDR_spec pte : 0 <= pte < 4294967296 -> PTE_ADDR pte = PGSIZE * (pte / PGSIZE).
Proof. apply land_pgmask. Qed.

Lemma PTE_FLAGS_spec pte : PTE_FLAGS pte = pte mod PGSIZE.
Proof. unfold PTE_FLAGS. change 0xFFF with (Z.ones 12). by rewrite Z.land_ones by lia. Qed.

(** A page-aligned address and twelve flag bits do not overlap. *)
Lemma lor_page_flags pa f : pa mod PGSIZE = 0 -> 0 <= f < PGSIZE -> Z.lor pa f = pa + f.
Proof.
  intros Hp Hf. change PGSIZE with (2 ^ 12) in *.
  assert (E : Z.land pa f = 0).
  { rewrite <- (Z.mod_small f (2 ^ 12)), <- Z.land_ones by lia.
    rewrite (Z.land_comm f), Z.land_assoc, Z.land_ones, Hp by lia. apply Z.land_0_l. }
  pose proof (Z.add_lor_land pa f). lia.
Qed.

Lemma pte_make pa f :
  0 <= pa < 4294967296 -> pa mod PGSIZE = 0 -> 0 <= f < PGSIZE ->
  PTE_ADDR (Z.lor pa f) = pa /\ PTE_FLAGS (Z.lor pa f) = f /\ 0 <= Z.lor pa f < 4294967296.
Proof.
  intros Hr Hp Hf. rewrite (lor_page_flags pa f Hp Hf).
  assert (0 <= pa + f < 4294967296) by pglia.
  rewrite PTE_ADDR_spec, PTE_FLAGS_spec by done. split_and!; pglia.
Qed.

(** Two addresses with the same indices are in the same page. *)
Lemma same_indices a b :
  0 <= a < 4294967296 -> 0 <= b < 4294967296 -> PDX a = PDX b -> PTX a = PTX b -> a / PGSIZE = b / PGSIZE.
Proof. intros Ha Hb. rewrite !PDX_spec, !PTX_spec by done. pglia. Qed.

(** ** Words in memory *)

Definition load32 (m : mem) (a : Z) : Z := m a + 256 * (m (a + 1) + 256 * (m (a + 2) + 256 * m (a + 3))).

Lemma land_255 x : Z.land x 255 = x mod 256.
Proof. change 255 with (Z.ones 8). by rewrite Z.land_ones by lia. Qed.

Lemma load32_store32_eq m a w : 0 <= w < 4294967296 -> load32 (store32 m a w) a = w.
Proof.
  intros Hw. unfold load32, store32, store. rewrite !land_255, !Z.shiftr_div_pow2 by lia.
  rewrite !Z.eqb_refl. repeat (rewrite (proj2 (Z.eqb_neq _ _)) by lia).
  change (2 ^ 8) with 256. change (2 ^ 16) with 65536. change (2 ^ 24) with 16777216.
  Z.to_euclidean_division_equations; lia.
Qed.

Lemma load32_ext m m' a :
  (forall i, 0 <= i < 4 -> m (a + i) = m' (a + i)) -> load32 m a = load32 m' a.
Proof.
  intros H. unfold load32. pose proof (H 0 ltac:(lia)) as H0. rewrite Z.add_0_r in H0.
  by rewrite H0, !H by lia.
Qed.

Lemma store32_frame m a w x : (x < a \/ a + 4 <= x) -> store32 m a w x = m x.
Proof. intros Hx. unfold store32, store. repeat (rewrite (proj2 (Z.eqb_neq _ _)) by lia). done. Qed.

Lemma store32_in m a w i : 0 <= i < 4 -> store32 m a w (a + i) = (w / 256 ^ i) mod 256.
Proof.
  intros Hi. assert (i = 0 \/ i = 1 \/ i = 2 \/ i = 3) as [->|[->|[->| ->]]] by lia;
    unfold store32, store; rewrite !land_255, !Z.shiftr_div_pow2 by lia; zdec.
  - by rewrite Z.div_1_r.
Qed.

Lemma load32_store32_ne m a b w : (a + 4 <= b \/ b + 4 <= a) -> load32 (store32 m a w) b = load32 m b.
Proof. intros Hab. apply load32_ext. intros i Hi. apply store32_frame. lia. Qed.

(** A memory of bytes holds words in range. *)
Definition bytes_mem (m : mem) : Prop := forall x, 0 <= m x < 256.

Lemma load32_range m a : bytes_mem m -> 0 <= load32 m a < 4294967296.
Proof.
  intros Hm. unfold load32.
  pose proof (Hm a). pose proof (Hm (a + 1)). pose proof (Hm (a + 2)). pose proof (Hm (a + 3)). lia.
Qed.

Lemma bytes_store32 m a w : bytes_mem m -> bytes_mem (store32 m a w).
Proof.
  intros Hm x. unfold store32, store. rewrite !land_255.
  repeat case_match; try apply Hm; apply Z.mod_pos_bound; lia.
Qed.

Lemma bytes_memset m a c n : bytes_mem m -> 0 <= n -> bytes_mem (memset m a c n).
Proof.
  intros Hm Hn x. rewrite memset_spec by done. case_match; [|apply Hm]. rewrite land_255. apply Z.mod_pos_bound. lia.
Qed.
