(* ===== verification/X86.v ===== *)
(** * The processor: what [swtch.S], [trapasm.S] and the descriptor tables use of it.

    Registers, segment selectors checked against the descriptors in memory, the
    stack, traps through gates, and [iret]. Memory is the kernel's address space, which
    every page directory maps the same way. An exception raised by an instruction is a [Fault]. *)

From S2P Require Import Prelude CString Mmu.

(** ** Half words, double words and bit fields *)

Definition load16 (m : mem) (a : Z) : Z := m a + 256 * m (a + 1).
Definition store16 (m : mem) (a w : Z) : mem := store (store m a (Z.land w 255)) (a + 1) (Z.land (Z.shiftr w 8) 255).

(** Eight bytes. *)
Definition store64 (m : mem) (a w : Z) : mem := store32 (store32 m a (w mod 2 ^ 32)) (a + 4) (w / 2 ^ 32).
Definition load64 (m : mem) (a : Z) : Z := load32 m a + 2 ^ 32 * load32 m (a + 4).

(** Bits [off], ..., [off + w - 1] of [z]. *)
Definition bits (z off w : Z) : Z := Z.land (Z.shiftr z off) (Z.ones w).

(** Bit fields of the given widths, the first in the lowest bits; a value is cut to its width. *)
Fixpoint pack (l : list (Z * Z)) : Z :=
  match l with [] => 0 | (w, v) :: l' => v mod 2 ^ w + 2 ^ w * pack l' end.

(** ** State *)

Inductive r32 := EAX | ECX | EDX | EBX | ESP | EBP | ESI | EDI.
Inductive sreg := CS | DS | ES | FS | GS | SS.

#[export] Instance r32_eq : EqDecision r32.
Proof. solve_decision. Defined.
#[export] Instance sreg_eq : EqDecision sreg.
Proof. solve_decision. Defined.

Record x86 := mkX86 {
  x_reg : r32 -> Z;
  x_seg : sreg -> Z;
  x_eip : Z;
  x_eflags : Z;
  x_cr3 : Z;
  x_gdtr : Z * Z;  (** base and limit *)
  x_idtr : Z * Z;
  x_tr : Z;
  x_mem : mem;
}.

Definition set_reg (r : r32) (v : Z) (s : x86) : x86 :=
  mkX86 (fun q => if decide (q = r) then v else x_reg s q) (x_seg s) (x_eip s) (x_eflags s) (x_cr3 s) (x_gdtr s) (x_idtr s) (x_tr s) (x_mem s).
Definition set_seg (r : sreg) (v : Z) (s : x86) : x86 :=
  mkX86 (x_reg s) (fun q => if decide (q = r) then v else x_seg s q) (x_eip s) (x_eflags s) (x_cr3 s) (x_gdtr s) (x_idtr s) (x_tr s) (x_mem s).
Definition set_eip (v : Z) (s : x86) : x86 := mkX86 (x_reg s) (x_seg s) v (x_eflags s) (x_cr3 s) (x_gdtr s) (x_idtr s) (x_tr s) (x_mem s).
Definition set_eflags (v : Z) (s : x86) : x86 := mkX86 (x_reg s) (x_seg s) (x_eip s) v (x_cr3 s) (x_gdtr s) (x_idtr s) (x_tr s) (x_mem s).
Definition set_cr3 (v : Z) (s : x86) : x86 := mkX86 (x_reg s) (x_seg s) (x_eip s) (x_eflags s) v (x_gdtr s) (x_idtr s) (x_tr s) (x_mem s).
Definition set_gdtr (v : Z * Z) (s : x86) : x86 := mkX86 (x_reg s) (x_seg s) (x_eip s) (x_eflags s) (x_cr3 s) v (x_idtr s) (x_tr s) (x_mem s).
Definition set_idtr (v : Z * Z) (s : x86) : x86 := mkX86 (x_reg s) (x_seg s) (x_eip s) (x_eflags s) (x_cr3 s) (x_gdtr s) v (x_tr s) (x_mem s).
Definition set_tr (v : Z) (s : x86) : x86 := mkX86 (x_reg s) (x_seg s) (x_eip s) (x_eflags s) (x_cr3 s) (x_gdtr s) (x_idtr s) v (x_mem s).
Definition set_xmem (m : mem) (s : x86) : x86 := mkX86 (x_reg s) (x_seg s) (x_eip s) (x_eflags s) (x_cr3 s) (x_gdtr s) (x_idtr s) (x_tr s) m.

(** Current privilege level. *)
Definition cpl (s : x86) : Z := Z.land (x_seg s CS) 3.
Definition rpl (sel : Z) : Z := Z.land sel 3.

(** ** Descriptors *)

(** The eight bytes that a selector names, if the table has them. There is no local table. *)
Definition descriptor (m : mem) (table : Z * Z) (off : Z) : option Z :=
  let '(base, limit) := table in
  if off + 7 <=? limit then Some (load64 m (base + off)) else None.
Definition seg_descriptor (s : x86) (sel : Z) : option Z :=
  if negb (Z.land sel 4 =? 0) then None else descriptor (x_mem s) (x_gdtr s) (8 * Z.shiftr sel 3).
Definition null_sel (sel : Z) : bool := Z.shiftr sel 2 =? 0.

Definition d_base (d : Z) : Z := bits d 16 24 + 2 ^ 24 * bits d 56 8.
Definition d_limit (d : Z) : Z := let l := bits d 0 16 + 2 ^ 16 * bits d 48 4 in if bits d 55 1 =? 1 then l * 4096 + 4095 else l.
Definition d_type (d : Z) : Z := bits d 40 4.
Definition d_s (d : Z) : Z := bits d 44 1.
Definition d_dpl (d : Z) : Z := bits d 45 2.
Definition d_p (d : Z) : Z := bits d 47 1.

Definition is_code (d : Z) : bool := (d_s d =? 1) && Z.testbit (d_type d) 3.
Definition conforming (d : Z) : bool := is_code d && Z.testbit (d_type d) 2.
Definition is_data (d : Z) : bool := (d_s d =? 1) && negb (Z.testbit (d_type d) 3).
Definition writable (d : Z) : bool := is_data d && Z.testbit (d_type d) 1.
Definition readable (d : Z) : bool := is_data d || (is_code d && Z.testbit (d_type d) 1).
Definition present_desc (d : Z) : bool := d_p d =? 1.

(** Loading a data segment register. *)
Definition load_data (r : sreg) (sel : Z) : M x86 unit :=
  s ← get;
  if null_sel sel then modify (set_seg r sel) else
  match seg_descriptor s sel with
  | None => fault
  | Some d =>
      if readable d && present_desc d && (conforming d || ((rpl sel <=? d_dpl d) && (cpl s <=? d_dpl d)))
      then modify (set_seg r sel) else fault
  end.

(** May [sel] be the stack segment at privilege level [p]? *)
Definition stack_ok (s : x86) (p sel : Z) : bool :=
  negb (null_sel sel) &&
  match seg_descriptor s sel with
  | None => false
  | Some d => (rpl sel =? p) && writable d && (d_dpl d =? p) && present_desc d
  end.

(** ** Instructions *)

Definition reg (r : r32) : M x86 Z := gets (fun s => x_reg s r).
Definition seg (r : sreg) : M x86 Z := gets (fun s => x_seg s r).
Definition setr (r : r32) (v : Z) : M x86 unit := modify (set_reg r v).

Definition pushv (v : Z) : M x86 unit :=
  modify (fun s => let sp := u32 (x_reg s ESP - 4) in set_reg ESP sp (set_xmem (store32 (x_mem s) sp v) s)).
Definition popv : M x86 Z :=
  s ← get;
  let sp := x_reg s ESP in
  setr ESP (u32 (sp + 4)) ;; mret (load32 (x_mem s) sp).

(** Pushing a segment register as a word writes four bytes on some processors and two on others. *)
Class Pushseg := pushes_word : bool.
Definition pushseg `{!Pushseg} (v : Z) : M x86 unit :=
  modify (fun s => let sp := u32 (x_reg s ESP - 4) in
    set_reg ESP sp (set_xmem (if pushes_word then store32 (x_mem s) sp v else store16 (x_mem s) sp v) s)).

Inductive instr :=
| PUSHL (r : r32) | PUSHI (v : Z) | PUSHS (r : sreg) | PUSHAL
| POPL (r : r32) | POPS (r : sreg) | POPAL
| MOVL (src dst : r32) | MOVI (v : Z) (dst : r32)
| LOADL (disp : Z) (base dst : r32) | STOREL (src base : r32)
| MOVW (v : Z)       (** [movw $v, %ax] *)
| MOVAX (r : sreg)   (** [movw %ax, %r] *)
| ADDI (v : Z) (r : r32)
| RET.

Definition step `{!Pushseg} (i : instr) : M x86 unit :=
  match i with
  | PUSHL r => v ← reg r; pushv v
  | PUSHI v => pushv v
  | PUSHS r => v ← seg r; pushseg v
  | PUSHAL =>
      sp ← reg ESP;
      (a ← reg EAX; pushv a) ;; (a ← reg ECX; pushv a) ;; (a ← reg EDX; pushv a) ;; (a ← reg EBX; pushv a) ;;
      pushv sp ;; (a ← reg EBP; pushv a) ;; (a ← reg ESI; pushv a) ;; (a ← reg EDI; pushv a)
  | POPL r => v ← popv; setr r v
  | POPS r => v ← popv; load_data r (u16 v)
  | POPAL =>
      (a ← popv; setr EDI a) ;; (a ← popv; setr ESI a) ;; (a ← popv; setr EBP a) ;; popv ;;
      (a ← popv; setr EBX a) ;; (a ← popv; setr EDX a) ;; (a ← popv; setr ECX a) ;; (a ← popv; setr EAX a)
  | MOVL src dst => v ← reg src; setr dst v
  | MOVI v dst => setr dst v
  | LOADL disp base dst => b ← reg base; v ← gets (fun s => load32 (x_mem s) (u32 (b + disp))); setr dst v
  | STOREL src base => v ← reg src; b ← reg base; modify (fun s => set_xmem (store32 (x_mem s) b v) s)
  | MOVW v => a ← reg EAX; setr EAX (65536 * (a / 65536) + v)
  | MOVAX r => a ← reg EAX; load_data r (u16 a)
  | ADDI v r => a ← reg r; setr r (u32 (a + v))
  | RET => v ← popv; modify (set_eip v)
  end.

Fixpoint run `{!Pushseg} (l : list instr) : M x86 unit :=
  match l with [] => mret tt | i :: l' => step i ;; run l' end.

(** ** Traps and [iret] *)

Definition EF_TF : Z := 0x100.
Definition EF_IF : Z := 0x200.
Definition EF_NT : Z := 0x4000.
Definition EF_RF : Z := 0x10000.
Definition EF_VM : Z := 0x20000.

Definition g_off (d : Z) : Z := bits d 0 16 + 2 ^ 16 * bits d 48 16.
Definition g_sel (d : Z) : Z := bits d 16 16.

(** The stack for level 0 in the task state that [tr] names. *)
Definition tss_stack (s : x86) : option (Z * Z) :=
  match seg_descriptor s (x_tr s) with
  | None => None
  | Some d => if 9 <=? d_limit d then Some (load16 (x_mem s) (d_base d + 8), load32 (x_mem s) (d_base d + 4)) else None
  end.

(** Trap [n]: by [int] when [soft], and with an error code for some exceptions. *)
Definition interrupt `{!Pushseg} (soft : bool) (n : Z) (err : option Z) : M x86 unit :=
  s ← get;
  match descriptor (x_mem s) (x_idtr s) (8 * n) with
  | None => fault
  | Some g =>
      if negb ((d_s g =? 0) && (Z.lor (d_type g) 1 =? 15) && present_desc g) || (soft && (d_dpl g <? cpl s)) then fault else
      match seg_descriptor s (g_sel g) with
      | None => fault
      | Some c =>
          if null_sel (g_sel g) || negb (is_code c && negb (conforming c) && present_desc c) || (cpl s <? d_dpl c) then fault else
          (if d_dpl c <? cpl s then
             match tss_stack s with
             | None => fault
             | Some (ss, esp) =>
                 if negb (stack_ok s (d_dpl c) ss) then fault else
                 setr ESP esp ;; modify (set_seg SS ss) ;;
                 pushseg (x_seg s SS) ;; pushv (x_reg s ESP)
             end
           else mret tt) ;;
          pushv (x_eflags s) ;; pushseg (x_seg s CS) ;; pushv (x_eip s) ;;
          match err with Some e => pushv e | None => mret tt end ;;
          modify (set_seg CS (Z.lor (Z.land (g_sel g) (Z.lnot 3)) (d_dpl c))) ;;
          modify (set_eip (g_off g)) ;;
          modify (fun s => set_eflags (Z.ldiff (x_eflags s) (Z.lor (EF_TF + EF_NT + EF_RF + EF_VM) (if Z.testbit (d_type g) 0 then 0 else EF_IF))) s)
      end
  end.

(** On the way out a data segment that the outer level may not use becomes null. *)
Definition drop_seg (r : sreg) : M x86 unit :=
  s ← get;
  match seg_descriptor s (x_seg s r) with
  | Some d => if negb (null_sel (x_seg s r)) && negb (conforming d) && (d_dpl d <? cpl s) then modify (set_seg r 0) else mret tt
  | None => mret tt
  end.

Definition iret : M x86 unit :=
  fl ← gets x_eflags;
  if negb (Z.land fl EF_NT =? 0) then fault else
  eip ← popv; cs ← popv; eflags ← popv;
  let cs := u16 cs in
  if negb (Z.land eflags EF_VM =? 0) then fault else
  s ← get;
  match seg_descriptor s cs with
  | None => fault
  | Some d =>
      if null_sel cs || negb (is_code d && negb (conforming d) && present_desc d && (d_dpl d =? rpl cs)) || (rpl cs <? cpl s) then fault else
      if cpl s <? rpl cs then
        esp ← popv; ss ← popv;
        let ss := u16 ss in
        if negb (stack_ok s (rpl cs) ss) then fault else
        modify (fun s => set_eflags eflags (set_eip eip (set_seg CS cs s))) ;;
        modify (fun s => set_seg SS ss (set_reg ESP esp s)) ;;
        drop_seg ES ;; drop_seg FS ;; drop_seg GS ;; drop_seg DS
      else modify (fun s => set_eflags eflags (set_eip eip (set_seg CS cs s)))
  end.

(** ** Bit fields *)

Lemma bits_div z o w : 0 <= o -> 0 <= w -> bits z o w = (z / 2 ^ o) mod 2 ^ w.
Proof. intros Ho Hw. unfold bits. by rewrite Z.land_ones, Z.shiftr_div_pow2 by lia. Qed.

Lemma bits_range z o w : 0 <= o -> 0 <= w -> 0 <= bits z o w < 2 ^ w.
Proof. intros Ho Hw. rewrite bits_div by done. apply Z.mod_pos_bound. by apply Z.pow_pos_nonneg. Qed.

Lemma bits_split z o a b : 0 <= o -> 0 <= a -> 0 <= b -> bits z o (a + b) = bits z o a + 2 ^ a * bits z (o + a) b.
Proof.
  intros Ho Ha Hb. rewrite !bits_div by lia. rewrite !Z.pow_add_r by lia. assert (0 < 2 ^ o) by (by apply Z.pow_pos_nonneg). assert (0 < 2 ^ a) by (by apply Z.pow_pos_nonneg). assert (0 < 2 ^ b) by (by apply Z.pow_pos_nonneg).
  rewrite <- Z.div_div by lia. apply Z.rem_mul_r; lia.
Qed.

Definition widths_ok (l : list (Z * Z)) : Prop := Forall (fun f => 0 <= f.1) l.
Definition bit_offset (l : list (Z * Z)) : Z := foldr (fun f n => f.1 + n) 0 l.

Lemma bit_offset_nonneg l : widths_ok l -> 0 <= bit_offset l.
Proof. induction 1 as [|[w v] l Hw _ IH]; unfold bit_offset in *; cbn [foldr fst] in *; lia. Qed.

(** Field [k] of the fields packed. *)
Lemma bits_pack l k off w v : widths_ok l -> l !! k = Some (w, v) -> off = bit_offset (take k l) -> bits (pack l) off w = v mod 2 ^ w.
Proof.
  intros Hl. revert k off. induction Hl as [|[w0 v0] l Hw0 Hl IH]; intros k off Hk ->; [done|]. cbn [fst] in Hw0.
  assert (0 < 2 ^ w0) as Hp by (by apply Z.pow_pos_nonneg). pose proof (Z.mod_pos_bound v0 (2 ^ w0) Hp) as Hv. destruct k as [|k].
  - injection Hk as -> ->. cbn [take bit_offset foldr]. rewrite bits_div, Z.pow_0_r, Z.div_1_r by lia. cbn [pack]. rewrite Z.mul_comm, Z.mod_add by lia. by apply Z.mod_small.
  - assert (0 <= w) as Hww by exact (Forall_lookup_1 _ _ _ _ Hl Hk). pose proof (bit_offset_nonneg (take k l) ltac:(by apply Forall_take)) as Ho.
    cbn [take bit_offset foldr fst]. fold (bit_offset (take k l)). rewrite <- (IH k _ Hk eq_refl). rewrite !bits_div by lia. rewrite Z.pow_add_r by lia. rewrite <- Z.div_div by (try apply Z.pow_pos_nonneg; lia).
    cbn [pack]. by rewrite (Z.mul_comm (2 ^ w0)), Z.div_add, (Z.div_small (v0 mod _)), Z.add_0_l by lia.
Qed.

Lemma pack_range l : widths_ok l -> 0 <= pack l < 2 ^ bit_offset l.
Proof.
  induction 1 as [|[w v] l Hw Hl IH]; [cbn; lia|]. cbn [fst] in Hw. assert (0 < 2 ^ w) as Hp by (by apply Z.pow_pos_nonneg). pose proof (Z.mod_pos_bound v (2 ^ w) Hp) as Hv.
  cbn [pack bit_offset foldr fst]. fold (bit_offset l). pose proof (bit_offset_nonneg l Hl). rewrite Z.pow_add_r by lia. nia.
Qed.

Lemma load64_store64_eq m a w : 0 <= w < 2 ^ 64 -> load64 (store64 m a w) a = w.
Proof.
  intros Hw. unfold load64, store64. rewrite load32_store32_ne by lia. rewrite !load32_store32_eq; [| |apply Z.mod_pos_bound; lia].
  - pose proof (Z.div_mod w (2 ^ 32)). lia.
  - split; [apply Z.div_pos; lia|apply Z.div_lt_upper_bound; lia].
Qed.

Lemma store64_frame m a w x : x < a \/ a + 8 <= x -> store64 m a w x = m x.
Proof. intros Hx. unfold store64. by rewrite !store32_frame by lia. Qed.

Lemma load64_ext m m' a : (forall x, a <= x < a + 8 -> m' x = m x) -> load64 m' a = load64 m a.
Proof. intros H. unfold load64. f_equal; [|f_equal]; apply load32_ext; intros i Hi; apply H; lia. Qed.

Lemma load64_store64_ne m a b w : a + 8 <= b \/ b + 8 <= a -> load64 (store64 m a w) b = load64 m b.
Proof. intros Hab. apply load64_ext. intros x Hx. apply store64_frame. lia. Qed.

Lemma store16_frame m a w x : x < a \/ a + 2 <= x -> store16 m a w x = m x.
Proof. intros Hx. unfold store16, store. by rewrite !(proj2 (Z.eqb_neq _ _)) by lia. Qed.

Lemma load16_store16_eq m a w : 0 <= w < 65536 -> load16 (store16 m a w) a = w.
Proof.
  intros Hw. unfold load16, store16, store. rewrite !land_255, !Z.shiftr_div_pow2, !Z.eqb_refl by lia. rewrite (proj2 (Z.eqb_neq _ _)) by lia.
  change (2 ^ 8) with 256. Z.to_euclidean_division_equations; lia.
Qed.

Lemma load16_store32_eq m a w : 0 <= w < 65536 -> load16 (store32 m a w) a = w.
Proof.
  intros Hw. unfold load16. rewrite <- (Z.add_0_r a) at 2. rewrite !store32_in by lia. change (256 ^ 0) with 1. change (256 ^ 1) with 256. Z.to_euclidean_division_equations; lia.
Qed.

Lemma load16_ext m m' a : (forall x, a <= x < a + 2 -> m' x = m x) -> load16 m' a = load16 m a.
Proof. intros H. unfold load16. by rewrite !H by lia. Qed.

(** Setting a bit does not change the fields it is not in. *)
Lemma bits_setbit d n o w : 0 <= o -> 0 <= w -> n < o \/ o + w <= n -> 0 <= n -> bits (Z.lor d (2 ^ n)) o w = bits d o w.
Proof.
  intros Ho Hw Hn Hn0. apply Z.bits_inj'. intros i Hi. unfold bits. rewrite !Z.land_spec, !Z.shiftr_spec, Z.lor_spec by lia. destruct (Z.ltb_spec i w) as [Hiw|Hiw].
  - rewrite (Z.pow2_bits_false n) by lia. by rewrite orb_false_r.
  - rewrite Z.ones_spec_high by lia. by rewrite !andb_false_r.
Qed.

(** ** The stack *)

(** Words, and words of which only the lower half counts, in memory. *)
Inductive cell := Wd (v : Z) | Hf (v : Z).
Definition cell_at (m : mem) (a : Z) (c : cell) : Prop := match c with Wd v => load32 m a = v | Hf v => load16 m a = v end.
Fixpoint cells (m : mem) (a : Z) (l : list cell) : Prop :=
  match l with [] => True | c :: l' => cell_at m a c /\ cells m (a + 4) l' end.

Definition is_word (v : Z) : Prop := 0 <= v < 2 ^ 32.
Definition is_half (v : Z) : Prop := 0 <= v < 2 ^ 16.

Lemma cells_same m m' l : forall a, (forall x, a <= x < a + 4 * Z.of_nat (length l) -> m' x = m x) -> cells m a l -> cells m' a l.
Proof.
  induction l as [|c l IH]; intros a Hx; [done|]. cbn [cells length] in *. intros [Hc Hl]. split; [|apply IH; [intros x Hb; apply Hx; lia|done]].
  destruct c; cbn [cell_at] in *; [rewrite (load32_ext m' m); [done|intros i Hi; apply Hx; lia]|rewrite (load16_ext m m'); [done|intros i Hi; apply Hx; lia]].
Qed.

Lemma cells_app m l l' : forall a, cells m a (l ++ l') <-> cells m a l /\ cells m (a + 4 * Z.of_nat (length l)) l'.
Proof.
  induction l as [|c l IH]; intros a; cbn [cells app length]; [rewrite Z.add_0_r; tauto|]. rewrite IH. replace (a + 4 + 4 * Z.of_nat (length l)) with (a + 4 * Z.of_nat (S (length l))) by lia. tauto.
Qed.

(** Registers hold words, and segment registers half words. *)
Record x86_wf (s : x86) : Prop := {
  wf_reg : forall r, is_word (x_reg s r);
  wf_seg : forall r, is_half (x_seg s r);
  wf_eip : is_word (x_eip s);
  wf_fl : is_word (x_eflags s);
}.

(** The stack pointer of [s] is at [sp], and [m] is its memory. *)
Definition at_sp (sp : Z) (m : mem) (s : x86) : x86 := set_reg ESP sp (set_xmem m s).

(** Pushing on a stack that ends at [hi] and holds [l]: the memory outside it is kept. *)
Definition stacked (m0 : mem) (lo hi : Z) (l : list cell) (m : mem) : Prop :=
  cells m (hi - 4 * Z.of_nat (length l)) l /\ forall x, x < lo \/ hi <= x -> m x = m0 x.

Lemma stacked_nil m lo hi : stacked m lo hi [] m.
Proof. done. Qed.

Section push.
Context (m0 : mem) (lo hi : Z) (l : list cell) (s : x86).
Notation sp := (hi - 4 * Z.of_nat (length l)).
Context (Hsp : x_reg s ESP = sp) (Hst : stacked m0 lo hi l (x_mem s)) (Hlo : 0 <= lo) (Hroom : lo + 4 <= sp) (Hhi : hi <= 2 ^ 32).

Lemma stacked_push m' c : cell_at m' (sp - 4) c -> (forall x, x < sp - 4 \/ sp <= x -> m' x = x_mem s x) -> stacked m0 lo hi (c :: l) m'.
Proof using Hst Hroom.
  intros Hc Hx. destruct Hst as [Hl Ho]. unfold stacked. cbn [length cells]. replace (hi - 4 * Z.of_nat (S (length l))) with (sp - 4) by lia. split; [split; [done|]|].
  - replace (sp - 4 + 4) with sp by lia. eapply cells_same; [|exact Hl]. intros x Hb'. apply Hx. lia.
  - intros x Hx'. rewrite Hx by lia. by apply Ho.
Qed.

Lemma wp_pushv v (Q : unit -> x86 -> Prop) : is_word v ->
  (forall m', stacked m0 lo hi (Wd v :: l) m' -> Q tt (at_sp (sp - 4) m' s)) -> wp (pushv v) Q s.
Proof using All.
  intros Hv HQ. apply wp_modify. cbv zeta. rewrite Hsp, u32_small by lia. apply HQ. apply stacked_push; [by apply load32_store32_eq|]. intros x Hx. apply store32_frame. lia.
Qed.

Lemma wp_pushseg `{!Pushseg} v (Q : unit -> x86 -> Prop) : is_half v ->
  (forall m', stacked m0 lo hi (Hf v :: l) m' -> Q tt (at_sp (sp - 4) m' s)) -> wp (pushseg v) Q s.
Proof using All.
  intros Hv HQ. apply wp_modify. cbv zeta. rewrite Hsp, u32_small by lia. apply HQ. destruct pushes_word.
  - apply stacked_push; [by apply load16_store32_eq|]. intros x Hx. apply store32_frame. lia.
  - apply stacked_push; [by apply load16_store16_eq|]. intros x Hx. apply store16_frame. lia.
Qed.
End push.

(** Popping. *)
Lemma wp_popv s sp v l (Q : Z -> x86 -> Prop) : x_reg s ESP = sp -> cells (x_mem s) sp (Wd v :: l) -> 0 <= sp -> sp + 4 < 2 ^ 32 ->
  (cells (x_mem s) (sp + 4) l -> Q v (set_reg ESP (sp + 4) s)) -> wp popv Q s.
Proof. intros Hsp [Hv Hl] H0 Hmax HQ. unfold popv. apply wp_bind, wp_get. cbv zeta. rewrite Hsp, u32_small by lia. apply wp_bind, wp_modify, wp_ret. cbn [cell_at] in Hv. rewrite Hv. by apply HQ. Qed.

Lemma wp_poph s sp v l (Q : Z -> x86 -> Prop) : is_half v -> x_reg s ESP = sp -> cells (x_mem s) sp (Hf v :: l) -> 0 <= sp -> sp + 4 < 2 ^ 32 ->
  (forall w, u16 w = v -> cells (x_mem s) (sp + 4) l -> Q w (set_reg ESP (sp + 4) s)) -> wp popv Q s.
Proof.
  intros Hh Hsp [Hv Hl] H0 Hmax HQ. unfold popv. apply wp_bind, wp_get. cbv zeta. rewrite Hsp, u32_small by lia. apply wp_bind, wp_modify, wp_ret. apply HQ; [|done].
  cbn [cell_at] in Hv. unfold is_half, u16, load32, load16 in *. Z.to_euclidean_division_equations; lia.
Qed.

(** ** Reading the state *)

Lemma reg_set r v s : x_reg (set_reg r v s) r = v.
Proof. cbn. by rewrite decide_True. Qed.
Lemma reg_set_ne r v s q : q <> r -> x_reg (set_reg r v s) q = x_reg s q.
Proof. intros. cbn. by rewrite decide_False. Qed.
Lemma seg_set r v s : x_seg (set_seg r v s) r = v.
Proof. cbn. by rewrite decide_True. Qed.
Lemma seg_set_ne r v s q : q <> r -> x_seg (set_seg r v s) q = x_seg s q.
Proof. intros. cbn. by rewrite decide_False. Qed.

Lemma x_reg_set_seg r v s : x_reg (set_seg r v s) = x_reg s.
Proof. done. Qed.
Lemma x_reg_set_eip v s : x_reg (set_eip v s) = x_reg s.
Proof. done. Qed.
Lemma x_reg_set_eflags v s : x_reg (set_eflags v s) = x_reg s.
Proof. done. Qed.
Lemma x_reg_set_mem v s : x_reg (set_xmem v s) = x_reg s.
Proof. done. Qed.
Lemma x_seg_set_reg r v s : x_seg (set_reg r v s) = x_seg s.
Proof. done. Qed.
Lemma x_seg_set_eip v s : x_seg (set_eip v s) = x_seg s.
Proof. done. Qed.
Lemma x_seg_set_eflags v s : x_seg (set_eflags v s) = x_seg s.
Proof. done. Qed.
Lemma x_seg_set_mem v s : x_seg (set_xmem v s) = x_seg s.
Proof. done. Qed.
Lemma x_eip_set_reg r v s : x_eip (set_reg r v s) = x_eip s.
Proof. done. Qed.
Lemma x_eip_set_seg r v s : x_eip (set_seg r v s) = x_eip s.
Proof. done. Qed.
Lemma x_eip_set_eip v s : x_eip (set_eip v s) = v.
Proof. done. Qed.
Lemma x_eip_set_eflags v s : x_eip (set_eflags v s) = x_eip s.
Proof. done. Qed.
Lemma x_eip_set_mem v s : x_eip (set_xmem v s) = x_eip s.
Proof. done. Qed.
Lemma x_eflags_set_reg r v s : x_eflags (set_reg r v s) = x_eflags s.
Proof. done. Qed.
Lemma x_eflags_set_seg r v s : x_eflags (set_seg r v s) = x_eflags s.
Proof. done. Qed.
Lemma x_eflags_set_eip v s : x_eflags (set_eip v s) = x_eflags s.
Proof. done. Qed.
Lemma x_eflags_set_eflags v s : x_eflags (set_eflags v s) = v.
Proof. done. Qed.
Lemma x_eflags_set_mem v s : x_eflags (set_xmem v s) = x_eflags s.
Proof. done. Qed.
Lemma x_cr3_set_reg r v s : x_cr3 (set_reg r v s) = x_cr3 s.
Proof. done. Qed.
Lemma x_cr3_set_seg r v s : x_cr3 (set_seg r v s) = x_cr3 s.
Proof. done. Qed.
Lemma x_cr3_set_eip v s : x_cr3 (set_eip v s) = x_cr3 s.
Proof. done. Qed.
Lemma x_cr3_set_eflags v s : x_cr3 (set_eflags v s) = x_cr3 s.
Proof. done. Qed.
Lemma x_cr3_set_mem v s : x_cr3 (set_xmem v s) = x_cr3 s.
Proof. done. Qed.
Lemma x_gdtr_set_reg r v s : x_gdtr (set_reg r v s) = x_gdtr s.
Proof. done. Qed.
Lemma x_gdtr_set_seg r v s : x_gdtr (set_seg r v s) = x_gdtr s.
Proof. done. Qed.
Lemma x_gdtr_set_eip v s : x_gdtr (set_eip v s) = x_gdtr s.
Proof. done. Qed.
Lemma x_gdtr_set_eflags v s : x_gdtr (set_eflags v s) = x_gdtr s.
Proof. done. Qed.
Lemma x_gdtr_set_mem v s : x_gdtr (set_xmem v s) = x_gdtr s.
Proof. done. Qed.
Lemma x_idtr_set_reg r v s : x_idtr (set_reg r v s) = x_idtr s.
Proof. done. Qed.
Lemma x_idtr_set_seg r v s : x_idtr (set_seg r v s) = x_idtr s.
Proof. done. Qed.
Lemma x_idtr_set_eip v s : x_idtr (set_eip v s) = x_idtr s.
Proof. done. Qed.
Lemma x_idtr_set_eflags v s : x_idtr (set_eflags v s) = x_idtr s.
Proof. done. Qed.
Lemma x_idtr_set_mem v s : x_idtr (set_xmem v s) = x_idtr s.
Proof. done. Qed.
Lemma x_tr_set_reg r v s : x_tr (set_reg r v s) = x_tr s.
Proof. done. Qed.
Lemma x_tr_set_seg r v s : x_tr (set_seg r v s) = x_tr s.
Proof. done. Qed.
Lemma x_tr_set_eip v s : x_tr (set_eip v s) = x_tr s.
Proof. done. Qed.
Lemma x_tr_set_eflags v s : x_tr (set_eflags v s) = x_tr s.
Proof. done. Qed.
Lemma x_tr_set_mem v s : x_tr (set_xmem v s) = x_tr s.
Proof. done. Qed.
Lemma x_mem_set_reg r v s : x_mem (set_reg r v s) = x_mem s.
Proof. done. Qed.
Lemma x_mem_set_seg r v s : x_mem (set_seg r v s) = x_mem s.
Proof. done. Qed.
Lemma x_mem_set_eip v s : x_mem (set_eip v s) = x_mem s.
Proof. done. Qed.
Lemma x_mem_set_eflags v s : x_mem (set_eflags v s) = x_mem s.
Proof. done. Qed.
Lemma x_mem_set_mem v s : x_mem (set_xmem v s) = v.
Proof. done. Qed.

Create Rewrite HintDb xread.
#[export] Hint Rewrite x_reg_set_seg x_reg_set_eip x_reg_set_eflags x_reg_set_mem x_seg_set_reg x_seg_set_eip x_seg_set_eflags x_seg_set_mem x_eip_set_reg x_eip_set_seg x_eip_set_eip x_eip_set_eflags x_eip_set_mem x_eflags_set_reg x_eflags_set_seg x_eflags_set_eip x_eflags_set_eflags x_eflags_set_mem x_cr3_set_reg x_cr3_set_seg x_cr3_set_eip x_cr3_set_eflags x_cr3_set_mem x_gdtr_set_reg x_gdtr_set_seg x_gdtr_set_eip x_gdtr_set_eflags x_gdtr_set_mem x_idtr_set_reg x_idtr_set_seg x_idtr_set_eip x_idtr_set_eflags x_idtr_set_mem x_tr_set_reg x_tr_set_seg x_tr_set_eip x_tr_set_eflags x_tr_set_mem x_mem_set_reg x_mem_set_seg x_mem_set_eip x_mem_set_eflags x_mem_set_mem : xread.
(** Reads of a register or of memory after writes. *)
Ltac xread := unfold at_sp; repeat first [progress autorewrite with xread | rewrite reg_set | rewrite reg_set_ne by discriminate | rewrite seg_set | rewrite seg_set_ne by discriminate].

(** [xpush K K']: run a push on the stack that [K] describes; [xpop C]: run a pop from the cells of [C]. Left is that the value is a word. *)
Ltac xpush K K' :=
  let m := fresh "m" in
  lazymatch type of K with stacked ?m0 ?lo ?hi ?l _ =>
    lazymatch goal with |- wp (pushv _) _ _ => apply (wp_pushv m0 lo hi l) | |- wp (pushseg _) _ _ => apply (wp_pushseg m0 lo hi l) end;
    [xread; cbn [length]; lia|xread; exact K|lia|cbn [length]; lia|lia| |intros m K'] end.
Ltac xpop C :=
  lazymatch type of C with
  | cells _ ?sp (Wd ?v :: ?l) => apply (wp_popv _ sp v l); [xread; lia|xread; exact C|lia|lia|clear C; xread; intros C]
  | cells _ ?sp (Hf ?v :: ?l) => apply (wp_poph _ sp v l); [|xread; lia|xread; exact C|lia|lia|clear C; let w := fresh "w" in let Ew := fresh "Ew" in xread; intros w Ew C]
  end.
