(* ===== verification/Swtch.v ===== *)
(** * [swtch.S]: context switches. *)

From S2P Require Import Prelude CString Mmu X86.

(** ** [swtch.S] *)

Definition swtch : list instr :=
  [LOADL 4 ESP EAX; LOADL 8 ESP EDX;
   PUSHL EBP; PUSHL EBX; PUSHL ESI; PUSHL EDI;
   STOREL ESP EAX; MOVL EDX ESP;
   POPL EDI; POPL ESI; POPL EBX; POPL EBP; RET].

(** [struct context] of [proc.h]. *)
Record context := mkContext { c_edi : Z; c_esi : Z; c_ebx : Z; c_ebp : Z; c_eip : Z }.
Definition context_cells (c : context) : list cell := [Wd (c_edi c); Wd (c_esi c); Wd (c_ebx c); Wd (c_ebp c); Wd (c_eip c)].
Definition CONTEXT_SIZE : Z := 20.

(** What the C compiler keeps across a call that returns to [ra]. *)
Definition context_of (s : x86) (ra : Z) : context := mkContext (x_reg s EDI) (x_reg s ESI) (x_reg s EBX) (x_reg s EBP) ra.

(** A call of [swtch(old, new)] that returns to [ra]. *)
Record calls_swtch (s : x86) (sp ra old new : Z) : Prop := {
  cw_wf : x86_wf s;
  cw_sp : x_reg s ESP = sp;
  cw_args : cells (x_mem s) sp [Wd ra; Wd old; Wd new];
  cw_low : 16 <= sp;
  cw_high : sp + 12 <= 2 ^ 32;
  cw_ra : is_word ra;
  cw_old : is_word old;
  cw_new : is_word new /\ new + CONTEXT_SIZE < 2 ^ 32;
  cw_old_stack : old + 4 <= sp - 16 \/ sp + 4 <= old;
  cw_new_stack : new + CONTEXT_SIZE <= sp - 16 \/ sp <= new;
  cw_new_old : new + CONTEXT_SIZE <= old \/ old + 4 <= new;
}.

(** The context [c] runs: as if its own call had just returned. *)
Record resumes (s' : x86) (new : Z) (c : context) : Prop := {
  rs_ctx : context_of s' (x_eip s') = c;
  rs_sp : x_reg s' ESP = new + CONTEXT_SIZE;
}.

Section asm.
Context `{!Pushseg}.

Lemma run_app l l' s (Q : unit -> x86 -> Prop) : wp (run l) (fun _ s' => wp (run l') Q s') s -> wp (run (l ++ l')) Q s.
Proof.
  revert s. induction l as [|i l IH]; intros s Hw; cbn [run app] in *; [exact Hw|]. unfold wp, mbind, M_bind in *. destruct (step i s); try done. by apply IH.
Qed.

Lemma wp_step i l s (Q : unit -> x86 -> Prop) : wp (step i) (fun _ s' => wp (run l) Q s') s -> wp (run (i :: l)) Q s.
Proof. intros Hw. cbn [run]. by apply wp_bind. Qed.

(** [swtch] resumes the new context and leaves the old one, whole, on the stack it was called on, with its address in [*old]. *)
Lemma swtch_ok s sp ra old new c (Q : unit -> x86 -> Prop) : calls_swtch s sp ra old new -> cells (x_mem s) new (context_cells c) ->
  (forall s', resumes s' new c -> load32 (x_mem s') old = sp - 16 -> cells (x_mem s') (sp - 16) (context_cells (context_of s ra)) ->
     (forall x, (x < sp - 16 \/ sp <= x) -> (x < old \/ old + 4 <= x) -> x_mem s' x = x_mem s x) -> Q tt s') ->
  wp (run swtch) Q s.
Proof.
  intros [Hwf Hsp (Ha & Hb & Hc & _) Hlow Hhigh Hra Hold [Hnew Hnew'] D1 D2 D3] Hn HQ. destruct Hwf as [Wr Ws We Wf]. cbn [cell_at] in Ha, Hb, Hc. unfold is_word, CONTEXT_SIZE in *.
  apply wp_step, wp_bind, wp_gets, wp_bind, wp_gets, wp_modify. rewrite Hsp, u32_small, Hb by lia.
  apply wp_step, wp_bind, wp_gets, wp_bind, wp_gets, wp_modify. xread. rewrite Hsp, u32_small by lia. replace (sp + 8) with (sp + 4 + 4) by lia. rewrite Hc.
  pose proof (stacked_nil (x_mem s) (sp - 16) sp) as K0.
  apply wp_step, wp_bind, wp_gets. xread. xpush K0 K1; [apply Wr|]. apply wp_step, wp_bind, wp_gets. xread. xpush K1 K2; [apply Wr|].
  apply wp_step, wp_bind, wp_gets. xread. xpush K2 K3; [apply Wr|]. apply wp_step, wp_bind, wp_gets. xread. xpush K3 K4; [apply Wr|]. cbn [length] in *.
  apply wp_step, wp_bind, wp_gets, wp_bind, wp_gets, wp_modify. xread. replace (sp - 4 * Z.of_nat 3 - 4) with (sp - 16) by lia. apply wp_step, wp_bind, wp_gets, wp_modify. xread.
  destruct K4 as [C4 O4]. set (m4 := store32 m2 old (sp - 16)).
  assert (cells m4 new (context_cells c)) as C. { eapply cells_same; [|exact Hn]. cbn [length context_cells]. intros x Hx. unfold m4. rewrite store32_frame, O4 by lia. done. }
  unfold context_cells in C. do 4 (apply wp_step, wp_bind; xpop C; apply wp_modify).
  apply wp_step, wp_bind. xpop C. apply wp_modify, wp_ret.
  apply HQ; xread.
  - split; [unfold context_of; xread; by destruct c|xread; unfold CONTEXT_SIZE; lia].
  - apply load32_store32_eq. lia.
  - change (context_cells (context_of s ra)) with ([Wd (x_reg s EDI); Wd (x_reg s ESI); Wd (x_reg s EBX); Wd (x_reg s EBP)] ++ [Wd ra]). apply cells_app. cbn [length] in *. split.
    + eapply cells_same; [|exact C4]. cbn [length]. intros x Hx. unfold m4. apply store32_frame. lia.
    + split; [|done]. cbn [cell_at]. rewrite <- Ha. rewrite (load32_ext m4 (x_mem s)); [f_equal; lia|]. intros i Hi. unfold m4. rewrite store32_frame, O4 by lia. done.
  - intros x Hx Hx'. unfold m4. rewrite store32_frame, O4 by lia. done.
Qed.

(** C19 A context switch and back: [swtch] called on one stack resumes the context it is given, with that context's callee-saved registers and stack; and whatever runs then,
    as long as it leaves the switched-out stack alone, when it calls [swtch] with the pointer that was stored, the first caller goes on at its return address
    with its registers and its stack pointer as if the call had returned. *)
Theorem swtch_roundtrip s sp ra old new c : calls_swtch s sp ra old new -> cells (x_mem s) new (context_cells c) ->
  wp (run swtch) (fun _ s' => resumes s' new c /\
    forall t spt rat oldt, calls_swtch t spt rat oldt (load32 (x_mem s') old) -> (forall x, sp - 16 <= x < sp + 4 -> x_mem t x = x_mem s' x) ->
      wp (run swtch) (fun _ t' => context_of t' (x_eip t') = context_of s ra /\ x_reg t' ESP = sp + 4) t) s.
Proof.
  intros Hs Hc. eapply swtch_ok; [exact Hs|exact Hc|]. intros s' Hr Ho Hsave _. split; [done|]. rewrite Ho. intros t spt rat oldt Ht Hm.
  eapply (swtch_ok t spt rat oldt (sp - 16)); [exact Ht| |].
  - eapply cells_same; [|exact Hsave]. cbn [length context_cells]. intros x Hx. apply Hm. lia.
  - intros t' [Rc Rs] _ _ _. split; [exact Rc|]. rewrite Rs. unfold CONTEXT_SIZE. lia.
Qed.
End asm.

(** ** An example: a call on a stack at 0x1000, the new context at 0x2000. *)

#[local] Instance demo_pushseg : Pushseg := true.
Fixpoint store_words (m : mem) (a : Z) (l : list Z) : mem :=
  match l with [] => m | w :: l' => store_words (store32 m a w) (a + 4) l' end.
Definition demo_mem : mem := store_words (store_words (fun _ => 0) 0x1000 [0x5000; 0x3000; 0x2000]) 0x2000 [1; 2; 3; 4; 0x6000].
Definition demo_state : x86 := mkX86 (fun r => if decide (r = ESP) then 0x1000 else 9) (fun _ => 0) 0 0 0 (0, 0) (0, 0) 0 demo_mem.

Lemma swtch_roundtrip_witness : wp (run swtch) (fun _ s' => x_eip s' = 0x6000 /\ x_reg s' EBX = 3) demo_state.
Proof.
  eapply wp_mono; [apply (swtch_roundtrip demo_state 0x1000 0x5000 0x3000 0x2000 (mkContext 1 2 3 4 0x6000))|].
  - split; try (by vm_compute); [split; [intros []; by vm_compute|by vm_compute..]|by right; vm_compute|by right; vm_compute|by left; vm_compute].
  - by vm_compute.
  - intros [] s' [[Rc _] _]. split; [exact (f_equal c_eip Rc)|exact (f_equal c_ebx Rc)].
Defined.
