(* ===== verification/Bio.v ===== *)
(** * [bio.c], [sleeplock.c], [memide.c]: the buffer cache over a block device.

    The cache is the array [bcache.buf] of [NBUF] buffers, threaded by [prev]
    and [next] pointers into a circular list through [bcache.head]; buffers
    are array indices and the head is index [NBUF].  Spin-lock critical
    sections run atomically (spin locks are modelled in their own file);
    sleep-locks are state, and taking one that is held blocks. *)


From stdpp Require Import gmap.
From S2P Require Import Prelude Params.

(** ** Sleep-locks ([sleeplock.c]) *)

Record sleeplock := mkSleeplock { sl_locked : bool; sl_pid : Z }.

Definition initsleeplock : M sleeplock unit :=
  modify (fun _ => mkSleeplock false 0).

(** [while (lk->locked) sleep(lk, &lk->lk)]: returns only with the lock free. *)
Definition acquiresleep (pid : Z) : M sleeplock unit :=
  lk ← get;
  if sl_locked lk then sleep else modify (fun _ => mkSleeplock true pid).

Definition releasesleep : M sleeplock unit :=
  modify (fun _ => mkSleeplock false 0).

Definition holdingsleep (pid : Z) (lk : sleeplock) : bool :=
  sl_locked lk && (sl_pid lk =? pid).

(** ** Buffers ([buf.h]) *)

Record buf := mkBuf {
  b_flags : Z;
  b_dev : Z;
  b_blockno : Z;
  b_lock : sleeplock;
  b_refcnt : Z;
  b_prev : nat;
  b_next : nat;
  b_data : block;
}.

#[export] Instance buf_inhabited : Inhabited buf :=
  populate (mkBuf 0 0 0 (mkSleeplock false 0) 0 0 0 zero_block).

Definition set_flags v b := mkBuf v (b_dev b) (b_blockno b) (b_lock b) (b_refcnt b) (b_prev b) (b_next b) (b_data b).
Definition set_lock v b := mkBuf (b_flags b) (b_dev b) (b_blockno b) v (b_refcnt b) (b_prev b) (b_next b) (b_data b).
Definition set_refcnt v b := mkBuf (b_flags b) (b_dev b) (b_blockno b) (b_lock b) v (b_prev b) (b_next b) (b_data b).
Definition set_prev v b := mkBuf (b_flags b) (b_dev b) (b_blockno b) (b_lock b) (b_refcnt b) v (b_next b) (b_data b).
Definition set_next v b := mkBuf (b_flags b) (b_dev b) (b_blockno b) (b_lock b) (b_refcnt b) (b_prev b) v (b_data b).
Definition set_data v b := mkBuf (b_flags b) (b_dev b) (b_blockno b) (b_lock b) (b_refcnt b) (b_prev b) (b_next b) v.

Definition flag_set (f : Z) (b : buf) : bool := negb (Z.land (b_flags b) f =? 0).

(** ** Block devices

    The disk is its array of blocks; [writes] is the history of the blocks
    written to it, in order, from which the contents at any crash point are
    recovered. *)

Record disk := mkDisk { blocks : list block; writes : list (Z * block) }.

Definition disk_write (bno : Z) (d : block) (k : disk) : disk :=
  mkDisk (<[Z.to_nat bno := d]> (blocks k)) (writes k ++ [(bno, d)]).

(** What [bio.c] relies on in a driver's [iderw]: "If B_DIRTY is set, write
    buf to disk, clear B_DIRTY, set B_VALID. Else if B_VALID is not set, read
    buf from disk, set B_VALID." *)
Class BlockDevice := {
  iderw : Z -> buf -> M disk buf;
  iderw_write : forall pid b k,
    holdingsleep pid (b_lock b) = true -> b_dev b = ROOTDEV ->
    0 <= b_blockno b < Z.of_nat (length (blocks k)) -> b_blockno b < FSSIZE ->
    b_flags b = B_DIRTY \/ b_flags b = Z.lor B_VALID B_DIRTY ->
    iderw pid b k = Ok (set_flags B_VALID b) (disk_write (b_blockno b) (b_data b) k);
  iderw_read : forall pid b k d,
    holdingsleep pid (b_lock b) = true -> b_dev b = ROOTDEV ->
    0 <= b_blockno b -> b_blockno b < FSSIZE ->
    b_flags b = 0 ->
    blocks k !! Z.to_nat (b_blockno b) = Some d ->
    iderw pid b k = Ok (set_flags B_VALID (set_data d b)) k;
}.

(** [memide.c], the driver of a disk image in memory. *)
Module Memide.
Definition iderw (pid : Z) (b : buf) : M disk buf :=
  k ← get;
  if negb (holdingsleep pid (b_lock b)) then panic "iderw: buf not locked" else
  if Z.land (b_flags b) (Z.lor B_VALID B_DIRTY) =? B_VALID then panic "iderw: nothing to do" else
  if negb (b_dev b =? 1) then panic "iderw: request not for disk 1" else
  if Z.of_nat (length (blocks k)) <=? b_blockno b then panic "iderw: block out of range" else
  if flag_set B_DIRTY b then
    modify (disk_write (b_blockno b) (b_data b)) ;;
    mret (set_flags (Z.lor (Z.land (b_flags b) (Z.lnot B_DIRTY)) B_VALID) b)
  else
    mret (set_flags (Z.lor (b_flags b) B_VALID)
           (set_data (default zero_block (blocks k !! Z.to_nat (b_blockno b))) b)).
End Memide.

#[export] Program Instance memide : BlockDevice := {| iderw := Memide.iderw |}.
Next Obligation.
  intros pid b k Hh Hd Hn _ Hf. unfold Memide.iderw, get, modify, mret, M_ret, mbind, M_bind.
  rewrite Hh, Hd. destruct Hf as [Hf|Hf]; unfold flag_set; rewrite Hf; simpl;
    by rewrite (proj2 (Z.leb_gt _ _)) by lia.
Qed.
Next Obligation.
  intros pid b k d Hh Hd Hn _ Hf Hl. unfold Memide.iderw, get, modify, mret, M_ret, mbind, M_bind.
  rewrite Hh, Hd. unfold flag_set. rewrite Hf. simpl.
  apply lookup_lt_Some in Hl as ?. rewrite (proj2 (Z.leb_gt _ _)) by lia. by rewrite Hl.
Qed.

(** ** The cache ([bio.c]) *)

Record bio := mkBio { bufs : list buf; bdisk : disk; bpid : Z }.

(** [bcache.head] is the element after the [NBUF] buffers. *)
Definition HEAD : nat := NBUF.

Definition set_bufs (l : list buf) (s : bio) : bio := mkBio l (bdisk s) (bpid s).
Definition buf_at (s : bio) (i : nat) : buf := bufs s !!! i.
Definition upd_buf (i : nat) (f : buf -> buf) (l : list buf) : list buf := <[i := f (l !!! i)]> l.
Definition upd (i : nat) (f : buf -> buf) : M bio unit :=
  modify (fun s => set_bufs (upd_buf i f (bufs s)) s).

(** Code that runs on the sleep-lock of buffer [i]. *)
Definition with_lock {A} (i : nat) (m : M sleeplock A) : M bio A :=
  zoom (fun s => b_lock (buf_at s i)) (fun lk s => set_bufs (upd_buf i (set_lock lk) (bufs s)) s) m.

(** [binit], one iteration: insert [b] after the head. *)
Definition insert_front (b : nat) (l : list buf) : list buf :=
  let l := upd_buf b (set_next (b_next (l !!! HEAD))) l in
  let l := upd_buf b (set_prev HEAD) l in
  let l := upd_buf (b_next (l !!! HEAD)) (set_prev b) l in
  upd_buf HEAD (set_next b) l.

Definition binit : M bio unit :=
  upd HEAD (set_prev HEAD) ;;
  upd HEAD (set_next HEAD) ;;
  for_loop NBUF 0 (fun b =>
    modify (fun s =>
      let b := Z.to_nat b in
      let l := bufs s in
      let l := upd_buf b (set_next (b_next (l !!! HEAD))) l in
      let l := upd_buf b (set_prev HEAD) l in
      let l := upd_buf b (set_lock (mkSleeplock false 0)) l in
      let l := upd_buf (b_next (l !!! HEAD)) (set_prev b) l in
      set_bufs (upd_buf HEAD (set_next b) l) s)).

(** The list walk of [bget]: [step] is [b->next] or [b->prev]; the walk ends
    at the head.  [None] is the model's bound on the number of steps. *)
Fixpoint scan (step : nat -> nat) (test : nat -> bool) (fuel : nat) (b : nat) : option (option nat) :=
  match fuel with
  | O => None
  | S fuel' =>
      if decide (b = HEAD) then Some None
      else if test b then Some (Some b)
      else scan step test fuel' (step b)
  end.

Definition bget (dev blockno : Z) : M bio nat :=
  s ← get;
  let at_ i := buf_at s i in
  match scan (fun i => b_next (at_ i))
             (fun i => (b_dev (at_ i) =? dev) && (b_blockno (at_ i) =? blockno))
             (S NBUF) (b_next (at_ HEAD)) with
  | None => outOfFuel
  | Some (Some b) =>
      upd b (fun x => set_refcnt (u32 (b_refcnt x + 1)) x) ;;
      with_lock b (acquiresleep (bpid s)) ;;
      mret b
  | Some None =>
      match scan (fun i => b_prev (at_ i))
                 (fun i => (b_refcnt (at_ i) =? 0) && negb (flag_set B_DIRTY (at_ i)))
                 (S NBUF) (b_prev (at_ HEAD)) with
      | None => outOfFuel
      | Some (Some b) =>
          upd b (fun x => mkBuf 0 dev blockno (b_lock x) 1 (b_prev x) (b_next x) (b_data x)) ;;
          with_lock b (acquiresleep (bpid s)) ;;
          mret b
      | Some None => panic "bget: no buffers"
      end
  end.

Section device.
Context `{!BlockDevice}.

(** [iderw(b)] on a buffer of the cache. *)
Definition bio_rw (i : nat) : M bio unit :=
  fun s =>
    match iderw (bpid s) (buf_at s i) (bdisk s) with
    | Ok b k => Ok tt (mkBio (<[i := b]> (bufs s)) k (bpid s))
    | Panic e => Panic e
    | Blocked k => Blocked (mkBio (bufs s) k (bpid s))
    | Fault => Fault
    | OutOfFuel => OutOfFuel
    end.

Definition bread (dev blockno : Z) : M bio nat :=
  b ← bget dev blockno;
  x ← gets (fun s => buf_at s b);
  (if negb (flag_set B_VALID x) then bio_rw b else mret tt) ;;
  mret b.

Definition bwrite (b : nat) : M bio unit :=
  s ← get;
  if negb (holdingsleep (bpid s) (b_lock (buf_at s b))) then panic "bwrite" else
  upd b (fun x => set_flags (Z.lor (b_flags x) B_DIRTY) x) ;;
  bio_rw b.
End device.

(** The pointer surgery of [brelse]: the buffer moves to the front. *)
Definition move_front (b : nat) (l : list buf) : list buf :=
  let l := upd_buf (b_next (l !!! b)) (set_prev (b_prev (l !!! b))) l in
  let l := upd_buf (b_prev (l !!! b)) (set_next (b_next (l !!! b))) l in
  insert_front b l.

Definition brelse (b : nat) : M bio unit :=
  s ← get;
  if negb (holdingsleep (bpid s) (b_lock (buf_at s b))) then panic "brelse" else
  with_lock b releasesleep ;;
  upd b (fun x => set_refcnt (u32 (b_refcnt x - 1)) x) ;;
  x ← gets (fun s => buf_at s b);
  if b_refcnt x =? 0 then
    modify (fun s => set_bufs (move_front b (bufs s)) s)
  else mret tt.

(** Reading and writing [b->data] of a buffer. *)
Definition bdata (b : nat) : M bio block := gets (fun s => b_data (buf_at s b)).
Definition set_bdata (b : nat) (d : block) : M bio unit := upd b (set_data d).

(** ** The circular list

    [path nx pv a l z]: following [next] from [a] visits exactly [l] and
    arrives at [z], and the [prev] pointers run back along it. *)

Fixpoint path (nx pv : nat -> nat) (a : nat) (l : list nat) (z : nat) : Prop :=
  match l with
  | [] => nx a = z /\ pv z = a
  | b :: l' => nx a = b /\ pv b = a /\ path nx pv b l' z
  end.

Definition fupd (f : nat -> nat) (i v : nat) : nat -> nat :=
  fun j => if decide (j = i) then v else f j.

Lemma fupd_eq f i v : fupd f i v i = v.
Proof. unfold fupd. by rewrite decide_True. Qed.

Lemma fupd_ne f i v j : j <> i -> fupd f i v j = f j.
Proof. intros. unfold fupd. by rewrite decide_False. Qed.

Lemma path_ext nx pv nx' pv' a l z :
  (forall x, x ∈ a :: l -> nx' x = nx x) ->
  (forall x, x ∈ l ++ [z] -> pv' x = pv x) ->
  path nx pv a l z -> path nx' pv' a l z.
Proof.
  revert a. induction l as [|b l IH]; intros a Hn Hp; simpl.
  - intros [? ?]. rewrite Hn, Hp by set_solver. done.
  - intros (? & ? & ?). rewrite Hn, Hp by set_solver. split_and!; [done..|].
    apply IH; set_solver.
Qed.

Lemma path_app nx pv a l1 b l2 z :
  path nx pv a (l1 ++ b :: l2) z <-> path nx pv a l1 b /\ path nx pv b l2 z.
Proof.
  revert a. induction l1 as [|c l1 IH]; intros a; simpl; [tauto|]. rewrite IH. tauto.
Qed.

Lemma path_rev nx pv a l z : path nx pv a l z -> path pv nx z (reverse l) a.
Proof.
  revert a. induction l as [|b l IH]; intros a; simpl.
  - tauto.
  - intros (? & ? & ?). rewrite reverse_cons. apply path_app. split; [by apply IH|]. done.
Qed.

Lemma path_last nx pv a l z : path nx pv a l z -> pv z ∈ a :: l.
Proof.
  revert a. induction l as [|b l IH]; intros a; simpl.
  - intros [_ ->]. by left.
  - intros (? & ? & H). right. by apply IH.
Qed.

(** Redirecting the end of a path. *)
Lemma path_redirect nx pv a l b n :
  NoDup (a :: l) -> n ∉ l -> path nx pv a l b ->
  path (fupd nx (pv b) n) (fupd pv n (pv b)) a l n.
Proof.
  intros Hnd Hn. revert a Hnd. induction l as [|c l IH]; intros a Hnd; simpl.
  - intros [? ->]. by rewrite !fupd_eq.
  - intros (Ha & Hc & Hp). apply NoDup_cons in Hnd as [Ha' Hnd].
    pose proof (path_last _ _ _ _ _ Hp). apply not_elem_of_cons in Hn as [??].
    assert (a <> pv b) by (intros ->; done).
    rewrite !fupd_ne by done. split_and!; [done..|]. by apply IH.
Qed.

Lemma path_unlink nx pv h l1 b l2 :
  NoDup (h :: l1 ++ b :: l2) -> path nx pv h (l1 ++ b :: l2) h ->
  path (fupd nx (pv b) (nx b)) (fupd pv (nx b) (pv b)) h (l1 ++ l2) h.
Proof.
  intros Hnd. rewrite path_app. intros [H1 H2].
  assert (Hnd1 : NoDup (h :: l1)).
  { rewrite app_comm_cons in Hnd. by apply NoDup_app in Hnd as [? _]. }
  assert (Hx : forall x, x ∈ h :: l1 -> x ∈ b :: l2 -> False).
  { rewrite app_comm_cons in Hnd. apply NoDup_app in Hnd as (_ & Hx & _).
    intros x ??. by eapply Hx. }
  pose proof (path_last _ _ _ _ _ H1) as Hlast.
  destruct l2 as [|c l2]; simpl in H2.
  - destruct H2 as [-> _]. rewrite app_nil_r. apply path_redirect; [done| |done].
    by apply NoDup_cons in Hnd1 as [? _].
  - destruct H2 as (-> & Hc & H2). apply path_app. split.
    + apply path_redirect; [done| |done]. intros ?. apply (Hx c); set_solver.
    + eapply path_ext; [| |exact H2].
      * intros x ?. apply fupd_ne. intros ->. apply (Hx (pv b)); set_solver.
      * intros x ?. apply fupd_ne. intros ->.
        rewrite app_comm_cons, NoDup_app in Hnd. destruct Hnd as (_ & _ & Hnd).
        apply NoDup_cons in Hnd as [_ Hnd]. apply NoDup_cons in Hnd as [? _].
        assert (c <> h) by (intros ->; apply (Hx h); set_solver). set_solver.
Qed.

Lemma path_insert nx pv h l b :
  NoDup (h :: l) -> b ∉ h :: l -> path nx pv h l h ->
  path (fupd (fupd nx b (nx h)) h b) (fupd (fupd pv b h) (nx h) b) h (b :: l) h.
Proof.
  intros Hnd Hb Hp. apply not_elem_of_cons in Hb as [Hbh Hbl].
  assert (nx h <> b) by (destruct l as [|c l]; simpl in Hp; set_solver).
  simpl. split_and!; [apply fupd_eq|by rewrite fupd_ne, fupd_eq|].
  apply NoDup_cons in Hnd as [Hh Hnd].
  destruct l as [|c l]; simpl in *.
  - destruct Hp as [-> ?]. rewrite fupd_eq. by rewrite fupd_ne, fupd_eq by done.
  - destruct Hp as (-> & ? & Hp). rewrite fupd_eq.
    split_and!; [by rewrite fupd_ne, fupd_eq by done|done|].
    apply NoDup_cons in Hnd as [? ?].
    eapply path_ext; [| |exact Hp]; intros x Hx; rewrite !fupd_ne; set_solver.
Qed.

Lemma scan_path nx pv test a l fuel :
  HEAD ∉ l -> (length l < fuel)%nat -> path nx pv a l HEAD ->
  scan nx test fuel (nx a) = Some (List.find test l).
Proof.
  revert a fuel. induction l as [|b l IH]; intros a fuel Hh Hf; simpl.
  - intros [-> _]. destruct fuel; [simpl in Hf; lia|]. cbn [scan]. by rewrite decide_True.
  - intros (-> & _ & Hp). apply not_elem_of_cons in Hh as [Hb Hh].
    destruct fuel as [|fuel]; [simpl in Hf; lia|]. cbn [scan length] in *. rewrite decide_False by done.
    destruct (test b); [done|]. apply IH; [done|lia|done].
Qed.

(** ** The list in the array *)

Definition nx (l : list buf) (i : nat) : nat := b_next (l !!! i).
Definition pv (l : list buf) (i : nat) : nat := b_prev (l !!! i).

(** [order] lists the buffers from most to least recently used. *)
Definition lru (l : list buf) (order : list nat) : Prop :=
  length l = S NBUF /\ order ≡ₚ seq 0 NBUF /\ path (nx l) (pv l) HEAD order HEAD.

(** What a buffer holds besides its list pointers. *)
Definition content (b : buf) := (b_flags b, b_dev b, b_blockno b, b_lock b, b_refcnt b, b_data b).

Lemma length_upd_buf i f l : length (upd_buf i f l) = length l.
Proof. apply length_insert. Qed.

Lemma upd_buf_eq i f l : (i < length l)%nat -> upd_buf i f l !!! i = f (l !!! i).
Proof. intros. unfold upd_buf. by apply list_lookup_total_insert_eq. Qed.

Lemma upd_buf_ne i j f l : i <> j -> upd_buf i f l !!! j = l !!! j.
Proof. intros. unfold upd_buf. by apply list_lookup_total_insert_ne. Qed.

Lemma upd_buf_case i j f l :
  (i < length l)%nat -> upd_buf i f l !!! j = if decide (j = i) then f (l !!! i) else l !!! j.
Proof. intros. case_decide; subst; [by apply upd_buf_eq|by apply upd_buf_ne]. Qed.

(** An update that leaves a field alone leaves it alone in the whole array. *)
Lemma upd_buf_field {A} (g : buf -> A) i f l j :
  (forall b, g (f b) = g b) -> g (upd_buf i f l !!! j) = g (l !!! j).
Proof.
  intros Hg. destruct (decide (i = j)) as [->|?]; [|by rewrite upd_buf_ne].
  destruct (decide (j < length l)%nat); [by rewrite upd_buf_eq|].
  unfold upd_buf. by rewrite list_insert_ge by lia.
Qed.

Lemma nx_set_next i v l j : (i < length l)%nat -> nx (upd_buf i (set_next v) l) j = fupd (nx l) i v j.
Proof. intros. unfold nx. rewrite upd_buf_case by done. unfold fupd. by case_decide. Qed.

Lemma pv_set_prev i v l j : (i < length l)%nat -> pv (upd_buf i (set_prev v) l) j = fupd (pv l) i v j.
Proof. intros. unfold pv. rewrite upd_buf_case by done. unfold fupd. by case_decide. Qed.

Lemma nx_set_prev i v l j : nx (upd_buf i (set_prev v) l) j = nx l j.
Proof. by apply (upd_buf_field b_next). Qed.

Lemma pv_set_next i v l j : pv (upd_buf i (set_next v) l) j = pv l j.
Proof. by apply (upd_buf_field b_prev). Qed.

Lemma lru_in l order i : lru l order -> i ∈ order <-> (i < NBUF)%nat.
Proof. intros (_ & Hp & _). rewrite Hp, elem_of_seq. lia. Qed.

Lemma lru_nodup l order : lru l order -> NoDup (HEAD :: order).
Proof.
  intros Hl. apply NoDup_cons. split.
  - rewrite (lru_in _ _ _ Hl). unfold HEAD. lia.
  - destruct Hl as (_ & Hp & _). rewrite Hp. apply NoDup_seq.
Qed.

(** Updates of the other fields keep the list. *)
Lemma lru_upd l order i f :
  (forall b, b_next (f b) = b_next b) -> (forall b, b_prev (f b) = b_prev b) ->
  lru l order -> lru (upd_buf i f l) order.
Proof.
  intros Hn Hp (Hl & Ho & Hpath). split_and!; [by rewrite length_upd_buf|done|].
  eapply path_ext; [| |exact Hpath]; intros x _;
    [by apply (upd_buf_field b_next)|by apply (upd_buf_field b_prev)].
Qed.

Lemma content_dev b b' : content b = content b' -> b_dev b = b_dev b'.
Proof. by intros [=]. Qed.
Lemma content_blockno b b' : content b = content b' -> b_blockno b = b_blockno b'.
Proof. by intros [=]. Qed.

Lemma content_set_next v b : content (set_next v b) = content b.
Proof. done. Qed.
Lemma content_set_prev v b : content (set_prev v b) = content b.
Proof. done. Qed.

(** [insert_front] puts an unlinked buffer at the most recently used end. *)
Lemma insert_front_path l order b :
  length l = S NBUF -> (b < NBUF)%nat -> (forall x, x ∈ order -> (x < NBUF)%nat) ->
  NoDup (HEAD :: order) -> b ∉ HEAD :: order ->
  path (nx l) (pv l) HEAD order HEAD ->
  path (nx (insert_front b l)) (pv (insert_front b l)) HEAD (b :: order) HEAD.
Proof.
  intros Hl Hb Hord Hnd Hbo Hp. apply not_elem_of_cons in Hbo as Hbo'. destruct Hbo' as [Hbh Hbl].
  assert (Hh : (nx l HEAD < S NBUF)%nat).
  { destruct order as [|c order]; simpl in Hp; [unfold HEAD in *; lia|].
    destruct Hp as [-> _]. assert (c < NBUF)%nat by (apply Hord; by left). lia. }
  assert (Hne : nx l HEAD <> b) by (destruct order; simpl in Hp; set_solver).
  unfold insert_front. cbv zeta.
  set (l1 := upd_buf b (set_next (b_next (l !!! HEAD))) l).
  set (l2 := upd_buf b (set_prev HEAD) l1).
  assert (Hl2 : length l2 = S NBUF) by (unfold l2, l1; by rewrite !length_upd_buf).
  assert (E2 : b_next (l2 !!! HEAD) = nx l HEAD).
  { change (nx l2 HEAD = nx l HEAD). unfold l2. rewrite nx_set_prev. unfold l1.
    rewrite nx_set_next by lia. apply fupd_ne. done. }
  rewrite E2. eapply path_ext; [| |by apply path_insert].
  - intros x _. rewrite nx_set_next by (rewrite length_upd_buf, Hl2; unfold HEAD; lia).
    unfold fupd at 1 2. case_decide; [done|].
    rewrite nx_set_prev. unfold l2. rewrite nx_set_prev. unfold l1. by rewrite nx_set_next by lia.
  - intros x _. rewrite pv_set_next, pv_set_prev by lia.
    unfold fupd at 1 2. case_decide; [done|].
    unfold l2. rewrite pv_set_prev by (unfold l1; rewrite length_upd_buf; lia).
    unfold fupd. case_decide; [done|]. unfold l1. by rewrite pv_set_next.
Qed.

Lemma insert_front_content l b i :
  content (insert_front b l !!! i) = content (l !!! i).
Proof. unfold insert_front. cbv zeta. by rewrite !(upd_buf_field content). Qed.

Lemma move_front_content l b i : content (move_front b l !!! i) = content (l !!! i).
Proof.
  unfold move_front. cbv zeta. rewrite insert_front_content. by rewrite !(upd_buf_field content).
Qed.

Lemma move_front_lru l order b :
  (b < NBUF)%nat -> lru l order ->
  exists order', order' ≡ₚ order /\ hd_error order' = Some b /\ lru (move_front b l) order'.
Proof.
  intros Hb Hlru. pose proof (lru_nodup _ _ Hlru) as Hnd.
  assert (Hin : b ∈ order) by by apply (lru_in _ _ _ Hlru).
  pose proof (fun x => proj1 (lru_in l order x Hlru)) as Hord.
  destruct Hlru as (Hl & Hperm & Hp).
  apply list_elem_of_split in Hin as (l1 & l2 & ->).
  exists (b :: l1 ++ l2). split_and!; [by rewrite Permutation_middle|done|].
  assert (Hbh : (b ∉ HEAD :: l1 ++ l2) /\ NoDup (HEAD :: l1 ++ l2)).
  { apply NoDup_cons. rewrite <- Permutation_middle in Hnd. by rewrite perm_swap. }
  destruct Hbh as [Hbl Hnd'].
  pose proof (path_unlink _ _ _ _ _ _ Hnd Hp) as Hu.
  apply path_app in Hp as Hp'. destruct Hp' as [Hp1 Hp2].
  assert (Hpb : pv l b ∈ HEAD :: l1) by by eapply path_last.
  assert (Hnb : nx l b ∈ l2 ++ [HEAD]) by (destruct l2; simpl in Hp2; set_solver).
  assert (Hlt : forall x, x ∈ HEAD :: l1 ++ l2 -> (x < S NBUF)%nat).
  { intros x Hx. apply elem_of_cons in Hx as [->|Hx]; [unfold HEAD; lia|].
    assert (x < NBUF)%nat by (apply Hord; set_solver). lia. }
  assert (nx l b <> b) by (intros E; rewrite E in Hnb; set_solver).
  assert (Hnlt : (nx l b < length l)%nat) by (rewrite Hl; apply Hlt; set_solver).
  assert (Hplt : (pv l b < length l)%nat) by (rewrite Hl; apply Hlt; set_solver).
  unfold move_front. cbv zeta.
  set (la := upd_buf (b_next (l !!! b)) (set_prev (b_prev (l !!! b))) l).
  assert (E1 : b_prev (la !!! b) = pv l b).
  { change (pv la b = pv l b). unfold la. rewrite pv_set_prev by exact Hnlt.
    by apply fupd_ne. }
  assert (E2 : b_next (la !!! b) = nx l b) by apply nx_set_prev.
  rewrite E1, E2. set (lb := upd_buf (pv l b) (set_next (nx l b)) la).
  split_and!.
  - unfold insert_front. cbv zeta. unfold lb, la. by rewrite !length_upd_buf.
  - by rewrite Permutation_middle.
  - apply insert_front_path; [by unfold lb, la; rewrite !length_upd_buf|done| |done|done|].
    + intros x Hx. apply Hord. set_solver.
    + eapply path_ext; [| |exact Hu]; intros x _.
      * unfold lb. rewrite nx_set_next by (unfold la; by rewrite length_upd_buf).
        unfold fupd. case_decide; [done|]. apply nx_set_prev.
      * unfold lb. rewrite pv_set_next. unfold la. by rewrite pv_set_prev by exact Hnlt.
Qed.

(** ** What the cache promises

    [bio_rep s v Dt Hd]: the cache and disk of [s] present the block contents
    [v]; [Dt] are the blocks modified in memory only (B_DIRTY), [Hd] maps the
    blocks whose buffer is locked by the running process to that buffer. *)

Definition lock_of (Hd : gmap Z nat) (pid bno : Z) (i : nat) : sleeplock :=
  if decide (Hd !! bno = Some i) then mkSleeplock true pid else mkSleeplock false 0.

Definition buf_ok (v : list block) (Dt : gset Z) (Hd : gmap Z nat) (pid : Z) (i : nat) (b : buf) : Prop :=
  (b_dev b = ROOTDEV /\ 0 <= b_blockno b /\
   b_flags b = (if decide (b_blockno b ∈ Dt) then Z.lor B_VALID B_DIRTY else B_VALID) /\
   v !! Z.to_nat (b_blockno b) = Some (b_data b) /\
   b_lock b = lock_of Hd pid (b_blockno b) i /\
   b_refcnt b = (if sl_locked (b_lock b) then 1 else 0))
  \/ (b_dev b <> ROOTDEV /\ b_flags b = 0 /\ b_lock b = mkSleeplock false 0 /\ b_refcnt b = 0).

Record bio_rep (s : bio) (v : list block) (Dt : gset Z) (Hd : gmap Z nat) : Prop := {
  rep_lru : exists order, lru (bufs s) order;
  rep_buf : forall i, (i < NBUF)%nat -> buf_ok v Dt Hd (bpid s) i (buf_at s i);
  rep_uniq : forall i j, (i < NBUF)%nat -> (j < NBUF)%nat ->
    b_dev (buf_at s i) = ROOTDEV -> b_dev (buf_at s j) = ROOTDEV ->
    b_blockno (buf_at s i) = b_blockno (buf_at s j) -> i = j;
  rep_dirty : forall bno, bno ∈ Dt ->
    exists i, (i < NBUF)%nat /\ b_dev (buf_at s i) = ROOTDEV /\ b_blockno (buf_at s i) = bno;
  rep_held : forall bno i, Hd !! bno = Some i ->
    (i < NBUF)%nat /\ b_dev (buf_at s i) = ROOTDEV /\ b_blockno (buf_at s i) = bno;
  rep_len : length v = length (blocks (bdisk s));
  rep_size : Z.of_nat (length v) <= FSSIZE;
  rep_vok : Forall block_ok v;
  rep_dok : Forall block_ok (blocks (bdisk s));
  rep_clean : forall bno, 0 <= bno -> bno ∉ Dt -> Hd !! bno = None ->
    v !! Z.to_nat bno = blocks (bdisk s) !! Z.to_nat bno;
}.

Lemma buf_ok_content v Dt Hd pid i b b' :
  content b = content b' -> buf_ok v Dt Hd pid i b -> buf_ok v Dt Hd pid i b'.
Proof. unfold content, buf_ok. intros [= -> -> -> -> -> ->]. done. Qed.

(** The representation depends on the buffers only through their content
    and the list they form. *)
Lemma bio_rep_content s s' v Dt Hd :
  (exists order, lru (bufs s') order) ->
  (forall i, content (buf_at s' i) = content (buf_at s i)) ->
  bdisk s' = bdisk s -> bpid s' = bpid s ->
  bio_rep s v Dt Hd -> bio_rep s' v Dt Hd.
Proof.
  intros Hl Hc Hk Hp R.
  assert (Hdev : forall i, b_dev (buf_at s' i) = b_dev (buf_at s i)).
  { intros i. by apply content_dev. }
  assert (Hbno : forall i, b_blockno (buf_at s' i) = b_blockno (buf_at s i)).
  { intros i. by apply content_blockno. }
  destruct R. split; try rewrite Hk; try done.
  - intros i Hi. rewrite Hp. eapply buf_ok_content; [symmetry; apply Hc|auto].
  - intros i j. rewrite !Hdev, !Hbno. auto.
  - intros bno Hb. destruct (rep_dirty0 bno Hb) as (i & ?). exists i. by rewrite Hdev, Hbno.
  - intros bno i Hb. rewrite Hdev, Hbno. auto.
Qed.

(** A locked buffer holds its block, valid. *)
Lemma rep_held_buf s v Dt Hd bno i :
  bio_rep s v Dt Hd -> Hd !! bno = Some i ->
  (i < NBUF)%nat /\ 0 <= bno /\ v !! Z.to_nat bno = Some (b_data (buf_at s i)) /\
  b_lock (buf_at s i) = mkSleeplock true (bpid s) /\ b_refcnt (buf_at s i) = 1 /\
  b_dev (buf_at s i) = ROOTDEV /\ b_blockno (buf_at s i) = bno /\
  b_flags (buf_at s i) = (if decide (bno ∈ Dt) then Z.lor B_VALID B_DIRTY else B_VALID).
Proof.
  intros R Hb. destruct (rep_held _ _ _ _ R _ _ Hb) as (Hi & Hd' & Hn).
  destruct (rep_buf _ _ _ _ R i Hi) as [(?&Hn0&Hf&Hv&Hl&Hr)|(?&?)]; [|done].
  rewrite Hn in *. unfold lock_of in Hl. rewrite decide_True in Hl by done.
  rewrite Hl in Hr. simpl in Hr. by split_and!.
Qed.

Lemma rep_lookup_ok s v Dt Hd bno d :
  bio_rep s v Dt Hd -> v !! bno = Some d -> block_ok d.
Proof. intros R H. eapply Forall_lookup_1; [apply (rep_vok _ _ _ _ R)|done]. Qed.

Lemma holding_self pid : holdingsleep pid (mkSleeplock true pid) = true.
Proof. unfold holdingsleep. simpl. by rewrite Z.eqb_refl. Qed.

(** One changed buffer: the other clauses of the representation carry over. *)
Lemma length_bufs s v Dt Hd : bio_rep s v Dt Hd -> length (bufs s) = S NBUF.
Proof. intros R. destruct (rep_lru _ _ _ _ R) as (? & ? & _). done. Qed.

Section one_buffer.
Context (s : bio) (v : list block) (Dt : gset Z) (Hd : gmap Z nat).
Context (i : nat) (Hi : (i < NBUF)%nat) (R : bio_rep s v Dt Hd).

Lemma buf_at_upd f j :
  buf_at (set_bufs (upd_buf i f (bufs s)) s) j
  = if decide (j = i) then f (buf_at s i) else buf_at s j.
Proof.
  unfold buf_at, set_bufs. simpl. apply upd_buf_case.
  rewrite (length_bufs _ _ _ _ R). lia.
Qed.
End one_buffer.

Lemma rep_upd s s' v v' Dt Dt' Hd Hd' i bno :
  bio_rep s v Dt Hd -> (i < NBUF)%nat -> (exists order, lru (bufs s') order) -> bpid s' = bpid s ->
  (forall j, j <> i -> content (buf_at s' j) = content (buf_at s j)) ->
  b_dev (buf_at s' i) = ROOTDEV -> b_blockno (buf_at s' i) = bno ->
  buf_ok v' Dt' Hd' (bpid s) i (buf_at s' i) ->
  (forall j, (j < NBUF)%nat -> j <> i -> b_dev (buf_at s j) = ROOTDEV -> b_blockno (buf_at s j) <> bno) ->
  (forall b, b <> bno -> (b ∈ Dt' <-> b ∈ Dt) /\ Hd' !! b = Hd !! b) ->
  (forall b, b <> bno -> 0 <= b -> v' !! Z.to_nat b = v !! Z.to_nat b) ->
  (b_dev (buf_at s i) = ROOTDEV ->
     b_blockno (buf_at s i) = bno \/
     ((b_blockno (buf_at s i) ∉ Dt) /\ Hd !! b_blockno (buf_at s i) <> Some i)) ->
  (Hd' !! bno = Some i \/ Hd' !! bno = None) ->
  length v' = length (blocks (bdisk s')) -> length v' = length v ->
  Forall block_ok v' -> Forall block_ok (blocks (bdisk s')) ->
  (forall b, 0 <= b -> b ∉ Dt' -> Hd' !! b = None -> v' !! Z.to_nat b = blocks (bdisk s') !! Z.to_nat b) ->
  bio_rep s' v' Dt' Hd'.
Proof.
  intros R Hi Hl Hp Hc Hdev Hbno Hok Hun Hset Hv Hold Hheld Hlen Hlen' Hvok Hdok Hclean.
  assert (Hdev' : forall j, j <> i -> b_dev (buf_at s' j) = b_dev (buf_at s j)).
  { intros j Hj. by apply content_dev, Hc. }
  assert (Hbno' : forall j, j <> i -> b_blockno (buf_at s' j) = b_blockno (buf_at s j)).
  { intros j Hj. by apply content_blockno, Hc. }
  assert (Hother : forall j, (j < NBUF)%nat -> j <> i -> buf_ok v' Dt' Hd' (bpid s) j (buf_at s j)).
  { intros j Hj Hne. destruct (rep_buf _ _ _ _ R j Hj) as [(?&?&?&?&?&?)|?]; [left|by right].
    assert (Hb : b_blockno (buf_at s j) <> bno) by by apply Hun.
    destruct (Hset _ Hb) as [HD HH]. rewrite Hv by done.
    unfold lock_of. rewrite HH. split_and!; try done.
    destruct (decide (b_blockno (buf_at s j) ∈ Dt)); [rewrite decide_True by tauto|rewrite decide_False by tauto]; done. }
  split; try done.
  - intros j Hj. rewrite Hp. destruct (decide (j = i)) as [->|Hne]; [done|].
    eapply buf_ok_content; [symmetry; by apply Hc|auto].
  - intros j k Hj Hk Hjd Hkd Heq.
    destruct (decide (j = i)) as [->|Hne], (decide (k = i)) as [->|Hne']; [done| | |].
    + rewrite Hdev' in Hkd by done. rewrite (Hbno' k), Hbno in Heq by done. by destruct (Hun k).
    + rewrite Hdev' in Hjd by done. rewrite (Hbno' j), Hbno in Heq by done. by destruct (Hun j).
    + rewrite Hdev' in Hjd, Hkd by done. rewrite !Hbno' in Heq by done. by apply (rep_uniq _ _ _ _ R).
  - intros b Hb. destruct (decide (b = bno)) as [->|Hne]; [by exists i|].
    apply Hset in Hb; [|done].
    destruct (rep_dirty _ _ _ _ R b Hb) as (j & Hj & Hjd & Hjb). exists j.
    destruct (decide (j = i)) as [->|Hji]; [|by rewrite Hdev', Hbno'].
    destruct (Hold Hjd) as [?|[? _]]; congruence.
  - intros b j. destruct (decide (b = bno)) as [->|Hne].
    + destruct Hheld as [-> | ->]; [by intros [= <-]|done].
    + destruct (Hset _ Hne) as [_ ->]. intros Hb.
      destruct (rep_held _ _ _ _ R _ _ Hb) as (Hj & Hjd & Hjb).
      destruct (decide (j = i)) as [->|Hji]; [|by rewrite Hdev', Hbno'].
      destruct (Hold Hjd) as [?|[_ ?]]; congruence.
  - rewrite Hlen'. apply (rep_size _ _ _ _ R).
Qed.

(** Modifying the data of a locked buffer changes the presented contents. *)
Lemma set_bdata_spec s v Dt Hd bno i d :
  bio_rep s v Dt Hd -> Hd !! bno = Some i -> block_ok d ->
  wp (set_bdata i d) (fun _ s' => bio_rep s' (<[Z.to_nat bno := d]> v) Dt Hd /\ bdisk s' = bdisk s /\ bpid s' = bpid s) s.
Proof.
  intros R Hb Hd'. destruct (rep_held_buf _ _ _ _ _ _ R Hb) as (Hi & Hn & Hv & Hl & Hr & Hdv & Hbn & Hf).
  unfold set_bdata, upd. wp_steps. split_and!; [|done..].
  apply lookup_lt_Some in Hv as Hlt.
  eapply (rep_upd s) with (i := i) (bno := bno); try exact R; try done.
  - destruct (rep_lru _ _ _ _ R) as (o & ?). exists o. by apply lru_upd.
  - intros j Hj. by erewrite buf_at_upd, decide_False by done.
  - by erewrite buf_at_upd, decide_True by done.
  - by erewrite buf_at_upd, decide_True by done.
  - erewrite buf_at_upd, decide_True by done. left. simpl. rewrite Hbn.
    rewrite list_lookup_insert_eq by done. rewrite Hf, Hl, Hr. unfold lock_of.
    rewrite (decide_True _ _ Hb). by split_and!.
  - intros j Hj Hne ? ?. destruct Hne. apply (rep_uniq _ _ _ _ R); congruence.
  - intros b Hne ?. apply list_lookup_insert_ne. lia.
  - intros _. by left.
  - by left.
  - rewrite length_insert. apply (rep_len _ _ _ _ R).
  - by rewrite length_insert.
  - apply Forall_insert; [apply (rep_vok _ _ _ _ R)|done].
  - apply (rep_dok _ _ _ _ R).
  - intros b Hb0 HbD HbH. assert (b <> bno) by congruence.
    rewrite list_lookup_insert_ne by lia. by apply (rep_clean _ _ _ _ R).
Qed.

(** Setting B_DIRTY on a locked buffer pins it. *)
Lemma mark_dirty_spec s v Dt Hd bno i :
  bio_rep s v Dt Hd -> Hd !! bno = Some i ->
  wp (upd i (fun x => set_flags (Z.lor (b_flags x) B_DIRTY) x))
     (fun _ s' => bio_rep s' v ({[bno]} ∪ Dt) Hd /\ bdisk s' = bdisk s /\ bpid s' = bpid s) s.
Proof.
  intros R Hb. destruct (rep_held_buf _ _ _ _ _ _ R Hb) as (Hi & Hn & Hv & Hl & Hr & Hdv & Hbn & Hf).
  unfold upd. wp_steps. split_and!; [|done..].
  eapply (rep_upd s) with (i := i) (bno := bno); try exact R; try done.
  - destruct (rep_lru _ _ _ _ R) as (o & ?). exists o. by apply lru_upd.
  - intros j Hj. by erewrite buf_at_upd, decide_False by done.
  - by erewrite buf_at_upd, decide_True by done.
  - by erewrite buf_at_upd, decide_True by done.
  - erewrite buf_at_upd, decide_True by done. left. simpl. rewrite Hbn.
    rewrite Hv, Hl, Hr. unfold lock_of. rewrite (decide_True _ _ Hb).
    rewrite decide_True by set_solver. rewrite Hf. split_and!; try done. by case_decide.
  - intros j Hj Hne ? ?. destruct Hne. apply (rep_uniq _ _ _ _ R); congruence.
  - intros b Hne. split; [set_solver|done].
  - intros _. by left.
  - by left.
  - apply (rep_len _ _ _ _ R).
  - apply (rep_vok _ _ _ _ R).
  - apply (rep_dok _ _ _ _ R).
  - intros b Hb0 HbD HbH. apply (rep_clean _ _ _ _ R); set_solver.
Qed.

(** [brelse] of a buffer that is clean or pinned. *)
Lemma brelse_spec s v Dt Hd bno i :
  bio_rep s v Dt Hd -> Hd !! bno = Some i ->
  (bno ∈ Dt \/ v !! Z.to_nat bno = blocks (bdisk s) !! Z.to_nat bno) ->
  wp (brelse i) (fun _ s' => bio_rep s' v Dt (delete bno Hd) /\ bdisk s' = bdisk s /\ bpid s' = bpid s) s.
Proof.
  intros R Hb Hcl. destruct (rep_held_buf _ _ _ _ _ _ R Hb) as (Hi & Hn & Hv & Hl & Hr & Hdv & Hbn & Hf).
  pose proof (length_bufs _ _ _ _ R) as Hlen.
  unfold brelse. wp_steps. rewrite Hl, holding_self. simpl.
  unfold with_lock, releasesleep, upd. wp_steps.
  set (s1 := set_bufs (upd_buf i (set_lock _) (bufs s)) s).
  set (s2 := set_bufs (upd_buf i (fun x => set_refcnt _ x) (bufs s1)) s1).
  assert (E : buf_at s2 i = set_refcnt 0 (set_lock (mkSleeplock false 0) (buf_at s i))).
  { unfold s2, s1, buf_at, set_bufs. simpl. rewrite !upd_buf_eq by (rewrite ?length_upd_buf; lia).
    simpl. fold (buf_at s i). rewrite Hr. done. }
  rewrite E. simpl. wp_steps. split_and!; [|done..].
  assert (Hlru : exists o, lru (bufs s2) o).
  { destruct (rep_lru _ _ _ _ R) as (o & ?). exists o. unfold s2, s1. simpl.
    apply lru_upd; [done|done|]. by apply lru_upd. }
  destruct Hlru as (o & Ho).
  destruct (move_front_lru _ _ i Hi Ho) as (o' & _ & _ & Ho').
  eapply (rep_upd s) with (i := i) (bno := bno); try exact R; try done.
  - by exists o'.
  - intros j Hj. unfold buf_at. simpl. rewrite move_front_content. simpl.
    by rewrite !upd_buf_ne by done.
  - etrans; [eapply content_dev, move_front_content|]. fold (buf_at s2 i). by rewrite E.
  - etrans; [eapply content_blockno, move_front_content|]. fold (buf_at s2 i). by rewrite E.
  - eapply (buf_ok_content _ _ _ _ _ (buf_at s2 i)).
    { symmetry. apply move_front_content. }
    rewrite E. left. simpl. rewrite Hbn, Hf. unfold lock_of. rewrite lookup_delete_eq.
    rewrite (decide_False (P := None = Some i)) by done. by split_and!.
  - intros j Hj Hne ? ?. destruct Hne. apply (rep_uniq _ _ _ _ R); congruence.
  - intros b Hne. split; [done|]. by rewrite lookup_delete_ne.
  - intros _. by left.
  - right. apply lookup_delete_eq.
  - apply (rep_len _ _ _ _ R).
  - apply (rep_vok _ _ _ _ R).
  - apply (rep_dok _ _ _ _ R).
  - intros b Hb0 HbD. simpl. destruct (decide (b = bno)) as [->|Hne].
    + by destruct Hcl.
    + rewrite lookup_delete_ne by done. by apply (rep_clean _ _ _ _ R).
Qed.

Section specs.
Context `{!BlockDevice}.

(** [bwrite] puts the buffer on the disk and leaves it clean. *)
Lemma bwrite_spec s v Dt Hd bno i d :
  bio_rep s v Dt Hd -> Hd !! bno = Some i -> v !! Z.to_nat bno = Some d ->
  wp (bwrite i) (fun _ s' => bio_rep s' v (Dt ∖ {[bno]}) Hd /\
                  bdisk s' = disk_write bno d (bdisk s) /\ bpid s' = bpid s) s.
Proof.
  intros R Hb Hv'. destruct (rep_held_buf _ _ _ _ _ _ R Hb) as (Hi & Hn & Hv & Hl & Hr & Hdv & Hbn & Hf).
  assert (d = b_data (buf_at s i)) as -> by congruence. clear Hv'.
  pose proof (length_bufs _ _ _ _ R) as Hlen. pose proof (rep_len _ _ _ _ R) as Hvl.
  pose proof (rep_size _ _ _ _ R) as Hsz. apply lookup_lt_Some in Hv as Hlt.
  unfold bwrite. wp_steps. rewrite Hl, holding_self. simpl. unfold upd. wp_steps.
  set (s1 := set_bufs (upd_buf i _ (bufs s)) s).
  assert (E : buf_at s1 i = set_flags (Z.lor B_VALID B_DIRTY) (buf_at s i)).
  { unfold s1. erewrite buf_at_upd, decide_True by done. rewrite Hf. by case_decide. }
  unfold bio_rw, wp. rewrite E. rewrite iderw_write; simpl.
  2: by rewrite Hl, holding_self. 2: done. 2: rewrite Hbn; lia. 2: rewrite Hbn; lia. 2: by right.
  rewrite Hbn. split_and!; [|done..].
  set (s2 := {| bufs := _ |}).
  assert (E2 : buf_at s2 i = set_flags B_VALID (buf_at s i)).
  { unfold s2, buf_at. simpl. rewrite list_lookup_total_insert_eq; [done|]. rewrite length_upd_buf. lia. }
  assert (Hd1 : forall b, b <> bno -> 0 <= b ->
     blocks (bdisk s2) !! Z.to_nat b = blocks (bdisk s) !! Z.to_nat b).
  { intros b ??. simpl. rewrite list_lookup_insert_ne by lia. done. }
  eapply (rep_upd s) with (i := i) (bno := bno); try exact R; rewrite ?E2; try done.
  - destruct (rep_lru _ _ _ _ R) as (o & Ho). exists o.
    replace (bufs s2) with (upd_buf i (set_flags B_VALID) (bufs s)); [by apply lru_upd|].
    unfold s2, upd_buf. simpl. unfold upd_buf. by rewrite list_insert_insert_eq.
  - intros j Hj. unfold s2, buf_at. simpl. rewrite list_lookup_total_insert_ne by done.
    by rewrite upd_buf_ne.
  - left. simpl. rewrite Hbn, Hv, Hl, Hr. unfold lock_of. rewrite (decide_True _ _ Hb).
    rewrite decide_False by set_solver. by split_and!.
  - intros j Hj Hne ? ?. destruct Hne. apply (rep_uniq _ _ _ _ R); congruence.
  - intros b Hne. split; [set_solver|done].
  - intros _. by left.
  - by left.
  - simpl. by rewrite length_insert.
  - apply (rep_vok _ _ _ _ R).
  - simpl. apply Forall_insert; [apply (rep_dok _ _ _ _ R)|]. by eapply rep_lookup_ok.
  - intros b Hb0 HbD HbH. assert (b <> bno) by congruence.
    rewrite Hd1 by done. apply (rep_clean _ _ _ _ R); set_solver.
Qed.
End specs.

(** ** [bget]: hit, recycling, and that a buffer is always found *)

Definition hit_test (s : bio) (dev bno : Z) (i : nat) : bool :=
  (b_dev (buf_at s i) =? dev) && (b_blockno (buf_at s i) =? bno).
Definition free_test (s : bio) (i : nat) : bool :=
  (b_refcnt (buf_at s i) =? 0) && negb (flag_set B_DIRTY (buf_at s i)).

Lemma find_none_forall {A} (f : A -> bool) l x : List.find f l = None -> x ∈ l -> f x = false.
Proof. intros H Hx. eapply List.find_none; [exact H|by apply list_elem_of_In]. Qed.

Lemma find_some_in {A} (f : A -> bool) l x : List.find f l = Some x -> x ∈ l /\ f x = true.
Proof. intros H. apply List.find_some in H as [? ?]. by rewrite list_elem_of_In. Qed.

(** The two walks of [bget] over a well-formed list are searches in it. *)
Lemma scan_fwd s order test :
  lru (bufs s) order ->
  scan (fun i => b_next (buf_at s i)) test (S NBUF) (b_next (buf_at s HEAD)) = Some (List.find test order).
Proof.
  intros Hl. pose proof (lru_nodup _ _ Hl) as Hnd. apply NoDup_cons in Hnd as [Hh _].
  destruct Hl as (_ & Hp & Hpath).
  apply (scan_path (nx (bufs s)) (pv (bufs s))); [done| |done].
  rewrite Hp, length_seq. lia.
Qed.

Lemma scan_bwd s order test :
  lru (bufs s) order ->
  scan (fun i => b_prev (buf_at s i)) test (S NBUF) (b_prev (buf_at s HEAD))
  = Some (List.find test (reverse order)).
Proof.
  intros Hl. pose proof (lru_nodup _ _ Hl) as Hnd. apply NoDup_cons in Hnd as [Hh _].
  destruct Hl as (_ & Hp & Hpath).
  apply (scan_path (pv (bufs s)) (nx (bufs s))); [by rewrite elem_of_reverse| |by apply path_rev].
  rewrite length_reverse, Hp, length_seq. lia.
Qed.

Lemma dirty_flag s v Dt Hd i :
  bio_rep s v Dt Hd -> (i < NBUF)%nat ->
  flag_set B_DIRTY (buf_at s i) = true <-> b_dev (buf_at s i) = ROOTDEV /\ b_blockno (buf_at s i) ∈ Dt.
Proof.
  intros R Hi. unfold flag_set.
  destruct (rep_buf _ _ _ _ R i Hi) as [(?&?&Hf&_)|(?&Hf&_)]; rewrite Hf.
  - case_decide; simpl; naive_solver.
  - simpl. naive_solver.
Qed.

(** Pigeonhole: fewer pinned and locked blocks than buffers leave one to
    recycle, so [bget] does not panic. *)
Lemma free_buffer s v Dt Hd :
  bio_rep s v Dt Hd -> (size (Dt ∪ dom Hd) < NBUF)%nat ->
  exists i, (i < NBUF)%nat /\ free_test s i = true.
Proof.
  intros R Hsz.
  destruct (decide (Exists (fun i => free_test s i = true) (seq 0 NBUF))) as [He|Hne].
  { apply Exists_exists in He as (i & Hi & ?). apply elem_of_seq in Hi. exists i. split; [lia|done]. }
  exfalso.
  assert (Hused : forall i, (i < NBUF)%nat ->
     b_dev (buf_at s i) = ROOTDEV /\ b_blockno (buf_at s i) ∈ Dt ∪ dom Hd).
  { intros i Hi. destruct (free_test s i) eqn:Ht.
    { destruct Hne. apply Exists_exists. exists i. split; [apply elem_of_seq; lia|done]. }
    unfold free_test in Ht. apply andb_false_iff in Ht as [Ht|Ht]; zcase.
    - destruct (rep_buf _ _ _ _ R i Hi) as [(?&?&_&_&Hl&Hr)|(_&_&_&?)]; [|done].
      split; [done|]. apply elem_of_union. right. apply elem_of_dom.
      rewrite Hl in Hr. unfold lock_of in Hr. case_decide as Hd'; [by eexists|done].
    - apply (dirty_flag _ _ _ _ _ R Hi) in Ht. set_solver. }
  pose (l := (fun i => b_blockno (buf_at s i)) <$> seq 0 NBUF).
  assert (Hnd : NoDup l).
  { apply NoDup_fmap_2_strong; [|apply NoDup_seq].
    intros i j Hi Hj Heq. apply elem_of_seq in Hi, Hj.
    apply (rep_uniq _ _ _ _ R); [lia|lia|apply Hused; lia|apply Hused; lia|done]. }
  assert (Hsub : list_to_set l ⊆ Dt ∪ dom Hd).
  { intros x Hx. apply elem_of_list_to_set, list_elem_of_fmap in Hx as (i & -> & Hi).
    apply elem_of_seq in Hi. apply Hused. lia. }
  apply subseteq_size in Hsub. rewrite size_list_to_set in Hsub by done.
  unfold l in Hsub. rewrite length_fmap, length_seq in Hsub. lia.
Qed.

Section bread.
Context `{!BlockDevice}.

Lemma bread_hit_spec s v Dt Hd bno order b :
  bio_rep s v Dt Hd -> Hd !! bno = None -> lru (bufs s) order ->
  List.find (hit_test s ROOTDEV bno) order = Some b ->
  wp (bread ROOTDEV bno)
     (fun i s' => bio_rep s' v Dt (<[bno := i]> Hd) /\ bdisk s' = bdisk s /\ bpid s' = bpid s) s.
Proof.
  intros R Hh Hlru Hfind. pose proof Hfind as Hf. apply find_some_in in Hf as [Hin Ht].
  apply (lru_in _ _ _ Hlru) in Hin. unfold hit_test in Ht. zcase.
  pose proof (length_bufs _ _ _ _ R) as Hlen.
  destruct (rep_buf _ _ _ _ R b Hin) as [(Hdv&Hn&Hf&Hv&Hl&Hr)|(?&?)]; [|done].
  assert (Hl' : b_lock (buf_at s b) = mkSleeplock false 0).
  { rewrite Hl. unfold lock_of. rewrite decide_False; [done|]. congruence. }
  rewrite Hl' in Hr. simpl in Hr.
  unfold bread, bget. do 2 apply wp_bind. wp_steps.
  rewrite (scan_fwd _ _ _ Hlru). fold (hit_test s ROOTDEV bno). rewrite Hfind.
  unfold upd, with_lock, acquiresleep. wp_steps.
  set (s1 := set_bufs _ s).
  assert (E1 : buf_at s1 b = set_refcnt 1 (buf_at s b)).
  { unfold s1. erewrite buf_at_upd, decide_True by done. by rewrite Hr. }
  rewrite E1. simpl. rewrite Hl'. simpl. wp_steps.
  set (s2 := set_bufs _ s1).
  assert (E2 : buf_at s2 b = set_lock (mkSleeplock true (bpid s)) (set_refcnt 1 (buf_at s b))).
  { unfold s2, buf_at. simpl. rewrite upd_buf_eq by (rewrite length_upd_buf; lia).
    change (upd_buf b _ (bufs s) !!! b) with (buf_at s1 b). by rewrite E1. }
  assert (Hvalid : flag_set B_VALID (buf_at s2 b) = true).
  { rewrite E2. unfold flag_set. simpl. rewrite Hf. by case_decide. }
  rewrite Hvalid. simpl. wp_steps. split_and!; [|done..].
  eapply (rep_upd s) with (i := b) (bno := bno); try exact R; rewrite ?E2; try done.
  - exists order. unfold s2, s1. simpl. apply lru_upd; [done|done|]. by apply lru_upd.
  - intros j Hj. unfold s2, s1, buf_at. simpl. by rewrite !upd_buf_ne by done.
  - left. simpl. rewrite Hf, Hv. unfold lock_of.
    rewrite (decide_True (P := <[bno:=b]> Hd !! b_blockno (buf_at s b) = Some b))
      by (subst bno; apply lookup_insert_eq).
    by split_and!.
  - intros j Hj Hne ? ?. destruct Hne. apply (rep_uniq _ _ _ _ R); congruence.
  - intros x Hne. split; [done|]. by rewrite lookup_insert_ne.
  - intros _. by left.
  - left. apply lookup_insert_eq.
  - apply (rep_len _ _ _ _ R).
  - apply (rep_vok _ _ _ _ R).
  - apply (rep_dok _ _ _ _ R).
  - intros x Hx HxD. simpl. destruct (decide (x = bno)) as [->|Hne].
    + by rewrite lookup_insert_eq.
    + rewrite lookup_insert_ne by done. by apply (rep_clean _ _ _ _ R).
Qed.

Lemma bread_miss_spec s v Dt Hd bno order :
  bio_rep s v Dt Hd -> Hd !! bno = None -> lru (bufs s) order ->
  List.find (hit_test s ROOTDEV bno) order = None ->
  0 <= bno < Z.of_nat (length v) -> (size (Dt ∪ dom Hd) < NBUF)%nat ->
  wp (bread ROOTDEV bno)
     (fun i s' => bio_rep s' v Dt (<[bno := i]> Hd) /\ bdisk s' = bdisk s /\ bpid s' = bpid s) s.
Proof.
  intros R Hh Hlru Hfind Hbno Hsz. pose proof (length_bufs _ _ _ _ R) as Hlen.
  assert (Hmiss : forall i, (i < NBUF)%nat -> b_dev (buf_at s i) = ROOTDEV -> b_blockno (buf_at s i) <> bno).
  { intros i Hi Hd' Heq. apply (lru_in _ _ _ Hlru) in Hi.
    pose proof (find_none_forall _ _ _ Hfind Hi) as Ht. unfold hit_test in Ht.
    by rewrite Hd', Heq, !Z.eqb_refl in Ht. }
  assert (HbD : bno ∉ Dt).
  { intros HD. destruct (rep_dirty _ _ _ _ R _ HD) as (i & Hi & Hid & Hib). by apply (Hmiss i). }
  destruct (free_buffer _ _ _ _ R Hsz) as (f & Hf & Hft).
  assert (Hfree : exists b, List.find (free_test s) (reverse order) = Some b).
  { destruct (List.find (free_test s) (reverse order)) eqn:Efind; [by eexists|].
    apply (lru_in _ _ _ Hlru) in Hf.
    assert (f ∈ reverse order) as Hfr by by rewrite elem_of_reverse.
    rewrite (find_none_forall _ _ _ Efind Hfr) in Hft. done. }
  destruct Hfree as (b & Hfind').
  pose proof Hfind' as Ht. apply find_some_in in Ht as [Hin Ht].
  rewrite elem_of_reverse in Hin. apply (lru_in _ _ _ Hlru) in Hin.
  unfold free_test in Ht. apply andb_true_iff in Ht as [Ht1 Ht2]. zcase.
  assert (Hl : b_lock (buf_at s b) = mkSleeplock false 0).
  { destruct (rep_buf _ _ _ _ R b Hin) as [(_&_&_&_&Hl&Hr)|(_&_&Hl&_)]; [|done].
    rewrite Ht1 in Hr. rewrite Hl in Hr |- *. unfold lock_of in *. by case_decide. }
  assert (Hold : b_dev (buf_at s b) = ROOTDEV ->
     (b_blockno (buf_at s b) ∉ Dt) /\ Hd !! b_blockno (buf_at s b) <> Some b).
  { intros Hdv. split.
    - intros HD. assert (flag_set B_DIRTY (buf_at s b) = true) by by apply (dirty_flag _ _ _ _ _ R Hin).
      congruence.
    - intros HH. destruct (rep_held_buf _ _ _ _ _ _ R HH) as (_&_&_&Hl'&_). congruence. }
  destruct (lookup_lt_is_Some_2 v (Z.to_nat bno) ltac:(lia)) as [d Hvd].
  assert (Hkd : blocks (bdisk s) !! Z.to_nat bno = Some d).
  { rewrite <- (rep_clean _ _ _ _ R) by (done || lia). done. }
  unfold bread, bget. do 2 apply wp_bind. wp_steps.
  rewrite (scan_fwd _ _ _ Hlru). fold (hit_test s ROOTDEV bno). rewrite Hfind.
  rewrite (scan_bwd _ _ _ Hlru). fold (free_test s). rewrite Hfind'.
  unfold upd, with_lock, acquiresleep. wp_steps.
  set (s1 := set_bufs _ s).
  assert (E1 : buf_at s1 b = mkBuf 0 ROOTDEV bno (mkSleeplock false 0) 1 (b_prev (buf_at s b))
    (b_next (buf_at s b)) (b_data (buf_at s b))).
  { unfold s1. erewrite buf_at_upd, decide_True by done. by rewrite Hl. }
  rewrite E1. simpl. wp_steps. set (s2 := set_bufs _ s1).
  assert (E2 : buf_at s2 b = mkBuf 0 ROOTDEV bno (mkSleeplock true (bpid s)) 1 (b_prev (buf_at s b))
    (b_next (buf_at s b)) (b_data (buf_at s b))).
  { unfold s2, buf_at. simpl. rewrite upd_buf_eq by (rewrite length_upd_buf; lia).
    change (upd_buf b _ (bufs s) !!! b) with (buf_at s1 b). by rewrite E1. }
  rewrite E2. simpl. wp_steps. unfold bio_rw, wp at 1. rewrite E2.
  rewrite (iderw_read _ _ _ d); simpl; rewrite ?holding_self; try done; try lia.
  2: { pose proof (rep_size _ _ _ _ R). lia. }
  wp_steps. split_and!; [|done..]. set (s3 := {| bufs := _ |}).
  assert (E3 : buf_at s3 b = mkBuf B_VALID ROOTDEV bno (mkSleeplock true (bpid s)) 1 (b_prev (buf_at s b))
    (b_next (buf_at s b)) d).
  { unfold s3, buf_at. simpl. rewrite list_lookup_total_insert_eq; [done|]. rewrite !length_upd_buf. lia. }
  eapply (rep_upd s) with (i := b) (bno := bno); try exact R; rewrite ?E3; try done.
  - exists order. destruct Hlru as (Hl1 & Hl2 & Hl3). split_and!; [|done|].
    + unfold s3. simpl. by rewrite length_insert, !length_upd_buf.
    + assert (Hother : forall j, j <> b -> bufs s3 !!! j = bufs s !!! j).
      { intros j Hj. unfold s3. simpl. rewrite list_lookup_total_insert_ne by done.
        by rewrite !upd_buf_ne by done. }
      assert (E3' : bufs s3 !!! b = buf_at s3 b) by done.
      eapply path_ext; [| |exact Hl3]; intros x _; unfold nx, pv;
        (destruct (decide (x = b)) as [->|Hx]; [by rewrite E3', E3|by rewrite Hother]).
  - intros j Hj. unfold s3, buf_at. simpl. rewrite list_lookup_total_insert_ne by done.
    by rewrite !upd_buf_ne by done.
  - left. simpl. unfold lock_of. rewrite lookup_insert_eq, Hvd.
    rewrite decide_False by done. rewrite decide_True by done. split_and!; try done. lia.
  - intros j Hj Hne. by apply Hmiss.
  - intros x Hne. split; [done|]. by rewrite lookup_insert_ne.
  - intros Hdv. right. by apply Hold.
  - left. apply lookup_insert_eq.
  - apply (rep_len _ _ _ _ R).
  - apply (rep_vok _ _ _ _ R).
  - apply (rep_dok _ _ _ _ R).
  - intros x Hx HxD. simpl. destruct (decide (x = bno)) as [->|Hne].
    + by rewrite lookup_insert_eq.
    + rewrite lookup_insert_ne by done. by apply (rep_clean _ _ _ _ R).
Qed.

(** [bread] returns a locked buffer of the block, presenting its contents. A
    pinned block is found in the cache; another one needs a buffer that is
    neither pinned nor locked. *)
Lemma bread_spec s v Dt Hd bno :
  bio_rep s v Dt Hd -> Hd !! bno = None -> 0 <= bno < Z.of_nat (length v) ->
  bno ∈ Dt \/ (size (Dt ∪ dom Hd) < NBUF)%nat ->
  wp (bread ROOTDEV bno)
     (fun i s' => bio_rep s' v Dt (<[bno := i]> Hd) /\ bdisk s' = bdisk s /\ bpid s' = bpid s) s.
Proof.
  intros R Hh Hb Hsz. destruct (rep_lru _ _ _ _ R) as (order & Hlru).
  destruct (List.find (hit_test s ROOTDEV bno) order) as [b|] eqn:E; [by eapply bread_hit_spec|].
  destruct Hsz as [HD|Hsz]; [exfalso|by eapply bread_miss_spec].
  destruct (rep_dirty _ _ _ _ R _ HD) as (i & Hi & Hid & Hib).
  apply (lru_in _ _ _ Hlru) in Hi. pose proof (find_none_forall _ _ _ E Hi) as Ht.
  unfold hit_test in Ht. by rewrite Hid, Hib, !Z.eqb_refl in Ht.
Qed.
End bread.

(** ** The cache at boot *)

(** [bcache] before [binit]: zero-initialised storage. *)
Definition boot_bufs : list buf :=
  replicate (S NBUF) (mkBuf 0 0 0 (mkSleeplock false 0) 0 0 0 zero_block).
Definition boot_bio (k : disk) (pid : Z) : bio := mkBio boot_bufs k pid.

Definition run_bufs {A} (r : res bio A) : list buf :=
  match r with Ok _ s => bufs s | _ => [] end.

(** The array [binit] leaves behind. *)
Definition binit_bufs : list buf := run_bufs (binit (boot_bio (mkDisk [] []) 0)).

Lemma binit_runs k pid : binit (boot_bio k pid) = Ok tt (mkBio binit_bufs k pid).
Proof. vm_compute. reflexivity. Qed.

Lemma binit_lru : lru binit_bufs (reverse (seq 0 NBUF)).
Proof.
  split_and!.
  - vm_compute. reflexivity.
  - by rewrite reverse_Permutation.
  - vm_compute. by repeat split.
Qed.

Definition buf_free (b : buf) : bool :=
  (b_dev b =? 0) && (b_flags b =? 0) && negb (sl_locked (b_lock b)) && (sl_pid (b_lock b) =? 0)
  && (b_refcnt b =? 0).

Lemma buf_free_spec b :
  buf_free b = true -> b_dev b = 0 /\ b_flags b = 0 /\ b_lock b = mkSleeplock false 0 /\ b_refcnt b = 0.
Proof. unfold buf_free. intros H. zcase. destruct (b_lock b) as [lk p]. simpl in *. by subst. Qed.

Lemma binit_all_free : forallb buf_free binit_bufs = true.
Proof. vm_compute. reflexivity. Qed.

#[local] Opaque binit_bufs.

(** A cache of unused buffers presents the disk's contents. *)
Lemma fresh_rep l order k pid :
  lru l order -> forallb buf_free l = true ->
  Forall block_ok (blocks k) -> Z.of_nat (length (blocks k)) <= FSSIZE ->
  bio_rep (mkBio l k pid) (blocks k) ∅ ∅.
Proof.
  intros Hl Hf Hok Hsz.
  assert (Hfree : forall i, (i < NBUF)%nat -> buf_free (l !!! i) = true).
  { intros i Hi. apply forallb_total; [done|]. destruct Hl as (-> & _). lia. }
  split; cbn [bufs bdisk bpid]; unfold buf_at; cbn [bufs]; try done.
  - by exists order.
  - intros i Hi. destruct (buf_free_spec _ (Hfree i Hi)) as (H1 & H2 & H3 & H4).
    right. by rewrite H1, H2, H3, H4.
  - intros i j Hi Hj Hd. destruct (buf_free_spec _ (Hfree i Hi)) as (H1 & _). by rewrite H1 in Hd.
Qed.

(** [binit] establishes the representation: nothing cached, nothing held,
    the contents are the disk's. *)
Lemma binit_spec k pid :
  Forall block_ok (blocks k) -> Z.of_nat (length (blocks k)) <= FSSIZE ->
  wp binit (fun _ s => bio_rep s (blocks k) ∅ ∅ /\ bdisk s = k /\ bpid s = pid) (boot_bio k pid).
Proof.
  intros Hok Hsz. unfold wp. rewrite binit_runs. split_and!; [|reflexivity|reflexivity].
  eapply fresh_rep; [exact binit_lru|exact binit_all_free|done|done].
Qed.
