(* ===== verification/Log.v ===== *)
(** * [log.c]: the write-ahead log, and its crash safety.

    A transaction is the set of blocks system calls logged with [log_write];
    [commit] copies them to the log area, writes the header (the commit
    point), installs them at their home locations and erases the header.
    [initlog] repeats the installation after a crash. *)

From stdpp Require Import gmap.
From S2P Require Import Prelude Params Bio.

(** ** State *)

(** [struct log] with its [struct logheader] ([lh.n], [lh.block]). *)
Record log := mkLog {
  lg_start : Z;
  lg_size : Z;
  lg_outstanding : Z;
  lg_committing : bool;
  lg_dev : Z;
  lg_n : Z;
  lg_block : list Z;
}.

Definition set_n n l := mkLog (lg_start l) (lg_size l) (lg_outstanding l) (lg_committing l) (lg_dev l) n (lg_block l).
Definition set_block b l := mkLog (lg_start l) (lg_size l) (lg_outstanding l) (lg_committing l) (lg_dev l) (lg_n l) b.
Definition set_outstanding o l := mkLog (lg_start l) (lg_size l) o (lg_committing l) (lg_dev l) (lg_n l) (lg_block l).
Definition set_committing c l := mkLog (lg_start l) (lg_size l) (lg_outstanding l) c (lg_dev l) (lg_n l) (lg_block l).

(** The state of the layers up to the log. *)
Record lstate := mkL { l_bio : bio; l_log : log }.

Definition set_bio (b : bio) (s : lstate) : lstate := mkL b (l_log s).
Definition set_log (l : log) (s : lstate) : lstate := mkL (l_bio s) l.
Definition bio_op {A} (m : M bio A) : M lstate A := zoom l_bio set_bio m.
Definition upd_log (f : log -> log) : M lstate unit := modify (fun s => set_log (f (l_log s)) s).

Lemma wp_bio_op {A} (m : M bio A) (Q : A -> lstate -> Prop) s :
  wp m (fun a b => Q a (set_bio b s)) (l_bio s) -> wp (bio_op m) Q s.
Proof. apply wp_zoom. Qed.

(** Symbolic execution of code of this layer. *)
Ltac lwp :=
  repeat (wp_step || (match goal with |- wp (bio_op _) _ _ => apply wp_bio_op end; cbn beta)).

(** The log header as it lies in its disk block: [n], then the block numbers. *)
Definition hdr_n (d : block) : Z := s32 (get_u32 0 d).
Definition hdr_off (i : Z) : nat := Z.to_nat (4 + 4 * i).
Definition hdr_block (d : block) (i : Z) : Z := s32 (get_u32 (hdr_off i) d).

Ltac lsimpl := cbn [l_bio set_bio l_log set_log] in *.

(** ** Operations *)

Section ops.
Context `{!BlockDevice}.

(** [fs.c]: read the super block. *)
Definition sb_of_block (d : block) : superblock :=
  mkSuperblock (get_u32 0 d) (get_u32 4 d) (get_u32 8 d) (get_u32 12 d)
               (get_u32 16 d) (get_u32 20 d) (get_u32 24 d).

Definition readsb (dev : Z) : M lstate superblock :=
  bp ← bio_op (bread dev 1);
  d ← bio_op (bdata bp);
  bio_op (brelse bp) ;;
  mret (sb_of_block d).

Definition install_trans : M lstate unit :=
  l ← gets l_log;
  for_loop (Z.to_nat (lg_n l)) 0 (fun tail =>
    match lg_block l !! Z.to_nat tail with
    | None => fault
    | Some home =>
        lbuf ← bio_op (bread (lg_dev l) (lg_start l + tail + 1));
        dbuf ← bio_op (bread (lg_dev l) home);
        d ← bio_op (bdata lbuf);
        bio_op (set_bdata dbuf d) ;;
        bio_op (bwrite dbuf) ;;
        bio_op (brelse lbuf) ;;
        bio_op (brelse dbuf)
    end).

Definition read_head : M lstate unit :=
  l ← gets l_log;
  buf ← bio_op (bread (lg_dev l) (lg_start l));
  d ← bio_op (bdata buf);
  upd_log (set_n (hdr_n d)) ;;
  for_loop (Z.to_nat (hdr_n d)) 0 (fun i =>
    if LOGSIZE <=? i then fault
    else upd_log (fun l => set_block (<[Z.to_nat i := hdr_block d i]> (lg_block l)) l)) ;;
  bio_op (brelse buf).

(** The header block with [n] and the first [n] block numbers stored in it. *)
Fixpoint put_blocks (i : Z) (bl : list Z) (d : block) : block :=
  match bl with
  | [] => d
  | b :: bl' => put_blocks (i + 1) bl' (put_u32 (hdr_off i) (u32 b) d)
  end.
Definition put_head (n : Z) (bl : list Z) (d : block) : block :=
  put_blocks 0 (take (Z.to_nat n) bl) (put_u32 0 (u32 n) d).

Definition write_head : M lstate unit :=
  l ← gets l_log;
  buf ← bio_op (bread (lg_dev l) (lg_start l));
  d ← bio_op (bdata buf);
  bio_op (set_bdata buf (put_head (lg_n l) (lg_block l) d)) ;;
  bio_op (bwrite buf) ;;
  bio_op (brelse buf).

Definition recover_from_log : M lstate unit :=
  read_head ;;
  install_trans ;;
  upd_log (set_n 0) ;;
  write_head.

(** [sizeof(struct logheader)]. *)
Definition LOGHEADER_SIZE : Z := 4 + 4 * LOGSIZE.

Definition initlog (dev : Z) : M lstate unit :=
  (if Z.of_nat BSIZE <=? LOGHEADER_SIZE then panic "initlog: too big logheader" else mret tt) ;;
  sb ← readsb dev;
  upd_log (fun l => mkLog (sb_logstart sb) (sb_nlog sb) (lg_outstanding l) (lg_committing l)
                      dev (lg_n l) (lg_block l)) ;;
  recover_from_log.

Definition begin_op : M lstate unit :=
  l ← gets l_log;
  if lg_committing l then sleep
  else if LOGSIZE <? lg_n l + (lg_outstanding l + 1) * MAXOPBLOCKS then sleep
  else upd_log (set_outstanding (lg_outstanding l + 1)).

Definition write_log : M lstate unit :=
  l ← gets l_log;
  for_loop (Z.to_nat (lg_n l)) 0 (fun tail =>
    match lg_block l !! Z.to_nat tail with
    | None => fault
    | Some home =>
        to ← bio_op (bread (lg_dev l) (lg_start l + tail + 1));
        from ← bio_op (bread (lg_dev l) home);
        d ← bio_op (bdata from);
        bio_op (set_bdata to d) ;;
        bio_op (bwrite to) ;;
        bio_op (brelse from) ;;
        bio_op (brelse to)
    end).

Definition commit : M lstate unit :=
  l ← gets l_log;
  if 0 <? lg_n l then
    write_log ;;
    write_head ;;
    install_trans ;;
    upd_log (set_n 0) ;;
    write_head
  else mret tt.

(** The wakeups of sleepers on [&log] concern other processes only. *)
Definition end_op : M lstate unit :=
  upd_log (fun l => set_outstanding (lg_outstanding l - 1) l) ;;
  l ← gets l_log;
  if lg_committing l then panic "log.committing"
  else if lg_outstanding l =? 0 then
    upd_log (set_committing true) ;;
    commit ;;
    upd_log (set_committing false)
  else mret tt.

(** [for (i = 0; i < log.lh.n; i++) if (log.lh.block[i] == b->blockno) break;] *)
Fixpoint find_logged (bl : list Z) (bno : Z) : nat :=
  match bl with
  | [] => O
  | b :: bl' => if b =? bno then O else S (find_logged bl' bno)
  end.

Definition log_write (b : nat) : M lstate unit :=
  s ← get;
  let l := l_log s in
  let bno := b_blockno (buf_at (l_bio s) b) in
  if (LOGSIZE <=? lg_n l) || (lg_size l - 1 <=? lg_n l) then panic "too big a transaction" else
  if lg_outstanding l <? 1 then panic "log_write outside of trans" else
  let i := find_logged (take (Z.to_nat (lg_n l)) (lg_block l)) bno in
  upd_log (fun l => set_block (<[i := bno]> (lg_block l)) l) ;;
  (if Z.of_nat i =? lg_n l then upd_log (fun l => set_n (lg_n l + 1) l) else mret tt) ;;
  bio_op (upd b (fun x => set_flags (Z.lor (b_flags x) B_DIRTY) x)).
End ops.

(** ** Sequences of disk writes *)

Definition replay (k : list block) (ws : list (Z * block)) : list block :=
  foldl (fun k w => <[Z.to_nat w.1 := w.2]> k) k ws.

Definition disk_replay (k : disk) (ws : list (Z * block)) : disk :=
  mkDisk (replay (blocks k) ws) (writes k ++ ws).

Lemma replay_app k ws ws' : replay k (ws ++ ws') = replay (replay k ws) ws'.
Proof. apply foldl_app. Qed.

Lemma length_replay k ws : length (replay k ws) = length k.
Proof.
  revert k. induction ws as [|w ws IH]; intros k; [done|]. cbn.
  unfold replay in IH. rewrite IH. apply length_insert.
Qed.

Lemma replay_lookup_ne k ws i :
  (forall w, w ∈ ws -> Z.to_nat w.1 <> i) -> replay k ws !! i = k !! i.
Proof.
  revert k. induction ws as [|w ws IH]; intros k Hne; [done|].
  change (replay (<[Z.to_nat w.1 := w.2]> k) ws !! i = k !! i).
  rewrite IH by (intros; apply Hne; by right). apply list_lookup_insert_ne, Hne. by left.
Qed.

Lemma replay_lookup_in k ws b d :
  NoDup (Z.to_nat ∘ fst <$> ws) -> (b, d) ∈ ws -> (Z.to_nat b < length k)%nat ->
  replay k ws !! Z.to_nat b = Some d.
Proof.
  revert k. induction ws as [|w ws IH]; intros k Hnd Hin Hb; [by apply elem_of_nil in Hin|].
  rewrite fmap_cons in Hnd. apply NoDup_cons in Hnd as [Hw Hnd].
  change (replay (<[Z.to_nat w.1 := w.2]> k) ws !! Z.to_nat b = Some d).
  apply elem_of_cons in Hin as [<-|Hin].
  - simpl. rewrite replay_lookup_ne.
    + by apply list_lookup_insert_eq.
    + intros w' Hw' Heq. apply Hw. simpl. rewrite <- Heq. apply list_elem_of_fmap. by exists w'.
  - apply IH; [done|done|]. by rewrite length_insert.
Qed.

Lemma replay_Forall (P : block -> Prop) k ws :
  Forall P k -> (forall w, w ∈ ws -> P w.2) -> Forall P (replay k ws).
Proof.
  revert k. induction ws as [|w ws IH]; intros k Hk Hw; [done|].
  change (Forall P (replay (<[Z.to_nat w.1 := w.2]> k) ws)).
  apply IH; [|intros; apply Hw; by right]. apply Forall_insert; [done|]. apply Hw. by left.
Qed.

Lemma disk_replay_app k ws ws' : disk_replay k (ws ++ ws') = disk_replay (disk_replay k ws) ws'.
Proof. unfold disk_replay. simpl. by rewrite replay_app, app_assoc. Qed.

Lemma disk_replay_nil k : disk_replay k [] = k.
Proof. unfold disk_replay. rewrite app_nil_r. by destruct k. Qed.

Lemma disk_write_replay b d k : disk_write b d k = disk_replay k [(b, d)].
Proof. done. Qed.

(** ** The header block *)

Lemma length_put_blocks i bl d :
  0 <= i -> i + Z.of_nat (length bl) <= LOGSIZE -> length d = BSIZE -> length (put_blocks i bl d) = BSIZE.
Proof.
  revert i d. induction bl as [|b bl IH]; intros i d Hi Hb Hd; [done|].
  cbn [put_blocks length] in *. apply IH; [lia|lia|].
  rewrite length_put_u32; [done|]. unfold hdr_off. unfold_params. lia.
Qed.

Lemma put_blocks_ne i bl d o :
  0 <= i -> i + Z.of_nat (length bl) <= LOGSIZE -> length d = BSIZE -> (o + 4 <= hdr_off i)%nat ->
  get_u32 o (put_blocks i bl d) = get_u32 o d.
Proof.
  revert i d. induction bl as [|b bl IH]; intros i d Hi Hb Hd Ho; [done|].
  cbn [put_blocks length] in *. unfold hdr_off in *. unfold_params.
  rewrite IH; [|lia|lia|rewrite length_put_u32; lia|lia].
  rewrite get_put_u32_ne; [done|lia|lia].
Qed.

Lemma put_blocks_lookup i bl d j b :
  0 <= i -> i + Z.of_nat (length bl) <= LOGSIZE -> length d = BSIZE ->
  bl !! j = Some b -> 0 <= b < 2147483648 ->
  hdr_block (put_blocks i bl d) (i + Z.of_nat j) = b.
Proof.
  revert i d j. induction bl as [|c bl IH]; intros i d j Hi Hbl Hd Hj Hb; [done|].
  cbn [put_blocks length] in *.
  assert (Hlen : length (put_u32 (hdr_off i) (u32 c) d) = BSIZE).
  { rewrite length_put_u32; [done|]. unfold hdr_off. unfold_params. lia. }
  destruct j as [|j]; simpl in Hj.
  - injection Hj as ->. rewrite Z.add_0_r. unfold hdr_block.
    rewrite put_blocks_ne; [|lia|lia|done|unfold hdr_off; lia].
    rewrite get_put_u32_eq; [|unfold hdr_off; unfold_params; lia|apply u32_range].
    rewrite u32_small by lia. apply s32_small. lia.
  - replace (i + Z.of_nat (S j)) with (i + 1 + Z.of_nat j) by lia. apply IH; [lia|lia|done|done|done].
Qed.

Lemma put_blocks_ok i bl d :
  0 <= i -> i + Z.of_nat (length bl) <= LOGSIZE -> block_ok d -> block_ok (put_blocks i bl d).
Proof.
  revert i d. induction bl as [|b bl IH]; intros i d Hi Hb Hd; [done|].
  cbn [put_blocks length] in *. apply IH; [lia|lia|].
  apply block_ok_put_u32; [done|]. unfold hdr_off. unfold_params. lia.
Qed.

Section head.
Context (n : Z) (bl : list Z) (d : block).
Hypothesis Hn : 0 <= n <= LOGSIZE.
Hypothesis Hd : block_ok d.

Let len_take : Z.of_nat (length (take (Z.to_nat n) bl)) <= LOGSIZE.
Proof. rewrite length_take. lia. Qed.

Lemma put_head_ok : block_ok (put_head n bl d).
Proof.
  apply put_blocks_ok; [lia|done|]. apply block_ok_put_u32; [done|]. unfold_params. lia.
Qed.

Lemma hdr_n_put_head : hdr_n (put_head n bl d) = n.
Proof.
  unfold hdr_n, put_head. destruct Hd as [Hl _].
  rewrite put_blocks_ne; [|lia|done|by rewrite length_put_u32; [|rewrite Hl; unfold_params; lia]|].
  - rewrite get_put_u32_eq; [|rewrite Hl; unfold_params; lia|apply u32_range].
    unfold_params. rewrite u32_small by lia. apply s32_small. lia.
  - unfold hdr_off. lia.
Qed.

Lemma hdr_block_put_head i b :
  0 <= i < n -> bl !! Z.to_nat i = Some b -> 0 <= b < 2147483648 ->
  hdr_block (put_head n bl d) i = b.
Proof.
  intros Hi Hb Hr. unfold put_head. destruct Hd as [Hl _].
  replace i with (0 + Z.of_nat (Z.to_nat i)) by lia.
  apply put_blocks_lookup; [lia|done| | |done].
  - rewrite length_put_u32; [done|]. rewrite Hl. unfold_params. lia.
  - rewrite lookup_take_lt by lia. done.
Qed.
End head.

(** ** Copying a block through the cache *)

Section proofs.
Context `{!BlockDevice}.

(** The end of an iteration of [install_trans] and [write_log]: copy buffer
    [i] (of block [src]) to buffer [j] (of block [dst]), write it, release both. *)
Lemma copy_spec s v Dt Hd src dst i j d :
  bio_rep (l_bio s) v Dt Hd -> src <> dst -> Hd !! src = Some i -> Hd !! dst = Some j ->
  v !! Z.to_nat src = Some d ->
  (src ∈ Dt \/ v !! Z.to_nat src = blocks (bdisk (l_bio s)) !! Z.to_nat src) ->
  wp (d ← bio_op (bdata i); bio_op (set_bdata j d) ;; bio_op (bwrite j) ;;
      bio_op (brelse i) ;; bio_op (brelse j))
     (fun _ s' => exists b', s' = set_bio b' s /\
        bio_rep b' (<[Z.to_nat dst := d]> v) (Dt ∖ {[dst]}) (delete dst (delete src Hd)) /\
        bdisk b' = disk_write dst d (bdisk (l_bio s)) /\ bpid b' = bpid (l_bio s)) s.
Proof.
  intros R Hne Hi Hj Hd' Hcl.
  destruct (rep_held_buf _ _ _ _ _ _ R Hi) as (_ & Hs0 & Hdi & _).
  destruct (rep_held_buf _ _ _ _ _ _ R Hj) as (_ & Ht0 & Hdj & _).
  assert (d = b_data (buf_at (l_bio s) i)) as -> by congruence.
  apply lookup_lt_Some in Hdj as Hlt.
  assert (Hok : block_ok (b_data (buf_at (l_bio s) i))) by by eapply rep_lookup_ok.
  unfold bio_op, bdata. wp_steps.
  eapply wp_mono; [by eapply set_bdata_spec|]. intros _ b1 (R1 & Hk1 & Hp1). cbn beta. wp_steps. lsimpl.
  eapply wp_mono.
  { eapply bwrite_spec; [exact R1|done|]. by apply list_lookup_insert_eq. }
  intros _ b2 (R2 & Hk2 & Hp2). cbn beta. wp_steps. lsimpl.
  eapply wp_mono.
  { eapply brelse_spec; [exact R2|done|]. destruct Hcl as [?|Hcl]; [left; set_solver|right].
    rewrite Hk2, Hk1. cbn [blocks disk_write].
    rewrite !list_lookup_insert_ne by lia. done. }
  intros _ b3 (R3 & Hk3 & Hp3). cbn beta. wp_steps. lsimpl.
  eapply wp_mono.
  { eapply brelse_spec; [exact R3|by rewrite lookup_delete_ne|]. right.
    rewrite Hk3, Hk2, Hk1. cbn [blocks disk_write].
    rewrite !list_lookup_insert_eq; [done| |done].
    by rewrite <- (rep_len _ _ _ _ R). }
  intros _ b4 (R4 & Hk4 & Hp4). exists b4. lsimpl.
  rewrite Hk4, Hk3, Hk2, Hk1, Hp4, Hp3, Hp2, Hp1. by split_and!.
Qed.

(** ** The log area *)

Context (sb : superblock).
Abbreviation start := (sb_logstart sb).
Abbreviation nlog := (sb_nlog sb).

Definition in_log (b : Z) : Prop := start <= b < start + nlog.

(** The log area lies after the super block, inside the disk, and holds at
    most [LOGSIZE] blocks (as [mkfs] lays it out). *)
Definition geometry (len : nat) : Prop :=
  2 <= start /\ 1 <= nlog <= LOGSIZE /\ start + nlog <= Z.of_nat len.

(** The blocks a transaction may log, and how many. *)
Definition home_ok (len : nat) (L : list Z) : Prop :=
  NoDup L /\ Z.of_nat (length L) <= nlog - 1 /\
  (forall b, b ∈ L -> 1 < b < Z.of_nat len /\ ~ in_log b).

(** The in-memory log, holding the transaction [L]. *)
Definition log_ok (l : log) (L : list Z) : Prop :=
  lg_start l = start /\ lg_size l = nlog /\ lg_dev l = ROOTDEV /\
  lg_n l = Z.of_nat (length L) /\ Z.of_nat (length (lg_block l)) = LOGSIZE /\
  take (length L) (lg_block l) = L.

(** The writes of [write_log] and of [install_trans]. *)
Definition log_writes (L : list Z) (v : list block) : list (Z * block) :=
  imap (fun i b => (start + Z.of_nat i + 1, v !!! Z.to_nat b)) L.
Definition inst_writes (L : list Z) (v : list block) : list (Z * block) :=
  imap (fun i b => (b, v !!! Z.to_nat (start + Z.of_nat i + 1))) L.

Lemma imap_take_S {A B} (f : nat -> A -> B) (l : list A) t x :
  l !! t = Some x -> imap f (take (S t) l) = imap f (take t l) ++ [f t x].
Proof.
  intros Hx. rewrite (take_S_r _ _ _ Hx), imap_app. simpl. do 3 f_equal.
  apply lookup_lt_Some in Hx. rewrite length_take. lia.
Qed.

Lemma elem_of_imap {A B} (f : nat -> A -> B) l y :
  y ∈ imap f l -> exists i x, l !! i = Some x /\ y = f i x.
Proof.
  intros Hy. apply list_elem_of_lookup in Hy as [i Hi]. rewrite list_lookup_imap in Hi.
  destruct (l !! i) as [x|] eqn:E; [|done]. injection Hi as <-. by exists i, x.
Qed.

Lemma log_ok_lookup l L t b : log_ok l L -> L !! t = Some b -> lg_block l !! t = Some b.
Proof.
  intros (_ & _ & _ & _ & _ & Ht) Hb. rewrite <- Ht in Hb.
  apply lookup_take_Some in Hb as [? _]. done.
Qed.

Section transaction.
Context (len : nat) (L : list Z).
Hypothesis G : geometry len.
Hypothesis HL : home_ok len L.

Lemma home_not_log t b : L !! t = Some b -> ~ in_log b /\ 1 < b < Z.of_nat len.
Proof.
  intros Hb. destruct HL as (_ & _ & Hh). apply list_elem_of_lookup_2 in Hb. by destruct (Hh b Hb).
Qed.

Lemma log_slot t b : L !! t = Some b ->
  in_log (start + Z.of_nat t + 1) /\ 0 <= start + Z.of_nat t + 1 < Z.of_nat len.
Proof.
  intros Hb. apply lookup_lt_Some in Hb. destruct HL as (_ & Hn & _). destruct G as (? & ? & ?).
  unfold in_log. lia.
Qed.

Lemma size_trans (Dt : gset Z) : Dt ⊆ list_to_set L -> (size Dt < NBUF)%nat.
Proof.
  intros Hs. apply subseteq_size in Hs. destruct HL as (Hnd & Hn & _). destruct G as (_ & ? & _).
  rewrite size_list_to_set in Hs by done. unfold_params. lia.
Qed.

Lemma start_not_home : start ∉ L.
Proof.
  intros Hs. destruct HL as (_ & _ & Hh). destruct (Hh _ Hs) as [_ Hn]. apply Hn.
  destruct G as (? & ? & ?). unfold in_log. lia.
Qed.
End transaction.

(** Two locked buffers released leave none. *)
Lemma release_both_l a b i j : delete a (delete b (<[b := j]> (<[a := i]> (∅ : gmap Z nat)))) = ∅.
Proof. apply map_eq. intros k. rewrite !lookup_delete, !lookup_insert, lookup_empty. by repeat case_decide. Qed.

Lemma release_both_r a b i j : delete a (delete b (<[a := i]> (<[b := j]> (∅ : gmap Z nat)))) = ∅.
Proof. apply map_eq. intros k. rewrite !lookup_delete, !lookup_insert, lookup_empty. by repeat case_decide. Qed.

(** What a step of the log layer leaves alone. *)
Definition bio_step (s : lstate) (v : list block) (Dt : gset Z) (ws : list (Z * block)) (s' : lstate) : Prop :=
  exists b', s' = set_bio b' s /\ bio_rep b' v Dt ∅ /\
    bdisk b' = disk_replay (bdisk (l_bio s)) ws /\ bpid b' = bpid (l_bio s).

Lemma size_union_le (X Y : gset Z) : (size (X ∪ Y) <= size X + size Y)%nat.
Proof.
  rewrite size_union_alt. assert (size (Y ∖ X) <= size Y)%nat; [|lia]. apply subseteq_size. set_solver.
Qed.

(** Locking the buffers of two blocks. *)
Lemma wp_bread2 {A} s v Dt a b (f : nat -> nat -> M lstate A) Q :
  bio_rep (l_bio s) v Dt ∅ -> a <> b ->
  0 <= a < Z.of_nat (length v) -> 0 <= b < Z.of_nat (length v) ->
  (size Dt < NBUF)%nat -> b ∈ Dt \/ (S (size Dt) < NBUF)%nat ->
  (forall i j b', bio_rep b' v Dt (<[b := j]> (<[a := i]> ∅)) ->
     bdisk b' = bdisk (l_bio s) -> bpid b' = bpid (l_bio s) -> wp (f i j) Q (set_bio b' s)) ->
  wp (i ← bio_op (bread ROOTDEV a); j ← bio_op (bread ROOTDEV b); f i j) Q s.
Proof.
  intros R Hne Ha Hb Hsz Hsz' Hf. lwp. eapply wp_mono.
  { eapply bread_spec; [exact R|done|done|]. right. by rewrite dom_empty_L, union_empty_r_L. }
  intros i b1 (R1 & Hk1 & Hp1). cbn beta. lwp. lsimpl. eapply wp_mono.
  { eapply bread_spec; [exact R1|by rewrite lookup_insert_ne|done|].
    destruct Hsz' as [?|Hsz']; [by left|right]. rewrite dom_insert_L, dom_empty_L, union_empty_r_L.
    eapply Nat.le_lt_trans; [apply size_union_le|]. rewrite size_singleton. lia. }
  intros j b2 (R2 & Hk2 & Hp2). cbn beta. apply Hf; congruence.
Qed.

(** Slots of the log area and home blocks are disjoint. *)
Lemma log_writes_ne len L v t b i :
  geometry len -> home_ok len L -> ~ in_log b -> 0 <= b -> i = Z.to_nat b ->
  forall w, w ∈ log_writes (take t L) v -> Z.to_nat w.1 <> i.
Proof.
  intros G HL Hb Hb0 -> w Hw. apply elem_of_imap in Hw as (k & x & Hk & ->).
  apply lookup_take_Some in Hk as [Hk _]. destruct (log_slot _ _ G HL _ _ Hk). simpl.
  intros Heq. apply Hb. by replace b with (start + Z.of_nat k + 1) by lia.
Qed.

Lemma inst_writes_ne len L v t b i :
  home_ok len L -> b ∉ take t L -> 0 <= b -> i = Z.to_nat b ->
  forall w, w ∈ inst_writes (take t L) v -> Z.to_nat w.1 <> i.
Proof.
  intros HL Hb Hb0 -> w Hw. apply elem_of_imap in Hw as (k & x & Hk & ->). simpl.
  apply lookup_take_Some in Hk as Hk'. destruct Hk' as [Hk' _].
  destruct (home_not_log _ _ HL _ _ Hk') as [_ ?]. apply list_elem_of_lookup_2 in Hk.
  intros Heq. apply Hb. by replace b with x by lia.
Qed.

(** [write_log] copies every logged block to its slot of the log area. *)
Lemma write_log_spec s v L :
  geometry (length v) -> home_ok (length v) L -> log_ok (l_log s) L ->
  bio_rep (l_bio s) v (list_to_set L) ∅ ->
  wp write_log (fun _ => bio_step s (replay v (log_writes L v)) (list_to_set L) (log_writes L v)) s.
Proof.
  intros G HL Hlog R. unfold write_log. wp_steps.
  pose proof Hlog as (Hst & _ & Hdev & Hn & _). rewrite Hst, Hdev, Hn, Nat2Z.id.
  set (I := fun t s' => bio_step s (replay v (log_writes (take (Z.to_nat t) L) v))
                          (list_to_set L) (log_writes (take (Z.to_nat t) L) v) s').
  eapply wp_mono; [apply (wp_for_loop I)|].
  - exists (l_bio s). change (log_writes (take (Z.to_nat 0) L) v) with (@nil (Z * block)).
    rewrite disk_replay_nil. split_and!; try done. by destruct s.
  - intros t s1 Ht (b1 & -> & R1 & Hk1 & Hp1).
    destruct (lookup_lt_is_Some_2 L (Z.to_nat t)) as [home Hhome]; [lia|].
    rewrite (log_ok_lookup _ _ _ _ Hlog Hhome).
    destruct (home_not_log _ _ HL _ _ Hhome) as [Hnl Hrange].
    destruct (log_slot _ _ G HL _ _ Hhome) as [Hil Hslot]. rewrite Z2Nat.id in Hil, Hslot by lia.
    assert (Hne : home <> start + t + 1) by (intros ->; done).
    assert (Hin : home ∈ (list_to_set L : gset Z)).
    { apply elem_of_list_to_set. by apply list_elem_of_lookup_2 in Hhome. }
    destruct (lookup_lt_is_Some_2 v (Z.to_nat home)) as [d Hd]; [lia|].
    eapply wp_bread2; [exact R1|done|rewrite length_replay; lia|rewrite length_replay; lia| |by left|].
    { by eapply (size_trans _ _ G HL). }
    intros i j b3 R3 Hk3 Hp3. lsimpl. eapply wp_mono.
    { eapply copy_spec with (src := home) (dst := start + t + 1) (d := d);
        [exact R3|done|by rewrite lookup_insert_eq|by rewrite lookup_insert_ne, lookup_insert_eq| |by left].
      by rewrite replay_lookup_ne; [|eapply log_writes_ne with (b := home); [done|done|done|lia|done]]. }
    intros [] s5 (b5 & -> & R5 & Hk5 & Hp5). lsimpl. exists b5.
    assert (Hws : log_writes (take (Z.to_nat (t + 1)) L) v
      = log_writes (take (Z.to_nat t) L) v ++ [(start + t + 1, d)]).
    { replace (Z.to_nat (t + 1)) with (S (Z.to_nat t)) by lia. unfold log_writes.
      rewrite (imap_take_S _ _ _ _ Hhome). do 3 f_equal; [lia|]. by apply list_lookup_total_correct. }
    rewrite Hws, replay_app, disk_replay_app. split_and!; [done| |by rewrite Hk5, Hk3, Hk1|congruence].
    rewrite release_both_l in R5.
    replace (list_to_set L ∖ {[start + t + 1]} : gset Z) with (list_to_set L : gset Z) in R5; [done|].
    assert (start + t + 1 ∉ L); [|set_solver].
    intros Hx. destruct HL as (_ & _ & Hh). by destruct (Hh _ Hx).
  - intros [] s'. unfold I. rewrite Z.add_0_l, Nat2Z.id, firstn_all. done.
Qed.

(** [install_trans] copies the slots of the log area to the home blocks. It
    runs with the logged blocks pinned ([commit]) or with a clean cache
    (recovery). *)
Lemma install_trans_spec s v L (Dt : gset Z) :
  geometry (length v) -> home_ok (length v) L -> log_ok (l_log s) L ->
  bio_rep (l_bio s) v Dt ∅ -> Dt = list_to_set L \/ Dt = ∅ ->
  wp install_trans (fun _ => bio_step s (replay v (inst_writes L v)) ∅ (inst_writes L v)) s.
Proof.
  intros G HL Hlog R HDt. unfold install_trans. wp_steps.
  pose proof Hlog as (Hst & _ & Hdev & Hn & _). rewrite Hst, Hdev, Hn, Nat2Z.id.
  set (I := fun t s' => bio_step s (replay v (inst_writes (take (Z.to_nat t) L) v))
                          (Dt ∖ list_to_set (take (Z.to_nat t) L)) (inst_writes (take (Z.to_nat t) L) v) s').
  eapply wp_mono; [apply (wp_for_loop I)|].
  - exists (l_bio s). change (inst_writes (take (Z.to_nat 0) L) v) with (@nil (Z * block)).
    rewrite disk_replay_nil. split_and!; try done; [by destruct s|].
    change (list_to_set (take (Z.to_nat 0) L) : gset Z) with (∅ : gset Z). by rewrite difference_empty_L.
  - intros t s1 Ht (b1 & -> & R1 & Hk1 & Hp1).
    destruct (lookup_lt_is_Some_2 L (Z.to_nat t)) as [home Hhome]; [lia|].
    rewrite (log_ok_lookup _ _ _ _ Hlog Hhome).
    destruct (home_not_log _ _ HL _ _ Hhome) as [Hnl Hrange].
    destruct (log_slot _ _ G HL _ _ Hhome) as [Hil Hslot]. rewrite Z2Nat.id in Hil, Hslot by lia.
    assert (Hne : start + t + 1 <> home) by (intros <-; done).
    assert (Htake : take (S (Z.to_nat t)) L = take (Z.to_nat t) L ++ [home]) by by apply take_S_r.
    assert (Hfresh : home ∉ take (Z.to_nat t) L).
    { destruct HL as (Hnd & _). rewrite <- (take_drop (S (Z.to_nat t)) L), Htake in Hnd.
      rewrite <- app_assoc in Hnd. apply NoDup_app in Hnd as (_ & Hx & _). intros Hy.
      apply (Hx _ Hy). by left. }
    assert (Hslotnot : start + t + 1 ∉ L).
    { intros Hx. destruct HL as (_ & _ & Hh). by destruct (Hh _ Hx). }
    assert (Hsub : Dt ∖ list_to_set (take (Z.to_nat t) L) ⊆ list_to_set L) by (destruct HDt as [-> | ->]; set_solver).
    destruct (lookup_lt_is_Some_2 v (Z.to_nat (start + t + 1))) as [d Hd]; [lia|].
    eapply wp_bread2; [exact R1|done|rewrite length_replay; lia|rewrite length_replay; lia| | |].
    { by eapply (size_trans _ _ G HL). }
    { destruct HDt as [-> | ->]; [left|right].
      - apply list_elem_of_lookup_2 in Hhome. set_solver.
      - assert (E : (∅ ∖ list_to_set (take (Z.to_nat t) L) : gset Z) = ∅) by set_solver.
        rewrite E, size_empty. unfold NBUF. lia. }
    intros i j b3 R3 Hk3 Hp3. lsimpl.
    assert (Hsrc : replay v (inst_writes (take (Z.to_nat t) L) v) !! Z.to_nat (start + t + 1) = Some d).
    { rewrite replay_lookup_ne; [done|]. eapply inst_writes_ne with (b := start + t + 1); [done| |lia|done].
      intros Hx. apply Hslotnot. rewrite <- (take_drop (Z.to_nat t) L). set_solver. }
    eapply wp_mono.
    { eapply copy_spec with (src := start + t + 1) (dst := home) (d := d);
        [exact R3|done|by rewrite lookup_insert_ne, lookup_insert_eq|by rewrite lookup_insert_eq|done|].
      right. lsimpl. rewrite Hk3. apply (rep_clean _ _ _ _ R1); [lia|set_solver|done]. }
    intros [] s5 (b5 & -> & R5 & Hk5 & Hp5). lsimpl. exists b5.
    replace (Z.to_nat (t + 1)) with (S (Z.to_nat t)) by lia.
    assert (Hws : inst_writes (take (S (Z.to_nat t)) L) v
      = inst_writes (take (Z.to_nat t) L) v ++ [(home, d)]).
    { unfold inst_writes. rewrite (imap_take_S _ _ _ _ Hhome). do 3 f_equal.
      rewrite Z2Nat.id by lia. by apply list_lookup_total_correct. }
    rewrite Hws, replay_app, disk_replay_app. split_and!; [done| |by rewrite Hk5, Hk3, Hk1|congruence].
    rewrite release_both_r in R5. rewrite Htake, list_to_set_app_L.
    replace (Dt ∖ (list_to_set (take (Z.to_nat t) L) ∪ list_to_set [home]) : gset Z)
      with (Dt ∖ list_to_set (take (Z.to_nat t) L) ∖ {[home]}) by set_solver. done.
  - intros [] s'. unfold I. rewrite Z.add_0_l, Nat2Z.id, firstn_all.
    replace (Dt ∖ list_to_set L) with (∅ : gset Z) by (destruct HDt as [-> | ->]; set_solver). done.
Qed.

(** One locked buffer at a time. *)
Lemma bread_one b v Dt a (Q : nat -> bio -> Prop) :
  bio_rep b v Dt ∅ -> 0 <= a < Z.of_nat (length v) -> (size Dt < NBUF)%nat ->
  (forall i b', bio_rep b' v Dt {[a := i]} -> bdisk b' = bdisk b -> bpid b' = bpid b -> Q i b') ->
  wp (bread ROOTDEV a) Q b.
Proof.
  intros R Ha Hsz Hf. eapply wp_mono.
  { eapply bread_spec; [exact R|done|done|]. right. by rewrite dom_empty_L, union_empty_r_L. }
  intros i b1 (R1 & Hk1 & Hp1). by apply Hf.
Qed.

Lemma brelse_one b v Dt a i (Q : unit -> bio -> Prop) :
  bio_rep b v Dt {[a := i]} ->
  (a ∈ Dt \/ v !! Z.to_nat a = blocks (bdisk b) !! Z.to_nat a) ->
  (forall b', bio_rep b' v Dt ∅ -> bdisk b' = bdisk b -> bpid b' = bpid b -> Q tt b') ->
  wp (brelse i) Q b.
Proof.
  intros R Hc Hf. eapply wp_mono.
  { eapply brelse_spec; [exact R|apply lookup_singleton_eq|done]. }
  intros [] b1 (R1 & Hk1 & Hp1). rewrite delete_singleton_eq in R1. by apply Hf.
Qed.

Lemma held_one (v : list block) Dt a i b d :
  bio_rep b v Dt {[a := i]} -> v !! Z.to_nat a = Some d -> b_data (buf_at b i) = d /\ block_ok d.
Proof.
  intros R Hd. destruct (rep_held_buf _ _ _ _ a i R) as (_ & _ & Hv & _); [apply lookup_singleton_eq|].
  split; [congruence|]. by eapply rep_lookup_ok.
Qed.

Lemma write_head_spec s v (Dt : gset Z) h :
  lg_start (l_log s) = start -> lg_dev (l_log s) = ROOTDEV -> 0 <= lg_n (l_log s) <= LOGSIZE ->
  0 <= start -> bio_rep (l_bio s) v Dt ∅ -> start ∉ Dt -> (size Dt < NBUF)%nat ->
  v !! Z.to_nat start = Some h ->
  let h' := put_head (lg_n (l_log s)) (lg_block (l_log s)) h in
  wp write_head (fun _ => bio_step s (<[Z.to_nat start := h']> v) Dt [(start, h')]) s.
Proof.
  intros Hst Hdev Hn Hs0 R HD Hsz Hh h'. unfold write_head. lwp. rewrite Hdev, Hst.
  apply lookup_lt_Some in Hh as Hlt.
  eapply bread_one; [exact R|lia|done|]. intros i b1 R1 Hk1 Hp1. lsimpl. unfold bdata. lwp. lsimpl.
  destruct (held_one _ _ _ _ _ _ R1 Hh) as [-> Hok]. fold h'.
  assert (Hok' : block_ok h') by by apply put_head_ok.
  eapply wp_mono; [eapply set_bdata_spec; [exact R1|apply lookup_singleton_eq|done]|].
  intros [] b2 (R2 & Hk2 & Hp2). cbn beta. lwp. lsimpl.
  eapply wp_mono; [eapply bwrite_spec; [exact R2|apply lookup_singleton_eq|by apply list_lookup_insert_eq]|].
  intros [] b3 (R3 & Hk3 & Hp3). cbn beta. lwp. lsimpl.
  eapply brelse_one; [exact R3| |].
  { right. rewrite Hk3, Hk2, Hk1. cbn [disk_write blocks].
    rewrite !list_lookup_insert_eq; [done| |done]. by rewrite <- (rep_len _ _ _ _ R). }
  intros b4 R4 Hk4 Hp4. exists b4. split_and!; [done| |by rewrite Hk4, Hk3, Hk2, Hk1|congruence].
  replace (Dt ∖ {[start]}) with Dt in R4 by set_solver. done.
Qed.

Lemma readsb_spec s v (Dt : gset Z) d :
  bio_rep (l_bio s) v Dt ∅ -> 1 ∉ Dt -> (size Dt < NBUF)%nat -> v !! 1%nat = Some d ->
  wp (readsb ROOTDEV) (fun r s' => r = sb_of_block d /\ bio_step s v Dt [] s') s.
Proof.
  intros R HD Hsz Hd. unfold readsb. lwp. apply lookup_lt_Some in Hd as Hlt.
  eapply bread_one; [exact R|lia|done|]. intros i b1 R1 Hk1 Hp1. unfold bdata. lwp. lsimpl.
  destruct (held_one _ _ _ _ _ d R1) as [-> Hok]; [done|].
  eapply brelse_one; [exact R1| |].
  { right. rewrite Hk1. by apply (rep_clean _ _ _ _ R). }
  intros b2 R2 Hk2 Hp2. lwp. split; [done|]. exists b2. rewrite disk_replay_nil.
  split_and!; [done..|congruence|congruence].
Qed.

(** The header block [d] describes the transaction [L]. *)
Definition hdr_enc (d : block) (L : list Z) : Prop :=
  hdr_n d = Z.of_nat (length L) /\ forall i b, L !! i = Some b -> hdr_block d (Z.of_nat i) = b.

Lemma read_head_spec s v L (Dt : gset Z) d :
  lg_start (l_log s) = start -> lg_size (l_log s) = nlog -> lg_dev (l_log s) = ROOTDEV ->
  Z.of_nat (length (lg_block (l_log s))) = LOGSIZE ->
  bio_rep (l_bio s) v Dt ∅ -> start ∉ Dt -> (size Dt < NBUF)%nat ->
  0 <= start -> v !! Z.to_nat start = Some d -> hdr_enc d L -> Z.of_nat (length L) <= LOGSIZE ->
  wp read_head (fun _ s' => exists b' l', s' = mkL b' l' /\ bio_rep b' v Dt ∅ /\
      bdisk b' = bdisk (l_bio s) /\ bpid b' = bpid (l_bio s) /\ log_ok l' L /\
      lg_outstanding l' = lg_outstanding (l_log s) /\ lg_committing l' = lg_committing (l_log s)) s.
Proof.
  intros Hst Hnl Hdev Hbl R HD Hsz Hs0 Hd [Hn Hb] HL. unfold read_head. lwp. rewrite Hdev, Hst.
  apply lookup_lt_Some in Hd as Hlt.
  eapply bread_one; [exact R|lia|done|]. intros i b1 R1 Hk1 Hp1. lsimpl. unfold bdata, upd_log. lwp. lsimpl.
  destruct (held_one _ _ _ _ _ _ R1 Hd) as [-> _]. rewrite Hn, Nat2Z.id.
  set (I := fun t (s' : lstate) => exists l', s' = mkL b1 l' /\ lg_start l' = start /\ lg_size l' = nlog /\
     lg_dev l' = ROOTDEV /\ lg_n l' = Z.of_nat (length L) /\ Z.of_nat (length (lg_block l')) = LOGSIZE /\
     lg_outstanding l' = lg_outstanding (l_log s) /\ lg_committing l' = lg_committing (l_log s) /\
     take (Z.to_nat t) (lg_block l') = take (Z.to_nat t) L).
  eapply wp_mono; [apply (wp_for_loop I)|].
  - eexists. by split_and!.
  - intros t s1 Ht (l' & -> & H1 & H2 & H3 & H4 & H5 & H6 & H7 & H8).
    rewrite (proj2 (Z.leb_gt _ _)) by lia. lwp. eexists. split_and!; try done.
    + cbn [l_log set_log set_block lg_block]. by rewrite length_insert.
    + cbn [l_log set_log set_block lg_block].
      destruct (lookup_lt_is_Some_2 L (Z.to_nat t)) as [x Hx]; [lia|].
      replace (Z.to_nat (t + 1)) with (S (Z.to_nat t)) by lia.
      rewrite (take_S_r _ _ _ Hx). erewrite take_S_r by (apply list_lookup_insert_eq; lia).
      rewrite take_insert_ge by lia. rewrite H8. do 2 f_equal.
      rewrite <- (Hb _ _ Hx). f_equal. lia.
  - intros [] s1 (l' & -> & H1 & H2 & H3 & H4 & H5 & H6 & H7 & H8). cbn beta. lwp. lsimpl.
    eapply brelse_one; [exact R1| |].
    { right. rewrite Hk1. by apply (rep_clean _ _ _ _ R). }
    intros b2 R2 Hk2 Hp2. exists b2, l'. split_and!; try done; [congruence|congruence|].
    rewrite Z.add_0_l, Nat2Z.id, firstn_all in H8. by split_and!.
Qed.

(** ** The log layer's invariant

    [log_rep s v L Hd]: the layers up to the log present the contents [v];
    [L] are the blocks of the running transaction (pinned in the cache), [Hd]
    the locked buffers. Outside [commit] the header on disk is empty. *)
Record log_rep (s : lstate) (v : list block) (L : list Z) (Hd : gmap Z nat) : Prop := {
  lr_bio : bio_rep (l_bio s) v (list_to_set L) Hd;
  lr_geom : geometry (length v);
  lr_home : home_ok (length v) L;
  lr_log : log_ok (l_log s) L;
  lr_held : forall b, is_Some (Hd !! b) -> ~ in_log b;
  lr_sb : exists d, v !! 1%nat = Some d /\ sb_of_block d = sb;
  lr_hdr : exists h, v !! Z.to_nat start = Some h /\ hdr_n h = 0;
}.

(** Equality of two disks outside the log area. *)
Definition home_eq (k1 k2 : list block) : Prop :=
  forall b, 0 <= b -> ~ in_log b -> k1 !! Z.to_nat b = k2 !! Z.to_nat b.

#[global] Instance home_eq_equiv : Equivalence home_eq.
Proof.
  split.
  - by intros k b.
  - intros k1 k2 E b ??. symmetry. by apply E.
  - intros k1 k2 k3 H1 H2 b ??. rewrite H1 by done. by apply H2.
Qed.

(** The header written by [commit] describes the transaction. *)
Lemma put_head_enc l L h :
  block_ok h -> log_ok l L -> home_ok (Z.to_nat FSSIZE) L -> Z.of_nat (length L) <= LOGSIZE ->
  hdr_enc (put_head (lg_n l) (lg_block l) h) L.
Proof.
  intros Hh (_ & _ & _ & Hn & Hlen & Ht) HL Hlog. split.
  - rewrite hdr_n_put_head; [done|lia|done].
  - intros i b Hb. destruct HL as (_ & _ & HLb). apply lookup_lt_Some in Hb as Hlt.
    assert (Hx : b ∈ L) by by apply list_elem_of_lookup_2 in Hb.
    apply HLb in Hx as [Hx _]. apply hdr_block_put_head; [lia|done|lia| |unfold_params; lia].
    rewrite Nat2Z.id. rewrite <- Ht in Hb. by apply lookup_take_Some in Hb as [? _].
Qed.

Lemma home_ok_nil len : 1 <= nlog -> home_ok len [].
Proof.
  intros. unfold home_ok. split_and!; [constructor|simpl; lia|]. intros b Hb. by apply elem_of_nil in Hb.
Qed.

Lemma home_ok_mono len len' L : (len <= len')%nat -> home_ok len L -> home_ok len' L.
Proof. intros Hl (H1 & H2 & H3). split_and!; [done..|]. intros b Hb. destruct (H3 b Hb). split; [lia|done]. Qed.

(** The writes of a commit: the log blocks, the header, the home blocks, the
    erased header. *)
Definition commit_writes (s : lstate) (v : list block) (L : list Z) (h : block) : list (Z * block) :=
  let h1 := put_head (lg_n (l_log s)) (lg_block (l_log s)) h in
  log_writes L v ++ [(start, h1)] ++ ((fun b => (b, v !!! Z.to_nat b)) <$> L) ++
  [(start, put_head 0 (lg_block (l_log s)) h1)].

(** After [write_log] and [write_head] the slots hold the logged contents. *)
Lemma inst_writes_after_log L k v h :
  geometry (length k) -> home_ok (length k) L ->
  inst_writes L (<[Z.to_nat start := h]> (replay k (log_writes L v)))
  = (fun b => (b, v !!! Z.to_nat b)) <$> L.
Proof.
  intros G HL. apply list_eq. intros i. unfold inst_writes. rewrite list_lookup_imap, list_lookup_fmap.
  destruct (L !! i) as [b|] eqn:Hb; [|done]. cbn. f_equal. f_equal.
  destruct (log_slot _ _ G HL _ _ Hb) as [_ Hs]. destruct G as (G1 & G2 & G3).
  rewrite list_lookup_total_insert_ne by lia.
  apply list_lookup_total_correct. apply replay_lookup_in; [| |lia].
  - apply NoDup_alt. intros j1 j2 x. rewrite !list_lookup_fmap. unfold log_writes. rewrite !list_lookup_imap.
    destruct (L !! j1) eqn:E1; [|done]. destruct (L !! j2) eqn:E2; [|done]. cbn. intros [= <-] [= ?]. lia.
  - apply list_elem_of_lookup. exists i. unfold log_writes. rewrite list_lookup_imap, Hb. done.
Qed.

Lemma replay_same (v : list block) (L : list Z) :
  (forall b, b ∈ L -> (Z.to_nat b < length v)%nat) ->
  replay v ((fun b => (b, v !!! Z.to_nat b)) <$> L) = v.
Proof.
  intros HL. assert (Hgen : forall k, k = v -> replay k ((fun b => (b, v !!! Z.to_nat b)) <$> L) = v); [|by apply Hgen].
  induction L as [|b L IH]; intros k ->; [done|]. cbn [fmap list_fmap].
  change (replay (<[Z.to_nat b := v !!! Z.to_nat b]> v) ((fun b => (b, v !!! Z.to_nat b)) <$> L) = v).
  apply IH; [intros; apply HL; by right|]. apply insert_total_id.
Qed.

(** [commit] of a non-empty transaction: it returns, with an empty log, the
    contents unchanged, and exactly the writes [commit_writes]. *)
Lemma commit_spec s v L h :
  log_rep s v L ∅ -> L <> [] -> v !! Z.to_nat start = Some h ->
  wp commit (fun _ s' => exists v', log_rep s' v' [] ∅ /\ home_eq v' v /\
     l_log s' = set_n 0 (l_log s) /\ bpid (l_bio s') = bpid (l_bio s) /\
     bdisk (l_bio s') = disk_replay (bdisk (l_bio s)) (commit_writes s v L h)) s.
Proof.
  intros [R G HL Hlog _ Hsb Hhdr] Hne Hh. pose proof G as (G1 & G2 & G3).
  pose proof Hlog as (Hst & Hnl & Hdev & Hn & Hlb & Htk).
  assert (HlenL : (0 < length L)%nat) by (destruct L; [done|simpl; lia]).
  assert (HLn : Z.of_nat (length L) <= LOGSIZE) by (destruct HL as (_ & ? & _); lia).
  pose proof (rep_size _ _ _ _ R) as Hsize.
  unfold commit. wp_steps. rewrite (proj2 (Z.ltb_lt _ _)) by lia. wp_steps.
  eapply wp_mono; [by apply write_log_spec|].
  intros [] s1 (b1 & -> & R1 & Hk1 & Hp1). cbn beta. wp_steps.
  assert (Hh1 : replay v (log_writes L v) !! Z.to_nat start = Some h).
  { rewrite replay_lookup_ne; [done|]. intros w Hw. apply elem_of_imap in Hw as (k & x & Hk & ->).
    simpl. destruct (log_slot _ _ G HL _ _ Hk). lia. }
  assert (HsD : start ∉ (list_to_set L : gset Z)).
  { rewrite elem_of_list_to_set. by eapply start_not_home. }
  eapply wp_mono.
  { eapply write_head_spec; lsimpl; [done|done|lia|lia|exact R1|done| |exact Hh1].
    by eapply (size_trans _ _ G HL). }
  intros [] s2 (b2 & -> & R2 & Hk2 & Hp2). cbn beta. wp_steps. lsimpl.
  set (h1 := put_head _ _ _) in *.
  assert (Hok1 : block_ok h1).
  { apply put_head_ok; [lia|]. eapply rep_lookup_ok; [exact R1|done]. }
  eapply wp_mono.
  { eapply install_trans_spec; [| | |exact R2|by left]; lsimpl; [| |exact Hlog];
      rewrite length_insert, length_replay; done. }
  intros [] s3 (b3 & -> & R3 & Hk3 & Hp3). cbn beta. unfold upd_log. wp_steps. lsimpl.
  rewrite inst_writes_after_log in R3, Hk3 by done.
  set (v1 := <[Z.to_nat start := h1]> (replay v (log_writes L v))) in *.
  set (ws := (fun b => (b, v !!! Z.to_nat b)) <$> L) in *.
  assert (Hlen1 : length v1 = length v) by (unfold v1; by rewrite length_insert, length_replay).
  assert (Hv1 : home_eq v1 v).
  { intros b Hb Hnl'. unfold v1. rewrite list_lookup_insert_ne by (unfold in_log in Hnl'; lia).
    apply replay_lookup_ne. intros w Hw. replace L with (take (length L) L) in Hw by apply firstn_all.
    by eapply (log_writes_ne _ L v (length L) b); [exact G|exact HL|..]. }
  assert (Hv2 : replay v1 ws = v1).
  { unfold ws. replace ((fun b => (b, v !!! Z.to_nat b)) <$> L)
      with ((fun b => (b, v1 !!! Z.to_nat b)) <$> L); [apply replay_same|].
    - intros b Hb. destruct HL as (_ & _ & HLb). destruct (HLb b Hb). lia.
    - apply list_fmap_ext. intros i b Hb. f_equal. destruct (home_not_log _ _ HL _ _ Hb) as [Hnb ?].
      rewrite !list_lookup_total_alt. by rewrite Hv1 by (done || lia). }
  rewrite Hv2 in R3.
  assert (Hs1 : v1 !! Z.to_nat start = Some h1).
  { unfold v1. apply list_lookup_insert_eq. rewrite length_replay. lia. }
  eapply wp_mono.
  { eapply write_head_spec; lsimpl; [done|done|cbn; lia|lia|exact R3|done| |exact Hs1].
    rewrite size_empty. unfold NBUF. lia. }
  intros [] s4 (b4 & -> & R4 & Hk4 & Hp4). lsimpl. cbn [lg_n set_n lg_block] in *.
  set (h2 := put_head 0 _ _) in *.
  exists (<[Z.to_nat start := h2]> v1).
  assert (Hv3 : home_eq (<[Z.to_nat start := h2]> v1) v).
  { intros b Hb Hnl'. rewrite list_lookup_insert_ne by (unfold in_log in Hnl'; lia). by apply Hv1. }
  split_and!; [|done|done|lsimpl; congruence|].
  - split; lsimpl; rewrite ?length_insert, ?Hlen1; try done.
    + apply home_ok_nil. lia.
    + intros b. rewrite lookup_empty. by intros [? [=]].
    + destruct Hsb as (d & Hd & ?). exists d. split; [|done].
      change 1%nat with (Z.to_nat 1) in *. rewrite Hv3; [done|lia|]. unfold in_log. lia.
    + exists h2. split; [apply list_lookup_insert_eq; lia|]. apply hdr_n_put_head; [lia|done].
  - rewrite Hk4, Hk3, Hk2, Hk1. unfold commit_writes. rewrite !disk_replay_app. done.
Qed.

(** ** Crash states and recovery

    [recovers_to k h]: on a disk with blocks [k], the header describes a
    transaction whose installation gives the contents [h]. *)
Definition slot (i : nat) : nat := Z.to_nat (start + Z.of_nat i + 1).

Definition pending (k : list block) (L : list Z) (h : list block) : Prop :=
  (forall i b, L !! i = Some b -> k !! slot i = h !! Z.to_nat b) /\
  (forall b, 0 <= b -> ~ in_log b -> b ∉ L -> k !! Z.to_nat b = h !! Z.to_nat b).

Record recovers_to (k h : list block) : Prop := {
  rt_ok : Forall block_ok k;
  rt_size : Z.of_nat (length k) <= FSSIZE;
  rt_geom : geometry (length k);
  rt_sb : exists d, k !! 1%nat = Some d /\ sb_of_block d = sb;
  rt_trans : exists d L, k !! Z.to_nat start = Some d /\ hdr_enc d L /\
     home_ok (length k) L /\ pending k L h;
}.

Lemma inst_writes_lookup_in k k' L i b c :
  home_ok (length k) L -> L !! i = Some b -> k' !! slot i = Some c ->
  replay k (inst_writes L k') !! Z.to_nat b = Some c.
Proof.
  intros HL Hb Hc. pose proof (home_not_log _ _ HL _ _ Hb) as [_ Hr].
  apply replay_lookup_in; [| |lia].
  - apply NoDup_alt. intros j1 j2 x. rewrite !list_lookup_fmap. unfold inst_writes. rewrite !list_lookup_imap.
    destruct (L !! j1) as [b1|] eqn:E1; [|done]. destruct (L !! j2) as [b2|] eqn:E2; [|done]. cbn.
    intros [= <-] [= Heq].
    pose proof (home_not_log _ _ HL _ _ E1) as [_ ?]. pose proof (home_not_log _ _ HL _ _ E2) as [_ ?].
    destruct HL as (Hnd & _). eapply NoDup_lookup; [exact Hnd|exact E1|]. rewrite E2. f_equal. lia.
  - apply list_elem_of_lookup. exists i. unfold inst_writes. rewrite list_lookup_imap, Hb. cbn.
    do 2 f_equal. fold (slot i). by apply list_lookup_total_correct.
Qed.

Lemma inst_writes_lookup_out k k' L b :
  home_ok (length k) L -> 0 <= b -> b ∉ L ->
  replay k (inst_writes L k') !! Z.to_nat b = k !! Z.to_nat b.
Proof.
  intros HL Hb HbL. apply replay_lookup_ne. intros w Hw.
  replace L with (take (length L) L) in Hw, HbL by apply firstn_all.
  by eapply inst_writes_ne.
Qed.

(** Installing a pending transaction gives the contents it stands for. *)
Lemma install_home_eq k L h :
  geometry (length k) -> home_ok (length k) L -> pending k L h ->
  home_eq (replay k (inst_writes L k)) h.
Proof.
  intros G HL [Hin Hout] b Hb Hnl. destruct (decide (b ∈ L)) as [HbL|HbL].
  - apply list_elem_of_lookup in HbL as [i Hi]. destruct (log_slot _ _ G HL _ _ Hi) as [_ Hs].
    destruct (lookup_lt_is_Some_2 k (slot i)) as [c Hc]; [unfold slot; lia|].
    rewrite (inst_writes_lookup_in _ _ _ _ _ _ HL Hi Hc). rewrite <- (Hin _ _ Hi). done.
  - rewrite inst_writes_lookup_out by done. by apply Hout.
Qed.

Lemma imap_take {A B} (f : nat -> A -> B) l n : take n (imap f l) = imap f (take n l).
Proof.
  apply list_eq. intros i. rewrite lookup_take, !list_lookup_imap, lookup_take. by case_decide.
Qed.

(** A prefix of the installation leaves the transaction pending. *)
Lemma pending_prefix k L h n :
  geometry (length k) -> home_ok (length k) L -> pending k L h ->
  pending (replay k (inst_writes (take n L) k)) L h.
Proof.
  intros G HL [Hin Hout].
  assert (HLn : home_ok (length k) (take n L)).
  { destruct HL as (H1 & H2 & H3). unfold home_ok. split_and!.
    - rewrite <- (take_drop n L), NoDup_app in H1. tauto.
    - rewrite length_take. lia.
    - intros b Hb. apply H3. rewrite <- (take_drop n L). set_solver. }
  split.
  - intros i b Hi. rewrite <- (Hin i b Hi). destruct (log_slot _ _ G HL _ _ Hi) as [Hil Hs].
    unfold slot. apply inst_writes_lookup_out; [done|lia|].
    intros Hx. destruct HLn as (_ & _ & Hn). by destruct (Hn _ Hx).
  - intros b Hb Hnl HbL. rewrite inst_writes_lookup_out; [by apply Hout|done|done|].
    intros Hx. apply HbL. rewrite <- (take_drop n L). set_solver.
Qed.

(** Blocks the log never touches. *)
Lemma prefix_frame k L n b :
  home_ok (length k) L -> 0 <= b -> b <= 1 \/ in_log b ->
  replay k (inst_writes (take n L) k) !! Z.to_nat b = k !! Z.to_nat b.
Proof.
  intros HL Hb Hor. apply replay_lookup_ne. eapply (inst_writes_ne _ L k n b); [done| |done|done].
  intros Hx. destruct HL as (_ & _ & Hh). destruct (Hh b) as [? ?].
  - rewrite <- (take_drop n L). set_solver.
  - destruct Hor; [lia|done].
Qed.

Lemma inst_blocks_ok k L n :
  geometry (length k) -> home_ok (length k) L -> Forall block_ok k ->
  Forall block_ok (replay k (inst_writes (take n L) k)).
Proof.
  intros G HL Hk. apply replay_Forall; [done|]. intros w Hw. apply elem_of_imap in Hw as (i & b & Hi & ->).
  apply lookup_take_Some in Hi as [Hi _]. destruct (log_slot _ _ G HL _ _ Hi) as [_ Hs]. simpl.
  eapply Forall_lookup_1; [exact Hk|]. apply list_lookup_lookup_total_lt. lia.
Qed.

(** A crash during recovery loses nothing. *)
Lemma recovers_prefix k h d L n :
  recovers_to k h -> k !! Z.to_nat start = Some d -> hdr_enc d L -> home_ok (length k) L -> pending k L h ->
  recovers_to (replay k (inst_writes (take n L) k)) h.
Proof.
  intros [Hok Hsz G Hsb _] Hd Henc HL Hp. pose proof G as (G1 & G2 & G3).
  split; rewrite ?length_replay; try done.
  - by apply inst_blocks_ok.
  - destruct Hsb as (e & He & ?). exists e. split; [|done]. change 1%nat with (Z.to_nat 1) in *.
    rewrite prefix_frame; [done|done|lia|lia].
  - exists d, L. rewrite prefix_frame; [|done|lia|right; unfold in_log; lia].
    split_and!; try done. by apply pending_prefix.
Qed.

Lemma hdr_enc_nil d : hdr_n d = 0 -> hdr_enc d [].
Proof. intros Hd. split; [done|]. intros i b Hb. by rewrite lookup_nil in Hb. Qed.

(** A disk with an empty header recovers to itself. *)
Lemma recovers_self k h d :
  Forall block_ok k -> Z.of_nat (length k) <= FSSIZE -> geometry (length k) ->
  (exists d, k !! 1%nat = Some d /\ sb_of_block d = sb) ->
  k !! Z.to_nat start = Some d -> hdr_n d = 0 -> home_eq k h -> recovers_to k h.
Proof.
  intros Hok Hsz G Hsb Hd Hn Heq. split; try done. exists d, []. split_and!; [done|by apply hdr_enc_nil| |].
  - apply home_ok_nil. destruct G as (_ & ? & _). lia.
  - split; [intros i b Hb; by rewrite lookup_nil in Hb|]. intros b Hb Hnl _. by apply Heq.
Qed.

(** [initlog] never panics: the header fits in a block. *)
Lemma header_fits : (Z.of_nat BSIZE <=? LOGHEADER_SIZE) = false.
Proof. reflexivity. Qed.

(** The log before [initlog]: zero-initialised storage. *)
Definition boot_log : log := mkLog 0 0 0 false 0 0 (replicate (Z.to_nat LOGSIZE) 0).
Definition boot (k : list block) (pid : Z) : lstate := mkL (boot_bio (mkDisk k []) pid) boot_log.

(** What a boot does with the log: [binit] in [main], [initlog] in the first
    process ([forkret]). *)
Definition boot_recover : M lstate unit := bio_op binit ;; initlog ROOTDEV.

(** What recovery leaves: the disk holds the recovered contents; and a crash
    after any number of its writes leaves a disk that recovers to the same. *)
Definition recovered (k h : list block) (pid : Z) (s' : lstate) : Prop :=
  exists v' ws, log_rep s' v' [] ∅ /\ home_eq v' h /\
      bdisk (l_bio s') = mkDisk v' ws /\ v' = replay k ws /\ lg_outstanding (l_log s') = 0 /\
      lg_committing (l_log s') = false /\ bpid (l_bio s') = pid /\
      forall n, recovers_to (replay k (take n ws)) h.

(** [initlog], with a clean buffer cache. *)
Lemma initlog_ok k h pid b1 :
  recovers_to k h -> bio_rep b1 k ∅ ∅ -> bdisk b1 = mkDisk k [] -> bpid b1 = pid -> wp (initlog ROOTDEV) (fun _ => recovered k h pid) (mkL b1 boot_log).
Proof.
  intros Hrec R1 Hk1 Hp1. pose proof Hrec as [Hok Hsz G Hsb (d & L & Hd & Henc & HL & Hpend)].
  pose proof G as (G1 & G2 & G3). unfold initlog. rewrite header_fits. lwp. lsimpl.
  destruct Hsb as (e & He & Hesb).
  eapply wp_mono.
  { eapply readsb_spec; lsimpl; [exact R1|set_solver| |exact He]. rewrite size_empty. unfold NBUF. lia. }
  intros r s2 [-> (b2 & -> & R2 & Hk2 & Hp2)]. rewrite Hesb. unfold upd_log. lwp. lsimpl.
  unfold recover_from_log. lwp.
  assert (HLn : Z.of_nat (length L) <= LOGSIZE) by (destruct HL as (_ & ? & _); lia).
  eapply wp_mono.
  { eapply read_head_spec; lsimpl; try done; [|lia].
    rewrite size_empty. unfold NBUF. lia. }
  intros [] s3 (b3 & l3 & -> & R3 & Hk3 & Hp3 & Hlog3 & Hout & Hcom). lsimpl. wp_steps.
  eapply wp_mono.
  { eapply install_trans_spec; lsimpl; [exact G|exact HL|exact Hlog3|exact R3|by right]. }
  intros [] s4 (b4 & -> & R4 & Hk4 & Hp4). unfold upd_log. lsimpl. wp_steps. lsimpl.
  pose proof Hlog3 as (Hst & Hnl & Hdev & Hn & Hlb & Htk).
  assert (Hd4 : replay k (inst_writes L k) !! Z.to_nat start = Some d).
  { rewrite <- (firstn_all L). rewrite prefix_frame; [done|done|lia|right; unfold in_log; lia]. }
  eapply wp_mono.
  { eapply write_head_spec; lsimpl; [done|done|cbn; lia|lia|exact R4|set_solver| |exact Hd4].
    rewrite size_empty. unfold NBUF. lia. }
  intros [] s5 (b5 & -> & R5 & Hk5 & Hp5). lsimpl. cbn [lg_n set_n lg_block] in *.
  set (d' := put_head 0 _ _) in *.
  assert (Hd' : hdr_n d' = 0).
  { apply hdr_n_put_head; [lia|]. eapply Forall_lookup_1; [exact Hok|exact Hd]. }
  set (v4 := replay k (inst_writes L k)) in *. set (v5 := <[Z.to_nat start := d']> v4) in *.
  assert (Hv5 : home_eq v5 h).
  { intros b Hb Hnl'. unfold v5. rewrite list_lookup_insert_ne by (unfold in_log in Hnl'; lia).
    by apply install_home_eq. }
  assert (Hlen5 : length v5 = length k) by (unfold v5, v4; by rewrite length_insert, length_replay).
  assert (Hdisk : bdisk b5 = mkDisk v5 (inst_writes L k ++ [(start, d')])).
  { rewrite Hk5, Hk4, Hk3, Hk2, Hk1. done. }
  assert (Hv5r : v5 = replay k (inst_writes L k ++ [(start, d')])) by by rewrite replay_app.
  assert (Hsb5 : exists d, v5 !! 1%nat = Some d /\ sb_of_block d = sb).
  { exists e. split; [|done]. unfold v5, v4. rewrite list_lookup_insert_ne by lia.
    change 1%nat with (Z.to_nat 1) in *. rewrite <- (firstn_all L).
    rewrite prefix_frame; [done|done|lia|lia]. }
  assert (Hst5 : v5 !! Z.to_nat start = Some d').
  { unfold v5. apply list_lookup_insert_eq. unfold v4. rewrite length_replay. lia. }
  exists v5, (inst_writes L k ++ [(start, d')]). split_and!; try done.
  - split; lsimpl; rewrite ?Hlen5; try done.
    + apply home_ok_nil. lia.
    + intros b. rewrite lookup_empty. by intros [? [=]].
    + exists d'. done.
  - lsimpl. congruence.
  - intros n. destruct (decide (n <= length L)%nat) as [Hle|Hgt].
    + rewrite take_app_le by (unfold inst_writes; by rewrite length_imap).
      unfold inst_writes. rewrite imap_take. by eapply recovers_prefix.
    + rewrite take_ge by (rewrite length_app; unfold inst_writes; rewrite length_imap; simpl; lia).
      rewrite <- Hv5r. eapply recovers_self; try done.
      * apply (rep_vok _ _ _ _ R5).
      * by rewrite Hlen5.
      * by rewrite Hlen5.
Qed.

(** Recovery returns. *)
Lemma recovery_spec k h pid :
  recovers_to k h ->
  wp boot_recover (fun _ s' => exists v' ws, log_rep s' v' [] ∅ /\ home_eq v' h /\
      bdisk (l_bio s') = mkDisk v' ws /\ v' = replay k ws /\ lg_outstanding (l_log s') = 0 /\
      lg_committing (l_log s') = false /\ bpid (l_bio s') = pid /\
      forall n, recovers_to (replay k (take n ws)) h) (boot k pid).
Proof.
  intros Hrec. unfold boot_recover. lwp. lsimpl. pose proof Hrec as [Hok Hsz _ _ _]. eapply wp_mono; [by apply binit_spec|]. intros [] b1 (R1 & Hk1 & Hp1). exact (initlog_ok k h pid b1 Hrec R1 Hk1 Hp1).
Qed.

(** A crash in the middle of a commit.  [k] is the disk when the commit
    starts, [v] the contents the buffer cache presents: they differ in the
    logged blocks only. *)
Section crash.
Context (s : lstate) (k v : list block) (L : list Z) (h : block).
Hypothesis Hkok : Forall block_ok k.
Hypothesis Hvok : Forall block_ok v.
Hypothesis Hlen : length k = length v.
Hypothesis Hsize : Z.of_nat (length k) <= FSSIZE.
Hypothesis G : geometry (length k).
Hypothesis HL : home_ok (length k) L.
Hypothesis Hlog : log_ok (l_log s) L.
Hypothesis Hclean : forall b, 0 <= b -> b ∉ L -> v !! Z.to_nat b = k !! Z.to_nat b.
Hypothesis Hsb : exists d, k !! 1%nat = Some d /\ sb_of_block d = sb.
Hypothesis Hh : k !! Z.to_nat start = Some h.
Hypothesis Hh0 : hdr_n h = 0.

Lemma log_frame n b :
  0 <= b -> ~ in_log b -> replay k (take n (log_writes L v)) !! Z.to_nat b = k !! Z.to_nat b.
Proof.
  intros Hb Hnl. unfold log_writes. rewrite imap_take. apply replay_lookup_ne.
  by eapply (log_writes_ne _ L v n b).
Qed.

Lemma log_keeps_header n : replay k (take n (log_writes L v)) !! Z.to_nat start = Some h.
Proof.
  rewrite replay_lookup_ne; [done|]. unfold log_writes. rewrite imap_take.
  intros w Hw. apply elem_of_imap in Hw as (i & x & Hi & ->). apply lookup_take_Some in Hi as [Hi _].
  destruct G as (? & ? & ?). destruct (log_slot _ _ G HL _ _ Hi). simpl. lia.
Qed.

Lemma log_blocks_ok n : Forall block_ok (replay k (take n (log_writes L v))).
Proof.
  apply replay_Forall; [done|]. unfold log_writes. rewrite imap_take.
  intros w Hw. apply elem_of_imap in Hw as (i & x & Hi & ->). apply lookup_take_Some in Hi as [Hi _].
  destruct (home_not_log _ _ HL _ _ Hi). simpl.
  eapply Forall_lookup_1; [exact Hvok|]. apply list_lookup_lookup_total_lt. lia.
Qed.

Lemma sb_kept k' :
  home_eq k' k -> exists d, k' !! 1%nat = Some d /\ sb_of_block d = sb.
Proof.
  intros E. destruct Hsb as (d & Hd & ?). exists d. split; [|done]. change 1%nat with (Z.to_nat 1) in *.
  rewrite E; [done|lia|]. destruct G as (? & ? & ?). unfold in_log. lia.
Qed.

(** Before the header is written nothing has happened. *)
Lemma crash_before n : recovers_to (replay k (take n (log_writes L v))) k.
Proof.
  assert (E : home_eq (replay k (take n (log_writes L v))) k) by (intros b Hb Hnl; by apply log_frame).
  eapply recovers_self; rewrite ?length_replay; try done.
  - apply log_blocks_ok.
  - by apply sb_kept.
  - apply log_keeps_header.
Qed.

Abbreviation h1 := (put_head (lg_n (l_log s)) (lg_block (l_log s)) h).
Abbreviation k1 := (<[Z.to_nat start := h1]> (replay k (log_writes L v))).

Lemma header_written : k1 !! Z.to_nat start = Some h1.
Proof. destruct G as (? & ? & ?). apply list_lookup_insert_eq. rewrite length_replay. lia. Qed.

Lemma log_written i b : L !! i = Some b -> k1 !! slot i = v !! Z.to_nat b.
Proof.
  intros Hi. destruct (log_slot _ _ G HL _ _ Hi) as [Hs1 Hs2]. destruct (home_not_log _ _ HL _ _ Hi) as [_ Hr].
  pose proof (inst_writes_after_log L k v h1 G HL) as E.
  apply (f_equal (fun l => l !! i)) in E. unfold inst_writes in E.
  rewrite list_lookup_imap, list_lookup_fmap, Hi in E. cbn in E. injection E as E.
  unfold slot. erewrite !list_lookup_lookup_total_lt; [by rewrite E|lia|].
  rewrite length_insert, length_replay. lia.
Qed.

(** Once the header is written the transaction is pending. *)
Lemma header_pending : hdr_enc h1 L /\ pending k1 L v.
Proof.
  pose proof G as (G1 & G2 & G3). pose proof HL as (HL1 & HL2 & HL3). split.
  - apply put_head_enc; [|done| |lia].
    + eapply Forall_lookup_1; [exact Hkok|exact Hh].
    + eapply home_ok_mono; [|exact HL]. unfold_params. lia.
  - split; [apply log_written|]. intros b Hb Hnl HbL.
    rewrite list_lookup_insert_ne by (unfold in_log in Hnl; lia).
    rewrite <- (firstn_all (log_writes L v)), log_frame by done. symmetry. by apply Hclean.
Qed.

Lemma header_ok : block_ok h1.
Proof.
  destruct Hlog as (_ & _ & _ & Hn & _). destruct HL as (_ & ? & _). destruct G as (_ & ? & _).
  apply put_head_ok; [lia|]. eapply Forall_lookup_1; [exact Hkok|exact Hh].
Qed.

Lemma header_home_eq : home_eq k1 k.
Proof.
  intros b Hb Hnl. destruct G as (? & ? & ?). rewrite list_lookup_insert_ne by (unfold in_log in Hnl; lia).
  rewrite <- (firstn_all (log_writes L v)). by apply log_frame.
Qed.

Lemma header_blocks_ok : Forall block_ok k1.
Proof.
  apply Forall_insert; [|apply header_ok]. rewrite <- (firstn_all (log_writes L v)). apply log_blocks_ok.
Qed.

Lemma crash_committed : recovers_to k1 v.
Proof.
  destruct header_pending as [Henc Hp].
  split; rewrite ?length_insert, ?length_replay; try done.
  - apply header_blocks_ok.
  - apply sb_kept, header_home_eq.
  - exists h1, L. split_and!; [apply header_written|done..].
Qed.

(** The commit point is the write of the header. *)
Lemma commit_crash n :
  let k' := replay k (take n (commit_writes s v L h)) in
  if decide (n <= length L)%nat then recovers_to k' k else recovers_to k' v.
Proof.
  assert (Hll : length (log_writes L v) = length L) by (unfold log_writes; apply length_imap).
  unfold commit_writes. cbn zeta. rewrite take_app, Hll, replay_app. case_decide as Hn.
  { replace (n - length L)%nat with O by lia. apply crash_before. }
  rewrite (take_ge _ n) by lia. replace (n - length L)%nat with (S (n - S (length L))) by lia.
  cbn [app]. rewrite firstn_cons. set (m := (n - S (length L))%nat).
  change (replay ?a (?w :: ?l)) with (replay (replay a [w]) l).
  change (replay (replay k (log_writes L v)) [(start, h1)]) with k1.
  rewrite <- (inst_writes_after_log L k v h1) by done. fold h1 k1.
  assert (Hli : length (inst_writes L k1) = length L) by (unfold inst_writes; apply length_imap).
  destruct header_pending as [Henc Hp]. pose proof G as (G1 & G2 & G3).
  assert (Hlk : length k1 = length k) by by rewrite length_insert, length_replay.
  rewrite take_app, Hli, replay_app. destruct (decide (m <= length L)%nat) as [Hm|Hm].
  - replace (m - length L)%nat with O by lia. unfold inst_writes. rewrite imap_take.
    eapply recovers_prefix; rewrite ?Hlk; [apply crash_committed|apply header_written|done..].
  - rewrite (take_ge _ m) by lia. rewrite (take_ge [_]) by (simpl; lia).
    change (replay ?a [?w]) with (<[Z.to_nat w.1 := w.2]> a). cbn [fst snd].
    apply (recovers_self _ _ (put_head 0 (lg_block (l_log s)) h1)); rewrite ?length_insert, ?length_replay, ?Hlk;
      [|done|done| | | |].
    + apply Forall_insert; [|apply put_head_ok; [lia|apply header_ok]].
      pose proof (inst_blocks_ok k1 L (length L)) as E. rewrite firstn_all, Hlk in E.
      apply E; [done|done|apply header_blocks_ok].
    + destruct (sb_kept k1 header_home_eq) as (d & Hd & ?). exists d. split; [|done].
      rewrite list_lookup_insert_ne by lia. change 1%nat with (Z.to_nat 1) in *.
      pose proof (prefix_frame k1 L (length L) 1) as E. rewrite firstn_all, Hlk in E.
      rewrite E; [done|done|lia|lia].
    + apply list_lookup_insert_eq. rewrite length_replay. lia.
    + by apply hdr_n_put_head, header_ok.
    + intros b Hb Hnl. rewrite list_lookup_insert_ne by (unfold in_log in Hnl; lia).
      apply install_home_eq; rewrite ?Hlk; done.
Qed.
End crash.
End proofs.
