(* ===== verification/Trans.v ===== *)
(** * Transactions: what [begin_op], [log_write] and [end_op] of [log.c] promise.

    The interface the file system is proved against ([in_tx]: a system call
    is inside a transaction), and the crash safety of the whole protocol. *)

From stdpp Require Import gmap.
From S2P Require Import Prelude Params Bio Log.

Section trans.
Context `{!BlockDevice}.
Context (sb : superblock).

(** The state of cache and log while no commit runs: the cache presents the contents [v], of which the
    blocks [L] are logged; [Hd] are the locked buffers; [k] is the disk, which
    no operation of a transaction but the last [end_op] writes. *)
Record in_tx (k : disk) (pid : Z) (s : lstate) (v : list block) (L : list Z) (Hd : gmap Z nat) : Prop := {
  tx_rep : log_rep sb s v L Hd;
  tx_out : 0 <= lg_outstanding (l_log s);
  tx_idle : lg_committing (l_log s) = false;
  tx_disk : bdisk (l_bio s) = k;
  tx_pid : bpid (l_bio s) = pid;
}.

(** A block that may be released: logged, or as it is on disk. *)
Definition releasable (k : disk) (v : list block) (L : list Z) (bno : Z) : Prop :=
  bno ∈ L \/ v !! Z.to_nat bno = blocks k !! Z.to_nat bno.

(** The transaction with [bno] logged ([log_write] absorbs repeats). *)
Definition logged (L : list Z) (bno : Z) : list Z := if decide (bno ∈ L) then L else L ++ [bno].

Lemma elem_logged L b c : c ∈ logged L b <-> c ∈ L \/ c = b.
Proof. unfold logged. case_decide; set_solver. Qed.

Lemma length_logged L b : (length L <= length (logged L b) <= S (length L))%nat.
Proof. unfold logged. case_decide; rewrite ?length_app; simpl; lia. Qed.

Lemma find_logged_in L bno :
  bno ∈ L -> L !! find_logged L bno = Some bno /\ (find_logged L bno < length L)%nat.
Proof.
  induction L as [|b L IH]; intros Hb; [by apply elem_of_nil in Hb|]. simpl.
  destruct (Z.eqb_spec b bno) as [->|Hne]; simpl; [split; [done|lia]|].
  apply elem_of_cons in Hb as [->|Hb]; [done|]. destruct (IH Hb). split; [done|lia].
Qed.

Lemma find_logged_out L bno : bno ∉ L -> find_logged L bno = length L.
Proof.
  induction L as [|b L IH]; intros Hb; [done|]. simpl.
  apply not_elem_of_cons in Hb as [Hne Hb]. destruct (Z.eqb_spec b bno); [done|]. by rewrite IH.
Qed.

Lemma home_ok_logged len L bno :
  home_ok sb len L -> 1 < bno < Z.of_nat len -> ~ in_log sb bno -> Z.of_nat (length L) < sb_nlog sb - 1 ->
  home_ok sb len (logged L bno).
Proof.
  intros (H1 & H2 & H3) Hb Hn Hl. unfold home_ok, logged. case_decide; [done|].
  rewrite length_app. simpl. split_and!; [|lia|].
  - apply NoDup_app. split_and!; [done| |apply NoDup_singleton]. intros x Hx Hx'.
    apply list_elem_of_singleton in Hx' as ->. done.
  - intros b' Hb'. apply elem_of_app in Hb' as [Hb'|Hb']; [by apply H3|].
    apply list_elem_of_singleton in Hb' as ->. done.
Qed.

(** The in-memory header after [log_write]. *)
Lemma log_ok_logged l L bno :
  log_ok sb l L -> Z.of_nat (length L) < LOGSIZE ->
  let i := find_logged (take (Z.to_nat (lg_n l)) (lg_block l)) bno in
  log_ok sb (if Z.of_nat i =? lg_n l then set_n (lg_n l + 1) (set_block (<[i := bno]> (lg_block l)) l)
             else set_block (<[i := bno]> (lg_block l)) l) (logged L bno).
Proof.
  intros Hlog Hl. pose proof Hlog as (H1 & H2 & H3 & H4 & H5 & H6). rewrite H4, Nat2Z.id, H6. cbn zeta. unfold logged.
  destruct (decide (bno ∈ L)) as [Hin|Hout].
  - destruct (find_logged_in _ _ Hin) as [Hi Hlt]. rewrite (proj2 (Z.eqb_neq _ _)) by lia.
    unfold log_ok. cbn. rewrite length_insert. split_and!; try done.
    rewrite list_insert_id; [done|]. by eapply log_ok_lookup.
  - rewrite (find_logged_out _ _ Hout), Z.eqb_refl. unfold log_ok. cbn. rewrite length_insert, length_app.
    simpl. split_and!; try done; [lia|]. replace (length L + 1)%nat with (S (length L)) by lia.
    erewrite take_S_r; [|apply list_lookup_insert_eq; lia]. by rewrite take_insert_ge, H6.
Qed.

(** ** The operations inside a transaction *)

Section calls.
Context (k : disk) (pid : Z) (s : lstate) (v : list block) (L : list Z) (Hd : gmap Z nat).
Hypothesis T : in_tx k pid s v L Hd.

Lemma tx_set_bio b' v' Hd' :
  bio_rep b' v' (list_to_set L) Hd' -> bdisk b' = k -> bpid b' = pid -> length v' = length v ->
  (forall b, is_Some (Hd' !! b) -> ~ in_log sb b) ->
  v' !! 1%nat = v !! 1%nat -> v' !! Z.to_nat (sb_logstart sb) = v !! Z.to_nat (sb_logstart sb) ->
  in_tx k pid (set_bio b' s) v' L Hd'.
Proof.
  destruct T as [[R G HL Hlog Hh Hsb Hhdr] Ho Hi Hk Hp]. intros R' Hk' Hp' Hlen Hh' E1 E2.
  split; lsimpl; try done. split; lsimpl; rewrite ?Hlen, ?E1, ?E2; done.
Qed.

Lemma tx_bread a (Q : nat -> lstate -> Prop) :
  0 <= a < Z.of_nat (length v) -> Hd !! a = None -> ~ in_log sb a ->
  (length L + size Hd < NBUF)%nat ->
  (forall i s', in_tx k pid s' v L (<[a := i]> Hd) -> l_log s' = l_log s -> Q i s') ->
  wp (bio_op (bread ROOTDEV a)) Q s.
Proof.
  intros Ha Hn Hnl Hsz HQ. lwp. pose proof (tx_rep _ _ _ _ _ _ T) as Rl. eapply wp_mono.
  { eapply bread_spec; [apply (lr_bio _ _ _ _ _ Rl)|done|done|]. right.
    eapply Nat.le_lt_trans; [apply size_union_le|]. rewrite size_dom.
    destruct (lr_home _ _ _ _ _ Rl) as (? & _ & _). by rewrite size_list_to_set. }
  intros i b1 (R1 & Hk1 & Hp1). cbn beta. apply HQ; [|done].
  apply tx_set_bio; try done.
  - rewrite Hk1. apply (tx_disk _ _ _ _ _ _ T).
  - rewrite Hp1. apply (tx_pid _ _ _ _ _ _ T).
  - intros b. destruct (decide (b = a)) as [->|Hne]; [done|]. rewrite lookup_insert_ne by done.
    apply (lr_held _ _ _ _ _ Rl).
Qed.

Lemma tx_bdata a i d (Q : block -> lstate -> Prop) :
  Hd !! a = Some i -> v !! Z.to_nat a = Some d -> Q d s -> wp (bio_op (bdata i)) Q s.
Proof.
  intros Hi Hv HQ. unfold bdata. lwp.
  destruct (rep_held_buf _ _ _ _ a i (lr_bio _ _ _ _ _ (tx_rep _ _ _ _ _ _ T))) as (_ & _ & Hv' & _); [done|].
  rewrite Hv in Hv'. injection Hv' as <-. by destruct s.
Qed.

Lemma tx_brelse a i (Q : unit -> lstate -> Prop) :
  Hd !! a = Some i -> releasable k v L a ->
  (forall s', in_tx k pid s' v L (delete a Hd) -> l_log s' = l_log s -> Q tt s') ->
  wp (bio_op (brelse i)) Q s.
Proof.
  intros Hi Hr HQ. lwp. pose proof (tx_rep _ _ _ _ _ _ T) as Rl. eapply wp_mono.
  { eapply brelse_spec; [apply (lr_bio _ _ _ _ _ Rl)|done|]. rewrite (tx_disk _ _ _ _ _ _ T).
    destruct Hr; [left; by apply elem_of_list_to_set|by right]. }
  intros [] b1 (R1 & Hk1 & Hp1). cbn beta. apply HQ; [|done].
  apply tx_set_bio; try done.
  - rewrite Hk1. apply (tx_disk _ _ _ _ _ _ T).
  - rewrite Hp1. apply (tx_pid _ _ _ _ _ _ T).
  - intros b. rewrite lookup_delete. case_decide; [by intros [? [=]]|]. apply (lr_held _ _ _ _ _ Rl).
Qed.

Lemma tx_set_bdata a i d (Q : unit -> lstate -> Prop) :
  Hd !! a = Some i -> 1 < a -> block_ok d ->
  (forall s', in_tx k pid s' (<[Z.to_nat a := d]> v) L Hd -> l_log s' = l_log s -> Q tt s') ->
  wp (bio_op (set_bdata i d)) Q s.
Proof.
  intros Hi Ha Hok HQ. lwp. pose proof (tx_rep _ _ _ _ _ _ T) as Rl.
  assert (Hnl : ~ in_log sb a) by (apply (lr_held _ _ _ _ _ Rl); by exists i).
  destruct (lr_geom _ _ _ _ _ Rl) as (G1 & G2 & G3). unfold in_log in Hnl.
  eapply wp_mono; [eapply set_bdata_spec; [apply (lr_bio _ _ _ _ _ Rl)|done|done]|].
  intros [] b1 (R1 & Hk1 & Hp1). cbn beta. apply HQ; [|done].
  apply tx_set_bio; try done.
  - rewrite Hk1. apply (tx_disk _ _ _ _ _ _ T).
  - rewrite Hp1. apply (tx_pid _ _ _ _ _ _ T).
  - apply length_insert.
  - apply (lr_held _ _ _ _ _ Rl).
  - rewrite list_lookup_insert_ne by lia. done.
  - rewrite list_lookup_insert_ne by lia. done.
Qed.

(** [log_write] does not panic while there is room in the log, and adds the
    block to the transaction. *)
Lemma tx_log_write a i (Q : unit -> lstate -> Prop) :
  1 <= lg_outstanding (l_log s) ->
  Hd !! a = Some i -> 1 < a < Z.of_nat (length v) -> Z.of_nat (length L) < sb_nlog sb - 1 ->
  (forall s', in_tx k pid s' v (logged L a) Hd -> lg_outstanding (l_log s') = lg_outstanding (l_log s) -> Q tt s') ->
  wp (log_write i) Q s.
Proof.
  intros Ho1 Hi Ha Hlen HQ. destruct T as [[R G HL Hlog Hh Hsb Hhdr] Ho Hidle Hk Hp].
  pose proof Hlog as (Hst & Hnl & Hdev & Hn & Hlb & Htk). pose proof G as (G1 & G2 & G3).
  unfold log_write. wp_steps. rewrite Hn, Hnl. rewrite !(proj2 (Z.leb_gt _ _)) by lia.
  rewrite (proj2 (Z.ltb_ge _ _)) by lia. cbn [orb].
  destruct (rep_held_buf _ _ _ _ _ _ R Hi) as (_ & _ & _ & _ & _ & _ & -> & _).
  assert (HLl : Z.of_nat (length L) < LOGSIZE) by lia.
  pose proof (log_ok_logged _ _ a Hlog HLl) as Hlog'. cbn zeta in Hlog'. rewrite Hn in Hlog'.
  set (j := find_logged _ _) in *.
  assert (Hfin : forall l', log_ok sb l' (logged L a) -> lg_outstanding l' = lg_outstanding (l_log s) ->
     lg_committing l' = false ->
     wp (bio_op (upd i (fun x => set_flags (Z.lor (b_flags x) B_DIRTY) x))) Q (mkL (l_bio s) l')).
  { intros l' Hl' Ho' Hc'. lwp. lsimpl. eapply wp_mono; [eapply mark_dirty_spec; [exact R|done]|].
    intros [] b1 (R1 & Hk1 & Hp1). cbn beta. apply HQ; [|done]. split; lsimpl; try congruence.
    split; lsimpl; try done.
    - replace (list_to_set (logged L a) : gset Z) with ({[a]} ∪ list_to_set L : gset Z); [done|].
      apply set_eq. intros x. rewrite elem_of_union, elem_of_singleton, !elem_of_list_to_set, elem_logged. tauto.
    - apply home_ok_logged; try done. apply Hh. by exists i. }
  unfold upd_log. wp_steps. lsimpl.
  destruct (Z.of_nat j =? Z.of_nat (length L)) eqn:E; wp_steps; lsimpl.
  - cbn [lg_n set_block]. rewrite Hn. by apply Hfin.
  - by apply Hfin.
Qed.
End calls.

(** ** Beginning and ending a transaction *)

(** [begin_op] admits an operation when no commit is running and the log has
    room for [MAXOPBLOCKS] more blocks per operation in progress. *)
Lemma begin_op_spec s v L Hd :
  log_rep sb s v L Hd -> lg_committing (l_log s) = false -> 0 <= lg_outstanding (l_log s) ->
  Z.of_nat (length L) + (lg_outstanding (l_log s) + 1) * MAXOPBLOCKS <= LOGSIZE ->
  wp begin_op (fun _ s' => in_tx (bdisk (l_bio s)) (bpid (l_bio s)) s' v L Hd /\
                 lg_outstanding (l_log s') = lg_outstanding (l_log s) + 1) s.
Proof.
  intros [R G HL Hlog Hh Hsb Hhdr] Hc Ho Hroom. unfold begin_op. wp_steps. rewrite Hc.
  pose proof Hlog as (_ & _ & _ & -> & _). rewrite (proj2 (Z.ltb_ge _ _)) by lia.
  unfold upd_log. wp_steps. lsimpl. split; [|done]. split; lsimpl; cbn; try done; try lia.
Qed.

(** An [end_op] with other operations in progress only gives up its claim. *)
Lemma end_op_inner k pid s v L Hd :
  in_tx k pid s v L Hd -> 2 <= lg_outstanding (l_log s) ->
  wp end_op (fun _ s' => in_tx k pid s' v L Hd /\
               lg_outstanding (l_log s') = lg_outstanding (l_log s) - 1) s.
Proof.
  intros [[R G HL Hlog Hh Hsb Hhdr] Ho Hc Hk Hp] H2. unfold end_op, upd_log. wp_steps. lsimpl. cbn.
  rewrite Hc, (proj2 (Z.eqb_neq _ _)) by lia. wp_steps. split; [|done].
  split; lsimpl; cbn; try done; try lia.
Qed.

(** What the log layer needs of the disk under an open transaction. *)
Lemma log_rep_disk s v L :
  log_rep sb s v L ∅ -> exists h, v !! Z.to_nat (sb_logstart sb) = Some h /\ forall n,
    recovers_to sb (replay (blocks (bdisk (l_bio s))) (take n (commit_writes sb s v L h)))
      (if decide (n <= length L)%nat then blocks (bdisk (l_bio s)) else v).
Proof.
  intros [R G HL Hlog Hh Hsb (h & Hhv & Hh0)]. exists h. split; [done|]. intros n.
  pose proof (rep_len _ _ _ _ R) as Hlen. pose proof G as (G1 & G2 & G3).
  assert (Hcl : forall b, 0 <= b -> b ∉ L -> v !! Z.to_nat b = blocks (bdisk (l_bio s)) !! Z.to_nat b).
  { intros b Hb HbL. apply (rep_clean _ _ _ _ R); [done| |done]. by rewrite elem_of_list_to_set. }
  assert (H1 : 1 ∉ L) by (intros Hx; destruct HL as (_ & _ & HL); destruct (HL _ Hx); lia).
  assert (Hst : sb_logstart sb ∉ L) by (eapply start_not_home; [exact G|exact HL]).
  pose proof (commit_crash sb s (blocks (bdisk (l_bio s))) v L h) as C. rewrite <- Hlen in C.
  specialize (C (rep_dok _ _ _ _ R) (rep_vok _ _ _ _ R) eq_refl (rep_size _ _ _ _ R) G HL Hlog Hcl).
  assert (Hsb' : exists d, blocks (bdisk (l_bio s)) !! 1%nat = Some d /\ sb_of_block d = sb).
  { destruct Hsb as (d & Hd & ?). exists d. split; [|done]. change 1%nat with (Z.to_nat 1) in *.
    by rewrite <- Hcl. }
  rewrite Hcl in Hhv by (done || lia). specialize (C Hsb' Hhv Hh0 n). by case_decide.
Qed.

(** The last [end_op] commits. *)
Lemma end_op_last s v L :
  log_rep sb s v L ∅ -> lg_outstanding (l_log s) = 1 -> lg_committing (l_log s) = false ->
  wp end_op (fun _ s' => exists v' ws, log_rep sb s' v' [] ∅ /\ home_eq sb v' v /\
      lg_outstanding (l_log s') = 0 /\ lg_committing (l_log s') = false /\ bpid (l_bio s') = bpid (l_bio s) /\
      bdisk (l_bio s') = disk_replay (bdisk (l_bio s)) ws /\
      forall n, recovers_to sb (replay (blocks (bdisk (l_bio s))) (take n ws))
                  (if decide (n <= length L)%nat then blocks (bdisk (l_bio s)) else v)) s.
Proof.
  intros Rl Ho Hc. unfold end_op, upd_log. wp_steps. lsimpl. cbn [set_outstanding lg_committing lg_outstanding].
  rewrite Hc, Ho. change (1 - 1 =? 0) with true. cbv iota. wp_steps.
  set (s1 := set_log (set_committing true _) _).
  assert (R1 : log_rep sb s1 v L ∅) by (destruct Rl; by split).
  destruct (log_rep_disk _ _ _ Rl) as (h & Hh & Hcr).
  destruct (decide (L = [])) as [->|Hne].
  - unfold commit. wp_steps. pose proof (lr_log _ _ _ _ _ R1) as (_ & _ & _ & -> & _). cbn. wp_steps.
    lsimpl. exists v, []. rewrite disk_replay_nil. split_and!; try done; [destruct R1; by split|].
    intros n. rewrite take_nil. pose proof (Hcr 0%nat) as H0. rewrite decide_True, take_0 in H0 by lia.
    case_decide; [exact H0|]. destruct H0 as [? ? ? ? (d & L & Hd & He & HL & Hp & Hp')].
    split; try done. exists d, L. split_and!; try done.
    pose proof (rep_clean _ _ _ _ (lr_bio _ _ _ _ _ Rl)) as Hcl. split.
    + intros i b Hb. rewrite (Hp i b Hb). symmetry. apply Hcl; [|set_solver|done].
      apply list_elem_of_lookup_2 in Hb. destruct HL as (_ & _ & HL). destruct (HL _ Hb). lia.
    + intros b Hb Hn HbL. rewrite Hp' by done. symmetry. apply Hcl; [done|set_solver|done].
  - eapply wp_mono; [by eapply commit_spec|].
    intros [] s2 (v' & R2 & Hv' & Hl2 & Hp2 & Hk2). wp_steps. lsimpl.
    exists v', (commit_writes sb s v L h). split_and!; try done.
    + destruct R2; by split.
    + rewrite Hl2. done.
Qed.

(** ** Crash safety *)

(** A crash during recovery: some prefix of its writes reached the disk. *)
Definition recovery_crash (k k' : list block) : Prop :=
  exists pid s ws n, boot_recover (boot k pid) = Ok tt s /\ writes (bdisk (l_bio s)) = ws /\
    k' = replay k (take n ws).

Lemma recovery_crashes_recover k k' h :
  rtc recovery_crash k k' -> recovers_to sb k h -> recovers_to sb k' h.
Proof.
  induction 1 as [|k k1 k2 (pid & s & ws & n & Hrun & Hws & ->) _ IH]; [done|]. intros Hk. apply IH.
  destruct (wp_run _ _ _ _ _ (recovery_spec sb k h pid Hk) Hrun) as (v' & ws' & _ & _ & Hd & _ & _ & _ & _ & Hall). rewrite Hd in Hws. simpl in Hws.
  subst ws'. apply Hall.
Qed.

(** C6. Recovery is idempotent under crashes: on a disk whose log holds a
    committed transaction [recovers_to k h], after any number of reboots that
    each crash in the middle of recovery (with any prefix of that recovery's
    writes on disk), a boot that is left to finish returns without a panic,
    and the disk outside the log area then has exactly the contents [h], with
    an empty log. *)
Theorem recovery_completes k k' h pid :
  recovers_to sb k h -> rtc recovery_crash k k' ->
  wp boot_recover (fun _ s => exists v, log_rep sb s v [] ∅ /\ home_eq sb v h /\
                     blocks (bdisk (l_bio s)) = v) (boot k' pid).
Proof.
  intros Hk Hcr. eapply wp_mono; [apply recovery_spec; by eapply recovery_crashes_recover|].
  intros [] s (v' & ws & Hr & Heq & Hd & _). exists v'. by rewrite Hd.
Qed.

(** C1. Transactions are atomic: when the last operation in progress calls
    [end_op], it returns with the log empty and the cached contents unchanged;
    and if the machine crashes after any number [n] of the disk writes it
    makes, and again any number of times while recovering, the next completed
    boot finds either the contents before the transaction (when at most the
    log blocks were written) or all of the transaction's (once the header
    was): never a part of it. *)
Theorem end_op_atomic s v L :
  log_rep sb s v L ∅ -> lg_outstanding (l_log s) = 1 -> lg_committing (l_log s) = false ->
  wp end_op (fun _ s' => exists v' ws, log_rep sb s' v' [] ∅ /\ home_eq sb v' v /\
      lg_outstanding (l_log s') = 0 /\ bdisk (l_bio s') = disk_replay (bdisk (l_bio s)) ws /\
      forall n k pid, rtc recovery_crash (replay (blocks (bdisk (l_bio s))) (take n ws)) k ->
        wp boot_recover (fun _ r => exists w, log_rep sb r w [] ∅ /\ blocks (bdisk (l_bio r)) = w /\
            home_eq sb w (if decide (n <= length L)%nat then blocks (bdisk (l_bio s)) else v))
          (boot k pid)) s.
Proof.
  intros R Ho Hc. eapply wp_mono; [by apply end_op_last|].
  intros [] s' (v' & ws & R' & Heq & Ho' & _ & _ & Hd & Hcr). exists v', ws. do 4 (split; [done|]).
  intros n k pid Hk. eapply wp_mono; [apply recovery_spec; eapply recovery_crashes_recover; [exact Hk|apply Hcr]|].
  intros [] r (w & ws' & Hr & Hw & Hdw & _). exists w. by rewrite Hdw.
Qed.

(** A system call's view of [log_write]: between [begin_op] and [end_op],
    with the buffer of block [a] locked and room in the log, it never panics,
    it changes neither the disk nor the presented contents, and afterwards
    block [a] is part of the transaction exactly once. *)
Theorem log_write_absorbs k pid s v L Hd a i :
  in_tx k pid s v L Hd -> 1 <= lg_outstanding (l_log s) -> Hd !! a = Some i -> 1 < a < Z.of_nat (length v) ->
  Z.of_nat (length L) < sb_nlog sb - 1 ->
  wp (log_write i) (fun _ s' => in_tx k pid s' v (logged L a) Hd /\ a ∈ logged L a /\
      NoDup (logged L a) /\ (a ∈ L -> logged L a = L)) s.
Proof.
  intros T Ho Hi Ha Hl. eapply tx_log_write; [exact T|done..|]. intros s' T' _. split_and!; [done| | |].
  - apply elem_logged. by right.
  - by destruct (lr_home _ _ _ _ _ (tx_rep _ _ _ _ _ _ T')).
  - intros HaL. unfold logged. by rewrite decide_True.
Qed.
End trans.

(** ** A small disk: boot block, super block, three log blocks, one data block *)

Definition sb0 : superblock := mkSuperblock 6 1 0 3 2 5 5.
Definition sb0_block : block :=
  put_u32 0 6 (put_u32 4 1 (put_u32 12 3 (put_u32 16 2 (put_u32 20 5 (put_u32 24 5 zero_block))))).
Definition disk0 : list block :=
  [zero_block; sb0_block; zero_block; zero_block; zero_block; zero_block].

Lemma sb0_block_ok : block_ok sb0_block.
Proof. unfold sb0_block. repeat (apply block_ok_put_u32; [|unfold BSIZE; lia]). apply zero_block_ok. Qed.

Lemma disk0_recovers : recovers_to sb0 disk0 disk0.
Proof.
  apply (recovers_self sb0 disk0 disk0 zero_block).
  - unfold disk0. repeat (apply Forall_cons; split; [apply zero_block_ok || apply sb0_block_ok|]).
    constructor.
  - cbn. unfold_params. lia.
  - unfold geometry. cbn. unfold_params. lia.
  - exists sb0_block. split; [done|vm_compute; reflexivity].
  - done.
  - vm_compute. reflexivity.
  - done.
Qed.

Lemma recovery_completes_witness :
  wp boot_recover (fun _ s => exists v, log_rep sb0 s v [] ∅ /\ home_eq sb0 v disk0 /\
                     blocks (bdisk (l_bio s)) = v) (boot disk0 1).
Proof.
  apply (recovery_completes sb0 disk0 disk0 disk0 1); [apply disk0_recovers|apply rtc_refl].
Defined.

(** A transaction that writes [d] to block 5, up to its [end_op]. *)
Definition demo_write (d : block) : M lstate nat :=
  boot_recover ;;
  begin_op ;;
  b ← bio_op (bread ROOTDEV 5);
  bio_op (set_bdata b d) ;;
  mret b.
Definition demo_tx (d : block) : M lstate unit :=
  b ← demo_write d;
  log_write b ;;
  bio_op (brelse b).

Lemma demo_write_spec d (Q : nat -> lstate -> Prop) :
  block_ok d ->
  (forall k s v i, in_tx sb0 k 1 s v [] {[5 := i]} -> lg_outstanding (l_log s) = 1 ->
     length v = 6%nat -> v !! 5%nat = Some d -> Q i s) ->
  wp (demo_write d) Q (boot disk0 1).
Proof.
  intros Hd HQ. apply wp_bind. eapply wp_mono; [apply recovery_spec, disk0_recovers|].
  intros [] s (v & ws & R & _ & Hk & Hv & Ho & Hc & Hp & _). apply wp_bind.
  eapply wp_mono; [eapply begin_op_spec; [exact R|done|lia|rewrite Ho; simpl; unfold_params; lia]|].
  intros [] s1 [T Ho1]. rewrite Hp in T. apply wp_bind.
  assert (Hlen : length v = 6%nat) by by rewrite Hv, length_replay.
  eapply tx_bread; [exact T|lia|done|unfold in_log; cbn; lia|rewrite map_size_empty; unfold NBUF; simpl; lia|].
  intros i s2 T2 Hl2. apply wp_bind.
  eapply tx_set_bdata; [exact T2|apply lookup_insert_eq|lia|done|]. intros s3 T3 Hl3. apply wp_ret.
  eapply HQ; [exact T3|rewrite Hl3, Hl2; lia|by rewrite length_insert|]. apply list_lookup_insert_eq. lia.
Qed.

Lemma log_write_absorbs_witness :
  wp (demo_write zero_block)
     (fun i s => wp (log_write i) (fun _ s' => exists k v, in_tx sb0 k 1 s' v (logged [] 5) {[5 := i]}) s)
     (boot disk0 1).
Proof.
  apply demo_write_spec; [apply zero_block_ok|]. intros k s v i T Ho Hlen _.
  eapply wp_mono;
    [apply (log_write_absorbs sb0 k 1 s v [] {[5 := i]} 5 i T); [lia|apply lookup_singleton_eq|lia|cbn; lia]|].
  intros [] s' (T' & _). by exists k, v.
Defined.

Lemma demo_tx_spec d (Q : unit -> lstate -> Prop) :
  block_ok d ->
  (forall k s v, in_tx sb0 k 1 s v [5] ∅ -> lg_outstanding (l_log s) = 1 -> v !! 5%nat = Some d -> Q tt s) ->
  wp (demo_tx d) Q (boot disk0 1).
Proof.
  intros Hd HQ. apply wp_bind, demo_write_spec; [done|]. intros k s v i T Ho Hlen Hv. apply wp_bind.
  eapply tx_log_write; [exact T|lia|apply lookup_singleton_eq|lia|cbn; lia|]. intros s1 T1 Ho1.
  eapply tx_brelse; [exact T1|apply lookup_singleton_eq|left; apply elem_logged; by right|].
  intros s2 T2 Hl2. rewrite delete_singleton_eq in T2. eapply HQ; [exact T2| |done]. by rewrite Hl2, Ho1.
Qed.

Definition ones : block := put_u32 0 1 zero_block.

Lemma end_op_atomic_witness :
  wp (demo_tx ones) (fun _ s => exists v, v !! 5%nat = Some ones /\
    wp end_op (fun _ s' => exists v' ws, log_rep sb0 s' v' [] ∅ /\ home_eq sb0 v' v /\
        bdisk (l_bio s') = disk_replay (bdisk (l_bio s)) ws /\
        forall n k pid, rtc recovery_crash (replay (blocks (bdisk (l_bio s))) (take n ws)) k ->
          wp boot_recover (fun _ r => exists w, log_rep sb0 r w [] ∅ /\
            home_eq sb0 w (if decide (n <= 1)%nat then blocks (bdisk (l_bio s)) else v)) (boot k pid)) s)
    (boot disk0 1).
Proof.
  apply demo_tx_spec; [apply block_ok_put_u32; [apply zero_block_ok|unfold BSIZE; lia]|].
  intros k s v T Ho Hv. exists v. split; [exact Hv|].
  eapply wp_mono;
    [apply (end_op_atomic sb0 s v [5] (tx_rep _ _ _ _ _ _ _ T) Ho (tx_idle _ _ _ _ _ _ _ T))|].
  intros [] s' (v' & ws & R' & Heq & _ & Hd & Hcr). exists v', ws. do 3 (split; [assumption|]).
  intros n k' pid Hk. eapply wp_mono; [exact (Hcr n k' pid Hk)|].
  intros [] r (w & Hr & _ & Hw). exists w. by split.
Defined.
