(* ===== verification/Pipe.v ===== *)
(** * [pipe.c]: pipes between processes.

    The code between [acquire] and the next [sleep] or [release] of the pipe's
    lock runs without interference, so a call is a sequence of such sections.
    [pipewrite_run] and [piperead_run] are one section each; the transition
    system [step] interleaves the sections of any number of readers and
    writers, with the wakeups the code sends. *)

From stdpp Require Import relations.
From S2P Require Import Prelude Params.

Definition PIPESIZE : Z := 512.

Record pipe := mkPipe {
  data : list Z;
  nread : Z;
  nwrite : Z;
  readopen : bool;
  writeopen : bool;
}.

(** What [pipealloc] stores in the fresh page [d]. *)
Definition pipe_init (d : list Z) : pipe := mkPipe d 0 0 true true.

Definition full (p : pipe) : bool := nwrite p =? u32 (nread p + PIPESIZE).
Definition empty (p : pipe) : bool := nread p =? nwrite p.

(** [p->data[p->nwrite++ % PIPESIZE] = c] and [p->data[p->nread++ % PIPESIZE]]. *)
Definition put (c : Z) (p : pipe) : pipe :=
  mkPipe (<[Z.to_nat (nwrite p mod PIPESIZE) := c]> (data p)) (nread p) (u32 (nwrite p + 1)) (readopen p) (writeopen p).
Definition peek (p : pipe) : Z := data p !!! Z.to_nat (nread p mod PIPESIZE).
Definition skip (p : pipe) : pipe := mkPipe (data p) (u32 (nread p + 1)) (nwrite p) (readopen p) (writeopen p).

(** How a section ends: the call returns [r] after its last wakeup, returns
    -1 without one, or sleeps with work left. *)
Inductive outcome (W : Type) := Ret (r : Z) | Err | Sleep (w : W).
Arguments Ret {W} r.
Arguments Err {W}.
Arguments Sleep {W} w.

(** [pipewrite] from the top of its [for] loop: [todo] are the bytes
    [addr[i..n)].  The wakeup of the readers is sent when the section sleeps
    or finishes, not when it fails. *)
Fixpoint pipewrite_run (killed : bool) (n : Z) (todo : list Z) (p : pipe) : pipe * outcome (list Z) :=
  match todo with
  | [] => (p, Ret n)
  | c :: todo' =>
      if full p then
        if negb (readopen p) || killed then (p, Err) else (p, Sleep todo)
      else pipewrite_run killed n todo' (put c p)
  end.

(** The copy loop of [piperead]: the bytes copied out. *)
Fixpoint piperead_copy (n : nat) (p : pipe) : pipe * list Z :=
  match n with
  | O => (p, [])
  | S n' =>
      if empty p then (p, [])
      else let '(p', l) := piperead_copy n' (skip p) in (p', peek p :: l)
  end.

(** [piperead] from the top of its [while]. *)
Definition piperead_run (killed : bool) (n : Z) (p : pipe) : pipe * list Z * outcome unit :=
  if empty p && writeopen p then
    if killed then (p, [], Err) else (p, [], Sleep tt)
  else
    let '(p', l) := piperead_copy (Z.to_nat n) p in
    (p', l, Ret (Z.of_nat (length l))).

(** [pipeclose]: the new pipe and whether its page is freed. *)
Definition pipeclose (p : pipe) (writable : bool) : pipe * bool :=
  let p' := if writable then mkPipe (data p) (nread p) (nwrite p) (readopen p) false
            else mkPipe (data p) (nread p) (nwrite p) false (writeopen p) in
  (p', negb (readopen p') && negb (writeopen p')).

(** ** Processes using a pipe *)

Inductive thread :=
| Writer (killed asleep : bool) (n : Z) (todo : list Z)
| Reader (killed asleep : bool) (n : Z)
| Returned (r : Z).

(** [wakeup(&p->nread)] and [wakeup(&p->nwrite)]. *)
Definition wake_reader (t : thread) : thread :=
  match t with Reader k _ n => Reader k false n | _ => t end.
Definition wake_writer (t : thread) : thread :=
  match t with Writer k _ n l => Writer k false n l | _ => t end.

(** [kill]: the flag is set, and a sleeper becomes runnable. *)
Definition kill_thread (t : thread) : thread :=
  match t with
  | Writer _ _ n l => Writer true false n l
  | Reader _ _ n => Reader true false n
  | Returned r => Returned r
  end.

(** The whole system; [wrote] and [got] record the bytes that went in and out. *)
Record sys := mkSys {
  pi : pipe;
  freed : bool;
  threads : list thread;
  wrote : list Z;
  got : list Z;
}.

(** The bytes a section of [pipewrite] put into the pipe. *)
Definition accepted (todo : list Z) (p p' : pipe) : list Z :=
  take (Z.to_nat (u32 (nwrite p' - nwrite p))) todo.

(** Process [t] gets the lock and runs a section. *)
Definition run (t : nat) (s : sys) : option sys :=
  match threads s !! t with
  | Some (Writer k false n todo) =>
      let '(p', o) := pipewrite_run k n todo (pi s) in
      let w := wrote s ++ accepted todo (pi s) p' in
      match o with
      | Ret r => Some (mkSys p' (freed s) (<[t := Returned r]> (wake_reader <$> threads s)) w (got s))
      | Err => Some (mkSys p' (freed s) (<[t := Returned (-1)]> (threads s)) w (got s))
      | Sleep todo' =>
          Some (mkSys p' (freed s) (<[t := Writer k true n todo']> (wake_reader <$> threads s)) w (got s))
      end
  | Some (Reader k false n) =>
      let '(p', l, o) := piperead_run k n (pi s) in
      match o with
      | Ret r => Some (mkSys p' (freed s) (<[t := Returned r]> (wake_writer <$> threads s)) (wrote s) (got s ++ l))
      | Err => Some (mkSys p' (freed s) (<[t := Returned (-1)]> (threads s)) (wrote s) (got s))
      | Sleep _ => Some (mkSys p' (freed s) (<[t := Reader k true n]> (threads s)) (wrote s) (got s))
      end
  | _ => None
  end.

Definition is_writer (t : thread) : bool := match t with Writer _ _ _ _ => true | _ => false end.
Definition is_reader (t : thread) : bool := match t with Reader _ _ _ => true | _ => false end.

(** A process calls [write] or [read] only with the end open, and an end is
    closed when no process that uses it is left ([file.c]). *)
Inductive step : sys -> sys -> Prop :=
| step_run t s s' : run t s = Some s' -> step s s'
| step_write s l : writeopen (pi s) = true ->
    step s (mkSys (pi s) (freed s) (threads s ++ [Writer false false (Z.of_nat (length l)) l]) (wrote s) (got s))
| step_read s n : readopen (pi s) = true ->
    step s (mkSys (pi s) (freed s) (threads s ++ [Reader false false n]) (wrote s) (got s))
| step_close_write s : writeopen (pi s) = true -> Forall (fun t => is_writer t = false) (threads s) ->
    step s (mkSys (pipeclose (pi s) true).1 (pipeclose (pi s) true).2 (wake_reader <$> threads s) (wrote s) (got s))
| step_close_read s : readopen (pi s) = true -> Forall (fun t => is_reader t = false) (threads s) ->
    step s (mkSys (pipeclose (pi s) false).1 (pipeclose (pi s) false).2 (wake_writer <$> threads s) (wrote s) (got s)).

(** The same with [kill] as an event of its own. *)
Inductive step_k : sys -> sys -> Prop :=
| step_k_step s s' : step s s' -> step_k s s'
| step_k_kill s t th : threads s !! t = Some th ->
    step_k s (mkSys (pi s) (freed s) (<[t := kill_thread th]> (threads s)) (wrote s) (got s)).

Definition init (d : list Z) : sys := mkSys (pipe_init d) false [] [] [].

(** ** The ring buffer implements a queue

    The counters wrap at 2^32, which [PIPESIZE] divides. *)

Definition cnt (p : pipe) : Z := u32 (nwrite p - nread p).

(** The queue a pipe holds: the bytes written and not yet read. *)
Definition contents (p : pipe) : list Z :=
  (fun i => data p !!! Z.to_nat ((nread p + Z.of_nat i) mod PIPESIZE)) <$> seq 0 (Z.to_nat (cnt p)).

Record pipe_ok (p : pipe) : Prop := {
  ok_data : Z.of_nat (length (data p)) = PIPESIZE;
  ok_nread : 0 <= nread p < 4294967296;
  ok_nwrite : 0 <= nwrite p < 4294967296;
  ok_cnt : cnt p <= PIPESIZE;
}.

Ltac modlia := unfold cnt, u32, PIPESIZE in *; Z.to_euclidean_division_equations; lia.

Lemma u32_mod x : u32 x mod PIPESIZE = x mod PIPESIZE.
Proof. modlia. Qed.

Lemma cnt_range p : 0 <= cnt p < 4294967296.
Proof. apply u32_range. Qed.

Lemma full_spec p : pipe_ok p -> full p = true <-> cnt p = PIPESIZE.
Proof. intros [_ Hr Hw _]. unfold full. rewrite Z.eqb_eq. modlia. Qed.

Lemma empty_spec p : pipe_ok p -> empty p = true <-> cnt p = 0.
Proof. intros [_ Hr Hw _]. unfold empty. rewrite Z.eqb_eq. modlia. Qed.

Lemma not_full p : pipe_ok p -> full p = false -> cnt p < PIPESIZE.
Proof.
  intros Hok Hf. pose proof (ok_cnt _ Hok). assert (cnt p <> PIPESIZE); [|lia].
  rewrite <- full_spec by done. congruence.
Qed.

Lemma length_contents p : Z.of_nat (length (contents p)) = cnt p.
Proof. unfold contents. rewrite length_fmap, length_seq. pose proof (cnt_range p). lia. Qed.

Lemma lookup_contents p i :
  Z.of_nat i < cnt p -> contents p !! i = Some (data p !!! Z.to_nat ((nread p + Z.of_nat i) mod PIPESIZE)).
Proof. intros Hi. unfold contents. rewrite list_lookup_fmap, lookup_seq_lt by lia. done. Qed.

Lemma contents_nil p : pipe_ok p -> contents p = [] <-> empty p = true.
Proof.
  intros Hok. rewrite empty_spec by done. rewrite <- length_contents. destruct (contents p); simpl; split; (done || lia).
Qed.

Lemma put_cnt c p : pipe_ok p -> full p = false -> cnt (put c p) = cnt p + 1.
Proof. intros Hok Hf. apply not_full in Hf; [|done]. destruct Hok. unfold put, cnt in *. simpl. modlia. Qed.

Lemma put_ok c p : pipe_ok p -> full p = false -> pipe_ok (put c p).
Proof.
  intros Hok Hf. pose proof (put_cnt c p Hok Hf) as Hc. apply not_full in Hf; [|done].
  split; rewrite ?Hc; simpl; [rewrite length_insert|..|lia]; try apply Hok. apply u32_range.
Qed.

Lemma put_contents c p : pipe_ok p -> full p = false -> contents (put c p) = contents p ++ [c].
Proof.
  intros Hok Hf. pose proof (put_cnt c p Hok Hf) as Hc. apply not_full in Hf; [|done].
  pose proof (cnt_range p). apply list_eq_same_length with (n := length (contents (put c p))); [|done|].
  { rewrite length_app. simpl. pose proof (length_contents p). pose proof (length_contents (put c p)). lia. }
  intros i x y Hi Hx Hy. pose proof (length_contents (put c p)).
  rewrite lookup_contents in Hx by lia. injection Hx as <-. simpl.
  destruct (decide (Z.of_nat i = cnt p)) as [Hie|Hne].
  - rewrite lookup_app_r in Hy by (pose proof (length_contents p); lia).
    replace (i - length (contents p))%nat with O in Hy by (pose proof (length_contents p); lia).
    injection Hy as <-. rewrite Hie.
    replace ((nread p + cnt p) mod PIPESIZE) with (nwrite p mod PIPESIZE) by (destruct Hok; modlia).
    apply list_lookup_total_insert_eq. destruct Hok. modlia.
  - rewrite lookup_app_l in Hy by (pose proof (length_contents p); lia).
    rewrite lookup_contents in Hy by lia. injection Hy as <-.
    apply list_lookup_total_insert_ne. destruct Hok. intros E. apply Hne. modlia.
Qed.

Lemma skip_cnt p : pipe_ok p -> empty p = false -> cnt (skip p) = cnt p - 1.
Proof.
  intros Hok He. assert (cnt p <> 0) by (rewrite <- empty_spec by done; congruence).
  destruct Hok. unfold skip, cnt in *. simpl. modlia.
Qed.

Lemma skip_ok p : pipe_ok p -> empty p = false -> pipe_ok (skip p).
Proof.
  intros Hok He. pose proof (skip_cnt p Hok He) as Hc.
  split; rewrite ?Hc; simpl; try apply Hok; [apply u32_range|]. pose proof (ok_cnt _ Hok). lia.
Qed.

Lemma skip_contents p : pipe_ok p -> empty p = false -> contents p = peek p :: contents (skip p).
Proof.
  intros Hok He. pose proof (skip_cnt p Hok He) as Hc. pose proof (cnt_range (skip p)).
  unfold contents. rewrite Hc. replace (Z.to_nat (cnt p)) with (S (Z.to_nat (cnt p - 1))) by lia.
  cbn [seq]. rewrite fmap_cons, <- fmap_S_seq, <- list_fmap_compose. f_equal.
  - unfold peek. by rewrite Z.add_0_r.
  - apply list_fmap_ext. intros i x Hx. simpl. do 2 f_equal.
    modlia.
Qed.

Definition same_ends (p p' : pipe) : Prop := readopen p' = readopen p /\ writeopen p' = writeopen p.

(** A section of [pipewrite] appends a prefix [w] of its bytes to the queue. *)
Lemma pipewrite_run_spec k n todo p :
  pipe_ok p ->
  exists w rest, todo = w ++ rest /\ let '(p', o) := pipewrite_run k n todo p in
    pipe_ok p' /\ same_ends p p' /\ contents p' = contents p ++ w /\
    nwrite p' = u32 (nwrite p + Z.of_nat (length w)) /\
    match o with
    | Ret r => rest = [] /\ r = n
    | Err => full p' = true /\ (readopen p = false \/ k = true)
    | Sleep l => l = rest /\ full p' = true /\ readopen p = true /\ k = false
    end.
Proof.
  revert p. induction todo as [|c todo IH]; intros p Hok; cbn [pipewrite_run].
  - exists [], []. split; [done|]. rewrite app_nil_r, Z.add_0_r, u32_small by apply Hok. by split_and!.
  - destruct (full p) eqn:Ef.
    + exists [], (c :: todo). split; [done|].
      destruct (negb (readopen p) || k) eqn:Eb; rewrite app_nil_r, Z.add_0_r, u32_small by apply Hok.
      * split_and!; try done. apply orb_true_iff in Eb as [E|E]; [left; by apply negb_true_iff|by right].
      * apply orb_false_iff in Eb as [E1 E2]. apply negb_false_iff in E1. by split_and!.
    + destruct (IH (put c p) (put_ok c p Hok Ef)) as (w & rest & -> & H). exists (c :: w), rest.
      split; [done|]. destruct (pipewrite_run k n (w ++ rest) (put c p)) as [p' o].
      destruct H as (H1 & H2 & H3 & H4 & H5). split_and!; try done.
      * by rewrite H3, put_contents, <- app_assoc.
      * rewrite H4. simpl. modlia.
Qed.

Lemma accepted_spec todo p p' w rest :
  pipe_ok p -> pipe_ok p' -> todo = w ++ rest -> contents p' = contents p ++ w ->
  nwrite p' = u32 (nwrite p + Z.of_nat (length w)) -> accepted todo p p' = w.
Proof.
  intros Hok Hok' -> Hc Hw. unfold accepted.
  assert (Z.of_nat (length w) <= PIPESIZE).
  { pose proof (length_contents p') as E. rewrite Hc, length_app in E. pose proof (ok_cnt _ Hok'). lia. }
  replace (Z.to_nat (u32 (nwrite p' - nwrite p))) with (length w); [by rewrite take_app_length|].
  rewrite Hw. destruct Hok. modlia.
Qed.

(** The same with the bytes named by [accepted]. *)
Lemma pipewrite_section k n todo p p' o :
  pipe_ok p -> pipewrite_run k n todo p = (p', o) ->
  pipe_ok p' /\ same_ends p p' /\ contents p' = contents p ++ accepted todo p p' /\
  (full p = true -> p' = p) /\
  match o with
  | Ret r => accepted todo p p' = todo /\ r = n
  | Err => full p' = true /\ (readopen p = false \/ k = true)
  | Sleep l => todo = accepted todo p p' ++ l /\ full p' = true /\ readopen p = true /\ k = false
  end.
Proof.
  intros Hok Hrun. pose proof (pipewrite_run_spec k n todo p Hok) as (w & rest & Ht & H). rewrite Hrun in H.
  destruct H as (H1 & H2 & H3 & H4 & H5). pose proof (accepted_spec _ _ _ _ _ Hok H1 Ht H3 H4) as ->.
  split_and!; try done.
  - intros Hf. destruct todo as [|c todo]; cbn [pipewrite_run] in Hrun; [by injection Hrun|].
    rewrite Hf in Hrun. by destruct (negb (readopen p) || k); injection Hrun.
  - destruct o; try done.
    + destruct H5 as [-> ->]. by rewrite app_nil_r in Ht.
    + destruct H5 as (-> & ?). done.
Qed.

Lemma piperead_copy_spec n p :
  pipe_ok p -> let '(p', l) := piperead_copy n p in
  pipe_ok p' /\ same_ends p p' /\ contents p = l ++ contents p' /\ length l = Nat.min n (length (contents p)).
Proof.
  revert p. induction n as [|n IH]; intros p Hok; cbn [piperead_copy]; [done|].
  destruct (empty p) eqn:Ee.
  - apply (contents_nil p Hok) in Ee. rewrite Ee. done.
  - specialize (IH (skip p) (skip_ok p Hok Ee)). destruct (piperead_copy n (skip p)) as [p' l].
    destruct IH as (H1 & H2 & H3 & H4). rewrite (skip_contents p Hok Ee). split_and!; try done.
    + by rewrite H3.
    + simpl. by rewrite H4.
Qed.

Lemma piperead_section k n p p' l o :
  pipe_ok p -> piperead_run k n p = (p', l, o) ->
  pipe_ok p' /\ same_ends p p' /\ contents p = l ++ contents p' /\
  match o with
  | Ret r => r = Z.of_nat (length l) /\ length l = Nat.min (Z.to_nat n) (length (contents p)) /\
             (contents p = [] -> writeopen p = false)
  | Err => p' = p /\ l = [] /\ k = true
  | Sleep _ => p' = p /\ l = [] /\ contents p = [] /\ writeopen p = true
  end.
Proof.
  intros Hok. unfold piperead_run. destruct (empty p && writeopen p) eqn:E.
  - apply andb_true_iff in E as [E1 E2]. apply (contents_nil p Hok) in E1. destruct k; intros [= <- <- <-]; done.
  - pose proof (piperead_copy_spec (Z.to_nat n) p Hok) as H. destruct (piperead_copy (Z.to_nat n) p) as [q m].
    intros [= <- <- <-]. destruct H as (H1 & H2 & H3 & H4). split_and!; try done. intros He.
    apply (contents_nil p Hok) in He. rewrite He in E. done.
Qed.

(** ** Invariants of the system *)

Record inv (s : sys) : Prop := {
  inv_ok : pipe_ok (pi s);
  inv_fifo : wrote s = got s ++ contents (pi s);
  inv_freed : freed s = negb (readopen (pi s)) && negb (writeopen (pi s));
  inv_readers : readopen (pi s) = false -> Forall (fun t => is_reader t = false) (threads s);
  inv_writers : writeopen (pi s) = false -> Forall (fun t => is_writer t = false) (threads s);
}.

(** Wakeups and kills do not change what a process is doing. *)
Lemma kind_fmap (f : thread -> bool) (w : thread -> thread) ths :
  (forall t, f (w t) = f t) -> Forall (fun t => f t = false) ths -> Forall (fun t => f t = false) (w <$> ths).
Proof. intros Hf H. rewrite Forall_fmap. eapply Forall_impl; [exact H|]. intros t. simpl. by rewrite Hf. Qed.

Lemma kind_wakes t :
  is_reader (wake_reader t) = is_reader t /\ is_writer (wake_reader t) = is_writer t /\
  is_reader (wake_writer t) = is_reader t /\ is_writer (wake_writer t) = is_writer t /\
  is_reader (kill_thread t) = is_reader t /\ is_writer (kill_thread t) = is_writer t.
Proof. by destruct t. Qed.

(** Updating one process to one that does not start using an end. *)
Lemma kind_insert (f : thread -> bool) ths t th th' :
  ths !! t = Some th -> (f th = false -> f th' = false) ->
  Forall (fun x => f x = false) ths -> Forall (fun x => f x = false) (<[t := th']> ths).
Proof.
  intros Ht Hf Hall. apply Forall_insert; [done|]. apply Hf. by eapply Forall_lookup_1 in Hall.
Qed.

Lemma lookup_wake (w : thread -> thread) (ths : list thread) t th :
  ths !! t = Some th -> (w <$> ths) !! t = Some (w th).
Proof. intros H. by rewrite list_lookup_fmap, H. Qed.

Ltac kinds :=
  repeat match goal with
  | |- Forall _ (<[_ := _]> (_ <$> _)) => eapply kind_insert; [by apply lookup_wake| |]
  | |- Forall _ (<[_ := _]> _) => eapply kind_insert; [eassumption| |]
  | |- Forall _ (_ <$> _) => apply kind_fmap; [by intros []|]
  | |- Forall _ (_ ++ [_]) => apply Forall_app; split; [|constructor; [|constructor]]
  end; simpl; auto; try done.

Lemma inv_run t s s' : inv s -> run t s = Some s' -> inv s'.
Proof.
  intros [Hok Hf Hfr Hr Hw] Hrun. unfold run in Hrun.
  destruct (threads s !! t) as [[k [|] n todo|k [|] n|]|] eqn:Et; try done.
  - destruct (pipewrite_run k n todo (pi s)) as [p' o] eqn:E.
    destruct (pipewrite_section _ _ _ _ _ _ Hok E) as (H1 & [H2 H2'] & H3 & _ & _).
    assert (Hf' : wrote s ++ accepted todo (pi s) p' = got s ++ contents p') by by rewrite H3, Hf, app_assoc.
    destruct o; injection Hrun as <-; split; simpl; rewrite ?H2, ?H2'; try done; intros Hx;
      specialize (Hr Hx) || specialize (Hw Hx); kinds.
  - destruct (piperead_run k n (pi s)) as [[p' l] o] eqn:E.
    destruct (piperead_section _ _ _ _ _ _ Hok E) as (H1 & [H2 H2'] & H3 & H4).
    assert (Hf' : wrote s = (got s ++ l) ++ contents p') by by rewrite <- app_assoc, <- H3.
    destruct o; [|destruct H4 as (-> & -> & _); rewrite app_nil_r in Hf'|destruct H4 as (-> & -> & _); rewrite app_nil_r in Hf'];
      injection Hrun as <-; split; simpl; rewrite ?H2, ?H2'; try done; intros Hx;
      specialize (Hr Hx) || specialize (Hw Hx); kinds.
Qed.

Lemma inv_step s s' : inv s -> step_k s s' -> inv s'.
Proof.
  intros I Hst. destruct Hst as [s s' Hst|s t th Ht]; [destruct Hst as [t s s' Hrun|s l Ho|s n Ho|s Ho Hn|s Ho Hn]|].
  - by eapply inv_run.
  - destruct I as [Hok Hf Hfr Hr Hw]. split; simpl; try done; intros Hx; [specialize (Hr Hx)|congruence]; kinds.
  - destruct I as [Hok Hf Hfr Hr Hw]. split; simpl; try done; intros Hx; [congruence|specialize (Hw Hx)]; kinds.
  - destruct I as [[] Hf Hfr Hr Hw]. split; simpl; try done; [intros Hx; specialize (Hr Hx)|intros _]; kinds.
  - destruct I as [[] Hf Hfr Hr Hw]. split; simpl; try done; [intros _|intros Hx; specialize (Hw Hx)]; kinds.
  - destruct I as [Hok Hf Hfr Hr Hw].
    split; simpl; try done; intros Hx; [specialize (Hr Hx)|specialize (Hw Hx)];
      (eapply kind_insert; [exact Ht| |done]); by destruct th.
Qed.

Lemma inv_init d : Z.of_nat (length d) = PIPESIZE -> inv (init d).
Proof. intros Hd. by split. Qed.

Lemma inv_reachable d s : Z.of_nat (length d) = PIPESIZE -> rtc step_k (init d) s -> inv s.
Proof.
  intros Hd Hr. assert (I := inv_init d Hd). induction Hr as [|s1 s2 s3 Hst _ IH]; [done|].
  apply IH. by eapply inv_step.
Qed.

(** C12. A pipe is a FIFO queue, whatever the interleaving of any number of
    readers, writers, kills and closes and however often the 32-bit counters
    wrap: the bytes read so far are a prefix of the bytes written so far, and
    what lies between is the (at most [PIPESIZE] byte) contents of the ring
    buffer. *)
Theorem pipe_fifo d s :
  Z.of_nat (length d) = PIPESIZE -> rtc step_k (init d) s ->
  wrote s = got s ++ contents (pi s) /\ Z.of_nat (length (contents (pi s))) <= PIPESIZE.
Proof.
  intros Hd Hr. destruct (inv_reachable d s Hd Hr) as [Hok Hf _ _ _]. split; [done|].
  rewrite length_contents. apply Hok.
Qed.

(** A pipe's page is never used after [pipeclose] has freed it. *)
Theorem pipe_no_use_after_free d s t s' :
  Z.of_nat (length d) = PIPESIZE -> rtc step_k (init d) s -> run t s = Some s' -> freed s = false.
Proof.
  intros Hd Hr Hrun. destruct (inv_reachable d s Hd Hr) as [_ _ Hfr Hrd Hwr].
  rewrite Hfr. unfold run in Hrun. destruct (threads s !! t) as [th|] eqn:Et; [|done].
  destruct (readopen (pi s)); [done|]. destruct (writeopen (pi s)); [done|]. exfalso.
  pose proof (proj1 (Forall_lookup _ _) (Hrd eq_refl) t th Et) as H1.
  pose proof (proj1 (Forall_lookup _ _) (Hwr eq_refl) t th Et) as H2. by destruct th.
Qed.

(** ** Wakeups *)

(** A sleeping process waits for something that has not happened. *)
Definition waits (p : pipe) (t : thread) : Prop :=
  match t with
  | Writer k a _ _ => k = false /\ (a = true -> full p = true /\ readopen p = true)
  | Reader k a _ => k = false /\ (a = true -> empty p = true /\ writeopen p = true)
  | Returned _ => True
  end.

Lemma waits_run t s s' :
  inv s -> Forall (waits (pi s)) (threads s) -> run t s = Some s' -> Forall (waits (pi s')) (threads s').
Proof.
  intros [Hok _ _ Hr _] Hw Hrun. unfold run in Hrun.
  destruct (threads s !! t) as [th|] eqn:Et; [|done].
  pose proof (proj1 (Forall_lookup _ _) Hw t th Et) as Hth.
  destruct th as [k [|] n todo|k [|] n|]; try done; destruct Hth as [-> _].
  - destruct (pipewrite_run false n todo (pi s)) as [p' o] eqn:E.
    destruct (pipewrite_section _ _ _ _ _ _ Hok E) as (H1 & [H2 H2'] & _ & H4 & H5).
    assert (Hwk : Forall (waits p') (wake_reader <$> threads s)).
    { rewrite Forall_fmap. eapply Forall_impl; [exact Hw|]. intros [k a m l|k a m|]; simpl; [|by intros [-> _]|done].
      intros [-> Ha]. split; [done|]. intros ->. destruct (Ha eq_refl) as [Hf Ho]. by rewrite (H4 Hf). }
    destruct o as [r| |l]; injection Hrun as <-; simpl.
    + by apply Forall_insert.
    + destruct H5 as [_ [Hro|]]; [|done]. specialize (Hr Hro). apply Forall_insert; [|done].
      apply Forall_lookup. intros i th Hi. pose proof (proj1 (Forall_lookup _ _) Hr i th Hi) as Hk.
      pose proof (proj1 (Forall_lookup _ _) Hw i th Hi) as Hwt. destruct th as [k a m l|k a m|]; try done.
      destruct Hwt as [-> Ha]. split; [done|]. intros ->. destruct (Ha eq_refl) as [Hf Ho]. congruence.
    + apply Forall_insert; [done|]. destruct H5 as (_ & ? & ? & _). split; [done|]. intros _. by rewrite H2.
  - destruct (piperead_run false n (pi s)) as [[p' l] o] eqn:E.
    destruct (piperead_section _ _ _ _ _ _ Hok E) as (H1 & [H2 H2'] & H3 & H4).
    destruct o as [r| |[]]; injection Hrun as <-; simpl.
    + apply Forall_insert; [|done]. rewrite Forall_fmap. eapply Forall_impl; [exact Hw|].
      destruct H4 as (_ & _ & He). intros [k a m q|k a m|]; simpl; try done; intros [-> Ha]; (split; [done|]); [done|].
      intros ->. destruct (Ha eq_refl) as [Hem Ho]. apply (contents_nil _ Hok) in Hem. specialize (He Hem). congruence.
    + destruct H4 as (_ & _ & ?). done.
    + destruct H4 as (-> & _ & He & Ho). apply Forall_insert; [done|]. split; [done|]. intros _.
      split; [by apply contents_nil|done].
Qed.

Lemma waits_close ths p p' (w : thread -> thread) (f : thread -> bool) :
  (w = wake_reader /\ f = is_writer \/ w = wake_writer /\ f = is_reader) ->
  Forall (fun t => f t = false) ths -> Forall (waits p) ths -> Forall (waits p') (w <$> ths).
Proof.
  intros Hwf Hf Hw. rewrite Forall_fmap. apply Forall_lookup. intros i th Hi.
  pose proof (proj1 (Forall_lookup _ _) Hf i th Hi) as Hk. pose proof (proj1 (Forall_lookup _ _) Hw i th Hi) as Hwt.
  destruct Hwf as [[-> ->]|[-> ->]]; destruct th; simpl in *; try done; by destruct Hwt.
Qed.

Lemma waits_reachable d s :
  Z.of_nat (length d) = PIPESIZE -> rtc step (init d) s -> inv s /\ Forall (waits (pi s)) (threads s).
Proof.
  intros Hd Hr. assert (I := inv_init d Hd). assert (W : Forall (waits (pi (init d))) (threads (init d))) by constructor.
  induction Hr as [|s1 s2 s3 Hst _ IH]; [done|].
  apply IH; [eapply inv_step; [done|by constructor]|]. destruct Hst as [t s s' Hrun|s l Ho|s n Ho|s Ho Hn|s Ho Hn]; simpl.
  - by eapply waits_run.
  - apply Forall_app. split; [done|]. by repeat constructor.
  - apply Forall_app. split; [done|]. by repeat constructor.
  - eapply waits_close; [left; done|done|exact W].
  - eapply waits_close; [right; done|done|exact W].
Qed.

(** C15. No wakeup is lost while no process is killed: in every reachable
    state a sleeping reader finds the pipe empty with its write end open, and
    a sleeping writer finds it full with its read end open; so a reader and a
    writer are never both asleep. *)
Theorem pipe_no_lost_wakeup d s :
  Z.of_nat (length d) = PIPESIZE -> rtc step (init d) s ->
  (forall t k n, threads s !! t = Some (Reader k true n) -> contents (pi s) = [] /\ writeopen (pi s) = true) /\
  (forall t k n l, threads s !! t = Some (Writer k true n l) ->
     Z.of_nat (length (contents (pi s))) = PIPESIZE /\ readopen (pi s) = true) /\
  (forall t k n t' k' n' l, threads s !! t = Some (Reader k true n) -> threads s !! t' <> Some (Writer k' true n' l)).
Proof.
  intros Hd Hr. destruct (waits_reachable d s Hd Hr) as [[Hok _ _ _ _] W].
  assert (HR : forall t k n, threads s !! t = Some (Reader k true n) -> contents (pi s) = [] /\ writeopen (pi s) = true).
  { intros t k n Ht. destruct (proj1 (Forall_lookup _ _) W _ _ Ht) as [_ Ha]. destruct (Ha eq_refl).
    split; [by apply contents_nil|done]. }
  assert (HW : forall t k n l, threads s !! t = Some (Writer k true n l) ->
     Z.of_nat (length (contents (pi s))) = PIPESIZE /\ readopen (pi s) = true).
  { intros t k n l Ht. destruct (proj1 (Forall_lookup _ _) W _ _ Ht) as [_ Ha]. destruct (Ha eq_refl).
    split; [|done]. rewrite length_contents. by apply full_spec. }
  split_and!; [done|done|]. intros t k n t' k' n' l H1 H2. destruct (HR _ _ _ H1) as [E _].
  destruct (HW _ _ _ _ H2) as [E' _]. rewrite E in E'. done.
Qed.

(** ** Executions *)

Definition page0 : list Z := replicate 512 0.


Definition after (t : nat) (s : sys) : sys := default s (run t s).

Lemma after_step t s : match run t s with Some _ => true | None => false end = true -> step s (after t s).
Proof. unfold after. destruct (run t s) eqn:E; [|done]. intros _. simpl. by eapply step_run. Qed.

(** A reader blocks, a writer fills the request, the reader finishes. *)
Definition demo_sleep : sys :=
  after 0 (mkSys (pipe_init page0) false [Reader false false 2] [] []).
Definition demo_read : sys :=
  after 0 (after 1 (mkSys (pi demo_sleep) false (threads demo_sleep ++ [Writer false false 3 [104; 105; 106]]) [] [])).

Lemma demo_read_reachable : rtc step (init page0) demo_read.
Proof.
  eapply rtc_l; [apply (step_read (init page0) 2); reflexivity|].
  eapply rtc_l; [apply (after_step 0); vm_compute; reflexivity|].
  eapply rtc_l; [apply (step_write demo_sleep [104; 105; 106]); vm_compute; reflexivity|].
  eapply rtc_l; [apply (after_step 1); vm_compute; reflexivity|].
  apply rtc_once. apply (after_step 0). vm_compute. reflexivity.
Qed.

Lemma step_k_rtc s s' : rtc step s s' -> rtc step_k s s'.
Proof. induction 1; [done|]. eapply rtc_l; [by apply step_k_step|done]. Qed.

Lemma pipe_fifo_witness :
  got demo_read = [104; 105] /\ [104; 105; 106] = got demo_read ++ contents (pi demo_read).
Proof.
  split; [vm_compute; reflexivity|].
  change [104; 105; 106] with (wrote demo_read).
  apply (pipe_fifo page0 demo_read eq_refl (step_k_rtc _ _ demo_read_reachable)).
Defined.

Lemma pipe_no_use_after_free_witness : freed demo_sleep = false.
Proof.
  apply (pipe_no_use_after_free page0 (mkSys (pi demo_sleep) false (threads demo_sleep ++ [Writer false false 3 [104; 105; 106]]) [] []) 1
           (after 1 (mkSys (pi demo_sleep) false (threads demo_sleep ++ [Writer false false 3 [104; 105; 106]]) [] []))).
  - reflexivity.
  - apply step_k_rtc. eapply rtc_l; [apply (step_read (init page0) 2); reflexivity|].
    eapply rtc_l; [apply (after_step 0); vm_compute; reflexivity|].
    apply rtc_once, (step_write demo_sleep [104; 105; 106]). vm_compute. reflexivity.
  - vm_compute. reflexivity.
Defined.

Lemma pipe_no_lost_wakeup_witness :
  threads demo_sleep !! 0%nat = Some (Reader false true 2) /\ contents (pi demo_sleep) = [].
Proof.
  split; [vm_compute; reflexivity|].
  refine (proj1 (proj1 (pipe_no_lost_wakeup page0 demo_sleep eq_refl _) 0%nat false 2 _)); [|vm_compute; reflexivity].
  eapply rtc_l; [apply (step_read (init page0) 2); reflexivity|].
  apply rtc_once, (after_step 0). vm_compute. reflexivity.
Defined.

(** A reader sleeps on the empty pipe; a writer of 513 bytes is killed and
    runs. *)
Definition killed_writer : sys :=
  mkSys (pi demo_sleep) false (threads demo_sleep ++ [Writer true false 513 (replicate 513 7)]) [] [].

(** A killed writer can leave a reader asleep over a full pipe:
    [pipewrite] fills the buffer, finds [killed] set and returns -1 without
    the wakeup of [p->nread]; no process can run any more although the write
    end is still open and [PIPESIZE] bytes are there to read. *)
Theorem killed_writer_loses_wakeup :
  let s := after 1 killed_writer in
  rtc step_k (init page0) s /\ threads s = [Reader false true 2; Returned (-1)] /\
  Z.of_nat (length (contents (pi s))) = PIPESIZE /\ writeopen (pi s) = true /\ forall t, run t s = None.
Proof.
  cbn zeta. split.
  { eapply rtc_l; [constructor; apply (step_read (init page0) 2); reflexivity|].
    eapply rtc_l; [constructor; apply (after_step 0); vm_compute; reflexivity|].
    eapply rtc_l; [constructor; apply (step_write demo_sleep (replicate 513 7)); vm_compute; reflexivity|].
    eapply rtc_l; [apply (step_k_kill _ 1 (Writer false false 513 (replicate 513 7))); vm_compute; reflexivity|].
    apply rtc_once. constructor. apply (after_step 1). vm_compute. reflexivity. }
  assert (E : threads (after 1 killed_writer) = [Reader false true 2; Returned (-1)]) by (vm_compute; reflexivity).
  split_and!; [exact E|vm_compute; reflexivity|vm_compute; reflexivity|].
  intros t. unfold run. rewrite E. by destruct t as [|[|t]].
Qed.
