(* ===== verification/Spinlock.v ===== *)
(** * [spinlock.c]: mutual exclusion between CPUs.

    Each memory access and each instruction on the interrupt flag is a step of
    its own; any number of CPUs run [acquire] and [release] on any number of
    locks in any interleaving (on sequentially consistent memory, which the
    barriers in the code are there to give). *)

From stdpp Require Import gmap relations.
From S2P Require Import Prelude.

(** [struct spinlock]: the word [locked] and the CPU that holds it. *)
Record spinlock := mkSpinlock { locked : Z; lk_cpu : option nat }.

#[export] Instance spinlock_inhabited : Inhabited spinlock := populate (mkSpinlock 0 None).

Definition initlock : spinlock := mkSpinlock 0 None.

(** Where a CPU is in [acquire(k)] or [release(k)]. *)
Inductive pc :=
| Idle
| A0 (k : nat)  (** [pushcli] *)
| A1 (k : nat)  (** [holding]: [pushcli], read [locked] *)
| A2 (k : nat)  (** [holding]: read [cpu], [popcli] *)
| A3 (k : nat)  (** [xchg] *)
| A4 (k : nat)  (** [lk->cpu = mycpu()] *)
| R0 (k : nat)  (** [holding]: [pushcli], read [locked] *)
| R1 (k : nat)  (** [holding]: read [cpu], [popcli] *)
| R2 (k : nat)  (** [lk->cpu = 0] *)
| R3 (k : nat)  (** [movl $0, lk->locked] *)
| R4.           (** [popcli] *)

(** Per-CPU state: [%eflags & FL_IF], [ncli], [intena], and the locks the CPU
    got and has not given back. *)
Record cpu := mkCpu {
  fl_if : bool;
  ncli : Z;
  intena : bool;
  at_pc : pc;
  held : gset nat;
}.

Definition pushcli (c : cpu) : cpu :=
  mkCpu false (ncli c + 1) (if ncli c =? 0 then fl_if c else intena c) (at_pc c) (held c).

(** [inr] is a panic. *)
Definition popcli (c : cpu) : cpu + string :=
  if fl_if c then inr "popcli - interruptible"
  else let n := ncli c - 1 in
  if n <? 0 then inr "popcli"
  else inl (mkCpu ((n =? 0) && intena c) n (intena c) (at_pc c) (held c)).

Definition goto (p : pc) (c : cpu) : cpu := mkCpu (fl_if c) (ncli c) (intena c) p (held c).
Definition set_held (h : gset nat) (c : cpu) : cpu := mkCpu (fl_if c) (ncli c) (intena c) (at_pc c) h.

Record sys := mkSys { cpus : list cpu; locks : list spinlock }.

(** After a [popcli], go on at [p]. *)
Definition pop_goto (p : pc) (c : cpu) : cpu + string :=
  match popcli c with inl c' => inl (goto p c') | inr e => inr e end.

(** One step of CPU [i]: the new CPU state and locks, or a panic. *)
Definition cpu_step (i : nat) (c : cpu) (lks : list spinlock) : (cpu + string) * list spinlock :=
  match at_pc c with
  | Idle => (inl c, lks)
  | A0 k => (inl (goto (A1 k) (pushcli c)), lks)
  | A1 k =>
      let c' := pushcli c in
      if locked (lks !!! k) =? 0 then (pop_goto (A3 k) c', lks) else (inl (goto (A2 k) c'), lks)
  | A2 k =>
      if bool_decide (lk_cpu (lks !!! k) = Some i) then (inr "acquire", lks) else (pop_goto (A3 k) c, lks)
  | A3 k =>
      let old := locked (lks !!! k) in
      let lks' := <[k := mkSpinlock 1 (lk_cpu (lks !!! k))]> lks in
      if negb (old =? 0) then (inl c, lks') else (inl (goto (A4 k) (set_held ({[k]} ∪ held c) c)), lks')
  | A4 k => (inl (goto Idle c), <[k := mkSpinlock (locked (lks !!! k)) (Some i)]> lks)
  | R0 k =>
      let c' := pushcli c in
      if locked (lks !!! k) =? 0 then (inr "release", lks) else (inl (goto (R1 k) c'), lks)
  | R1 k =>
      if bool_decide (lk_cpu (lks !!! k) = Some i) then (pop_goto (R2 k) c, lks) else (inr "release", lks)
  | R2 k => (inl (goto (R3 k) c), <[k := mkSpinlock (locked (lks !!! k)) None]> lks)
  | R3 k => (inl (goto R4 (set_held (held c ∖ {[k]}) c)), <[k := mkSpinlock 0 (lk_cpu (lks !!! k))]> lks)
  | R4 => (pop_goto Idle c, lks)
  end.

(** Kernel code on an idle CPU calls [acquire] or [release] on some lock. *)
Inductive step : sys -> sys -> Prop :=
| step_acquire s i c k : cpus s !! i = Some c -> at_pc c = Idle -> (k < length (locks s))%nat ->
    step s (mkSys (<[i := goto (A0 k) c]> (cpus s)) (locks s))
| step_release s i c k : cpus s !! i = Some c -> at_pc c = Idle -> (k < length (locks s))%nat ->
    step s (mkSys (<[i := goto (R0 k) c]> (cpus s)) (locks s))
| step_run s i c c' lks : cpus s !! i = Some c -> cpu_step i c (locks s) = (inl c', lks) ->
    step s (mkSys (<[i := c']> (cpus s)) lks).

(** CPUs start idle, with interrupts as the boot code left them. *)
Definition boot_cpu (f : bool) : cpu := mkCpu f 0 false Idle ∅.
Definition init (fs : list bool) (nlocks : nat) : sys := mkSys (boot_cpu <$> fs) (replicate nlocks initlock).

(** ** Invariant *)

(** [pushcli] calls of the code that is running, besides one per held lock. *)
Definition pending_cli (p : pc) : Z :=
  match p with A1 _ => 1 | A2 _ => 2 | A3 _ => 1 | R1 _ => 1 | R4 => 1 | _ => 0 end.

(** Between [xchg] and [lk->cpu = ...], and between [lk->cpu = 0] and the
    final store, the holder is not recorded. *)
Definition unrecorded (p : pc) (k : nat) : Prop := p = A4 k \/ p = R3 k.

(** [n] calls of [pushcli] are open; [base] is the interrupt flag before. *)
Definition cli_ok (base : bool) (n : Z) (c : cpu) : Prop :=
  ncli c = n /\ (n = 0 -> fl_if c = base) /\ (0 < n -> fl_if c = false /\ intena c = base).

Record cpu_ok (base : bool) (c : cpu) : Prop := {
  ok_cli : cli_ok base (Z.of_nat (size (held c)) + pending_cli (at_pc c)) c;
  ok_in : forall k, at_pc c = A4 k \/ at_pc c = R2 k \/ at_pc c = R3 k -> k ∈ held c;
  ok_out : forall k, at_pc c = A3 k -> k ∉ held c;
}.

Record lock_ok (cs : list cpu) (k : nat) (l : spinlock) : Prop := {
  ok_bit : locked l = 0 \/ locked l = 1;
  ok_free : locked l = 0 -> forall i c, cs !! i = Some c -> k ∉ held c;
  ok_one : forall i c j c', cs !! i = Some c -> cs !! j = Some c' -> k ∈ held c -> k ∈ held c' -> i = j;
  ok_cpu : forall i c, cs !! i = Some c -> lk_cpu l = Some i <-> k ∈ held c /\ ~ unrecorded (at_pc c) k;
}.

(** The lock a CPU is working on. *)
Definition pc_lock (p : pc) : option nat :=
  match p with
  | Idle | R4 => None
  | A0 k | A1 k | A2 k | A3 k | A4 k | R0 k | R1 k | R2 k | R3 k => Some k
  end.

Record inv (fs : list bool) (s : sys) : Prop := {
  inv_len : length (cpus s) = length fs;
  inv_cpus : forall i c f, cpus s !! i = Some c -> fs !! i = Some f -> cpu_ok f c;
  inv_locks : forall k l, locks s !! k = Some l -> lock_ok (cpus s) k l;
  inv_range : forall i c k, cpus s !! i = Some c -> k ∈ held c \/ pc_lock (at_pc c) = Some k -> (k < length (locks s))%nat;
}.

(** A step of CPU [i] keeps lock [k] if it neither takes nor gives it, nor
    changes whether it is recorded. *)
Lemma lock_frame cs k l i c c' :
  cs !! i = Some c -> lock_ok cs k l ->
  (k ∈ held c' <-> k ∈ held c) -> (k ∈ held c -> unrecorded (at_pc c') k <-> unrecorded (at_pc c) k) ->
  lock_ok (<[i := c']> cs) k l.
Proof.
  intros Hi [H1 H2 H3 H4] Hh Hu.
  assert (Hback : forall j d, <[i := c']> cs !! j = Some d ->
     exists d0, cs !! j = Some d0 /\ (k ∈ held d <-> k ∈ held d0) /\
       (k ∈ held d0 -> unrecorded (at_pc d) k <-> unrecorded (at_pc d0) k)).
  { intros j d Hd. destruct (decide (j = i)) as [->|Hne].
    - rewrite list_lookup_insert_eq in Hd by by eapply lookup_lt_Some. injection Hd as <-. by exists c.
    - rewrite list_lookup_insert_ne in Hd by done. by exists d. }
  split; [done|..].
  - intros H0 j d Hd. destruct (Hback j d Hd) as (d0 & Hd0 & -> & _). by eapply H2.
  - intros j d j' d' Hd Hd'. destruct (Hback _ _ Hd) as (d0 & Hd0 & -> & _). destruct (Hback _ _ Hd') as (d0' & Hd0' & -> & _).
    by eapply H3.
  - intros j d Hd. destruct (Hback _ _ Hd) as (d0 & Hd0 & -> & Hu'). rewrite (H4 _ _ Hd0). split; intros [? Hn]; (split; [done|]).
    + by rewrite Hu'.
    + by rewrite <- Hu'.
Qed.

(** A step that leaves all locks alone. *)
Lemma quiet_step fs s i c c' f :
  inv fs s -> cpus s !! i = Some c -> fs !! i = Some f -> cpu_ok f c' -> held c' = held c ->
  (forall k, ~ unrecorded (at_pc c) k) -> (forall k, ~ unrecorded (at_pc c') k) ->
  (forall k, pc_lock (at_pc c') = Some k -> (k < length (locks s))%nat) ->
  inv fs (mkSys (<[i := c']> (cpus s)) (locks s)).
Proof.
  intros [Hl Hc Hk Hr] Hi Hf Hok Hh Hu Hu' Hrange. split; simpl.
  - by rewrite length_insert.
  - intros j d g Hd Hg. destruct (decide (j = i)) as [->|Hne].
    + rewrite list_lookup_insert_eq in Hd by by eapply lookup_lt_Some. injection Hd as <-. congruence.
    + rewrite list_lookup_insert_ne in Hd by done. by eapply Hc.
  - intros k l Hkl. eapply lock_frame; [exact Hi|by apply Hk|by rewrite Hh|]. intros _. split; [by intros ?%Hu'|by intros ?%Hu].
  - intros j d k Hd. destruct (decide (j = i)) as [->|Hne].
    + rewrite list_lookup_insert_eq in Hd by by eapply lookup_lt_Some. injection Hd as <-. rewrite Hh.
      intros [?|?]; [eapply Hr; [exact Hi|by left]|by apply Hrange].
    + rewrite list_lookup_insert_ne in Hd by done. by eapply Hr.
Qed.

(** A step that changes lock [k] as well. *)
Lemma lock_step fs s i c c' f k l' :
  inv fs s -> cpus s !! i = Some c -> fs !! i = Some f -> cpu_ok f c' ->
  pc_lock (at_pc c) = Some k -> pc_lock (at_pc c') = Some k \/ pc_lock (at_pc c') = None ->
  (forall j, j <> k -> j ∈ held c' <-> j ∈ held c) -> (forall j, j ∈ held c' -> j = k \/ j ∈ held c) ->
  (forall j, j <> k -> ~ unrecorded (at_pc c) j /\ ~ unrecorded (at_pc c') j) ->
  lock_ok (<[i := c']> (cpus s)) k l' ->
  inv fs (mkSys (<[i := c']> (cpus s)) (<[k := l']> (locks s))).
Proof.
  intros [Hl Hc Hk Hr] Hi Hf Hok Hp Hp' Hh Hh' Hu Hlk.
  assert (Hkr : (k < length (locks s))%nat) by (eapply Hr; [exact Hi|by right]). split; simpl.
  - by rewrite length_insert.
  - intros j d g Hd Hg. destruct (decide (j = i)) as [->|Hne].
    + rewrite list_lookup_insert_eq in Hd by by eapply lookup_lt_Some. injection Hd as <-. congruence.
    + rewrite list_lookup_insert_ne in Hd by done. by eapply Hc.
  - intros j l Hj. destruct (decide (j = k)) as [->|Hne].
    + rewrite list_lookup_insert_eq in Hj by done. by injection Hj as <-.
    + rewrite list_lookup_insert_ne in Hj by done. eapply lock_frame; [exact Hi|by apply Hk|by apply Hh|].
      intros _. destruct (Hu j Hne). split; done.
  - intros j d m Hd. rewrite length_insert. destruct (decide (j = i)) as [->|Hne].
    + rewrite list_lookup_insert_eq in Hd by by eapply lookup_lt_Some. injection Hd as <-.
      intros [Hm|Hm]; [destruct (Hh' m Hm) as [->|?]; [done|eapply Hr; [exact Hi|by left]]|].
      destruct Hp' as [E|E]; congruence.
    + rewrite list_lookup_insert_ne in Hd by done. by eapply Hr.
Qed.

(** [pushcli] and [popcli] are matched. *)
Lemma pushcli_ok f n c : cli_ok f n c -> 0 <= n -> cli_ok f (n + 1) (pushcli c).
Proof.
  intros (E & H0 & H1) Hn. unfold cli_ok, pushcli. simpl. rewrite E. split_and!; [done|lia|]. intros _. split; [done|].
  destruct (Z.eqb_spec n 0); [by apply H0|]. apply H1. lia.
Qed.

Lemma popcli_ok f n c p :
  cli_ok f n c -> 1 <= n ->
  exists c', pop_goto p c = inl c' /\ cli_ok f (n - 1) c' /\ held c' = held c /\ at_pc c' = p.
Proof.
  intros (E & _ & H1) Hn. destruct H1 as [Hf Hi]; [lia|]. unfold pop_goto, popcli. rewrite Hf, E.
  rewrite (proj2 (Z.ltb_ge _ _)) by lia. eexists. split; [done|]. split; [|done]. unfold cli_ok. simpl. rewrite Hi.
  split_and!; [done|intros ->; done|]. intros H. rewrite (proj2 (Z.eqb_neq _ _)) by lia. done.
Qed.

Lemma cli_goto f n c p : cli_ok f n c -> cli_ok f n (goto p c).
Proof. done. Qed.

(** A CPU that only moves on, with the count to match. *)
Lemma cpu_move f c n :
  cli_ok f n c -> n = Z.of_nat (size (held c)) + pending_cli (at_pc c) ->
  (forall k, at_pc c = A4 k \/ at_pc c = R2 k \/ at_pc c = R3 k -> k ∈ held c) ->
  (forall k, at_pc c = A3 k -> k ∉ held c) -> cpu_ok f c.
Proof. intros H -> Hin Hout. by split. Qed.

Section step.
Context (fs : list bool) (s : sys) (i : nat) (c : cpu) (f : bool).
Hypothesis I : inv fs s.
Hypothesis Hi : cpus s !! i = Some c.
Hypothesis Hf : fs !! i = Some f.

Lemma the_lock k : pc_lock (at_pc c) = Some k \/ k ∈ held c ->
  lock_ok (cpus s) k (locks s !!! k) /\ locks s !! k = Some (locks s !!! k).
Proof.
  intros H. assert (Hk : (k < length (locks s))%nat) by (eapply (inv_range _ _ I); [exact Hi|tauto]).
  pose proof (list_lookup_lookup_total_lt _ _ Hk) as E. split; [by apply (inv_locks _ _ I)|done].
Qed.

(** What a CPU finds in [lk->cpu] when it is not between two writes to it. *)
Lemma recorded k :
  pc_lock (at_pc c) = Some k -> ~ unrecorded (at_pc c) k ->
  lk_cpu (locks s !!! k) = Some i <-> k ∈ held c.
Proof.
  intros Hp Hu. destruct (the_lock k) as [L _]; [by left|]. rewrite (ok_cpu _ _ _ L _ _ Hi). tauto.
Qed.

Lemma free_not_held k :
  pc_lock (at_pc c) = Some k -> locked (locks s !!! k) = 0 -> k ∉ held c.
Proof. intros Hp H0. destruct (the_lock k) as [L _]; [by left|]. by apply (ok_free _ _ _ L H0 i c Hi). Qed.

Lemma quiet c' n :
  cli_ok f n c' -> n = Z.of_nat (size (held c)) + pending_cli (at_pc c') -> held c' = held c ->
  (forall k, ~ unrecorded (at_pc c) k) -> (forall k, ~ unrecorded (at_pc c') k) ->
  (forall k, at_pc c' = R2 k -> k ∈ held c) -> (forall k, at_pc c' = A3 k -> k ∉ held c) ->
  (forall k, pc_lock (at_pc c') = Some k -> (k < length (locks s))%nat) ->
  inv fs (mkSys (<[i := c']> (cpus s)) (locks s)).
Proof.
  intros Hc Hn Hh Hu Hu' H2 H3 Hr. eapply quiet_step; [exact I|exact Hi|exact Hf| |done..].
  eapply cpu_move; [exact Hc|by rewrite Hh| |by rewrite Hh].
  intros k [E|[E|E]]; rewrite Hh; [destruct (Hu' k); by left|by apply H2|destruct (Hu' k); by right].
Qed.

(** The other CPUs' view of a lock that CPU [i] takes, records or gives. *)
Lemma other_cpu c' j d :
  <[i := c']> (cpus s) !! j = Some d -> j = i /\ d = c' \/ j <> i /\ cpus s !! j = Some d.
Proof.
  intros Hd. destruct (decide (j = i)) as [->|Hne]; [left|right].
  - rewrite list_lookup_insert_eq in Hd by by eapply lookup_lt_Some. by injection Hd.
  - by rewrite list_lookup_insert_ne in Hd by done.
Qed.

Lemma take_lock k c' :
  at_pc c = A3 k -> locked (locks s !!! k) = 0 -> c' = goto (A4 k) (set_held ({[k]} ∪ held c) c) ->
  inv fs (mkSys (<[i := c']> (cpus s)) (<[k := mkSpinlock 1 (lk_cpu (locks s !!! k))]> (locks s))).
Proof.
  intros Hp H0 ->. pose proof (inv_cpus _ _ I _ _ _ Hi Hf) as [Hcli _ Hout]. rewrite Hp in Hcli. simpl in Hcli.
  destruct (the_lock k) as [L _]; [left; by rewrite Hp|]. pose proof (Hout k Hp) as Hn.
  pose proof (ok_free _ _ _ L H0) as Hfree. eapply lock_step; [exact I|exact Hi|exact Hf|..]; simpl.
  - eapply cpu_move; [exact Hcli| | |done]; simpl.
    + rewrite size_union, size_singleton by set_solver. lia.
    + intros k' [[= <-]|[|]]; [set_solver|done|done].
  - by rewrite Hp.
  - by left.
  - set_solver.
  - set_solver.
  - intros j Hj. rewrite Hp. unfold unrecorded. split; intros [?|?]; congruence.
  - split; simpl; [by right|done|..].
    + intros j d j' d' Hd Hd' Hkd Hkd'. apply other_cpu in Hd as [[-> ->]|[Hj Hd]]; apply other_cpu in Hd' as [[-> ->]|[Hj' Hd']]; try done;
        [by destruct (Hfree _ _ Hd')|by destruct (Hfree _ _ Hd)|by destruct (Hfree _ _ Hd)].
    + intros j d Hd. apply other_cpu in Hd as [[-> ->]|[Hj Hd]]; simpl.
      * rewrite (ok_cpu _ _ _ L _ _ Hi). split; [tauto|]. intros [_ Hu]. destruct Hu. by left.
      * by apply (ok_cpu _ _ _ L).
Qed.

Lemma record_lock k l' c' :
  (at_pc c = A4 k /\ c' = goto Idle c /\ l' = mkSpinlock (locked (locks s !!! k)) (Some i)) \/
  (at_pc c = R2 k /\ c' = goto (R3 k) c /\ l' = mkSpinlock (locked (locks s !!! k)) None) ->
  inv fs (mkSys (<[i := c']> (cpus s)) (<[k := l']> (locks s))).
Proof.
  intros Hcase. pose proof (inv_cpus _ _ I _ _ _ Hi Hf) as [Hcli Hin Hout].
  assert (Hk : k ∈ held c) by (apply Hin; tauto).
  destruct (the_lock k) as [L _]; [by right|].
  assert (Hh' : held c' = held c) by (destruct Hcase as [(_ & -> & _)|(_ & -> & _)]; done).
  assert (Hothers : forall j d, j <> i -> cpus s !! j = Some d -> k ∉ held d).
  { intros j d Hne Hd Hkd. apply Hne. by eapply (ok_one _ _ _ L). }
  eapply lock_step; [exact I|exact Hi|exact Hf|..].
  - destruct Hcase as [(E & -> & _)|(E & -> & _)]; rewrite E in Hcli; eapply cpu_move; [exact Hcli|done| | |exact Hcli|done| |]; simpl; try done.
    + by intros k' [|[|]].
    + intros k' [|[|[= <-]]]; done.
  - destruct Hcase as [(E & _)|(E & _)]; by rewrite E.
  - destruct Hcase as [(_ & -> & _)|(_ & -> & _)]; simpl; tauto.
  - by rewrite Hh'.
  - rewrite Hh'. by right.
  - intros j Hj. destruct Hcase as [(E & -> & _)|(E & -> & _)]; rewrite E; unfold unrecorded; simpl; split; intros [?|?]; congruence.
  - assert (Hb : locked l' = locked (locks s !!! k)) by (destruct Hcase as [(_ & _ & ->)|(_ & _ & ->)]; done).
    split; rewrite ?Hb; [apply (ok_bit _ _ _ L)|..].
    + intros H0. destruct (ok_free _ _ _ L H0 i c Hi Hk).
    + intros j d j' d' Hd Hd' Hkd Hkd'. apply other_cpu in Hd as [[-> ->]|[Hj Hd]]; apply other_cpu in Hd' as [[-> ->]|[Hj' Hd']]; try done.
      * by destruct (Hothers _ _ Hj' Hd').
      * by destruct (Hothers _ _ Hj Hd).
      * by destruct (Hothers _ _ Hj Hd).
    + intros j d Hd. apply other_cpu in Hd as [[-> ->]|[Hj Hd]].
      * rewrite Hh'. destruct Hcase as [(_ & -> & ->)|(_ & -> & ->)]; simpl; unfold unrecorded; split; try done; [|tauto].
        intros _. split; [done|]. intros [?|?]; done.
      * split; [|intros [? _]; by destruct (Hothers _ _ Hj Hd)].
        destruct Hcase as [(_ & _ & ->)|(_ & _ & ->)]; simpl; congruence.
Qed.

Lemma give_lock k c' :
  at_pc c = R3 k -> c' = goto R4 (set_held (held c ∖ {[k]}) c) ->
  inv fs (mkSys (<[i := c']> (cpus s)) (<[k := mkSpinlock 0 (lk_cpu (locks s !!! k))]> (locks s))).
Proof.
  intros Hp ->. pose proof (inv_cpus _ _ I _ _ _ Hi Hf) as [Hcli Hin _]. rewrite Hp in Hcli. simpl in Hcli.
  assert (Hk : k ∈ held c) by (apply Hin; tauto).
  destruct (the_lock k) as [L _]; [by right|].
  assert (Hothers : forall j d, j <> i -> cpus s !! j = Some d -> k ∉ held d).
  { intros j d Hne Hd Hkd. apply Hne. by eapply (ok_one _ _ _ L). }
  eapply lock_step; [exact I|exact Hi|exact Hf|..]; simpl.
  - eapply cpu_move; [exact Hcli| | |done]; simpl.
    + rewrite size_difference by set_solver. rewrite size_singleton. assert (size (held c) <> 0)%nat; [|lia].
      intros E. apply size_empty_inv in E. set_solver.
    + by intros k' [|[|]].
  - by rewrite Hp.
  - by right.
  - set_solver.
  - set_solver.
  - intros j Hj. rewrite Hp. unfold unrecorded. split; intros [?|?]; congruence.
  - split; simpl; [by left|..].
    + intros _ j d Hd. apply other_cpu in Hd as [[-> ->]|[Hj Hd]]; simpl; [set_solver|by eapply Hothers].
    + intros j d j' d' Hd _ Hkd. apply other_cpu in Hd as [[-> ->]|[Hj Hd]]; simpl in *; [set_solver|by destruct (Hothers _ _ Hj Hd)].
    + intros j d Hd. apply other_cpu in Hd as [[-> ->]|[Hj Hd]]; simpl.
      * rewrite (ok_cpu _ _ _ L _ _ Hi). split; [intros [_ Hu]; destruct Hu; by right|set_solver].
      * by apply (ok_cpu _ _ _ L).
Qed.
End step.

Ltac pcs := unfold unrecorded in *; intros; simpl in *;
  repeat match goal with
  | H : _ \/ _ |- _ => destruct H
  | H : Some _ = Some _ |- _ => injection H as H; subst
  | H : A3 _ = A3 _ |- _ => injection H as H; subst
  | H : R2 _ = R2 _ |- _ => injection H as H; subst
  | |- ~ (_ \/ _) => intro
  end; try done; try congruence.

Lemma lock_inv_run fs s i c c' lks f :
  inv fs s -> cpus s !! i = Some c -> fs !! i = Some f -> cpu_step i c (locks s) = (inl c', lks) ->
  inv fs (mkSys (<[i := c']> (cpus s)) lks).
Proof.
  intros I Hi Hf Hst. pose proof (inv_cpus _ _ I _ _ _ Hi Hf) as [Hcli Hin Hout].
  pose proof (fun k => inv_range _ _ I i c k Hi) as Hr. unfold cpu_step in Hst.
  destruct (at_pc c) as [|k|k|k|k|k|k|k|k|k|] eqn:Hp; simpl in Hcli.
  - injection Hst as <- <-. rewrite list_insert_id by done. by destruct s.
  - pose proof (pushcli_ok f _ c Hcli) as Hc2. specialize (Hc2 ltac:(lia)).
    injection Hst as <- <-. eapply (quiet fs s i c f I Hi Hf _ _ (cli_goto _ _ _ (A1 k) Hc2)); try done; rewrite ?Hp; [simpl; lia|pcs..].
    apply Hr. by right.
  - pose proof (pushcli_ok f _ c Hcli) as Hc2. specialize (Hc2 ltac:(lia)).
    destruct (Z.eqb_spec (locked (locks s !!! k)) 0) as [H0|H0].
    + destruct (popcli_ok f _ (pushcli c) (A3 k) Hc2) as (c2 & E & Hc3 & Hh & Hp3); [lia|]. rewrite E in Hst.
      injection Hst as <- <-. eapply (quiet fs s i c f I Hi Hf _ _ Hc3); rewrite ?Hp, ?Hp3; try done; [simpl; lia|pcs..].
      * eapply (free_not_held fs s i c I Hi); [by rewrite Hp|done].
      * apply Hr. by right.
    + injection Hst as <- <-. eapply (quiet fs s i c f I Hi Hf _ _ (cli_goto _ _ _ (A2 k) Hc2)); try done; rewrite ?Hp; [simpl; lia|pcs..].
      apply Hr. by right.
  - case_bool_decide as Hb; [done|].
    destruct (popcli_ok f _ c (A3 k) Hcli) as (c2 & E & Hc3 & Hh & Hp3); [lia|]. rewrite E in Hst.
    injection Hst as <- <-. eapply (quiet fs s i c f I Hi Hf _ _ Hc3); rewrite ?Hp, ?Hp3; try done; [simpl; lia|pcs..].
    + rewrite <- (recorded fs s i c I Hi k0); [done|by rewrite Hp|rewrite Hp; pcs].
    + apply Hr. by right.
  - destruct (Z.eqb_spec (locked (locks s !!! k)) 0) as [H0|H0]; cbn [negb] in Hst; injection Hst as <- <-.
    + by eapply take_lock.
    + destruct (the_lock fs s i c I Hi k) as [L E]; [left; by rewrite Hp|].
      destruct (ok_bit _ _ _ L) as [?|H1]; [done|]. rewrite (list_insert_id (locks s)) by (rewrite E, <- H1; by destruct (locks s !!! k)).
      rewrite list_insert_id by done. by destruct s.
  - injection Hst as <- <-. eapply record_lock; [exact I|exact Hi|exact Hf|by left].
  - destruct (Z.eqb_spec (locked (locks s !!! k)) 0) as [H0|H0]; [done|].
    pose proof (pushcli_ok f _ c Hcli) as Hc2. specialize (Hc2 ltac:(lia)). injection Hst as <- <-.
    eapply (quiet fs s i c f I Hi Hf _ _ (cli_goto _ _ _ (R1 k) Hc2)); try done; rewrite ?Hp; [simpl; lia|pcs..].
    apply Hr. by right.
  - case_bool_decide as Hb; [|done].
    destruct (popcli_ok f _ c (R2 k) Hcli) as (c2 & E & Hc3 & Hh & Hp3); [lia|]. rewrite E in Hst.
    injection Hst as <- <-. eapply (quiet fs s i c f I Hi Hf _ _ Hc3); rewrite ?Hp, ?Hp3; try done; [simpl; lia|pcs..].
    + rewrite <- (recorded fs s i c I Hi k0); [done|by rewrite Hp|rewrite Hp; pcs].
    + apply Hr. by right.
  - injection Hst as <- <-. eapply record_lock; [exact I|exact Hi|exact Hf|by right].
  - injection Hst as <- <-. by eapply give_lock.
  - destruct (popcli_ok f _ c Idle Hcli) as (c2 & E & Hc3 & Hh & Hp3); [lia|]. rewrite E in Hst.
    injection Hst as <- <-. eapply (quiet fs s i c f I Hi Hf _ _ Hc3); rewrite ?Hp, ?Hp3; try done; [simpl; lia|pcs..].
Qed.

Lemma inv_call fs s i c k p :
  inv fs s -> cpus s !! i = Some c -> at_pc c = Idle -> (k < length (locks s))%nat -> p = A0 k \/ p = R0 k ->
  inv fs (mkSys (<[i := goto p c]> (cpus s)) (locks s)).
Proof.
  intros I Hi Hp Hk Hcase.
  destruct (lookup_lt_is_Some_2 fs i) as [f Hf]; [rewrite <- (inv_len _ _ I); by eapply lookup_lt_Some|].
  pose proof (inv_cpus _ _ I _ _ _ Hi Hf) as [Hcli _ _]. rewrite Hp in Hcli.
  destruct Hcase as [-> | ->]; eapply (quiet fs s i c f I Hi Hf _ _ (cli_goto _ _ _ _ Hcli)); rewrite ?Hp; try done; pcs.
Qed.

Lemma lock_inv_init fs n : inv fs (init fs n).
Proof.
  assert (Hc : forall i c, cpus (init fs n) !! i = Some c -> held c = ∅ /\ at_pc c = Idle).
  { intros i c. unfold init. simpl. rewrite list_lookup_fmap. destruct (fs !! i); [|done]. by intros [= <-]. }
  split.
  - unfold init. simpl. apply length_fmap.
  - intros i c f. unfold init. simpl. rewrite list_lookup_fmap. intros H Hf. rewrite Hf in H. injection H as <-.
    split; simpl; [by split_and!|by intros k [|[|]]|done].
  - intros k l Hl. unfold init in Hl. simpl in Hl. apply lookup_replicate in Hl as [-> _]. split.
    + by left.
    + intros _ i c Hi. destruct (Hc _ _ Hi) as [-> _]. set_solver.
    + intros i c j c' Hi _ Hk. destruct (Hc _ _ Hi) as [E _]. rewrite E in Hk. set_solver.
    + intros i c Hi. destruct (Hc _ _ Hi) as [-> _]. split; [done|set_solver].
  - intros i c k Hi. destruct (Hc _ _ Hi) as [-> ->]. intros [?|?]; [set_solver|done].
Qed.

Lemma lock_inv_reachable fs n s : rtc step (init fs n) s -> inv fs s.
Proof.
  intros Hr. pose proof (lock_inv_init fs n) as I. induction Hr as [|s1 s2 s3 Hst _ IH]; [done|]. apply IH.
  destruct Hst as [s i c k Hi Hp Hk|s i c k Hi Hp Hk|s i c c' lks Hi Hst].
  - eapply inv_call; try done. by left.
  - eapply inv_call; try done. by right.
  - destruct (lookup_lt_is_Some_2 fs i) as [f Hf]; [rewrite <- (inv_len _ _ I); by eapply lookup_lt_Some|].
    by eapply lock_inv_run.
Qed.

(** Outside [acquire] and [release], or before their first [pushcli]. *)
Definition outside (p : pc) : bool := match p with Idle | A0 _ | R0 _ => true | _ => false end.

Lemma open_clis f c : cpu_ok f c -> (Z.of_nat (size (held c)) + pending_cli (at_pc c) = 0 <-> held c = ∅ /\ outside (at_pc c) = true).
Proof.
  intros [_ Hin _]. split.
  - intros E. assert (0 <= pending_cli (at_pc c)) by (by destruct (at_pc c)). assert (size (held c) = 0)%nat as Hh%size_empty_inv by lia.
    assert (held c = ∅) as Hh' by set_solver. split; [done|]. rewrite Hh' in Hin. destruct (at_pc c) as [|k|k|k|k|k|k|k|k|k|]; try done; simpl in *; try lia; exfalso; pose proof (Hin k); set_solver.
  - intros [-> Ho]. rewrite size_empty. by destruct (at_pc c).
Qed.

(** C25. Mutual exclusion: in every state that any number of CPUs can reach by
    interleaving the memory accesses of [acquire] and [release] on any number
    of locks, no lock is held by two CPUs; and the interrupts of a CPU are off exactly
    while it holds a lock or is inside these functions, from the first [pushcli] to the last [popcli]:
    at all other times its interrupt flag is what it was in the beginning. *)
Theorem spinlock_mutex fs n s :
  rtc step (init fs n) s ->
  (forall k i j c d, cpus s !! i = Some c -> cpus s !! j = Some d -> k ∈ held c -> k ∈ held d -> i = j) /\
  (forall i c f, cpus s !! i = Some c -> fs !! i = Some f -> fl_if c = f && bool_decide (held c = ∅) && outside (at_pc c)).
Proof.
  intros Hr. pose proof (lock_inv_reachable fs n s Hr) as I. split.
  - intros k i j c d Hi Hj Hc Hd. destruct (the_lock fs s i c I Hi k) as [L _]; [by right|]. by eapply (ok_one _ _ _ L).
  - intros i c f Hi Hf. pose proof (inv_cpus _ _ I _ _ _ Hi Hf) as Hok. pose proof (open_clis f c Hok) as Ho. destruct Hok as [(_ & H0 & H1) _ _].
    destruct (decide (held c = ∅ /\ outside (at_pc c) = true)) as [Hz|Hz].
    + rewrite (H0 (proj2 Ho Hz)). destruct Hz as [-> ->]. by rewrite bool_decide_eq_true_2, !andb_true_r.
    + assert (0 <= pending_cli (at_pc c)) by (by destruct (at_pc c)). rewrite <- Ho in Hz. rewrite (proj1 (H1 ltac:(lia))). rewrite Ho in Hz. symmetry. apply not_true_iff_false. rewrite !andb_true_iff, bool_decide_eq_true. tauto.
Qed.

(** [holding] is exact under concurrency, so the checks panic exactly when
    they should: the only panics a step can raise are [acquire] on a lock this
    CPU already holds, and [release] on a lock it does not hold. *)
Theorem spinlock_panics fs n s i c e lks :
  rtc step (init fs n) s -> cpus s !! i = Some c -> cpu_step i c (locks s) = (inr e, lks) ->
  (e = "acquire" /\ exists k, at_pc c = A2 k /\ k ∈ held c) \/
  (e = "release" /\ exists k, (at_pc c = R0 k \/ at_pc c = R1 k) /\ (k ∉ held c)).
Proof.
  intros Hr Hi Hst. pose proof (lock_inv_reachable fs n s Hr) as I.
  destruct (lookup_lt_is_Some_2 fs i) as [f Hf]; [rewrite <- (inv_len _ _ I); by eapply lookup_lt_Some|].
  pose proof (inv_cpus _ _ I _ _ _ Hi Hf) as [Hcli _ _]. unfold cpu_step in Hst.
  destruct (at_pc c) as [|k|k|k|k|k|k|k|k|k|] eqn:Hp; simpl in Hcli; try done.
  - case_match; [|done]. pose proof (pushcli_ok f _ c Hcli) as Hc2. specialize (Hc2 ltac:(lia)).
    destruct (popcli_ok f _ (pushcli c) (A3 k) Hc2) as (c2 & E & _); [lia|]. by rewrite E in Hst.
  - case_bool_decide as Hb.
    + injection Hst as <- <-. left. split; [done|]. exists k. split; [done|].
      apply (recorded fs s i c I Hi k); [by rewrite Hp|rewrite Hp; pcs|done].
    + destruct (popcli_ok f _ c (A3 k) Hcli) as (c2 & E & _); [lia|]. by rewrite E in Hst.
  - by case_match.
  - destruct (Z.eqb_spec (locked (locks s !!! k)) 0); [|done]. injection Hst as <- <-. right. split; [done|].
    exists k. split; [by left|]. eapply (free_not_held fs s i c I Hi); [by rewrite Hp|done].
  - case_bool_decide as Hb.
    + destruct (popcli_ok f _ c (R2 k) Hcli) as (c2 & E & _); [lia|]. by rewrite E in Hst.
    + injection Hst as <- <-. right. split; [done|]. exists k. split; [by right|].
      rewrite <- (recorded fs s i c I Hi k); [done|by rewrite Hp|rewrite Hp; pcs].
  - destruct (popcli_ok f _ c Idle Hcli) as (c2 & E & _); [lia|]. by rewrite E in Hst.
Qed.

(** ** An execution: CPU 0 takes lock 0 and tries to take it again *)

Definition run_cpu (i : nat) (s : sys) : sys :=
  match cpus s !! i with
  | Some c => match cpu_step i c (locks s) with
              | (inl c', lks) => mkSys (<[i := c']> (cpus s)) lks
              | _ => s
              end
  | None => s
  end.

Lemma run_cpu_step i s : rtc step s (run_cpu i s).
Proof.
  unfold run_cpu. destruct (cpus s !! i) as [c|] eqn:Hc; [|done].
  destruct (cpu_step i c (locks s)) as [[c'|e] lks] eqn:E; [|done]. apply rtc_once. by eapply step_run.
Qed.

Definition call (p : pc) (i : nat) (s : sys) : sys :=
  match cpus s !! i with Some c => mkSys (<[i := goto p c]> (cpus s)) (locks s) | None => s end.

Lemma call_step i c k s :
  cpus s !! i = Some c -> at_pc c = Idle -> (k < length (locks s))%nat -> rtc step s (call (A0 k) i s).
Proof. intros Hc Hp Hk. unfold call. rewrite Hc. apply rtc_once. by apply step_acquire. Qed.

Definition s_locked : sys := Nat.iter 4 (run_cpu 0) (call (A0 0) 0 (init [true; true] 1)).
Definition s_again : sys := Nat.iter 2 (run_cpu 0) (call (A0 0) 0 s_locked).

Lemma iter_run n i s : rtc step s (Nat.iter n (run_cpu i) s).
Proof. induction n as [|n IH]; [done|]. simpl. etrans; [exact IH|apply run_cpu_step]. Qed.

Lemma s_locked_reachable : rtc step (init [true; true] 1) s_locked.
Proof.
  etrans; [|apply iter_run]. apply (call_step 0 (boot_cpu true)); [done|done|simpl; lia].
Qed.

Lemma s_again_reachable : rtc step (init [true; true] 1) s_again.
Proof.
  etrans; [apply s_locked_reachable|]. etrans; [|apply iter_run].
  destruct (cpus s_locked !! 0%nat) as [c|] eqn:E; [|vm_compute in E; discriminate].
  apply (call_step 0 c); [done|vm_compute in E; by injection E as <-|vm_compute; lia].
Qed.

(** CPU 1 spins in [acquire] on the lock that CPU 0 holds. *)
Definition s_spin : sys := Nat.iter 6 (run_cpu 1) (call (A0 0) 1 s_locked).

Lemma s_spin_reachable : rtc step (init [true; true] 1) s_spin.
Proof.
  etrans; [apply s_locked_reachable|]. etrans; [|apply iter_run].
  apply (call_step 1 (boot_cpu true)); [by vm_compute|done|vm_compute; lia].
Qed.

Lemma spinlock_mutex_witness :
  exists c d, cpus s_spin !! 0%nat = Some c /\ 0%nat ∈ held c /\ fl_if c = false /\ cpus s_spin !! 1%nat = Some d /\ held d = ∅ /\ at_pc d = A3 0 /\ fl_if d = false.
Proof.
  pose proof (spinlock_mutex _ _ _ s_spin_reachable) as [_ H].
  destruct (cpus s_spin !! 0%nat) as [c|] eqn:E; [|vm_compute in E; discriminate]. destruct (cpus s_spin !! 1%nat) as [d|] eqn:E'; [|vm_compute in E'; discriminate]. exists c, d.
  assert (0%nat ∈ held c) as Hc by (vm_compute in E; injection E as <-; vm_compute; done). pose proof (H _ _ true E eq_refl) as Fc. pose proof (H _ _ true E' eq_refl) as Fd.
  assert (held d = ∅) as Hd by (vm_compute in E'; injection E' as <-; reflexivity). assert (at_pc d = A3 0) as Hp by (vm_compute in E'; injection E' as <-; reflexivity).
  assert (held c <> ∅) as Hne by (clear - Hc; intros E; rewrite E in Hc; by apply not_elem_of_empty in Hc).
  clear E E'. rewrite (bool_decide_eq_false_2 _ Hne) in Fc. rewrite Hp, andb_false_r in Fd. clear H. split_and!; try assumption; reflexivity.
Defined.

Lemma spinlock_panics_witness :
  exists c, cpus s_again !! 0%nat = Some c /\ (cpu_step 0 c (locks s_again)).1 = inr "acquire" /\
    exists k, at_pc c = A2 k /\ k ∈ held c.
Proof.
  destruct (cpus s_again !! 0%nat) as [c|] eqn:E; [|vm_compute in E; discriminate]. exists c. split; [reflexivity|].
  assert (H : cpu_step 0 c (locks s_again) = (inr "acquire", locks s_again)).
  { vm_compute in E. injection E as <-. vm_compute. reflexivity. }
  split; [by rewrite H|].
  destruct (spinlock_panics _ _ _ 0%nat c "acquire" _ s_again_reachable E H) as [[_ X]|[X _]]; [exact X|discriminate].
Defined.
