(* ===== verification/Kalloc.v ===== *)
(** * [kalloc.c]: the physical page allocator.

    The free list is threaded through the free pages themselves: the first
    word of a free page is the address of the next one.  [end_] is the address
    the linker script puts after the kernel. *)

From stdpp Require Import gmap relations.
From S2P Require Import Prelude CString Mmu.

(** [kmem] and the memory it manages. *)
Record kmem := mkKmem { kmem_mem : mem; freelist : Z; use_lock : bool }.

Section kalloc.
Context (end_ : Z).

Definition kfree (v : Z) : M kmem unit :=
  s ← get;
  if negb (v mod PGSIZE =? 0) || (v <? end_) || (PHYSTOP <=? V2P v) then panic "kfree" else
  let m := memset (kmem_mem s) v 1 PGSIZE in
  modify (fun s => mkKmem (store32 m v (freelist s)) v (use_lock s)).

Definition kalloc : M kmem Z :=
  s ← get;
  let r := freelist s in
  (if negb (r =? 0) then modify (fun s => mkKmem (kmem_mem s) (load32 (kmem_mem s) r) (use_lock s)) else mret tt) ;;
  mret r.

Fixpoint freerange_loop (fuel : nat) (p vend : Z) : M kmem unit :=
  if u32 (p + PGSIZE) <=? vend then
    match fuel with
    | O => outOfFuel
    | S fuel' => kfree p ;; freerange_loop fuel' (u32 (p + PGSIZE)) vend
    end
  else mret tt.

(** At most one round for each page below [vend]. *)
Definition freerange (vstart vend : Z) : M kmem unit :=
  freerange_loop (Z.to_nat (vend / PGSIZE)) (PGROUNDUP vstart) vend.

Definition kinit1 (vstart vend : Z) : M kmem unit :=
  modify (fun s => mkKmem (kmem_mem s) (freelist s) false) ;;
  freerange vstart vend.

Definition kinit2 (vstart vend : Z) : M kmem unit :=
  freerange vstart vend ;;
  modify (fun s => mkKmem (kmem_mem s) (freelist s) true).

(** ** The free list *)

(** The pages the allocator may handle. *)
Definition page_ok (p : Z) : Prop := p mod PGSIZE = 0 /\ end_ <= p < KERNBASE + PHYSTOP.

(** From [p] the chain of first words visits [l] and ends in the null pointer. *)
Fixpoint chain (m : mem) (p : Z) (l : list Z) : Prop :=
  match l with
  | [] => p = 0
  | q :: l' => p = q /\ chain m (load32 m q) l'
  end.

Record free_rep (s : kmem) (l : list Z) : Prop := {
  fr_chain : chain (kmem_mem s) (freelist s) l;
  fr_nodup : NoDup l;
  fr_pages : Forall page_ok l;
}.

(** The kernel is linked above [KERNBASE]. *)
Hypothesis Hend : KERNBASE <= end_.

Lemma page_pos p : page_ok p -> 0 < p < 4294967296.
Proof. intros [_ H]. pglia. Qed.

Lemma page_apart p q : page_ok p -> page_ok q -> p <> q -> p + PGSIZE <= q \/ q + PGSIZE <= p.
Proof. intros [Hp _] [Hq _] Hne. pglia. Qed.

Lemma chain_ext m m' p l :
  (forall q, q ∈ l -> load32 m q = load32 m' q) -> chain m p l -> chain m' p l.
Proof.
  revert p. induction l as [|q l IH]; intros p Hm; [done|]. intros [-> Hc]. split; [done|].
  rewrite <- Hm by (by left). apply IH; [|done]. intros; apply Hm. by right.
Qed.

(** Memory outside the pages [l] is as before. *)
Definition frame (l : list Z) (m m' : mem) : Prop :=
  forall x, (forall p, p ∈ l -> x < p \/ p + PGSIZE <= x) -> m' x = m x.

(** The contents of a page that [kfree] leaves: junk, but for the link. *)
Definition junk (m : mem) (v : Z) : Prop := forall x, v + 4 <= x < v + PGSIZE -> m x = 1.

Lemma kfree_spec s l v :
  free_rep s l -> page_ok v -> v ∉ l ->
  wp (kfree v) (fun _ s' => free_rep s' (v :: l) /\ frame [v] (kmem_mem s) (kmem_mem s') /\
      junk (kmem_mem s') v /\ use_lock s' = use_lock s) s.
Proof.
  intros [Hc Hnd Hp] Hv Hvl. unfold kfree. wp_steps.
  pose proof (page_pos v Hv) as Hpos. destruct Hv as [Hm Hr].
  rewrite Hm, Z.eqb_refl. rewrite (proj2 (Z.ltb_ge _ _)) by lia.
  assert (E : V2P v = v - KERNBASE) by (unfold V2P; apply u32_small; pglia).
  rewrite E, (proj2 (Z.leb_gt _ _)) by lia. cbn [negb orb]. wp_steps.
  set (m1 := memset (kmem_mem s) v 1 PGSIZE).
  assert (Hfl : 0 <= freelist s < 4294967296).
  { destruct l as [|q l]; simpl in Hc; [lia|]. destruct Hc as [-> _].
    apply Forall_cons in Hp as [Hq _]. pose proof (page_pos q Hq). lia. }
  assert (Hfr : frame [v] (kmem_mem s) (store32 m1 v (freelist s))).
  { intros x Hx. specialize (Hx v (list_elem_of_here _ _)). rewrite store32_frame by pglia.
    unfold m1. rewrite memset_spec by pglia. zdec. }
  split_and!; [split; simpl|exact Hfr| |done].
  - split; [done|]. rewrite load32_store32_eq by done. eapply chain_ext; [|exact Hc].
    intros q Hq. apply load32_ext. intros i Hi. symmetry. apply Hfr. intros p Hp'.
    apply list_elem_of_singleton in Hp' as ->. rewrite Forall_forall in Hp. specialize (Hp q Hq).
    assert (v <> q) by (intros ->; done). destruct (page_apart v q) as [?|?]; [done..|pglia|pglia].
  - by constructor.
  - by constructor.
  - intros x Hx. simpl. rewrite store32_frame by lia. unfold m1. rewrite memset_spec by pglia.
    change (Z.land 1 255) with 1. zdec.
Qed.

Lemma kfree_panics s v : ~ page_ok v -> 0 <= v < 4294967296 -> kfree v s = Panic "kfree".
Proof.
  intros Hv Hr. unfold kfree, mbind, M_bind, get, panic. cbn.
  destruct (negb (v mod PGSIZE =? 0) || (v <? end_) || (PHYSTOP <=? V2P v)) eqn:E; [done|].
  zcase. exfalso. apply Hv. unfold page_ok, V2P in *. split; [done|]. pglia.
Qed.

Lemma kalloc_spec s l :
  free_rep s l ->
  wp kalloc (fun r s' => kmem_mem s' = kmem_mem s /\ use_lock s' = use_lock s /\
      match l with
      | [] => r = 0 /\ s' = s
      | p :: l' => r = p /\ page_ok p /\ free_rep s' l'
      end) s.
Proof.
  intros [Hc Hnd Hp]. unfold kalloc. wp_steps. destruct l as [|p l]; simpl in Hc.
  - rewrite Hc. cbn. wp_steps. done.
  - destruct Hc as [-> Hc]. apply Forall_cons in Hp as [Hpp Hp]. apply NoDup_cons in Hnd as [_ Hnd].
    pose proof (page_pos p Hpp). rewrite (proj2 (Z.eqb_neq _ _)) by lia. cbn [negb]. wp_steps.
    split_and!; try done.
Qed.

(** ** Initialisation: a range of pages is put on the list *)

Definition pages (p : Z) (n : nat) : list Z := (fun i => p + PGSIZE * Z.of_nat i) <$> seq 0 n.

Lemma pages_S p n : pages p (S n) = p :: pages (p + PGSIZE) n.
Proof.
  unfold pages. cbn [seq]. rewrite fmap_cons, Z.mul_0_r, Z.add_0_r, <- fmap_S_seq, <- list_fmap_compose.
  f_equal. apply list_fmap_ext. intros i x _. simpl. lia.
Qed.

Lemma elem_of_pages p n q :
  q ∈ pages p n <-> exists i, (i < n)%nat /\ q = p + PGSIZE * Z.of_nat i.
Proof. unfold pages. rewrite list_elem_of_fmap. setoid_rewrite elem_of_seq. naive_solver lia. Qed.

Definition npages (p vend : Z) : nat := Z.to_nat ((vend - p) / PGSIZE).

Lemma frame_app l l' m m' m'' : frame l m m' -> frame l' m' m'' -> frame (l ++ l') m m''.
Proof. intros H1 H2 x Hx. rewrite H2, H1; [done|..]; intros p Hp; apply Hx; set_solver. Qed.

Lemma frame_mono l l' m m' : (forall p, p ∈ l -> p ∈ l') -> frame l m m' -> frame l' m m'.
Proof. intros Hl F x Hx. apply F. intros p Hp. by apply Hx, Hl. Qed.

Lemma freerange_loop_spec fuel p vend s l :
  free_rep s l -> p mod PGSIZE = 0 -> end_ <= p <= KERNBASE + PHYSTOP + PGSIZE ->
  vend <= KERNBASE + PHYSTOP -> (forall q, q ∈ l -> q < p \/ vend <= q) -> (npages p vend <= fuel)%nat ->
  wp (freerange_loop fuel p vend) (fun _ s' => free_rep s' (reverse (pages p (npages p vend)) ++ l) /\
      frame (pages p (npages p vend)) (kmem_mem s) (kmem_mem s') /\ use_lock s' = use_lock s) s.
Proof.
  revert p s l. induction fuel as [|fuel IH]; intros p s l R Hp Hr Hv Hl Hn; cbn [freerange_loop];
    rewrite u32_small by pglia.
  - assert (Hlt : vend < p + PGSIZE) by (unfold npages in Hn; pglia).
    rewrite (proj2 (Z.leb_gt _ _)) by lia. wp_steps. replace (npages p vend) with O by (unfold npages in *; pglia).
    done.
  - destruct (Z.leb_spec (p + PGSIZE) vend) as [Hle|Hgt].
    + wp_steps. eapply wp_mono; [eapply kfree_spec; [exact R| |]|].
      { split; [done|]. pglia. }
      { intros Hx. destruct (Hl _ Hx); pglia. }
      intros [] s1 (R1 & F1 & _ & U1).
      assert (En : npages p vend = S (npages (p + PGSIZE) vend)) by (unfold npages; pglia).
      eapply wp_mono; [apply (IH (p + PGSIZE) s1 (p :: l)); [done|pglia|pglia|done| |lia]|].
      { intros q Hq. apply elem_of_cons in Hq as [->|Hq]; [pglia|]. destruct (Hl _ Hq); pglia. }
      intros [] s2 (R2 & F2 & U2). rewrite En, pages_S, reverse_cons, <- app_assoc. split_and!; [done| |congruence].
      change (p :: ?x) with ([p] ++ x). by eapply frame_app.
    + wp_steps. replace (npages p vend) with O by (unfold npages in *; pglia). done.
Qed.

Lemma freerange_spec vstart vend s l :
  free_rep s l -> end_ <= vstart <= vend -> vend <= KERNBASE + PHYSTOP ->
  (forall q, q ∈ l -> q < vstart \/ vend <= q) ->
  let n := npages (PGROUNDUP vstart) vend in
  wp (freerange vstart vend) (fun _ s' => free_rep s' (reverse (pages (PGROUNDUP vstart) n) ++ l) /\
      use_lock s' = use_lock s) s.
Proof.
  intros R Hs Hv Hl n. pose proof (PGROUNDUP_bounds vstart) as (H1 & H2 & H3); [pglia|].
  eapply wp_mono; [apply freerange_loop_spec; [exact R|done|pglia|done| |]|].
  - intros q Hq. destruct (Hl q Hq); lia.
  - unfold npages. pglia.
  - intros [] s' (R' & _ & U'). done.
Qed.

(** The two calls of [main]: the pages below 4 MB, later the others. *)
Definition kinit : M kmem unit :=
  kinit1 end_ (P2V (4 * 1024 * 1024)) ;; kinit2 (P2V (4 * 1024 * 1024)) (P2V PHYSTOP).

(** Initialisation puts every page of physical memory above the kernel on
    the free list exactly once: [kinit1] and [kinit2] return without a panic,
    and the free list then visits exactly the pages that [kfree] would
    accept. *)
Theorem kinit_all_pages m :
  end_ <= KERNBASE + 0x400000 ->
  wp kinit (fun _ s => use_lock s = true /\ exists l, free_rep s l /\ forall p, p ∈ l <-> page_ok p)
     (mkKmem m 0 false).
Proof.
  intros He. unfold kinit, kinit1, kinit2. wp_steps.
  change (P2V (4 * 1024 * 1024)) with (KERNBASE + 0x400000). change (P2V PHYSTOP) with (KERNBASE + PHYSTOP).
  eapply wp_mono; [eapply (freerange_spec end_ (KERNBASE + 0x400000) _ []); [by split; [|constructor|constructor]|lia|pglia|]|].
  { intros q Hq. by apply elem_of_nil in Hq. }
  intros [] s1 (R1 & U1). cbn beta. rewrite app_nil_r in R1. set (l1 := pages _ _) in *.
  pose proof (PGROUNDUP_bounds end_) as (H1 & H2 & H3); [pglia|]. wp_steps.
  assert (Hl1 : forall q, q ∈ reverse l1 -> q < KERNBASE + 0x400000).
  { intros q Hq. apply elem_of_reverse, elem_of_pages in Hq as (i & Hi & ->). unfold npages in Hi. pglia. }
  eapply wp_mono; [eapply freerange_spec; [exact R1|pglia|lia|]|].
  { intros q Hq. left. by apply Hl1. }
  intros [] s2 (R2 & U2). wp_steps. split; [done|]. change (PGROUNDUP (KERNBASE + 0x400000)) with (KERNBASE + 0x400000) in R2.
  eexists. split; [destruct R2; split; [done..]|]. intros p. rewrite elem_of_app, !elem_of_reverse. unfold l1.
  rewrite !elem_of_pages. unfold page_ok, npages. split.
  - intros [(i & Hi & ->)|(i & Hi & ->)]; pglia.
  - intros [Hm Hr]. destruct (decide (p < KERNBASE + 0x400000)) as [Hlt|Hge].
    + right. assert (PGROUNDUP end_ <= p) by pglia.
      exists (Z.to_nat ((p - PGROUNDUP end_) / PGSIZE)). split; pglia.
    + left. exists (Z.to_nat ((p - (KERNBASE + 0x400000)) / PGSIZE)). split; pglia.
Qed.

(** ** Clients: pages are handed out exclusively *)

(** The allocator and the set of pages its clients own. *)
Definition heap : Type := kmem * gset Z.

Inductive hstep : heap -> heap -> Prop :=
| h_alloc s A r s' : kalloc s = Ok r s' -> r <> 0 -> hstep (s, A) (s', {[r]} ∪ A)
| h_none s A s' : kalloc s = Ok 0 s' -> hstep (s, A) (s', A)
| h_free s A p s' : p ∈ A -> kfree p s = Ok tt s' -> hstep (s, A) (s', A ∖ {[p]})
| h_write s A p m : p ∈ A -> frame [p] (kmem_mem s) m -> hstep (s, A) (mkKmem m (freelist s) (use_lock s), A).

(** Free pages and owned pages partition the pages [P]. *)
Definition hinv (P : gset Z) (h : heap) : Prop :=
  exists l, free_rep h.1 l /\ list_to_set l ## h.2 /\ list_to_set l ∪ h.2 = P /\ set_Forall page_ok P.

Lemma hinv_step P h h' : hinv P h -> hstep h h' -> hinv P h'.
Proof.
  intros (l & R & Hd & Hu & HP) Hst. simpl in *. destruct Hst as [s A r s' Ha Hr|s A s' Ha|s A p s' Hp Hf|s A p m Hp Hf]; simpl in *.
  - pose proof (wp_run _ _ _ _ _ (kalloc_spec s l R) Ha) as (_ & _ & H). destruct l as [|q l]; [by destruct H|].
    destruct H as (-> & Hq & R'). destruct R as [_ Hnd _]. apply NoDup_cons in Hnd as [Hql _].
    exists l. split_and!; [done|set_solver|set_solver|done].
  - pose proof (wp_run _ _ _ _ _ (kalloc_spec s l R) Ha) as (_ & _ & H). destruct l as [|q l].
    + destruct H as [_ ->]. by exists [].
    + destruct H as (<- & Hq & _). pose proof (page_pos 0 Hq). lia.
  - assert (Hpl : p ∉ l) by set_solver. assert (Hpp : page_ok p) by (apply HP; set_solver).
    pose proof (wp_run _ _ _ _ _ (kfree_spec s l p R Hpp Hpl) Hf) as (R' & _).
    exists (p :: l). split_and!; [done|set_solver| |done].
    rewrite list_to_set_cons. apply set_eq. intros x. destruct (decide (x = p)) as [->|]; set_solver.
  - assert (Hpp : page_ok p) by (apply HP; set_solver). exists l. split_and!; try done. destruct R as [Hc Hnd Hl].
    split; simpl; try done. eapply chain_ext; [|exact Hc]. intros q Hq. apply load32_ext. intros i Hi. symmetry.
    apply Hf. intros p' Hp'. apply list_elem_of_singleton in Hp' as ->. rewrite Forall_forall in Hl. specialize (Hl q Hq).
    assert (p <> q) by set_solver. destruct (page_apart p q) as [?|?]; [done..|pglia|pglia].
Qed.

(** C18. Pages are handed out exclusively and none is lost: after any sequence
    of allocations, frees of owned pages and arbitrary writes into owned
    pages, [kalloc] returns a page that nobody owns, leaving memory alone, and
    it returns 0 only when every page is owned; and [kfree] of an owned page
    does not panic and changes no other page. *)
Theorem kalloc_exclusive s0 l0 s A :
  free_rep s0 l0 -> rtc hstep (s0, ∅) (s, A) ->
  wp kalloc (fun r s' => kmem_mem s' = kmem_mem s /\
      ((r = 0 /\ A = list_to_set l0) \/ (r ∈ l0 /\ (r ∉ A) /\ page_ok r))) s /\
  (forall p, p ∈ A -> wp (kfree p) (fun _ s' => frame [p] (kmem_mem s) (kmem_mem s')) s).
Proof.
  intros R0 Hst. assert (I : hinv (list_to_set l0) (s, A)).
  { assert (I0 : hinv (list_to_set l0) (s0, ∅)).
    { exists l0. split_and!; [done|set_solver|set_solver|]. intros x Hx. apply elem_of_list_to_set in Hx.
      destruct R0 as [_ _ Hp]. rewrite Forall_forall in Hp. by apply Hp. }
    revert I0. induction Hst as [|h1 h2 h3 H12 _ IH]; [done|]. intros I0. apply IH. by eapply hinv_step. }
  destruct I as (l & R & Hd & Hu & HP). simpl in *. split.
  - eapply wp_mono; [by apply kalloc_spec|]. intros r s' (Hm & _ & H). split; [done|]. destruct l as [|p l].
    + left. destruct H as [-> _]. split; [done|]. set_solver.
    + right. destruct H as (-> & Hp & _). split_and!; [|set_solver|done].
      apply (elem_of_list_to_set (C := gset Z)). rewrite <- Hu. set_solver.
  - intros p Hp. eapply wp_mono; [eapply kfree_spec; [exact R|apply HP; set_solver|set_solver]|].
    by intros [] s' (_ & F & _).
Qed.
End kalloc.

Lemma kinit_all_pages_witness :
  wp (kinit 0x80115000) (fun _ s => use_lock s = true /\
     exists l, free_rep 0x80115000 s l /\ forall p, p ∈ l <-> page_ok 0x80115000 p) (mkKmem (fun _ => 0) 0 false).
Proof. apply (kinit_all_pages 0x80115000); unfold KERNBASE; lia. Defined.

(** Two free pages, the first of which is then allocated. *)
Definition two_pages : kmem :=
  mkKmem (store32 (fun _ => 0) 0x80201000 0x80200000) 0x80201000 true.

Lemma kalloc_exclusive_witness :
  wp kalloc (fun r _ => (r = 0 /\ {[0x80201000]} = list_to_set [0x80201000; 0x80200000] :> gset Z) \/
                        (r ∈ [0x80201000; 0x80200000] /\ (r ∉ ({[0x80201000]} : gset Z)) /\ page_ok 0x80115000 r))
     (mkKmem (kmem_mem two_pages) 0x80200000 true).
Proof.
  assert (R : free_rep 0x80115000 two_pages [0x80201000; 0x80200000]).
  { split; [vm_compute; auto|apply NoDup_cons; split; [|apply NoDup_singleton]|].
    - rewrite list_elem_of_singleton. lia.
    - repeat constructor; vm_compute; done. }
  assert (St : rtc (hstep 0x80115000) (two_pages, ∅) (mkKmem (kmem_mem two_pages) 0x80200000 true, {[0x80201000]})).
  { replace ({[0x80201000]} : gset Z) with ({[0x80201000]} ∪ ∅ : gset Z) by set_solver.
    apply rtc_once, (h_alloc 0x80115000 two_pages ∅ 0x80201000); [reflexivity|lia]. }
  eapply wp_mono; [apply (proj1 (kalloc_exclusive 0x80115000 ltac:(unfold KERNBASE; lia) _ _ _ _ R St))|].
  intros r s' [_ H]. exact H.
Defined.
