(* ===== verification/Vm.v ===== *)
(** * [vm.c]: page tables in memory.

    A page directory is a page of 1024 words; a present entry holds the
    physical address of a page table, a page of 1024 words again.  The code
    runs on the byte memory and the allocator of [Kalloc]. *)

From stdpp Require Import gmap.
From S2P Require Import Prelude CString Mmu Kalloc.

(** ** Operations *)

Definition ld (a : Z) : M kmem Z := gets (fun s => load32 (kmem_mem s) a).
Definition set_mem (m : mem) (s : kmem) : kmem := mkKmem m (freelist s) (use_lock s).
Definition st (a w : Z) : M kmem unit := modify (fun s => set_mem (store32 (kmem_mem s) a w) s).
Definition kmemset (dst c n : Z) : M kmem unit := modify (fun s => set_mem (memset (kmem_mem s) dst c n) s).
Definition kmemmove (dst src n : Z) : M kmem unit := modify (fun s => set_mem (memmove (kmem_mem s) dst src n) s).

Definition present (e : Z) : bool := negb (Z.land e PTE_P =? 0).

Definition walkpgdir (pgdir va : Z) (alloc : bool) : M kmem Z :=
  let pde := pgdir + 4 * PDX va in
  e ← ld pde;
  if present e then mret (P2V (PTE_ADDR e) + 4 * PTX va)
  else if negb alloc then mret 0
  else
    pgtab ← kalloc;
    if pgtab =? 0 then mret 0 else
    kmemset pgtab 0 PGSIZE ;;
    st pde (Z.lor (Z.lor (Z.lor (V2P pgtab) PTE_P) PTE_W) PTE_U) ;;
    mret (pgtab + 4 * PTX va).

Fixpoint mappages_loop (fuel : nat) (pgdir a last pa perm : Z) : M kmem Z :=
  match fuel with
  | O => outOfFuel
  | S fuel' =>
      pte ← walkpgdir pgdir a true;
      if pte =? 0 then mret (-1) else
      e ← ld pte;
      if present e then panic "remap" else
      st pte (Z.lor (Z.lor pa perm) PTE_P) ;;
      if a =? last then mret 0
      else mappages_loop fuel' pgdir (u32 (a + PGSIZE)) last (u32 (pa + PGSIZE)) perm
  end.

(** One round for each page from [a] to [last]. *)
Definition mappages (pgdir va size pa perm : Z) : M kmem Z :=
  let a := PGROUNDDOWN va in
  let last := PGROUNDDOWN (u32 (va + size - 1)) in
  mappages_loop (S (Z.to_nat (u32 (last - a) / PGSIZE))) pgdir a last pa perm.

Section vm.
(** Linker symbols: [end_], and [data], the start of the writable kernel. *)
Context (end_ data : Z).

Fixpoint deallocuvm_loop (fuel : nat) (pgdir a oldsz : Z) : M kmem unit :=
  if a <? oldsz then
    match fuel with
    | O => outOfFuel
    | S fuel' =>
        pte ← walkpgdir pgdir a false;
        if pte =? 0 then
          deallocuvm_loop fuel' pgdir (u32 (u32 (PGADDR (PDX a + 1) 0 0 - PGSIZE) + PGSIZE)) oldsz
        else
          e ← ld pte;
          (if present e then
             let pa := PTE_ADDR e in
             if pa =? 0 then panic "kfree" else
             kfree end_ (P2V pa) ;;
             st pte 0
           else mret tt) ;;
          deallocuvm_loop fuel' pgdir (u32 (a + PGSIZE)) oldsz
    end
  else mret tt.

(** Each round moves up by at least a page. *)
Definition deallocuvm (pgdir oldsz newsz : Z) : M kmem Z :=
  if oldsz <=? newsz then mret oldsz else
  deallocuvm_loop (Z.to_nat (oldsz / PGSIZE + 1)) pgdir (PGROUNDUP newsz) oldsz ;;
  mret newsz.

Fixpoint allocuvm_loop (fuel : nat) (pgdir a oldsz newsz : Z) : M kmem Z :=
  if a <? newsz then
    match fuel with
    | O => outOfFuel
    | S fuel' =>
        m ← kalloc;
        if m =? 0 then
          deallocuvm pgdir newsz oldsz ;; mret 0
        else
          kmemset m 0 PGSIZE ;;
          r ← mappages pgdir a PGSIZE (V2P m) (Z.lor PTE_W PTE_U);
          if r <? 0 then
            deallocuvm pgdir newsz oldsz ;; kfree end_ m ;; mret 0
          else allocuvm_loop fuel' pgdir (u32 (a + PGSIZE)) oldsz newsz
    end
  else mret newsz.

Definition allocuvm (pgdir oldsz newsz : Z) : M kmem Z :=
  if KERNBASE <=? newsz then mret 0 else
  if newsz <? oldsz then mret oldsz else
  allocuvm_loop (Z.to_nat (newsz / PGSIZE + 1)) pgdir (PGROUNDUP oldsz) oldsz newsz.

Definition freevm (pgdir : Z) : M kmem unit :=
  (if pgdir =? 0 then panic "freevm: no pgdir" else mret tt) ;;
  deallocuvm pgdir KERNBASE 0 ;;
  for_loop (Z.to_nat NPDENTRIES) 0 (fun i =>
    e ← ld (pgdir + 4 * i);
    if present e then kfree end_ (P2V (PTE_ADDR e)) else mret tt) ;;
  kfree end_ pgdir.

(** [kmap]: virtual start, physical start and end, permission. *)
Definition kmap : list (Z * Z * Z * Z) :=
  [ (KERNBASE, 0, EXTMEM, PTE_W);
    (KERNLINK, V2P KERNLINK, V2P data, 0);
    (data, V2P data, PHYSTOP, PTE_W);
    (DEVSPACE, DEVSPACE, 0, PTE_W) ].

Fixpoint setupkvm_loop (ks : list (Z * Z * Z * Z)) (pgdir : Z) : M kmem Z :=
  match ks with
  | [] => mret pgdir
  | (virt, phys_start, phys_end, perm) :: ks' =>
      r ← mappages pgdir virt (u32 (phys_end - phys_start)) phys_start perm;
      if r <? 0 then freevm pgdir ;; mret 0 else setupkvm_loop ks' pgdir
  end.

Definition setupkvm : M kmem Z :=
  pgdir ← kalloc;
  if pgdir =? 0 then mret 0 else
  kmemset pgdir 0 PGSIZE ;;
  if DEVSPACE <? P2V PHYSTOP then panic "PHYSTOP too high" else
  setupkvm_loop kmap pgdir.

(** [init] is the address of the code to load. *)
Definition inituvm (pgdir init sz : Z) : M kmem unit :=
  if PGSIZE <=? sz then panic "inituvm: more than a page" else
  m ← kalloc;
  kmemset m 0 PGSIZE ;;
  mappages pgdir 0 PGSIZE (V2P m) (Z.lor PTE_W PTE_U) ;;
  kmemmove m init sz.

Definition clearpteu (pgdir uva : Z) : M kmem unit :=
  pte ← walkpgdir pgdir uva false;
  if pte =? 0 then panic "clearpteu" else
  e ← ld pte;
  st pte (Z.ldiff e PTE_U).

Fixpoint copyuvm_loop (fuel : nat) (pgdir d i sz : Z) : M kmem Z :=
  if i <? sz then
    match fuel with
    | O => outOfFuel
    | S fuel' =>
        pte ← walkpgdir pgdir i false;
        if pte =? 0 then panic "copyuvm: pte should exist" else
        e ← ld pte;
        if negb (present e) then panic "copyuvm: page not present" else
        m ← kalloc;
        if m =? 0 then freevm d ;; mret 0 else
        kmemmove m (P2V (PTE_ADDR e)) PGSIZE ;;
        r ← mappages d i PGSIZE (V2P m) (PTE_FLAGS e);
        if r <? 0 then kfree end_ m ;; freevm d ;; mret 0
        else copyuvm_loop fuel' pgdir d (u32 (i + PGSIZE)) sz
    end
  else mret d.

Definition copyuvm (pgdir sz : Z) : M kmem Z :=
  d ← setupkvm;
  if d =? 0 then mret 0 else copyuvm_loop (Z.to_nat (sz / PGSIZE + 1)) pgdir d 0 sz.
End vm.

(** The code does not test the result of [walkpgdir]: with no page table it
    dereferences the null pointer. *)
Definition uva2ka (pgdir uva : Z) : M kmem Z :=
  pte ← walkpgdir pgdir uva false;
  if pte =? 0 then fault else
  e ← ld pte;
  if Z.land e PTE_P =? 0 then mret 0 else
  if Z.land e PTE_U =? 0 then mret 0 else
  mret (P2V (PTE_ADDR e)).

(** Kernel memory with the bytes [l] stored from [a] on. *)
Fixpoint store_bytes (m : mem) (a : Z) (l : list Z) : mem :=
  match l with [] => m | b :: l' => store_bytes (store m a b) (a + 1) l' end.
Definition kstore (a : Z) (l : list Z) : M kmem unit := modify (fun s => set_mem (store_bytes (kmem_mem s) a l) s).

(** [src]: the bytes at [buf], which the copy does not overlap. *)
Fixpoint copyout_loop (fuel : nat) (pgdir va : Z) (src : list Z) : M kmem Z :=
  let len := Z.of_nat (length src) in
  if 0 <? len then
    match fuel with
    | O => outOfFuel
    | S fuel' =>
        let va0 := PGROUNDDOWN va in
        pa0 ← uva2ka pgdir va0;
        if pa0 =? 0 then mret (-1) else
        let n := if len <? u32 (PGSIZE - (va - va0)) then len else u32 (PGSIZE - (va - va0)) in
        kstore (pa0 + (va - va0)) (take (Z.to_nat n) src) ;;
        copyout_loop fuel' pgdir (u32 (va0 + PGSIZE)) (drop (Z.to_nat n) src)
    end
  else mret 0.

Definition copyout (pgdir va : Z) (src : list Z) : M kmem Z :=
  copyout_loop (Z.to_nat (Z.of_nat (length src) / PGSIZE + 2)) pgdir va src.

(** ** Page tables as maps *)

Section pagetable.
Context (end_ : Z).
Hypothesis Hend0 : KERNBASE < end_.
Let Hend : KERNBASE <= end_ := Z.lt_le_incl _ _ Hend0.

Abbreviation page_ok := (Kalloc.page_ok end_).
Abbreviation free_rep := (Kalloc.free_rep end_).

(** The page directory at [d] has the page tables [tabs]. *)
Record ptree (m : mem) (d : Z) (tabs : gmap Z Z) : Prop := {
  pt_dir : page_ok d;
  pt_tabs : forall i t, tabs !! i = Some t -> 0 <= i < 1024 /\ page_ok t /\ t <> d;
  pt_inj : forall i j t, tabs !! i = Some t -> tabs !! j = Some t -> i = j;
  pt_pde : forall i, 0 <= i < 1024 ->
    match tabs !! i with
    | Some t => present (load32 m (d + 4 * i)) = true /\ PTE_ADDR (load32 m (d + 4 * i)) = V2P t
    | None => present (load32 m (d + 4 * i)) = false
    end;
}.

(** The page table entry of a virtual address; 0 where there is no table. *)
Definition pte_of (m : mem) (tabs : gmap Z Z) (va : Z) : Z :=
  match tabs !! PDX va with Some t => load32 m (t + 4 * PTX va) | None => 0 end.

(** The pages that make up the tables. *)
Definition table_page (d : Z) (tabs : gmap Z Z) (p : Z) : Prop := p = d \/ exists i, tabs !! i = Some p.

Record vm_rep (s : kmem) (d : Z) (tabs : gmap Z Z) (l : list Z) : Prop := {
  vr_free : free_rep s l;
  vr_tree : ptree (kmem_mem s) d tabs;
  vr_apart : forall p, table_page d tabs p -> p ∉ l;
  vr_bytes : bytes_mem (kmem_mem s);
}.

Lemma V2P_page p : page_ok p -> V2P p = p - KERNBASE /\ P2V (V2P p) = p /\ V2P p mod PGSIZE = 0 /\ 0 <= V2P p < PHYSTOP.
Proof.
  intros [Hp Hr]. unfold V2P, P2V. assert (E : u32 (p - KERNBASE) = p - KERNBASE) by pglia.
  rewrite E. split_and!; pglia.
Qed.

Lemma PDX_range va : 0 <= va < 4294967296 -> 0 <= PDX va < 1024.
Proof. intros H. rewrite PDX_spec by done. Z.to_euclidean_division_equations; lia. Qed.

Lemma PTX_range va : 0 <= va < 4294967296 -> 0 <= PTX va < 1024.
Proof. intros H. rewrite PTX_spec by done. Z.to_euclidean_division_equations; lia. Qed.

(** Words of a page are outside every other page. *)
Lemma word_in_page p q j i :
  page_ok p -> page_ok q -> p <> q -> 0 <= j < 1024 -> 0 <= i < 4 -> p + 4 * j + i < q \/ q + PGSIZE <= p + 4 * j + i.
Proof. intros Hp Hq Hne Hj Hi. destruct (page_apart end_ p q Hp Hq Hne); pglia. Qed.

Lemma load_frame l m m' p j :
  frame l m m' -> page_ok p -> Forall page_ok l -> p ∉ l -> 0 <= j < 1024 ->
  load32 m' (p + 4 * j) = load32 m (p + 4 * j).
Proof.
  intros F Hp Hl Hpl Hj. apply load32_ext. intros i Hi. apply F. intros q Hq.
  rewrite Forall_forall in Hl. specialize (Hl q Hq). apply word_in_page; try done. by intros ->.
Qed.

Lemma load_frame0 l m m' p :
  frame l m m' -> page_ok p -> Forall page_ok l -> p ∉ l -> load32 m' p = load32 m p.
Proof. intros. replace p with (p + 4 * 0) by lia. by eapply load_frame. Qed.

Lemma store_frame m p j w : page_ok p -> 0 <= j < 1024 -> frame [p] m (store32 m (p + 4 * j) w).
Proof.
  intros Hp Hj x Hx. specialize (Hx p (list_elem_of_here _ _)). apply store32_frame. pglia.
Qed.

Lemma memset_frame m p c : frame [p] m (memset m p c PGSIZE).
Proof.
  intros x Hx. specialize (Hx p (list_elem_of_here _ _)). rewrite memset_spec by pglia. zdec.
Qed.

(** The free list does not see changes of pages off it. *)
Lemma free_frame s l q m :
  free_rep s l -> page_ok q -> q ∉ l -> frame [q] (kmem_mem s) m -> free_rep (set_mem m s) l.
Proof.
  intros [Hc Hnd Hp] Hq Hql F. split; simpl; try done. eapply chain_ext; [|exact Hc].
  intros p Hpl. symmetry. rewrite Forall_forall in Hp. eapply load_frame0; [exact F|by apply Hp|by constructor|].
  rewrite list_elem_of_singleton. by intros ->.
Qed.

Lemma walk_found s d tabs l va t alloc :
  vm_rep s d tabs l -> 0 <= va < 4294967296 -> tabs !! PDX va = Some t ->
  walkpgdir d va alloc s = Ok (t + 4 * PTX va) s.
Proof.
  intros [_ T _ _] Hva Ht. pose proof (pt_pde _ _ _ T (PDX va) (PDX_range va Hva)) as H. rewrite Ht in H.
  destruct H as [Hp Ha]. destruct (pt_tabs _ _ _ T _ _ Ht) as (_ & Hok & _).
  unfold walkpgdir, ld, gets, mbind, M_bind. cbn. rewrite Hp, Ha. unfold mret, M_ret.
  by destruct (V2P_page t Hok) as (_ & -> & _).
Qed.

Lemma walk_missing s d tabs l va :
  vm_rep s d tabs l -> 0 <= va < 4294967296 -> tabs !! PDX va = None -> walkpgdir d va false s = Ok 0 s.
Proof.
  intros [_ T _ _] Hva Ht. pose proof (pt_pde _ _ _ T (PDX va) (PDX_range va Hva)) as H. rewrite Ht in H.
  unfold walkpgdir, ld, gets, mbind, M_bind. cbn. by rewrite H.
Qed.

(** A change of one table page away from the directory keeps the tree. *)
Lemma tree_frame m m' d tabs l :
  ptree m d tabs -> frame l m m' -> Forall page_ok l -> d ∉ l -> ptree m' d tabs.
Proof.
  intros [Hd Ht Hi Hp] F Hl Hdl. split; try done. intros i Hi'. specialize (Hp i Hi').
  by rewrite (load_frame l m m' d i F Hd Hl Hdl Hi').
Qed.

Lemma same_page_entry va va' :
  0 <= va < 4294967296 -> 0 <= va' < 4294967296 ->
  (PDX va' = PDX va /\ PTX va' = PTX va) <-> va' / PGSIZE = va / PGSIZE.
Proof.
  intros Ha Hb. split; [intros [? ?]; by apply same_indices|]. intros E. rewrite !PDX_spec, !PTX_spec, E by done.
  split; [|done]. pglia.
Qed.

(** Storing a page table entry. *)
Lemma store_pte s d tabs l va t w :
  vm_rep s d tabs l -> 0 <= va < 4294967296 -> tabs !! PDX va = Some t -> 0 <= w < 4294967296 ->
  let m' := store32 (kmem_mem s) (t + 4 * PTX va) w in
  vm_rep (set_mem m' s) d tabs l /\ frame [t] (kmem_mem s) m' /\
  forall va', 0 <= va' < 4294967296 ->
    pte_of m' tabs va' = if decide (va' / PGSIZE = va / PGSIZE) then w else pte_of (kmem_mem s) tabs va'.
Proof.
  intros [Fr T Hap Hb] Hva Ht Hw m'. destruct (pt_tabs _ _ _ T _ _ Ht) as (_ & Hok & Htd).
  pose proof (PTX_range va Hva) as Hj.
  assert (F : frame [t] (kmem_mem s) m') by by apply store_frame.
  split_and!; [split; simpl|done|].
  - eapply free_frame; try done. apply Hap. right. by exists (PDX va).
  - eapply tree_frame; [exact T|exact F|by constructor|]. rewrite list_elem_of_singleton. congruence.
  - done.
  - by apply bytes_store32.
  - intros va' Hva'. unfold pte_of. destruct (tabs !! PDX va') as [t'|] eqn:Ht'; simpl.
    2: { rewrite decide_False; [done|]. intros E. apply same_page_entry in E as [E _]; [|done..]. congruence. }
    destruct (decide (PDX va' = PDX va)) as [E|Hne].
    + rewrite E in Ht'. assert (t' = t) as -> by congruence. pose proof (PTX_range va' Hva') as Hj'.
      destruct (decide (PTX va' = PTX va)) as [E2|Hne2].
      * rewrite decide_True by (by apply same_page_entry). rewrite E2. unfold m'. by rewrite load32_store32_eq.
      * rewrite decide_False by (intros X; apply same_page_entry in X as [_ ?]; done).
        unfold m'. apply load32_store32_ne. lia.
    + rewrite decide_False by (intros X; apply same_page_entry in X as [? _]; done).
      destruct (pt_tabs _ _ _ T _ _ Ht') as (_ & Hok' & _).
      apply (load_frame [t] (kmem_mem s) m' t'); [done|done|by constructor| |by apply PTX_range].
      rewrite list_elem_of_singleton. intros ->. apply Hne. by eapply (pt_inj _ _ _ T).
Qed.


Lemma memset_load m p j : 0 <= j < 1024 -> load32 (memset m p 0 PGSIZE) (p + 4 * j) = 0.
Proof.
  intros Hj. transitivity (load32 (fun _ => 0) (p + 4 * j)); [|done].
  apply load32_ext. intros i Hi. rewrite memset_spec by pglia. unfold PGSIZE. zdec.
Qed.

(** A directory entry for the table [p]. *)
Lemma pde_entry p :
  page_ok p -> let e := Z.lor (Z.lor (Z.lor (V2P p) PTE_P) PTE_W) PTE_U in
  0 <= e < 4294967296 /\ present e = true /\ PTE_ADDR e = V2P p.
Proof.
  intros Hp e. destruct (V2P_page p Hp) as (_ & _ & Hm & Hr).
  assert (Ee : e = Z.lor (V2P p) 7) by (unfold e; by rewrite <- !Z.lor_assoc).
  destruct (pte_make (V2P p) 7) as (Ha & Hf & He); [pglia|done|pglia|]. rewrite <- Ee in *.
  split; [done|]. split; [|done]. unfold present, PTE_P.
  assert (E1 : Z.land e 1 = 1); [|by rewrite E1].
  rewrite Ee, Z.land_lor_distr_l. change (Z.land 7 1) with 1.
  change 1 with (Z.ones 1) at 1. rewrite Z.land_ones by lia.
  replace (V2P p mod 2 ^ 1) with 0; [done|]. change (2 ^ 1) with 2. pglia.
Qed.

(** The tree with a fresh table. *)
Lemma new_table s d tabs l va p m2 :
  vm_rep s d tabs (p :: l) -> 0 <= va < 4294967296 -> tabs !! PDX va = None ->
  let m1 := memset (kmem_mem s) p 0 PGSIZE in
  m2 = store32 m1 (d + 4 * PDX va) (Z.lor (Z.lor (Z.lor (V2P p) PTE_P) PTE_W) PTE_U) ->
  ptree m2 d (<[PDX va := p]> tabs) /\ frame [d; p] (kmem_mem s) m2 /\
  forall va', 0 <= va' < 4294967296 -> pte_of m2 (<[PDX va := p]> tabs) va' = pte_of (kmem_mem s) tabs va'.
Proof.
  intros [Fr T Hap Hb] Hva Ht m1 ->. destruct Fr as [_ Hnd Hpl]. apply Forall_cons in Hpl as [Hp Hpl].
  destruct T as [Hd Htb Hinj Hpde]. pose proof (PDX_range va Hva) as Hi.
  assert (Hpd : p <> d) by (intros ->; apply (Hap d); [by left|by left]).
  assert (Hpt : forall i t, tabs !! i = Some t -> t <> p).
  { intros i t Hti ->. apply (Hap p); [right; by exists i|by left]. }
  destruct (pde_entry p Hp) as (He & Hpe & Hae). set (e := Z.lor _ PTE_U) in *.
  assert (F1 : frame [p] (kmem_mem s) m1) by apply memset_frame.
  assert (Hz : forall j, 0 <= j < 1024 -> load32 m1 (p + 4 * j) = 0) by (intros; by apply memset_load).
  clearbody m1. assert (F2 : frame [d] m1 (store32 m1 (d + 4 * PDX va) e)) by by apply store_frame.
  assert (F : frame [d; p] (kmem_mem s) (store32 m1 (d + 4 * PDX va) e)).
  { eapply frame_mono; [|by eapply frame_app]. intros q. rewrite elem_of_app, !elem_of_cons. tauto. }
  assert (Hd1 : forall i, 0 <= i < 1024 -> load32 m1 (d + 4 * i) = load32 (kmem_mem s) (d + 4 * i)).
  { intros i Hi'. apply (load_frame [p]); [done|done|by constructor| |done]. by rewrite list_elem_of_singleton. }
  split_and!; [split| |].
  - done.
  - intros i t. destruct (decide (i = PDX va)) as [->|Hne]; [rewrite lookup_insert_eq|rewrite lookup_insert_ne by done].
    + by intros [= <-].
    + apply Htb.
  - intros i j t. rewrite !lookup_insert. repeat case_decide; subst; try congruence; try done.
    + intros [= <-] Hj. by destruct (Hpt _ _ Hj).
    + intros Hj [= <-]. by destruct (Hpt _ _ Hj).
    + apply Hinj.
  - intros i Hi'. destruct (decide (i = PDX va)) as [->|Hne].
    + rewrite lookup_insert_eq, load32_store32_eq by done. done.
    + rewrite lookup_insert_ne by done. rewrite load32_store32_ne by lia. rewrite Hd1 by done. by apply Hpde.
  - exact F.
  - intros va' Hva'. unfold pte_of. pose proof (PTX_range va' Hva') as Hj.
    destruct (decide (PDX va' = PDX va)) as [E|Hne].
    + rewrite E, lookup_insert_eq, Ht. rewrite (load_frame [d] m1); [by apply Hz|done|done|by constructor| |done].
      by rewrite list_elem_of_singleton.
    + rewrite lookup_insert_ne by done. destruct (tabs !! PDX va') as [t|] eqn:Et; [|done].
      destruct (Htb _ _ Et) as (_ & Hok & Htd). apply (load_frame [d; p]); [done|done|by repeat apply Forall_cons_2| |done].
      pose proof (Hpt _ _ Et). rewrite !not_elem_of_cons. by split_and!; [| |apply not_elem_of_nil].
Qed.

(** Tables only get added: the new ones come off the free list, and memory
    outside the tables is left alone. *)
Record grows (d : Z) (s : kmem) (tabs : gmap Z Z) (l : list Z) (s' : kmem) (tabs' : gmap Z Z) (l' : list Z) : Prop := {
  g_sub : tabs ⊆ tabs';
  g_free : exists new, l = new ++ l' /\
    (forall i p, tabs' !! i = Some p -> tabs !! i = Some p \/ p ∈ new) /\
    (forall p, p ∈ new -> exists i, tabs' !! i = Some p);
  g_frame : forall x, (forall p, table_page d tabs' p -> x < p \/ p + PGSIZE <= x) -> kmem_mem s' x = kmem_mem s x;
  g_lock : use_lock s' = use_lock s;
}.

Lemma grows_refl d s tabs l : grows d s tabs l s tabs l.
Proof.
  split; try done. exists []. split_and!; [done|by left|]. intros p Hp. by apply elem_of_nil in Hp.
Qed.

Lemma grows_trans d s1 t1 l1 s2 t2 l2 s3 t3 l3 :
  grows d s1 t1 l1 s2 t2 l2 -> grows d s2 t2 l2 s3 t3 l3 -> grows d s1 t1 l1 s3 t3 l3.
Proof.
  intros [S1 (n1 & -> & A1 & B1) F1 U1] [S2 (n2 & -> & A2 & B2) F2 U2]. split; [by etrans| | |congruence].
  - exists (n1 ++ n2). split_and!; [by rewrite app_assoc| |].
    + intros i p Hp. destruct (A2 i p Hp) as [Hp'|?]; [|set_solver]. destruct (A1 i p Hp'); set_solver.
    + intros p Hp. apply elem_of_app in Hp as [Hp|Hp]; [|by apply B2]. destruct (B1 p Hp) as [i Hi]. exists i.
      by eapply lookup_weaken.
  - intros x Hx. rewrite F2 by done. apply F1. intros p Hp. apply Hx. destruct Hp as [->|[i Hi]]; [by left|right].
    exists i. by eapply lookup_weaken.
Qed.

(** Storing an entry is growth by nothing. *)
Lemma grows_store d s tabs l va t m' :
  tabs !! PDX va = Some t -> frame [t] (kmem_mem s) m' -> grows d s tabs l (set_mem m' s) tabs l.
Proof.
  intros Ht F. destruct (grows_refl d s tabs l) as [S Fr _ _]. split; try done. intros x Hx. apply F.
  intros p Hp. apply list_elem_of_singleton in Hp as ->. apply Hx. right. by exists (PDX va).
Qed.

Lemma walk_alloc s d tabs l va :
  vm_rep s d tabs l -> 0 <= va < 4294967296 ->
  wp (walkpgdir d va true) (fun r s' =>
    (r = 0 /\ l = [] /\ s' = s) \/
    exists tabs' l' t, r = t + 4 * PTX va /\ tabs' !! PDX va = Some t /\ vm_rep s' d tabs' l' /\
      grows d s tabs l s' tabs' l' /\
      forall va', 0 <= va' < 4294967296 -> pte_of (kmem_mem s') tabs' va' = pte_of (kmem_mem s) tabs va') s.
Proof.
  intros V Hva. destruct (tabs !! PDX va) as [t|] eqn:Ht.
  { unfold wp. rewrite (walk_found _ _ _ _ _ _ true V Hva Ht). right. exists tabs, l, t. split_and!; try done. apply grows_refl. }
  pose proof V as [Fr T Hap Hb]. pose proof (pt_pde _ _ _ T (PDX va) (PDX_range va Hva)) as He. rewrite Ht in He.
  unfold walkpgdir, ld. wp_steps. rewrite He. cbn [negb]. wp_steps.
  eapply wp_mono; [eapply kalloc_spec; [exact Hend|exact Fr]|]. intros r s1 (Hm1 & Hu1 & H1). destruct l as [|p l].
  { destruct H1 as [-> ->]. cbn. wp_steps. by left. }
  destruct H1 as (-> & Hp & Fr1). pose proof (page_pos end_ Hend p Hp). rewrite (proj2 (Z.eqb_neq _ _)) by lia.
  unfold kmemset, st. wp_steps. right. set (s2 := set_mem _ _).
  destruct (new_table s d tabs l va p (kmem_mem s2) V Hva Ht) as (T2 & F2 & P2); [unfold s2; simpl; by rewrite Hm1|].
  destruct (vr_free _ _ _ _ V) as [_ Hnd _]. apply NoDup_cons in Hnd as [Hpl _].
  assert (Hdl : d ∉ l) by (intros Hd; apply (Hap d); [by left|by right]).
  exists (<[PDX va := p]> tabs), l, p. split; [done|]. split; [by rewrite lookup_insert_eq|]. split_and!; [split| |done].
  - unfold s2. simpl. rewrite Hm1. set (m1 := memset _ _ _ _).
    assert (Fr2 : free_rep (set_mem m1 s1) l).
    { eapply free_frame; [exact Fr1|exact Hp|done|]. unfold m1. rewrite Hm1. apply memset_frame. }
    eapply (free_frame (set_mem m1 s1)); [exact Fr2|apply (pt_dir _ _ _ T)|done|]. simpl.
    apply store_frame; [apply (pt_dir _ _ _ T)|by apply PDX_range].
  - exact T2.
  - intros q [->|[i Hi]]; [done|]. destruct (decide (i = PDX va)) as [->|Hne].
    + rewrite lookup_insert_eq in Hi. by injection Hi as <-.
    + rewrite lookup_insert_ne in Hi by done. intros Hq. apply (Hap q); [right; by exists i|by right].
  - unfold s2. simpl. apply bytes_store32, bytes_memset; [by rewrite Hm1|pglia].
  - split; [by apply insert_subseteq| | |done].
    + exists [p]. split; [done|]. split.
      * intros i q. rewrite lookup_insert. case_decide; [|by left]. intros [= <-]. right. by apply list_elem_of_singleton.
      * intros q Hq. apply list_elem_of_singleton in Hq as ->. exists (PDX va). by rewrite lookup_insert_eq.
    + intros x Hx. apply F2. intros q Hq. apply Hx. rewrite !elem_of_cons in Hq. destruct Hq as [->|[->|Hq]].
      * by left.
      * right. exists (PDX va). by rewrite lookup_insert_eq.
      * by apply elem_of_nil in Hq.
Qed.

(** The entries after mapping the first [k] pages from [a] to [pa]. *)
Definition mapped (old : Z -> Z) (a pa perm : Z) (k : Z) (va : Z) : Z :=
  let i := va / PGSIZE - a / PGSIZE in
  if (0 <=? i) && (i <? k) then Z.lor (Z.lor (pa + PGSIZE * i) perm) PTE_P else old va.

Lemma flags_range perm : 0 <= perm < PGSIZE -> 0 <= Z.lor perm PTE_P < PGSIZE.
Proof.
  intros Hp. change PGSIZE with (2 ^ 12) in *.
  assert (H0 : 0 <= Z.lor perm PTE_P) by (apply Z.lor_nonneg; unfold PTE_P; lia). split; [done|].
  destruct (decide (Z.lor perm PTE_P = 0)) as [->|Hne]; [done|].
  apply Z.log2_lt_pow2; [lia|]. rewrite Z.log2_lor by (unfold PTE_P; lia). apply Z.max_lub_lt; [|done].
  destruct (decide (perm = 0)) as [->|]; [done|]. apply Z.log2_lt_pow2; lia.
Qed.

(** The entry [pa | perm | PTE_P]. *)
Lemma entry_range pa perm :
  0 <= pa < 4294967296 -> pa mod PGSIZE = 0 -> 0 <= perm < PGSIZE ->
  let e := Z.lor (Z.lor pa perm) PTE_P in
  0 <= e < 4294967296 /\ present e = true /\ PTE_ADDR e = pa /\ PTE_FLAGS e = Z.lor perm PTE_P.
Proof.
  intros Hr Hm Hp. cbn zeta. rewrite <- Z.lor_assoc. pose proof (flags_range perm Hp) as Hf.
  destruct (pte_make pa (Z.lor perm PTE_P)) as (Ha & Hfl & ?); [done..|]. split; [done|]. split; [|done].
  unfold present. rewrite !Z.land_lor_distr_l. change (Z.land PTE_P PTE_P) with 1.
  assert (E : Z.lor (Z.land pa PTE_P) (Z.lor (Z.land perm PTE_P) 1) <> 0).
  { rewrite Z.lor_eq_0_iff, Z.lor_eq_0_iff. lia. }
  by rewrite (proj2 (Z.eqb_neq _ _) E).
Qed.

Lemma mappages_loop_spec n fuel s d tabs l a pa perm :
  vm_rep s d tabs l -> a mod PGSIZE = 0 -> 0 <= a -> a + PGSIZE * Z.of_nat (S n) <= 4294967296 ->
  pa mod PGSIZE = 0 -> 0 <= pa -> pa + PGSIZE * Z.of_nat (S n) <= 4294967296 -> 0 <= perm < PGSIZE -> (n < fuel)%nat ->
  (forall i, 0 <= i <= Z.of_nat n -> present (pte_of (kmem_mem s) tabs (a + PGSIZE * i)) = false) ->
  wp (mappages_loop fuel d a (a + PGSIZE * Z.of_nat n) pa perm) (fun r s' => exists tabs' l' k,
    vm_rep s' d tabs' l' /\ grows d s tabs l s' tabs' l' /\
    (r = 0 /\ k = Z.of_nat (S n) \/ r = -1 /\ 0 <= k <= Z.of_nat n /\ l' = []) /\
    forall va, 0 <= va < 4294967296 ->
      pte_of (kmem_mem s') tabs' va = mapped (pte_of (kmem_mem s) tabs) a pa perm k va) s.
Proof.
  revert fuel s tabs l a pa. induction n as [|n IH]; intros fuel s tabs l a pa V Ham Ha0 Ha Hpm Hp0 Hpa Hperm Hf Hnp;
    (destruct fuel as [|fuel]; [lia|]); cbn [mappages_loop]; wp_steps;
    (eapply wp_mono; [eapply walk_alloc; [exact V|pglia]|]).
  all: intros r s1 [(-> & -> & ->)|(tabs1 & l1 & t & -> & Ht1 & V1 & G1 & P1)];
    [cbn; wp_steps; exists tabs, [], 0; split_and!; [done|apply grows_refl|right; split_and!; done || lia|];
     intros va Hva; unfold mapped; zdec|].
  all: destruct (pt_tabs _ _ _ (vr_tree _ _ _ _ V1) _ _ Ht1) as (_ & Hok & _); pose proof (page_pos end_ Hend t Hok);
    assert (Hra : 0 <= a < 4294967296) by pglia; pose proof (PTX_range a Hra);
    rewrite (proj2 (Z.eqb_neq _ _)) by lia; unfold ld; wp_steps.
  all: assert (Hnp0 : present (load32 (kmem_mem s1) (t + 4 * PTX a)) = false)
    by (specialize (Hnp 0 ltac:(lia)); rewrite Z.mul_0_r, Z.add_0_r, <- P1 in Hnp by done;
        unfold pte_of in Hnp; by rewrite Ht1 in Hnp).
  all: rewrite Hnp0; unfold st; wp_steps; destruct (entry_range pa perm) as [Hw _]; [pglia|done|done|];
    set (w := Z.lor (Z.lor pa perm) PTE_P) in *;
    destruct (store_pte s1 d tabs1 l1 a t w V1 Hra Ht1 Hw) as (V2 & F2 & P2);
    set (s2 := set_mem _ s1) in *;
    assert (G2 : grows d s tabs l s2 tabs1 l1) by (eapply grows_trans; [exact G1|by eapply grows_store]).
  - rewrite Z.mul_0_r, Z.add_0_r, Z.eqb_refl. wp_steps. exists tabs1, l1, 1. split_and!; [done|done|by left|].
    intros va Hva. rewrite P2 by done. unfold mapped. destruct (decide (va / PGSIZE = a / PGSIZE)) as [E|Hne].
    + rewrite E, Z.sub_diag, Z.mul_0_r, Z.add_0_r. done.
    + rewrite P1 by done. zdec.
  - rewrite (proj2 (Z.eqb_neq _ _)) by pglia. rewrite !u32_small by pglia.
    replace (a + PGSIZE * Z.of_nat (S n)) with (a + PGSIZE + PGSIZE * Z.of_nat n) by lia.
    eapply wp_mono; [apply (IH fuel s2 tabs1 l1 (a + PGSIZE) (pa + PGSIZE) V2); try pglia|].
    + intros i Hi. rewrite P2 by pglia. rewrite decide_False by pglia. rewrite P1 by pglia.
      replace (a + PGSIZE + PGSIZE * i) with (a + PGSIZE * (i + 1)) by lia. apply Hnp. lia.
    + intros r s3 (tabs3 & l3 & k & V3 & G3 & Hr & P3). exists tabs3, l3, (k + 1).
      split_and!; [done|by eapply grows_trans|destruct Hr as [?|(? & ? & ->)]; [left; lia|right; split_and!; done || lia]|].
      intros va Hva. rewrite P3 by done. unfold mapped.
      replace ((a + PGSIZE) / PGSIZE) with (a / PGSIZE + 1) by pglia.
      destruct (decide (va / PGSIZE = a / PGSIZE)) as [E|Hne].
      * rewrite P2, decide_True by done. rewrite E. unfold w. zdec. by rewrite Z.sub_diag, Z.mul_0_r, Z.add_0_r.
      * rewrite P2, decide_False, P1 by done. zdec. do 2 f_equal. lia.
Qed.

(** ** Allocating and freeing beside the tables *)

Lemma pte_frame m m' d tabs l va :
  ptree m d tabs -> frame l m m' -> Forall page_ok l -> (forall p, p ∈ l -> ~ table_page d tabs p) ->
  0 <= va < 4294967296 -> pte_of m' tabs va = pte_of m tabs va.
Proof.
  intros T F Hl Hnt Hva. unfold pte_of. destruct (tabs !! PDX va) as [t|] eqn:Ht; [|done].
  destruct (pt_tabs _ _ _ T _ _ Ht) as (_ & Hok & _).
  eapply load_frame; try done; [|by apply PTX_range]. intros Hx. apply (Hnt t Hx). right. by exists (PDX va).
Qed.

Lemma vm_kfree s d tabs l p :
  vm_rep s d tabs l -> page_ok p -> p ∉ l -> ~ table_page d tabs p ->
  wp (kfree end_ p) (fun _ s' => vm_rep s' d tabs (p :: l) /\ frame [p] (kmem_mem s) (kmem_mem s') /\
     use_lock s' = use_lock s /\
     forall va, 0 <= va < 4294967296 -> pte_of (kmem_mem s') tabs va = pte_of (kmem_mem s) tabs va) s.
Proof.
  intros [Fr T Hap Hb] Hp Hpl Hnt.
  assert (Hby : wp (kfree end_ p) (fun _ s' => bytes_mem (kmem_mem s')) s).
  { unfold kfree. wp_steps. pose proof (kfree_spec end_ Hend s l p Fr Hp Hpl) as W. unfold kfree in W.
    unfold wp, mbind, M_bind, get in W. destruct (negb _ || _ || _); [done|]. wp_steps. simpl.
    apply bytes_store32, bytes_memset; [done|pglia]. }
  destruct (wp_returns _ _ _ (kfree_spec end_ Hend s l p Fr Hp Hpl)) as ([] & s' & E & Fr' & F & _ & U).
  unfold wp in *. rewrite E in *. 
  assert (Hfl : Forall page_ok [p]) by (by apply Forall_cons_2).
  assert (Hnt' : forall q, q ∈ [p] -> ~ table_page d tabs q) by (by intros q ->%list_elem_of_singleton).
  split_and!; [split|done|done|].
  - done.
  - eapply tree_frame; [exact T|exact F|done|]. intros Hd. apply (Hnt' d Hd). by left.
  - intros q Hq [->|Hql]%elem_of_cons; [done|by apply (Hap q)].
  - done.
  - intros va Hva. by eapply pte_frame.
Qed.

Lemma vm_kalloc s d tabs l :
  vm_rep s d tabs l ->
  wp kalloc (fun r s' => kmem_mem s' = kmem_mem s /\ use_lock s' = use_lock s /\
     match l with
     | [] => r = 0 /\ s' = s
     | p :: l' => r = p /\ page_ok p /\ (p ∉ l') /\ ~ table_page d tabs p /\ vm_rep s' d tabs l'
     end) s.
Proof.
  intros [Fr T Hap Hb]. eapply wp_mono; [by eapply kalloc_spec|]. intros r s' (Hm & Hu & H).
  split_and!; [done|done|]. destruct l as [|p l]; [done|]. destruct H as (-> & Hp & Fr').
  destruct Fr as [_ Hnd _]. apply NoDup_cons in Hnd as [Hpl _]. split_and!; try done.
  - intros Ht. apply (Hap p Ht). by left.
  - split; rewrite ?Hm; try done. intros q Hq Hql. apply (Hap q Hq). by right.
Qed.

Lemma vm_memset s d tabs l p c :
  vm_rep s d tabs l -> page_ok p -> p ∉ l -> ~ table_page d tabs p ->
  let m' := memset (kmem_mem s) p c PGSIZE in
  vm_rep (set_mem m' s) d tabs l /\ frame [p] (kmem_mem s) m' /\
  forall va, 0 <= va < 4294967296 -> pte_of m' tabs va = pte_of (kmem_mem s) tabs va.
Proof.
  intros [Fr T Hap Hb] Hp Hpl Hnt m'.
  assert (F : frame [p] (kmem_mem s) m') by apply memset_frame.
  assert (Hfl : Forall page_ok [p]) by (by apply Forall_cons_2).
  assert (Hnt' : forall q, q ∈ [p] -> ~ table_page d tabs q) by (by intros q ->%list_elem_of_singleton).
  assert (Hb' : bytes_mem m') by (apply bytes_memset; [done|pglia]). clearbody m'.
  split_and!; [split; simpl|done|].
  - by eapply free_frame.
  - eapply tree_frame; [exact T|exact F|done|]. intros Hd. apply (Hnt' d Hd). by left.
  - done.
  - done.
  - intros va Hva. by eapply pte_frame.
Qed.

(** ** User address spaces *)

Definition NUSER : Z := KERNBASE / PGSIZE.

(** The user part of the tables maps page number [v] to the page [U !! v]. *)
Record as_rep (s : kmem) (d : Z) (tabs U : gmap Z Z) (l : list Z) : Prop := {
  as_vm : vm_rep s d tabs l;
  as_map : forall v, 0 <= v < NUSER ->
    match U !! v with
    | Some p => present (pte_of (kmem_mem s) tabs (PGSIZE * v)) = true /\
                PTE_ADDR (pte_of (kmem_mem s) tabs (PGSIZE * v)) = V2P p
    | None => present (pte_of (kmem_mem s) tabs (PGSIZE * v)) = false
    end;
  as_pages : forall v p, U !! v = Some p -> 0 <= v < NUSER /\ page_ok p /\ (p ∉ l) /\ ~ table_page d tabs p;
  as_inj : forall v w p, U !! v = Some p -> U !! w = Some p -> v = w;
}.

Lemma user_va v : 0 <= v < NUSER -> 0 <= PGSIZE * v < KERNBASE.
Proof. unfold NUSER. pglia. Qed.

Lemma present_0 : present 0 = false.
Proof. done. Qed.

Lemma user_table s d tabs U l v p :
  as_rep s d tabs U l -> U !! v = Some p -> exists t, tabs !! PDX (PGSIZE * v) = Some t.
Proof.
  intros A Hv. destruct (as_pages _ _ _ _ _ A _ _ Hv) as (Hr & _).
  pose proof (as_map _ _ _ _ _ A v Hr) as H. rewrite Hv in H. destruct H as [H _]. unfold pte_of in H.
  destruct (tabs !! PDX (PGSIZE * v)); [by eexists|]. by rewrite present_0 in H.
Qed.

(** Memory outside tables, and outside the pages [fr], is the same. *)
Definition mem_same (d : Z) (tabs : gmap Z Z) (fr : list Z) (m m' : mem) : Prop :=
  forall x, (forall p, table_page d tabs p \/ p ∈ fr -> x < p \/ p + PGSIZE <= x) -> m' x = m x.

(** Freeing the page mapped at [v] and clearing its entry. *)
Lemma unmap_page s d tabs U l v p t (Q : unit -> kmem -> Prop) :
  as_rep s d tabs U l -> U !! v = Some p -> tabs !! PDX (PGSIZE * v) = Some t ->
  (forall s', as_rep s' d tabs (delete v U) (p :: l) -> mem_same d tabs [p] (kmem_mem s) (kmem_mem s') ->
     use_lock s' = use_lock s -> Q tt s') ->
  wp (kfree end_ p ;; st (t + 4 * PTX (PGSIZE * v)) 0) Q s.
Proof.
  intros [V Hm Hp Hi] Hv Ht HQ. destruct (Hp _ _ Hv) as (Hr & Hok & Hpl & Hnt). pose proof (user_va v Hr) as Hva.
  wp_steps. eapply wp_mono; [by apply (vm_kfree s d tabs l p)|]. intros [] s1 (V1 & F1 & U1 & P1).
  assert (Hva' : 0 <= PGSIZE * v < 4294967296) by (unfold KERNBASE in Hva; lia).
  unfold st. wp_steps. destruct (store_pte s1 d tabs (p :: l) (PGSIZE * v) t 0 V1 Hva' Ht) as (V2 & F2 & P2); [lia|].
  apply HQ; [|intros x Hx|done].
  - split; [done|..].
    + intros w Hw. simpl. pose proof (user_va w Hw). rewrite P2 by (unfold KERNBASE in *; lia).
      rewrite lookup_delete. case_decide as E.
      * subst w. by rewrite decide_True.
      * rewrite decide_False by pglia. rewrite P1 by (unfold KERNBASE in *; lia). by apply Hm.
    + intros w q. rewrite lookup_delete. case_decide as E; [done|]. intros Hw.
      destruct (Hp _ _ Hw) as (H1 & H2 & H3 & H4). split_and!; try done; [apply H1..|].
      rewrite not_elem_of_cons. split; [|done]. intros ->. apply E. by eapply Hi.
    + intros w w' q. rewrite !lookup_delete. repeat case_decide; try done. apply Hi.
  - simpl. rewrite F2, F1; [done|..]; intros q ->%list_elem_of_singleton; apply Hx.
    + right. by apply list_elem_of_singleton.
    + left. right. by exists (PDX (PGSIZE * v)).
Qed.

Lemma mem_same_trans d tabs f1 f2 m1 m2 m3 :
  mem_same d tabs f1 m1 m2 -> mem_same d tabs f2 m2 m3 -> mem_same d tabs (f2 ++ f1) m1 m3.
Proof.
  intros H1 H2 x Hx. rewrite H2, H1; [done|..]; intros p [Hp|Hp]; apply Hx; [by left|right|by left|right]; apply elem_of_app; tauto.
Qed.

Lemma PGADDR_next a : 0 <= a < KERNBASE -> PGADDR (PDX a + 1) 0 0 = 4194304 * (a / 4194304 + 1).
Proof.
  intros Ha. unfold PGADDR, PDXSHIFT, PTXSHIFT. rewrite PDX_spec by pglia.
  rewrite Z.shiftl_0_l, !Z.lor_0_r, Z.shiftl_mul_pow2 by lia. change (2 ^ 22) with 4194304. pglia.
Qed.

(** Removing the entries of [U] from [a] up to [oldsz] freed the pages [fr]. *)
Definition removed (a oldsz : Z) (U U' : gmap Z Z) (fr : list Z) : Prop :=
  (forall v, U' !! v = if decide (a <= PGSIZE * v < oldsz) then None else U !! v) /\
  (forall p, p ∈ fr <-> exists v, a <= PGSIZE * v < oldsz /\ U !! v = Some p).

Lemma removed_none a oldsz U : oldsz <= a -> removed a oldsz U U [].
Proof.
  intros H. split; [intros v; by rewrite decide_False by lia|]. intros p.
  split; [intros Hp; by apply elem_of_nil in Hp|]. intros (v & ? & _). lia.
Qed.

(** Skipping numbers that are not mapped. *)
Lemma removed_skip a a' oldsz U U' fr :
  a <= a' -> (forall v, a <= PGSIZE * v < a' -> PGSIZE * v < oldsz -> U !! v = None) ->
  removed a' oldsz U U' fr -> removed a oldsz U U' fr.
Proof.
  intros Ha Hn [H1 H2]. split.
  - intros v. rewrite H1. repeat case_decide; try done; [lia|]. apply Hn; lia.
  - intros p. rewrite H2. split; intros (v & Hv & Hp); exists v; (split; [|done]).
    + lia.
    + destruct (decide (PGSIZE * v < a')); [|lia]. rewrite Hn in Hp by lia. done.
Qed.

Lemma removed_one a oldsz U U' fr p :
  a mod PGSIZE = 0 -> a < oldsz -> U !! (a / PGSIZE) = Some p ->
  removed (a + PGSIZE) oldsz (delete (a / PGSIZE) U) U' fr -> removed a oldsz U U' (fr ++ [p]).
Proof.
  intros Ham Hlt Hp [H1 H2]. assert (Ha : PGSIZE * (a / PGSIZE) = a) by pglia. split.
  - intros v. rewrite H1, lookup_delete. destruct (decide (v = a / PGSIZE)) as [->|Hne].
    + rewrite (decide_True (P := a / PGSIZE = a / PGSIZE)) by done. rewrite Ha, (decide_True (P := a <= a < oldsz)) by lia.
      by case_decide.
    + rewrite (decide_False (P := a / PGSIZE = v)) by congruence. repeat case_decide; try done; exfalso; pglia.
  - intros q. rewrite elem_of_app, H2, list_elem_of_singleton. split.
    + intros [(v & Hv & Hq)| ->]; [|exists (a / PGSIZE); split; [lia|done]].
      apply lookup_delete_Some in Hq as [_ Hq]. exists v. split; [pglia|done].
    + intros (v & Hv & Hq). destruct (decide (v = a / PGSIZE)) as [->|Hne]; [right; congruence|left].
      exists v. rewrite lookup_delete_ne by congruence. split; [pglia|done].
Qed.

Definition dealloc_post (d : Z) (tabs U : gmap Z Z) (l : list Z) (a oldsz : Z) (s s' : kmem) : Prop :=
  exists U' fr, as_rep s' d tabs U' (fr ++ l) /\ mem_same d tabs fr (kmem_mem s) (kmem_mem s') /\
    use_lock s' = use_lock s /\ removed a oldsz U U' fr.

Lemma deallocuvm_loop_spec fuel s d tabs U l a oldsz :
  as_rep s d tabs U l -> a mod PGSIZE = 0 -> 0 <= a -> oldsz <= KERNBASE ->
  (oldsz <= a \/ (oldsz - a - 1) / PGSIZE < Z.of_nat fuel) ->
  wp (deallocuvm_loop end_ fuel d a oldsz) (fun _ => dealloc_post d tabs U l a oldsz s) s.
Proof.
  revert s U l a. induction fuel as [|fuel IH]; intros s U l a A Ham Ha Hold Hf; cbn [deallocuvm_loop];
    (destruct (Z.ltb_spec a oldsz) as [Hlt|Hge];
     [|wp_steps; exists U, []; split_and!; [done|done|done|by apply removed_none]]); [exfalso; pglia|].
  destruct Hf as [?|Hf]; [lia|]. assert (Hva : 0 <= a < 4294967296) by pglia.
  set (v := a / PGSIZE) in *. assert (Hav : a = PGSIZE * v) by (unfold v; pglia).
  assert (Hv : 0 <= v < NUSER) by (unfold v, NUSER; pglia).
  pose proof (as_vm _ _ _ _ _ A) as V. pose proof (as_map _ _ _ _ _ A v Hv) as Hm. rewrite <- Hav in Hm.
  wp_steps. destruct (tabs !! PDX a) as [t|] eqn:Ht.
  - unfold wp at 1. rewrite (walk_found _ _ _ _ _ _ false V Hva Ht).
    destruct (pt_tabs _ _ _ (vr_tree _ _ _ _ V) _ _ Ht) as (_ & Hok & _). pose proof (page_pos end_ Hend t Hok).
    pose proof (PTX_range a Hva). rewrite (proj2 (Z.eqb_neq _ _)) by lia. unfold ld. wp_steps.
    assert (Ee : load32 (kmem_mem s) (t + 4 * PTX a) = pte_of (kmem_mem s) tabs a) by (unfold pte_of; by rewrite Ht).
    rewrite Ee, u32_small by pglia. destruct (U !! v) as [p|] eqn:Hp.
    + destruct Hm as [-> ->]. destruct (as_pages _ _ _ _ _ A _ _ Hp) as (_ & Hpok & _).
      destruct (V2P_page p Hpok) as (E1 & -> & _). rewrite E1, (proj2 (Z.eqb_neq _ _)) by (destruct Hpok; lia).
      pose proof (fun Q => unmap_page s d tabs U l v p t Q A Hp) as W. rewrite <- Hav in W.
      cbv beta iota zeta. apply (W _ Ht). intros s1 A1 F1 U1.
      eapply wp_mono; [apply (IH s1 (delete v U) (p :: l) (a + PGSIZE)); [done|pglia|pglia|done|pglia]|].
      intros [] s2 (U2 & fr & A2 & F2 & L2 & Rm). exists U2, (fr ++ [p]). rewrite <- app_assoc.
      split_and!; [done|by eapply mem_same_trans|congruence|by apply removed_one].
    + rewrite Hm. wp_steps. eapply wp_mono; [apply (IH s U l (a + PGSIZE)); [done|pglia|pglia|done|pglia]|].
      intros [] s2 (U2 & fr & A2 & F2 & L2 & Rm). exists U2, fr. split_and!; try done.
      eapply removed_skip; [|intros w Hw _|exact Rm]; [pglia|]. by replace w with v by (unfold v; pglia).
  - unfold wp at 1. rewrite (walk_missing _ _ _ _ _ V Hva Ht). cbn. rewrite PGADDR_next by lia.
    set (a' := 4194304 * (a / 4194304 + 1)).
    assert (Ea : u32 (u32 (a' - PGSIZE) + PGSIZE) = a') by (unfold a'; pglia). rewrite Ea.
    eapply wp_mono; [apply (IH s U l a'); [done|unfold a'; pglia|unfold a'; pglia|done|unfold a'; pglia]|].
    intros [] s2 (U2 & fr & A2 & F2 & L2 & Rm). exists U2, fr. split_and!; try done.
    eapply removed_skip; [|intros w Hw Hw2|exact Rm]; [unfold a'; pglia|].
    destruct (U !! w) as [p|] eqn:Hp; [|done]. destruct (user_table _ _ _ _ _ _ _ A Hp) as [t Ht'].
    assert (PDX (PGSIZE * w) = PDX a); [|congruence]. rewrite !PDX_spec by pglia. unfold a' in Hw. pglia.
Qed.

Lemma deallocuvm_ok s d tabs U l oldsz newsz :
  as_rep s d tabs U l -> 0 <= newsz <= KERNBASE -> oldsz <= KERNBASE ->
  wp (deallocuvm end_ d oldsz newsz) (fun r s' => r = (if oldsz <=? newsz then oldsz else newsz) /\
     dealloc_post d tabs U l (PGROUNDUP newsz) oldsz s s') s.
Proof.
  intros A Hn Ho. unfold deallocuvm. pose proof (PGROUNDUP_bounds newsz) as (H1 & H2 & H3); [pglia|].
  destruct (Z.leb_spec oldsz newsz).
  - wp_steps. split; [done|]. exists U, []. split_and!; [done|done|done|]. apply removed_none. lia.
  - wp_steps. eapply wp_mono; [apply deallocuvm_loop_spec; [exact A|done|lia|done|right; pglia]|].
    intros [] s' P. wp_steps. done.
Qed.

(** C29. [deallocuvm] shrinks an address space exactly: every user page from
    the new size (rounded up) to the old size is unmapped and returned to the
    free list, every other mapping and the contents of every other page stay,
    and the call returns the new size; it neither loops nor panics, whether
    or not the range has page tables. *)
Theorem deallocuvm_spec s d tabs U l oldsz newsz :
  as_rep s d tabs U l -> 0 <= newsz <= KERNBASE -> oldsz <= KERNBASE ->
  wp (deallocuvm end_ d oldsz newsz) (fun r s' => r = (if oldsz <=? newsz then oldsz else newsz) /\
     dealloc_post d tabs U l (PGROUNDUP newsz) oldsz s s') s.
Proof. apply deallocuvm_ok. Qed.

(** Pages off the free list and the tables stay so when tables grow. *)
Lemma grows_apart d s tabs l s' tabs' l' q :
  grows d s tabs l s' tabs' l' -> q ∉ l -> ~ table_page d tabs q -> (q ∉ l') /\ ~ table_page d tabs' q.
Proof.
  intros G Hq Hqt. destruct (g_free _ _ _ _ _ _ _ G) as (new & -> & Hnew & _). rewrite not_elem_of_app in Hq.
  destruct Hq as [Hqn Hql]. split; [done|]. intros [->|[i Hi]]; [apply Hqt; by left|].
  destruct (Hnew _ _ Hi) as [?|?]; [|done]. apply Hqt. right. by exists i.
Qed.

Lemma as_grow s d tabs U l s' tabs' l' :
  as_rep s d tabs U l -> vm_rep s' d tabs' l' -> grows d s tabs l s' tabs' l' ->
  (forall w, 0 <= w < NUSER -> pte_of (kmem_mem s') tabs' (PGSIZE * w) = pte_of (kmem_mem s) tabs (PGSIZE * w)) ->
  as_rep s' d tabs' U l'.
Proof.
  intros [V Hm Hp Hi] V' G P. split; try done.
  - intros w Hw. specialize (Hm w Hw). by rewrite P.
  - intros w q Hq. destruct (Hp w q Hq) as (H1 & H2 & H3 & H4). destruct (grows_apart _ _ _ _ _ _ _ q G H3 H4). done.
Qed.

Lemma as_insert s d tabs U l s' tabs' l' v p perm :
  as_rep s d tabs U l -> vm_rep s' d tabs' l' -> grows d s tabs l s' tabs' l' -> 0 <= v < NUSER ->
  page_ok p -> p ∉ l -> ~ table_page d tabs p -> (forall w, U !! w <> Some p) -> 0 <= perm < PGSIZE ->
  (forall w, 0 <= w < NUSER -> w <> v -> pte_of (kmem_mem s') tabs' (PGSIZE * w) = pte_of (kmem_mem s) tabs (PGSIZE * w)) ->
  pte_of (kmem_mem s') tabs' (PGSIZE * v) = Z.lor (Z.lor (V2P p) perm) PTE_P ->
  as_rep s' d tabs' (<[v := p]> U) l'.
Proof.
  intros [V Hm Hp Hi] V' G Hv Hok Hpl Hnt HpU Hperm P Pv. destruct (V2P_page p Hok) as (_ & _ & Hpm & Hpr).
  split; try done.
  - intros w Hw. rewrite lookup_insert. case_decide as E.
    + subst w. rewrite Pv. destruct (entry_range (V2P p) perm) as (_ & ? & ? & _); [pglia|done..].
    + rewrite P by congruence. by apply Hm.
  - intros w q. rewrite lookup_insert. case_decide as E; [intros [= <-]; subst w|intros Hq].
    + destruct (grows_apart _ _ _ _ _ _ _ p G Hpl Hnt). done.
    + destruct (Hp w q Hq) as (H1 & H2 & H3 & H4). destruct (grows_apart _ _ _ _ _ _ _ q G H3 H4). done.
  - intros w w' q. rewrite !lookup_insert. repeat case_decide; subst; try done.
    + intros [= <-] Hq. by destruct (HpU _ Hq).
    + intros Hq [= <-]. by destruct (HpU _ Hq).
    + apply Hi.
Qed.

(** Mapping a page that is not in use at an unmapped user address. *)
Lemma map_fresh s d tabs U l v p perm :
  as_rep s d tabs U l -> 0 <= v < NUSER -> U !! v = None -> page_ok p -> p ∉ l -> ~ table_page d tabs p ->
  (forall w, U !! w <> Some p) -> 0 <= perm < PGSIZE ->
  wp (mappages d (PGSIZE * v) PGSIZE (V2P p) perm) (fun r s' => exists tabs' l', grows d s tabs l s' tabs' l' /\
    (forall w, 0 <= w < NUSER -> w <> v -> pte_of (kmem_mem s') tabs' (PGSIZE * w) = pte_of (kmem_mem s) tabs (PGSIZE * w)) /\
    (r = 0 /\ as_rep s' d tabs' (<[v := p]> U) l' /\
       pte_of (kmem_mem s') tabs' (PGSIZE * v) = Z.lor (Z.lor (V2P p) perm) PTE_P \/
     r = -1 /\ l' = [] /\ as_rep s' d tabs' U l')) s.
Proof.
  intros A Hv Hnone Hp Hpl Hnt HpU Hperm. pose proof (user_va v Hv) as Hva.
  destruct (V2P_page p Hp) as (_ & _ & Hpm & Hpr).
  assert (Ed : PGROUNDDOWN (PGSIZE * v) = PGSIZE * v) by (rewrite PGROUNDDOWN_spec; pglia).
  assert (El : PGROUNDDOWN (u32 (PGSIZE * v + PGSIZE - 1)) = PGSIZE * v).
  { rewrite u32_small by pglia. rewrite PGROUNDDOWN_spec; pglia. }
  unfold mappages. rewrite Ed, El, Z.sub_diag. change (u32 0 / PGSIZE) with 0.
  pose proof (as_map _ _ _ _ _ A v Hv) as Hm. rewrite Hnone in Hm.
  pose proof (mappages_loop_spec 0 1 s d tabs l (PGSIZE * v) (V2P p) perm (as_vm _ _ _ _ _ A)) as W.
  rewrite Z.mul_0_r, Z.add_0_r in W. eapply wp_mono; [apply W; try pglia|].
  { intros i Hi. replace i with 0 by lia. by rewrite Z.mul_0_r, Z.add_0_r. }
  intros r s' (tabs' & l' & k & V' & G & Hr & P). exists tabs', l'.
  assert (Hoth : forall w, 0 <= w < NUSER -> w <> v -> pte_of (kmem_mem s') tabs' (PGSIZE * w) = pte_of (kmem_mem s) tabs (PGSIZE * w)).
  { intros w Hw Hne. pose proof (user_va w Hw). rewrite P by pglia. unfold mapped.
    replace (PGSIZE * v / PGSIZE) with v by pglia. replace (PGSIZE * w / PGSIZE) with w by pglia. zdec. }
  assert (Pv : pte_of (kmem_mem s') tabs' (PGSIZE * v) = mapped (pte_of (kmem_mem s) tabs) (PGSIZE * v) (V2P p) perm k (PGSIZE * v))
    by (apply P; pglia). unfold mapped in Pv. rewrite Z.sub_diag, Z.mul_0_r, Z.add_0_r in Pv.
  split; [done|]. split; [done|]. destruct Hr as [[-> ->]|(-> & Hk & ->)].
  - left. split; [done|]. split; [|done]. by eapply (as_insert s d tabs U l s' tabs' l' v p perm).
  - right. split; [done|]. split; [done|]. eapply as_grow; try done. intros w Hw.
    destruct (decide (w = v)) as [->|Hne]; [|by apply Hoth]. rewrite Pv. zdec.
Qed.

Definition zero_page (m : mem) (p : Z) : Prop := forall x, p <= x < p + PGSIZE -> m x = 0.

(** The address space has grown from [a0] to [a], with pages of [l0]. *)
Record grown (s0 : kmem) (d : Z) (tabs0 U0 : gmap Z Z) (l0 : list Z) (a0 a : Z)
    (s : kmem) (tabs U : gmap Z Z) (l : list Z) : Prop := {
  gr_as : as_rep s d tabs U l;
  gr_sub : tabs0 ⊆ tabs;
  gr_old : forall v, ~ (a0 <= PGSIZE * v < a) -> U !! v = U0 !! v;
  gr_new : forall v, a0 <= PGSIZE * v < a -> 0 <= v -> exists p, U !! v = Some p /\ p ∈ l0 /\ zero_page (kmem_mem s) p /\
    pte_of (kmem_mem s) tabs (PGSIZE * v) = Z.lor (Z.lor (V2P p) (Z.lor PTE_W PTE_U)) PTE_P;
  gr_tabs : forall i p, tabs !! i = Some p -> tabs0 !! i = Some p \/ p ∈ l0;
  gr_free : forall p, p ∈ l0 <-> p ∈ l \/ (exists i, tabs !! i = Some p /\ tabs0 !! i <> Some p) \/
    exists v, a0 <= PGSIZE * v < a /\ U !! v = Some p;
  gr_mem : mem_same d tabs l0 (kmem_mem s0) (kmem_mem s);
  gr_lock : use_lock s = use_lock s0;
}.

Lemma grown_refl s d tabs U l a : as_rep s d tabs U l -> grown s d tabs U l a a s tabs U l.
Proof.
  intros A. split; try done.
  - intros v Hv. lia.
  - by left.
  - intros p. split; [by left|]. intros [?|[(i & Hi & Hni)|(v & Hv & _)]]; [done|done|lia].
Qed.

(** Pages of the initial free list are apart from the initial tables. *)
Lemma grown_l0 s0 d tabs0 U0 l0 a0 a s tabs U l :
  grown s0 d tabs0 U0 l0 a0 a s tabs U l -> as_rep s0 d tabs0 U0 l0 -> forall p, p ∈ l -> p ∈ l0.
Proof. intros G _ p Hp. apply (gr_free _ _ _ _ _ _ _ _ _ _ _ G). by left. Qed.

Lemma zero_page_frame l m m' p :
  zero_page m p -> frame l m m' -> page_ok p -> Forall page_ok l -> p ∉ l -> zero_page m' p.
Proof.
  intros Hz F Hp Hl Hpl x Hx. rewrite F; [by apply Hz|]. intros q Hq. rewrite Forall_forall in Hl.
  assert (p <> q) by (by intros ->). destruct (page_apart end_ p q Hp (Hl q Hq)) as [?|?]; [done|lia|lia].
Qed.

(** What mapping one more page needs of the state: a free page taken and
    cleared. *)
Lemma take_page s0 d tabs0 U0 l0 a0 a s tabs U p l s1 :
  grown s0 d tabs0 U0 l0 a0 a s tabs U (p :: l) -> kmem_mem s1 = kmem_mem s -> use_lock s1 = use_lock s ->
  vm_rep s1 d tabs l ->
  let s2 := set_mem (memset (kmem_mem s1) p 0 PGSIZE) s1 in
  as_rep s2 d tabs U l /\ page_ok p /\ (p ∉ l) /\ ~ table_page d tabs p /\ (forall w, U !! w <> Some p) /\
  zero_page (kmem_mem s2) p /\ frame [p] (kmem_mem s) (kmem_mem s2) /\
  (forall va, 0 <= va < 4294967296 -> pte_of (kmem_mem s2) tabs va = pte_of (kmem_mem s) tabs va).
Proof.
  intros G Hm Hu V1 s2. pose proof (gr_as _ _ _ _ _ _ _ _ _ _ _ G) as A. pose proof A as [V Hmap Hpg Hinj].
  destruct (vr_free _ _ _ _ V) as [_ Hnd Hpl]. apply NoDup_cons in Hnd as [Hn Hnd]. apply Forall_cons in Hpl as [Hp Hpl].
  assert (Hnt : ~ table_page d tabs p) by (intros Ht; apply (vr_apart _ _ _ _ V p Ht); by left).
  destruct (vm_memset s1 d tabs l p 0 V1 Hp Hn Hnt) as (V2 & F2 & P2). rewrite Hm in F2, P2.
  assert (Hz : zero_page (kmem_mem s2) p).
  { intros x Hx. unfold s2. simpl. rewrite memset_spec by pglia. zdec. }
  assert (P2' : forall va, 0 <= va < 4294967296 -> pte_of (kmem_mem s2) tabs va = pte_of (kmem_mem s) tabs va).
  { intros va Hva. unfold s2. simpl. rewrite Hm. by apply P2. }
  assert (F2' : frame [p] (kmem_mem s) (kmem_mem s2)) by (unfold s2; simpl; by rewrite Hm).
  change (vm_rep s2 d tabs l) in V2. clearbody s2. split_and!; try done.
  - split; try done.
    + intros v Hv. specialize (Hmap v Hv). pose proof (user_va v Hv). by rewrite P2' by (unfold KERNBASE in *; lia).
    + intros v q Hq. destruct (Hpg v q Hq) as (H1 & H2 & H3 & H4). rewrite not_elem_of_cons in H3. by destruct H3.
  - intros w Hw. destruct (Hpg _ _ Hw) as (_ & _ & H3 & _). apply H3. by left.
Qed.

(** Memory of a page that is neither a table nor the page [p] is kept. *)
Lemma kept_page d s s2 tabs l s3 tabs3 l3 p q :
  frame [p] (kmem_mem s) (kmem_mem s2) -> grows d s2 tabs l s3 tabs3 l3 -> ptree (kmem_mem s3) d tabs3 ->
  page_ok p -> page_ok q -> q <> p -> ~ table_page d tabs3 q ->
  forall x, q <= x < q + PGSIZE -> kmem_mem s3 x = kmem_mem s x.
Proof.
  intros F G T Hp Hq Hqp Hnt x Hx. rewrite (g_frame _ _ _ _ _ _ _ G).
  - apply F. intros r ->%list_elem_of_singleton. destruct (page_apart end_ q p) as [?|?]; [done..|lia|lia].
  - intros r Hr. assert (Hrok : page_ok r).
    { destruct Hr as [->|[i Hi]]; [apply (pt_dir _ _ _ T)|by apply (pt_tabs _ _ _ T) in Hi as (_ & ? & _)]. }
    assert (q <> r) by (by intros ->). destruct (page_apart end_ q r) as [?|?]; [done..|lia|lia].
Qed.

Lemma table_mono d (tabs tabs' : gmap Z Z) p : tabs ⊆ tabs' -> table_page d tabs p -> table_page d tabs' p.
Proof. intros S [->|[i Hi]]; [by left|right]. exists i. by eapply lookup_weaken. Qed.

Lemma grown_mem s0 d tabs0 U0 l0 a0 a s tabs U p l s2 s3 tabs3 l3 :
  grown s0 d tabs0 U0 l0 a0 a s tabs U (p :: l) -> p ∈ l0 ->
  frame [p] (kmem_mem s) (kmem_mem s2) -> grows d s2 tabs l s3 tabs3 l3 ->
  mem_same d tabs3 l0 (kmem_mem s0) (kmem_mem s3).
Proof.
  intros G Hp F Gr x Hx. rewrite (g_frame _ _ _ _ _ _ _ Gr) by (intros q Hq; apply Hx; by left).
  rewrite F by (intros q ->%list_elem_of_singleton; apply Hx; by right).
  apply (gr_mem _ _ _ _ _ _ _ _ _ _ _ G). intros q [Hq|Hq]; apply Hx; [left|by right].
  eapply table_mono; [apply (g_sub _ _ _ _ _ _ _ Gr)|done].
Qed.

Lemma grown_free s0 d tabs0 U0 l0 a0 a s tabs U p l s2 s3 tabs3 l3 v :
  grown s0 d tabs0 U0 l0 a0 a s tabs U (p :: l) -> grows d s2 tabs l s3 tabs3 l3 ->
  a = PGSIZE * v -> a0 <= a -> U !! v = None ->
  (forall i q, tabs0 !! i = Some q -> q ∉ l0) ->
  forall q, q ∈ l0 <-> q ∈ l3 \/ (exists i, tabs3 !! i = Some q /\ tabs0 !! i <> Some q) \/
    exists w, a0 <= PGSIZE * w < a + PGSIZE /\ <[v := p]> U !! w = Some q.
Proof.
  intros G Gr Ha Ha0 Hv Ht0 q. rewrite (gr_free _ _ _ _ _ _ _ _ _ _ _ G). rewrite elem_of_cons.
  destruct (g_free _ _ _ _ _ _ _ Gr) as (new & -> & Hnew & Hnew'). rewrite elem_of_app. split.
  - intros [[->|[Hq|Hq]]|[(i & Hi & Hni)|(w & Hw & Hq)]].
    + right. right. exists v. rewrite lookup_insert_eq. split; [pglia|done].
    + right. left. destruct (Hnew' q Hq) as [i Hi]. exists i. split; [done|]. intros Hi0. apply (Ht0 i q Hi0).
      apply (gr_free _ _ _ _ _ _ _ _ _ _ _ G). left. right. apply elem_of_app. by left.
    + by left.
    + right. left. exists i. split; [|done]. eapply lookup_weaken; [exact Hi|apply (g_sub _ _ _ _ _ _ _ Gr)].
    + right. right. exists w. rewrite lookup_insert_ne by (intros ->; lia). split; [pglia|done].
  - intros [Hq|[(i & Hi & Hni)|(w & Hw & Hq)]].
    + tauto.
    + destruct (Hnew i q Hi) as [Hi'|?]; [|tauto]. right. left. by exists i.
    + destruct (decide (w = v)) as [->|Hne]; [rewrite lookup_insert_eq in Hq; injection Hq as <-; tauto|].
      rewrite lookup_insert_ne in Hq by done. right. right. exists w. split; [|done]. pglia.
Qed.

Lemma grown_step s0 d tabs0 U0 l0 a0 a s tabs U p l s2 s3 tabs3 l3 v :
  as_rep s0 d tabs0 U0 l0 -> grown s0 d tabs0 U0 l0 a0 a s tabs U (p :: l) ->
  a = PGSIZE * v -> a0 <= a -> 0 <= v < NUSER -> U !! v = None -> U0 !! v = None ->
  zero_page (kmem_mem s2) p -> frame [p] (kmem_mem s) (kmem_mem s2) -> use_lock s2 = use_lock s ->
  (forall va, 0 <= va < 4294967296 -> pte_of (kmem_mem s2) tabs va = pte_of (kmem_mem s) tabs va) ->
  grows d s2 tabs l s3 tabs3 l3 ->
  (forall w, 0 <= w < NUSER -> w <> v -> pte_of (kmem_mem s3) tabs3 (PGSIZE * w) = pte_of (kmem_mem s2) tabs (PGSIZE * w)) ->
  as_rep s3 d tabs3 (<[v := p]> U) l3 ->
  pte_of (kmem_mem s3) tabs3 (PGSIZE * v) = Z.lor (Z.lor (V2P p) (Z.lor PTE_W PTE_U)) PTE_P ->
  grown s0 d tabs0 U0 l0 a0 (a + PGSIZE) s3 tabs3 (<[v := p]> U) l3.
Proof.
  intros A0 G Ha Ha0 Hv Hnone Hnone0 Hz F Hu P2 Gr P3 A3 Pv.
  assert (Hpl0 : p ∈ l0) by (apply (gr_free _ _ _ _ _ _ _ _ _ _ _ G); left; by left).
  pose proof (as_pages _ _ _ _ _ A3) as Hpg. pose proof (vr_tree _ _ _ _ (as_vm _ _ _ _ _ A3)) as T3.
  destruct (Hpg v p) as (_ & Hpok & _ & Hpnt); [by rewrite lookup_insert_eq|].
  split.
  - done.
  - etrans; [apply (gr_sub _ _ _ _ _ _ _ _ _ _ _ G)|apply (g_sub _ _ _ _ _ _ _ Gr)].
  - intros w Hw. rewrite lookup_insert_ne by (intros ->; pglia). apply (gr_old _ _ _ _ _ _ _ _ _ _ _ G). pglia.
  - intros w Hw Hw0. destruct (decide (w = v)) as [->|Hne].
    + exists p. rewrite lookup_insert_eq. split_and!; try done. intros x Hx.
      rewrite (g_frame _ _ _ _ _ _ _ Gr); [by apply Hz|]. intros r Hr.
      assert (Hrok : page_ok r).
      { destruct Hr as [->|[i Hi]]; [apply (pt_dir _ _ _ T3)|by apply (pt_tabs _ _ _ T3) in Hi as (_ & ? & _)]. }
      assert (p <> r) by (by intros ->). destruct (page_apart end_ p r) as [?|?]; [done..|lia|lia].
    + destruct (gr_new _ _ _ _ _ _ _ _ _ _ _ G w) as (q & Hq & Hql & Hqz & Hqp); [pglia|done|]. exists q.
      rewrite lookup_insert_ne by done. destruct (Hpg w q) as (Hwr & Hqok & _ & Hqnt); [by rewrite lookup_insert_ne by done|].
      split_and!; try done.
      * intros x Hx. erewrite kept_page; try done; [by apply Hqz|]. intros ->. apply Hne.
        apply (as_inj _ _ _ _ _ A3 w v p); [by rewrite lookup_insert_ne by done|by rewrite lookup_insert_eq].
      * pose proof (user_va w Hwr). rewrite P3, P2 by (done || (unfold KERNBASE in *; lia)). done.
  - intros i q Hi. destruct (g_free _ _ _ _ _ _ _ Gr) as (new & El & Hnew & _). destruct (Hnew i q Hi) as [Hi'|Hq].
    + by apply (gr_tabs _ _ _ _ _ _ _ _ _ _ _ G).
    + right. apply (gr_free _ _ _ _ _ _ _ _ _ _ _ G). left. rewrite El. right. apply elem_of_app. by left.
  - eapply grown_free; try done. intros i q Hi Hq. apply (vr_apart _ _ _ _ (as_vm _ _ _ _ _ A0) q); [right; by exists i|done].
  - by eapply grown_mem.
  - rewrite (g_lock _ _ _ _ _ _ _ Gr), Hu. apply (gr_lock _ _ _ _ _ _ _ _ _ _ _ G).
Qed.

(** Undoing a partial growth. *)
Lemma grown_back s0 d tabs0 U0 l0 a0 a s tabs U lx s' tabs' U' l' newsz fr :
  as_rep s0 d tabs0 U0 l0 -> grown s0 d tabs0 U0 l0 a0 a s tabs U lx ->
  (forall v, a0 <= PGSIZE * v < newsz -> U0 !! v = None) -> (forall v, a0 <= PGSIZE * v < a -> PGSIZE * v < newsz) ->
  removed a0 newsz U U' fr -> as_rep s' d tabs' U' l' -> tabs ⊆ tabs' ->
  (forall i q, tabs' !! i = Some q -> tabs !! i = Some q \/ q ∈ lx) ->
  (forall q, q ∈ lx \/ q ∈ fr <-> q ∈ l' \/ exists i, tabs' !! i = Some q /\ tabs !! i <> Some q) ->
  mem_same d tabs' l0 (kmem_mem s) (kmem_mem s') -> use_lock s' = use_lock s ->
  grown s0 d tabs0 U0 l0 a0 a0 s' tabs' U' l'.
Proof.
  intros A0 G HU0 Hrange [R1 R2] A' Hsub Htabs Hfree Hmem Hu.
  assert (Hold : forall v, a0 <= PGSIZE * v < newsz -> ~ (a0 <= PGSIZE * v < a) -> U !! v = None).
  { intros v Hv Hna. rewrite (gr_old _ _ _ _ _ _ _ _ _ _ _ G) by done. by apply HU0. }
  assert (Hfr : forall q, q ∈ fr <-> exists v, a0 <= PGSIZE * v < a /\ U !! v = Some q).
  { intros q. rewrite R2. split; intros (v & Hv & Hq); exists v; (split; [|done]).
    - destruct (decide (a0 <= PGSIZE * v < a)); [done|]. rewrite Hold in Hq by done. done.
    - specialize (Hrange v Hv). lia. }
  split.
  - done.
  - etrans; [apply (gr_sub _ _ _ _ _ _ _ _ _ _ _ G)|done].
  - intros v _. rewrite R1. case_decide as Hv; [symmetry; by apply HU0|].
    apply (gr_old _ _ _ _ _ _ _ _ _ _ _ G). intros Hv'. apply Hv. specialize (Hrange v Hv'). lia.
  - intros v Hv. lia.
  - intros i q Hi. destruct (Htabs i q Hi) as [Hi'|Hq]; [by apply (gr_tabs _ _ _ _ _ _ _ _ _ _ _ G)|].
    right. apply (gr_free _ _ _ _ _ _ _ _ _ _ _ G). by left.
  - intros q. rewrite (gr_free _ _ _ _ _ _ _ _ _ _ _ G). specialize (Hfree q). rewrite Hfr in Hfree. split.
    + intros [Hq|[(i & Hi & Hni)|Hq]].
      * destruct (proj1 Hfree (or_introl Hq)) as [?|(i & Hi & Hni)]; [by left|]. right. left. exists i. split; [done|].
        intros Hi0. apply Hni. eapply lookup_weaken; [exact Hi0|apply (gr_sub _ _ _ _ _ _ _ _ _ _ _ G)].
      * right. left. exists i. split; [by eapply lookup_weaken|done].
      * destruct (proj1 Hfree (or_intror Hq)) as [?|(i & Hi & Hni)]; [by left|]. right. left. exists i. split; [done|].
        intros Hi0. apply Hni. eapply lookup_weaken; [exact Hi0|apply (gr_sub _ _ _ _ _ _ _ _ _ _ _ G)].
    + intros [Hq|[(i & Hi & Hni)|(v & Hv & _)]]; [|..|lia].
      * destruct (proj2 Hfree (or_introl Hq)); tauto.
      * destruct (decide (tabs !! i = Some q)) as [Hi'|Hni']; [right; left; by exists i|].
        destruct (proj2 Hfree); [right; by exists i|tauto|tauto].
  - intros x Hx. rewrite Hmem by done. apply (gr_mem _ _ _ _ _ _ _ _ _ _ _ G).
    intros q [Hq|Hq]; apply Hx; [left; by eapply table_mono|by right].
  - rewrite Hu. apply (gr_lock _ _ _ _ _ _ _ _ _ _ _ G).
Qed.

Definition alloc_post (s0 : kmem) (d : Z) (tabs0 U0 : gmap Z Z) (l0 : list Z) (a0 newsz : Z) (r : Z) (s : kmem) : Prop :=
  exists tabs U l, (r = newsz /\ grown s0 d tabs0 U0 l0 a0 (PGROUNDUP newsz) s tabs U l) \/
                   (r = 0 /\ grown s0 d tabs0 U0 l0 a0 a0 s tabs U l).

Lemma mem_same_sub d (tabs tabs' : gmap Z Z) (fr fr' : list Z) m m' :
  tabs ⊆ tabs' -> (forall p, p ∈ fr -> p ∈ fr') -> mem_same d tabs fr m m' -> mem_same d tabs' fr' m m'.
Proof. intros S Hf H x Hx. apply H. intros p [Hp|Hp]; apply Hx; [left; by eapply table_mono|right; by apply Hf]. Qed.

Section alloc.
Context (s0 : kmem) (d : Z) (tabs0 U0 : gmap Z Z) (l0 : list Z) (oldsz newsz : Z).
Hypothesis A0 : as_rep s0 d tabs0 U0 l0.
Hypothesis Hsz : 0 <= oldsz <= newsz.
Hypothesis Hsz' : newsz < KERNBASE.
Abbreviation a0 := (PGROUNDUP oldsz).
Hypothesis HU0 : forall v, a0 <= PGSIZE * v < newsz -> U0 !! v = None.

Abbreviation grown_to := (grown s0 d tabs0 U0 l0 a0).

(** No memory for a page. *)
Lemma alloc_fail_page a s tabs U :
  a < newsz -> grown_to a s tabs U [] ->
  wp (deallocuvm end_ d newsz oldsz ;; mret 0) (alloc_post s0 d tabs0 U0 l0 a0 newsz) s.
Proof.
  intros Ha G. wp_steps. eapply wp_mono; [apply deallocuvm_spec; [apply (gr_as _ _ _ _ _ _ _ _ _ _ _ G)|lia|lia]|].
  intros r s' (_ & U' & fr & A' & F & Hu & Rm). rewrite app_nil_r in A'. wp_steps. exists tabs, U', fr. right. split; [done|].
  eapply grown_back; try done.
  - intros v Hv. lia.
  - by left.
  - intros q. split; [intros [Hq|Hq]; [by apply elem_of_nil in Hq|by left]|]. intros [Hq|(i & Hi & Hni)]; [by right|done].
  - eapply mem_same_sub; [done| |exact F]. intros p Hp. destruct Rm as [_ R2]. apply R2 in Hp as (v & Hv & Hp).
    apply (gr_free _ _ _ _ _ _ _ _ _ _ _ G). right. right. exists v. split; [|done].
    destruct (decide (a0 <= PGSIZE * v < a)); [done|]. rewrite (gr_old _ _ _ _ _ _ _ _ _ _ _ G) in Hp by done.
    by rewrite HU0 in Hp.
Qed.

(** No memory for a page table. *)
Lemma alloc_fail_table a s tabs U p l s2 s3 tabs3 :
  a < newsz -> grown_to a s tabs U (p :: l) -> page_ok p -> p ∉ l -> ~ table_page d tabs p -> (forall w, U !! w <> Some p) ->
  frame [p] (kmem_mem s) (kmem_mem s2) -> use_lock s2 = use_lock s ->
  grows d s2 tabs l s3 tabs3 [] -> as_rep s3 d tabs3 U [] ->
  wp (deallocuvm end_ d newsz oldsz ;; kfree end_ p ;; mret 0) (alloc_post s0 d tabs0 U0 l0 a0 newsz) s3.
Proof.
  intros Ha G Hp Hpl Hnt HpU F2 Hu2 Gr A3. wp_steps.
  eapply wp_mono; [apply deallocuvm_spec; [exact A3|lia|lia]|].
  intros r s4 (_ & U4 & fr & A4 & F4 & Hu4 & Rm). rewrite app_nil_r in A4. wp_steps.
  destruct (grows_apart _ _ _ _ _ _ _ p Gr Hpl Hnt) as [_ Hnt3]. pose proof Rm as [R1 R2].
  assert (Hpfr : p ∉ fr) by (intros Hx; apply R2 in Hx as (v & _ & Hv); by apply (HpU v)).
  eapply wp_mono; [apply (vm_kfree s4 d tabs3 fr p (as_vm _ _ _ _ _ A4)); done|].
  intros [] s5 (V5 & F5 & Hu5 & P5). wp_steps. exists tabs3, U4, (p :: fr). right. split; [done|].
  assert (Hl0 : forall q, q = p \/ q ∈ l -> q ∈ l0).
  { intros q Hq. apply (gr_free _ _ _ _ _ _ _ _ _ _ _ G). left. by apply elem_of_cons. }
  destruct (g_free _ _ _ _ _ _ _ Gr) as (new & El & Hnew & Hnew'). rewrite app_nil_r in El. subst new.
  eapply (grown_back s0 d tabs0 U0 l0 a0 a s tabs U (p :: l)); try done.
  - intros v Hv. lia.
  - destruct A4 as [V4 Hm4 Hp4 Hi4]. split; try done.
    + intros v Hv. specialize (Hm4 v Hv). pose proof (user_va v Hv). by rewrite P5 by (unfold KERNBASE in *; lia).
    + intros v q Hq. destruct (Hp4 v q Hq) as (? & ? & ? & ?). split_and!; try done; [lia..|].
      rewrite not_elem_of_cons. split; [|done]. intros ->. rewrite R1 in Hq. case_decide; [done|]. by apply (HpU v).
  - apply (g_sub _ _ _ _ _ _ _ Gr).
  - intros i q Hi. destruct (Hnew i q Hi); [by left|right; by right].
  - intros q. rewrite !elem_of_cons. split.
    + intros [[->|Hq]|Hq]; [left; by left| |left; by right]. right. destruct (Hnew' q Hq) as [i Hi]. exists i. split; [done|].
      intros Hi'. apply (vr_apart _ _ _ _ (as_vm _ _ _ _ _ (gr_as _ _ _ _ _ _ _ _ _ _ _ G)) q); [right; by exists i|by right].
    + intros [[->|Hq]|(i & Hi & Hni)]; [left; by left|by right|]. destruct (Hnew i q Hi); [done|]. left. by right.
  - intros x Hx. rewrite F5 by (intros q ->%list_elem_of_singleton; apply Hx; right; apply Hl0; by left).
    rewrite F4. 2: { intros q [Hq|Hq]; apply Hx; [by left|right]. apply R2 in Hq as (v & Hv & Hq).
      destruct (decide (a0 <= PGSIZE * v < a)).
      - apply (gr_free _ _ _ _ _ _ _ _ _ _ _ G). right. right. by exists v.
      - rewrite (gr_old _ _ _ _ _ _ _ _ _ _ _ G) in Hq by done. by rewrite HU0 in Hq. }
    rewrite (g_frame _ _ _ _ _ _ _ Gr) by (intros q Hq; apply Hx; by left).
    apply F2. intros q ->%list_elem_of_singleton. apply Hx. right. apply Hl0. by left.
  - by rewrite Hu5, Hu4, (g_lock _ _ _ _ _ _ _ Gr), Hu2.
Qed.

Lemma allocuvm_loop_spec fuel a s tabs U l :
  a mod PGSIZE = 0 -> a0 <= a <= PGROUNDUP newsz -> grown_to a s tabs U l ->
  (newsz <= a \/ (newsz - a - 1) / PGSIZE < Z.of_nat fuel) ->
  wp (allocuvm_loop end_ fuel d a oldsz newsz) (alloc_post s0 d tabs0 U0 l0 a0 newsz) s.
Proof.
  pose proof (PGROUNDUP_bounds oldsz) as (B1 & B2 & B3); [pglia|]. pose proof (PGROUNDUP_bounds newsz) as (C1 & C2 & C3); [pglia|].
  revert a s tabs U l. induction fuel as [|fuel IH]; intros a s tabs U l Ham Ha G Hf; cbn [allocuvm_loop];
    (destruct (Z.ltb_spec a newsz) as [Hlt|Hge];
     [|wp_steps; exists tabs, U, l; left; split; [done|]; by replace (PGROUNDUP newsz) with a by pglia]); [exfalso; pglia|].
  destruct Hf as [?|Hf]; [lia|]. pose proof (gr_as _ _ _ _ _ _ _ _ _ _ _ G) as A.
  wp_steps. eapply wp_mono; [apply (vm_kalloc _ _ _ _ (as_vm _ _ _ _ _ A))|].
  intros r s1 (Hm1 & Hu1 & H1). destruct l as [|p l].
  { destruct H1 as [-> ->]. cbn. by eapply alloc_fail_page. }
  destruct H1 as (-> & _ & _ & _ & V1).
  destruct (take_page _ _ _ _ _ _ _ _ _ _ _ _ _ G Hm1 Hu1 V1) as (A2 & Hp & Hpl & Hnt & HpU & Hz & F2 & P2).
  pose proof (page_pos end_ Hend p Hp). rewrite (proj2 (Z.eqb_neq _ _)) by lia. unfold kmemset. wp_steps.
  set (s2 := set_mem _ s1) in *. assert (Hu2 : use_lock s2 = use_lock s) by done. clearbody s2.
  set (v := a / PGSIZE). assert (Hav : a = PGSIZE * v) by (unfold v; pglia).
  assert (Hv : 0 <= v < NUSER) by (unfold v, NUSER; pglia). clearbody v. subst a.
  assert (Hn : U !! v = None) by (rewrite (gr_old _ _ _ _ _ _ _ _ _ _ _ G) by lia; apply HU0; lia).
  eapply wp_mono; [apply (map_fresh s2 d tabs U l v p); try done; unfold PTE_W, PTE_U, PGSIZE; cbn; lia|].
  intros r s3 (tabs3 & l3 & Gr & P3 & [(-> & A3 & Pv)|(-> & -> & A3)]).
  - cbn. rewrite u32_small by pglia. eapply (IH _ s3 tabs3 (<[v := p]> U) l3); [pglia|pglia| |pglia].
    eapply grown_step; try done; [lia|]. apply HU0. lia.
  - cbn. by eapply (alloc_fail_table (PGSIZE * v) s tabs U p l s2).
Qed.
End alloc.

Lemma allocuvm_ok s d tabs U l oldsz newsz :
  as_rep s d tabs U l -> 0 <= oldsz <= newsz -> newsz < KERNBASE ->
  (forall v, PGROUNDUP oldsz <= PGSIZE * v < newsz -> U !! v = None) ->
  wp (allocuvm end_ d oldsz newsz) (alloc_post s d tabs U l (PGROUNDUP oldsz) newsz) s.
Proof.
  intros A Hsz Hsz' HU. unfold allocuvm. rewrite (proj2 (Z.leb_gt _ _)), (proj2 (Z.ltb_ge _ _)) by lia.
  pose proof (PGROUNDUP_bounds oldsz) as (B1 & B2 & B3); [pglia|]. pose proof (PGROUNDUP_bounds newsz) as (C1 & C2 & C3); [pglia|].
  apply (allocuvm_loop_spec s d tabs U l oldsz newsz A Hsz Hsz' HU _ _ _ tabs U l); [done|pglia|by apply grown_refl|pglia].
Qed.

(** C9. [allocuvm] grows an address space or leaves it as it was.  From size
    [oldsz] to [newsz], below [KERNBASE] and with nothing mapped in between:
    either it returns [newsz], every page of the new range is mapped, present,
    writable and user, to a page of its own, filled with zeros and taken from
    the free list; or it returns 0 and no user mapping has changed.  In both
    cases the other mappings and the contents of all pages in use stay, and
    every page that was free is still free, or a page table, or mapped in the
    new range: on failure only page tables are kept. *)
Theorem allocuvm_spec s d tabs U l oldsz newsz :
  as_rep s d tabs U l -> 0 <= oldsz <= newsz -> newsz < KERNBASE ->
  (forall v, PGROUNDUP oldsz <= PGSIZE * v < newsz -> U !! v = None) ->
  wp (allocuvm end_ d oldsz newsz) (alloc_post s d tabs U l (PGROUNDUP oldsz) newsz) s.
Proof. apply allocuvm_ok. Qed.

(** [uva2ka] on a user address whose page directory entry is not present
    dereferences the null pointer: it does not test the result of
    [walkpgdir], so [copyout] to such an address does not return -1. *)
Theorem uva2ka_null s d tabs l uva :
  vm_rep s d tabs l -> 0 <= uva < 4294967296 -> tabs !! PDX uva = None -> uva2ka d uva s = Fault.
Proof.
  intros V Hu Ht. unfold uva2ka. erewrite bind_ok by (by eapply walk_missing). done.
Qed.
End pagetable.

(** ** A small machine: an empty page directory and three free pages *)

Definition demo_end : Z := 0x80115000.
Definition demo_dir : Z := 0x80400000.
Definition demo_free : list Z := [0x80401000; 0x80402000; 0x80403000].
Definition demo_mem : mem :=
  store32 (store32 (fun _ => 0) 0x80401000 0x80402000) 0x80402000 0x80403000.
Definition demo_vm : kmem := mkKmem demo_mem 0x80401000 true.

Lemma demo_as : as_rep demo_end demo_vm demo_dir ∅ ∅ demo_free.
Proof.
  assert (Hdir : page_ok demo_end demo_dir) by (vm_compute; done).
  split; [split| | |].
  - split.
    + vm_compute. auto.
    + unfold demo_free. repeat (apply NoDup_cons; split; [rewrite ?elem_of_cons, ?elem_of_nil; lia|]). constructor.
    + unfold demo_free. repeat (apply Forall_cons_2; [vm_compute; done|]). constructor.
  - split; [done|by intros i t|by intros i j t|]. intros i Hi. rewrite lookup_empty.
    unfold demo_vm, demo_mem, demo_dir. cbn [kmem_mem]. rewrite !load32_store32_ne by lia. done.
  - intros p [->|[i Hi]]; [|done]. unfold demo_dir, demo_free. rewrite !elem_of_cons, elem_of_nil. lia.
  - unfold demo_vm. cbn [kmem_mem]. unfold demo_mem. do 2 apply bytes_store32. intros x. lia.
  - intros v Hv. by rewrite lookup_empty.
  - done.
  - done.
Qed.

Lemma allocuvm_spec_witness :
  wp (allocuvm demo_end demo_dir 0 4096)
     (alloc_post demo_end demo_vm demo_dir ∅ ∅ demo_free (PGROUNDUP 0) 4096) demo_vm.
Proof.
  apply (allocuvm_spec demo_end ltac:(unfold KERNBASE, demo_end; lia) demo_vm demo_dir ∅ ∅ demo_free 0 4096);
    [apply demo_as|lia|unfold KERNBASE; lia|intros v _; apply lookup_empty].
Defined.

Lemma deallocuvm_spec_witness :
  wp (deallocuvm demo_end demo_dir 8192 0) (fun r _ => r = 0) demo_vm.
Proof.
  eapply wp_mono; [apply (deallocuvm_spec demo_end ltac:(unfold KERNBASE, demo_end; lia) demo_vm demo_dir ∅ ∅ demo_free 8192 0);
    [apply demo_as|unfold KERNBASE; lia|unfold KERNBASE; lia]|].
  intros r s' [-> _]. reflexivity.
Defined.

Lemma uva2ka_null_witness : uva2ka demo_dir 0x1000 demo_vm = Fault.
Proof.
  apply (uva2ka_null demo_end demo_vm demo_dir ∅ demo_free 0x1000); [apply (as_vm _ _ _ _ _ _ demo_as)|lia|apply lookup_empty].
Defined.
