(* ===== verification/Grep.v ===== *)
(** * [grep.c]: the matcher, and the line loop that uses it.

    A C string is the list of its bytes before the terminating NUL; reading
    at its end reads the NUL. *)

From stdpp Require Import sets.
From S2P Require Import Prelude CString.

(** ** The matcher *)

Definition CARET : Z := 94.
Definition DOT : Z := 46.
Definition STAR : Z := 42.
Definition DOLLAR : Z := 36.
Definition NEWLINE : Z := 10.

(** [matchstar] with the [matchhere(re, .)] it calls as an argument. *)
Fixpoint star_loop (here : list Z -> bool) (c : Z) (text : list Z) : bool :=
  if here text then true
  else match text with
       | [] => false
       | t :: text' => if (t =? c) || (c =? DOT) then star_loop here c text' else false
       end.

Fixpoint matchhere (re text : list Z) : bool :=
  match re with
  | [] => true
  | r0 :: re1 =>
      let last :=
        if (r0 =? DOLLAR) && (match re1 with [] => true | _ => false end)
        then match text with [] => true | _ => false end
        else match text with
             | [] => false
             | t :: text' => if (r0 =? DOT) || (r0 =? t) then matchhere re1 text' else false
             end in
      match re1 with
      | r1 :: re2 => if r1 =? STAR then star_loop (matchhere re2) r0 text else last
      | [] => last
      end
  end.

Definition matchstar (c : Z) (re text : list Z) : bool := star_loop (matchhere re) c text.

Fixpoint match_loop (re text : list Z) : bool :=
  if matchhere re text then true
  else match text with
       | [] => false
       | _ :: text' => match_loop re text'
       end.

Definition match_ (re text : list Z) : bool :=
  match re with
  | r0 :: re1 => if r0 =? CARET then matchhere re1 text else match_loop re text
  | [] => match_loop re text
  end.

(** ** The line loop *)

(** [ulib.c]: offset of the first [c] before the NUL. *)
Fixpoint strchr (s : list Z) (c : Z) : option nat :=
  match s with
  | [] => None
  | x :: s' => if x =? 0 then None else if x =? c then Some O else S <$> strchr s' c
  end.

(** The inner [while]: [p] is the rest of the buffer; the result is what is
    written and the bytes after the last newline.  Each round drops at least
    a byte. *)
Fixpoint lines_loop (fuel : nat) (pattern p : list Z) : list Z * list Z :=
  match fuel with
  | O => ([], p)
  | S fuel' =>
      match strchr p NEWLINE with
      | None => ([], p)
      | Some q =>
          let line := take q p in
          let out := if match_ pattern line then line ++ [NEWLINE] else [] in
          let '(o, rest) := lines_loop fuel' pattern (drop (S q) p) in
          (out ++ o, rest)
      end
  end.

Definition BUFSIZE : nat := 1024.

Section grep.
(** The [read] system call on the open file: at most that many bytes. *)
Context {R : Type} (read : R -> nat -> list Z * R).

(** The outer [while]: [b] is [buf[0..m)]. *)
Fixpoint grep_loop (fuel : nat) (pattern b : list Z) (fd : R) (out : list Z) : option (list Z) :=
  match fuel with
  | O => None
  | S fuel' =>
      let '(data, fd') := read fd (BUFSIZE - length b - 1) in
      match data with
      | [] => Some out
      | _ =>
          let b1 := b ++ data in
          let '(o, rest) := lines_loop (length b1) pattern b1 in
          let b2 := if (length rest =? length b1)%nat then [] else rest in
          grep_loop fuel' pattern b2 fd' (out ++ o)
      end
  end.

Definition grep (fuel : nat) (pattern : list Z) (fd : R) : option (list Z) :=
  grep_loop fuel pattern [] fd [].
End grep.

(** ** The language of a pattern *)

Inductive atom := Lit (c : Z) | Any.
Inductive item := One (a : atom) | Many (a : atom).

Definition atom_of (c : Z) : atom := if c =? DOT then Any else Lit c.

(** The items of a pattern, and whether it ends in the anchor [$]. *)
Fixpoint items (re : list Z) : list item * bool :=
  match re with
  | [] => ([], false)
  | r0 :: re1 =>
      match re1 with
      | [] => if r0 =? DOLLAR then ([], true) else ([One (atom_of r0)], false)
      | r1 :: re2 =>
          if r1 =? STAR then (Many (atom_of r0) :: (items re2).1, (items re2).2)
          else (One (atom_of r0) :: (items re1).1, (items re1).2)
      end
  end.

Definition atom_lang (a : atom) (c : Z) : Prop := match a with Lit d => c = d | Any => True end.
Definition item_lang (i : item) (w : list Z) : Prop :=
  match i with One a => exists c, w = [c] /\ atom_lang a c | Many a => Forall (atom_lang a) w end.
Fixpoint lang (l : list item) (w : list Z) : Prop :=
  match l with
  | [] => w = []
  | i :: l' => exists w1 w2, w = w1 ++ w2 /\ item_lang i w1 /\ lang l' w2
  end.

(** The pattern [re] matches [text] from its start. *)
Definition matches_here (re text : list Z) : Prop :=
  exists w rest, text = w ++ rest /\ lang (items re).1 w /\ ((items re).2 = true -> rest = []).

(** The pattern [re] matches somewhere in [text], at its start if [re] begins
    with the anchor. *)
Definition matches (re text : list Z) : Prop :=
  exists pre suf, text = pre ++ suf /\
    match re with
    | r0 :: re1 => if r0 =? CARET then pre = [] /\ matches_here re1 suf else matches_here re suf
    | [] => matches_here re suf
    end.

(** ** The matcher decides the language *)

Lemma star_loop_spec here c text :
  star_loop here c text = true <->
  exists w rest, text = w ++ rest /\ Forall (atom_lang (atom_of c)) w /\ here rest = true.
Proof.
  assert (Ha : forall t, atom_lang (atom_of c) t <-> (t =? c) || (c =? DOT) = true).
  { intros t. unfold atom_of. rewrite orb_true_iff, !Z.eqb_eq. destruct (Z.eqb_spec c DOT); simpl; intuition lia. }
  induction text as [|t text IH]; simpl.
  - destruct (here []) eqn:E; split; try done.
    + intros _. by exists [], [].
    + intros (w & rest & Heq & _ & Hr). symmetry in Heq. apply app_nil in Heq as [-> ->]. congruence.
  - destruct (here (t :: text)) eqn:E.
    { split; [|done]. intros _. by exists [], (t :: text). }
    split.
    + destruct ((t =? c) || (c =? DOT)) eqn:Et; [|done]. intros (w & rest & -> & Hw & Hr)%IH.
      exists (t :: w), rest. split_and!; [done| |done]. constructor; [by apply Ha|done].
    + intros (w & rest & Heq & Hw & Hr). destruct w as [|t' w]; simpl in Heq; [congruence|].
      injection Heq as <- ->. apply Forall_cons in Hw as [Ht Hw]. rewrite (proj1 (Ha t) Ht).
      apply IH. by exists w, rest.
Qed.

Lemma matches_here_many c re text :
  matches_here (c :: STAR :: re) text <->
  exists w rest, text = w ++ rest /\ Forall (atom_lang (atom_of c)) w /\ matches_here re rest.
Proof.
  unfold matches_here. simpl. split.
  - intros (w & rest & -> & (w1 & w2 & -> & H1 & H2) & He). exists w1, (w2 ++ rest).
    split_and!; [by rewrite app_assoc|done|]. by exists w2, rest.
  - intros (w1 & x & -> & H1 & (w2 & rest & -> & H2 & He)). exists (w1 ++ w2), rest.
    split_and!; [by rewrite app_assoc| |done]. by exists w1, w2.
Qed.

Lemma matches_here_one c re text :
  match re with [] => c <> DOLLAR | r1 :: _ => r1 <> STAR end ->
  matches_here (c :: re) text <->
  exists t rest, text = t :: rest /\ atom_lang (atom_of c) t /\ matches_here re rest.
Proof.
  intros Hre.
  assert (E : items (c :: re) = (One (atom_of c) :: (items re).1, (items re).2)).
  { simpl. destruct re as [|r1 re2]; [by rewrite (proj2 (Z.eqb_neq _ _) Hre)|].
    by rewrite (proj2 (Z.eqb_neq _ _) Hre). }
  unfold matches_here. rewrite E. simpl. split.
  - intros (w & rest & -> & (w1 & w2 & -> & (t & -> & H1) & H2) & He). exists t, (w2 ++ rest).
    split_and!; [done|done|]. by exists w2, rest.
  - intros (t & x & -> & H1 & (w2 & rest & -> & H2 & He)). exists (t :: w2), rest.
    split_and!; [done| |done]. exists [t], w2. split_and!; [done| |done]. by exists t.
Qed.

(** The recursion equations of [matchhere]. *)
Lemma matchhere_many c re text : matchhere (c :: STAR :: re) text = matchstar c re text.
Proof. done. Qed.

Lemma matchhere_end text : matchhere [DOLLAR] text = match text with [] => true | _ => false end.
Proof. done. Qed.

Lemma matchhere_one c re text :
  match re with [] => c <> DOLLAR | r1 :: _ => r1 <> STAR end ->
  matchhere (c :: re) text =
    match text with [] => false | t :: text' => ((c =? DOT) || (c =? t)) && matchhere re text' end.
Proof.
  intros Hre. destruct re as [|r1 re2]; cbn [matchhere];
    rewrite (proj2 (Z.eqb_neq _ _) Hre), ?andb_false_r; cbn [andb]; destruct text; try done;
    by destruct ((c =? DOT) || (c =? z)).
Qed.

Lemma atom_test c t : (c =? DOT) || (c =? t) = true <-> atom_lang (atom_of c) t.
Proof. unfold atom_of. rewrite orb_true_iff, !Z.eqb_eq. destruct (Z.eqb_spec c DOT); simpl; intuition lia. Qed.

(** The shapes of a non-empty pattern. *)
Lemma pattern_cases (P : list Z -> Prop) :
  P [] -> P [DOLLAR] -> (forall c re, P re -> P (c :: STAR :: re)) ->
  (forall c re, match re with [] => c <> DOLLAR | r1 :: _ => r1 <> STAR end -> P re -> P (c :: re)) ->
  forall re, P re.
Proof.
  intros H0 Hd Hm H1 re. induction re as [re IH] using (well_founded_induction (well_founded_ltof _ (@length Z))).
  unfold ltof in IH. destruct re as [|c [|r1 re]]; [done| |].
  - destruct (decide (c = DOLLAR)) as [->|]; [done|]. apply H1; [done|]. by apply H0.
  - destruct (decide (r1 = STAR)) as [->|]; [apply Hm, IH; simpl; lia|]. apply H1; [done|]. apply IH. simpl. lia.
Qed.

Lemma matchhere_spec re text : matchhere re text = true <-> matches_here re text.
Proof.
  revert text. induction re as [| |c re IH|c re Hre IH] using pattern_cases; intros text.
  - split; [|done]. intros _. by exists [], text.
  - rewrite matchhere_end. destruct text as [|t text]; split; try done.
    + intros _. by exists [], [].
    + intros (w & rest & Heq & -> & He). cbn in *. by rewrite He in Heq.
  - rewrite matches_here_many, matchhere_many. unfold matchstar. rewrite star_loop_spec.
    by setoid_rewrite IH.
  - rewrite matches_here_one, matchhere_one by done. destruct text as [|t text]; [naive_solver|].
    rewrite andb_true_iff, atom_test, IH. naive_solver.
Qed.

Lemma match_loop_spec re text :
  match_loop re text = true <-> exists pre suf, text = pre ++ suf /\ matchhere re suf = true.
Proof.
  induction text as [|t text IH]; simpl.
  - destruct (matchhere re []) eqn:E; split; try done; [by exists [], []|].
    intros (pre & suf & Heq & Hm). symmetry in Heq. apply app_nil in Heq as [-> ->]. congruence.
  - destruct (matchhere re (t :: text)) eqn:E; [split; [by exists [], (t :: text)|done]|].
    rewrite IH. split; intros (pre & suf & Heq & Hm).
    + exists (t :: pre), suf. by rewrite Heq.
    + destruct pre as [|t' pre]; simpl in Heq; [congruence|]. injection Heq as <- ->. by exists pre, suf.
Qed.

(** C34. The pattern matcher of [grep] is correct: [match(re, text)] returns
    true exactly when some substring of [text] (a prefix if [re] starts with
    [^], a suffix if it ends in [$]) is in the language the pattern denotes,
    where [.] stands for any character and [c*] for any number of [c]. *)
Theorem match_correct re text : match_ re text = true <-> matches re text.
Proof.
  unfold match_, matches. destruct re as [|r0 re1].
  - rewrite match_loop_spec. by setoid_rewrite matchhere_spec.
  - destruct (r0 =? CARET).
    + rewrite matchhere_spec. split; [intros H; by exists [], text|]. by intros (? & ? & -> & -> & ?).
    + rewrite match_loop_spec. by setoid_rewrite matchhere_spec.
Qed.

(** ** The line loop prints the matching lines *)

(** The bytes of a file made of lines. *)
Definition unlines (ls : list (list Z)) : list Z := concat (map (fun l => l ++ [NEWLINE]) ls).

Definition plain (l : list Z) : Prop := (NEWLINE ∉ l) /\ (0 ∉ l).
(** A line that fits in the buffer together with its newline and a NUL. *)
Definition line_ok (l : list Z) : Prop := plain l /\ (length l + 2 <= BUFSIZE)%nat.

(** [read] on a file fills the request as long as bytes remain. *)
Definition file_read (r : list Z) (n : nat) : list Z * list Z := (take n r, drop n r).

Lemma strchr_line l p : plain l -> strchr (l ++ NEWLINE :: p) NEWLINE = Some (length l).
Proof.
  intros [Hn H0]. induction l as [|x l IH]; [done|]. simpl.
  apply not_elem_of_cons in Hn as [Hx Hn]. apply not_elem_of_cons in H0 as [Hx0 H0].
  rewrite !(proj2 (Z.eqb_neq _ _)) by done. by rewrite IH.
Qed.

Lemma strchr_rest l : NEWLINE ∉ l -> strchr l NEWLINE = None.
Proof.
  intros Hn. induction l as [|x l IH]; [done|]. simpl. apply not_elem_of_cons in Hn as [Hx Hn].
  rewrite (proj2 (Z.eqb_neq x NEWLINE)) by done. rewrite IH by done. by destruct (x =? 0).
Qed.

Lemma unlines_cons l ls : unlines (l :: ls) = l ++ NEWLINE :: unlines ls.
Proof. unfold unlines. simpl. by rewrite <- app_assoc. Qed.

Lemma unlines_app ls ls' : unlines (ls ++ ls') = unlines ls ++ unlines ls'.
Proof. unfold unlines. by rewrite map_app, concat_app. Qed.

Lemma lines_loop_spec pattern fuel ls rest :
  Forall plain ls -> NEWLINE ∉ rest -> (length (unlines ls ++ rest) <= fuel)%nat ->
  lines_loop fuel pattern (unlines ls ++ rest) = (unlines (filter (fun l => match_ pattern l = true) ls), rest).
Proof.
  intros Hls Hr. revert fuel. induction Hls as [|l ls Hl _ IH]; intros fuel Hf.
  - simpl. destruct fuel as [|fuel]; simpl; [done|]. by rewrite strchr_rest.
  - rewrite unlines_cons, <- app_assoc, <- app_comm_cons in *.
    rewrite length_app, length_cons in Hf. destruct fuel as [|fuel]; [lia|].
    cbn [lines_loop]. rewrite strchr_line by done.
    rewrite take_app_length, drop_app_ge by lia. replace (S (length l) - length l)%nat with 1%nat by lia.
    cbn [drop]. rewrite IH by lia. destruct (match_ pattern l) eqn:E.
    + rewrite filter_cons_True by done. by rewrite unlines_cons, <- app_assoc.
    + rewrite filter_cons_False by congruence. done.
Qed.

(** Any prefix of a file is some whole lines and the start of the next. *)
Lemma take_unlines ls j :
  Forall plain ls -> (j <= length (unlines ls))%nat ->
  exists k rest, take j (unlines ls) = unlines (take k ls) ++ rest /\
    rest ++ drop j (unlines ls) = unlines (drop k ls) /\ plain rest /\
    (forall l, ls !! k = Some l -> (length rest <= length l)%nat) /\
    (forall l, ls !! 0%nat = Some l -> (length l < j)%nat -> (1 <= k)%nat).
Proof.
  intros Hls. revert j. induction Hls as [|l ls Hl _ IH]; intros j Hj.
  - exists O, []. change (unlines []) with (@nil Z). rewrite take_nil, drop_nil. split_and!; [done|done|split; apply not_elem_of_nil|done|done].
  - rewrite unlines_cons in *. destruct (decide (j <= length l)%nat) as [Hle|Hgt].
    + exists O, (take j l). rewrite take_app_le, drop_app_le by done. simpl. split_and!; [done| | | |].
      * by rewrite unlines_cons, app_assoc, take_drop.
      * destruct Hl as [H1 H2]. split; intros Hx; [apply H1|apply H2]; rewrite <- (take_drop j l); set_solver.
      * intros l' [= <-]. rewrite length_take. lia.
      * intros l' [= <-]. lia.
    + rewrite length_app, length_cons in Hj. destruct (IH (j - S (length l))%nat) as (k & rest & E1 & E2 & Hp & Hk & _); [lia|].
      exists (S k), rest. rewrite take_app_ge, drop_app_ge by lia.
      replace (j - length l)%nat with (S (j - S (length l))) by lia.
      rewrite firstn_cons, skipn_cons, E1. cbn [take drop]. rewrite unlines_cons, <- app_assoc.
      split_and!; [done|done|done|done|lia].
Qed.

(** One round of the outer loop on a file: it handles at least a line. *)
Lemma grep_round ls b fd :
  Forall line_ok ls -> b ++ fd = unlines ls -> (length b + 2 <= BUFSIZE)%nat -> fd <> [] ->
  let n := (BUFSIZE - length b - 1)%nat in
  exists k rest, b ++ take n fd = unlines (take k ls) ++ rest /\ rest ++ drop n fd = unlines (drop k ls) /\
    plain rest /\ (length rest + 2 <= BUFSIZE)%nat /\ (length rest < length (b ++ take n fd))%nat.
Proof.
  intros Hls Heq Hb Hfd n. set (j := Nat.min (length b + n) (length (unlines ls))).
  assert (Hpl : Forall plain ls) by (eapply Forall_impl; [exact Hls|]; by intros l [? _]).
  destruct (take_unlines ls j Hpl) as (k & rest & E1 & E2 & Hp & Hk & Hk1); [lia|].
  assert (Hlen : length (unlines ls) = (length b + length fd)%nat) by by rewrite <- Heq, length_app.
  assert (Ht : take j (unlines ls) = b ++ take n fd).
  { rewrite <- Heq, take_app_ge by lia. f_equal. unfold j. rewrite Hlen.
    destruct (decide (n <= length fd)%nat); [f_equal; lia|]. rewrite !take_ge by lia. done. }
  assert (Hd : drop j (unlines ls) = drop n fd).
  { rewrite <- Heq, drop_app_ge by lia. unfold j. rewrite Hlen.
    destruct (decide (n <= length fd)%nat); [f_equal; lia|]. rewrite !drop_ge by lia. done. }
  rewrite Ht in E1. rewrite Hd in E2. exists k, rest. split_and!; [done|done|done| |].
  - destruct (ls !! k) as [l|] eqn:El.
    + specialize (Hk l eq_refl). assert (line_ok l) as [_ Hlok] by by eapply Forall_lookup_1. lia.
    + rewrite lookup_ge_None in El. rewrite (drop_ge ls) in E2 by done. apply app_nil in E2 as [-> _]. simpl.
      unfold BUFSIZE. lia.
  - rewrite E1, length_app. destruct ls as [|l ls].
    { simpl in Hlen. destruct fd; [done|simpl in Hlen; lia]. }
    assert (line_ok l) as [_ Hlok] by (by apply Forall_cons in Hls as [? _]).
    assert (Hj : (length l < j)%nat).
    { unfold j. rewrite unlines_cons in *. rewrite length_app, length_cons in *. lia. }
    specialize (Hk1 l eq_refl Hj). destruct k as [|k]; [lia|]. cbn [take].
    rewrite unlines_cons, length_app, length_cons. lia.
Qed.

Lemma grep_loop_file pattern fuel ls b fd out :
  Forall line_ok ls -> b ++ fd = unlines ls -> NEWLINE ∉ b -> (length b + 2 <= BUFSIZE)%nat ->
  (length fd < fuel)%nat ->
  grep_loop file_read fuel pattern b fd out
  = Some (out ++ unlines (filter (fun l => match_ pattern l = true) ls)).
Proof.
  revert ls b fd out. induction fuel as [|fuel IH]; intros ls b fd out Hls Heq Hb Hlen Hf; [lia|].
  cbn [grep_loop file_read]. destruct (decide (fd = [])) as [->|Hne].
  - rewrite take_nil. rewrite app_nil_r in Heq. subst b. destruct ls as [|l ls]; [by rewrite app_nil_r|].
    exfalso. apply Hb. rewrite unlines_cons. set_solver.
  - destruct (grep_round ls b fd Hls Heq Hlen Hne) as (k & rest & E1 & E2 & [Hr Hr0] & Hrl & Hlt).
    set (n := (BUFSIZE - length b - 1)%nat) in *.
    assert (Hn : (1 <= n)%nat) by (unfold n; lia).
    assert (Hfl : (1 <= length fd)%nat) by (destruct fd; [done|simpl; lia]).
    destruct (take n fd) as [|x data] eqn:Et.
    { destruct fd; [done|]. destruct n; [lia|]. done. }
    rewrite E1 in *. assert (Hpl : Forall plain (take k ls)).
    { apply Forall_take. eapply Forall_impl; [exact Hls|]. by intros l [? _]. }
    rewrite lines_loop_spec by (done || lia). rewrite (proj2 (Nat.eqb_neq _ _)) by lia.
    rewrite (IH (drop k ls)); [|by apply Forall_drop|done|done|done|rewrite length_drop; lia].
    rewrite <- app_assoc, <- unlines_app, <- filter_app, take_drop. done.
Qed.

(** [grep] on a file: if every line fits in the buffer (at most
    [BUFSIZE - 2] bytes before its newline) and holds no NUL, then [grep]
    terminates and writes exactly the matching lines, in order, each with its
    newline; one more [read] than there are bytes bounds the number of
    rounds. *)
Theorem grep_file pattern ls :
  Forall line_ok ls ->
  grep file_read (S (length (unlines ls))) pattern (unlines ls)
  = Some (unlines (filter (fun l => match_ pattern l = true) ls)).
Proof.
  intros Hls. unfold grep. rewrite (grep_loop_file _ _ ls); [done|done|done|apply not_elem_of_nil|simpl; unfold BUFSIZE; lia|lia].
Qed.

Lemma grep_file_witness :
  grep file_read 11 (str "^a*b$") (unlines [str "aab"; str "abc"; str "b"]) = Some (unlines [str "aab"; str "b"]).
Proof.
  etransitivity; [apply (grep_file (str "^a*b$") [str "aab"; str "abc"; str "b"])|vm_compute; reflexivity].
  repeat constructor; vm_compute; try lia; intros H; repeat (apply elem_of_cons in H as [H|H]; [lia|]); by apply elem_of_nil in H.
Defined.

(** [read] on a pipe returns what has been written so far: here one chunk
    per call, cut to the request. *)
Definition pipe_read (r : list (list Z)) (n : nat) : list Z * list (list Z) :=
  match r with
  | [] => ([], [])
  | c :: r' => (take n c, if (length c <=? n)%nat then r' else drop n c :: r')
  end.

(** On a pipe [grep] loses text: when a [read] returns a piece with no
    newline in it, the piece is discarded ([if(p == buf) m = 0]) and the rest
    of its line is matched without it.  The line [hello] written in two
    pieces is not found by the pattern [hello]. *)
Theorem grep_drops_partial_line :
  grep pipe_read 4 (str "hello") [str "hel"; str "lo" ++ [NEWLINE]] = Some [] /\
  match_ (str "hello") (str "hello") = true.
Proof. split; vm_compute; reflexivity. Qed.
