(* ===== verification/Sh.v ===== *)
(** * [sh.c]: the command parser of the shell.

    The line is a byte list [s] (before its NUL); the pointer [*ps] that the
    functions advance is the state of the parser, an offset into [s]; a
    string of a command is the pair of offsets of its first byte and of the
    byte after its last ([argv], [eargv]). *)

From stdpp Require Import sets.
From S2P Require Import Prelude CString Params Grep.

Definition MAXARGS : nat := 10.

(** [struct cmd] and its variants, over strings of type [A]. *)
Inductive cmd (A : Type) :=
| Exec (argv : list A)
| Redir (c : cmd A) (file : A) (mode fd : Z)
| Pipe (left right : cmd A)
| List (left right : cmd A)
| Back (c : cmd A).
Arguments Exec {A} argv.
Arguments Redir {A} c file mode fd.
Arguments Pipe {A} left right.
Arguments List {A} left right.
Arguments Back {A} c.

Definition whitespace : list Z := [32; 9; 13; 10; 11].
Definition symbols : list Z := str "<|>&;()".

(** [strchr(set, c) != 0] of [ulib.c]. *)
Definition in_set (set : list Z) (c : Z) : bool := match strchr set c with Some _ => true | None => false end.

(** A [while] loop that advances a pointer over bytes that satisfy [f]. *)
Fixpoint run_while (f : Z -> bool) (l : list Z) : nat :=
  match l with
  | [] => O
  | c :: l' => if f c then S (run_while f l') else O
  end.

Section parser.
Context (s : list Z).

(** [*p], which is the NUL at the end. *)
Definition at_ (p : nat) : Z := default 0 (s !! p).
Definition scan (f : Z -> bool) (p : nat) : nat := (p + run_while f (drop p s))%nat.
Definition is_space : Z -> bool := in_set whitespace.
Definition is_word (c : Z) : bool := negb (in_set whitespace c) && negb (in_set symbols c).

Definition gettoken : M nat (Z * nat * nat) :=
  p ← get;
  let q := scan is_space p in
  let c := at_ q in
  let '(ret, eq) :=
    if c =? 0 then (0, q)
    else if in_set (str "|();&<") c then (c, S q)
    else if c =? 62 then (if at_ (S q) =? 62 then (43, S (S q)) else (62, S q))
    else (97, scan is_word q) in
  modify (fun _ => scan is_space eq) ;;
  mret (ret, q, eq).

Definition peek (toks : list Z) : M nat bool :=
  modify (scan is_space) ;;
  p ← get;
  mret (negb (at_ p =? 0) && in_set toks (at_ p)).

Abbreviation command := (cmd (nat * nat)).

Fixpoint parseredirs (fuel : nat) (c : command) : M nat command :=
  match fuel with
  | O => outOfFuel
  | S fuel' =>
      b ← peek (str "<>");
      if negb b then mret c else
      t ← gettoken;
      u ← gettoken;
      let '(w, q, eq) := u in
      if negb (w =? 97) then panic "missing file for redirection" else
      let tok := t.1.1 in
      if tok =? 60 then parseredirs fuel' (Redir c (q, eq) O_RDONLY 0)
      else if tok =? 62 then parseredirs fuel' (Redir c (q, eq) (Z.lor O_WRONLY O_CREATE) 1)
      else if tok =? 43 then parseredirs fuel' (Redir c (q, eq) (Z.lor O_WRONLY O_CREATE) 1)
      else parseredirs fuel' c
  end.

(** The [execcmd] is filled in while it may already be wrapped in
    redirections: its new argument goes below them. *)
Fixpoint add_arg (c : command) (a : nat * nat) : command :=
  match c with
  | Exec argv => Exec (argv ++ [a])
  | Redir c' f m d => Redir (add_arg c' a) f m d
  | c => c
  end.

(** The argument loop of [parseexec], run at most [MAXARGS] times. *)
Fixpoint args_loop (fuel : nat) (left : nat) (ret : command) : M nat command :=
  b ← peek (str "|)&;");
  if (b : bool) then mret ret else
  u ← gettoken;
  let '(tok, q, eq) := u in
  if tok =? 0 then mret ret
  else if negb (tok =? 97) then panic "syntax"
  else match left with
       | O | S O => panic "too many args"
       | S left' => r ← parseredirs fuel (add_arg ret (q, eq)); args_loop fuel left' r
       end.

(** [while(peek(ps, es, "&"))] of [parseline]. *)
Fixpoint amps (fuel : nat) (c : command) : M nat command :=
  match fuel with
  | O => outOfFuel
  | S fuel' =>
      b ← peek (str "&");
      if (b : bool) then gettoken ;; amps fuel' (Back c) else mret c
  end.

Fixpoint parseline (fuel : nat) : M nat command :=
  match fuel with
  | O => outOfFuel
  | S fuel' =>
      c ← parsepipe fuel';
      c ← amps fuel c;
      b ← peek (str ";");
      if (b : bool) then gettoken ;; r ← parseline fuel'; mret (List c r) else mret c
  end
with parsepipe (fuel : nat) : M nat command :=
  match fuel with
  | O => outOfFuel
  | S fuel' =>
      c ← parseexec fuel';
      b ← peek (str "|");
      if (b : bool) then gettoken ;; r ← parsepipe fuel'; mret (Pipe c r) else mret c
  end
with parseexec (fuel : nat) : M nat command :=
  match fuel with
  | O => outOfFuel
  | S fuel' =>
      b ← peek (str "(");
      if (b : bool) then parseblock fuel' else
      ret ← parseredirs fuel (Exec []);
      args_loop fuel MAXARGS ret
  end
with parseblock (fuel : nat) : M nat command :=
  match fuel with
  | O => outOfFuel
  | S fuel' =>
      b ← peek (str "(");
      if negb b then panic "parseblock" else
      gettoken ;;
      c ← parseline fuel';
      b ← peek (str ")");
      if negb b then panic "syntax - missing )" else
      gettoken ;;
      parseredirs fuel c
  end.

(** [parsecmd] before [nulterminate]. *)
Definition parse (fuel : nat) : M nat command :=
  c ← parseline fuel;
  peek [] ;;
  p ← get;
  if negb (p =? length s)%nat then panic "syntax" else mret c.
End parser.

(** [nulterminate]: NULs are stored at the ends of the strings. *)
Fixpoint nulterminate (c : cmd (nat * nat)) (buf : list Z) : list Z :=
  match c with
  | Exec argv => foldl (fun b a => <[a.2 := 0]> b) buf argv
  | Redir c' f _ _ => <[f.2 := 0]> (nulterminate c' buf)
  | Pipe l r => nulterminate r (nulterminate l buf)
  | List l r => nulterminate r (nulterminate l buf)
  | Back c' => nulterminate c' buf
  end.

(** Enough for every line: each byte of input costs at most four calls. *)
Definition parse_fuel (s : list Z) : nat := (4 * length s + 5)%nat.

(** [buf] is the line with its NUL. *)
Definition parsecmd (buf : list Z) : res nat (cmd (nat * nat) * list Z) :=
  let s := cstr buf in
  match parse s (parse_fuel s) O with
  | Ok c p => Ok (c, nulterminate c buf) p
  | Panic m => Panic m
  | Blocked p => Blocked p
  | Fault => Fault
  | OutOfFuel => OutOfFuel
  end.

(** ** The scanner *)

Definition no_nul (s : list Z) : Prop := 0 ∉ s.

#[export] Instance no_nul_dec s : Decision (no_nul s).
Proof. unfold no_nul. apply _. Defined.

(** For literal sets. *)
Ltac lit := by apply (bool_decide_unpack _); vm_compute.

Lemma run_while_le f l : (run_while f l <= length l)%nat.
Proof. induction l as [|c l IH]; simpl; [lia|]. destruct (f c); lia. Qed.

Lemma run_while_in f l i : (i < run_while f l)%nat -> exists c, l !! i = Some c /\ f c = true.
Proof.
  revert i. induction l as [|c l IH]; intros i Hi; simpl in Hi; [lia|]. destruct (f c) eqn:E; [|lia].
  destruct i as [|i]; [by exists c|]. apply IH. lia.
Qed.

Lemma run_while_stop f l : (run_while f l < length l)%nat -> exists c, l !! run_while f l = Some c /\ f c = false.
Proof.
  induction l as [|c l IH]; simpl; [lia|]. destruct (f c) eqn:E; simpl; intros H; [apply IH; lia|by exists c].
Qed.

(** The strings of a command. *)
Fixpoint strings {A} (c : cmd A) : list A :=
  match c with
  | Exec argv => argv
  | Redir c' f _ _ => f :: strings c'
  | Pipe l r | List l r => strings l ++ strings r
  | Back c' => strings c'
  end.

(** [buf'] is [buf] with NULs at the offsets [E]. *)
Definition nuls_at (E : list nat) (buf buf' : list Z) : Prop :=
  forall i, buf' !! i = if decide (i ∈ E) then (fun _ => 0) <$> buf !! i else buf !! i.

Lemma nuls_nil buf : nuls_at [] buf buf.
Proof. intros i. by rewrite decide_False by apply not_elem_of_nil. Qed.

Lemma nuls_one e buf : nuls_at [e] buf (<[e := 0]> buf).
Proof.
  intros i. destruct (decide (i = e)) as [->|Hne].
  - rewrite decide_True by (by apply list_elem_of_singleton). destruct (decide (e < length buf)%nat) as [Hl|Hl].
    + rewrite list_lookup_insert_eq by done. by destruct (lookup_lt_is_Some_2 buf e Hl) as [x ->].
    + by rewrite list_insert_ge, lookup_ge_None_2 by lia.
  - rewrite decide_False by (by rewrite list_elem_of_singleton). by apply list_lookup_insert_ne.
Qed.

Lemma nuls_app E1 E2 b1 b2 b3 : nuls_at E1 b1 b2 -> nuls_at E2 b2 b3 -> nuls_at (E1 ++ E2) b1 b3.
Proof.
  intros H1 H2 i. rewrite H2, H1. destruct (decide (i ∈ E1)), (decide (i ∈ E2)), (decide (i ∈ E1 ++ E2)) as [H|H];
    rewrite elem_of_app in H; try tauto; by destruct (b1 !! i).
Qed.

Lemma nuls_perm E E' b b' : (forall i, i ∈ E <-> i ∈ E') -> nuls_at E b b' -> nuls_at E' b b'.
Proof. intros HE H i. rewrite H. by rewrite (decide_ext _ _ _ _ (HE i)). Qed.

Lemma nulterminate_spec c buf : nuls_at (map snd (strings c)) buf (nulterminate c buf).
Proof.
  revert buf. induction c as [argv|c IH f m d|l IHl r IHr|l IHl r IHr|c IH]; intros buf; simpl.
  - revert buf. induction argv as [|a argv IH]; intros buf; simpl; [apply nuls_nil|].
    change (a.2 :: map snd argv) with ([a.2] ++ map snd argv). eapply nuls_app; [apply nuls_one|apply IH].
  - eapply nuls_perm; [|eapply nuls_app; [apply IH|apply nuls_one]]. intros i. set_solver.
  - rewrite map_app. by eapply nuls_app.
  - rewrite map_app. by eapply nuls_app.
  - apply IH.
Qed.

Section scanner.
Context (s : list Z).
Hypothesis Hs : no_nul s.
Abbreviation at_ := (at_ s).
Abbreviation scan := (scan s).

Lemma at_lt p : (p < length s)%nat -> s !! p = Some (at_ p) /\ at_ p <> 0.
Proof.
  intros Hp. unfold Sh.at_. destruct (lookup_lt_is_Some_2 s p Hp) as [c Hc]. rewrite Hc. split; [done|].
  simpl. intros ->. apply Hs. by eapply list_elem_of_lookup_2.
Qed.

Lemma at_end p : (length s <= p)%nat -> at_ p = 0.
Proof. intros Hp. unfold Sh.at_. by rewrite lookup_ge_None_2. Qed.

Lemma at_zero p : (p <= length s)%nat -> at_ p = 0 <-> p = length s.
Proof.
  intros Hp. split; [|intros ->; by apply at_end]. intros H. destruct (decide (p = length s)); [done|].
  destruct (at_lt p); [lia|done].
Qed.

Lemma scan_bounds f p : (p <= length s)%nat -> (p <= scan f p <= length s)%nat.
Proof. intros Hp. unfold Sh.scan. pose proof (run_while_le f (drop p s)). rewrite length_drop in *. lia. Qed.

Lemma scan_in f p i : (p <= i < scan f p)%nat -> f (at_ i) = true.
Proof.
  intros Hi. unfold Sh.scan in Hi. destruct (run_while_in f (drop p s) (i - p)) as (c & Hc & Hf); [lia|].
  rewrite lookup_drop in Hc. replace (p + (i - p))%nat with i in Hc by lia. unfold Sh.at_. by rewrite Hc.
Qed.

Lemma scan_stop f p : (p <= length s)%nat -> (scan f p < length s)%nat -> f (at_ (scan f p)) = false.
Proof.
  intros Hp Hlt. unfold Sh.scan in *. destruct (run_while_stop f (drop p s)) as (c & Hc & Hf).
  - rewrite length_drop. lia.
  - rewrite lookup_drop in Hc. unfold Sh.at_. by rewrite Hc.
Qed.

Lemma scan_here f p : f (at_ p) = false -> scan f p = p.
Proof.
  intros Hf. unfold Sh.scan. destruct (drop p s) as [|c l] eqn:E; simpl; [lia|].
  assert (Hc : s !! p = Some c) by (rewrite <- (Nat.add_0_r p), <- lookup_drop, E; done).
  unfold Sh.at_ in Hf. rewrite Hc in Hf. simpl in Hf. rewrite Hf. lia.
Qed.

Lemma scan_scan f p : (p <= length s)%nat -> scan f (scan f p) = scan f p.
Proof.
  intros Hp. destruct (decide (scan f p = length s)) as [E|Hne].
  - rewrite E. unfold Sh.scan. rewrite drop_ge by lia. simpl. lia.
  - apply scan_here, scan_stop; [done|]. pose proof (scan_bounds f p Hp). lia.
Qed.

(** A word of the line: not empty, and it cannot be extended to either side. *)
Definition word_at (a : nat * nat) : Prop :=
  (a.1 < a.2 <= length s)%nat /\ (forall i, (a.1 <= i < a.2)%nat -> is_word (at_ i) = true) /\
  (a.1 = O \/ is_word (at_ (pred a.1)) = false) /\ (a.2 = length s \/ is_word (at_ a.2) = false).

(** A position that is not inside a word. *)
Definition edge (p : nat) : Prop := p = O \/ is_word (at_ (pred p)) = false \/ is_word (at_ p) = false \/ p = length s.

Lemma in_set_elem set c : no_nul set -> in_set set c = true <-> c ∈ set.
Proof.
  intros Hn. unfold in_set. induction set as [|x set IH]; simpl; [split; [done|intros H; by apply elem_of_nil in H]|].
  apply not_elem_of_cons in Hn as [Hx Hn]. rewrite (proj2 (Z.eqb_neq x 0)) by congruence. specialize (IH Hn).
  rewrite elem_of_cons. destruct (Z.eqb_spec x c) as [->|Hne]; [tauto|].
  destruct (strchr set c); simpl in *; intuition congruence.
Qed.

Lemma is_word_spec c :
  is_word c = true <-> (c ∉ whitespace) /\ (c ∉ symbols).
Proof.
  unfold is_word. rewrite andb_true_iff, !negb_true_iff, <- !not_true_iff_false, !in_set_elem by lit. done.
Qed.

Lemma is_word_space c : is_space c = true -> is_word c = false.
Proof. unfold is_space, is_word. by intros ->. Qed.

(** No word starts in the spaces that a scan skips. *)
Lemma spaces_no_word p a : word_at a -> (p <= a.1 < scan is_space p)%nat -> False.
Proof.
  intros (Hb & Hw & _) Ha. pose proof (is_word_space _ (scan_in is_space p a.1 Ha)) as E. rewrite Hw in E by lia. done.
Qed.

Lemma edge_space p : (p <= length s)%nat -> edge p -> edge (scan is_space p).
Proof.
  intros Hp He. pose proof (scan_bounds is_space p Hp). destruct (decide (scan is_space p = p)) as [->|Hne]; [done|].
  right; left. apply is_word_space, (scan_in is_space p). lia.
Qed.

(** The first byte behind the spaces starts a word, if it belongs to one. *)
Lemma edge_start p : (p <= length s)%nat -> edge p -> (scan is_space p < length s)%nat -> is_word (at_ (scan is_space p)) = true ->
  scan is_space p = O \/ is_word (at_ (pred (scan is_space p))) = false.
Proof. intros Hp He Hlt Hw. destruct (edge_space p Hp He) as [?|[?|[?|?]]]; [by left|by right|congruence|lia]. Qed.

(** Two words that start in the same place are the same, and a word does not start inside another. *)
Lemma words_apart a b : word_at a -> word_at b -> (a.1 <= b.1 < a.2)%nat -> b = a.
Proof.
  destruct a as [q e], b as [q' e']. intros (Hb & Hw & _ & Hr) (Hb' & Hw' & Hl' & Hr') H. simpl in *.
  assert (q' = q) as -> by (destruct (decide (q' = q)); [done|]; destruct Hl' as [|Hl']; [lia|]; rewrite Hw in Hl' by lia; done).
  f_equal. destruct (decide (e' = e)); [done|]. destruct (decide (e' < e)%nat).
  - destruct Hr' as [|E]; [lia|]. by rewrite Hw in E by lia.
  - destruct Hr as [|E]; [lia|]. by rewrite Hw' in E by lia.
Qed.

(** The token at [q]: its code and its end. *)
Lemma gettoken_spec p :
  (p <= length s)%nat -> edge p ->
  exists ret eq, let q := scan is_space p in
    gettoken s p = Ok (ret, q, eq) (scan is_space eq) /\ (q <= eq <= length s)%nat /\ edge eq /\
    (forall a, word_at a -> (q <= a.1 < eq)%nat -> ret = 97 /\ a = (q, eq)) /\
    (at_ q = 60 -> ret = 60) /\ (at_ q = 62 -> ret = 62 \/ ret = 43) /\
    (q = length s /\ ret = 0 \/
     (q < eq)%nat /\ ret <> 0 /\ (ret = 97 -> word_at (q, eq) /\ is_word (at_ q) = true)).
Proof.
  intros Hp He. pose proof (scan_bounds is_space p Hp) as Hq. pose proof (edge_start p Hp He) as Hst0. unfold gettoken, mbind, M_bind, get, modify, mret, M_ret. cbn zeta.
  set (q := scan is_space p) in *. destruct (Z.eqb_spec (at_ q) 0) as [H0|H0].
  { assert (q = length s) as Hl by (apply at_zero; [lia|done]). exists 0, q. split; [done|]. split; [lia|]. split; [by right; right; right|]. split; [lia|]. split_and!; [congruence..|]. by left. }
  assert (Hlt : (q < length s)%nat).
  { destruct (decide (q = length s)) as [E|]; [|lia]. destruct H0. apply at_end. lia. }
  assert (forall n, (q < n)%nat -> (forall i, (q <= i < n)%nat -> is_word (at_ i) = false) -> edge n /\ forall a, word_at a -> (q <= a.1 < n)%nat -> False) as Hsym.
  { intros n Hn Hi. split; [right; left; apply Hi; lia|]. intros a (Hb & Hw & _) Ha. pose proof (Hi a.1 Ha) as E. rewrite Hw in E by lia. done. }
  destruct (in_set (str "|();&<") (at_ q)) eqn:E1.
  { exists (at_ q), (S q). split; [done|]. split; [lia|]. apply in_set_elem in E1; [|lit].
    assert (Hne : at_ q <> 97 /\ at_ q <> 62) by (split; intros E; rewrite E in E1; revert E1; apply (bool_decide_unpack (~ _)); by vm_compute).
    assert (is_word (at_ q) = false) as Hnw by (rewrite <- not_true_iff_false, is_word_spec; intros [_ Hn]; apply Hn; revert E1; unfold symbols; cbn; rewrite !elem_of_cons; tauto).
    destruct (Hsym (S q)) as [Hed Hno]; [lia|intros i Hi; by replace i with q by lia|]. split; [done|]. split; [intros a Ha Hi; destruct (Hno a Ha Hi)|].
    split; [done|]. split; [tauto|]. right. split; [lia|]. split; [done|]. tauto. }
  destruct (Z.eqb_spec (at_ q) 62) as [E2|E2].
  { assert (forall i, at_ i = 62 -> is_word (at_ i) = false) as H62 by (intros i ->; done). destruct (Z.eqb_spec (at_ (S q)) 62) as [E3|E3].
    - exists 43, (S (S q)). split; [done|].
      assert (S q < length s)%nat by (destruct (decide (S q < length s)%nat); [done|rewrite at_end in E3 by lia; done]).
      split; [lia|]. destruct (Hsym (S (S q))) as [Hed Hno]; [lia|intros i Hi; apply H62; destruct (decide (i = q)) as [->|]; [done|]; by replace i with (S q) by lia|].
      split; [done|]. split; [intros a Ha Hi; destruct (Hno a Ha Hi)|]. split; [congruence|]. split; [by right|]. right. split; [lia|]. split; [done|]. done.
    - exists 62, (S q). split; [done|]. split; [lia|]. destruct (Hsym (S q)) as [Hed Hno]; [lia|intros i Hi; apply H62; by replace i with q by lia|].
      split; [done|]. split; [intros a Ha Hi; destruct (Hno a Ha Hi)|]. split; [congruence|]. split; [by left|]. right. split; [lia|]. split; [done|]. done. }
  assert (Hw : is_word (at_ q) = true).
  { apply is_word_spec. split.
    - pose proof (scan_stop is_space p Hp Hlt) as Hst. fold q in Hst. unfold is_space in Hst.
      rewrite <- not_true_iff_false, in_set_elem in Hst by lit. done.
    - rewrite <- not_true_iff_false, in_set_elem in E1 by lit. intros Hin. apply E1.
      revert Hin E2. unfold symbols. cbn. rewrite !elem_of_cons. tauto. }
  pose proof (scan_bounds is_word q ltac:(lia)) as Hb.
  assert (Hgt : (q < scan is_word q)%nat).
  { destruct (decide (scan is_word q = q)) as [E|]; [|lia]. pose proof (scan_stop is_word q ltac:(lia)) as Hst.
    rewrite E in Hst. specialize (Hst Hlt). congruence. }
  assert (Hend : scan is_word q = length s \/ is_word (at_ (scan is_word q)) = false) by (destruct (decide (scan is_word q = length s)) as [|Hne]; [by left|right]; apply scan_stop; lia).
  assert (Hwa : word_at (q, scan is_word q)) by (split; [simpl; lia|]; split; [intros i Hi; by eapply scan_in|]; split; [by apply Hst0|done]).
  exists 97, (scan is_word q). split; [done|]. split; [lia|]. split; [unfold edge; tauto|]. split; [intros a Ha Hi; split; [done|by apply (words_apart (q, scan is_word q) a)]|].
  split; [intros E; rewrite E in Hw; done|]. split; [done|]. right. split; [done|]. split; [done|]. done.
Qed.

Lemma peek_spec toks p :
  (p <= length s)%nat -> no_nul toks ->
  peek s toks p = Ok (bool_decide (at_ (scan is_space p) ∈ toks)) (scan is_space p).
Proof.
  intros Hp Hn. unfold peek, mbind, M_bind, get, modify, mret, M_ret. f_equal.
  destruct (Z.eqb_spec (at_ (scan is_space p)) 0) as [E|E]; simpl.
  - rewrite E. symmetry. by apply bool_decide_eq_false.
  - destruct (in_set toks (at_ (scan is_space p))) eqn:Ei; symmetry.
    + apply bool_decide_eq_true. by apply in_set_elem.
    + apply bool_decide_eq_false. rewrite <- in_set_elem by done. congruence.
Qed.

(** ** The parser returns or panics, and its strings are the words of the line *)

(** Between [p0] and [p], a parsing function has made [c] of exactly the words there. *)
Record parsed (p0 : nat) (c : cmd (nat * nat)) (p : nat) : Prop := {
  pa_range : (p0 <= p <= length s)%nat;
  pa_edge : edge p;
  pa_words : Forall word_at (strings c);
  pa_all : forall a, word_at a -> (p0 <= a.1 < p)%nat -> a ∈ strings c;
}.

Lemma parsed_nil p : (p <= length s)%nat -> edge p -> parsed p (Exec []) p.
Proof. intros. split; [lia|done|constructor|lia]. Qed.

(** Behind a piece of the line without words. *)
Lemma parsed_skip p0 c p p' : parsed p0 c p -> (p <= p' <= length s)%nat -> edge p' -> (forall a, word_at a -> (p <= a.1 < p')%nat -> False) -> parsed p0 c p'.
Proof.
  intros [Hr _ Hw Ha] Hp He Hn. split; [lia|done|done|]. intros a Hwa Hi. destruct (decide (a.1 < p)%nat); [apply Ha; [done|lia]|]. destruct (Hn a Hwa). lia.
Qed.

Lemma parsed_space p0 c p : parsed p0 c p -> parsed p0 c (scan is_space p).
Proof.
  intros H. pose proof (pa_range _ _ _ H). eapply parsed_skip; [done|pose proof (scan_bounds is_space p); lia|apply edge_space; [lia|by eapply pa_edge]|].
  intros a Ha Hi. by eapply spaces_no_word.
Qed.

(** Two commands, one behind the other, in a command that has the strings of both. *)
Lemma parsed_both p0 l p r p' c : parsed p0 l p -> parsed p r p' -> strings c = strings l ++ strings r -> parsed p0 c p'.
Proof.
  intros [Hr _ Hw Ha] [Hr' He' Hw' Ha'] E. split; [lia|done|rewrite E; by apply Forall_app|]. intros a Hwa Hi. rewrite E. apply elem_of_app.
  destruct (decide (a.1 < p)%nat); [left; apply Ha; [done|lia]|right; apply Ha'; [done|lia]].
Qed.

Lemma parsed_word p0 c p a p' c' : parsed p0 c p -> (p <= p' <= length s)%nat -> edge p' -> word_at a -> (forall b, word_at b -> (p <= b.1 < p')%nat -> b = a) ->
  strings c' ≡ₚ a :: strings c -> parsed p0 c' p'.
Proof.
  intros [Hr _ Hw Ha] Hp He Hwa Hone E. split; [lia|done|rewrite E; by constructor|]. intros b Hb Hi. rewrite E. apply elem_of_cons.
  destruct (decide (b.1 < p)%nat); [right; apply Ha; [done|lia]|left; apply Hone; [done|lia]].
Qed.

Lemma wpp_peek toks p (Q : bool -> nat -> Prop) :
  (p <= length s)%nat -> no_nul toks ->
  Q (bool_decide (at_ (scan is_space p) ∈ toks)) (scan is_space p) -> wpp (peek s toks) Q p.
Proof. intros Hp Hn HQ. eapply wpp_ok; [by apply peek_spec|done]. Qed.

(** A token that is not a word, and one that is. *)
Lemma wpp_gettoken p0 c p (Q : Z * nat * nat -> nat -> Prop) :
  parsed p0 c p ->
  (forall ret q eq p', (p <= p' <= length s)%nat -> edge p' -> (ret <> 97 -> parsed p0 c p') ->
     (ret = 97 -> word_at (q, eq) /\ is_word (at_ (scan is_space p)) = true /\ forall c', strings c' ≡ₚ (q, eq) :: strings c -> parsed p0 c' p') ->
     (ret <> 0 -> (p < p')%nat) -> (at_ (scan is_space p) <> 0 -> ret <> 0) ->
     (at_ (scan is_space p) = 60 -> ret = 60) -> (at_ (scan is_space p) = 62 -> ret = 62 \/ ret = 43) -> Q (ret, q, eq) p') ->
  wpp (gettoken s) Q p.
Proof.
  intros Hc HQ. pose proof (pa_range _ _ _ Hc) as Hr. assert (p <= length s)%nat as Hp by lia. destruct (gettoken_spec p Hp (pa_edge _ _ _ Hc)) as (ret & eq & E & Hb & He & Hone & H60 & H62 & Hcase). eapply wpp_ok; [exact E|].
  pose proof (scan_bounds is_space p Hp). pose proof (scan_bounds is_space eq ltac:(lia)). pose proof (edge_space eq ltac:(lia) He) as He'.
  assert (forall a, word_at a -> (p <= a.1 < scan is_space eq)%nat -> ret = 97 /\ a = (scan is_space p, eq)) as Hone'.
  { intros a Ha Hi. destruct (decide (a.1 < scan is_space p)%nat); [exfalso; apply (spaces_no_word p a Ha); lia|]. destruct (decide (a.1 < eq)%nat); [apply Hone; [done|lia]|].
    exfalso. apply (spaces_no_word eq a Ha). lia. }
  apply HQ; try done.
  - lia.
  - intros Hne. eapply parsed_skip; [exact Hc|lia|done|]. intros a Ha Hi. by destruct (Hone' a Ha Hi).
  - intros ->. destruct Hcase as [[_ ?]|(_ & _ & Hw)]; [done|]. destruct (Hw eq_refl) as [Hwa Hw']. split; [done|]. split; [done|]. intros c' Hc'. eapply (parsed_word _ _ _ (scan is_space p, eq)); [exact Hc|lia|done|done| |done].
    intros b Hb' Hi. by apply Hone'.
  - intros Hn. destruct Hcase as [[_ ?]|(? & _)]; [done|lia].
  - intros Hn. destruct Hcase as [[Hq _]|(_ & ? & _)]; [|done]. rewrite Hq, at_end in Hn by lia. done.
Qed.

(** After a successful [peek] the next token is one of the symbols. *)
Lemma peeked toks p :
  (p <= length s)%nat -> no_nul toks -> toks ⊆ symbols -> bool_decide (at_ (scan is_space p) ∈ toks) = true ->
  at_ (scan is_space (scan is_space p)) <> 0 /\ is_word (at_ (scan is_space (scan is_space p))) = false /\ at_ (scan is_space (scan is_space p)) ∈ toks.
Proof.
  intros Hp Hn Hsub Hb. rewrite scan_scan by done. apply bool_decide_eq_true in Hb. split_and!; [intros E; rewrite E in Hb; done| |done].
  rewrite <- not_true_iff_false, is_word_spec. intros [_ H]. by apply H, Hsub.
Qed.

(** The token after such a [peek]. *)
Lemma wpp_symbol toks p0 c p (Q : Z * nat * nat -> nat -> Prop) :
  parsed p0 c p -> no_nul toks -> toks ⊆ symbols -> bool_decide (at_ (scan is_space p) ∈ toks) = true ->
  (forall t p', (p < p')%nat -> parsed p0 c p' -> (toks = str "<>" -> t.1.1 = 60 \/ t.1.1 = 62 \/ t.1.1 = 43) -> Q t p') -> wpp (gettoken s) Q (scan is_space p).
Proof.
  intros Hc Hn Hsub Hb HQ. pose proof (pa_range _ _ _ Hc) as Hr. destruct (peeked toks p) as (H0 & Hw & Hin); [lia|done..|]. pose proof (scan_bounds is_space p ltac:(lia)).
  eapply wpp_gettoken; [by apply parsed_space|]. intros ret q eq p' Hp' He Hno Hwd Hlt Hne H60 H62. specialize (Hlt (Hne H0)). apply HQ; [lia| |].
  - apply Hno. intros E. destruct (Hwd E) as (_ & E' & _). congruence.
  - intros ->. simpl. apply elem_of_cons in Hin as [E|Hin]; [by left; apply H60|]. apply list_elem_of_singleton in Hin. by right; apply H62.
Qed.

Ltac sub := (intros ?; unfold symbols; cbn; rewrite !elem_of_cons, ?elem_of_nil; tauto).

(** [c] is a command to which [add_arg] can add. *)
Fixpoint open_args (c : cmd (nat * nat)) : bool := match c with Exec _ => true | Redir c' _ _ _ => open_args c' | _ => false end.

Lemma add_arg_strings c a : open_args c = true -> strings (add_arg c a) ≡ₚ a :: strings c /\ open_args (add_arg c a) = true.
Proof.
  induction c as [argv|c IH f m d| | |]; simpl; try done; intros Ho.
  - split; [|done]. by rewrite Permutation_app_comm.
  - destruct (IH Ho) as [E ?]. split; [|done]. rewrite E. constructor.
Qed.

Lemma parseredirs_ok fuel c p0 p :
  parsed p0 c p -> (length s - p < fuel)%nat -> wpp (parseredirs s fuel c) (fun c' p' => (p <= p')%nat /\ parsed p0 c' p' /\ open_args c' = open_args c) p.
Proof.
  revert c p. induction fuel as [|fuel IH]; intros c p Hc Hf; [lia|]. cbn [parseredirs]. pose proof (pa_range _ _ _ Hc) as Hp.
  apply wpp_bind, wpp_peek; [lia|lit|]. pose proof (scan_bounds is_space p ltac:(lia)) as Hb.
  destruct (bool_decide _) eqn:Eb; cbn [negb]; [|eapply wpp_ok; [done|split; [lia|by split; [apply parsed_space|]]]].
  apply wpp_bind. eapply (wpp_symbol (str "<>")); [done|lit|sub|done|]. intros t p1 Hp1 Hc1 Ht. specialize (Ht eq_refl).
  apply wpp_bind. eapply wpp_gettoken; [exact Hc1|]. intros w q eq p2 Hp2 He2 _ Hw _ _ _ _.
  destruct (Z.eqb_spec w 97) as [->|]; cbn [negb]; [|done]. destruct (Hw eq_refl) as (_ & _ & Hc2).
  assert (forall m d, wpp (parseredirs s fuel (Redir c (q, eq) m d)) (fun c' p' => (p <= p')%nat /\ parsed p0 c' p' /\ open_args c' = open_args c) p2) as Hgo.
  { intros m d. eapply wpp_mono; [apply IH; [by apply Hc2|lia]|]. intros c' p' (? & ? & ?). split_and!; [lia|done|done]. }
  destruct Ht as [->|[->| ->]]; apply Hgo.
Qed.

Lemma args_loop_ok fuel left ret p0 p :
  parsed p0 ret p -> open_args ret = true -> (length s - p < fuel)%nat -> wpp (args_loop s fuel left ret) (fun c' p' => (p <= p')%nat /\ parsed p0 c' p') p.
Proof.
  revert ret p. induction left as [|left IH]; intros ret p Hc Ho Hf; cbn [args_loop]; pose proof (pa_range _ _ _ Hc) as Hp;
    (apply wpp_bind, wpp_peek; [lia|lit|]); pose proof (scan_bounds is_space p ltac:(lia)) as Hb; pose proof (parsed_space _ _ _ Hc) as Hc0;
    (destruct (bool_decide _) eqn:Eb; [eapply wpp_ok; [done|by split; [lia|]]|]);
    (apply wpp_bind; eapply wpp_gettoken; [exact Hc0|]); intros tok q eq p1 Hp1 He1 Hno Hw _ _ _ _;
    (destruct (Z.eqb_spec tok 0) as [->|]; [eapply wpp_ok; [done|by split; [lia|apply Hno]]|]);
    (destruct (Z.eqb_spec tok 97) as [->|]; cbn [negb]; [|done]); [done|].
  destruct left as [|left]; [done|]. destruct (Hw eq_refl) as (_ & _ & Hc1). destruct (add_arg_strings ret (q, eq) Ho) as [Es Ho']. apply wpp_bind.
  eapply wpp_mono; [apply parseredirs_ok; [by apply Hc1|lia]|]. intros c' p' (? & Hc' & Ho2). pose proof (pa_range _ _ _ Hc').
  eapply wpp_mono; [apply IH; [done|congruence|lia]|]. intros c2 p2 [? ?]. split; [lia|done].
Qed.

Lemma amps_ok fuel c p0 p :
  parsed p0 c p -> (length s - p < fuel)%nat -> wpp (amps s fuel c) (fun c' p' => (p <= p')%nat /\ parsed p0 c' p') p.
Proof.
  revert c p. induction fuel as [|fuel IH]; intros c p Hc Hf; [lia|]. cbn [amps]. pose proof (pa_range _ _ _ Hc) as Hp.
  apply wpp_bind, wpp_peek; [lia|lit|]. pose proof (scan_bounds is_space p ltac:(lia)) as Hb.
  destruct (bool_decide _) eqn:Eb; [|eapply wpp_ok; [done|by split; [lia|apply parsed_space]]].
  apply wpp_bind. eapply (wpp_symbol (str "&")); [done|lit|sub|done|]. intros t p1 Hp1 Hc1 _. assert (parsed p0 (Back c) p1) as Hc2 by (destruct Hc1; by split). pose proof (pa_range _ _ _ Hc2).
  eapply wpp_mono; [apply IH; [exact Hc2|lia]|]. intros c2 p2 [? ?]. split; [lia|done].
Qed.

(** [c], a symbol of [toks], and a second command behind it. *)
Lemma tail_ok toks (f : M nat (cmd (nat * nat))) (K : cmd (nat * nat) -> cmd (nat * nat) -> cmd (nat * nat)) p0 c p :
  parsed p0 c p -> no_nul toks -> toks ⊆ symbols -> (forall l r, strings (K l r) = strings l ++ strings r) ->
  (forall p1, (p < p1 <= length s)%nat -> edge p1 -> wpp f (parsed p1) p1) ->
  wpp (b ← peek s toks; if (b : bool) then gettoken s ;; r ← f; mret (K c r) else mret c) (parsed p0) p.
Proof.
  intros Hc Hn Hsub HK Hf. pose proof (pa_range _ _ _ Hc) as Hp. apply wpp_bind, wpp_peek; [lia|done|].
  destruct (bool_decide _) eqn:Eb; [|eapply wpp_ok; [done|by apply parsed_space]].
  apply wpp_bind. eapply (wpp_symbol toks); [done..|]. intros t p1 Hp1 Hc1 _. pose proof (pa_range _ _ _ Hc1).
  apply wpp_bind. eapply wpp_mono; [apply Hf; [lia|by eapply pa_edge]|]. intros r p4 Hr. eapply wpp_ok; [done|]. by eapply parsed_both.
Qed.

(** The recursive functions, with the fuel each needs. *)
Lemma parse_rec_ok fuel p :
  (p <= length s)%nat -> edge p -> let n := (length s - p)%nat in
  ((4 * n + 4 <= fuel)%nat -> wpp (parseline s fuel) (parsed p) p) /\
  ((4 * n + 3 <= fuel)%nat -> wpp (parsepipe s fuel) (parsed p) p) /\
  ((4 * n + 2 <= fuel)%nat -> wpp (parseexec s fuel) (parsed p) p) /\
  ((4 * n + 1 <= fuel)%nat -> wpp (parseblock s fuel) (parsed p) p).
Proof.
  revert p. induction fuel as [|fuel IH]; intros p Hp He n; [lia|].
  pose proof (scan_bounds is_space p Hp) as Hb. pose proof (parsed_nil p Hp He) as Hnil. pose proof (parsed_space _ _ _ Hnil) as Hsp. split_and!; intros Hf; cbn [parseline parsepipe parseexec parseblock].
  - apply wpp_bind. eapply wpp_mono; [apply IH; [done|done|lia]|]. intros c p1 Hc. pose proof (pa_range _ _ _ Hc).
    apply wpp_bind. eapply wpp_mono; [apply amps_ok; [done|lia]|]. intros c2 p2 [? Hc2]. pose proof (pa_range _ _ _ Hc2). apply (tail_ok (str ";")); [done|lit|sub|done|]. intros. apply IH; [lia|done|lia].
  - apply wpp_bind. eapply wpp_mono; [apply IH; [done|done|lia]|]. intros c p1 Hc. pose proof (pa_range _ _ _ Hc). apply (tail_ok (str "|")); [done|lit|sub|done|]. intros. apply IH; [lia|done|lia].
  - apply wpp_bind, wpp_peek; [lia|lit|]. destruct (bool_decide _) eqn:Eb.
    + eapply wpp_mono; [apply IH; [lia|by eapply pa_edge|lia]|]. intros c p1 Hc. by eapply (parsed_both _ (Exec []) _ c).
    + apply wpp_bind. eapply wpp_mono; [apply parseredirs_ok; [exact Hsp|lia]|]. intros c p1 (Hp1 & Hc & Ho). pose proof (pa_range _ _ _ Hc).
      eapply wpp_mono; [apply args_loop_ok; [done|done|lia]|]. intros c2 p2 [? ?]. done.
  - apply wpp_bind, wpp_peek; [lia|lit|]. destruct (bool_decide _) eqn:Eb; cbn [negb]; [|done].
    apply wpp_bind. eapply (wpp_symbol (str "(")); [exact Hnil|lit|sub|done|]. intros t p1 Hp1 Hc1 _. pose proof (pa_range _ _ _ Hc1).
    apply wpp_bind. eapply wpp_mono; [apply IH; [lia|by eapply pa_edge|lia]|]. intros c p2 Hc. pose proof (pa_range _ _ _ Hc). assert (parsed p c p2) as Hc' by (by eapply (parsed_both _ (Exec []) _ c)).
    apply wpp_bind, wpp_peek; [lia|lit|]. destruct (bool_decide (_ ∈ str ")")) eqn:Eb2; cbn [negb]; [|done]. apply wpp_bind. eapply (wpp_symbol (str ")")); [exact Hc'|lit|sub|done|]. intros t2 p3 Hp3 Hc3 _.
    eapply wpp_mono; [apply parseredirs_ok; [exact Hc3|lia]|]. intros c4 p4 (? & ? & _). done.
Qed.

Lemma parse_ok : wpp (parse s (parse_fuel s)) (fun c p => p = length s /\ parsed O c p) O.
Proof.
  unfold parse. apply wpp_bind. eapply wpp_mono; [apply parse_rec_ok; [lia|by left|unfold parse_fuel; lia]|].
  intros c p1 Hc. pose proof (pa_range _ _ _ Hc). apply wpp_bind, wpp_peek; [lia|lit|].
  unfold mbind at 1, M_bind, get, wpp. destruct (Nat.eqb_spec (scan is_space p1) (length s)); cbn [negb]; [|done].
  split; [done|]. by apply parsed_space.
Qed.

(** ** The strings after [nulterminate] *)

(** The bytes of a word of the line. *)
Definition text (a : nat * nat) : list Z := slice a.1 (a.2 - a.1) s.

(** The string found at a word after the NULs are stored. *)
Lemma word_text E buf' a :
  word_at a -> a.2 ∈ E -> (forall e, e ∈ E -> e = length s \/ is_word (at_ e) = false) ->
  nuls_at E (s ++ [0]) buf' -> cstr (drop a.1 buf') = text a.
Proof.
  destruct a as [q e]. intros (Hb & Hw & _) He HE H. simpl in *. unfold text. simpl.
  assert (Hlen : forall i, (i < length s)%nat -> (s ++ [0]) !! i = Some (at_ i)).
  { intros i Hi. rewrite lookup_app_l by done. by apply at_lt. }
  remember (e - q)%nat as n eqn:En. revert q Hb Hw En. induction n as [|n IH]; intros q Hb Hw En; [lia|].
  assert (Hq : buf' !! q = Some (at_ q)).
  { rewrite H. rewrite decide_False; [by apply Hlen; lia|]. intros Hin. destruct (HE q Hin) as [?|Hnw]; [lia|].
    rewrite Hw in Hnw by lia. done. }
  rewrite (drop_S _ _ _ Hq). cbn [cstr]. destruct (at_lt q) as [Hsq Hnz]; [lia|].
  rewrite (proj2 (Z.eqb_neq _ _) Hnz). unfold slice. rewrite (drop_S _ _ _ Hsq), firstn_cons. f_equal.
  destruct (decide (S q = e)) as [<-|Hne].
  - replace n with O by lia. rewrite take_0. specialize (H (S q)). rewrite decide_True in H by done.
    assert (E1 : is_Some ((s ++ [0]) !! S q)) by (apply lookup_lt_is_Some_2; rewrite length_app; simpl; lia).
    destruct E1 as [x E1]. rewrite E1 in H. simpl in H. by rewrite (drop_S _ _ _ H).
  - apply IH; [lia| |lia]. intros i Hi. apply Hw. lia.
Qed.
End scanner.

Lemma cstr_line s : no_nul s -> cstr (s ++ [0]) = s.
Proof.
  intros Hs. induction s as [|c s IH]; [done|]. simpl. apply not_elem_of_cons in Hs as [Hc Hs].
  rewrite (proj2 (Z.eqb_neq c 0)) by congruence. by rewrite IH.
Qed.

Lemma strings_text s c a :
  no_nul s -> Forall (word_at s) (strings c) -> a ∈ strings c -> cstr (drop a.1 (nulterminate c (s ++ [0]))) = text s a.
Proof.
  intros Hs Hg Ha. rewrite Forall_forall in Hg.
  eapply word_text; [done|by apply Hg| | |apply nulterminate_spec].
  - apply list_elem_of_In, in_map, list_elem_of_In, Ha.
  - intros e He. apply list_elem_of_In, in_map_iff in He as (b & <- & Hb). apply list_elem_of_In in Hb.
    by destruct (Hg b Hb) as (_ & _ & _ & ?).
Qed.

(** C36. [parsecmd] is total: on every line it returns or it reports a syntax
    error (it never loops, and [parse_fuel] bounds its recursion). When it returns it has consumed
    the whole line, the strings of the command are exactly the words of the line, each
    from its first byte to its last, and after [nulterminate] every one of them reads
    as that word: no terminator lands inside a string. *)
Theorem parsecmd_total s :
  no_nul s ->
  match parsecmd (s ++ [0]) with
  | Ok (c, buf) p => p = length s /\ (forall a, a ∈ strings c <-> word_at s a) /\ forall a, a ∈ strings c -> cstr (drop a.1 buf) = text s a
  | Panic _ => True
  | _ => False
  end.
Proof.
  intros Hs. unfold parsecmd. rewrite cstr_line by done. pose proof (parse_ok s Hs) as W. unfold wpp in W.
  destruct (parse s (parse_fuel s) O) as [c p|m|p| |]; try done. destruct W as [-> [_ _ Hg Hall]].
  split; [done|]. split; [|intros a Ha; by apply strings_text]. intros a. split; [rewrite Forall_forall in Hg; apply Hg|].
  intros Ha. apply Hall; [done|]. destruct Ha as (? & _). lia.
Qed.

Lemma parsecmd_total_witness :
  let s := str "ls -l < in | (grep x; wc) > out &" in
  match parsecmd (s ++ [0]) with
  | Ok (c, buf) p =>
      p = 33%nat /\ (forall a, a ∈ strings c <-> word_at s a) /\ map (fun a => cstr (drop a.1 buf)) (strings c) = [str "in"; str "ls"; str "-l"; str "out"; str "grep"; str "x"; str "wc"]
  | _ => False
  end.
Proof.
  intros s. pose proof (parsecmd_total s ltac:(apply (bool_decide_unpack _); by vm_compute)) as H. destruct (parsecmd (s ++ [0])) as [[c buf] p| | | |] eqn:E; vm_compute in E; try discriminate E.
  destruct H as (Hp & Hw & Ht). split; [exact Hp|]. split; [exact Hw|]. injection E as <- <- _. by vm_compute.
Defined.

(** ** The parser inverts printing *)

Inductive tok := W (w : list Z) | Y (c : Z).

Definition tok_bytes (t : tok) : list Z := match t with W w => w | Y c => [c] end.
(** Each token is followed by a space. *)
Definition render (ts : list tok) : list Z := concat (map (fun t => tok_bytes t ++ [32]) ts).

Definition paren (b : bool) (ts : list tok) : list tok := if b then Y 40 :: ts ++ [Y 41] else ts.

(** The tokens of a command, at the level of the function that is to parse
    them: 0 [parseline], 1 its part before a [;], 2 [parsepipe], 3
    [parseexec]. *)
Fixpoint show (lvl : nat) (c : cmd (list Z)) : list tok :=
  match c with
  | Exec argv => map W argv
  | Redir c' f m d => show 3 c' ++ [Y (if d =? 0 then 60 else 62); W f]
  | Pipe l r => paren (2 <? lvl)%nat (show 3 l ++ Y 124 :: show 2 r)
  | List l r => paren (0 <? lvl)%nat (show 1 l ++ Y 59 :: show 0 r)
  | Back c' => paren (1 <? lvl)%nat (show 1 c' ++ [Y 38])
  end.

Definition print (c : cmd (list Z)) : list Z := render (show 0 c).

(** The commands the parser can build: words as arguments, fewer than
    [MAXARGS] of them, and the two kinds of redirection. *)
Definition wordy (w : list Z) : Prop := w <> [] /\ Forall (fun c => is_word c = true /\ c <> 0) w.
Definition redir_ok (m d : Z) : Prop := (m = O_RDONLY /\ d = 0) \/ (m = Z.lor O_WRONLY O_CREATE /\ d = 1).
Fixpoint wf (c : cmd (list Z)) : Prop :=
  match c with
  | Exec argv => Forall wordy argv /\ (length argv < MAXARGS)%nat
  | Redir c' f m d => wf c' /\ wordy f /\ redir_ok m d
  | Pipe l r | List l r => wf l /\ wf r
  | Back c' => wf c'
  end.

#[export] Instance wf_dec c : Decision (wf c).
Proof. unfold wf, wordy, redir_ok. induction c; apply _. Defined.

Fixpoint cmd_map {A B} (f : A -> B) (c : cmd A) : cmd B :=
  match c with
  | Exec argv => Exec (map f argv)
  | Redir c' x m d => Redir (cmd_map f c') (f x) m d
  | Pipe l r => Pipe (cmd_map f l) (cmd_map f r)
  | List l r => List (cmd_map f l) (cmd_map f r)
  | Back c' => Back (cmd_map f c')
  end.

Definition tok_ok (t : tok) : Prop := match t with W w => wordy w | Y c => c ∈ str "|();&<>" end.

Section roundtrip.
Context (s : list Z).
Hypothesis Hs : no_nul s.
Abbreviation at_ := (at_ s).
Abbreviation scan := (scan s).
Abbreviation command := (cmd (nat * nat)).

(** From [p] on the line reads [ts]. *)
Definition reads (p : nat) (ts : list tok) : Prop := (p <= length s)%nat /\ drop p s = render ts /\ Forall tok_ok ts.

Lemma render_cons t ts : render (t :: ts) = tok_bytes t ++ 32 :: render ts.
Proof. unfold render. simpl. by rewrite <- app_assoc. Qed.

Lemma reads_end p : reads p [] -> p = length s.
Proof. intros (Hp & E & _). apply (f_equal length) in E. rewrite length_drop in E. simpl in E. lia. Qed.

Lemma reads_next p t ts : reads p (t :: ts) -> reads (p + length (tok_bytes t) + 1) ts.
Proof.
  intros (Hp & E & Ht). rewrite render_cons in E. apply Forall_cons in Ht as [_ Ht].
  assert (Hl : (p + length (tok_bytes t) + 1 <= length s)%nat).
  { apply (f_equal length) in E. rewrite length_drop, length_app, length_cons in E. lia. }
  split_and!; [done| |done]. rewrite <- Nat.add_assoc, <- drop_drop, E.
  rewrite drop_app_ge by lia. replace (length (tok_bytes t) + 1 - length (tok_bytes t))%nat with 1%nat by lia. done.
Qed.

Lemma reads_at p ts i : reads p ts -> at_ (p + i) = default 0 (render ts !! i).
Proof. intros (Hp & E & _). unfold Sh.at_. by rewrite <- lookup_drop, E. Qed.

Lemma run_while_app f l l' : Forall (fun c => f c = true) l -> run_while f (l ++ l') = (length l + run_while f l')%nat.
Proof. induction 1 as [|c l Hc _ IH]; simpl; [done|]. by rewrite Hc, IH. Qed.

Lemma space_32 : is_space 32 = true.
Proof. done. Qed.

Lemma symbol_not_space c : c ∈ str "|();&<>" -> is_space c = false /\ c <> 0 /\ c <> 97.
Proof. intros Hc. cbn in Hc. rewrite !elem_of_cons, elem_of_nil in Hc. intuition (subst; done). Qed.

Lemma word_not_space c : is_word c = true -> is_space c = false /\ in_set (str "|();&<") c = false /\ c <> 62.
Proof.
  intros Hw. apply is_word_spec in Hw as [H1 H2]. unfold is_space.
  rewrite <- !not_true_iff_false, !in_set_elem by lit. split_and!; [done| |].
  - intros Hin. apply H2. unfold symbols. cbn in *. rewrite !elem_of_cons in *. tauto.
  - intros ->. apply H2. apply (bool_decide_unpack _). by vm_compute.
Qed.

Lemma tok_head t : tok_ok t -> exists c l, tok_bytes t = c :: l /\ is_space c = false.
Proof.
  destruct t as [w|c]; simpl.
  - intros [Hne Hf]. destruct w as [|c l]; [done|]. apply Forall_cons in Hf as [[Hw _] _].
    exists c, l. split; [done|]. by apply word_not_space.
  - intros Hc. exists c, []. split; [done|]. by apply symbol_not_space.
Qed.

Lemma scan_reads p ts : reads p ts -> scan is_space p = p.
Proof.
  intros R. destruct ts as [|t ts].
  - apply reads_end in R as ->. unfold Sh.scan. rewrite drop_ge by lia. simpl. lia.
  - apply scan_here. pose proof (reads_at p _ 0 R) as E. rewrite Nat.add_0_r in E. rewrite E, render_cons.
    destruct R as (_ & _ & Ht). apply Forall_cons in Ht as [Ht _]. destruct (tok_head t Ht) as (c & l & -> & Hc). done.
Qed.

(** After a token [t] the blank is skipped. *)
Lemma scan_after p t ts : reads p (t :: ts) -> scan is_space (p + length (tok_bytes t)) = (p + length (tok_bytes t) + 1)%nat.
Proof.
  intros R. pose proof (reads_next _ _ _ R) as R'. pose proof (scan_reads _ _ R') as E. unfold Sh.scan in *.
  destruct R as (Hp & Ed & _). rewrite <- drop_drop, Ed, render_cons, drop_app_length. cbn [run_while]. rewrite space_32.
  destruct R' as (_ & Ed' & _). rewrite Ed' in E. lia.
Qed.

Lemma gettoken_sym p c ts :
  reads p (Y c :: ts) -> gettoken s p = Ok (c, p, S p) (p + 1 + 1)%nat /\ reads (p + 1 + 1) ts.
Proof.
  intros R. split; [|by apply (reads_next p (Y c))]. pose proof (scan_reads _ _ R) as E0.
  pose proof (scan_after _ _ _ R) as E1. simpl in E1.
  pose proof (reads_at p _ 0 R) as A0. rewrite Nat.add_0_r, render_cons in A0. simpl in A0.
  pose proof (reads_at p _ 1 R) as A1. rewrite render_cons in A1. simpl in A1.
  destruct R as (_ & _ & Ht). apply Forall_cons in Ht as [Hc _]. simpl in Hc. destruct (symbol_not_space c Hc) as (_ & Hc0 & _).
  unfold gettoken, mbind, M_bind, get, modify, mret, M_ret. rewrite E0, A0. rewrite (proj2 (Z.eqb_neq _ _) Hc0).
  rewrite !Nat.add_1_r in A1, E1. destruct (in_set (str "|();&<") c) eqn:Ein.
  - cbv beta iota zeta. by rewrite E1, !Nat.add_1_r.
  - assert (c = 62) as ->.
    { rewrite <- not_true_iff_false, in_set_elem in Ein by lit. cbn in Hc, Ein. rewrite !elem_of_cons, elem_of_nil in *. tauto. }
    change (62 =? 62) with true. rewrite A1. change (32 =? 62) with false. cbv beta iota zeta.
    by rewrite E1, !Nat.add_1_r.
Qed.

Lemma gettoken_word p w ts :
  reads p (W w :: ts) ->
  let p' := (p + length w + 1)%nat in gettoken s p = Ok (97, p, (p + length w)%nat) p' /\ reads p' ts /\ text s (p, (p + length w)%nat) = w.
Proof.
  intros R p'. pose proof (scan_reads _ _ R) as E0. pose proof (scan_after _ _ _ R) as E1. simpl in E1.
  pose proof (reads_at p _ 0 R) as A0. rewrite Nat.add_0_r, render_cons in A0. pose proof R as (Hp & Ed & Ht).
  apply Forall_cons in Ht as [[Hne Hw] _]. destruct w as [|c w]; [done|]. simpl in A0.
  apply Forall_cons in Hw as Hw'. destruct Hw' as [[Hc Hc0] _]. destruct (word_not_space c Hc) as (_ & Hin & H62).
  assert (E2 : scan is_word p = (p + length (c :: w))%nat).
  { unfold Sh.scan. rewrite Ed, render_cons. cbn [tok_bytes]. rewrite run_while_app; [simpl; lia|].
    eapply Forall_impl; [exact Hw|]. by intros x []. }
  split_and!; [|by apply (reads_next p (W (c :: w)))|].
  - unfold gettoken, mbind, M_bind, get, modify, mret, M_ret. rewrite E0, A0.
    rewrite (proj2 (Z.eqb_neq _ _) Hc0), Hin, (proj2 (Z.eqb_neq _ _) H62), E2. by rewrite E1.
  - unfold text, slice. cbn [fst snd]. rewrite Ed, render_cons. cbn [tok_bytes].
    replace (p + length (c :: w) - p)%nat with (length (c :: w)) by lia. by rewrite take_app_length.
Qed.
(** What [peek] answers, and what may follow a command. *)
Definition peeks (toks : list Z) (ts : list tok) : bool :=
  match ts with Y c :: _ => in_set toks c | _ => false end.
Definition stops (toks : list Z) (ts : list tok) : bool :=
  match ts with Y c :: _ => in_set toks c | W _ :: _ => false | [] => true end.

Lemma stops_peeks toks toks' ts :
  no_nul toks -> Forall (fun c => in_set toks' c = false) toks -> stops toks ts = true -> peeks toks' ts = false.
Proof.
  intros Hn Hf. destruct ts as [|[w|c] ts]; simpl; [done|done|]. rewrite in_set_elem by done.
  rewrite Forall_forall in Hf. apply Hf.
Qed.

Lemma stops_weaken toks toks' ts : no_nul toks -> no_nul toks' -> toks ⊆ toks' -> stops toks ts = true -> stops toks' ts = true.
Proof. intros Hn Hn' Hsub. destruct ts as [|[w|c] ts]; simpl; [done|done|]. rewrite !in_set_elem by done. apply Hsub. Qed.

Lemma wp_eq {A} (m : M nat A) Q p a p' : m p = Ok a p' -> Q a p' -> wp m Q p.
Proof. intros E H. unfold wp. by rewrite E. Qed.

Lemma wp_peek toks (Q : bool -> nat -> Prop) p ts :
  reads p ts -> no_nul toks -> toks ⊆ str "|();&<>" -> Q (peeks toks ts) p -> wp (peek s toks) Q p.
Proof.
  intros R Hn Hsub HQ. pose proof (scan_reads _ _ R) as E. pose proof (reads_at p _ 0 R) as A0. rewrite Nat.add_0_r in A0.
  eapply wp_eq; [|exact HQ]. unfold peek, mbind, M_bind, get, modify, mret, M_ret. rewrite E, A0. f_equal.
  destruct R as (_ & _ & Ht). destruct ts as [|[w|c] ts]; [done| |]; rewrite render_cons; apply Forall_cons in Ht as [Ht _].
  - destruct Ht as [Hne Hf]. destruct w as [|c w]; [done|]. apply Forall_cons in Hf as [[Hw _] _]. simpl.
    apply is_word_spec in Hw as [_ Hw]. destruct (in_set toks c) eqn:Ei; [|by rewrite andb_false_r].
    apply in_set_elem in Ei; [|done]. exfalso. apply Hw. apply Hsub in Ei. unfold symbols.
    clear -Ei. cbn in *. rewrite !elem_of_cons in *. tauto.
  - simpl. destruct (symbol_not_space c Ht) as (_ & H0 & _). by rewrite (proj2 (Z.eqb_neq _ _) H0).
Qed.

Lemma wp_sym c (Q : Z * nat * nat -> nat -> Prop) p ts :
  reads p (Y c :: ts) -> (forall p', (p < p')%nat -> reads p' ts -> Q (c, p, S p) p') -> wp (gettoken s) Q p.
Proof. intros R HQ. destruct (gettoken_sym p c ts R) as [E R']. eapply wp_eq; [exact E|]. apply HQ; [lia|done]. Qed.

Lemma wp_word w (Q : Z * nat * nat -> nat -> Prop) p ts :
  reads p (W w :: ts) ->
  (forall q p', (p < p')%nat -> reads p' ts -> text s (p, q) = w -> Q (97, p, q) p') -> wp (gettoken s) Q p.
Proof.
  intros R HQ. destruct (gettoken_word p w ts R) as (E & R' & Ht). eapply wp_eq; [exact E|]. apply HQ; [lia|done|done].
Qed.

(** The code parses [c] off [p] and stops before [ts]. *)
Definition parses (c : cmd (list Z)) (ts : list tok) (p : nat) (c' : command) (p' : nat) : Prop :=
  cmd_map (text s) c' = c /\ reads p' ts /\ (p <= p')%nat.

(** A chain of redirections. *)
Definition redirs (rs : list (list Z * Z * Z)) : list tok :=
  concat (map (fun r => [Y (if r.2 =? 0 then 60 else 62); W r.1.1]) rs).
Definition wraps (c : cmd (list Z)) (rs : list (list Z * Z * Z)) : cmd (list Z) :=
  foldl (fun c r => Redir c r.1.1 r.1.2 r.2) c rs.
Definition rs_ok (rs : list (list Z * Z * Z)) : Prop := Forall (fun r => redir_ok r.1.2 r.2) rs.

Lemma parseredirs_parses fuel c p rs ts :
  reads p (redirs rs ++ ts) -> rs_ok rs -> peeks (str "<>") ts = false -> (length s - p < fuel)%nat ->
  wp (parseredirs s fuel c) (parses (wraps (cmd_map (text s) c) rs) ts p) p.
Proof.
  revert c p fuel. induction rs as [|[[f m] d] rs IH]; intros c p [|fuel] R Hok Hts Hf; try lia; cbn [parseredirs];
    apply wp_bind; (eapply wp_peek; [exact R|lit|lit|]).
  - cbn [redirs map concat app]. rewrite Hts. apply wp_ret. by split.
  - apply Forall_cons in Hok as [Hr Hok]. cbn [fst snd] in Hr. cbn [redirs map concat app fst snd] in *.
    destruct R as (Hp & R'). pose proof (conj Hp R' : reads p _) as R.
    assert (Hq : (p < length s)%nat).
    { destruct R' as [E _]. apply (f_equal length) in E. rewrite render_cons, length_drop, length_app in E. simpl in E. lia. }
    destruct Hr as [[-> ->]|[-> ->]]; cbn [Z.eqb] in *; cbn [peeks]; change (in_set _ _) with true; cbn [negb];
      (apply wp_bind; eapply wp_sym; [exact R|]); intros p1 H1 R1;
      (apply wp_bind; eapply wp_word; [exact R1|]); intros q p2 H2 R2 Ht; cbn [Z.eqb Pos.eqb negb fst];
      (eapply wp_mono; [apply IH; [exact R2|done|done|lia]|]);
      intros c' p' (E & R3 & ?); (split; [|split; [done|lia]]); rewrite E; simpl; by rewrite Ht.
Qed.
Lemma reads_lt p t ts : reads p (t :: ts) -> (p < length s)%nat.
Proof. intros R. destruct (reads_next _ _ _ R) as [? _]. lia. Qed.

Lemma gettoken_end p : reads p [] -> gettoken s p = Ok (0, p, p) p.
Proof.
  intros R. pose proof (scan_reads _ _ R) as E. pose proof (reads_at p _ 0 R) as A0. rewrite Nat.add_0_r in A0.
  unfold gettoken, mbind, M_bind, get, modify, mret, M_ret. rewrite E, A0. cbn -[Sh.scan]. by rewrite E.
Qed.

Lemma args_end fuel left ret p ts :
  reads p ts -> stops (str "|)&;") ts = true -> wp (args_loop s fuel left ret) (fun c' p' => c' = ret /\ p' = p) p.
Proof.
  intros R Hts. destruct left as [|left]; cbn [args_loop]; apply wp_bind; (eapply wp_peek; [exact R|lit|lit|]);
    (destruct ts as [|[w|c] ts]; [|done|cbn [stops] in Hts; cbn [peeks]; rewrite Hts; by apply wp_ret]);
    cbn [peeks]; apply wp_bind; (eapply wp_eq; [by apply gettoken_end|]); by apply wp_ret.
Qed.

Lemma redirs_peeks toks rs ts :
  Forall (fun c => in_set toks c = false) (str "<>") -> peeks toks ts = false -> peeks toks (redirs rs ++ ts) = false.
Proof.
  intros Hf Hts. destruct rs as [|[[f m] d] rs]; [done|]. change (str "<>") with [60; 62] in Hf. cbn. rewrite !Forall_cons in Hf. destruct Hf as (? & ? & _).
  by destruct (d =? 0).
Qed.

Lemma args_loop_S fuel left ret :
  args_loop s fuel (S (S left)) ret =
  (b ← peek s (str "|)&;");
   if (b : bool) then mret ret else
   u ← gettoken s;
   let '(tok, q, eq) := u in
   if tok =? 0 then mret ret
   else if negb (tok =? 97) then panic "syntax"
   else r ← parseredirs s fuel (add_arg ret (q, eq)); args_loop s fuel (S left) r).
Proof. done. Qed.

Lemma args_loop_parses argv rs ts : forall fuel left ret before p w,
  reads p (map W (w :: argv) ++ redirs rs ++ ts) -> rs_ok rs -> stops (str "|)&;") ts = true ->
  (length s - p < fuel)%nat -> (S (length argv) < left)%nat -> cmd_map (text s) ret = Exec before ->
  wp (args_loop s fuel left ret) (parses (wraps (Exec (before ++ w :: argv)) rs) ts p) p.
Proof.
  induction argv as [|w' argv IH]; intros fuel left ret before p w R Hok Hts Hf Hl Hret;
    (destruct left as [|[|left]]; [simpl in Hl; lia|simpl in Hl; lia|]); rewrite args_loop_S; cbn [map app] in *;
    apply wp_bind; (eapply wp_peek; [exact R|lit|lit|]); cbn [peeks]; apply wp_bind;
    (eapply wp_word; [exact R|]); intros q p1 H1 R1 Ht; change (97 =? 0) with false; change (negb (97 =? 97)) with false;
    cbv iota; destruct ret as [args| | | |]; try done; injection Hret as Hret; cbn [add_arg]; apply wp_bind.
  - eapply wp_mono; [apply (parseredirs_parses _ _ _ rs ts); [exact R1|done| |lia]|].
    { eapply stops_peeks; [| |exact Hts]; lit. }
    intros c' p' (E & R2 & ?). eapply wp_mono; [by eapply args_end|]. intros ? ? [-> ->].
    split; [|split; [done|lia]]. rewrite E. simpl. rewrite map_app, Hret. simpl. by rewrite Ht.
  - eapply wp_mono; [apply (parseredirs_parses _ _ _ [] _ R1); [by apply Forall_nil|done|lia]|]. intros c' p' (E & R2 & ?).
    eapply wp_mono; [apply (IH fuel (S left) c' (before ++ [w]) p' w'); [exact R2|done|done|lia|simpl in Hl; lia|]|].
    { rewrite E. simpl. by rewrite map_app, Hret; simpl; rewrite Ht. }
    intros c2 p2 (E2 & R3 & ?). split; [|split; [done|lia]]. rewrite E2. by rewrite <- app_assoc.
Qed.

Lemma exec_parses fuel argv rs ts p :
  reads p (map W argv ++ redirs rs ++ ts) -> rs_ok rs -> stops (str "|)&;") ts = true ->
  (length s - p < fuel)%nat -> (length argv < MAXARGS)%nat ->
  wp (ret ← parseredirs s fuel (Exec []); args_loop s fuel MAXARGS ret) (parses (wraps (Exec argv) rs) ts p) p.
Proof.
  intros R Hok Hts Hf Hl. apply wp_bind. destruct argv as [|w argv].
  - eapply wp_mono; [apply (parseredirs_parses _ _ _ rs ts); [exact R|done| |lia]|].
    { eapply stops_peeks; [| |exact Hts]; lit. }
    intros c' p' (E & R2 & ?). eapply wp_mono; [by eapply args_end|]. intros ? ? [-> ->]. by split.
  - eapply wp_mono; [apply (parseredirs_parses _ _ _ [] _ R); [by apply Forall_nil|done|lia]|]. intros c' p' (E & R2 & ?).
    eapply wp_mono; [by apply (args_loop_parses argv rs ts fuel MAXARGS c' [] p' w); [..|lia| |]|].
    intros c2 p2 (E2 & R3 & ?). split; [done|split; [done|lia]].
Qed.

Definition backs (k : nat) (c : cmd (list Z)) : cmd (list Z) := Nat.iter k Back c.

Lemma amps_parses k : forall fuel c p ts,
  reads p (replicate k (Y 38) ++ ts) -> peeks (str "&") ts = false -> (length s - p < fuel)%nat ->
  wp (amps s fuel c) (parses (backs k (cmd_map (text s) c)) ts p) p.
Proof.
  induction k as [|k IH]; intros [|fuel] c p ts R Hts Hf; try lia; cbn [amps];
    apply wp_bind; (eapply wp_peek; [exact R|lit|lit|]).
  - cbn [replicate app]. rewrite Hts. apply wp_ret. by split.
  - cbn [replicate app peeks] in *. change (in_set _ _) with true. cbv iota. pose proof (reads_lt _ _ _ R).
    apply wp_bind. eapply wp_sym; [exact R|]. intros p1 H1 R1.
    eapply wp_mono; [apply (IH fuel (Back c) p1 ts R1 Hts); lia|]. intros c' p' (E & R2 & ?).
    split; [|split; [done|lia]]. rewrite E. unfold backs. apply Nat.iter_swap.
Qed.
(** Each function reads back what is printed at its level. *)
Definition E_ok (c : cmd (list Z)) : Prop := forall rs p ts fuel,
  rs_ok rs -> reads p (show 3 c ++ redirs rs ++ ts) -> stops (str "|)&;") ts = true ->
  (4 * (length s - p) + 2 <= fuel)%nat -> wp (parseexec s fuel) (parses (wraps c rs) ts p) p.
Definition P_ok (c : cmd (list Z)) : Prop := forall p ts fuel,
  reads p (show 2 c ++ ts) -> stops (str ")&;") ts = true ->
  (4 * (length s - p) + 3 <= fuel)%nat -> wp (parsepipe s fuel) (parses c ts p) p.
Definition A_ok (c : cmd (list Z)) : Prop := forall k p ts fuel fuel',
  reads p (show 1 c ++ replicate k (Y 38) ++ ts) -> stops (str ");") ts = true ->
  (4 * (length s - p) + 3 <= fuel)%nat -> (length s - p < fuel')%nat ->
  wp (c0 ← parsepipe s fuel; amps s fuel' c0) (parses (backs k c) ts p) p.
Definition L_ok (c : cmd (list Z)) : Prop := forall p ts fuel,
  reads p (show 0 c ++ ts) -> stops (str ")") ts = true ->
  (4 * (length s - p) + 4 <= fuel)%nat -> wp (parseline s fuel) (parses c ts p) p.

Lemma P_of_E c : show 2 c = show 3 c -> E_ok c -> P_ok c.
Proof.
  intros Hsh HE p ts [|fuel] R Hts Hf; [lia|]. rewrite Hsh in R. cbn [parsepipe]. apply wp_bind.
  eapply wp_mono; [apply (HE [] p ts fuel); [by apply Forall_nil|done| |lia]|].
  { eapply stops_weaken; [| | |exact Hts]; lit. }
  intros c' p' (E & R' & ?). apply wp_bind. eapply wp_peek; [exact R'|lit|lit|].
  replace (peeks _ _) with false by (symmetry; eapply stops_peeks; [| |exact Hts]; lit). apply wp_ret. by split.
Qed.

Lemma A_of_P c : show 1 c = show 2 c -> P_ok c -> A_ok c.
Proof.
  intros Hsh HP k p ts fuel fuel' R Hts Hf Hf'. rewrite Hsh in R. apply wp_bind.
  eapply wp_mono; [apply (HP p _ fuel R); [|lia]|].
  { destruct k as [|k]; [|done]. eapply stops_weaken; [| | |exact Hts]; lit. }
  intros c' p' (E & R' & ?). eapply wp_mono; [apply (amps_parses k fuel' c' p' ts R'); [|lia]|].
  { by eapply stops_peeks; [| |exact Hts]; lit. }
  intros c2 p2 (E2 & R2 & ?). split; [by rewrite E2, E|split; [done|lia]].
Qed.

(** [parseline] up to the [;]. *)
Lemma parseline_amps fuel Q p :
  wp (c0 ← parsepipe s fuel; amps s (S fuel) c0)
     (fun c p => wp (b ← peek s (str ";");
                     if (b : bool) then gettoken s ;; r ← parseline s fuel; mret (List c r) else mret c) Q p) p ->
  wp (parseline s (S fuel)) Q p.
Proof.
  intros H. cbn [parseline]. unfold wp, mbind, M_bind in *. destruct (parsepipe s fuel p) as [c p1| | | |]; [|done..].
  by destruct (amps s (S fuel) c p1).
Qed.

Lemma L_of_A c : show 0 c = show 1 c -> A_ok c -> L_ok c.
Proof.
  intros Hsh HA p ts [|fuel] R Hts Hf; [lia|]. rewrite Hsh in R. apply parseline_amps.
  eapply wp_mono; [apply (HA 0%nat p ts); [exact R| |lia|lia]|].
  { eapply stops_weaken; [| | |exact Hts]; lit. }
  intros c' p' (E & R' & ?). apply wp_bind. eapply wp_peek; [exact R'|lit|lit|].
  replace (peeks _ _) with false by (symmetry; eapply stops_peeks; [| |exact Hts]; lit). apply wp_ret. by split.
Qed.

Lemma E_of_L c : show 3 c = Y 40 :: show 0 c ++ [Y 41] -> L_ok c -> E_ok c.
Proof.
  intros Hsh HL rs p ts [|[|fuel]] Hok R Hts Hf; try lia. rewrite Hsh in R. cbn [app] in R. rewrite <- app_assoc in R.
  cbn [parseexec parseblock]. apply wp_bind. eapply wp_peek; [exact R|lit|lit|]. cbn [peeks].
  change (in_set _ _) with true. cbv iota. apply wp_bind. eapply wp_peek; [exact R|lit|lit|]. cbn [peeks].
  change (negb (in_set _ _)) with false. cbv iota. pose proof (reads_lt _ _ _ R).
  apply wp_bind. eapply wp_sym; [exact R|]. intros p1 H1 R1. apply wp_bind.
  eapply wp_mono; [apply (HL p1 _ fuel R1); [done|lia]|]. intros c' p2 (E & R2 & ?).
  apply wp_bind. eapply wp_peek; [exact R2|lit|lit|]. cbn [peeks]. change (negb (in_set _ _)) with false. cbv iota.
  apply wp_bind. eapply wp_sym; [exact R2|]. intros p3 H3 R3.
  eapply wp_mono; [apply (parseredirs_parses _ _ _ rs ts R3 Hok); [|lia]|].
  { by eapply stops_peeks; [| |exact Hts]; lit. }
  intros c2 p4 (E4 & R4 & ?). split; [by rewrite E4, E|split; [done|lia]].
Qed.

Lemma E_exec argv : (length argv < MAXARGS)%nat -> E_ok (Exec argv).
Proof.
  intros Hl rs p ts [|fuel] Hok R Hts Hf; [lia|]. cbn [show] in R. cbn [parseexec]. apply wp_bind.
  eapply wp_peek; [exact R|lit|lit|]. replace (peeks _ _) with false; [by apply exec_parses; [..|lia|]|].
  destruct argv as [|w argv]; [|done]. symmetry. apply redirs_peeks; [lit|]. by eapply stops_peeks; [| |exact Hts]; lit.
Qed.

Lemma E_redir c f m d : redir_ok m d -> E_ok c -> E_ok (Redir c f m d).
Proof.
  intros Hr HE rs p ts fuel Hok R Hts Hf. apply (HE ((f, m, d) :: rs)); [by constructor| |done|done].
  cbn [show] in R. by rewrite <- app_assoc in R.
Qed.
Lemma P_pipe l r : E_ok l -> P_ok r -> P_ok (Pipe l r).
Proof.
  intros HE HP p ts [|fuel] R Hts Hf; [lia|]. cbn [show Nat.ltb Nat.leb paren] in R. rewrite <- app_assoc in R.
  cbn [parsepipe]. apply wp_bind. eapply wp_mono; [apply (HE [] p ((Y 124 :: show 2 r) ++ ts) fuel); [by apply Forall_nil|exact R|done|lia]|].
  intros c' p1 (E & R1 & ?). cbn [app] in R1. apply wp_bind. eapply wp_peek; [exact R1|lit|lit|]. cbn [peeks].
  change (in_set _ _) with true. cbv iota. pose proof (reads_lt _ _ _ R1). apply wp_bind. eapply wp_sym; [exact R1|].
  intros p2 H2 R2. apply wp_bind. eapply wp_mono; [apply (HP p2 ts fuel R2 Hts); lia|]. intros c2 p3 (E3 & R3 & ?).
  apply wp_ret. split; [|split; [done|lia]]. simpl. by rewrite E, E3.
Qed.

Lemma L_list l r : A_ok l -> L_ok r -> L_ok (List l r).
Proof.
  intros HA HL p ts [|fuel] R Hts Hf; [lia|]. cbn [show Nat.ltb Nat.leb paren] in R. rewrite <- app_assoc in R.
  apply parseline_amps. eapply wp_mono; [apply (HA O p _ fuel (S fuel) R); [done|lia|lia]|].
  intros c' p1 (E & R1 & ?). cbn [app] in R1. apply wp_bind. eapply wp_peek; [exact R1|lit|lit|]. cbn [peeks].
  change (in_set _ _) with true. cbv iota. pose proof (reads_lt _ _ _ R1). apply wp_bind. eapply wp_sym; [exact R1|].
  intros p2 H2 R2. apply wp_bind. eapply wp_mono; [apply (HL p2 ts fuel R2 Hts); lia|]. intros c2 p3 (E3 & R3 & ?).
  apply wp_ret. split; [|split; [done|lia]]. simpl. by rewrite E, E3.
Qed.

Lemma A_back c : A_ok c -> A_ok (Back c).
Proof.
  intros HA k p ts fuel fuel' R Hts Hf Hf'. cbn [show Nat.ltb Nat.leb paren] in R. rewrite <- app_assoc in R.
  replace (backs k (Back c)) with (backs (S k) c) by (symmetry; apply Nat.iter_swap). by apply (HA (S k)).
Qed.

Lemma all_ok c : wf c -> E_ok c /\ P_ok c /\ A_ok c /\ L_ok c.
Proof.
  induction c as [argv|c IH f m d|l IHl r IHr|l IHl r IHr|c IH]; simpl.
  - intros [_ Hl]. assert (HE : E_ok (Exec argv)) by by apply E_exec.
    eauto 10 using P_of_E, A_of_P, L_of_A.
  - intros (Hc & _ & Hr). destruct (IH Hc) as [HE0 _]. assert (HE : E_ok (Redir c f m d)) by by apply E_redir.
    eauto 10 using P_of_E, A_of_P, L_of_A.
  - intros [Hl Hr]. destruct (IHl Hl) as [HE0 _], (IHr Hr) as (_ & HP0 & _).
    assert (HP : P_ok (Pipe l r)) by by apply P_pipe. eauto 10 using A_of_P, L_of_A, E_of_L.
  - intros [Hl Hr]. destruct (IHl Hl) as (_ & _ & HA0 & _), (IHr Hr) as (_ & _ & _ & HL0).
    assert (HL : L_ok (List l r)) by by apply L_list. eauto 10 using E_of_L, P_of_E, A_of_P.
  - intros Hc. destruct (IH Hc) as (_ & _ & HA0 & _). assert (HA : A_ok (Back c)) by by apply A_back.
    eauto 10 using L_of_A, E_of_L, P_of_E.
Qed.
End roundtrip.

Lemma show_ok c lvl : wf c -> Forall tok_ok (show lvl c).
Proof.
  assert (Hp : forall b ts, Forall tok_ok ts -> Forall tok_ok (paren b ts)).
  { intros [] ts H; [|done]. constructor; [lit|]. apply Forall_app. split; [done|]. constructor; [lit|done]. }
  revert lvl. induction c as [argv|c IH f m d|l IHl r IHr|l IHl r IHr|c IH]; intros lvl; simpl.
  - intros [Hf _]. by apply Forall_map.
  - intros (Hc & Hf & _). apply Forall_app. split; [auto|]. constructor; [destruct (d =? 0); lit|]. by constructor.
  - intros [Hl Hr]. apply Hp, Forall_app. split; [auto|]. constructor; [lit|auto].
  - intros [Hl Hr]. apply Hp, Forall_app. split; [auto|]. constructor; [lit|auto].
  - intros Hc. apply Hp, Forall_app. split; [auto|]. constructor; [lit|done].
Qed.

Lemma render_no_nul ts : Forall tok_ok ts -> no_nul (render ts).
Proof.
  induction 1 as [|t ts Ht _ IH]; [apply not_elem_of_nil|]. unfold no_nul in *. rewrite render_cons, elem_of_app, elem_of_cons.
  intros [Hin|[?|?]]; [|done|done]. destruct t as [w|c]; simpl in *.
  - destruct Ht as [_ Hf]. rewrite Forall_forall in Hf. by destruct (Hf 0 Hin).
  - apply list_elem_of_singleton in Hin as <-. by destruct (symbol_not_space 0 Ht) as (_ & ? & _).
Qed.

Lemma cmd_map_ext {A B} (f g : A -> B) c : (forall a, a ∈ strings c -> f a = g a) -> cmd_map f c = cmd_map g c.
Proof.
  induction c as [argv|c IH x m d|l IHl r IHr|l IHl r IHr|c IH]; simpl; intros H.
  - f_equal. apply map_ext_in. intros a Ha. by apply H, list_elem_of_In.
  - rewrite IH, H; [done|set_solver..].
  - rewrite IHl, IHr; [done|set_solver..].
  - rewrite IHl, IHr; [done|set_solver..].
  - by rewrite IH.
Qed.

Lemma parse_print c :
  wf c -> wp (parse (print c) (parse_fuel (print c))) (fun c' _ => cmd_map (text (print c)) c' = c) O.
Proof.
  intros Hwf. assert (R : reads (print c) O (show 0 c ++ [])).
  { rewrite app_nil_r. split_and!; [lia|by rewrite drop_0|by apply show_ok]. }
  unfold parse. apply wp_bind. eapply wp_mono; [apply (all_ok (print c) c Hwf); [exact R|done|unfold parse_fuel; lia]|].
  intros c' p (E & R' & _). apply wp_bind. eapply wp_peek; [exact R'|lit|apply list_subseteq_nil|]. apply wp_bind, wp_get.
  rewrite (reads_end _ _ R'), Nat.eqb_refl. by apply wp_ret.
Qed.

(** C32. The parser inverts printing: every command that the data structures of
    the shell can hold (words as arguments, fewer than [MAXARGS] of them, any
    nesting of pipes, lists, background commands and redirections), printed
    with parentheses where its level needs them, is parsed back to that very
    command, its strings read from the NUL-terminated buffer. *)
Theorem parsecmd_print c :
  wf c ->
  exists c' buf, parsecmd (print c ++ [0]) = Ok (c', buf) (length (print c)) /\
    cmd_map (fun a => cstr (drop a.1 buf)) c' = c.
Proof.
  intros Hwf. assert (Hs : no_nul (print c)) by (by apply render_no_nul, show_ok).
  unfold parsecmd. rewrite cstr_line by done. pose proof (parse_ok _ Hs) as W. pose proof (parse_print c Hwf) as W'.
  unfold wp, wpp in *. destruct (parse (print c) (parse_fuel (print c)) O) as [c' p|m|p| |]; try done. destruct W as [-> Hg].
  eexists _, _. split; [done|]. etransitivity; [|exact W']. apply cmd_map_ext. intros a Ha. apply strings_text; [done|by eapply pa_words|done].
Qed.

Lemma parsecmd_print_witness :
  exists c' buf,
    parsecmd (str "ls -l < in | ( cat & ; wc ) > out " ++ [0]) = Ok (c', buf) 34%nat /\
    cmd_map (fun a => cstr (drop a.1 buf)) c' =
      Pipe (Redir (Exec [str "ls"; str "-l"]) (str "in") O_RDONLY 0)
           (Redir (List (Back (Exec [str "cat"])) (Exec [str "wc"])) (str "out") (Z.lor O_WRONLY O_CREATE) 1).
Proof.
  apply (parsecmd_print (Pipe (Redir (Exec [str "ls"; str "-l"]) (str "in") O_RDONLY 0)
           (Redir (List (Back (Exec [str "cat"])) (Exec [str "wc"])) (str "out") (Z.lor O_WRONLY O_CREATE) 1))).
  apply (bool_decide_unpack _). by vm_compute.
Defined.
