(* ===== verification/Fs.v ===== *)
(** * [fs.c]: the file system.

    Block allocator, inodes, the inode cache, file contents, directories and
    path names, over the transactions of [log.c]. *)

From stdpp Require Import gmap.
From S2P Require Import Prelude CString Params Bio Log Trans.

(** ** Data *)

(** [struct dinode]; [struct inode] holds a copy of it. *)
Record dinode := mkDinode {
  di_type : Z;
  di_major : Z;
  di_minor : Z;
  di_nlink : Z;
  di_size : Z;
  di_addrs : list Z;
}.

Record inode := mkInode {
  i_dev : Z;
  i_inum : Z;
  i_ref : Z;
  i_lock : sleeplock;
  i_valid : bool;
  i_din : dinode;
}.

Definition dinode0 : dinode := mkDinode 0 0 0 0 0 (replicate 13 0).
Definition inode0 : inode := mkInode 0 0 0 (mkSleeplock false 0) false dinode0.
#[export] Instance inode_inhabited : Inhabited inode := populate inode0.

Definition set_type v d := mkDinode v (di_major d) (di_minor d) (di_nlink d) (di_size d) (di_addrs d).
Definition set_major v d := mkDinode (di_type d) v (di_minor d) (di_nlink d) (di_size d) (di_addrs d).
Definition set_minor v d := mkDinode (di_type d) (di_major d) v (di_nlink d) (di_size d) (di_addrs d).
Definition set_nlink v d := mkDinode (di_type d) (di_major d) (di_minor d) v (di_size d) (di_addrs d).
Definition set_size v d := mkDinode (di_type d) (di_major d) (di_minor d) (di_nlink d) v (di_addrs d).
Definition set_addrs v d := mkDinode (di_type d) (di_major d) (di_minor d) (di_nlink d) (di_size d) v.

Definition set_ref v i := mkInode (i_dev i) (i_inum i) v (i_lock i) (i_valid i) (i_din i).
Definition set_ilock v i := mkInode (i_dev i) (i_inum i) (i_ref i) v (i_valid i) (i_din i).
Definition set_valid v i := mkInode (i_dev i) (i_inum i) (i_ref i) (i_lock i) v (i_din i).
Definition set_din v i := mkInode (i_dev i) (i_inum i) (i_ref i) (i_lock i) (i_valid i) v.

(** The state: log and buffer cache, [icache.inode], and the super block [sb]. *)
Record fs := mkFs { f_l : lstate; f_inodes : list inode; f_sb : superblock }.

Definition set_fl (l : lstate) (s : fs) : fs := mkFs l (f_inodes s) (f_sb s).
Definition lop {A} (m : M lstate A) : M fs A := zoom f_l set_fl m.
Definition bop {A} (m : M bio A) : M fs A := lop (bio_op m).
Definition inode_at (s : fs) (ip : nat) : inode := f_inodes s !!! ip.
Definition upd_inode (ip : nat) (f : inode -> inode) : M fs unit :=
  modify (fun s => mkFs (f_l s) (<[ip := f (inode_at s ip)]> (f_inodes s)) (f_sb s)).
Definition upd_din (ip : nat) (f : dinode -> dinode) : M fs unit :=
  upd_inode ip (fun i => set_din (f (i_din i)) i).
Definition din (s : fs) (ip : nat) : dinode := i_din (inode_at s ip).

(** The layout of [struct dinode] in a block. *)
Fixpoint get_addrs (n : nat) (o : nat) (d : block) : list Z :=
  match n with O => [] | S n' => get_u32 o d :: get_addrs n' (o + 4) d end.
Fixpoint put_addrs (a : list Z) (o : nat) (d : block) : block :=
  match a with [] => d | x :: a' => put_addrs a' (o + 4) (put_u32 o x d) end.

Definition get_dinode (o : nat) (d : block) : dinode :=
  mkDinode (s16 (get_u16 o d)) (s16 (get_u16 (o + 2) d)) (s16 (get_u16 (o + 4) d)) (s16 (get_u16 (o + 6) d))
    (get_u32 (o + 8) d) (get_addrs 13 (o + 12) d).

Definition put_dinode (o : nat) (i : dinode) (d : block) : block :=
  put_addrs (di_addrs i) (o + 12)
    (put_u32 (o + 8) (di_size i)
      (put_u16 (o + 6) (u16 (di_nlink i))
        (put_u16 (o + 4) (u16 (di_minor i))
          (put_u16 (o + 2) (u16 (di_major i))
            (put_u16 o (u16 (di_type i)) d))))).

(** [(struct dinode* )bp->data + inum%IPB]. *)
Definition dip_off (inum : Z) : nat := (Z.to_nat (inum mod IPB) * DINODE_SIZE)%nat.

(** [devsw]: the devices' own read and write functions. *)
Class Devsw := {
  dev_read : Z -> option (nat -> Z -> M fs (Z * list Z));
  dev_write : Z -> option (nat -> list Z -> M fs Z);
}.

Section ops.
Context `{!BlockDevice} `{!Devsw}.

(** ** Blocks *)

Definition bzero (dev bno : Z) : M fs unit :=
  bp ← bop (bread dev bno);
  bop (set_bdata bp zero_block) ;;
  lop (log_write bp) ;;
  bop (brelse bp).

Definition bit_mask (bi : Z) : Z := Z.shiftl 1 (bi mod 8).
Definition bit_free (d : block) (bi : Z) : bool := Z.land (d !!! Z.to_nat (bi / 8)) (bit_mask bi) =? 0.
Definition set_bit (d : block) (bi : Z) : block :=
  let i := Z.to_nat (bi / 8) in <[i := Z.lor (d !!! i) (bit_mask bi)]> d.
Definition clear_bit (d : block) (bi : Z) : block :=
  let i := Z.to_nat (bi / 8) in <[i := Z.land (d !!! i) (u8 (Z.lnot (bit_mask bi)))]> d.

(** The inner loop of [balloc]: the first clear bit, from [bi] on. *)
Fixpoint find_free (n : nat) (d : block) (size b bi : Z) : option Z :=
  match n with
  | O => None
  | S n' =>
      if negb (b + bi <? size) then None
      else if bit_free d bi then Some bi
      else find_free n' d size b (bi + 1)
  end.

Fixpoint balloc_loop (fuel : nat) (dev b : Z) : M fs Z :=
  s ← get;
  if negb (b <? sb_size (f_sb s)) then panic "balloc: out of blocks" else
  match fuel with
  | O => outOfFuel
  | S fuel' =>
      bp ← bop (bread dev (BBLOCK b (f_sb s)));
      d ← bop (bdata bp);
      match find_free (Z.to_nat BPB) d (sb_size (f_sb s)) b 0 with
      | Some bi =>
          bop (set_bdata bp (set_bit d bi)) ;;
          lop (log_write bp) ;;
          bop (brelse bp) ;;
          bzero dev (b + bi) ;;
          mret (b + bi)
      | None => bop (brelse bp) ;; balloc_loop fuel' dev (b + BPB)
      end
  end.

Definition balloc (dev : Z) : M fs Z :=
  s ← get; balloc_loop (Z.to_nat (sb_size (f_sb s) / BPB + 1)) dev 0.

Definition bfree (dev b : Z) : M fs unit :=
  s ← get;
  bp ← bop (bread dev (BBLOCK b (f_sb s)));
  d ← bop (bdata bp);
  let bi := b mod BPB in
  if bit_free d bi then panic "freeing free block" else
  bop (set_bdata bp (clear_bit d bi)) ;;
  lop (log_write bp) ;;
  bop (brelse bp).

(** ** Inodes *)

Definition iinit (dev : Z) : M fs unit :=
  modify (fun s => mkFs (f_l s) (map (set_ilock (mkSleeplock false 0)) (f_inodes s)) (f_sb s)) ;;
  sb ← lop (readsb dev);
  modify (fun s => mkFs (f_l s) (f_inodes s) sb).

(** One pass over the cache: the entry that holds the inode, and the first
    empty one seen before it. *)
Fixpoint iget_scan (l : list inode) (i : nat) (empty : option nat) (dev inum : Z) : option nat * option nat :=
  match l with
  | [] => (None, empty)
  | x :: l' =>
      if (0 <? i_ref x) && (i_dev x =? dev) && (i_inum x =? inum) then (Some i, empty)
      else iget_scan l' (S i)
             (match empty with None => if i_ref x =? 0 then Some i else None | Some e => Some e end) dev inum
  end.

Definition iget (dev inum : Z) : M fs nat :=
  s ← get;
  match iget_scan (f_inodes s) 0 None dev inum with
  | (Some ip, _) => upd_inode ip (fun i => set_ref (i_ref i + 1) i) ;; mret ip
  | (None, None) => panic "iget: no inodes"
  | (None, Some e) => upd_inode e (fun i => mkInode dev inum 1 (i_lock i) false (i_din i)) ;; mret e
  end.

Fixpoint ialloc_loop (fuel : nat) (dev type inum : Z) : M fs nat :=
  s ← get;
  if negb (inum <? sb_ninodes (f_sb s)) then panic "ialloc: no inodes" else
  match fuel with
  | O => outOfFuel
  | S fuel' =>
      bp ← bop (bread dev (IBLOCK inum (f_sb s)));
      d ← bop (bdata bp);
      if s16 (get_u16 (dip_off inum) d) =? 0 then
        bop (set_bdata bp (put_u16 (dip_off inum) (u16 type) (splice (dip_off inum) (replicate DINODE_SIZE 0) d))) ;;
        lop (log_write bp) ;;
        bop (brelse bp) ;;
        iget dev inum
      else bop (brelse bp) ;; ialloc_loop fuel' dev type (inum + 1)
  end.

Definition ialloc (dev type : Z) : M fs nat :=
  s ← get; ialloc_loop (Z.to_nat (sb_ninodes (f_sb s))) dev type 1.

Definition iupdate (ip : nat) : M fs unit :=
  s ← get;
  let i := inode_at s ip in
  bp ← bop (bread (i_dev i) (IBLOCK (i_inum i) (f_sb s)));
  d ← bop (bdata bp);
  bop (set_bdata bp (put_dinode (dip_off (i_inum i)) (i_din i) d)) ;;
  lop (log_write bp) ;;
  bop (brelse bp).

Definition idup (ip : nat) : M fs nat := upd_inode ip (fun i => set_ref (i_ref i + 1) i) ;; mret ip.

Definition with_ilock {A} (ip : nat) (m : M sleeplock A) : M fs A :=
  zoom (fun s => i_lock (inode_at s ip))
    (fun l s => mkFs (f_l s) (<[ip := set_ilock l (inode_at s ip)]> (f_inodes s)) (f_sb s)) m.
Definition mypid (s : fs) : Z := bpid (l_bio (f_l s)).

Definition ilock (ip : nat) : M fs unit :=
  s ← get;
  if i_ref (inode_at s ip) <? 1 then panic "ilock" else
  with_ilock ip (acquiresleep (mypid s)) ;;
  s ← get;
  if i_valid (inode_at s ip) then mret tt else
  bp ← bop (bread (i_dev (inode_at s ip)) (IBLOCK (i_inum (inode_at s ip)) (f_sb s)));
  d ← bop (bdata bp);
  let di := get_dinode (dip_off (i_inum (inode_at s ip))) d in
  upd_din ip (fun _ => di) ;;
  bop (brelse bp) ;;
  upd_inode ip (set_valid true) ;;
  if di_type di =? 0 then panic "ilock: no type" else mret tt.

Definition iunlock (ip : nat) : M fs unit :=
  s ← get;
  if negb (holdingsleep (mypid s) (i_lock (inode_at s ip))) || (i_ref (inode_at s ip) <? 1) then panic "iunlock" else
  with_ilock ip releasesleep.

(** ** File contents *)

Definition bmap (ip : nat) (bn : Z) : M fs Z :=
  s ← get;
  let dev := i_dev (inode_at s ip) in
  let addrs := di_addrs (din s ip) in
  if bn <? NDIRECT then
    let addr := addrs !!! Z.to_nat bn in
    if negb (addr =? 0) then mret addr else
    addr ← balloc dev;
    upd_din ip (fun d => set_addrs (<[Z.to_nat bn := addr]> (di_addrs d)) d) ;;
    mret addr
  else
  let bn := bn - NDIRECT in
  if bn <? NINDIRECT then
    let addr := addrs !!! Z.to_nat NDIRECT in
    addr ← (if negb (addr =? 0) then mret addr else
            addr ← balloc dev;
            upd_din ip (fun d => set_addrs (<[Z.to_nat NDIRECT := addr]> (di_addrs d)) d) ;;
            mret addr);
    bp ← bop (bread dev addr);
    a ← bop (bdata bp);
    let addr := get_u32 (4 * Z.to_nat bn) a in
    addr ← (if negb (addr =? 0) then mret addr else
            addr ← balloc dev;
            a ← bop (bdata bp);
            bop (set_bdata bp (put_u32 (4 * Z.to_nat bn) addr a)) ;;
            lop (log_write bp) ;;
            mret addr);
    bop (brelse bp) ;;
    mret addr
  else panic "bmap: out of range".

Definition itrunc (ip : nat) : M fs unit :=
  s ← get;
  let dev := i_dev (inode_at s ip) in
  for_loop (Z.to_nat NDIRECT) 0 (fun i =>
    s ← get;
    let addr := di_addrs (din s ip) !!! Z.to_nat i in
    if addr =? 0 then mret tt else
    bfree dev addr ;;
    upd_din ip (fun d => set_addrs (<[Z.to_nat i := 0]> (di_addrs d)) d)) ;;
  s ← get;
  let ind := di_addrs (din s ip) !!! Z.to_nat NDIRECT in
  (if ind =? 0 then mret tt else
   bp ← bop (bread dev ind);
   for_loop (Z.to_nat NINDIRECT) 0 (fun j =>
     a ← bop (bdata bp);
     let addr := get_u32 (4 * Z.to_nat j) a in
     if addr =? 0 then mret tt else bfree dev addr) ;;
   bop (brelse bp) ;;
   bfree dev ind ;;
   upd_din ip (fun d => set_addrs (<[Z.to_nat NDIRECT := 0]> (di_addrs d)) d)) ;;
  upd_din ip (set_size 0) ;;
  iupdate ip.

Definition iput (ip : nat) : M fs unit :=
  s ← get;
  with_ilock ip (acquiresleep (mypid s)) ;;
  s ← get;
  (if i_valid (inode_at s ip) && (di_nlink (din s ip) =? 0) && (i_ref (inode_at s ip) =? 1) then
     itrunc ip ;;
     upd_din ip (set_type 0) ;;
     iupdate ip ;;
     upd_inode ip (set_valid false)
   else mret tt) ;;
  with_ilock ip releasesleep ;;
  upd_inode ip (fun i => set_ref (i_ref i - 1) i).

Definition iunlockput (ip : nat) : M fs unit := iunlock ip ;; iput ip.

(** [struct stat]. *)
Record stat := mkStat { st_type : Z; st_dev : Z; st_ino : Z; st_nlink : Z; st_size : Z }.

Definition stati (ip : nat) : M fs stat :=
  gets (fun s => mkStat (di_type (din s ip)) (s32 (i_dev (inode_at s ip))) (i_inum (inode_at s ip))
                   (di_nlink (din s ip)) (di_size (din s ip))).

(** The loop of [readi]: the bytes copied to [dst]. [left] is [n - tot]; the
    guards of [readi] rule out wrap-around of [off]. *)
Fixpoint readi_loop (fuel : nat) (ip : nat) (off left : Z) : M fs (list Z) :=
  if negb (0 <? left) then mret [] else
  match fuel with
  | O => outOfFuel
  | S fuel' =>
      s ← get;
      addr ← bmap ip (off / Z.of_nat BSIZE);
      bp ← bop (bread (i_dev (inode_at s ip)) addr);
      let m := Z.min left (Z.of_nat BSIZE - off mod Z.of_nat BSIZE) in
      d ← bop (bdata bp);
      bop (brelse bp) ;;
      rest ← readi_loop fuel' ip (off + m) (left - m);
      mret (slice (Z.to_nat (off mod Z.of_nat BSIZE)) (Z.to_nat m) d ++ rest)
  end.

(** Each turn but the first and the last copies a whole block. *)
Definition io_fuel (n : Z) : nat := Z.to_nat (n / Z.of_nat BSIZE + 2).

(** The result and the bytes stored at [dst]. *)
Definition readi (ip : nat) (off n : Z) : M fs (Z * list Z) :=
  s ← get;
  let d := din s ip in
  if di_type d =? T_DEV then
    if (di_major d <? 0) || (NDEV <=? di_major d) then mret (-1, []) else
    match dev_read (di_major d) with
    | None => mret (-1, [])
    | Some f => f ip n
    end
  else
  if (di_size d <? off) || (u32 (off + n) <? off) then mret (-1, []) else
  let n := if di_size d <? u32 (off + n) then di_size d - off else n in
  bytes ← readi_loop (io_fuel n) ip off n;
  mret (n, bytes).

Fixpoint writei_loop (fuel : nat) (ip : nat) (src : list Z) (off : Z) : M fs Z :=
  if negb (0 <? Z.of_nat (length src)) then mret off else
  match fuel with
  | O => outOfFuel
  | S fuel' =>
      s ← get;
      addr ← bmap ip (off / Z.of_nat BSIZE);
      bp ← bop (bread (i_dev (inode_at s ip)) addr);
      let m := Z.min (Z.of_nat (length src)) (Z.of_nat BSIZE - off mod Z.of_nat BSIZE) in
      d ← bop (bdata bp);
      bop (set_bdata bp (splice (Z.to_nat (off mod Z.of_nat BSIZE)) (take (Z.to_nat m) src) d)) ;;
      lop (log_write bp) ;;
      bop (brelse bp) ;;
      writei_loop fuel' ip (drop (Z.to_nat m) src) (off + m)
  end.

(** [src] holds the [n] bytes to write. *)
Definition writei (ip : nat) (src : list Z) (off : Z) : M fs Z :=
  s ← get;
  let n := Z.of_nat (length src) in
  let d := din s ip in
  if di_type d =? T_DEV then
    if (di_major d <? 0) || (NDEV <=? di_major d) then mret (-1) else
    match dev_write (di_major d) with
    | None => mret (-1)
    | Some f => f ip src
    end
  else
  if (di_size d <? off) || (u32 (off + n) <? off) then mret (-1) else
  if MAXFILE * Z.of_nat BSIZE <? u32 (off + n) then mret (-1) else
  off' ← writei_loop (io_fuel n) ip src off;
  s ← get;
  (if (0 <? n) && (di_size (din s ip) <? off') then upd_din ip (set_size off') ;; iupdate ip else mret tt) ;;
  mret n.

(** ** Directories *)

Definition namecmp (s t : list Z) : Z := strncmp s t DIRSIZ.

(** [struct dirent] as bytes. *)
Definition de_inum (de : list Z) : Z := get_u16 0 de.
Definition de_name (de : list Z) : list Z := drop 2 de.
Definition dirent (inum : Z) (name : list Z) : list Z := le_bytes 2 (u16 inum) ++ strncpy_bytes name DIRSIZ.

Fixpoint dirlookup_loop (fuel : nat) (dp : nat) (name : list Z) (off : Z) : M fs (option (nat * Z)) :=
  s ← get;
  if negb (off <? di_size (din s dp)) then mret None else
  match fuel with
  | O => outOfFuel
  | S fuel' =>
      r ← readi dp off DIRENT_SIZE;
      if negb (r.1 =? DIRENT_SIZE) then panic "dirlookup read" else
      if de_inum r.2 =? 0 then dirlookup_loop fuel' dp name (off + DIRENT_SIZE)
      else if namecmp name (de_name r.2) =? 0 then
        ip ← iget (i_dev (inode_at s dp)) (de_inum r.2);
        mret (Some (ip, off))
      else dirlookup_loop fuel' dp name (off + DIRENT_SIZE)
  end.

Definition dir_fuel (size : Z) : nat := Z.to_nat (size / DIRENT_SIZE + 1).

(** The inode and the offset stored at [poff]. *)
Definition dirlookup (dp : nat) (name : list Z) : M fs (option (nat * Z)) :=
  s ← get;
  if negb (di_type (din s dp) =? T_DIR) then panic "dirlookup not DIR" else
  dirlookup_loop (dir_fuel (di_size (din s dp))) dp name 0.

(** The offset of an empty entry, or of the end. *)
Fixpoint find_empty (fuel : nat) (dp : nat) (off : Z) : M fs Z :=
  s ← get;
  if negb (off <? di_size (din s dp)) then mret off else
  match fuel with
  | O => outOfFuel
  | S fuel' =>
      r ← readi dp off DIRENT_SIZE;
      if negb (r.1 =? DIRENT_SIZE) then panic "dirlink read" else
      if de_inum r.2 =? 0 then mret off else find_empty fuel' dp (off + DIRENT_SIZE)
  end.

Definition dirlink (dp : nat) (name : list Z) (inum : Z) : M fs Z :=
  r ← dirlookup dp name;
  match r with
  | Some (ip, _) => iput ip ;; mret (-1)
  | None =>
      s ← get;
      off ← find_empty (dir_fuel (di_size (din s dp))) dp 0;
      w ← writei dp (dirent inum name) off;
      if negb (w =? DIRENT_SIZE) then panic "dirlink" else mret 0
  end.
End ops.

(** ** Path names *)

Definition SLASH : Z := 47.

Fixpoint skip_slashes (path : list Z) : list Z :=
  match path with c :: path' => if c =? SLASH then skip_slashes path' else path | [] => [] end.

(** The bytes up to a slash or the end, and the rest. *)
Fixpoint elem_of_path (path : list Z) : list Z * list Z :=
  match path with
  | c :: path' => if c =? SLASH then ([], path) else let '(s, rest) := elem_of_path path' in (c :: s, rest)
  | [] => ([], [])
  end.

(** [path] is the string without its NUL; [name] the [DIRSIZ] bytes the caller
    passes, stored to in part. *)
Definition skipelem (path name : list Z) : option (list Z * list Z) :=
  let path := skip_slashes path in
  match path with
  | [] => None
  | _ =>
      let '(s, rest) := elem_of_path path in
      let name' :=
        if (DIRSIZ <=? length s)%nat then splice 0 (take DIRSIZ s) name
        else <[length s := 0]> (splice 0 s name) in
      Some (skip_slashes rest, name')
  end.

Section names.
Context `{!BlockDevice} `{!Devsw}.

(** [cwd] is [myproc()->cwd]. *)
Fixpoint namex_loop (fuel : nat) (ip : nat) (path name : list Z) (nameiparent : bool) : M fs (option nat * list Z) :=
  match skipelem path name with
  | None => if nameiparent then iput ip ;; mret (None, name) else mret (Some ip, name)
  | Some (path, name) =>
      match fuel with
      | O => outOfFuel
      | S fuel' =>
          ilock ip ;;
          s ← get;
          if negb (di_type (din s ip) =? T_DIR) then iunlockput ip ;; mret (None, name) else
          if nameiparent && (length path =? 0)%nat then iunlock ip ;; mret (Some ip, name) else
          next ← dirlookup ip name;
          match next with
          | None => iunlockput ip ;; mret (None, name)
          | Some (next, _) => iunlockput ip ;; namex_loop fuel' next path name nameiparent
          end
      end
  end.

(** The inode, and the bytes of [name] afterwards. *)
Definition namex (cwd : nat) (path : list Z) (nameiparent : bool) (name : list Z) : M fs (option nat * list Z) :=
  let path := cstr path in
  ip ← (match path with
        | c :: _ => if c =? SLASH then iget ROOTDEV ROOTINO else idup cwd
        | [] => idup cwd
        end);
  namex_loop (length path) ip path name nameiparent.

(** What [name] holds before is never read. *)
Definition namei (cwd : nat) (path : list Z) : M fs (option nat) :=
  r ← namex cwd path false (replicate DIRSIZ 0); mret r.1.

Definition nameiparent (cwd : nat) (path name : list Z) : M fs (option nat * list Z) :=
  namex cwd path true name.
End names.
