(* ===== verification/Balloc.v ===== *)
(** * The block allocator of [fs.c]: [bzero], [balloc], [bfree].

    The file system's use of a transaction ([fs_ok]), the bitmap as a set of
    used blocks, and what allocation and freeing do to both. *)

From stdpp Require Import gmap.
From S2P Require Import Prelude Params Bio Log Trans Fs.

(** ** Bits *)

Lemma land_bit x n : 0 <= n -> (Z.land x (Z.shiftl 1 n) =? 0) = negb (Z.testbit x n).
Proof.
  intros Hn. destruct (Z.testbit x n) eqn:E; simpl.
  - apply Z.eqb_neq. intros H. apply (f_equal (fun z => Z.testbit z n)) in H.
    rewrite Z.land_spec, E, Z.shiftl_spec, Z.sub_diag, Z.bits_0 in H by done. done.
  - apply Z.eqb_eq. apply Z.bits_inj'. intros m Hm. rewrite Z.land_spec, Z.bits_0, Z.shiftl_spec by done.
    destruct (decide (m = n)) as [->|Hne]; [by rewrite E|].
    destruct (decide (m < n)); [by rewrite (Z.testbit_neg_r 1) by lia; rewrite andb_false_r|].
    rewrite (Z.bits_above_log2 1) by (simpl; lia). apply andb_false_r.
Qed.

Lemma bit1 n m : 0 <= n -> 0 <= m -> Z.testbit (Z.shiftl 1 n) m = bool_decide (m = n).
Proof.
  intros Hn Hm. rewrite Z.shiftl_spec by done. case_bool_decide as E; [subst; by rewrite Z.sub_diag|].
  destruct (decide (m < n)); [by rewrite Z.testbit_neg_r by lia|]. by rewrite Z.bits_above_log2 by (simpl; lia).
Qed.

Lemma byte_bits x : is_byte x <-> 0 <= x /\ forall n, 8 <= n -> Z.testbit x n = false.
Proof.
  unfold is_byte. split.
  - intros H. split; [lia|]. intros n Hn. destruct (decide (x = 0)) as [->|]; [apply Z.bits_0|].
    apply Z.bits_above_log2; [lia|]. enough (Z.log2 x < 8) by lia. apply Z.log2_lt_pow2; lia.
  - intros [H0 Hb]. split; [done|]. destruct (decide (x = 0)); [lia|]. change 256 with (2 ^ 8). apply Z.log2_lt_pow2; [lia|].
    destruct (decide (Z.log2 x < 8)); [done|]. pose proof (Hb (Z.log2 x)) as H. rewrite Z.bit_log2 in H by lia. discriminate H. lia.
Qed.

Lemma lor_byte x y : is_byte x -> is_byte y -> is_byte (Z.lor x y).
Proof.
  rewrite !byte_bits. intros [Hx Bx] [Hy By]. split; [by apply Z.lor_nonneg|].
  intros n Hn. by rewrite Z.lor_spec, Bx, By.
Qed.

Lemma land_byte x y : is_byte x -> is_byte (Z.land x y).
Proof.
  rewrite !byte_bits. intros [Hx Bx]. split; [apply Z.land_nonneg; by left|]. intros n Hn. by rewrite Z.land_spec, Bx.
Qed.

Lemma mask_byte bi : is_byte (bit_mask bi).
Proof.
  unfold bit_mask. pose proof (Z.mod_pos_bound bi 8 eq_refl). rewrite byte_bits. split; [by apply Z.shiftl_nonneg|].
  intros n Hn. rewrite bit1 by lia. apply bool_decide_false. lia.
Qed.

(** Bit [bi] of a block. *)
Definition bit (d : block) (bi : Z) : bool := Z.testbit (d !!! Z.to_nat (bi / 8)) (bi mod 8).

Lemma bit_free_bit d bi : bit_free d bi = negb (bit d bi).
Proof. apply land_bit. by apply Z.mod_pos_bound. Qed.

Definition in_bits (bi : Z) : Prop := 0 <= bi < BPB.

Lemma in_bits_byte bi : in_bits bi -> (Z.to_nat (bi / 8) < BSIZE)%nat.
Proof. unfold in_bits, BPB, BSIZE. intros. pose proof (Z.div_lt_upper_bound bi 8 512). lia. Qed.

(** Writing byte [bi/8] changes no bit of another byte. *)
Lemma bit_insert d bi bj x :
  length d = BSIZE -> in_bits bi -> in_bits bj ->
  bit (<[Z.to_nat (bi / 8) := x]> d) bj = if decide (bj / 8 = bi / 8) then Z.testbit x (bj mod 8) else bit d bj.
Proof.
  intros Hl Hi Hj. pose proof (in_bits_byte bi Hi) as Hb. unfold bit. case_decide as E.
  - rewrite E, list_lookup_total_insert_eq by (rewrite Hl; done). done.
  - rewrite list_lookup_total_insert_ne; [done|]. unfold in_bits in *. pose proof (Z.div_pos bi 8). pose proof (Z.div_pos bj 8). lia.
Qed.

Lemma same_bit bi bj : bj / 8 = bi / 8 -> bj mod 8 = bi mod 8 <-> bj = bi.
Proof. intros H. split; [|by intros ->]. intros H'. rewrite (Z.div_mod bj 8), (Z.div_mod bi 8) by done. congruence. Qed.

Lemma bit_set_bit d bi bj :
  length d = BSIZE -> in_bits bi -> in_bits bj -> bit (set_bit d bi) bj = bool_decide (bj = bi) || bit d bj.
Proof.
  intros Hl Hi Hj. unfold set_bit. rewrite bit_insert by done. case_decide as E.
  - pose proof (Z.mod_pos_bound bi 8 eq_refl). pose proof (Z.mod_pos_bound bj 8 eq_refl).
    unfold bit_mask. rewrite Z.lor_spec, bit1 by lia. unfold bit. rewrite E, orb_comm. f_equal.
    apply bool_decide_ext. by apply same_bit.
  - rewrite bool_decide_false; [done|]. by intros ->.
Qed.

Lemma bit_clear_bit d bi bj :
  length d = BSIZE -> in_bits bi -> in_bits bj -> bit (clear_bit d bi) bj = negb (bool_decide (bj = bi)) && bit d bj.
Proof.
  intros Hl Hi Hj. unfold clear_bit. rewrite bit_insert by done. case_decide as E.
  - pose proof (Z.mod_pos_bound bi 8 eq_refl). pose proof (Z.mod_pos_bound bj 8 eq_refl).
    unfold u8. change 256 with (2 ^ 8). rewrite Z.land_spec, Z.mod_pow2_bits_low, Z.lnot_spec by lia.
    unfold bit_mask. rewrite bit1 by lia. unfold bit. rewrite E, andb_comm. f_equal. f_equal.
    apply bool_decide_ext. by apply same_bit.
  - rewrite bool_decide_false; [done|]. by intros ->.
Qed.

Lemma block_ok_insert d i x : block_ok d -> is_byte x -> block_ok (<[i := x]> d).
Proof. intros [Hl Hb] Hx. split; [by rewrite length_insert|]. by apply Forall_insert. Qed.

Lemma block_byte d i : block_ok d -> is_byte (d !!! i).
Proof.
  intros [_ Hb]. destruct (d !! i) as [x|] eqn:E.
  - rewrite (list_lookup_total_correct _ _ _ E). by eapply Forall_lookup_1 in Hb.
  - rewrite list_lookup_total_alt, E. done.
Qed.

Lemma block_ok_set_bit d bi : block_ok d -> block_ok (set_bit d bi).
Proof. intros Hd. apply block_ok_insert; [done|]. apply lor_byte; [by apply block_byte|apply mask_byte]. Qed.

Lemma block_ok_clear_bit d bi : block_ok d -> block_ok (clear_bit d bi).
Proof. intros Hd. apply block_ok_insert; [done|]. apply land_byte. by apply block_byte. Qed.

(** The inner loop returns the first clear bit. *)
Lemma find_free_spec n d size b bi :
  match find_free n d size b bi with
  | Some r => bi <= r < bi + Z.of_nat n /\ b + r < size /\ bit d r = false /\ forall j, bi <= j < r -> bit d j = true
  | None => forall j, bi <= j < bi + Z.of_nat n -> b + j < size -> bit d j = true
  end.
Proof.
  revert bi. induction n as [|n IH]; intros bi; cbn [find_free]; [lia|].
  destruct (Z.ltb_spec (b + bi) size); cbn [negb]; [|intros j ?; lia]. rewrite bit_free_bit.
  destruct (bit d bi) eqn:E; cbn [negb].
  - specialize (IH (bi + 1)). destruct (find_free n d size b (bi + 1)) as [r|].
    + destruct IH as (? & ? & ? & Hj). do 2 (split; [lia|]); split; [done|]. intros j ?.
      destruct (decide (j = bi)) as [->|]; [done|]. apply Hj. lia.
    + intros j ? ?. destruct (decide (j = bi)) as [->|]; [done|]. apply IH; lia.
  - do 2 (split; [lia|]); split; [done|]. intros j ?. lia.
Qed.

(** ** The file system's layout *)

Section layout.
Context (sb : superblock).

(** The first data block. *)
Definition datastart : Z := sb_bmapstart sb + sb_size sb / BPB + 1.

(** Log, inode blocks, bitmap and data follow each other, as [mkfs] puts them. *)
Record layout (len : nat) : Prop := {
  ly_ino : sb_logstart sb + sb_nlog sb <= sb_inodestart sb;
  ly_bmap : sb_inodestart sb + sb_ninodes sb / IPB + 1 <= sb_bmapstart sb;
  ly_data : datastart <= sb_size sb;
  ly_size : sb_size sb = Z.of_nat len;
  ly_ninodes : 1 < sb_ninodes sb < 65536;
}.

Definition is_data (b : Z) : Prop := datastart <= b < sb_size sb.

(** The bit of block [b] in the bitmap. *)
Definition used (v : list block) (b : Z) : bool := bit (v !!! Z.to_nat (BBLOCK b sb)) (b mod BPB).

(** Marking a block used or free. *)
Definition mark (b : Z) (v : list block) : list block :=
  let m := Z.to_nat (BBLOCK b sb) in <[m := set_bit (v !!! m) (b mod BPB)]> v.
Definition unmark (b : Z) (v : list block) : list block :=
  let m := Z.to_nat (BBLOCK b sb) in <[m := clear_bit (v !!! m) (b mod BPB)]> v.

Lemma mod_in_bits b : in_bits (b mod BPB).
Proof. by apply Z.mod_pos_bound. Qed.

Lemma BBLOCK_eq b c : BBLOCK b sb = BBLOCK c sb -> b mod BPB = c mod BPB -> b = c.
Proof. unfold BBLOCK. intros H1 H2. rewrite (Z.div_mod b BPB), (Z.div_mod c BPB) by done. nia. Qed.

Section geo.
Context (len : nat) (Ly : layout len) (G : geometry sb len).

Lemma BBLOCK_range b : 0 <= b < sb_size sb -> sb_bmapstart sb <= BBLOCK b sb < datastart.
Proof.
  intros Hb. unfold BBLOCK, datastart. pose proof (Z.div_pos b BPB). unfold BPB in *.
  assert (b / 4096 <= sb_size sb / 4096) by (apply Z.div_le_mono; lia). lia.
Qed.

Lemma meta_pos : 1 < sb_inodestart sb /\ sb_inodestart sb < sb_bmapstart sb /\ sb_bmapstart sb < datastart.
Proof.
  destruct Ly, G as (? & ? & ?). unfold datastart in *. pose proof (Z.div_pos (sb_ninodes sb) IPB).
  pose proof (Z.div_pos (sb_size sb) BPB). unfold IPB, BPB in *. lia.
Qed.

Lemma above_log b : sb_inodestart sb <= b -> ~ in_log sb b.
Proof. destruct Ly. unfold in_log. lia. Qed.

Lemma IBLOCK_range i : 0 <= i < sb_ninodes sb -> sb_inodestart sb <= IBLOCK i sb < sb_bmapstart sb.
Proof.
  intros Hi. destruct Ly. unfold IBLOCK. pose proof (Z.div_pos i IPB). unfold IPB in *.
  assert (i / 8 <= sb_ninodes sb / 8) by (apply Z.div_le_mono; lia). lia.
Qed.

Section marks.
Context (v : list block) (b : Z).
Hypothesis Hlen : length v = len.
Hypothesis Hok : Forall block_ok v.
Hypothesis Hb : 0 <= b < sb_size sb.

Lemma bmap_block : exists d, v !! Z.to_nat (BBLOCK b sb) = Some d /\ block_ok d /\ v !!! Z.to_nat (BBLOCK b sb) = d.
Proof.
  pose proof (BBLOCK_range b Hb). pose proof meta_pos. destruct Ly.
  destruct (lookup_lt_is_Some_2 v (Z.to_nat (BBLOCK b sb))) as [d E]; [lia|].
  exists d. split; [done|]. split; [by eapply Forall_lookup_1 in Hok|]. by apply list_lookup_total_correct.
Qed.

Lemma used_insert_bmap d c :
  0 <= c < sb_size sb ->
  used (<[Z.to_nat (BBLOCK b sb) := d]> v) c = if decide (BBLOCK c sb = BBLOCK b sb) then bit d (c mod BPB) else used v c.
Proof.
  intros Hc. pose proof (BBLOCK_range b Hb). pose proof (BBLOCK_range c Hc). pose proof meta_pos. destruct Ly.
  unfold used. case_decide as E.
  - rewrite E, list_lookup_total_insert_eq by lia. done.
  - rewrite list_lookup_total_insert_ne by lia. done.
Qed.

Lemma used_mark c : 0 <= c < sb_size sb -> used (mark b v) c = bool_decide (c = b) || used v c.
Proof.
  intros Hc. destruct bmap_block as (d & _ & [Hd _] & E). unfold mark. rewrite used_insert_bmap, E by done.
  case_decide as E'.
  - rewrite bit_set_bit by (done || apply mod_in_bits). unfold used. rewrite E', E. f_equal.
    apply bool_decide_ext. split; [by intros; apply BBLOCK_eq|congruence].
  - rewrite bool_decide_false by congruence. done.
Qed.

Lemma used_unmark c : 0 <= c < sb_size sb -> used (unmark b v) c = negb (bool_decide (c = b)) && used v c.
Proof.
  intros Hc. destruct bmap_block as (d & _ & [Hd _] & E). unfold unmark. rewrite used_insert_bmap, E by done.
  case_decide as E'.
  - rewrite bit_clear_bit by (done || apply mod_in_bits). unfold used. rewrite E', E. f_equal. f_equal.
    apply bool_decide_ext. split; [by intros; apply BBLOCK_eq|congruence].
  - rewrite bool_decide_false by congruence. done.
Qed.
End marks.

(** Writing a block outside the bitmap changes no mark. *)
Lemma used_insert_data v a d c :
  0 <= c < sb_size sb -> 0 <= a -> (a < sb_bmapstart sb \/ datastart <= a) -> used (<[Z.to_nat a := d]> v) c = used v c.
Proof.
  intros Hc Ha Hr. unfold used. pose proof (BBLOCK_range c Hc). pose proof meta_pos. rewrite list_lookup_total_insert_ne by lia. done.
Qed.
End geo.
End layout.

(** ** The file system inside a transaction *)

Section fs.
Context `{!BlockDevice} `{!Devsw}.
Context (sb : superblock) (k : disk) (pid w : Z).

(** Log and cache present [v], with [L] logged and [Hd] locked; [w]
    operations are in progress. *)
Record fs_ok (s : fs) (v : list block) (L : list Z) (Hd : gmap Z nat) : Prop := {
  fo_tx : in_tx sb k pid (f_l s) v L Hd;
  fo_sb : f_sb s = sb;
  fo_ops : lg_outstanding (l_log (f_l s)) = w;
  fo_inodes : length (f_inodes s) = NINODE;
}.

(** There is room to log [n] more blocks while [m] are locked. *)
Definition room (L : list Z) (n m : nat) : Prop :=
  Z.of_nat (length L) + Z.of_nat n <= sb_nlog sb - 1 /\ (length L + n + m <= NBUF)%nat.

Lemma fs_set s v L Hd l v' L' Hd' :
  fs_ok s v L Hd -> in_tx sb k pid l v' L' Hd' -> lg_outstanding (l_log l) = lg_outstanding (l_log (f_l s)) ->
  fs_ok (set_fl l s) v' L' Hd'.
Proof. intros [T Hsb Ho Hi] T' E. split; cbn; [done|done|lia|done]. Qed.

Section calls.
Context (s : fs) (v : list block) (L : list Z) (Hd : gmap Z nat).
Hypothesis F : fs_ok s v L Hd.

Lemma fs_vok : Forall block_ok v.
Proof. exact (rep_vok _ _ _ _ (lr_bio _ _ _ _ _ (tx_rep _ _ _ _ _ _ _ (fo_tx _ _ _ _ F)))). Qed.

Lemma fs_geom : geometry sb (length v).
Proof. exact (lr_geom _ _ _ _ _ (tx_rep _ _ _ _ _ _ _ (fo_tx _ _ _ _ F))). Qed.

Lemma fs_size : Z.of_nat (length v) <= FSSIZE.
Proof. exact (rep_size _ _ _ _ (lr_bio _ _ _ _ _ (tx_rep _ _ _ _ _ _ _ (fo_tx _ _ _ _ F)))). Qed.

(** A block that is not locked may be released as it is. *)
Lemma fs_releasable a : 0 <= a -> Hd !! a = None -> releasable k v L a.
Proof.
  intros Ha Hn. destruct (decide (a ∈ L)); [by left|]. right.
  rewrite <- (tx_disk _ _ _ _ _ _ _ (fo_tx _ _ _ _ F)).
  apply (rep_clean _ _ _ _ (lr_bio _ _ _ _ _ (tx_rep _ _ _ _ _ _ _ (fo_tx _ _ _ _ F)))); [done| |done].
  by rewrite elem_of_list_to_set.
Qed.

Lemma fs_bread a (Q : nat -> fs -> Prop) :
  0 <= a < Z.of_nat (length v) -> Hd !! a = None -> ~ in_log sb a -> (length L + size Hd < NBUF)%nat ->
  (forall i l, fs_ok (set_fl l s) v L (<[a := i]> Hd) -> releasable k v L a -> Q i (set_fl l s)) ->
  wp (bop (bread ROOTDEV a)) Q s.
Proof.
  intros Ha Hn Hl Hs HQ. apply wp_zoom. eapply tx_bread; [apply F|done..|]. intros i l T E.
  apply HQ; [by eapply fs_set; [exact F|exact T|rewrite E]|]. apply fs_releasable; [lia|done].
Qed.

Lemma fs_bdata a i d (Q : block -> fs -> Prop) :
  Hd !! a = Some i -> v !! Z.to_nat a = Some d -> Q d s -> wp (bop (bdata i)) Q s.
Proof. intros Hi Hv HQ. apply wp_zoom. eapply tx_bdata; [apply F|done..|]. by destruct s. Qed.

Lemma fs_brelse a i (Q : unit -> fs -> Prop) :
  Hd !! a = Some i -> releasable k v L a ->
  (forall l, fs_ok (set_fl l s) v L (delete a Hd) -> Q tt (set_fl l s)) -> wp (bop (brelse i)) Q s.
Proof.
  intros Hi Hr HQ. apply wp_zoom. eapply tx_brelse; [apply F|done..|]. intros l T E.
  apply HQ. by eapply fs_set; [exact F|exact T|rewrite E].
Qed.

Lemma fs_set_bdata a i d (Q : unit -> fs -> Prop) :
  Hd !! a = Some i -> 1 < a -> block_ok d ->
  (forall l, fs_ok (set_fl l s) (<[Z.to_nat a := d]> v) L Hd -> Q tt (set_fl l s)) ->
  wp (bop (set_bdata i d)) Q s.
Proof.
  intros Hi Ha Hd' HQ. apply wp_zoom. eapply tx_set_bdata; [apply F|done..|]. intros l T E.
  apply HQ. by eapply fs_set; [exact F|exact T|rewrite E].
Qed.

Lemma fs_log_write a i (Q : unit -> fs -> Prop) :
  1 <= w -> Hd !! a = Some i -> 1 < a < Z.of_nat (length v) -> Z.of_nat (length L) < sb_nlog sb - 1 ->
  (forall l, fs_ok (set_fl l s) v (logged L a) Hd -> Q tt (set_fl l s)) -> wp (lop (log_write i)) Q s.
Proof.
  intros Hw Hi Ha Hn HQ. apply wp_zoom. pose proof (fo_ops _ _ _ _ F).
  eapply tx_log_write; [apply F|lia|done..|]. intros l T E.
  apply HQ. by eapply fs_set; [exact F|exact T|rewrite E].
Qed.
End calls.

(** Reading a block that is not locked, and releasing it. *)
Lemma wp_read_block {A} s v L Hd a d (f : nat -> block -> M fs A) Q :
  fs_ok s v L Hd -> v !! Z.to_nat a = Some d -> 0 <= a -> Hd !! a = None -> ~ in_log sb a -> (length L + size Hd < NBUF)%nat ->
  (forall i l, fs_ok (set_fl l s) v L (<[a := i]> Hd) -> releasable k v L a -> wp (f i d) Q (set_fl l s)) ->
  wp (bp ← bop (bread ROOTDEV a); d ← bop (bdata bp); f bp d) Q s.
Proof.
  intros F Hv Ha Hn Hl Hs HQ. pose proof (lookup_lt_Some _ _ _ Hv). apply wp_bind. eapply fs_bread; [exact F|lia|done..|].
  intros i l F1 Hr. apply wp_bind. eapply fs_bdata; [exact F1|apply lookup_insert_eq|exact Hv|]. by apply HQ.
Qed.

(** Storing, logging and releasing a locked block. *)
Lemma wp_write_block {A} s v L Hd a i d (m : M fs A) Q :
  fs_ok s v L (<[a := i]> Hd) -> Hd !! a = None -> 1 <= w -> 1 < a < Z.of_nat (length v) -> block_ok d ->
  Z.of_nat (length L) < sb_nlog sb - 1 ->
  (forall l, fs_ok (set_fl l s) (<[Z.to_nat a := d]> v) (logged L a) Hd -> wp m Q (set_fl l s)) ->
  wp (bop (set_bdata i d) ;; lop (log_write i) ;; bop (brelse i) ;; m) Q s.
Proof.
  intros F Hn Hw Ha Hd' Hl HQ. pose proof (lookup_insert_eq Hd a i) as Hi.
  apply wp_bind. eapply fs_set_bdata; [exact F|exact Hi|lia|done|]. intros l1 F1.
  apply wp_bind. eapply fs_log_write; [exact F1|done|exact Hi|by rewrite length_insert|done|]. intros l2 F2.
  apply wp_bind. eapply fs_brelse; [exact F2|exact Hi|left; apply elem_logged; by right|]. intros l3 F3.
  rewrite delete_insert_id in F3 by done. exact (HQ _ F3).
Qed.

Lemma wp_write_last s v L Hd a i d (Q : unit -> fs -> Prop) :
  fs_ok s v L (<[a := i]> Hd) -> Hd !! a = None -> 1 <= w -> 1 < a < Z.of_nat (length v) -> block_ok d ->
  Z.of_nat (length L) < sb_nlog sb - 1 ->
  (forall l, fs_ok (set_fl l s) (<[Z.to_nat a := d]> v) (logged L a) Hd -> Q tt (set_fl l s)) ->
  wp (bop (set_bdata i d) ;; lop (log_write i) ;; bop (brelse i)) Q s.
Proof.
  intros F Hn Hw Ha Hd' Hl HQ.
  assert (W : wp (bop (set_bdata i d) ;; lop (log_write i) ;; bop (brelse i) ;; mret tt) Q s).
  { eapply wp_write_block; [exact F|done..|]. intros l Fl. by apply wp_ret, HQ. }
  revert W. unfold wp, mbind, M_bind, mret, M_ret. destruct (bop (set_bdata i d) s) as [? s1| | | |]; [|done..].
  destruct (lop (log_write i) s1) as [? s2| | | |]; [|done..]. destruct (bop (brelse i) s2) as [[] s3| | | |]; done.
Qed.

Lemma bzero_spec s v L Hd b (Q : unit -> fs -> Prop) :
  fs_ok s v L Hd -> Hd !! b = None -> 1 <= w -> 1 < b < Z.of_nat (length v) -> ~ in_log sb b ->
  Z.of_nat (length L) < sb_nlog sb - 1 -> (length L + size Hd < NBUF)%nat ->
  (forall l, fs_ok (set_fl l s) (<[Z.to_nat b := zero_block]> v) (logged L b) Hd -> Q tt (set_fl l s)) ->
  wp (bzero ROOTDEV b) Q s.
Proof.
  intros F Hn Hw Hb Hl Hr Hs HQ. unfold bzero. apply wp_bind. eapply fs_bread; [exact F|lia|done..|]. intros i l F1 _.
  eapply wp_write_last; [exact F1|done..|auto with xv6|done|]. intros l' F2. exact (HQ _ F2).
Qed.

(** ** Allocating a block *)

Section alloc.
Context (v : list block) (L : list Z) (Hd : gmap Z nat).
Hypothesis Ly : layout sb (length v).
Hypothesis Hw : 1 <= w.
Hypothesis Hroom : room L 2 (S (size Hd)).
Hypothesis Hmeta : forall c, 0 <= c < datastart sb -> used sb v c = true.
Hypothesis Hheld : forall a, is_Some (Hd !! a) -> is_data sb a /\ used sb v a = true.

(** What [balloc] did: [r] is the first free block, it is marked and zeroed. *)
Definition balloc_post (s : fs) (r : Z) (s' : fs) : Prop :=
  (exists l, s' = set_fl l s) /\ is_data sb r /\ used sb v r = false /\
  (forall c, 0 <= c < r -> used sb v c = true) /\
  fs_ok s' (<[Z.to_nat r := zero_block]> (mark sb r v)) (logged (logged L (BBLOCK r sb)) r) Hd.

Definition balloc_full (e : string) : Prop :=
  e = "balloc: out of blocks"%string /\ forall c, 0 <= c < sb_size sb -> used sb v c = true.

(** Marking and zeroing the block that was found. *)
Lemma balloc_found s i b bi d (Q : Z -> fs -> Prop) :
  fs_ok s v L (<[BBLOCK b sb := i]> Hd) -> v !! Z.to_nat (BBLOCK b sb) = Some d -> b mod BPB = 0 -> 0 <= b ->
  in_bits bi -> b + bi < sb_size sb -> used sb v (b + bi) = false ->
  BBLOCK (b + bi) sb = BBLOCK b sb -> (b + bi) mod BPB = bi ->
  (forall l, fs_ok (set_fl l s) (<[Z.to_nat (b + bi) := zero_block]> (mark sb (b + bi) v))
      (logged (logged L (BBLOCK (b + bi) sb)) (b + bi)) Hd -> Q (b + bi) (set_fl l s)) ->
  wp (bop (set_bdata i (set_bit d bi)) ;; lop (log_write i) ;; bop (brelse i) ;; bzero ROOTDEV (b + bi) ;; mret (b + bi)) Q s.
Proof.
  intros F Hv Hm Hb Hbi Hsz Hfree EB Em HQ. pose proof (fs_geom _ _ _ _ F) as G. destruct Hroom as [Hr1 Hr2].
  pose proof (meta_pos _ _ Ly G). unfold in_bits in Hbi.
  pose proof (BBLOCK_range sb b ltac:(lia)) as HB. destruct Ly as [? ? ? Hs _].
  assert (Hbd : is_data sb (b + bi)).
  { split; [|done]. destruct (decide (datastart sb <= b + bi)); [done|]. rewrite Hmeta in Hfree by lia. done. }
  assert (Hnb : Hd !! BBLOCK b sb = None).
  { destruct (Hd !! BBLOCK b sb) eqn:E; [|done]. destruct (Hheld (BBLOCK b sb)) as [[? _] _]; [by eexists|lia]. }
  assert (Hnr : Hd !! (b + bi) = None).
  { destruct (Hd !! (b + bi)) eqn:E; [|done]. destruct (Hheld (b + bi)) as [_ ?]; [by eexists|congruence]. }
  destruct Hbd as [Hd1 _]. pose proof (length_logged L (BBLOCK b sb)).
  eapply wp_write_block; [exact F|done|done|lia| |lia|].
  { apply block_ok_set_bit. eapply Forall_lookup_1; [|exact Hv]. by eapply fs_vok. }
  intros l F1. apply wp_bind. eapply bzero_spec; [exact F1|done|done|rewrite length_insert; lia| |lia|lia|].
  { apply (above_log _ _ Ly). lia. }
  intros l' F2. apply wp_ret. apply HQ. unfold mark. rewrite EB, Em. by rewrite (list_lookup_total_correct _ _ _ Hv).
Qed.

Lemma balloc_loop_spec fuel : forall b s,
  fs_ok s v L Hd -> b mod BPB = 0 -> 0 <= b -> sb_size sb - b <= Z.of_nat fuel * BPB ->
  (forall c, 0 <= c < b -> c < sb_size sb -> used sb v c = true) ->
  wpe (balloc_loop fuel ROOTDEV b) (balloc_post s) balloc_full s.
Proof.
  induction fuel as [|fuel IH]; intros b s F Hm Hb Hf Hall; cbn [balloc_loop]; apply wpe_bind_wp, wp_get;
    rewrite (fo_sb _ _ _ _ F); (destruct (Z.ltb_spec b (sb_size sb)) as [Hlt|Hge]; cbn [negb];
      [|split; [done|]; intros c Hc; apply Hall; lia]); [lia|].
  pose proof (fs_geom _ _ _ _ F) as G. destruct (bmap_block sb (length v) Ly G v b eq_refl (fs_vok _ _ _ _ F)) as (d & Hv & Hd' & E); [lia|].
  pose proof (BBLOCK_range sb b ltac:(lia)) as HB. pose proof (meta_pos _ _ Ly G) as HM. destruct Hroom as [Hr1 Hr2].
  assert (Hnb : Hd !! BBLOCK b sb = None).
  { destruct (Hd !! BBLOCK b sb) eqn:E'; [|done]. destruct (Hheld (BBLOCK b sb)) as [[? _] _]; [by eexists|lia]. }
  apply wpe_bind_wp. eapply fs_bread; [exact F|destruct Ly; lia|done|apply (above_log _ _ Ly); lia|lia|]. intros i l F1 Hrel.
  apply wpe_bind_wp. eapply fs_bdata; [exact F1|apply lookup_insert_eq|exact Hv|].
  assert (Hpos : forall j, in_bits j -> BBLOCK (b + j) sb = BBLOCK b sb /\ (b + j) mod BPB = j).
  { intros j Hj. unfold in_bits, BBLOCK, BPB in *. Z.to_euclidean_division_equations. lia. }
  assert (Hub : forall j, in_bits j -> used sb v (b + j) = bit d j).
  { intros j Hj. destruct (Hpos j Hj) as [E1 E2]. unfold used. by rewrite E1, E2, E. }
  pose proof (find_free_spec (Z.to_nat BPB) d (sb_size sb) b 0) as Hff.
  destruct (find_free (Z.to_nat BPB) d (sb_size sb) b 0) as [bi|].
  - destruct Hff as (Hr & Hsz & Hbit & Hfirst). assert (Hbi : in_bits bi) by (unfold in_bits, BPB in *; lia).
    apply wpe_wp. eapply balloc_found; [exact F1|exact Hv|done|done|done|done|by rewrite Hub|by apply Hpos|by apply Hpos|].
    intros l' F2. assert (Hu : forall c, 0 <= c < b + bi -> used sb v c = true).
    { intros c Hc. destruct (decide (c < b)); [apply Hall; lia|]. replace c with (b + (c - b)) by lia.
      unfold in_bits in *. rewrite Hub by (unfold in_bits; lia). apply Hfirst. lia. }
    split; [by exists l'|]. split; [|split; [by rewrite Hub|split; [done|exact F2]]]. split; [|done].
    destruct (decide (datastart sb <= b + bi)); [done|]. pose proof (Hmeta (b + bi)) as Hx. rewrite Hub in Hx by done.
    unfold in_bits in *. rewrite Hx in Hbit by lia. done.
  - apply wpe_bind_wp. eapply fs_brelse; [exact F1|apply lookup_insert_eq|done|]. intros l' F2.
    rewrite delete_insert_id in F2 by done. eapply wpe_mono; [apply IH; [exact F2| | | |]| |done].
    + rewrite Z.add_mod, Hm by done. done.
    + unfold BPB. lia.
    + unfold BPB in *. lia.
    + intros c Hc Hcs. destruct (decide (c < b)); [apply Hall; lia|]. replace c with (b + (c - b)) by lia.
      rewrite Hub by (unfold in_bits, BPB in *; lia). apply Hff; unfold BPB in *; lia.
    + intros r s' [[l2 ->] Hp]. split; [by exists l2|exact Hp].
Qed.

Lemma balloc_ok s : fs_ok s v L Hd -> wpe (balloc ROOTDEV) (balloc_post s) balloc_full s.
Proof.
  intros F. unfold balloc. apply wpe_bind_wp, wp_get. rewrite (fo_sb _ _ _ _ F). apply balloc_loop_spec; [done|done|lia| |lia].
  destruct Ly. pose proof (Z.div_pos (sb_size sb) BPB). pose proof (Z.mod_pos_bound (sb_size sb) BPB).
  rewrite (Z.div_mod (sb_size sb) BPB) at 1 by done. unfold BPB in *. lia.
Qed.
End alloc.

(** [balloc] returns the first block that is free in the bitmap, never a
    block of the super block, log, inodes or bitmap; it zeroes that block, sets
    its bit and no other, and changes no other data block. It panics exactly
    when every block is in use. *)
Theorem balloc_spec s v L Hd :
  fs_ok s v L Hd -> layout sb (length v) -> 1 <= w -> room L 2 (S (size Hd)) ->
  (forall c, 0 <= c < datastart sb -> used sb v c = true) ->
  (forall a, is_Some (Hd !! a) -> is_data sb a /\ used sb v a = true) ->
  wpe (balloc ROOTDEV)
    (fun b s' => is_data sb b /\ used sb v b = false /\ (forall c, 0 <= c < b -> used sb v c = true) /\
       f_inodes s' = f_inodes s /\
       exists v' L', fs_ok s' v' L' Hd /\ (forall c, c ∈ L' <-> c ∈ L \/ c = b \/ c = BBLOCK b sb) /\
         v' !! Z.to_nat b = Some zero_block /\
         (forall c, 0 <= c < sb_size sb -> used sb v' c = bool_decide (c = b) || used sb v c) /\
         (forall a, 0 <= a -> a <> b -> a <> BBLOCK b sb -> v' !! Z.to_nat a = v !! Z.to_nat a))
    (fun e => e = "balloc: out of blocks"%string /\ forall c, 0 <= c < sb_size sb -> used sb v c = true) s.
Proof.
  intros F Ly Hw Hroom Hmeta Hheld. eapply wpe_mono; [by eapply (balloc_ok v L Hd)| |by intros e].
  intros b s' ([l ->] & Hb & Hu & Hfirst & F'). split; [done|]. split; [done|]. split; [done|]. split; [done|].
  pose proof (fs_geom _ _ _ _ F) as G. pose proof (meta_pos _ _ Ly G) as HM. destruct Hb as [Hb1 Hb2].
  pose proof (BBLOCK_range sb b ltac:(lia)) as HB. eexists _, _. split; [exact F'|]. split; [|split; [|split]].
  - intros c. rewrite !elem_logged. tauto.
  - apply list_lookup_insert_eq. unfold mark. rewrite length_insert. destruct Ly. lia.
  - intros c Hc. rewrite (used_insert_data sb _ Ly G) by lia.
    by apply (used_mark sb _ Ly G v b eq_refl (fs_vok _ _ _ _ F)); lia.
  - intros a Ha Hab HaB. unfold mark. by rewrite !list_lookup_insert_ne by lia.
Qed.

(** [bfree] clears the bit of a block in use and changes nothing else; on a
    block that is free already it panics. *)
Theorem bfree_spec s v L Hd b :
  fs_ok s v L Hd -> layout sb (length v) -> 1 <= w -> room L 1 (S (size Hd)) ->
  0 <= b < sb_size sb -> Hd !! BBLOCK b sb = None ->
  wpe (bfree ROOTDEV b)
    (fun _ s' => used sb v b = true /\ f_inodes s' = f_inodes s /\
       fs_ok s' (unmark sb b v) (logged L (BBLOCK b sb)) Hd /\
       forall c, 0 <= c < sb_size sb -> used sb (unmark sb b v) c = negb (bool_decide (c = b)) && used sb v c)
    (fun e => e = "freeing free block"%string /\ used sb v b = false) s.
Proof.
  intros F Ly Hw [Hr1 Hr2] Hb Hn. pose proof (fs_geom _ _ _ _ F) as G. pose proof (meta_pos _ _ Ly G) as HM.
  destruct (bmap_block sb (length v) Ly G v b eq_refl (fs_vok _ _ _ _ F) Hb) as (d & Hv & Hd' & E).
  pose proof (BBLOCK_range sb b Hb) as HB. unfold bfree. apply wpe_bind_wp, wp_get. rewrite (fo_sb _ _ _ _ F).
  apply wpe_bind_wp. eapply fs_bread; [exact F|destruct Ly; lia|done|apply (above_log _ _ Ly); lia|lia|]. intros i l F1 _.
  apply wpe_bind_wp. eapply fs_bdata; [exact F1|apply lookup_insert_eq|exact Hv|].
  rewrite bit_free_bit. assert (Eu : used sb v b = bit d (b mod BPB)) by (unfold used; by rewrite E).
  rewrite Eu. destruct (bit d (b mod BPB)) eqn:Eb; cbn [negb]; [|by split]. apply wpe_wp.
  eapply wp_write_last; [exact F1|done|done|destruct Ly; lia|by apply block_ok_clear_bit|lia|]. intros l' F2.
  split; [done|]. split; [done|]. split; [unfold unmark; by rewrite E|].
  intros c Hc. apply (used_unmark sb _ Ly G v b eq_refl (fs_vok _ _ _ _ F) Hb c Hc).
Qed.
End fs.

(** ** The capacity check of [log_write] and the admission of [begin_op]

    [mkfs] reserves [LOGSIZE] blocks for the header and the log, so the log
    holds [LOGSIZE - 1] blocks; [begin_op] admits operations by [LOGSIZE]. *)

Section capacity.
Context `{BD : !BlockDevice} (sb : superblock).

Definition bzero_all (bs : list Z) : M fs unit := foldr (fun b m => bzero ROOTDEV b ;; m) (mret tt) bs.
Definition three_ops : M fs unit := lop begin_op ;; lop begin_op ;; lop begin_op.

(** A home block of a disk of [n] blocks. *)
Definition is_home (n : nat) (b : Z) : Prop := 1 < b < Z.of_nat n /\ ~ in_log sb b.

Lemma bzero_all_ok k pid w bs : forall s v L, fs_ok sb k pid w s v L ∅ -> 1 <= w -> sb_nlog sb <= LOGSIZE -> NoDup (L ++ bs) -> Forall (is_home (length v)) bs ->
  Z.of_nat (length (L ++ bs)) <= sb_nlog sb - 1 -> wp (bzero_all bs) (fun _ s' => exists v', fs_ok sb k pid w s' v' (L ++ bs) ∅ /\ length v' = length v) s.
Proof.
  induction bs as [|b bs IH]; intros s v L F Hw Hn Hnd Hh Hl; [apply wp_ret; rewrite app_nil_r; by exists v|].
  apply Forall_cons in Hh as [[Hb Hnl] Hh]. rewrite length_app in Hl. cbn [length] in Hl. unfold LOGSIZE, MAXOPBLOCKS in Hn. cbn [bzero_all foldr]. apply wp_bind.
  eapply bzero_spec; [exact F|done|done|done|done|lia|rewrite map_size_empty; unfold NBUF; lia|]. intros l F1.
  assert (logged L b = L ++ [b]) as El by (unfold logged; rewrite decide_False; [done|]; apply NoDup_app in Hnd as (_ & Hd & _); intros Hin; apply (Hd b Hin); left).
  rewrite El in F1. replace (L ++ b :: bs) with ((L ++ [b]) ++ bs) by (by rewrite <- app_assoc). eapply wp_mono; [apply (IH _ _ _ F1); [done|unfold LOGSIZE, MAXOPBLOCKS; lia|by rewrite <- app_assoc|by rewrite length_insert|rewrite !length_app; cbn [length]; lia]|].
  intros [] s' (v' & F' & Hlen). exists v'. split; [done|]. by rewrite Hlen, length_insert.
Qed.

(** With the log full, one more block does not fit. *)
Lemma bzero_full k pid w b s v L : fs_ok sb k pid w s v L ∅ -> Z.of_nat (length L) = sb_nlog sb - 1 -> (length L < NBUF)%nat -> is_home (length v) b ->
  wpe (bzero ROOTDEV b) (fun _ _ => False) (fun e => e = "too big a transaction"%string) s.
Proof.
  intros F Hl Hn [Hb Hnl]. unfold bzero. apply wpe_bind_wp. eapply fs_bread; [exact F|lia|done|done|rewrite map_size_empty; lia|]. intros i l F1 _.
  apply wpe_bind_wp. eapply fs_set_bdata; [exact F1|apply lookup_insert_eq|lia|auto with xv6|]. intros l2 F2.
  pose proof (lr_log _ _ _ _ _ (tx_rep _ _ _ _ _ _ _ (fo_tx _ _ _ _ _ _ _ _ F2))) as (_ & E1 & _ & E2 & _). cbn [set_fl f_l] in *.
  assert (log_write i l2 = Panic "too big a transaction") as E by (unfold log_write, get, mbind, M_bind; by rewrite E1, E2, Hl, Z.leb_refl, orb_true_r).
  apply wpe_bind. unfold wpe, lop, zoom. cbn [f_l set_fl]. by rewrite E.
Qed.

(** Three operations are admitted at once. *)
Lemma three_ops_ok s v : log_rep sb (f_l s) v [] ∅ -> lg_outstanding (l_log (f_l s)) = 0 -> lg_committing (l_log (f_l s)) = false -> f_sb s = sb -> length (f_inodes s) = NINODE ->
  wp three_ops (fun _ s' => fs_ok sb (bdisk (l_bio (f_l s))) (bpid (l_bio (f_l s))) 3 s' v [] ∅) s.
Proof.
  intros R Ho Hc Hs Hi. unfold three_ops. apply wp_bind, wp_zoom. eapply wp_mono; [eapply begin_op_spec; [exact R|done|lia|rewrite Ho; by vm_compute]|]. intros [] l1 [[R1 _ I1 D1 P1] O1].
  apply wp_bind, wp_zoom. cbn [f_l set_fl]. eapply wp_mono; [eapply begin_op_spec; [exact R1|done|lia|rewrite O1, Ho; by vm_compute]|]. intros [] l2 [[R2 _ I2 D2 P2] O2].
  apply wp_zoom. cbn [f_l set_fl]. eapply wp_mono; [eapply begin_op_spec; [exact R2|done|lia|rewrite O2, O1, Ho; by vm_compute]|]. intros [] l3 [T3 O3].
  rewrite D2, D1, P2, P1 in T3. split; cbn [f_l set_fl f_sb f_inodes]; [exact T3|done|lia|done].
Qed.

Lemma bzero_all_app bs b s : bzero_all (bs ++ [b]) s = (bzero_all bs ;; bzero_all [b]) s.
Proof.
  revert s. induction bs as [|a bs IH]; intros s; [done|]. cbn [app bzero_all foldr]. unfold mbind, M_bind in *. destruct (bzero ROOTDEV a s) as [[] s1| | | |]; [|done..]. apply IH.
Qed.
End capacity.

(** C40 The log is too small by one block for what [begin_op] admits. On a disk as [mkfs] lays it out, with [LOGSIZE] blocks for the log and its header, three operations
    begin at once; zeroing any [3 * MAXOPBLOCKS] different blocks, [MAXOPBLOCKS] for each as they may, goes well up to the last block, and
    there [log_write] panics. *)
Theorem three_operations_panic `{!BlockDevice} sb s v bs b :
  log_rep sb (f_l s) v [] ∅ -> lg_outstanding (l_log (f_l s)) = 0 -> lg_committing (l_log (f_l s)) = false -> f_sb s = sb -> length (f_inodes s) = NINODE ->
  sb_nlog sb = LOGSIZE -> NoDup (bs ++ [b]) -> Z.of_nat (length (bs ++ [b])) = 3 * MAXOPBLOCKS -> Forall (is_home sb (length v)) (bs ++ [b]) ->
  (exists s', (three_ops ;; bzero_all bs) s = Ok tt s') /\ (three_ops ;; bzero_all (bs ++ [b])) s = Panic "too big a transaction".
Proof.
  intros R Ho Hc Hs Hi Hn Hnd Hl Hh. rewrite length_app in Hl. cbn [length] in Hl. apply Forall_app in Hh as [Hh Hb]. apply Forall_cons in Hb as [Hb _]. apply NoDup_app in Hnd as (Hnd & _ & _).
  assert (wp (three_ops ;; bzero_all bs) (fun _ s' => exists v', fs_ok sb (bdisk (l_bio (f_l s))) (bpid (l_bio (f_l s))) 3 s' v' bs ∅ /\ length v' = length v) s) as W.
  { apply wp_bind. eapply wp_mono; [by apply (three_ops_ok sb s v)|]. intros [] s3 F3. apply (bzero_all_ok sb _ _ 3 bs s3 v [] F3); [lia|by rewrite Hn|done|done|]. rewrite Hn. cbn [app]. unfold LOGSIZE, MAXOPBLOCKS in *. lia. }
  destruct (wp_returns _ _ _ W) as ([] & s' & E & v' & F' & El). split; [by exists s'|].
  assert (wpe (bzero_all [b]) (fun _ _ => False) (fun e => e = "too big a transaction"%string) s') as P.
  { cbn [bzero_all foldr]. apply wpe_bind. eapply wpe_mono; [eapply (bzero_full sb _ _ 3 b s' v' bs F')|done|done]; [rewrite Hn; unfold LOGSIZE, MAXOPBLOCKS in *; lia|unfold NBUF, MAXOPBLOCKS in *; lia|by rewrite El]. }
  unfold mbind, M_bind in E |- *. destruct (three_ops s) as [[] s3| | | |]; [|done..]. rewrite bzero_all_app. unfold mbind, M_bind. rewrite E. unfold wpe in P. destruct (bzero_all [b] s'); try done. by subst.
Qed.

(** ** A small file system: log 2-31, inodes 32-34, bitmap 35, data 36-43 *)

Definition sb1 : superblock := mkSuperblock 44 8 16 30 2 32 35.
Definition sb1_block : block :=
  put_u32 0 44 (put_u32 4 8 (put_u32 8 16 (put_u32 12 30 (put_u32 16 2 (put_u32 20 32 (put_u32 24 35 zero_block)))))).
Definition bitmap1 : block := splice 0 [255; 255; 255; 255; 15] zero_block.
Definition disk1 : list block :=
  zero_block :: sb1_block :: replicate 33 zero_block ++ bitmap1 :: replicate 8 zero_block.

(** Mounting a disk: [binit] in [main], then [iinit] and [initlog] in the first process ([forkret]). *)
Definition mount_fs `{!BlockDevice} : M fs unit := lop (bio_op binit) ;; iinit ROOTDEV ;; lop (initlog ROOTDEV).

(** The first process then begins an operation. *)
Definition start_fs `{!BlockDevice} : M fs unit := mount_fs ;; lop begin_op.
Definition boot_fs : fs := mkFs (boot disk1 1) (replicate NINODE inode0) sb0.

Lemma disk1_recovers : recovers_to sb1 disk1 disk1.
Proof.
  apply (recovers_self sb1 disk1 disk1 zero_block).
  - assert (block_ok sb1_block).
    { unfold sb1_block. repeat (apply block_ok_put_u32; [|unfold BSIZE; lia]). apply zero_block_ok. }
    assert (block_ok bitmap1) by (apply block_ok_splice; [apply zero_block_ok|by repeat constructor|unfold BSIZE; simpl; lia]).
    unfold disk1. apply Forall_cons. split; [apply zero_block_ok|]. apply Forall_cons. split; [done|].
    apply Forall_app. split; [by apply Forall_replicate, zero_block_ok|].
    apply Forall_cons. split; [done|]. by apply Forall_replicate, zero_block_ok.
  - cbn. unfold_params. lia.
  - unfold geometry. cbn. unfold_params. lia.
  - exists sb1_block. split; [done|vm_compute; reflexivity].
  - done.
  - vm_compute. reflexivity.
  - done.
Qed.

Lemma sb1_layout : layout sb1 44.
Proof. split; [..|split]; vm_compute; congruence. Qed.

(** Mounting a disk whose log is empty. *)
Record mounts `{!BlockDevice} (sb : superblock) (k : list block) (s : fs) (v : list block) : Prop := {
  ms_rep : log_rep sb (f_l s) v [] ∅;
  ms_out : lg_outstanding (l_log (f_l s)) = 0;
  ms_idle : lg_committing (l_log (f_l s)) = false;
  ms_pid : bpid (l_bio (f_l s)) = 1;
  ms_sb : f_sb s = sb;
  ms_inodes : f_inodes s = replicate NINODE inode0;
  ms_home : home_eq sb v k;
  ms_len : length v = length k;
}.

Lemma mount_ok `{!BlockDevice} sb k (Q : unit -> fs -> Prop) :
  recovers_to sb k k -> (forall s v, mounts sb k s v -> Q tt s) ->
  wp mount_fs Q (mkFs (boot k 1) (replicate NINODE inode0) sb0).
Proof.
  intros Hrec HQ. pose proof Hrec as [Hok Hsz _ (d & Hd & Esb) _]. unfold mount_fs. apply wp_bind, wp_zoom, wp_bio_op. eapply wp_mono; [by apply binit_spec|].
  intros [] b0 (R0 & Hk0 & Hp0). unfold iinit. apply wp_bind, wp_bind, wp_modify. apply wp_bind, wp_zoom. cbn [f_l set_fl].
  eapply wp_mono; [eapply (readsb_spec _ k ∅ d); [exact R0|set_solver|by rewrite size_empty; unfold NBUF; lia|done]|].
  intros sb' l1 [-> (b1 & -> & R1 & Hk1 & Hp1)]. apply wp_modify. cbn [f_l set_fl f_inodes]. rewrite Esb. lsimpl.
  apply wp_zoom. eapply wp_mono; [apply (initlog_ok sb k k 1 b1 Hrec R1); [by rewrite Hk1, Hk0|by rewrite Hp1, Hp0]|].
  intros [] l (v & ws & R & Heq & Hk & Hv & Ho & Hc & Hp & _). eapply HQ. split; cbn [f_l f_sb f_inodes set_fl]; try done. by rewrite Hv, length_replay.
Qed.

Lemma start_ok `{!BlockDevice} sb k (Q : unit -> fs -> Prop) :
  recovers_to sb k k ->
  (forall k' s v, fs_ok sb k' 1 1 s v [] ∅ -> home_eq sb v k -> length v = length k ->
     f_inodes s = replicate NINODE inode0 -> Q tt s) ->
  wp start_fs Q (mkFs (boot k 1) (replicate NINODE inode0) sb0).
Proof.
  intros Hrec HQ. unfold start_fs. apply wp_bind, (mount_ok sb k); [done|]. intros s v [R Ho Hc Hp Hsb Hi Hh Hl].
  apply wp_zoom. eapply wp_mono; [eapply begin_op_spec; [exact R|done|lia|rewrite Ho; unfold_params; cbn; lia]|].
  intros [] l2 [T Ho2]. eapply HQ; [|exact Hh|exact Hl|exact Hi]. split; cbn [f_l set_fl f_sb f_inodes]; [rewrite <- Hp; exact T|done|lia|by rewrite Hi].
Qed.

Lemma start_fs_spec `{!BlockDevice} (Q : unit -> fs -> Prop) :
  (forall k s v, fs_ok sb1 k 1 1 s v [] ∅ -> home_eq sb1 v disk1 -> length v = 44%nat ->
     f_inodes s = replicate NINODE inode0 -> Q tt s) ->
  wp start_fs Q boot_fs.
Proof. intros HQ. apply (start_ok sb1 disk1); [apply disk1_recovers|]. intros k' s v. apply HQ. Qed.

Lemma bitmap1_bits c : 0 <= c < 44 -> bit bitmap1 c = (c <? 36).
Proof.
  intros Hc. assert (H : forallb (fun n => Bool.eqb (bit bitmap1 (Z.of_nat n)) (Z.of_nat n <? 36)) (seq 0 44) = true)
    by (vm_compute; reflexivity).
  rewrite forallb_forall in H. specialize (H (Z.to_nat c)). rewrite Z2Nat.id in H by lia.
  apply eqb_prop, H, in_seq. lia.
Qed.

Lemma used1 v c : home_eq sb1 v disk1 -> 0 <= c < 44 -> used sb1 v c = (c <? 36).
Proof.
  intros Heq Hc. unfold used, BBLOCK, BPB. rewrite Z.div_small, Z.mod_small by lia. cbn [sb_bmapstart sb1].
  assert (E : v !! Z.to_nat 35 = Some bitmap1) by (rewrite Heq; [done|lia|unfold in_log; cbn; lia]).
  change (0 + 35) with 35. rewrite (list_lookup_total_correct _ _ _ E). by apply bitmap1_bits.
Qed.

Lemma balloc_spec_witness :
  wp start_fs (fun _ s => wp (balloc ROOTDEV) (fun b s' => b = 36) s) boot_fs.
Proof.
  apply start_fs_spec. intros k s v F Heq Hlen _. eapply wp_wpe.
  - eapply wpe_mono; [apply (balloc_spec sb1 k 1 1 s v [] ∅ F)| |intros e He; exact He].
    + rewrite Hlen. apply sb1_layout.
    + lia.
    + rewrite map_size_empty. unfold room. cbn. unfold NBUF. lia.
    + intros c Hc. change (datastart sb1) with 36 in Hc. rewrite used1 by (done || lia). apply Z.ltb_lt. lia.
    + intros a [x Hx]. by rewrite lookup_empty in Hx.
    + intros b s' ([Hb _] & _ & Hfirst & _). change (datastart sb1) with 36 in Hb.
      destruct (decide (b = 36)); [done|]. specialize (Hfirst 36 ltac:(lia)). rewrite used1 in Hfirst by (done || lia). done.
  - intros e [_ Hall]. specialize (Hall 36). rewrite used1 in Hall by (done || lia). cbn in Hall. by specialize (Hall ltac:(lia)).
Defined.

Lemma bfree_spec_witness :
  wp start_fs (fun _ s => wp (bfree ROOTDEV 35) (fun _ s' => True) s) boot_fs.
Proof.
  apply start_fs_spec. intros k s v F Heq Hlen _. eapply wp_wpe.
  - eapply wpe_mono; [apply (bfree_spec sb1 k 1 1 s v [] ∅ 35 F)|done|intros e He; exact He].
    + rewrite Hlen. apply sb1_layout.
    + lia.
    + rewrite map_size_empty. unfold room. cbn. unfold NBUF. lia.
    + cbn. lia.
    + done.
  - intros e [_ Hu]. rewrite used1 in Hu by (done || lia). done.
Defined.
