(* ===== verification/Inode.v ===== *)
(** * The inodes of [fs.c]: their layout on disk, [iupdate], [ilock],
    [iunlock], [ialloc] and the inode cache ([iget], [idup]). *)

From stdpp Require Import gmap.
From S2P Require Import Prelude Params Bio Log Trans Fs Balloc.

(** ** The layout of [struct dinode] *)

Definition short (z : Z) : Prop := -32768 <= z < 32768.
Definition uint (z : Z) : Prop := 0 <= z < 4294967296.

Record dinode_ok (i : dinode) : Prop := {
  dk_type : short (di_type i);
  dk_major : short (di_major i);
  dk_minor : short (di_minor i);
  dk_nlink : short (di_nlink i);
  dk_size : uint (di_size i);
  dk_len : length (di_addrs i) = 13%nat;
  dk_addrs : Forall uint (di_addrs i);
}.

Section fields.
Local Open Scope nat_scope.

Lemma slice_put_u16_ne o n o' x d :
  o' + 2 <= length d -> o + n <= o' \/ o' + 2 <= o -> slice o n (put_u16 o' x d) = slice o n d.
Proof. intros. unfold put_u16. by rewrite slice_splice_ne by (rewrite length_le_bytes; lia). Qed.

Lemma slice_put_u32_ne o n o' x d :
  o' + 4 <= length d -> o + n <= o' \/ o' + 4 <= o -> slice o n (put_u32 o' x d) = slice o n d.
Proof. intros. unfold put_u32. by rewrite slice_splice_ne by (rewrite length_le_bytes; lia). Qed.

Lemma length_put_addrs a : forall o d, o + 4 * length a <= length d -> length (put_addrs a o d) = length d.
Proof.
  induction a as [|x a IH]; intros o d H; cbn [put_addrs length] in *; [done|].
  rewrite IH; rewrite length_put_u32; lia.
Qed.

Lemma slice_put_addrs_ne o n a : forall o' d,
  o' + 4 * length a <= length d -> o + n <= o' \/ o' + 4 * length a <= o ->
  slice o n (put_addrs a o' d) = slice o n d.
Proof.
  induction a as [|x a IH]; intros o' d H H'; cbn [put_addrs length] in *; [done|].
  rewrite IH by (rewrite ?length_put_u32; lia). apply slice_put_u32_ne; lia.
Qed.

Lemma get_put_addrs a : forall o d,
  o + 4 * length a <= length d -> Forall uint a -> get_addrs (length a) o (put_addrs a o d) = a.
Proof.
  induction a as [|x a IH]; intros o d H Ha; cbn [put_addrs get_addrs length] in *; [done|].
  apply Forall_cons in Ha as [Hx Ha]. f_equal.
  - unfold get_u32. rewrite slice_put_addrs_ne by (rewrite ?length_put_u32; lia). apply get_put_u32_eq; [lia|done].
  - apply IH; [rewrite length_put_u32; lia|done].
Qed.

(** [d] and [d'] agree on the [n] bytes from [o]. *)
Definition agree (o n : nat) (d d' : list Z) : Prop :=
  forall o' n', o <= o' -> o' + n' <= o + n -> slice o' n' d = slice o' n' d'.

Lemma get_addrs_ext n : forall o d d', agree o (4 * n) d d' -> get_addrs n o d = get_addrs n o d'.
Proof.
  induction n as [|n IH]; intros o d d' H; cbn [get_addrs]; [done|]. f_equal.
  - unfold get_u32. rewrite H by lia. done.
  - apply IH. intros o' n' ? ?. apply H; lia.
Qed.

Lemma get_dinode_ext o d d' : agree o DINODE_SIZE d d' -> get_dinode o d = get_dinode o d'.
Proof.
  intros H. unfold get_dinode, get_u16, get_u32, DINODE_SIZE in *. rewrite !(H _ 2), (H _ 4) by lia. f_equal.
  apply get_addrs_ext. intros o' n' ? ?. apply H; lia.
Qed.

(** Lengths of updated blocks. *)
Ltac put_len :=
  repeat first [rewrite length_put_u16 by (put_len; lia) | rewrite length_put_u32 by (put_len; lia)]; try lia.

Lemma length_put_dinode o i d :
  o + DINODE_SIZE <= length d -> length (di_addrs i) = 13 -> length (put_dinode o i d) = length d.
Proof.
  unfold put_dinode, DINODE_SIZE. intros Ho Hl.
  rewrite length_put_addrs; rewrite ?Hl; put_len.
Qed.

Lemma put_dinode_agree o o' i d :
  o + DINODE_SIZE <= length d -> length (di_addrs i) = 13 -> o' + DINODE_SIZE <= o \/ o + DINODE_SIZE <= o' ->
  agree o' DINODE_SIZE (put_dinode o i d) d.
Proof.
  unfold put_dinode, DINODE_SIZE. intros Ho Hl Hd p n Hp Hn.
  rewrite slice_put_addrs_ne by (rewrite ?Hl; put_len). rewrite slice_put_u32_ne by put_len.
  by rewrite !slice_put_u16_ne by put_len.
Qed.

Lemma get_put_short p x d : p + 2 <= length d -> short x -> s16 (get_u16 p (put_u16 p (u16 x) d)) = x.
Proof. intros Hp Hx. rewrite get_put_u16_eq; [by apply s16_u16|done|]. by apply Z.mod_pos_bound. Qed.

(** Reading back a stored inode. *)
Lemma get_put_dinode o i d : o + DINODE_SIZE <= length d -> dinode_ok i -> get_dinode o (put_dinode o i d) = i.
Proof.
  unfold put_dinode, get_dinode, DINODE_SIZE. intros Ho [H1 H2 H3 H4 H5 Hl Ha].
  destruct i as [ty ma mi nl sz ad]; cbn [di_type di_major di_minor di_nlink di_size di_addrs] in *. f_equal.
  1-4: unfold get_u16; rewrite slice_put_addrs_ne by (rewrite ?Hl; put_len);
    rewrite slice_put_u32_ne by put_len; rewrite ?slice_put_u16_ne by put_len; apply get_put_short; [put_len|done].
  - unfold get_u32. rewrite slice_put_addrs_ne by (rewrite ?Hl; put_len). apply get_put_u32_eq; [put_len|done].
  - rewrite <- Hl. apply get_put_addrs; [rewrite ?Hl; put_len|done].
Qed.
End fields.

Lemma s16_short z : short (s16 z).
Proof. unfold short, s16. pose proof (Z.mod_pos_bound (z + 32768) 65536 eq_refl). lia. Qed.

Lemma get_addrs_uint n : forall o d, Forall is_byte d -> Forall uint (get_addrs n o d).
Proof. induction n as [|n IH]; intros o d Hd; cbn [get_addrs]; constructor; [by apply get_u32_range|by apply IH]. Qed.

Lemma length_get_addrs n : forall o d, length (get_addrs n o d) = n.
Proof. induction n as [|n IH]; intros o d; cbn [get_addrs length]; [done|by rewrite IH]. Qed.

Lemma get_dinode_ok o d : block_ok d -> dinode_ok (get_dinode o d).
Proof.
  intros [_ Hb]. split; cbn [get_dinode di_type di_major di_minor di_nlink di_size di_addrs].
  1-4: apply s16_short.
  - by apply get_u32_range.
  - apply length_get_addrs.
  - by apply get_addrs_uint.
Qed.

Lemma put_addrs_bytes a : forall o d, Forall is_byte d -> Forall is_byte (put_addrs a o d).
Proof.
  induction a as [|x a IH]; intros o d Hd; cbn [put_addrs]; [done|]. apply IH. by apply Forall_splice; [apply le_bytes_bytes|].
Qed.

Lemma put_dinode_block o i d :
  block_ok d -> (o + DINODE_SIZE <= BSIZE)%nat -> length (di_addrs i) = 13%nat -> block_ok (put_dinode o i d).
Proof.
  intros [Hl Hb] Ho Ha. split; [by rewrite length_put_dinode by (rewrite ?Hl; done)|].
  apply put_addrs_bytes. unfold put_u32, put_u16. by repeat (apply Forall_splice; [apply le_bytes_bytes|]).
Qed.

Lemma dip_off_fits inum : (dip_off inum + DINODE_SIZE <= BSIZE)%nat.
Proof. unfold dip_off, DINODE_SIZE, BSIZE, IPB. pose proof (Z.mod_pos_bound inum 8 eq_refl). lia. Qed.

(** Two inodes of one block do not overlap. *)
Lemma dip_off_apart sb i j :
  0 <= i -> 0 <= j -> i <> j -> IBLOCK i sb = IBLOCK j sb ->
  (dip_off j + DINODE_SIZE <= dip_off i \/ dip_off i + DINODE_SIZE <= dip_off j)%nat.
Proof.
  unfold IBLOCK, dip_off, DINODE_SIZE, IPB. intros Hi Hj Hne E.
  assert (i mod 8 <> j mod 8). { intros H. apply Hne. rewrite (Z.div_mod i 8), (Z.div_mod j 8) by done. lia. }
  pose proof (Z.mod_pos_bound i 8 eq_refl). pose proof (Z.mod_pos_bound j 8 eq_refl). lia.
Qed.

(** ** Inodes on disk *)

Section disk.
Context (sb : superblock).

(** The inode [inum] in the contents [v]. *)
Definition dinode_at (v : list block) (inum : Z) : dinode := get_dinode (dip_off inum) (v !!! Z.to_nat (IBLOCK inum sb)).
Definition put_inode (inum : Z) (i : dinode) (v : list block) : list block :=
  let b := Z.to_nat (IBLOCK inum sb) in <[b := put_dinode (dip_off inum) i (v !!! b)]> v.

Definition is_inum (i : Z) : Prop := 0 <= i < sb_ninodes sb.

Section geo.
Context (v : list block) (Ly : layout sb (length v)) (G : geometry sb (length v)) (Hok : Forall block_ok v).

Lemma inode_block inum :
  is_inum inum -> exists d, v !! Z.to_nat (IBLOCK inum sb) = Some d /\ block_ok d /\ v !!! Z.to_nat (IBLOCK inum sb) = d.
Proof.
  intros Hi. pose proof (IBLOCK_range sb _ Ly inum Hi). pose proof (meta_pos _ _ Ly G). destruct Ly.
  destruct (lookup_lt_is_Some_2 v (Z.to_nat (IBLOCK inum sb))) as [d E]; [lia|].
  exists d. split; [done|]. split; [by eapply Forall_lookup_1 in Hok|]. by apply list_lookup_total_correct.
Qed.

Lemma dinode_at_ok inum : is_inum inum -> dinode_ok (dinode_at v inum).
Proof. intros Hi. destruct (inode_block inum Hi) as (d & _ & Hd & E). unfold dinode_at. rewrite E. by apply get_dinode_ok. Qed.

Lemma put_inode_eq inum i : is_inum inum -> dinode_ok i -> dinode_at (put_inode inum i v) inum = i.
Proof.
  intros Hi Hk. destruct (inode_block inum Hi) as (d & Hv & [Hl _] & E). unfold dinode_at, put_inode.
  rewrite E, list_lookup_total_insert_eq by (by eapply lookup_lt_Some). apply get_put_dinode; [|done]. rewrite Hl. apply dip_off_fits.
Qed.

Lemma put_inode_ne inum j i :
  is_inum inum -> is_inum j -> inum <> j -> length (di_addrs i) = 13%nat ->
  dinode_at (put_inode inum i v) j = dinode_at v j.
Proof.
  intros Hi Hj Hne Ha. destruct (inode_block inum Hi) as (d & Hv & [Hl _] & E). unfold dinode_at, put_inode.
  destruct (decide (IBLOCK inum sb = IBLOCK j sb)) as [E'|E'].
  - rewrite <- E', E, list_lookup_total_insert_eq by (by eapply lookup_lt_Some). apply get_dinode_ext, put_dinode_agree.
    + rewrite Hl. apply dip_off_fits.
    + done.
    + eapply dip_off_apart; [apply Hi|apply Hj|done|done].
  - pose proof (IBLOCK_range sb _ Ly inum Hi). pose proof (IBLOCK_range sb _ Ly j Hj). pose proof (meta_pos _ _ Ly G).
    rewrite list_lookup_total_insert_ne by lia. done.
Qed.

(** Blocks outside the inode area carry no inode. *)
Lemma dinode_at_insert a d inum :
  is_inum inum -> 0 <= a -> (a < sb_inodestart sb \/ sb_bmapstart sb <= a) ->
  dinode_at (<[Z.to_nat a := d]> v) inum = dinode_at v inum.
Proof.
  intros Hi Ha Hr. unfold dinode_at. pose proof (IBLOCK_range sb _ Ly inum Hi). pose proof (meta_pos _ _ Ly G).
  rewrite list_lookup_total_insert_ne by lia. done.
Qed.
End geo.
End disk.

(** ** A new inode *)

Lemma put_addrs_splice a : forall o p d, (o + length p + 4 * length a <= length d)%nat ->
  put_addrs a (o + length p) (splice o p d) = splice o (p ++ concat (map (le_bytes 4) a)) d.
Proof.
  induction a as [|x a IH]; intros o p d Hl; cbn [put_addrs map concat length] in *; [by rewrite app_nil_r|].
  unfold put_u32. rewrite splice_app by lia.
  replace (o + length p + 4)%nat with (o + length (p ++ le_bytes 4 x))%nat by (rewrite length_app, length_le_bytes; lia).
  rewrite IH by (rewrite length_app, length_le_bytes; lia). by rewrite <- app_assoc.
Qed.

(** What [ialloc] stores: the inode cleared, and its type. *)
Definition fresh_dinode (type : Z) : dinode := mkDinode type 0 0 0 0 (replicate 13 0).
Lemma put_fresh o t d : (o + DINODE_SIZE <= length d)%nat ->
  put_u16 o (u16 t) (splice o (replicate DINODE_SIZE 0) d) = put_dinode o (fresh_dinode t) d.
Proof.
  unfold DINODE_SIZE. intros Hl. unfold put_dinode, fresh_dinode. cbn [di_type di_major di_minor di_nlink di_size di_addrs].
  unfold put_u16, put_u32. generalize (le_bytes 2 (u16 t)), (length_le_bytes 2 (u16 t)). intros a Ha.
  rewrite splice_over by (rewrite ?length_replicate; lia). change (le_bytes 2 (u16 0)) with [0; 0]. change (le_bytes 4 0) with [0; 0; 0; 0].
  assert (forall p b q, q = (o + length p)%nat -> (length p + length b <= 64)%nat -> splice q b (splice o p d) = splice o (p ++ b) d) as H
    by (intros p b q -> Hq; apply splice_app; lia).
  rewrite !H by (rewrite ?length_app; cbn [length]; lia). assert (o + 12 = o + length ((((a ++ [0%Z; 0%Z]) ++ [0%Z; 0%Z]) ++ [0%Z; 0%Z]) ++ [0%Z; 0%Z; 0%Z; 0%Z]))%nat as -> by (rewrite !length_app; cbn [length]; lia).
  rewrite put_addrs_splice by (rewrite !length_app, length_replicate; cbn [length]; lia). rewrite Ha. by rewrite <- !app_assoc.
Qed.

(** ** [iupdate], [ilock], [iunlock] *)

Section ops.
Context `{!BlockDevice}.
Context (sb : superblock) (k : disk) (pid w : Z).
Abbreviation fs_ok := (fs_ok sb k pid w).

Lemma fs_set_inodes s v L Hd li : fs_ok s v L Hd -> length li = NINODE -> fs_ok (mkFs (f_l s) li (f_sb s)) v L Hd.
Proof. intros [T Hsb Ho Hi] Hl. by split. Qed.

Lemma wp_upd_inode s ip f (Q : unit -> fs -> Prop) :
  Q tt (mkFs (f_l s) (<[ip := f (inode_at s ip)]> (f_inodes s)) (f_sb s)) -> wp (upd_inode ip f) Q s.
Proof. intros. by apply wp_modify. Qed.

Lemma inode_at_insert l li sb' ip x : (ip < length li)%nat -> inode_at (mkFs l (<[ip := x]> li) sb') ip = x.
Proof. intros Hlt. unfold inode_at. cbn [f_inodes]. by apply list_lookup_total_insert_eq. Qed.

(** The block of an inode can be read. *)
Lemma wp_read_inode {A} s v L Hd inum (f : nat -> block -> M fs A) Q :
  fs_ok s v L Hd -> layout sb (length v) -> is_inum sb inum -> Hd !! IBLOCK inum sb = None ->
  (length L + size Hd < NBUF)%nat ->
  (forall i l, fs_ok (set_fl l s) v L (<[IBLOCK inum sb := i]> Hd) -> releasable k v L (IBLOCK inum sb) ->
     wp (f i (v !!! Z.to_nat (IBLOCK inum sb))) Q (set_fl l s)) ->
  wp (bp ← bop (bread ROOTDEV (IBLOCK inum sb)); d ← bop (bdata bp); f bp d) Q s.
Proof.
  intros F Ly Hi Hn Hs HQ. pose proof (fs_geom _ _ _ _ _ _ _ _ F) as G. pose proof (IBLOCK_range sb _ Ly inum Hi).
  pose proof (meta_pos _ _ Ly G). destruct (inode_block sb v Ly G (fs_vok _ _ _ _ _ _ _ _ F) inum Hi) as (d & Hv & _ & E).
  rewrite E in HQ. eapply wp_read_block; [exact F|exact Hv|lia|done|apply (above_log _ _ Ly); lia|done|exact HQ].
Qed.

Lemma iupdate_ok s v L Hd ip (Q : unit -> fs -> Prop) :
  let i := inode_at s ip in
  fs_ok s v L Hd -> layout sb (length v) -> 1 <= w -> room sb L 1 (S (size Hd)) ->
  i_dev i = ROOTDEV -> is_inum sb (i_inum i) -> length (di_addrs (i_din i)) = 13%nat -> Hd !! IBLOCK (i_inum i) sb = None ->
  (forall l, fs_ok (set_fl l s) (put_inode sb (i_inum i) (i_din i) v) (logged L (IBLOCK (i_inum i) sb)) Hd -> Q tt (set_fl l s)) ->
  wp (iupdate ip) Q s.
Proof.
  intros i F Ly Hw [Hr1 Hr2] Hdev Hi Ha Hn HQ. pose proof (fs_geom _ _ _ _ _ _ _ _ F) as G.
  pose proof (IBLOCK_range sb _ Ly _ Hi). pose proof (meta_pos _ _ Ly G).
  destruct (inode_block sb v Ly G (fs_vok _ _ _ _ _ _ _ _ F) _ Hi) as (d & Hv & Hd' & E).
  unfold iupdate. apply wp_bind, wp_get. fold i. rewrite Hdev, (fo_sb _ _ _ _ _ _ _ _ F).
  eapply wp_read_inode; [exact F|done|done|done|lia|]. intros bp l F1 _.
  eapply wp_write_last; [exact F1|done|done|destruct Ly; lia| |lia|].
  - rewrite E. apply put_dinode_block; [done|apply dip_off_fits|done].
  - intros l' F2. exact (HQ _ F2).
Qed.

(** The in-memory inode after [ilock]. *)
Definition locked_inode (v : list block) (i : inode) : inode :=
  mkInode (i_dev i) (i_inum i) (i_ref i) (mkSleeplock true pid) true
    (if i_valid i then i_din i else dinode_at sb v (i_inum i)).

Lemma ilock_ok s v L Hd ip :
  let i := inode_at s ip in
  fs_ok s v L Hd -> layout sb (length v) -> (length L + size Hd < NBUF)%nat -> (ip < NINODE)%nat ->
  1 <= i_ref i -> sl_locked (i_lock i) = false -> i_dev i = ROOTDEV -> is_inum sb (i_inum i) ->
  Hd !! IBLOCK (i_inum i) sb = None ->
  wpe (ilock ip)
    (fun _ s' => fs_ok s' v L Hd /\ f_inodes s' = <[ip := locked_inode v i]> (f_inodes s) /\
       (i_valid i = false -> di_type (dinode_at sb v (i_inum i)) <> 0))
    (fun e => e = "ilock: no type"%string /\ i_valid i = false /\ di_type (dinode_at sb v (i_inum i)) = 0) s.
Proof.
  intros i F Ly Hs Hip Hr Hlk Hdev Hi Hn. pose proof (fo_inodes _ _ _ _ _ _ _ _ F) as Hlen.
  unfold ilock. apply wpe_bind_wp, wp_get. fold i. rewrite (proj2 (Z.ltb_ge _ _)) by lia.
  apply wpe_bind_wp. unfold with_ilock. apply wp_zoom. fold i. unfold acquiresleep. wp_steps. rewrite Hlk. wp_steps.
  set (s1 := mkFs _ _ _). assert (E1 : inode_at s1 ip = set_ilock (mkSleeplock true pid) i).
  { unfold s1. rewrite inode_at_insert by (rewrite Hlen; done). fold i. f_equal. f_equal.
    exact (tx_pid _ _ _ _ _ _ _ (fo_tx _ _ _ _ _ _ _ _ F)). }
  assert (F1 : fs_ok s1 v L Hd) by (apply fs_set_inodes; [exact F|by rewrite length_insert]).
  assert (Ei : f_inodes s1 = <[ip := set_ilock (mkSleeplock true pid) i]> (f_inodes s)).
  { unfold s1. cbn [f_inodes]. fold i. do 2 f_equal. f_equal. exact (tx_pid _ _ _ _ _ _ _ (fo_tx _ _ _ _ _ _ _ _ F)). }
  clearbody s1. apply wpe_bind_wp, wp_get. rewrite E1. cbn [i_valid set_ilock i_dev i_inum].
  destruct (i_valid i) eqn:Ev; [apply wpe_wp, wp_ret; split; [done|]; split; [|done]; rewrite Ei; unfold locked_inode, set_ilock; by rewrite Ev|].
  pose proof (fs_geom _ _ _ _ _ _ _ _ F) as G. pose proof (IBLOCK_range sb _ Ly _ Hi). pose proof (meta_pos _ _ Ly G).
  destruct (inode_block sb v Ly G (fs_vok _ _ _ _ _ _ _ _ F) _ Hi) as (d & Hv & _ & E).
  rewrite Hdev, (fo_sb _ _ _ _ _ _ _ _ F1).
  apply wpe_bind_wp. eapply fs_bread; [exact F1|destruct Ly; lia|done|apply (above_log _ _ Ly); lia|done|]. intros bp l F2 Hrel.
  apply wpe_bind_wp. eapply fs_bdata; [exact F2|apply lookup_insert_eq|exact Hv|].
  assert (Ed : get_dinode (dip_off (i_inum i)) d = dinode_at sb v (i_inum i)) by (unfold dinode_at; by rewrite E).
  rewrite Ed. apply wpe_bind_wp, wp_modify. set (s2 := mkFs _ _ _).
  assert (F3 : fs_ok s2 v L (<[IBLOCK (i_inum i) sb := bp]> Hd)).
  { apply (fs_set_inodes (set_fl l s1)); [exact F2|]. rewrite length_insert. apply (fo_inodes _ _ _ _ _ _ _ _ F2). }
  apply wpe_bind_wp. eapply fs_brelse; [exact F3|apply lookup_insert_eq|done|]. intros l' F4.
  rewrite delete_insert_id in F4 by done. apply wpe_bind_wp, wp_modify.
  destruct (Z.eqb_spec (di_type (dinode_at sb v (i_inum i))) 0) as [E0|Hne]; [by split|]. apply wpe_wp, wp_ret.
  assert (Hlen1 : length (f_inodes s1) = NINODE) by apply (fo_inodes _ _ _ _ _ _ _ _ F1).
  split; [apply (fs_set_inodes (set_fl l' s2)); [exact F4|]; rewrite length_insert; apply (fo_inodes _ _ _ _ _ _ _ _ F4)|].
  split; [|done].
  assert (E2 : inode_at (set_fl l' s2) ip = set_din (dinode_at sb v (i_inum i)) (inode_at s1 ip)).
  { apply (inode_at_insert l'). cbn [f_inodes set_fl]. by rewrite Hlen1. }
  cbn [f_inodes]. rewrite E2. unfold s2. cbn [f_inodes set_fl]. change (inode_at (set_fl l s1) ip) with (inode_at s1 ip).
  rewrite list_insert_insert_eq, E1, Ei, list_insert_insert_eq. unfold locked_inode. by rewrite Ev.
Qed.
Lemma iunlock_ok s v L Hd ip (Q : unit -> fs -> Prop) :
  let i := inode_at s ip in
  fs_ok s v L Hd -> 1 <= i_ref i -> i_lock i = mkSleeplock true pid ->
  (fs_ok (mkFs (f_l s) (<[ip := set_ilock (mkSleeplock false 0) i]> (f_inodes s)) (f_sb s)) v L Hd ->
   Q tt (mkFs (f_l s) (<[ip := set_ilock (mkSleeplock false 0) i]> (f_inodes s)) (f_sb s))) ->
  wp (iunlock ip) Q s.
Proof.
  intros i F Hr Hlk HQ. unfold iunlock. apply wp_bind, wp_get. fold i. rewrite Hlk.
  unfold mypid. rewrite (tx_pid _ _ _ _ _ _ _ (fo_tx _ _ _ _ _ _ _ _ F)), holding_self. cbn [negb orb].
  rewrite (proj2 (Z.ltb_ge _ _)) by lia. apply wp_zoom. unfold releasesleep. apply wp_modify. apply HQ.
  apply fs_set_inodes; [done|]. rewrite length_insert. apply (fo_inodes _ _ _ _ _ _ _ _ F).
Qed.
End ops.

(** ** The inode cache *)

(** The entry holds inode [(dev, inum)]. *)
Definition caches (dev inum : Z) (x : inode) : Prop := 0 < i_ref x /\ i_dev x = dev /\ i_inum x = inum.

#[export] Instance caches_dec dev inum x : Decision (caches dev inum x).
Proof. unfold caches. apply _. Defined.

(** Reference counts are not negative, an inode has at most one entry, and
    entries without references are not locked. *)
Record icache_ok (l : list inode) : Prop := {
  ic_ref : Forall (fun x => 0 <= i_ref x) l;
  ic_uniq : forall i j x y, l !! i = Some x -> l !! j = Some y -> caches (i_dev y) (i_inum y) x -> 0 < i_ref y -> i = j;
  ic_free : Forall (fun x => i_ref x = 0 -> sl_locked (i_lock x) = false) l;
}.

Lemma iget_scan_spec dev inum l : forall i empty,
  match iget_scan l i empty dev inum with
  | (Some r, _) => exists j x, r = (i + j)%nat /\ l !! j = Some x /\ caches dev inum x
  | (None, e) =>
      Forall (fun x => ~ caches dev inum x) l /\
      match e with
      | Some r => empty = Some r \/ exists j x, r = (i + j)%nat /\ l !! j = Some x /\ i_ref x = 0
      | None => empty = None /\ Forall (fun x => i_ref x <> 0) l
      end
  end.
Proof.
  induction l as [|x l IH]; intros i empty; cbn [iget_scan]; [by destruct empty; auto|].
  assert (Hc : (0 <? i_ref x) && (i_dev x =? dev) && (i_inum x =? inum) = bool_decide (caches dev inum x)).
  { unfold caches. apply eq_true_iff_eq. rewrite bool_decide_eq_true, !andb_true_iff, Z.ltb_lt, !Z.eqb_eq. tauto. }
  rewrite Hc. case_bool_decide as Hx; [by exists 0%nat, x; rewrite Nat.add_0_r|].
  specialize (IH (S i) (match empty with None => if i_ref x =? 0 then Some i else None | Some e => Some e end)).
  destruct (iget_scan l (S i) _ dev inum) as [[r|] e].
  - destruct IH as (j & y & -> & Hj & Hy). exists (S j), y. split; [lia|done].
  - destruct IH as [Hall He]. split; [by constructor|]. destruct e as [r|].
    + destruct He as [He|(j & y & -> & Hj & Hy)]; [|right; exists (S j), y; split; [lia|done]].
      destruct empty as [e|]; [by left|]. destruct (Z.eqb_spec (i_ref x) 0); [|done]. injection He as <-.
      right. exists 0%nat, x. split; [lia|done].
    + destruct He as [He Hr]. destruct empty; [done|]. destruct (Z.eqb_spec (i_ref x) 0); [done|]. split; [done|by constructor].
Qed.

(** Taking or adding the entry of an inode. *)
Lemma icache_insert l ip x y dev inum :
  icache_ok l -> l !! ip = Some x -> caches dev inum y -> caches dev inum x \/ Forall (fun z => ~ caches dev inum z) l ->
  icache_ok (<[ip := y]> l).
Proof.
  intros [Href Huniq Hfree] Hx Hy Hor. pose proof Hy as (Hy1 & Hy2 & Hy3).
  assert (Hother : forall j z, l !! j = Some z -> caches dev inum z -> j = ip).
  { intros j z Hz Hc. destruct Hor as [Hcx|Hn].
    - apply (Huniq j ip z x Hz Hx); [|apply Hcx]. destruct Hcx as (_ & -> & ->). done.
    - rewrite Forall_forall in Hn. exfalso. eapply Hn; [|exact Hc]. by eapply list_elem_of_lookup_2. }
  split.
  - apply Forall_insert; [done|lia].
  - intros i j a b Ha Hb Hc Hrb. apply list_lookup_insert_Some in Ha, Hb.
    destruct Ha as [(<- & -> & _)|[Hi Ha]], Hb as [(<- & -> & _)|[Hj Hb]]; [done| | |by eapply Huniq].
    + symmetry. apply (Hother j b Hb). destruct Hc as (_ & E1 & E2). split_and!; congruence.
    + apply (Hother i a Ha). by rewrite Hy2, Hy3 in Hc.
  - apply Forall_insert; [done|lia].
Qed.

(** [iget] keeps the cache consistent (one entry per inode, no entry in
    use recycled): it returns the entry of the inode with one more reference,
    or else takes an entry that had none and marks it not valid; it panics
    exactly when the inode is not cached and every entry is in use. *)
Theorem iget_spec dev inum s :
  icache_ok (f_inodes s) ->
  wpe (iget dev inum)
    (fun ip s' => f_l s' = f_l s /\ f_sb s' = f_sb s /\ icache_ok (f_inodes s') /\
       exists x y, f_inodes s !! ip = Some x /\ f_inodes s' = <[ip := y]> (f_inodes s) /\ caches dev inum y /\
         (caches dev inum x /\ y = set_ref (i_ref x + 1) x \/
          Forall (fun z => ~ caches dev inum z) (f_inodes s) /\ i_ref x = 0 /\ y = mkInode dev inum 1 (i_lock x) false (i_din x)))
    (fun e => e = "iget: no inodes"%string /\ Forall (fun z => 0 < i_ref z /\ ~ caches dev inum z) (f_inodes s)) s.
Proof.
  intros Hic. unfold iget. apply wpe_bind_wp, wp_get. pose proof (iget_scan_spec dev inum (f_inodes s) 0 None) as H.
  assert (Hat : forall j x, f_inodes s !! j = Some x -> inode_at s j = x) by (intros; by apply list_lookup_total_correct).
  destruct (iget_scan (f_inodes s) 0 None dev inum) as [[ip|] e].
  - destruct H as (j & x & -> & Hx & Hc). apply wpe_wp, wp_bind, wp_upd_inode, wp_ret. cbn [f_l f_sb f_inodes Nat.add].
    rewrite (Hat _ _ Hx). assert (Hy : caches dev inum (set_ref (i_ref x + 1) x)) by (destruct Hc; split; [cbn; lia|done]).
    split; [done|]. split; [done|]. split; [by eapply icache_insert; [..|left]|]. eexists x, _. split_and!; [done..|]. by left.
  - destruct H as [Hn He]. destruct e as [r|].
    + destruct He as [?|(j & x & -> & Hx & Hr)]; [done|]. apply wpe_wp, wp_bind, wp_upd_inode, wp_ret.
      cbn [f_l f_sb f_inodes Nat.add]. rewrite (Hat _ _ Hx).
      assert (Hy : caches dev inum (mkInode dev inum 1 (i_lock x) false (i_din x))) by (split; [cbn; lia|done]).
      split; [done|]. split; [done|]. split; [by eapply icache_insert; [..|right]|]. eexists x, _. split_and!; [done..|]. by right.
    + destruct He as [_ Hr]. destruct Hic as [Href _ _]. split; [done|]. rewrite Forall_forall in *.
      intros x Hx. specialize (Href x Hx). specialize (Hr x Hx). split; [lia|by apply Hn].
Qed.

Definition icache0 : fs := mkFs (boot [] 1) (replicate NINODE inode0) sb0.

Lemma icache0_ok : icache_ok (f_inodes icache0).
Proof.
  assert (Hall : forall i x, f_inodes icache0 !! i = Some x -> x = inode0).
  { intros i x H. cbn [icache0 f_inodes] in H. by apply lookup_replicate_1 in H as [-> _]. }
  split.
  - by apply Forall_replicate.
  - intros i j x y Hx Hy [Hc _] _. rewrite (Hall _ _ Hx) in Hc. cbn in Hc. lia.
  - by apply Forall_replicate.
Qed.

Lemma iget_spec_witness :
  wpe (iget 1 5) (fun ip s' => icache_ok (f_inodes s')) (fun _ => False) icache0.
Proof.
  eapply wpe_mono; [apply (iget_spec 1 5 icache0 icache0_ok)| |].
  - intros ip s' (_ & _ & H & _). exact H.
  - intros e [_ H]. apply (Forall_lookup_1 _ _ 0%nat inode0) in H as [H _]; [cbn in H; lia|reflexivity].
Defined.

Section theorems.
Context `{!BlockDevice}.
Context (sb : superblock) (k : disk) (pid w : Z).
Abbreviation fs_ok := (fs_ok sb k pid w).

(** The inode cache is write-through and inodes do not interfere: after
    [iupdate] the block area holds exactly the in-memory inode at its number,
    every other inode and every block outside the inode area is as before,
    and one block joined the transaction. A later [ilock] of an entry that is
    not valid reads this very inode back. *)
Theorem iupdate_spec s v L Hd ip :
  let i := inode_at s ip in
  fs_ok s v L Hd -> layout sb (length v) -> 1 <= w -> room sb L 1 (S (size Hd)) ->
  i_dev i = ROOTDEV -> is_inum sb (i_inum i) -> dinode_ok (i_din i) -> Hd !! IBLOCK (i_inum i) sb = None ->
  wp (iupdate ip) (fun _ s' => exists v',
      fs_ok s' v' (logged L (IBLOCK (i_inum i) sb)) Hd /\ f_inodes s' = f_inodes s /\
      (forall j, is_inum sb j -> dinode_at sb v' j = if decide (j = i_inum i) then i_din i else dinode_at sb v j) /\
      (forall a, 0 <= a -> a <> IBLOCK (i_inum i) sb -> v' !! Z.to_nat a = v !! Z.to_nat a)) s.
Proof.
  intros i F Ly Hw Hr Hdev Hi Hk Hn. pose proof (fs_geom _ _ _ _ _ _ _ _ F) as G. pose proof (fs_vok _ _ _ _ _ _ _ _ F) as Hv.
  eapply iupdate_ok; [exact F|done|done|done|done|done|apply Hk|done|]. intros l F'. fold i in F'.
  exists (put_inode sb (i_inum i) (i_din i) v). split; [exact F'|]. split; [done|]. split.
  - intros j Hj. case_decide as E; [subst j; by apply put_inode_eq|]. apply put_inode_ne; [done..|congruence|apply Hk].
  - intros a Ha Hne. unfold put_inode. pose proof (IBLOCK_range sb _ Ly _ Hi). pose proof (meta_pos _ _ Ly G).
    apply list_lookup_insert_ne. lia.
Qed.

(** [ilock] on a referenced, unlocked entry returns with the entry locked
    by the caller and valid: its contents are those in memory if it was valid
    and the inode on disk if not. It panics exactly when it had to read the
    inode and that inode is free. *)
Theorem ilock_spec s v L Hd ip :
  let i := inode_at s ip in
  fs_ok s v L Hd -> layout sb (length v) -> (length L + size Hd < NBUF)%nat -> (ip < NINODE)%nat ->
  1 <= i_ref i -> sl_locked (i_lock i) = false -> i_dev i = ROOTDEV -> is_inum sb (i_inum i) ->
  Hd !! IBLOCK (i_inum i) sb = None ->
  wpe (ilock ip)
    (fun _ s' => fs_ok s' v L Hd /\ inode_at s' ip = locked_inode sb pid v i /\
       (forall j, j <> ip -> inode_at s' j = inode_at s j) /\
       (i_valid i = false -> di_type (dinode_at sb v (i_inum i)) <> 0))
    (fun e => e = "ilock: no type"%string /\ i_valid i = false /\ di_type (dinode_at sb v (i_inum i)) = 0) s.
Proof.
  intros i F Ly Hs Hip Hr Hlk Hdev Hi Hn. eapply wpe_mono; [by eapply ilock_ok| |by intros e].
  intros [] s' (F' & E & Ht). split; [done|]. unfold inode_at. rewrite E. split; [|split; [|done]].
  - apply list_lookup_total_insert_eq. by rewrite (fo_inodes _ _ _ _ _ _ _ _ F).
  - intros j Hj. by rewrite list_lookup_total_insert_ne.
Qed.
End theorems.

(** The first process takes the root inode. *)
Definition root0 : inode := mkInode ROOTDEV 1 1 (mkSleeplock false 0) true dinode0.
Definition get_root : M fs unit := start_fs ;; upd_inode 0 (fun _ => root0).

Lemma get_root_spec (Q : unit -> fs -> Prop) :
  (forall k s v, fs_ok sb1 k 1 1 s v [] ∅ -> home_eq sb1 v disk1 -> layout sb1 (length v) -> inode_at s 0 = root0 -> Q tt s) ->
  wp get_root Q boot_fs.
Proof.
  intros HQ. apply wp_bind, start_fs_spec. intros k s v F Heq Hlen Hino. apply wp_upd_inode. eapply (HQ k _ v); [|done| |].
  - apply fs_set_inodes; [done|]. rewrite length_insert. apply (fo_inodes _ _ _ _ _ _ _ _ F).
  - rewrite Hlen. apply sb1_layout.
  - apply inode_at_insert. rewrite Hino, length_replicate. unfold NINODE. lia.
Qed.

Lemma iupdate_spec_witness :
  wp get_root (fun _ s => wp (iupdate 0) (fun _ s' => f_inodes s' = f_inodes s) s) boot_fs.
Proof.
  apply get_root_spec. intros k s v F _ Ly E.
  eapply wp_mono; [apply (iupdate_spec sb1 k 1 1 s v [] ∅ 0 F Ly); rewrite ?E|].
  - lia.
  - rewrite map_size_empty. unfold room. cbn. unfold NBUF. lia.
  - done.
  - unfold is_inum. cbn. lia.
  - split; try done; try (unfold short, uint; cbn; lia). by apply Forall_replicate.
  - done.
  - by intros [] s' (v' & _ & H & _).
Defined.

Lemma ilock_spec_witness :
  wp get_root (fun _ s => wp (ilock 0) (fun _ s' => i_lock (inode_at s' 0) = mkSleeplock true 1) s) boot_fs.
Proof.
  apply get_root_spec. intros k s v F Heq Ly E. eapply wp_wpe.
  - eapply wpe_mono; [apply (ilock_spec sb1 k 1 1 s v [] ∅ 0 F Ly); rewrite ?E| |intros e He; exact He].
    + rewrite map_size_empty. unfold NBUF. cbn. lia.
    + unfold NINODE. lia.
    + cbn. lia.
    + done.
    + done.
    + unfold is_inum. cbn. lia.
    + done.
    + intros [] s' (_ & E' & _). by rewrite E'.
  - intros e (_ & Hv & _). by rewrite E in Hv.
Defined.
