(* ===== verification/Content.v ===== *)
(** * The contents of files in [fs.c]: [bmap], [readi] and [writei].

    A file is the sequence of bytes that its block addresses, direct and
    through the indirect block, name on the disk as the transaction sees it. *)

From stdpp Require Import gmap.
From S2P Require Import Prelude Params Bio Log Trans Fs Balloc Inode.

Lemma get_u32_zero o : (o + 4 <= BSIZE)%nat -> get_u32 o zero_block = 0.
Proof.
  intros Ho. unfold get_u32. assert (slice o 4 zero_block = replicate 4 0) as ->; [|done].
  unfold slice, zero_block. by rewrite drop_replicate, take_replicate, min_l by lia.
Qed.

Definition indirect (ad : list Z) : Z := ad !!! 12%nat.

(** The disk block of file block [bn]; 0 where there is none. *)
Definition baddr (v : list block) (ad : list Z) (bn : Z) : Z :=
  if bn <? NDIRECT then ad !!! Z.to_nat bn
  else if indirect ad =? 0 then 0
  else get_u32 (4 * Z.to_nat (bn - NDIRECT)) (v !!! Z.to_nat (indirect ad)).

Section content.
Context `{BD : !BlockDevice} `{DS : !Devsw}.
Context (sb : superblock) (k : disk) (pid w : Z).
Abbreviation fs_ok := (fs_ok sb k pid w).
Abbreviation used := (used sb).
Abbreviation is_data := (is_data sb).

Definition live (v : list block) (a : Z) : Prop := is_data a /\ used v a = true.

(** The block addresses of a file: data blocks in use, none twice. *)
Record file_ok (v : list block) (ad : list Z) : Prop := {
  fk_len : length ad = 13%nat;
  fk_ind : indirect ad <> 0 -> live v (indirect ad);
  fk_live : forall bn, 0 <= bn < MAXFILE -> baddr v ad bn <> 0 -> live v (baddr v ad bn) /\ baddr v ad bn <> indirect ad;
  fk_inj : forall bn bn', 0 <= bn < MAXFILE -> 0 <= bn' < MAXFILE -> baddr v ad bn <> 0 ->
    baddr v ad bn = baddr v ad bn' -> bn = bn';
}.

(** The view with block [b] allocated. *)
Definition alloc_view (b : Z) (v : list block) : list block := <[Z.to_nat b := zero_block]> (mark sb b v).

Section view.
Context (v : list block) (b : Z).
Hypothesis Ly : layout sb (length v).
Hypothesis G : geometry sb (length v).
Hypothesis Hok : Forall block_ok v.
Hypothesis Hb : is_data b.

Lemma length_alloc_view : length (alloc_view b v) = length v.
Proof. unfold alloc_view, mark. by rewrite !length_insert. Qed.

Lemma av_b : alloc_view b v !! Z.to_nat b = Some zero_block.
Proof.
  apply list_lookup_insert_eq. unfold mark. rewrite length_insert. pose proof (meta_pos _ _ Ly G). destruct Hb, Ly. lia.
Qed.

Lemma av_ne a : is_data a -> a <> b -> alloc_view b v !! Z.to_nat a = v !! Z.to_nat a.
Proof.
  intros [Ha _] Hne. destruct Hb as [Hb1 Hb2]. pose proof (meta_pos _ _ Ly G).
  pose proof (BBLOCK_range sb b ltac:(lia)). unfold alloc_view, mark. by rewrite !list_lookup_insert_ne by lia.
Qed.

Lemma av_meta a : 0 <= a < sb_bmapstart sb -> alloc_view b v !! Z.to_nat a = v !! Z.to_nat a.
Proof.
  intros Ha. destruct Hb as [Hb1 Hb2]. pose proof (meta_pos _ _ Ly G).
  pose proof (BBLOCK_range sb b ltac:(lia)). unfold alloc_view, mark. by rewrite !list_lookup_insert_ne by lia.
Qed.

Lemma av_used c : 0 <= c < sb_size sb -> used (alloc_view b v) c = bool_decide (c = b) || used v c.
Proof.
  intros Hc. destruct Hb as [Hb1 Hb2]. pose proof (meta_pos _ _ Ly G). unfold alloc_view.
  rewrite (used_insert_data sb _ Ly G) by lia. by apply (used_mark sb _ Ly G v b eq_refl Hok); lia.
Qed.

Lemma live_range a : live v a -> 0 <= a < sb_size sb /\ 0 < a.
Proof. intros [[Ha1 Ha2] _]. pose proof (meta_pos _ _ Ly G). lia. Qed.

Lemma av_live a : live v a -> live (alloc_view b v) a.
Proof.
  intros Ha. pose proof (live_range a Ha) as Hr. destruct Ha as [Ha Hu]. split; [done|].
  rewrite av_used by lia. rewrite Hu. apply orb_true_r.
Qed.

Lemma av_lookup a : live v a -> used v b = false -> alloc_view b v !!! Z.to_nat a = v !!! Z.to_nat a.
Proof.
  intros [Ha Hu] Hf. rewrite !list_lookup_total_alt. rewrite av_ne; [done|done|]. intros ->. congruence.
Qed.

Lemma av_baddr ad bn : (indirect ad <> 0 -> live v (indirect ad)) -> used v b = false ->
  baddr (alloc_view b v) ad bn = baddr v ad bn.
Proof.
  intros Hi Hf. unfold baddr. destruct (_ <? _); [done|]. destruct (Z.eqb_spec (indirect ad) 0); [done|].
  by rewrite av_lookup by auto.
Qed.

(** Allocation keeps a file. *)
Lemma av_file ad : file_ok v ad -> used v b = false -> file_ok (alloc_view b v) ad.
Proof.
  intros [L I V J] Hf. split; [done|by intros; apply av_live, I|..].
  - intros bn Hbn. rewrite av_baddr by done. intros H0. destruct (V bn Hbn H0). split; [by apply av_live|done].
  - intros bn bn' Hbn Hbn'. rewrite !av_baddr by done. by apply J.
Qed.
End view.

Lemma data_not_log len a : layout sb len -> geometry sb len -> is_data a -> ~ in_log sb a.
Proof. intros Ly G [Ha _]. apply (above_log _ _ Ly). pose proof (meta_pos _ _ Ly G). lia. Qed.

(** Writing a data block that is not the indirect block. *)
Lemma set_baddr v ad a d bn : a <> indirect ad -> 0 <= a -> 0 <= indirect ad ->
  baddr (<[Z.to_nat a := d]> v) ad bn = baddr v ad bn.
Proof.
  intros Hne Ha Hi. unfold baddr. destruct (_ <? _); [done|]. destruct (_ =? _); [done|].
  by rewrite list_lookup_total_insert_ne by lia.
Qed.

Lemma set_live v a d c : layout sb (length v) -> geometry sb (length v) -> is_data a -> live (<[Z.to_nat a := d]> v) c <-> live v c.
Proof.
  intros Ly G [Ha1 Ha2]. pose proof (meta_pos _ _ Ly G). unfold live. split; intros [[Hc1 Hc2] Hu]; (split; [done|]).
  - by rewrite (used_insert_data sb _ Ly G) in Hu by lia.
  - by rewrite (used_insert_data sb _ Ly G) by lia.
Qed.

(** ** [bmap] *)

Definition with_addrs (ad : list Z) (i : inode) : inode := set_din (set_addrs ad (i_din i)) i.

Lemma with_addrs_id i : with_addrs (di_addrs (i_din i)) i = i.
Proof. by destruct i as [? ? ? ? ? []]. Qed.

Section bmap.
Context (s : fs) (v : list block) (L : list Z) (ip : nat).
Abbreviation i := (inode_at s ip).
Abbreviation ad := (di_addrs (din s ip)).
Hypothesis F : fs_ok s v L ∅.
Hypothesis Ly : layout sb (length v).
Hypothesis Hip : (ip < NINODE)%nat.
Hypothesis Hdev : i_dev i = ROOTDEV.
Hypothesis Fk : file_ok v ad.

Let G : geometry sb (length v) := fs_geom _ _ _ _ _ _ _ _ F.

Lemma ind_block : indirect ad <> 0 -> exists d, v !! Z.to_nat (indirect ad) = Some d /\ block_ok d /\ v !!! Z.to_nat (indirect ad) = d.
Proof.
  intros H0. pose proof (live_range v Ly G _ (fk_ind _ _ Fk H0)) as Hr. destruct Ly.
  destruct (lookup_lt_is_Some_2 v (Z.to_nat (indirect ad))) as [d E]; [lia|].
  exists d. split; [done|]. split; [by eapply Forall_lookup_1; [apply (fs_vok _ _ _ _ _ _ _ _ F)|]|]. by apply list_lookup_total_correct.
Qed.

(** A block that is there: nothing changes but the cache. *)
Lemma bmap_mapped bn (Q : Z -> fs -> Prop) :
  0 <= bn < MAXFILE -> baddr v ad bn <> 0 -> (length L < NBUF)%nat ->
  (forall l, fs_ok (set_fl l s) v L ∅ -> Q (baddr v ad bn) (set_fl l s)) -> wp (bmap ip bn) Q s.
Proof.
  intros Hbn H0 HL HQ. unfold bmap. apply wp_bind, wp_get. unfold baddr in *.
  destruct (Z.ltb_spec bn NDIRECT) as [Hd|Hd].
  { rewrite (proj2 (Z.eqb_neq _ _)) by done. cbn [negb]. apply wp_ret. specialize (HQ (f_l s)). destruct s. apply HQ, F. }
  rewrite (proj2 (Z.ltb_lt (bn - NDIRECT) NINDIRECT)) by (unfold MAXFILE in Hbn; lia).
  change (ad !!! Z.to_nat NDIRECT) with (indirect ad).
  destruct (Z.eqb_spec (indirect ad) 0) as [E|E]; [done|]. cbn [negb]. apply wp_bind, wp_ret.
  destruct (ind_block E) as (d & Hv & Hbd & Et). pose proof (fk_ind _ _ Fk E) as Hl. pose proof (live_range v Ly G _ Hl) as Hr.
  rewrite Hdev. apply wp_bind. eapply fs_bread; [exact F|destruct Ly; lia|apply lookup_empty|by apply (data_not_log (length v)); [..|apply Hl]|rewrite map_size_empty; lia|].
  intros j l F1 Hrel. apply wp_bind. eapply fs_bdata; [exact F1|apply lookup_insert_eq|exact Hv|]. rewrite Et in *. rewrite (proj2 (Z.eqb_neq _ _)) by done. cbn [negb].
  apply wp_bind, wp_ret. apply wp_bind. eapply fs_brelse; [exact F1|apply lookup_insert_eq|done|]. intros l2 F2.
  rewrite delete_insert_id in F2 by apply lookup_empty. apply wp_ret. exact (HQ _ F2).
Qed.
End bmap.

(** ** [readi] *)

(** The byte at offset [o], and [n] bytes from [o] on. *)
Definition fbyte (v : list block) (ad : list Z) (o : Z) : Z :=
  (v !!! Z.to_nat (baddr v ad (o / Z.of_nat BSIZE))) !!! Z.to_nat (o mod Z.of_nat BSIZE).
Fixpoint fbytes (v : list block) (ad : list Z) (o : Z) (n : nat) : list Z :=
  match n with O => [] | S n' => fbyte v ad o :: fbytes v ad (o + 1) n' end.

Lemma length_fbytes v ad o n : length (fbytes v ad o n) = n.
Proof. revert o. induction n as [|n IH]; intros o; [done|]. cbn. by rewrite IH. Qed.
Lemma lookup_fbytes v ad o n j : (j < n)%nat -> fbytes v ad o n !! j = Some (fbyte v ad (o + Z.of_nat j)).
Proof.
  revert o j. induction n as [|n IH]; intros o j Hj; [lia|]. destruct j as [|j].
  - change (Some (fbyte v ad o) = Some (fbyte v ad (o + 0))). by rewrite Z.add_0_r.
  - change (fbytes v ad (o + 1) n !! j = Some (fbyte v ad (o + Z.of_nat (S j)))). rewrite IH by lia. do 2 f_equal. lia.
Qed.
Lemma fbytes_app v ad o n m : fbytes v ad o (n + m) = fbytes v ad o n ++ fbytes v ad (o + Z.of_nat n) m.
Proof.
  revert o. induction n as [|n IH]; intros o; cbn [Nat.add fbytes app].
  - by rewrite Z.add_0_r.
  - rewrite IH. do 3 f_equal. lia.
Qed.

(** A stretch within one block. *)
Lemma fbytes_block v ad o m d :
  0 <= o -> o mod Z.of_nat BSIZE + Z.of_nat m <= Z.of_nat BSIZE ->
  v !!! Z.to_nat (baddr v ad (o / Z.of_nat BSIZE)) = d -> length d = BSIZE ->
  slice (Z.to_nat (o mod Z.of_nat BSIZE)) m d = fbytes v ad o m.
Proof.
  intros Ho Hm Hd Hl. pose proof (Z.mod_pos_bound o (Z.of_nat BSIZE) eq_refl) as Hp.
  apply list_eq. intros j. rewrite lookup_slice. case_decide as Hj.
  - rewrite lookup_fbytes by done. unfold fbyte.
    assert ((o + Z.of_nat j) / Z.of_nat BSIZE = o / Z.of_nat BSIZE /\
            (o + Z.of_nat j) mod Z.of_nat BSIZE = o mod Z.of_nat BSIZE + Z.of_nat j) as [E1 E2].
    { unfold BSIZE in *. Z.to_euclidean_division_equations. lia. }
    rewrite E1, E2, Hd, Z2Nat.inj_add, Nat2Z.id by lia. apply list_lookup_lookup_total_lt. rewrite Hl. lia.
  - symmetry. apply lookup_ge_None_2. rewrite length_fbytes. lia.
Qed.

(** The blocks from [lo] up to [hi] are all there. *)
Definition no_hole (v : list block) (ad : list Z) (lo hi : Z) : Prop :=
  forall bn, lo / Z.of_nat BSIZE <= bn -> bn * Z.of_nat BSIZE < hi -> baddr v ad bn <> 0.

(** The next turn of an I/O loop starts a block. *)
Lemma io_next off m : m = Z.of_nat BSIZE - off mod Z.of_nat BSIZE -> (off + m) mod Z.of_nat BSIZE = 0.
Proof.
  intros ->. pose proof (Z.div_mod off (Z.of_nat BSIZE) ltac:(done)).
  replace (off + _) with ((off / Z.of_nat BSIZE + 1) * Z.of_nat BSIZE) by lia. by apply Z.mod_mul.
Qed.

Lemma readi_loop_ok v L ip ad fuel : forall s off left (Q : list Z -> fs -> Prop),
  fs_ok s v L ∅ -> layout sb (length v) -> (ip < NINODE)%nat -> i_dev (inode_at s ip) = ROOTDEV -> di_addrs (din s ip) = ad ->
  file_ok v ad -> (length L < NBUF)%nat -> 0 <= off -> 0 <= left -> off + left <= MAXFILE * Z.of_nat BSIZE -> no_hole v ad off (off + left) ->
  (left = 0 \/ off mod Z.of_nat BSIZE + left <= Z.of_nat fuel * Z.of_nat BSIZE) ->
  (forall l, fs_ok (set_fl l s) v L ∅ -> Q (fbytes v ad off (Z.to_nat left)) (set_fl l s)) ->
  wp (readi_loop fuel ip off left) Q s.
Proof.
  induction fuel as [|fuel IH]; intros s off left Q F Ly Hip Hdev Had Fk HL Hoff Hleft Hmax Hh Hfuel HQ; cbn [readi_loop];
    pose proof (Z.mod_pos_bound off (Z.of_nat BSIZE) eq_refl) as Hp;
    (destruct (Z.ltb_spec 0 left) as [Hl|Hl]; cbn [negb];
      [|assert (left = 0) as -> by lia; apply wp_ret; specialize (HQ (f_l s)); destruct s; apply HQ, F]); [lia|].
  apply wp_bind, wp_get. set (bn := off / Z.of_nat BSIZE).
  assert (0 <= bn < MAXFILE) as Hbn.
  { unfold bn. split; [apply Z.div_pos; unfold BSIZE; lia|]. apply Z.div_lt_upper_bound; unfold BSIZE in *; lia. }
  assert (baddr v ad bn <> 0) as H0.
  { apply Hh; [reflexivity|]. unfold bn. pose proof (Z.mul_div_le off (Z.of_nat BSIZE) eq_refl). lia. }
  pose proof (fs_geom _ _ _ _ _ _ _ _ F) as G. destruct (fk_live _ _ Fk bn Hbn H0) as [Hlive _].
  pose proof (live_range v Ly G _ Hlive) as Hr.
  apply wp_bind. rewrite <- Had in Fk, H0. eapply bmap_mapped; [exact F|done..|]. rewrite Had in *. intros l1 F1.
  destruct (lookup_lt_is_Some_2 v (Z.to_nat (baddr v ad bn))) as [d Hd]; [destruct Ly; lia|].
  assert (block_ok d) as [Hdl _] by (eapply Forall_lookup_1; [apply (fs_vok _ _ _ _ _ _ _ _ F)|exact Hd]).
  rewrite Hdev. apply wp_bind. eapply fs_bread; [exact F1|destruct Ly; lia|apply lookup_empty| |rewrite map_size_empty; lia|].
  { apply (data_not_log (length v)); [done..|apply Hlive]. }
  intros j l2 F2 Hrel. cbv zeta. apply wp_bind. eapply fs_bdata; [exact F2|apply lookup_insert_eq|exact Hd|].
  apply wp_bind. eapply fs_brelse; [exact F2|apply lookup_insert_eq|done|]. intros l3 F3.
  rewrite delete_insert_id in F3 by apply lookup_empty.
  set (m := Z.min left (Z.of_nat BSIZE - off mod Z.of_nat BSIZE)). assert (0 < m <= left) as Hm by (unfold m; lia).
  apply wp_bind. apply IH; [exact F3|done..|lia|lia|lia| | |].
  - intros b' Hb' Hb2. apply Hh; [|lia]. etransitivity; [|exact Hb']. apply Z.div_le_mono; unfold BSIZE; lia.
  - destruct (decide (m = left)) as [->|Hne]; [left; lia|]. right. rewrite io_next by (unfold m in *; lia). unfold m in *. lia.
  - intros l4 F4. apply wp_ret. rewrite (fbytes_block v ad off (Z.to_nat m) d);
      [|done|unfold m; lia|by apply list_lookup_total_correct|done].
    replace (off + m) with (off + Z.of_nat (Z.to_nat m)) by lia.
    rewrite <- fbytes_app, <- Z2Nat.inj_add by lia. replace (m + (left - m)) with left by lia. by apply HQ.
Qed.

Lemma io_fuel_ok off n : 0 <= off -> 0 <= n -> off mod Z.of_nat BSIZE + n <= Z.of_nat (io_fuel n) * Z.of_nat BSIZE.
Proof.
  intros Ho Hn. unfold io_fuel, BSIZE. Z.to_euclidean_division_equations. lia.
Qed.

Lemma readi_ok s v L ip off n (Q : Z * list Z -> fs -> Prop) :
  let d := din s ip in
  fs_ok s v L ∅ -> layout sb (length v) -> (ip < NINODE)%nat -> i_dev (inode_at s ip) = ROOTDEV -> di_type d <> T_DEV ->
  file_ok v (di_addrs d) -> (length L < NBUF)%nat -> 0 <= di_size d <= MAXFILE * Z.of_nat BSIZE ->
  no_hole v (di_addrs d) 0 (di_size d) -> 0 <= off < 4294967296 -> 0 <= n < 4294967296 ->
  (forall l, fs_ok (set_fl l s) v L ∅ ->
     Q (if (di_size d <? off) || (4294967296 <=? off + n) then (-1, [])
        else let m := Z.min n (di_size d - off) in (m, fbytes v (di_addrs d) off (Z.to_nat m))) (set_fl l s)) ->
  wp (readi ip off n) Q s.
Proof.
  intros d F Ly Hip Hdev Ht Fk HL Hs Hh Hoff Hn HQ. unfold readi. apply wp_bind, wp_get. fold d.
  rewrite (proj2 (Z.eqb_neq _ _)) by done. unfold MAXFILE, NDIRECT, NINDIRECT, BSIZE in Hs.
  assert ((u32 (off + n) <? off) = (4294967296 <=? off + n)) as Eo.
  { unfold u32. destruct (Z.leb_spec 4294967296 (off + n)).
    - apply Z.ltb_lt. rewrite <- (Z_mod_plus_full _ (-1)), Z.mod_small by lia. lia.
    - apply Z.ltb_ge. rewrite Z.mod_small by lia. lia. }
  rewrite Eo. destruct (Z.ltb_spec (di_size d) off) as [?|Hos]; cbn [orb] in *.
  { apply wp_ret. specialize (HQ (f_l s)). destruct s. apply HQ, F. }
  destruct (Z.leb_spec 4294967296 (off + n)) as [?|Hnw].
  { apply wp_ret. specialize (HQ (f_l s)). destruct s. apply HQ, F. }
  rewrite u32_small by lia. replace (if di_size d <? off + n then di_size d - off else n) with (Z.min n (di_size d - off)) by zdec.
  set (m := Z.min n (di_size d - off)) in *.
  apply wp_bind. eapply (readi_loop_ok v L ip (di_addrs d)); [exact F|done..|lia|unfold m; lia| | | |].
  - unfold MAXFILE, NDIRECT, NINDIRECT, BSIZE, m. lia.
  - intros bn H1 H2. apply Hh; [|unfold m in *; lia]. etransitivity; [|exact H1]. apply Z.div_le_mono; unfold BSIZE; lia.
  - right. apply io_fuel_ok; unfold m; lia.
  - intros l Fl. apply wp_ret. by apply HQ.
Qed.
End content.

Section readi_theorem.
Context `{BD : !BlockDevice} `{DS : !Devsw}.

(** [readi] on a file: it returns, changes nothing but the buffer cache, and
    delivers exactly the bytes of the file from [off] on, as many as asked for
    and as there are before the end, through direct and indirect blocks; an
    offset beyond the end or a range that wraps around gives -1. *)
Theorem readi_spec sb k pid w s v L ip off n :
  let d := din s ip in
  fs_ok sb k pid w s v L ∅ -> layout sb (length v) -> (ip < NINODE)%nat -> i_dev (inode_at s ip) = ROOTDEV -> di_type d <> T_DEV ->
  file_ok sb v (di_addrs d) -> (length L < NBUF)%nat -> 0 <= di_size d <= MAXFILE * Z.of_nat BSIZE ->
  no_hole v (di_addrs d) 0 (di_size d) -> 0 <= off < 4294967296 -> 0 <= n < 4294967296 ->
  wp (readi ip off n) (fun r s' => f_inodes s' = f_inodes s /\ fs_ok sb k pid w s' v L ∅ /\
    if (di_size d <? off) || (4294967296 <=? off + n) then r = (-1, [])
    else r.1 = Z.min n (di_size d - off) /\ length r.2 = Z.to_nat r.1 /\
      forall j, 0 <= j < r.1 -> r.2 !!! Z.to_nat j = fbyte v (di_addrs d) (off + j)) s.
Proof.
  intros d F Ly Hip Hdev Ht Fk HL Hs Hh Hoff Hn. apply (readi_ok sb k pid w s v L ip off n); [done..|].
  intros l Fl. split; [done|]. split; [done|]. fold d. destruct (_ || _); [done|]. cbv zeta. cbn [fst snd].
  split; [done|]. split; [apply length_fbytes|]. intros j Hj.
  rewrite list_lookup_total_alt, lookup_fbytes by lia. cbn. by rewrite Z2Nat.id by lia.
Qed.
End readi_theorem.
