(* ===== verification/Blockmap.v ===== *)
(** * Block maps: the addresses of a file and the bytes they lead to.

    The pure part of [bmap] and [writei] in [fs.c], and of [iappend] in
    [mkfs.c]: adding a block to a file, and storing bytes in it, on a view of the
    disk. *)

From stdpp Require Import gmap.
From S2P Require Import Prelude Params Bio Log Trans Fs Balloc Inode Content.

Section map.
Context (sb : superblock).
Abbreviation used := (used sb).
Abbreviation is_data := (is_data sb).
Abbreviation live := (live sb).
Abbreviation file_ok := (file_ok sb).
Abbreviation alloc_view := (alloc_view sb).

(** ** Free blocks *)

Definition nfree (v : list block) : nat := length (filter (fun c => used v c = false) (seqZ 0 (sb_size sb))).

Lemma nfree_new v v' l : (forall c, 0 <= c < sb_size sb -> used v' c = true -> used v c = true \/ c ∈ l) -> (nfree v <= nfree v' + length l)%nat.
Proof.
  intros H. unfold nfree. rewrite <- length_app. apply submseteq_length, NoDup_submseteq; [apply NoDup_filter, NoDup_seqZ|].
  intros c [Hu Hc]%list_elem_of_filter. apply elem_of_seqZ in Hc as Hr. rewrite elem_of_app, list_elem_of_filter. destruct (used v' c) eqn:E; [|by left].
  right. destruct (H c ltac:(lia) E); [congruence|done].
Qed.

Lemma nfree_eq v v' : (forall c, 0 <= c < sb_size sb -> used v' c = used v c) -> nfree v' = nfree v.
Proof.
  intros H. pose proof (nfree_new v v' [] ltac:(intros c Hc; rewrite H by done; by left)). pose proof (nfree_new v' v [] ltac:(intros c Hc; rewrite H by done; by left)). cbn [length] in *. lia.
Qed.

Lemma nfree_none v : (forall c, 0 <= c < sb_size sb -> used v c = true) -> nfree v = 0%nat.
Proof.
  intros H. unfold nfree. destruct (filter _ _) as [|c l] eqn:E; [done|]. assert (c ∈ filter (fun c => used v c = false) (seqZ 0 (sb_size sb))) as Hc by (rewrite E; left).
  apply list_elem_of_filter in Hc as [Hu Hc%elem_of_seqZ]. rewrite H in Hu by lia. done.
Qed.

(** The blocks from [lo] to [hi] of a file that are not allocated, with the indirect block that they need. *)
Definition holes (v : list block) (ad : list Z) (lo hi : Z) : nat := length (filter (fun bn => baddr v ad bn = 0) (seqZ lo (hi - lo))).
Definition missing (v : list block) (ad : list Z) (lo hi : Z) : Z := Z.of_nat (holes v ad lo hi) + if decide (indirect ad = 0 /\ NDIRECT < hi) then 1 else 0.

Lemma missing_le v ad lo hi : lo <= hi -> missing v ad lo hi <= hi - lo + 1.
Proof.
  intros H. unfold missing, holes. pose proof (length_filter (fun bn => baddr v ad bn = 0) (seqZ lo (hi - lo))) as Hl. rewrite length_seqZ in Hl. case_decide; lia.
Qed.

(** The free blocks that are left when they are allocated; negative when they cannot be. *)
Definition spare (v : list block) (ad : list Z) (lo hi : Z) : Z := Z.of_nat (nfree v) - missing v ad lo hi.

Lemma spare_eq v v' ad lo hi : (forall c, 0 <= c < sb_size sb -> used v' c = used v c) -> (forall bn, baddr v' ad bn = baddr v ad bn) -> spare v' ad lo hi = spare v ad lo hi.
Proof.
  intros Hu Hb. unfold spare, missing, holes. rewrite (nfree_eq v v' Hu). do 4 f_equal. apply list_filter_iff. intros bn. by rewrite Hb.
Qed.

(** ** Adding a block to a file *)

Section add.
Context (v : list block) (ad : list Z) (b : Z).
Hypothesis Ly : layout sb (length v).
Hypothesis G : geometry sb (length v).
Hypothesis Hok : Forall block_ok v.
Hypothesis Hb : is_data b.
Hypothesis Hfree : used v b = false.
Hypothesis Fk : file_ok v ad.
Hypothesis Hsz : Z.of_nat (length v) <= FSSIZE.

Lemma new_nz : 0 < b.
Proof. destruct Hb. pose proof (meta_pos _ _ Ly G). lia. Qed.

Lemma not_new a : live v a -> a <> b.
Proof. intros [_ Hu] ->. congruence. Qed.

Lemma new_live : live (alloc_view b v) b.
Proof.
  split; [done|]. destruct Hb. pose proof new_nz. rewrite av_used by (done || lia). by rewrite bool_decide_true.
Qed.

(** The addresses after an update that adds [b] at [bn]. *)
Lemma file_add v' ad' bn :
  length ad' = 13%nat -> 0 <= bn < MAXFILE -> indirect ad' = indirect ad -> b <> indirect ad ->
  (forall a, live v a \/ a = b -> live v' a) -> baddr v ad bn = 0 ->
  (forall bn', 0 <= bn' < MAXFILE -> baddr v' ad' bn' = if decide (bn' = bn) then b else baddr v ad bn') ->
  file_ok v' ad'.
Proof.
  intros Hl Hbn Ei Hbi Hlv H0 Ha. destruct Fk as [_ I V J]. split; [done| | |].
  - rewrite Ei. intros Hi. apply Hlv. left. by apply I.
  - intros bn' Hr. rewrite Ha, Ei by done. case_decide as E; [intros _; split; [apply Hlv; by right|done]|].
    intros Hn. destruct (V bn' Hr Hn). split; [apply Hlv; by left|done].
  - intros x y Hx Hy. rewrite !Ha by done. pose proof new_nz. repeat case_decide; subst; [done|..].
    + intros _ E. exfalso. destruct (V y Hy) as [Hl' _]; [lia|]. by apply (not_new _ Hl').
    + intros Hn E. exfalso. destruct (V x Hx Hn) as [Hl' _]. by apply (not_new _ Hl').
    + by apply J.
Qed.

(** A direct block. *)
Lemma add_direct bn : 0 <= bn < NDIRECT -> ad !!! Z.to_nat bn = 0 ->
  let ad' := <[Z.to_nat bn := b]> ad in
  file_ok (alloc_view b v) ad' /\ indirect ad' = indirect ad /\
  forall bn', 0 <= bn' < MAXFILE -> baddr (alloc_view b v) ad' bn' = if decide (bn' = bn) then b else baddr v ad bn'.
Proof.
  intros Hbn H0 ad'. pose proof (fk_len _ _ _ Fk) as Hl. unfold NDIRECT in *.
  assert (indirect ad' = indirect ad) as Ei by (unfold indirect, ad'; rewrite list_lookup_total_insert_ne; [done|lia]).
  assert (forall bn', 0 <= bn' < MAXFILE -> baddr (alloc_view b v) ad' bn' = if decide (bn' = bn) then b else baddr v ad bn') as Ha.
  { intros bn' Hr. rewrite av_baddr; [|done..|rewrite Ei; apply (fk_ind _ _ _ Fk)|done]. unfold baddr, ad', NDIRECT. case_decide as E.
    - subst bn'. rewrite (proj2 (Z.ltb_lt bn 12)), list_lookup_total_insert_eq by lia. done.
    - destruct (Z.ltb_spec bn' 12); [rewrite list_lookup_total_insert_ne by lia; done|]. fold ad'. by rewrite Ei. }
  split; [|done]. apply (file_add _ _ bn); [unfold ad'; by rewrite length_insert|unfold MAXFILE, NDIRECT, NINDIRECT; lia|done| | | |done].
  - intros E. destruct (decide (indirect ad = 0)); [pose proof new_nz; lia|]. by apply (not_new _ (fk_ind _ _ _ Fk ltac:(done))).
  - intros a [Hx| ->]; [by apply av_live|apply new_live].
  - unfold baddr, NDIRECT. by rewrite (proj2 (Z.ltb_lt bn 12)) by lia.
Qed.

(** The indirect block, with no entry yet. *)
Lemma add_indirect : indirect ad = 0 ->
  let ad' := <[12%nat := b]> ad in
  file_ok (alloc_view b v) ad' /\ indirect ad' = b /\
  forall bn', 0 <= bn' < MAXFILE -> baddr (alloc_view b v) ad' bn' = baddr v ad bn'.
Proof.
  intros H0 ad'. destruct Fk as [Hl _ V J]. pose proof new_nz as Hnz.
  assert (indirect ad' = b) as Ei by (unfold indirect, ad'; rewrite list_lookup_total_insert_eq by lia; done).
  assert (forall bn', 0 <= bn' < MAXFILE -> baddr (alloc_view b v) ad' bn' = baddr v ad bn') as Ha.
  { intros bn' Hr. unfold baddr. rewrite Ei, H0. rewrite (proj2 (Z.eqb_neq b 0)) by lia. cbn [Z.eqb].
    destruct (Z.ltb_spec bn' NDIRECT).
    - unfold ad'. rewrite list_lookup_total_insert_ne; [done|]. unfold NDIRECT in *. lia.
    - rewrite (list_lookup_total_correct _ _ _ (av_b sb v b Ly G Hb)). apply get_u32_zero.
      unfold MAXFILE, NDIRECT, NINDIRECT, BSIZE in *. lia. }
  split; [|done]. split.
  - unfold ad'. by rewrite length_insert.
  - rewrite Ei. intros _. apply new_live.
  - intros bn' Hr. rewrite Ha, Ei by done. intros Hn. destruct (V bn' Hr Hn) as [Hlv _]. split; [by apply av_live|by apply not_new].
  - intros x y Hx Hy. rewrite !Ha by done. by apply J.
Qed.

(** A block named by the indirect block. *)
Lemma add_entry bn : NDIRECT <= bn < MAXFILE -> indirect ad <> 0 -> baddr v ad bn = 0 ->
  let v' := <[Z.to_nat (indirect ad) := put_u32 (4 * Z.to_nat (bn - NDIRECT)) b (v !!! Z.to_nat (indirect ad))]> (alloc_view b v) in
  file_ok v' ad /\
  forall bn', 0 <= bn' < MAXFILE -> baddr v' ad bn' = if decide (bn' = bn) then b else baddr v ad bn'.
Proof.
  intros Hbn Hi H0 v'. pose proof (fk_ind _ _ _ Fk Hi) as Hil. pose proof (live_range sb v Ly G _ Hil) as Hir.
  pose proof new_nz as Hnz. assert (length (v !!! Z.to_nat (indirect ad)) = BSIZE) as Hdl.
  { destruct (lookup_lt_is_Some_2 v (Z.to_nat (indirect ad))) as [d E]; [destruct Ly; lia|].
    rewrite (list_lookup_total_correct _ _ _ E). by eapply Forall_lookup_1 in Hok as [? _]. }
  assert (length (alloc_view b v) = length v) as Hlav by apply length_alloc_view.
  assert (forall bn', 0 <= bn' < MAXFILE -> baddr v' ad bn' = if decide (bn' = bn) then b else baddr v ad bn') as Ha.
  { intros bn' Hr. unfold baddr, v' in *. rewrite (proj2 (Z.eqb_neq (indirect ad) 0)) in * by done.
    unfold MAXFILE, NDIRECT, NINDIRECT in *. rewrite (proj2 (Z.ltb_ge bn 12)) in H0 by lia.
    destruct (Z.ltb_spec bn' 12); [by rewrite decide_False by lia|].
    rewrite list_lookup_total_insert_eq by (destruct Ly; lia). case_decide as E.
    - subst bn'. apply get_put_u32_eq; [rewrite Hdl; unfold BSIZE; lia|]. destruct Hb as [_ Hb2].
      pose proof (ly_size _ _ Ly). unfold FSSIZE in Hsz. lia.
    - apply get_put_u32_ne; [rewrite Hdl; unfold BSIZE; lia|lia]. }
  split; [|done]. apply (file_add _ _ bn); [apply (fk_len _ _ _ Fk)|unfold NDIRECT in *; lia|done|by apply not_eq_sym, not_new| |done|done].
  intros a Hx. unfold v'. apply set_live; rewrite ?Hlav; [done|done|apply Hil|]. destruct Hx as [Hx| ->]; [by apply av_live|apply new_live].
Qed.
End add.

(** [a] is a block of the file [ad]. *)
Definition has_block (v : list block) (ad : list Z) (a : Z) : Prop :=
  a <> 0 /\ (a = indirect ad \/ exists bn, 0 <= bn < MAXFILE /\ baddr v ad bn = a).

(** ** The block of a file block number

    The block [bn] of the file [ad] in the view [v] is [b] in [v'], which keeps
    every other block in use. *)
Record mapped (v : list block) (ad : list Z) (bn b : Z) (v' : list block) (ad' : list Z) : Prop := {
  mp_file : file_ok v' ad';
  mp_len : length v' = length v;
  mp_addr : baddr v' ad' bn = b;
  mp_nz : b <> 0;
  mp_other : forall bn', 0 <= bn' < MAXFILE -> bn' <> bn -> baddr v' ad' bn' = baddr v ad bn';
  mp_old : baddr v ad bn <> 0 -> b = baddr v ad bn;
  mp_same : baddr v ad bn <> 0 -> ad' = ad;
  mp_new : baddr v ad bn = 0 -> v' !!! Z.to_nat b = zero_block /\ used v b = false;
  mp_used : forall c, 0 <= c < sb_size sb -> used v c = true -> used v' c = true;
  mp_live : forall a, live v a -> a <> indirect ad -> v' !! Z.to_nat a = v !! Z.to_nat a;
  mp_meta : forall a, 0 <= a < sb_bmapstart sb -> v' !! Z.to_nat a = v !! Z.to_nat a;
  mp_ind : indirect ad' = indirect ad \/ indirect ad = 0 /\ used v (indirect ad') = false;
  mp_acct : forall c, 0 <= c < sb_size sb -> used v' c = true -> used v c = true \/ has_block v' ad' c;
  mp_low : bn < NDIRECT -> indirect ad' = indirect ad;
}.

(** No block is taken that is not counted as missing. *)
Lemma mapped_spare v ad bn b v' ad' lo hi : mapped v ad bn b v' ad' -> file_ok v ad -> 0 <= lo <= bn -> bn < hi <= MAXFILE -> spare v ad lo hi <= spare v' ad' lo hi.
Proof.
  intros M Fk Hlo Hhi. pose proof M as [M1 _ M3 M4 M5 M6 _ _ _ _ _ M12 M13 M14].
  set (l1 := if decide (baddr v ad bn = 0) then [b] else []). set (l2 := if decide (indirect ad = 0 /\ indirect ad' <> 0) then [indirect ad'] else []).
  assert (nfree v <= nfree v' + length (l1 ++ l2))%nat as Hf.
  { apply nfree_new. intros c Hc Hu. destruct (M13 c Hc Hu) as [?|[H0 [->|(bn' & Hr & <-)]]]; [by left|..].
    - destruct (decide (indirect ad = 0)) as [Ei|Ei]; [right; unfold l2; rewrite decide_True by done; apply elem_of_app; right; by left|left].
      destruct M12 as [E|[E _]]; [|done]. rewrite E. by apply (fk_ind _ _ _ Fk).
    - destruct (decide (bn' = bn)) as [->|Hne].
      + destruct (decide (baddr v ad bn = 0)) as [E|E]; [right; unfold l1; rewrite M3; apply elem_of_app; left; by left|left].
        rewrite M3, (M6 E). by apply (fk_live _ _ _ Fk).
      + left. rewrite M5 in * by done. by apply (fk_live _ _ _ Fk). }
  assert (holes v' ad' lo hi + length l1 <= holes v ad lo hi)%nat as Hh.
  { replace (length l1) with (length (if decide (baddr v ad bn = 0) then [bn] else [])) by (unfold l1; by case_decide). unfold holes. rewrite <- length_app. apply submseteq_length, NoDup_submseteq.
    - apply NoDup_app. split; [apply NoDup_filter, NoDup_seqZ|]. split; [|case_decide; [apply NoDup_singleton|apply NoDup_nil_2]].
      intros x [Hx _]%list_elem_of_filter. case_decide; [|apply not_elem_of_nil]. intros ->%list_elem_of_singleton. congruence.
    - intros x. rewrite elem_of_app, !list_elem_of_filter, elem_of_seqZ. intros [[Hx Hr]|Hx].
      + destruct (decide (x = bn)) as [->|Hne]; [congruence|]. by rewrite M5 in Hx by lia.
      + case_decide; [|by apply elem_of_nil in Hx]. apply list_elem_of_singleton in Hx as ->. split; [done|lia]. }
  rewrite length_app in Hf. unfold spare, missing, l2 in *. destruct (decide (indirect ad = 0 /\ indirect ad' <> 0)) as [[E1 E2]|E]; cbn [length] in Hf.
  - rewrite (decide_False (P := indirect ad' = 0 /\ _)) by tauto. rewrite decide_True; [lia|]. split; [done|]. destruct (decide (bn < NDIRECT)) as [Hl|Hl]; [|lia]. by rewrite (M14 Hl) in E2.
  - assert (indirect ad' = indirect ad) as -> by (destruct M12 as [?|[E0 _]]; [done|]; destruct (decide (indirect ad' = 0)); [congruence|tauto]). lia.
Qed.

Lemma mapped_same v ad bn : file_ok v ad -> baddr v ad bn <> 0 -> mapped v ad bn (baddr v ad bn) v ad.
Proof. intros Fk H0. split; try done; by left. Qed.

Section mapped.
Context (v : list block) (ad : list Z) (b : Z).
Hypothesis Ly : layout sb (length v).
Hypothesis G : geometry sb (length v).
Hypothesis Hok : Forall block_ok v.
Hypothesis Hb : is_data b.
Hypothesis Hu : used v b = false.
Hypothesis Fk : file_ok v ad.
Hypothesis Hsz : Z.of_nat (length v) <= FSSIZE.

(** A missing direct block. *)
Lemma mapped_direct bn : 0 <= bn < NDIRECT -> ad !!! Z.to_nat bn = 0 -> mapped v ad bn b (alloc_view b v) (<[Z.to_nat bn := b]> ad).
Proof.
  intros Hbn H0. destruct (add_direct v ad b Ly G Hok Hb Hu Fk bn Hbn H0) as (Fk' & Ei & Ha).
  assert (0 <= bn < MAXFILE) as Hr by (unfold MAXFILE, NDIRECT, NINDIRECT in *; lia).
  assert (baddr v ad bn = 0) as Hz by (unfold baddr; by rewrite (proj2 (Z.ltb_lt bn NDIRECT)) by lia).
  pose proof (new_nz v b Ly G Hb). split; [exact Fk'|apply length_alloc_view| |lia|..].
  - rewrite Ha, decide_True by done. done.
  - intros bn' Hr' Hne. by rewrite Ha, decide_False by done.
  - done.
  - done.
  - intros _. split; [|done]. by rewrite (list_lookup_total_correct _ _ _ (av_b sb v b Ly G Hb)).
  - intros c Hc Hcu. rewrite av_used by done. by rewrite Hcu, orb_true_r.
  - intros a Hl _. apply av_ne; [done..|apply Hl|by apply (not_new v b Hu)].
  - intros a Ha'. by apply av_meta.
  - by left.
  - intros c Hc. rewrite av_used by done. case_bool_decide as E; [|by left]. intros _. right. subst c. split; [lia|]. right. exists bn.
    split; [done|]. by rewrite Ha, decide_True by done.
  - done.
Qed.

(** A missing entry of the indirect block. *)
Lemma mapped_entry bn : NDIRECT <= bn < MAXFILE -> indirect ad <> 0 -> baddr v ad bn = 0 ->
  let v' := <[Z.to_nat (indirect ad) := put_u32 (4 * Z.to_nat (bn - NDIRECT)) b (v !!! Z.to_nat (indirect ad))]> (alloc_view b v) in
  mapped v ad bn b v' ad.
Proof.
  intros Hbn Hi E0 v'. pose proof (fk_ind _ _ _ Fk Hi) as Hil. pose proof (live_range sb v Ly G _ Hil) as Hir.
  destruct (add_entry v ad b Ly G Hok Hb Hu Fk Hsz bn Hbn Hi E0) as [Fk' Ha]. pose proof (not_new v b Hu _ Hil) as Hne.
  pose proof (new_nz v b Ly G Hb) as Hbn0. assert (0 <= bn < MAXFILE) as Hr by (unfold NDIRECT in *; lia).
  split; [exact Fk'|unfold v'; by rewrite length_insert, length_alloc_view| |lia|..].
  - unfold v'. by rewrite Ha, decide_True by done.
  - intros bn' Hr' Hn. unfold v'. by rewrite Ha, decide_False by done.
  - done.
  - done.
  - intros _. split; [|done]. unfold v'. rewrite list_lookup_total_insert_ne by lia.
    by rewrite (list_lookup_total_correct _ _ _ (av_b sb v b Ly G Hb)).
  - intros c Hc Hcu. unfold v'. rewrite (used_insert_data sb (length v) Ly G) by (destruct Hil as [[? _] _]; lia).
    rewrite av_used by done. by rewrite Hcu, orb_true_r.
  - intros a Hl Hnei. pose proof (live_range sb v Ly G _ Hl). unfold v'. rewrite list_lookup_insert_ne by lia.
    apply av_ne; [done..|apply Hl|by apply (not_new v b Hu)].
  - intros a Ha'. destruct Hil as [[? _] _]. pose proof (meta_pos _ _ Ly G). unfold v'. rewrite list_lookup_insert_ne by lia. by apply av_meta.
  - by left.
  - intros c Hc. unfold v'. rewrite (used_insert_data sb (length v) Ly G) by (destruct Hil as [[? _] _]; lia).
    rewrite av_used by done. case_bool_decide as E; [|by left]. intros _. right. subst c. split; [lia|]. right. exists bn.
    split; [done|]. by rewrite Ha, decide_True by done.
  - done.
Qed.

(** A missing indirect block [b], and then the entry. *)
Lemma mapped_indirect bn b' v' : NDIRECT <= bn < MAXFILE -> indirect ad = 0 ->
  mapped (alloc_view b v) (<[12%nat := b]> ad) bn b' v' (<[12%nat := b]> ad) -> mapped v ad bn b' v' (<[12%nat := b]> ad).
Proof.
  intros Hbn Hi [M1 M2 M3 M4 M5 M6 M7 M8 M9 M10 M11 M12 M13 M14]. destruct (add_indirect v ad b Ly G Hok Hb Hu Fk Hi) as (_ & Ei & Ha).
  assert (0 <= bn < MAXFILE) as Hr by (unfold NDIRECT in *; lia). pose proof (new_nz v b Ly G Hb) as Hib0.
  assert (forall c, 0 <= c < sb_size sb -> used (alloc_view b v) c = bool_decide (c = b) || used v c) as Hav
    by (intros c Hc; by apply av_used).
  assert (baddr v ad bn = 0) as Hz by (unfold baddr; by rewrite (proj2 (Z.ltb_ge bn NDIRECT)), Hi by lia).
  split; [done|by rewrite M2, length_alloc_view|done|done|..].
  - intros bn' Hr' Hne. rewrite M5, Ha by done. done.
  - done.
  - done.
  - rewrite <- Ha by done. intros H0. destruct (M8 H0) as [Hz' Hu']. split; [done|].
    destruct (fk_live _ _ _ M1 bn Hr) as [Hl _]; [by rewrite M3|]. rewrite M3 in Hl.
    rewrite Hav in Hu'; [by apply orb_false_iff in Hu' as [_ Hu']|]. destruct Hl as [[? ?] _]. pose proof (meta_pos _ _ Ly G). lia.
  - intros c Hc Hcu. apply M9; [done|]. by rewrite Hav, Hcu, orb_true_r.
  - intros a Hl _. pose proof (not_new v b Hu a Hl) as Hne. rewrite M10; [|by apply av_live|by rewrite Ei].
    apply av_ne; [done..|apply Hl|done].
  - intros a Ha'. rewrite M11 by done. by apply av_meta.
  - right. split; [done|]. by rewrite Ei.
  - intros c Hc Hcu. destruct (M13 c Hc Hcu) as [Hv|?]; [|by right]. rewrite Hav in Hv by done. apply orb_prop in Hv as [E|?]; [|by left].
    apply bool_decide_eq_true in E. subst c. right. split; [lia|]. left. done.
  - lia.
Qed.
End mapped.

Lemma set_file v ad a d : layout sb (length v) -> geometry sb (length v) -> is_data a -> a <> indirect ad -> 0 <= indirect ad ->
  file_ok v ad -> file_ok (<[Z.to_nat a := d]> v) ad.
Proof.
  intros Ly G Ha Hne Hi [Fl I V J]. assert (0 <= a) by (destruct Ha; pose proof (meta_pos _ _ Ly G); lia).
  split; [done|..].
  - intros H0. apply set_live; [done..|]. by apply I.
  - intros bn Hbn. rewrite set_baddr by done. intros H0. destruct (V bn Hbn H0). split; [by apply set_live|done].
  - intros x y Hx Hy. rewrite !set_baddr by done. by apply J.
Qed.

Lemma file_ind v ad : layout sb (length v) -> geometry sb (length v) -> file_ok v ad -> 0 <= indirect ad.
Proof.
  intros Ly G Fk. destruct (decide (indirect ad = 0)) as [->|H0]; [done|]. pose proof (live_range sb v Ly G _ (fk_ind _ _ _ Fk H0)). lia.
Qed.

(** ** Bytes stored in a file *)

(** The blocks that [n] bytes at [off] touch are among those from [lo] to [hi]. *)
Definition covers (lo hi off n : Z) : Prop := 0 <= lo /\ lo * Z.of_nat BSIZE <= off /\ off + n <= hi * Z.of_nat BSIZE /\ hi <= MAXFILE.

Lemma covers_block lo hi off n : covers lo hi off n -> 0 < n -> 0 <= lo <= off / Z.of_nat BSIZE /\ off / Z.of_nat BSIZE < hi <= MAXFILE.
Proof. unfold covers, BSIZE. intros. Z.to_euclidean_division_equations. lia. Qed.

Lemma covers_app lo hi off a b : 0 <= a -> 0 <= b -> covers lo hi off (a + b) -> covers lo hi off a /\ covers lo hi (off + a) b.
Proof. unfold covers. lia. Qed.

(** From the view [v] to the view [v'], the bytes [src] were written at [off]
    to the file [ad]: the other bytes of the file
    and the other blocks in use are kept. *)
Record written (v : list block) (ad : list Z) (off : Z) (src : list Z) (v' : list block) (ad' : list Z) : Prop := {
  wr_file : file_ok v' ad';
  wr_len : length v' = length v;
  wr_bytes : forall j, (j < length src)%nat -> fbyte v' ad' (off + Z.of_nat j) = src !!! j;
  wr_keep : forall o, 0 <= o < MAXFILE * Z.of_nat BSIZE -> (o < off \/ off + Z.of_nat (length src) <= o) ->
    baddr v ad (o / Z.of_nat BSIZE) <> 0 -> fbyte v' ad' o = fbyte v ad o;
  wr_map : forall bn, 0 <= bn < MAXFILE -> baddr v ad bn <> 0 ->
    baddr v' ad' bn = baddr v ad bn;
  wr_fresh : forall bn, 0 <= bn < MAXFILE -> baddr v ad bn = 0 ->
    baddr v' ad' bn = 0 \/ used v (baddr v' ad' bn) = false;
  wr_zero : forall o, 0 <= o < MAXFILE * Z.of_nat BSIZE -> (o < off \/ off + Z.of_nat (length src) <= o) ->
    baddr v ad (o / Z.of_nat BSIZE) = 0 -> baddr v' ad' (o / Z.of_nat BSIZE) <> 0 -> fbyte v' ad' o = 0;
  wr_hole : no_hole v' ad' off (off + Z.of_nat (length src));
  wr_same : no_hole v ad off (off + Z.of_nat (length src)) -> ad' = ad;
  wr_used : forall c, 0 <= c < sb_size sb -> used v c = true -> used v' c = true;
  wr_other : forall a, live v a -> a <> indirect ad ->
    (forall bn, 0 <= bn < MAXFILE -> baddr v ad bn <> a) -> v' !! Z.to_nat a = v !! Z.to_nat a;
  wr_meta : forall a, 0 <= a < sb_bmapstart sb -> v' !! Z.to_nat a = v !! Z.to_nat a;
  wr_ind : indirect ad' = indirect ad \/
    indirect ad = 0 /\ used v (indirect ad') = false;
  wr_acct : forall c, 0 <= c < sb_size sb -> used v' c = true -> used v c = true \/ has_block v' ad' c;
  wr_spare : forall lo hi, covers lo hi off (Z.of_nat (length src)) -> spare v ad lo hi <= spare v' ad' lo hi;
}.

Lemma block_of o : 0 <= o < MAXFILE * Z.of_nat BSIZE -> 0 <= o / Z.of_nat BSIZE < MAXFILE.
Proof.
  intros Ho. split; [apply Z.div_pos; unfold BSIZE; lia|]. apply Z.div_lt_upper_bound; unfold BSIZE in *; lia.
Qed.

Lemma same_block off j : 0 <= off -> 0 <= j -> off mod Z.of_nat BSIZE + j < Z.of_nat BSIZE ->
  (off + j) / Z.of_nat BSIZE = off / Z.of_nat BSIZE /\ (off + j) mod Z.of_nat BSIZE = off mod Z.of_nat BSIZE + j.
Proof. intros. unfold BSIZE in *. Z.to_euclidean_division_equations. lia. Qed.

(** A hole, and no block to fill it. *)
Lemma hole_spare v ad bn lo hi : (forall c, 0 <= c < sb_size sb -> used v c = true) -> baddr v ad bn = 0 -> covers lo hi (bn * Z.of_nat BSIZE) 1 -> spare v ad lo hi < 0.
Proof.
  intros Hu H0 Hc. unfold spare, missing. rewrite (nfree_none v Hu). assert (bn ∈ filter (fun x => baddr v ad x = 0) (seqZ lo (hi - lo))) as Hin.
  { apply list_elem_of_filter. split; [done|]. apply elem_of_seqZ. unfold covers, BSIZE in Hc. lia. }
  unfold holes. destruct (filter _ _); [by apply elem_of_nil in Hin|]. cbn [length]. case_decide; lia.
Qed.

(** The indirect block [b] is allocated for the block [bn]. *)
Lemma indirect_spare v ad b bn lo hi : layout sb (length v) -> geometry sb (length v) -> Forall block_ok v -> is_data b -> used v b = false -> file_ok v ad -> indirect ad = 0 ->
  NDIRECT <= bn -> covers lo hi (bn * Z.of_nat BSIZE) 1 -> spare v ad lo hi <= spare (alloc_view b v) (<[12%nat := b]> ad) lo hi.
Proof.
  intros Ly G Hok Hb Hu Fk Hi Hbn (C1 & C2 & C3 & C4). destruct (add_indirect v ad b Ly G Hok Hb Hu Fk Hi) as (_ & Ei & Ha). pose proof (new_nz v b Ly G Hb).
  assert (nfree v <= nfree (alloc_view b v) + length [b])%nat as Hf.
  { apply nfree_new. intros c Hc. rewrite av_used by done. intros [E%bool_decide_eq_true|?]%orb_prop; [right; subst; left|by left]. }
  assert (holes (alloc_view b v) (<[12%nat := b]> ad) lo hi <= holes v ad lo hi)%nat as Hh.
  { apply submseteq_length, NoDup_submseteq; [apply NoDup_filter, NoDup_seqZ|]. intros x. rewrite !list_elem_of_filter, elem_of_seqZ. intros [Hx Hr]. by rewrite Ha in Hx by lia. }
  cbn [length] in Hf. unfold spare, missing. rewrite Ei, (decide_False (P := b = 0 /\ _)) by lia. rewrite decide_True; [lia|]. split; [done|]. unfold BSIZE in *. lia.
Qed.

Section turn.
Context (v : list block) (ad : list Z) (off b : Z) (chunk : list Z) (v1 : list block) (ad1 : list Z) (d : block).
Abbreviation bn := (off / Z.of_nat BSIZE).
Abbreviation v2 := (<[Z.to_nat b := splice (Z.to_nat (off mod Z.of_nat BSIZE)) chunk d]> v1).
Hypothesis Ly : layout sb (length v).
Hypothesis G : geometry sb (length v).
Hypothesis Fk : file_ok v ad.
Hypothesis M : mapped v ad bn b v1 ad1.
Hypothesis Hoff : 0 <= off < MAXFILE * Z.of_nat BSIZE.
Hypothesis Hd : v1 !! Z.to_nat b = Some d.
Hypothesis Hdl : length d = BSIZE.
Hypothesis Hc : off mod Z.of_nat BSIZE + Z.of_nat (length chunk) <= Z.of_nat BSIZE.
Hypothesis Hc0 : (0 < length chunk)%nat.

Let Hbn : 0 <= bn < MAXFILE := block_of off Hoff.

Lemma turn_live : live v1 b /\ b <> indirect ad1 /\ 0 < b < Z.of_nat (length v1).
Proof using Ly G M Hoff.
  destruct (fk_live _ _ _ (mp_file _ _ _ _ _ _ M) bn Hbn) as [Hl Hn];
    rewrite (mp_addr _ _ _ _ _ _ M) in *; [apply M|]. clear Hd Hdl Hc Hc0 Fk.
  split; [done|]. split; [done|]. destruct M. assert (layout sb (length v1)) as Ly1 by congruence.
  assert (geometry sb (length v1)) as G1 by congruence. pose proof (live_range sb v1 Ly1 G1 _ Hl). destruct Ly1. lia.
Qed.

Lemma turn_baddr bn' : baddr v2 ad1 bn' = baddr v1 ad1 bn'.
Proof.
  destruct turn_live as (_ & Hn & Hr). apply set_baddr; [done|lia|]. destruct M. apply (file_ind v1); [congruence..|done].
Qed.

Lemma turn_old bn' : 0 <= bn' < MAXFILE -> baddr v ad bn' <> 0 -> baddr v1 ad1 bn' = baddr v ad bn'.
Proof.
  intros Hr H0. destruct M. destruct (decide (bn' = bn)) as [->|Hne]; [rewrite mp_addr0; auto|]. by apply mp_other0.
Qed.

(** A block of the file or of another one, other than [b]. *)
Lemma turn_block a : live v a -> a <> indirect ad -> a <> b -> v2 !! Z.to_nat a = v !! Z.to_nat a.
Proof.
  intros Hl Hi Hne. pose proof (live_range sb v Ly G _ Hl). destruct turn_live as (_ & _ & Hr).
  rewrite list_lookup_insert_ne by lia. by apply M.
Qed.

Lemma turn_keep o : 0 <= o < MAXFILE * Z.of_nat BSIZE -> (o < off \/ off + Z.of_nat (length chunk) <= o) ->
  baddr v ad (o / Z.of_nat BSIZE) <> 0 -> fbyte v2 ad1 o = fbyte v ad o.
Proof.
  intros Ho Hout H0. pose proof (block_of o Ho) as Hob. destruct (fk_live _ _ _ Fk _ Hob H0) as [Hl Hi].
  unfold fbyte. rewrite turn_baddr, (turn_old _ Hob H0). destruct turn_live as (_ & _ & Hr).
  pose proof (Z.mod_pos_bound off (Z.of_nat BSIZE) eq_refl). pose proof (Z.mod_pos_bound o (Z.of_nat BSIZE) eq_refl).
  destruct (decide (o / Z.of_nat BSIZE = bn)) as [E|E].
  - rewrite E in *. pose proof (mp_old _ _ _ _ _ _ M H0) as Eb. rewrite <- Eb in *.
    rewrite list_lookup_total_insert_eq by lia. rewrite (mp_live _ _ _ _ _ _ M _ Hl Hi) in Hd.
    rewrite (list_lookup_total_correct _ _ _ Hd), !list_lookup_total_alt, lookup_splice by (rewrite Hdl; lia).
    f_equal.
    pose proof (Z.div_mod off (Z.of_nat BSIZE) ltac:(done)). pose proof (Z.div_mod o (Z.of_nat BSIZE) ltac:(done)).
    rewrite decide_False; [done|]. lia.
  - f_equal. rewrite !list_lookup_total_alt. f_equal. apply turn_block; [done..|]. intros Eb.
    apply E. apply (fk_inj _ _ _ (mp_file _ _ _ _ _ _ M)); [done..| |];
      rewrite (turn_old _ Hob H0), ?(mp_addr _ _ _ _ _ _ M); done.
Qed.

(** The bytes of a new block that are not written are zero. *)
Lemma turn_zero o : 0 <= o < MAXFILE * Z.of_nat BSIZE -> (o < off \/ off + Z.of_nat (length chunk) <= o) ->
  baddr v ad (o / Z.of_nat BSIZE) = 0 -> baddr v2 ad1 (o / Z.of_nat BSIZE) <> 0 -> fbyte v2 ad1 o = 0.
Proof.
  intros Ho Hout H0. rewrite turn_baddr. intros H2. pose proof (block_of o Ho) as Hob. destruct turn_live as (_ & _ & Hr).
  destruct (decide (o / Z.of_nat BSIZE = bn)) as [E|E]; [|by rewrite (mp_other _ _ _ _ _ _ M) in H2].
  rewrite E in H0. destruct (mp_new _ _ _ _ _ _ M H0) as [Hz _]. unfold fbyte. rewrite turn_baddr, E, (mp_addr _ _ _ _ _ _ M).
  rewrite list_lookup_total_insert_eq by lia. rewrite (list_lookup_total_correct _ _ _ Hd) in Hz. rewrite Hz.
  pose proof (Z.mod_pos_bound off (Z.of_nat BSIZE) eq_refl). pose proof (Z.mod_pos_bound o (Z.of_nat BSIZE) eq_refl).
  pose proof (Z.div_mod off (Z.of_nat BSIZE) ltac:(done)). pose proof (Z.div_mod o (Z.of_nat BSIZE) ltac:(done)).
  rewrite list_lookup_total_alt, lookup_splice by (unfold zero_block; rewrite length_replicate; lia).
  rewrite decide_False by lia. unfold zero_block. by rewrite lookup_replicate_2 by lia.
Qed.

Lemma turn_bytes j : (j < length chunk)%nat -> fbyte v2 ad1 (off + Z.of_nat j) = chunk !!! j.
Proof.
  intros Hj. destruct (same_block off (Z.of_nat j)) as [E1 E2]; [lia..|]. unfold fbyte. rewrite E1, E2, turn_baddr.
  rewrite (mp_addr _ _ _ _ _ _ M). destruct turn_live as (_ & _ & Hr). rewrite list_lookup_total_insert_eq by lia.
  pose proof (Z.mod_pos_bound off (Z.of_nat BSIZE) eq_refl).
  rewrite !list_lookup_total_alt, lookup_splice by (rewrite Hdl; lia). rewrite decide_True by lia. do 2 f_equal. lia.
Qed.

Lemma turn_written : written v ad off chunk v2 ad1.
Proof.
  destruct turn_live as (Hl & Hn & Hr). pose proof M as [M1 M2 M3 M4 M5 M6 M7 M8 M9 M10 M11 M12 M13 M14].
  assert (layout sb (length v1)) as Ly1 by congruence. assert (geometry sb (length v1)) as G1 by congruence. pose proof (file_ind v1 ad1 Ly1 G1 M1).
  split; [apply set_file; try done; apply Hl|by rewrite length_insert|exact turn_bytes|exact turn_keep|..].
  - intros bn' Hr' H0. rewrite turn_baddr. by apply turn_old.
  - intros bn' Hr' H0. rewrite turn_baddr. destruct (decide (bn' = bn)) as [->|Hne]; [|left; by rewrite M5].
    right. rewrite M3. by apply M8.
  - exact turn_zero.
  - intros bn' H1 H2. assert (bn' = bn) as ->; [|by rewrite turn_baddr, M3]. pose proof (Z.div_mod off (Z.of_nat BSIZE) ltac:(done)).
    unfold BSIZE in *. lia.
  - intros Hh. apply M7. apply Hh; [done|]. pose proof (Z.mul_div_le off (Z.of_nat BSIZE) eq_refl). lia.
  - intros c Hcr Hcu. rewrite (used_insert_data sb _ Ly1 G1) by (destruct Hl as [[? ?] _]; lia). by apply M9.
  - intros a Ha Hai Hab. apply turn_block; [done..|]. intros ->. destruct (decide (baddr v ad bn = 0)) as [H0|H0].
    + destruct (M8 H0) as [_ Hu]. destruct Ha. congruence.
    + apply (Hab bn Hbn). symmetry. by apply M6.
  - intros a Ha'. destruct Hl as [[? _] _]. pose proof (meta_pos _ _ Ly1 G1). rewrite list_lookup_insert_ne by lia. by apply M11.
  - done.
  - intros c Hcr. rewrite (used_insert_data sb _ Ly1 G1) by (destruct Hl as [[? ?] _]; lia). intros Hcu.
    unfold has_block. setoid_rewrite turn_baddr. by apply M13.
  - intros lo hi Hcv. destruct (covers_block _ _ _ _ Hcv) as [B1 B2]; [lia|]. rewrite (spare_eq v1 v2); [by apply (mapped_spare v ad bn b)| |exact turn_baddr].
    intros c Hcr. apply (used_insert_data sb _ Ly1 G1); [done|lia|destruct Hl as [[? ?] _]; lia].
Qed.
End turn.

Lemma written_nil v ad off : 0 <= off -> off mod Z.of_nat BSIZE = 0 \/ baddr v ad (off / Z.of_nat BSIZE) <> 0 ->
  file_ok v ad -> written v ad off [] v ad.
Proof.
  intros Hoff Ho Fk. split; try done; [intros j Hj; simpl in Hj; lia|by left| |by left|by left].
  intros bn H1 H2. cbn [length] in H2. rewrite Z.add_0_r in H2. pose proof (Z.div_mod off (Z.of_nat BSIZE) ltac:(done)).
    destruct Ho as [Ho|Ho]; [unfold BSIZE in *; lia|]. replace bn with (off / Z.of_nat BSIZE); [done|].
    pose proof (Z.mod_pos_bound off (Z.of_nat BSIZE) eq_refl). unfold BSIZE in *. lia.
Qed.

Section trans.
Context (v : list block) (ad : list Z) (off : Z) (c1 c2 : list Z) (v2 v3 : list block) (ad2 ad3 : list Z).
Hypothesis Ly : layout sb (length v).
Hypothesis G : geometry sb (length v).
Hypothesis Fk : file_ok v ad.
Hypothesis Hoff : 0 <= off.
Hypothesis Hmax : off + Z.of_nat (length (c1 ++ c2)) <= MAXFILE * Z.of_nat BSIZE.
Hypothesis W1 : written v ad off c1 v2 ad2.
Hypothesis W2 : written v2 ad2 (off + Z.of_nat (length c1)) c2 v3 ad3.

Lemma trans_nz bn : 0 <= bn < MAXFILE -> baddr v2 ad2 bn <> 0 -> baddr v3 ad3 bn = baddr v2 ad2 bn.
Proof. intros Hbn H0. by apply (wr_map _ _ _ _ _ _ W2). Qed.

Lemma trans_map bn : 0 <= bn < MAXFILE -> baddr v ad bn <> 0 -> baddr v3 ad3 bn = baddr v ad bn.
Proof.
  intros Hbn H0. pose proof (wr_map _ _ _ _ _ _ W1 bn Hbn H0) as E. rewrite trans_nz, E by (done || congruence). done.
Qed.

Lemma trans_keep o : 0 <= o < MAXFILE * Z.of_nat BSIZE ->
  (o < off + Z.of_nat (length c1) \/ off + Z.of_nat (length c1) + Z.of_nat (length c2) <= o) ->
  baddr v2 ad2 (o / Z.of_nat BSIZE) <> 0 -> fbyte v3 ad3 o = fbyte v2 ad2 o.
Proof. intros Ho Hout. by apply (wr_keep _ _ _ _ _ _ W2). Qed.

Lemma trans_bytes j : (j < length (c1 ++ c2))%nat -> fbyte v3 ad3 (off + Z.of_nat j) = (c1 ++ c2) !!! j.
Proof.
  intros Hj. rewrite length_app in *. destruct (decide (j < length c1)%nat) as [H1|H1].
  - rewrite lookup_total_app_l by done. rewrite trans_keep; [by apply (wr_bytes _ _ _ _ _ _ W1)|lia|lia|].
    apply (wr_hole _ _ _ _ _ _ W1); [apply Z.div_le_mono; unfold BSIZE; lia|].
    pose proof (Z.mul_div_le (off + Z.of_nat j) (Z.of_nat BSIZE) eq_refl). lia.
  - rewrite lookup_total_app_r by lia. rewrite <- (wr_bytes _ _ _ _ _ _ W2) by lia. f_equal. lia.
Qed.

Lemma trans_hole : no_hole v3 ad3 off (off + Z.of_nat (length (c1 ++ c2))).
Proof.
  intros bn H1 H2. assert (0 <= bn < MAXFILE) as Hbn.
  { pose proof (Z.div_pos off (Z.of_nat BSIZE) Hoff eq_refl). unfold BSIZE in *. lia. }
  rewrite length_app in H2. destruct (decide (bn * Z.of_nat BSIZE < off + Z.of_nat (length c1))) as [Hl|Hl].
  - pose proof (wr_hole _ _ _ _ _ _ W1 bn H1 Hl). by rewrite trans_nz.
  - apply (wr_hole _ _ _ _ _ _ W2); [|lia]. apply Z.div_le_upper_bound; [done|lia].
Qed.

Lemma trans_unused a : live v3 a -> used v2 a = false -> used v a = false.
Proof.
  intros Hl Hu. assert (length v3 = length v) as E by (destruct W1, W2; congruence).
  pose proof (live_range sb v3 ltac:(by rewrite E) ltac:(by rewrite E) _ Hl) as [Hr _].
  destruct (used v a) eqn:Hv; [|done]. by rewrite (wr_used _ _ _ _ _ _ W1 a Hr Hv) in Hu.
Qed.

Lemma trans_fresh bn : 0 <= bn < MAXFILE -> baddr v ad bn = 0 -> baddr v3 ad3 bn = 0 \/ used v (baddr v3 ad3 bn) = false.
Proof.
  intros Hbn H0. destruct (decide (baddr v3 ad3 bn = 0)) as [?|H3]; [by left|]. right.
  destruct (decide (baddr v2 ad2 bn = 0)) as [H2|H2].
  - destruct (fk_live _ _ _ (wr_file _ _ _ _ _ _ W2) bn Hbn H3) as [Hl _].
    apply trans_unused; [done|]. by destruct (wr_fresh _ _ _ _ _ _ W2 bn Hbn H2).
  - rewrite trans_nz by done. by destruct (wr_fresh _ _ _ _ _ _ W1 bn Hbn H0).
Qed.

Lemma trans_zero o : 0 <= o < MAXFILE * Z.of_nat BSIZE -> (o < off \/ off + Z.of_nat (length (c1 ++ c2)) <= o) ->
  baddr v ad (o / Z.of_nat BSIZE) = 0 -> baddr v3 ad3 (o / Z.of_nat BSIZE) <> 0 -> fbyte v3 ad3 o = 0.
Proof.
  intros Ho Hout H0 H3. rewrite length_app in Hout. destruct (decide (baddr v2 ad2 (o / Z.of_nat BSIZE) = 0)) as [H2|H2].
  - apply (wr_zero _ _ _ _ _ _ W2); [done|lia|done|done].
  - rewrite trans_keep by (done || lia). apply (wr_zero _ _ _ _ _ _ W1); [done|lia|done|done].
Qed.

Lemma trans_other a : live v a -> a <> indirect ad -> (forall bn, 0 <= bn < MAXFILE -> baddr v ad bn <> a) ->
  v3 !! Z.to_nat a = v !! Z.to_nat a.
Proof.
  intros Hl Hi Hb. rewrite <- (wr_other _ _ _ _ _ _ W1 a Hl Hi Hb). pose proof (live_range sb v Ly G _ Hl) as [Hr _].
  destruct Hl as [Hd Hu]. apply (wr_other _ _ _ _ _ _ W2).
  - split; [done|]. by apply (wr_used _ _ _ _ _ _ W1).
  - destruct (wr_ind _ _ _ _ _ _ W1) as [->|[_ E]]; [done|]. congruence.
  - intros bn Hbn. destruct (decide (baddr v ad bn = 0)) as [H0|H0].
    + destruct (wr_fresh _ _ _ _ _ _ W1 bn Hbn H0) as [->|E]; [rewrite <- H0; by apply Hb|congruence].
    + rewrite (wr_map _ _ _ _ _ _ W1 bn Hbn H0). by apply Hb.
Qed.

Lemma trans_ind : indirect ad3 = indirect ad \/ indirect ad = 0 /\ used v (indirect ad3) = false.
Proof.
  destruct (wr_ind _ _ _ _ _ _ W2) as [->|[H0 E]]; [apply (wr_ind _ _ _ _ _ _ W1)|].
  destruct (decide (indirect ad3 = 0)) as [H3|H3].
  - left. destruct (wr_ind _ _ _ _ _ _ W1) as [<-|[-> _]]; congruence.
  - right. split; [by destruct (wr_ind _ _ _ _ _ _ W1) as [<-|[-> _]]|].
    apply trans_unused; [|done]. by apply (fk_ind _ _ _ (wr_file _ _ _ _ _ _ W2)).
Qed.

Lemma trans_acct c : 0 <= c < sb_size sb -> used v3 c = true -> used v c = true \/ has_block v3 ad3 c.
Proof.
  intros Hc H3. destruct (wr_acct _ _ _ _ _ _ W2 c Hc H3) as [H2|?]; [|by right].
  destruct (wr_acct _ _ _ _ _ _ W1 c Hc H2) as [?|[H0 Hb]]; [by left|]. right. split; [done|]. destruct Hb as [->|(bn & Hbn & <-)].
  - left. by destruct (wr_ind _ _ _ _ _ _ W2) as [->|[? _]].
  - right. exists bn. split; [done|]. by apply trans_nz.
Qed.

Lemma written_trans : written v ad off (c1 ++ c2) v3 ad3.
Proof.
  split; [apply W2|destruct W1, W2; congruence|exact trans_bytes| |exact trans_map|exact trans_fresh|exact trans_zero|exact trans_hole| | |exact trans_other| |exact trans_ind| |].
  - intros o Ho Hout H0. rewrite length_app in Hout. rewrite trans_keep; [|done|lia|].
    + apply (wr_keep _ _ _ _ _ _ W1); [done|lia|done].
    + by rewrite (wr_map _ _ _ _ _ _ W1) by (done || by apply block_of).
  - intros Hh. rewrite length_app in Hh.
    assert (ad2 = ad) as E2 by (apply (wr_same _ _ _ _ _ _ W1); intros bn H1 H2; apply Hh; lia).
    rewrite <- E2. apply (wr_same _ _ _ _ _ _ W2). intros bn H1 H2.
    assert (off / Z.of_nat BSIZE <= bn) as H3 by (etransitivity; [|exact H1]; apply Z.div_le_mono; unfold BSIZE; lia).
    pose proof (Z.div_pos off (Z.of_nat BSIZE) Hoff eq_refl). rewrite length_app in Hmax.
    rewrite (wr_map _ _ _ _ _ _ W1); [|unfold BSIZE in *; lia|]; apply Hh; lia.
  - intros c Hc Hu. apply (wr_used _ _ _ _ _ _ W2); [done|]. by apply (wr_used _ _ _ _ _ _ W1).
  - intros a Ha. rewrite (wr_meta _ _ _ _ _ _ W2) by done. by apply (wr_meta _ _ _ _ _ _ W1).
  - exact trans_acct.
  - intros lo hi. rewrite length_app, Nat2Z.inj_add. intros [C1 C2]%covers_app; [|lia..]. etransitivity; [by apply (wr_spare _ _ _ _ _ _ W1)|by apply (wr_spare _ _ _ _ _ _ W2)].
Qed.
End trans.

(** The number of blocks that [n] bytes at [off] touch. *)
Definition nblocks (off n : Z) : Z := (off + n + (Z.of_nat BSIZE - 1)) / Z.of_nat BSIZE - off / Z.of_nat BSIZE.

Lemma nblocks_pos off n : 0 <= off -> 0 < n -> 1 <= nblocks off n.
Proof. intros. unfold nblocks, BSIZE. Z.to_euclidean_division_equations. lia. Qed.

Lemma nblocks_next off n m : 0 <= off -> m = Z.of_nat BSIZE - off mod Z.of_nat BSIZE -> nblocks (off + m) (n - m) = nblocks off n - 1.
Proof.
  intros Ho ->. unfold nblocks. replace (off + _ + (n - _)) with (off + n) by lia. unfold BSIZE. Z.to_euclidean_division_equations. lia.
Qed.

(** The largest chunk of [filewrite]. *)
Lemma nblocks_chunk off n : 0 <= off -> 0 <= n <= 1536 -> 0 <= nblocks off n <= 4.
Proof. intros. unfold nblocks, BSIZE. Z.to_euclidean_division_equations. lia. Qed.

Lemma file_uint v ad : layout sb (length v) -> geometry sb (length v) -> Z.of_nat (length v) <= FSSIZE -> file_ok v ad -> Forall uint ad.
Proof.
  intros Ly G Hsz Fk. apply Forall_lookup. intros i a Hi. pose proof (lookup_lt_Some _ _ _ Hi) as Hl. rewrite (fk_len _ _ _ Fk) in Hl.
  assert (a = 0 \/ live v a) as [->|Hlv].
  { destruct (decide (a = 0)) as [?|H0]; [by left|right]. apply list_lookup_total_correct in Hi. destruct (decide (i = 12%nat)) as [->|Hne].
    - change (indirect ad = a) in Hi. subst a. by apply (fk_ind _ _ _ Fk).
    - assert (baddr v ad (Z.of_nat i) = a) as E by (unfold baddr, NDIRECT; rewrite (proj2 (Z.ltb_lt _ 12)), Nat2Z.id by lia; done).
      rewrite <- E. apply (fk_live _ _ _ Fk); [unfold MAXFILE, NDIRECT, NINDIRECT; lia|congruence]. }
  - unfold uint. lia.
  - pose proof (live_range sb v Ly G _ Hlv). pose proof (ly_size _ _ Ly). unfold uint, FSSIZE in *. lia.
Qed.

Lemma written_all v ad sz0 off src v' ad' : 0 <= off -> 0 <= sz0 <= MAXFILE * Z.of_nat BSIZE ->
  off <= sz0 -> off + Z.of_nat (length src) <= MAXFILE * Z.of_nat BSIZE ->
  no_hole v ad 0 sz0 -> written v ad off src v' ad' ->
  let sz := Z.max sz0 (off + Z.of_nat (length src)) in
  no_hole v' ad' 0 sz /\
  forall o, 0 <= o < sz -> fbyte v' ad' o =
    if decide (off <= o < off + Z.of_nat (length src)) then src !!! Z.to_nat (o - off) else fbyte v ad o.
Proof.
  intros Hoff Hs Hle Hmax Hh W sz. split.
  - intros bn H1 H2. change (0 / Z.of_nat BSIZE) with 0 in H1. assert (0 <= bn < MAXFILE) by (unfold BSIZE in *; lia).
    destruct (decide (bn * Z.of_nat BSIZE < sz0)) as [Hl|Hl].
    + rewrite (wr_map _ _ _ _ _ _ W); [|done|]; by apply Hh.
    + apply (wr_hole _ _ _ _ _ _ W); [|lia]. apply Z.div_le_upper_bound; [done|lia].
  - intros o Ho. case_decide as Hd.
    + rewrite <- (wr_bytes _ _ _ _ _ _ W) by lia. f_equal. lia.
    + apply (wr_keep _ _ _ _ _ _ W); [unfold sz in *; lia|lia|]. apply Hh.
      * change (0 / Z.of_nat BSIZE) with 0. apply Z.div_pos; [lia|done].
      * pose proof (Z.mul_div_le o (Z.of_nat BSIZE) eq_refl). unfold sz in *. lia.
Qed.

(** A block of the inode area is stored: files stay. *)
Section meta.
Context (v : list block) (ad : list Z) (a : Z) (x : block).
Hypothesis Ly : layout sb (length v).
Hypothesis G : geometry sb (length v).
Hypothesis Ha : 0 <= a < sb_bmapstart sb.
Hypothesis Fk : file_ok v ad.
Abbreviation v' := (<[Z.to_nat a := x]> v).

Lemma meta_used c : 0 <= c < sb_size sb -> used v' c = used v c.
Proof. intros Hc. apply (used_insert_data sb (length v)); [done..|lia|]. left. lia. Qed.

Lemma meta_live c : live v' c <-> live v c.
Proof.
  pose proof (meta_pos _ _ Ly G). split; intros [[Hc1 Hc2] Hu]; (split; [done|]); [by rewrite meta_used in Hu by lia|by rewrite meta_used by lia].
Qed.

Lemma meta_lookup c : live v c -> v' !!! Z.to_nat c = v !!! Z.to_nat c.
Proof. intros [[Hc1 Hc2] _]. pose proof (meta_pos _ _ Ly G). apply list_lookup_total_insert_ne. lia. Qed.

Lemma meta_baddr bn : baddr v' ad bn = baddr v ad bn.
Proof.
  unfold baddr. destruct (_ <? _); [done|]. destruct (Z.eqb_spec (indirect ad) 0) as [|H0]; [done|]. by rewrite meta_lookup by (by apply (fk_ind _ _ _ Fk)).
Qed.

Lemma meta_has c : has_block v' ad c <-> has_block v ad c.
Proof. unfold has_block. by setoid_rewrite meta_baddr. Qed.

Lemma meta_file : file_ok v' ad.
Proof.
  destruct Fk as [Hl I V J]. split; [done|intros H0; by apply meta_live, I|..].
  - intros bn Hbn. rewrite meta_baddr. intros H0. destruct (V bn Hbn H0). split; [by apply meta_live|done].
  - intros bn bn' Hbn Hbn'. rewrite !meta_baddr. by apply J.
Qed.

Lemma meta_fbyte o : 0 <= o < MAXFILE * Z.of_nat BSIZE -> baddr v ad (o / Z.of_nat BSIZE) <> 0 -> fbyte v' ad o = fbyte v ad o.
Proof.
  intros Ho H0. unfold fbyte. rewrite meta_baddr. rewrite meta_lookup; [done|]. apply (fk_live _ _ _ Fk); [by apply block_of|done].
Qed.
End meta.

(** ** Other files *)

(** The blocks of a file that was written: the old ones, and some that were free. *)
Lemma written_new v ad off src v' ad' a : written v ad off src v' ad' -> has_block v' ad' a -> has_block v ad a \/ used v a = false.
Proof.
  intros W [H0 [->|(bn & Hbn & <-)]].
  - destruct (wr_ind _ _ _ _ _ _ W) as [E|[_ ?]]; [|by right]. left. split; [done|by left].
  - destruct (decide (baddr v ad bn = 0)) as [Hz|Hz].
    + destruct (wr_fresh _ _ _ _ _ _ W bn Hbn Hz); [done|by right].
    + left. rewrite (wr_map _ _ _ _ _ _ W) in * by done. split; [done|]. right. by exists bn.
Qed.

Lemma written_old v ad off src v' ad' a : written v ad off src v' ad' -> has_block v ad a -> has_block v' ad' a.
Proof.
  intros W [H0 [->|(bn & Hbn & <-)]]; (split; [done|]).
  - left. by destruct (wr_ind _ _ _ _ _ _ W) as [->|[? _]].
  - right. exists bn. split; [done|]. by apply (wr_map _ _ _ _ _ _ W).
Qed.

(** A file without blocks. *)
Lemma no_addrs v bn : baddr v (replicate 13 0) bn = 0.
Proof. unfold baddr, NDIRECT. destruct (Z.ltb_spec bn 12); [|done]. apply lookup_total_replicate_2. lia. Qed.

Lemma no_blocks v a : ~ has_block v (replicate 13 0) a.
Proof. intros [H0 [->|(bn & _ & <-)]]; [done|]. by rewrite no_addrs in H0. Qed.

Lemma file_ok_empty v : file_ok v (replicate 13 0).
Proof. split; [done|done|..]; intros bn; [|intros bn']; rewrite no_addrs; done. Qed.

(** Two files share no block. *)
Definition apart (v : list block) (ad1 ad2 : list Z) : Prop := forall a, has_block v ad1 a -> ~ has_block v ad2 a.

Lemma apart_sym v ad1 ad2 : apart v ad1 ad2 -> apart v ad2 ad1.
Proof. intros H a H2 H1. by eapply H. Qed.

Lemma has_live v ad a : file_ok v ad -> has_block v ad a -> live v a.
Proof.
  intros Fk [H0 [->|(bn & Hbn & <-)]]; [by apply (fk_ind _ _ _ Fk)|by apply (fk_live _ _ _ Fk)].
Qed.

(** A file whose blocks are kept is kept. *)
Section kept.
Context (v v' : list block) (ad : list Z).
Hypothesis Fk : file_ok v ad.
Hypothesis Hk : forall a, has_block v ad a -> v' !! Z.to_nat a = v !! Z.to_nat a /\ live v' a.

Lemma kept_baddr bn : baddr v' ad bn = baddr v ad bn.
Proof using Hk.
  unfold baddr. destruct (_ <? _); [done|]. destruct (Z.eqb_spec (indirect ad) 0) as [|H0]; [done|].
  destruct (Hk (indirect ad)) as [E _]; [split; [done|by left]|]. by rewrite !list_lookup_total_alt, E.
Qed.

Lemma kept_has a : has_block v' ad a <-> has_block v ad a.
Proof using Hk. unfold has_block. by setoid_rewrite kept_baddr. Qed.

Lemma kept_file : file_ok v' ad.
Proof using Fk Hk.
  destruct Fk as [Hl I V J]. split; [done|..].
  - intros H0. apply Hk. split; [done|by left].
  - intros bn Hbn. rewrite kept_baddr. intros H0. split; [|by apply V]. apply Hk. split; [done|]. right. by exists bn.
  - intros x y Hx Hy. rewrite !kept_baddr. by apply J.
Qed.

Lemma kept_fbyte o : 0 <= o < MAXFILE * Z.of_nat BSIZE -> baddr v ad (o / Z.of_nat BSIZE) <> 0 -> fbyte v' ad o = fbyte v ad o.
Proof using Hk.
  intros Ho H0. unfold fbyte. rewrite kept_baddr. destruct (Hk (baddr v ad (o / Z.of_nat BSIZE))) as [E _].
  { split; [done|]. right. eexists. split; [by apply block_of|done]. }
  by rewrite !list_lookup_total_alt, E.
Qed.

Lemma kept_hole lo hi : no_hole v ad lo hi -> no_hole v' ad lo hi.
Proof using Hk. intros Hh bn H1 H2. rewrite kept_baddr. by apply Hh. Qed.
End kept.

Section frame.
Context (v : list block) (ad : list Z) (off : Z) (src : list Z) (v' : list block) (ad' ad2 : list Z).
Hypothesis Ly : layout sb (length v).
Hypothesis G : geometry sb (length v).
Hypothesis W : written v ad off src v' ad'.
Hypothesis Fk2 : file_ok v ad2.
Hypothesis Hap : apart v ad2 ad.

Lemma frame_block a : has_block v ad2 a -> v' !! Z.to_nat a = v !! Z.to_nat a /\ live v' a.
Proof.
  intros Ha. pose proof (has_live v ad2 a Fk2 Ha) as Hl. pose proof (Hap a Ha) as Hn. pose proof (live_range sb v Ly G a Hl) as [Hr _].
  split; [|split; [apply Hl|apply (wr_used _ _ _ _ _ _ W); [done|apply Hl]]].
  apply (wr_other _ _ _ _ _ _ W); [done|..].
  - intros ->. apply Hn. split; [apply Ha|by left].
  - intros bn Hbn <-. apply Hn. split; [apply Ha|]. right. by exists bn.
Qed.

Lemma frame_baddr bn : baddr v' ad2 bn = baddr v ad2 bn.
Proof. exact (kept_baddr v v' ad2 frame_block bn). Qed.

Lemma frame_has a : has_block v' ad2 a <-> has_block v ad2 a.
Proof. exact (kept_has v v' ad2 frame_block a). Qed.

Lemma frame_file : file_ok v' ad2.
Proof. exact (kept_file v v' ad2 Fk2 frame_block). Qed.

Lemma frame_fbyte o : 0 <= o < MAXFILE * Z.of_nat BSIZE -> baddr v ad2 (o / Z.of_nat BSIZE) <> 0 -> fbyte v' ad2 o = fbyte v ad2 o.
Proof. exact (kept_fbyte v v' ad2 frame_block o). Qed.

(** They stay apart: what is added was free. *)
Lemma frame_apart : apart v' ad2 ad'.
Proof.
  intros a Ha%frame_has [H0 Ha']. pose proof (Hap a Ha) as Hn. pose proof (has_live v ad2 a Fk2 Ha) as [_ Hu].
  destruct Ha' as [Ei|(bn & Hbn & Eb)].
  - destruct (wr_ind _ _ _ _ _ _ W) as [E|[_ E]]; [|congruence]. apply Hn. split; [done|]. left. congruence.
  - destruct (decide (baddr v ad bn = 0)) as [Hz|Hz].
    + destruct (wr_fresh _ _ _ _ _ _ W bn Hbn Hz); congruence.
    + apply Hn. split; [done|]. right. exists bn. split; [done|]. rewrite <- Eb. symmetry. by apply (wr_map _ _ _ _ _ _ W).
Qed.
End frame.
End map.
