(* ===== verification/Dir.v ===== *)
(** * Directories and path names ([fs.c]): what [dirlookup] and [namex] find.

    The inode cache is seen as a map from inode numbers to reference counts,
    a directory as the list of its entries, a path as the list of its elements;
    [namex] then is a walk over the directories on the disk. *)

From Stdlib Require Import String.
From stdpp Require Import gmap.
From S2P Require Import Prelude CString Params Bio Log Trans Fs Balloc Inode Content.
Local Open Scope Z_scope.

(** ** The inode cache as a map *)

Definition irefs (l : list inode) : gmap Z Z :=
  foldr (fun x m => if 0 <? i_ref x then <[i_inum x := i_ref x]> m else m) ∅ l.

(** Taking and dropping a reference. *)
Definition ref_get (n : Z) (m : gmap Z Z) : gmap Z Z := <[n := default 0 (m !! n) + 1]> m.
Definition ref_put (n : Z) (m : gmap Z Z) : gmap Z Z :=
  if 1 <? default 0 (m !! n) then <[n := default 0 (m !! n) - 1]> m else delete n m.

Definition positive (m : gmap Z Z) : Prop := forall n r, m !! n = Some r -> 0 < r.

Lemma ref_put_get n m : positive m -> ref_put n (ref_get n m) = m.
Proof.
  intros Hm. unfold ref_put, ref_get. rewrite lookup_insert_eq, insert_insert_eq. cbn [default from_option id].
  destruct (m !! n) as [r|] eqn:E; cbn.
  - pose proof (Hm _ _ E). rewrite (proj2 (Z.ltb_lt _ _)) by lia. replace (r + 1 - 1) with r by lia. by apply insert_id.
  - by apply delete_insert_id.
Qed.

Lemma ref_get_comm n n' m : ref_get n (ref_get n' m) = ref_get n' (ref_get n m).
Proof.
  unfold ref_get. destruct (decide (n = n')) as [->|]; [done|]. rewrite !lookup_insert_ne by done. by apply insert_insert_ne.
Qed.

Lemma ref_get_positive n m : positive m -> positive (ref_get n m).
Proof.
  intros Hm i r. unfold ref_get. intros [[_ <-]|[_ Hi]]%lookup_insert_Some; [|by eapply Hm].
  destruct (m !! n) as [q|] eqn:E; cbn; [|lia]. pose proof (Hm _ _ E). lia.
Qed.

Lemma size_ref_get n m : (size (ref_get n m) <= S (size m))%nat.
Proof. unfold ref_get. rewrite map_size_insert. destruct (m !! n); cbn; lia. Qed.

Definition uniq (l : list inode) : Prop :=
  forall i j x y, l !! i = Some x -> l !! j = Some y -> 0 < i_ref x -> 0 < i_ref y -> i_inum x = i_inum y -> i = j.

Lemma uniq_tail x l : uniq (x :: l) -> uniq l.
Proof. intros H i j a b Hi Hj Ha Hb E. pose proof (H (S i) (S j) a b Hi Hj Ha Hb E). lia. Qed.

Lemma irefs_in l n r : irefs l !! n = Some r -> exists j x, l !! j = Some x /\ 0 < i_ref x /\ i_inum x = n /\ i_ref x = r.
Proof.
  induction l as [|x l IH]; cbn; [by rewrite lookup_empty|]. intros H.
  assert (irefs l !! n = Some r -> exists j z, (x :: l) !! j = Some z /\ 0 < i_ref z /\ i_inum z = n /\ i_ref z = r) as Hl.
  { intros (j & z & Hz)%IH. by exists (S j), z. }
  destruct (Z.ltb_spec 0 (i_ref x)); [|by apply Hl]. apply lookup_insert_Some in H as [[<- <-]|[_ H]]; [|by apply Hl].
  by exists 0%nat, x.
Qed.

Lemma irefs_lookup l : uniq l -> forall j x, l !! j = Some x -> 0 < i_ref x -> irefs l !! i_inum x = Some (i_ref x).
Proof.
  induction l as [|y l IH]; intros U j x Hj Hx; [done|]. cbn [irefs foldr]. destruct j as [|j].
  - injection Hj as ->. rewrite (proj2 (Z.ltb_lt _ _)) by done. by rewrite lookup_insert_eq.
  - specialize (IH (uniq_tail _ _ U) j x Hj Hx). destruct (Z.ltb_spec 0 (i_ref y)); [|done]. rewrite lookup_insert_ne; [done|].
    intros E. pose proof (U 0%nat (S j) y x eq_refl Hj ltac:(done) Hx E). lia.
Qed.

Lemma irefs_positive l : positive (irefs l).
Proof. intros n r (j & x & _ & H & _ & <-)%irefs_in. done. Qed.

Lemma irefs_full l : uniq l -> (forall j x, l !! j = Some x -> 0 < i_ref x) -> size (irefs l) = length l.
Proof.
  induction l as [|x l IH]; intros U Hall; [done|]. cbn [irefs foldr length]. pose proof (Hall 0%nat x eq_refl).
  rewrite (proj2 (Z.ltb_lt _ _)) by done. fold (irefs l). rewrite map_size_insert_None.
  - f_equal. apply IH; [by eapply uniq_tail|]. intros j y Hj. by apply (Hall (S j)).
  - destruct (irefs l !! i_inum x) as [r|] eqn:E; [|done]. apply irefs_in in E as (j & y & Hj & Hy & En & _).
    pose proof (U 0%nat (S j) x y eq_refl Hj ltac:(done) Hy ltac:(done)). lia.
Qed.

(** Entry [ip] becomes [y]; no other entry has its inode. *)
Definition lone (l : list inode) (ip : nat) (n : Z) : Prop :=
  forall j z, l !! j = Some z -> 0 < i_ref z -> i_inum z = n -> j = ip.

Lemma uniq_insert l ip y : uniq l -> lone l ip (i_inum y) -> uniq (<[ip := y]> l).
Proof.
  intros U Ho i j a b Ha Hb Hra Hrb E. apply list_lookup_insert_Some in Ha, Hb.
  destruct Ha as [(<- & -> & _)|[Hi Ha]], Hb as [(<- & -> & _)|[Hj Hb]]; [done|..|by eapply U].
  - symmetry. by eapply Ho.
  - by eapply Ho.
Qed.

Lemma irefs_insert l ip x y : uniq l -> l !! ip = Some x -> lone l ip (i_inum y) -> (0 < i_ref x -> i_inum x = i_inum y) ->
  irefs (<[ip := y]> l) = if 0 <? i_ref y then <[i_inum y := i_ref y]> (irefs l) else delete (i_inum y) (irefs l).
Proof.
  intros U Hx Ho Hn. pose proof (uniq_insert _ _ y U Ho) as U'. pose proof (lookup_lt_Some _ _ _ Hx) as Hlt.
  assert (forall n r, n <> i_inum y -> irefs (<[ip := y]> l) !! n = Some r <-> irefs l !! n = Some r) as Hne.
  { intros n r Hne. split; intros (j & z & Hj & Hz & En & Er)%irefs_in; subst n r.
    - apply list_lookup_insert_Some in Hj as [(_ & <- & _)|[_ Hj]]; [done|]. by eapply irefs_lookup.
    - eapply irefs_lookup; [done| |done]. rewrite list_lookup_insert_ne; [exact Hj|]. intros ->. simplify_eq. by rewrite Hn in Hne. }
  apply map_eq. intros n. destruct (decide (n = i_inum y)) as [->|Hny].
  - destruct (Z.ltb_spec 0 (i_ref y)).
    + rewrite lookup_insert_eq. eapply irefs_lookup; [done| |done]. by rewrite list_lookup_insert_eq.
    + rewrite lookup_delete_eq. destruct (irefs _ !! i_inum y) as [r|] eqn:E; [|done].
      apply irefs_in in E as (j & z & Hj & Hz & En & Er). apply list_lookup_insert_Some in Hj as [(_ & <- & _)|[Hj Hz']]; [lia|].
      exfalso. apply Hj. symmetry. by eapply Ho.
  - assert (irefs (<[ip := y]> l) !! n = irefs l !! n) as -> by (apply option_eq; intros r; by apply Hne).
    destruct (_ <? _); [by rewrite lookup_insert_ne|by rewrite lookup_delete_ne].
Qed.

(** ** Directory entries *)

(** A name, as [namecmp] sees it. *)
Definition dname (name : list Z) : list Z := take DIRSIZ (cstr name).

Lemma dirent_bytes k name : Forall is_byte name -> Forall is_byte (dirent k name).
Proof. intros Hn. unfold dirent. apply Forall_app. split; [auto with xv6|by apply strncpy_bytes_bytes]. Qed.

Lemma length_dirent k name : length (dirent k name) = 16%nat.
Proof. unfold dirent. by rewrite length_app, length_le_bytes, length_strncpy_bytes. Qed.

Lemma dirent_inum n name : 0 <= n < 65536 -> de_inum (dirent n name) = n.
Proof.
  intros Hn. unfold de_inum, dirent, get_u16, slice. rewrite drop_0, take_app_length' by (by rewrite length_le_bytes).
  rewrite le_val_bytes; unfold u16; rewrite Z.mod_small; done.
Qed.

Lemma dirent_name n name : dname (de_name (dirent n name)) = dname name.
Proof.
  unfold de_name, dirent, dname. rewrite drop_app_length' by (by rewrite length_le_bytes). by rewrite strncpy_bytes_cstr, take_take, Nat.min_id.
Qed.

Section dirs.
Context `{BD : !BlockDevice} `{DS : !Devsw}.
Context (sb : superblock) (k : disk) (pid w : Z).
Local Notation fs_ok := (fs_ok sb k pid w).
Local Notation dinode_at := (dinode_at sb).
Local Notation is_inum := (is_inum sb).

(** ** The cache holds copies of the inodes on disk *)

Record entry_ok (v : list block) (x : inode) : Prop := {
  en_ref : 0 <= i_ref x;
  en_dev : 0 < i_ref x -> i_dev x = ROOTDEV;
  en_inum : 0 < i_ref x -> is_inum (i_inum x);
  en_copy : 0 < i_ref x -> i_valid x = true -> i_din x = dinode_at v (i_inum x);
}.

(** Every entry is unlocked, but for those of [lk]. *)
Record icached (v : list block) (lk : list nat) (l : list inode) : Prop := {
  id_uniq : uniq l;
  id_entry : forall j x, l !! j = Some x -> entry_ok v x;
  id_lock : forall j x, l !! j = Some x -> j ∉ lk -> sl_locked (i_lock x) = false;
}.

Lemma icached_insert v lk lk' l ip y :
  icached v lk l -> lone l ip (i_inum y) -> entry_ok v y -> (ip ∉ lk' -> sl_locked (i_lock y) = false) ->
  (forall j, j <> ip -> j ∉ lk' -> j ∉ lk) -> icached v lk' (<[ip := y]> l).
Proof.
  intros [U E K] Ho Hy Hlk Hj. split; [by apply uniq_insert|..].
  - intros j x [(_ & <- & _)|[_ Hx]]%list_lookup_insert_Some; [done|by eapply E].
  - intros j x [(-> & <- & _)|[Hne Hx]]%list_lookup_insert_Some Hn; [by apply Hlk|]. apply (K j x Hx). by apply Hj.
Qed.

Lemma icached_lk v lk lk' l : (forall j, j ∉ lk' -> j ∉ lk) -> icached v lk l -> icached v lk' l.
Proof. intros H [U E K]. split; [done..|]. intros j x Hx Hj. by apply (K j x Hx), H. Qed.

Lemma uniq_lone l ip x : uniq l -> l !! ip = Some x -> 0 < i_ref x -> lone l ip (i_inum x).
Proof. intros U Hx Hr j z Hj Hz E. by eapply U. Qed.

(** [iget] on a consistent cache: the reference count of the inode goes up. *)
Definition got (v : list block) (lk : list nat) (n : Z) (l : list inode) (ip : nat) (l' : list inode) : Prop :=
  irefs l' = ref_get n (irefs l) /\ icached v lk l' /\
  exists x y, l !! ip = Some x /\ l' = <[ip := y]> l /\ caches ROOTDEV n y /\
    (y = set_ref (i_ref x + 1) x \/ i_ref x = 0 /\ y = mkInode ROOTDEV n 1 (i_lock x) false (i_din x)).

Lemma got_old v lk n l ip x : icached v lk l -> l !! ip = Some x -> caches ROOTDEV n x ->
  got v lk n l ip (<[ip := set_ref (i_ref x + 1) x]> l).
Proof.
  intros C Hx (Hr & Hd & Hn). pose proof (uniq_lone _ _ _ (id_uniq _ _ _ C) Hx Hr) as Ho.
  pose proof (id_entry _ _ _ C _ _ Hx) as [E1 E2 E3 E4]. split; [|split].
  - rewrite (irefs_insert l ip x); [|apply C|exact Hx|exact Ho|done]. cbn [set_ref i_ref i_inum]. rewrite (proj2 (Z.ltb_lt _ _)) by lia.
    unfold ref_get. subst n. by rewrite (irefs_lookup l (id_uniq _ _ _ C) ip x Hx Hr).
  - eapply icached_insert; [exact C|done| |exact (id_lock _ _ _ C ip x Hx)|done]. split; cbn [set_ref i_ref i_dev i_inum i_valid i_din]; intros; auto; lia.
  - eexists _, _. split_and!; [done..| |by left]. unfold caches; cbn. split_and!; [lia|done..].
Qed.

Lemma got_new v lk n l ip x : icached v lk l -> l !! ip = Some x -> i_ref x = 0 -> Forall (fun z => ~ caches ROOTDEV n z) l -> is_inum n ->
  got v lk n l ip (<[ip := mkInode ROOTDEV n 1 (i_lock x) false (i_din x)]> l).
Proof.
  intros C Hx H0 Hall Hn. rewrite Forall_lookup in Hall.
  assert (forall j z, l !! j = Some z -> 0 < i_ref z -> i_inum z <> n) as Hno.
  { intros j z Hj Hz E. apply (Hall _ _ Hj). split_and!; [done|by apply (en_dev v); [by eapply id_entry|]|done]. }
  assert (lone l ip n) as Ho by (intros j z Hj Hz E; by edestruct Hno). split; [|split].
  - rewrite (irefs_insert l ip x); [|apply C|done..|lia]. cbn [i_ref i_inum]. change (0 <? 1) with true. unfold ref_get.
    destruct (irefs l !! n) as [r|] eqn:E; [|done]. apply irefs_in in E as (j & z & Hj & Hz & En & _). by edestruct Hno.
  - eapply icached_insert; [exact C|done| |exact (id_lock _ _ _ C ip x Hx)|done]. by split; cbn.
  - eexists _, _. split_and!; [done..|by split_and!|by right].
Qed.

Lemma iget_ok s v lk n (Q : nat -> fs -> Prop) :
  icached v lk (f_inodes s) -> is_inum n -> (size (irefs (f_inodes s)) < length (f_inodes s))%nat ->
  (forall ip l', got v lk n (f_inodes s) ip l' -> Q ip (mkFs (f_l s) l' (f_sb s))) ->
  wp (iget ROOTDEV n) Q s.
Proof.
  intros C Hn Hsz HQ. unfold iget. apply wp_bind, wp_get. pose proof (iget_scan_spec ROOTDEV n (f_inodes s) 0 None) as H.
  assert (Hat : forall j x, f_inodes s !! j = Some x -> inode_at s j = x) by (intros; by apply list_lookup_total_correct).
  destruct (iget_scan (f_inodes s) 0 None ROOTDEV n) as [[ip|] e].
  - destruct H as (j & x & -> & Hx & Hc). apply wp_bind, wp_upd_inode, wp_ret, HQ. cbn [Nat.add]. rewrite (Hat _ _ Hx). by apply got_old.
  - destruct H as [Hall He]. destruct e as [r|].
    + destruct He as [?|(j & x & -> & Hx & Hr)]; [done|]. apply wp_bind, wp_upd_inode, wp_ret, HQ. cbn [Nat.add].
      rewrite (Hat _ _ Hx). by apply got_new.
    + exfalso. destruct He as [_ Hr]. rewrite Forall_lookup in Hr. rewrite irefs_full in Hsz; [lia|apply C|].
      intros j x Hx. pose proof (Hr j x Hx). pose proof (en_ref _ _ (id_entry _ _ _ C _ _ Hx)). lia.
Qed.

Lemma irefs_same v lk l ip x y : icached v lk l -> l !! ip = Some x -> 0 < i_ref x -> i_inum y = i_inum x -> i_ref y = i_ref x ->
  irefs (<[ip := y]> l) = irefs l.
Proof.
  intros C Hx Hr Ei Er. pose proof (uniq_lone _ _ _ (id_uniq _ _ _ C) Hx Hr) as Ho.
  rewrite (irefs_insert l ip x); [|apply C|done|by rewrite Ei|done]. rewrite Ei, Er, (proj2 (Z.ltb_lt _ _)) by done.
  apply insert_id. eapply irefs_lookup; [apply C|done..].
Qed.

(** Entry [ip] is locked by this process and holds inode [n]. *)
Record held (v : list block) (n : Z) (ip : nat) (x : inode) : Prop := {
  he_caches : caches ROOTDEV n x;
  he_lock : i_lock x = mkSleeplock true pid;
  he_valid : i_valid x = true;
  he_din : i_din x = dinode_at v n;
}.

Lemma ilock_cached s v L lk n ip x (Q : unit -> fs -> Prop) :
  fs_ok s v L ∅ -> layout sb (length v) -> (length L < NBUF)%nat -> icached v lk (f_inodes s) -> ip ∉ lk -> f_inodes s !! ip = Some x ->
  caches ROOTDEV n x -> di_type (dinode_at v n) <> 0 ->
  (forall s' y, fs_ok s' v L ∅ -> icached v (ip :: lk) (f_inodes s') -> f_inodes s' = <[ip := y]> (f_inodes s) ->
     irefs (f_inodes s') = irefs (f_inodes s) -> held v n ip y -> Q tt s') ->
  wp (ilock ip) Q s.
Proof.
  intros F Ly HL C Hlk Hx (Hr & Hd & Hn) Ht HQ. assert (inode_at s ip = x) as Ex by (by apply list_lookup_total_correct).
  pose proof (id_entry _ _ _ C _ _ Hx) as En. pose proof (lookup_lt_Some _ _ _ Hx) as Hlt. rewrite (fo_inodes _ _ _ _ _ _ _ _ F) in Hlt.
  eapply wp_wpe; [eapply wpe_mono; [apply (ilock_ok sb k pid w s v L ∅ ip F Ly); rewrite ?Ex| |intros e He; exact He]|].
  - rewrite map_size_empty. lia.
  - done.
  - lia.
  - exact (id_lock _ _ _ C _ _ Hx Hlk).
  - done.
  - by apply (en_inum _ _ En).
  - apply lookup_empty.
  - intros [] s' (F' & Ei & _). rewrite Ex in Ei. eapply HQ; [done|..]; [|exact Ei|..]; rewrite ?Ei.
    + eapply icached_insert; [exact C|exact (uniq_lone _ _ _ (id_uniq _ _ _ C) Hx Hr)| |set_solver|set_solver].
      destruct En as [E1 E2 E3 E4]. split; cbn; [done..|]. intros _ _. destruct (i_valid x) eqn:Ev; [by apply E4|done].
    + by eapply irefs_same.
    + split; cbn; [by split_and!|done|done|]. rewrite <- Hn. destruct (i_valid x) eqn:Ev; [by apply (en_copy _ _ En)|done].
  - intros e (_ & _ & H0). rewrite Ex, Hn in H0. done.
Qed.

(** The entry [y] is [x] with one reference less. *)
Definition less_ref (x y : inode) : Prop := i_dev y = i_dev x /\ i_inum y = i_inum x /\ i_ref y = i_ref x - 1.

(** The inode is still linked, or referred to. *)
Lemma iput_kept s v L lk n ip x (Q : unit -> fs -> Prop) :
  fs_ok s v L ∅ -> icached v lk (f_inodes s) -> ip ∉ lk -> f_inodes s !! ip = Some x -> caches ROOTDEV n x -> di_nlink (dinode_at v n) <> 0 \/ i_ref x <> 1 ->
  (forall s' y, fs_ok s' v L ∅ -> icached v lk (f_inodes s') -> irefs (f_inodes s') = ref_put n (irefs (f_inodes s)) ->
     f_inodes s' = <[ip := y]> (f_inodes s) -> less_ref x y -> Q tt s') ->
  wp (iput ip) Q s.
Proof.
  intros F C Hlk Hx (Hr & Hd & Hn) Hl HQ. assert (inode_at s ip = x) as Ex by (by apply list_lookup_total_correct).
  pose proof (id_entry _ _ _ C _ _ Hx) as En. pose proof (lookup_lt_Some _ _ _ Hx) as Hlt.
  unfold iput. apply wp_bind, wp_get, wp_bind. unfold with_ilock. apply wp_zoom. rewrite Ex. unfold acquiresleep. wp_steps.
  rewrite (id_lock _ _ _ C _ _ Hx Hlk). wp_steps. unfold din. rewrite !inode_at_insert by done. cbn [i_valid set_ilock i_din].
  destruct (i_valid x && _ && _) eqn:Eb.
  { exfalso. apply andb_prop in Eb as [[Ev E0]%andb_prop Er]. rewrite (en_copy _ _ En), Hn in E0 by done. cbn [i_ref set_ilock] in Er. lia. }
  wp_steps. unfold releasesleep. wp_steps. apply wp_upd_inode. cbn [f_inodes f_l f_sb]. rewrite !inode_at_insert by (by rewrite ?length_insert).
  rewrite !list_insert_insert_eq. pose proof (uniq_lone _ _ _ (id_uniq _ _ _ C) Hx Hr) as Ho.
  eapply HQ; cbn [f_inodes]; [..|done|done].
  - apply fs_set_inodes; [done|]. rewrite length_insert. apply (fo_inodes _ _ _ _ _ _ _ _ F).
  - eapply icached_insert; [exact C|exact Ho| |done|done]. destruct En as [E1 E2 E3 E4]. split; cbn; intros; auto; lia.
  - rewrite (irefs_insert _ ip x); [|apply C|done|exact Ho|done]. cbn. subst n. unfold ref_put.
    rewrite (irefs_lookup _ (id_uniq _ _ _ C) ip x Hx Hr). cbn.
    replace (0 <? i_ref x - 1) with (1 <? i_ref x) by (apply eq_true_iff_eq; rewrite !Z.ltb_lt; lia). done.
Qed.

Lemma iput_cached s v L lk n ip x (Q : unit -> fs -> Prop) :
  fs_ok s v L ∅ -> icached v lk (f_inodes s) -> ip ∉ lk -> f_inodes s !! ip = Some x -> caches ROOTDEV n x -> di_nlink (dinode_at v n) <> 0 ->
  (forall s' y, fs_ok s' v L ∅ -> icached v lk (f_inodes s') -> irefs (f_inodes s') = ref_put n (irefs (f_inodes s)) ->
     f_inodes s' = <[ip := y]> (f_inodes s) -> less_ref x y -> Q tt s') ->
  wp (iput ip) Q s.
Proof. intros F C Hlk Hx Hc Hl. apply (iput_kept s v L lk n ip x); [done..|by left]. Qed.

Lemma iunlock_cached s v L lk n ip x (Q : unit -> fs -> Prop) :
  fs_ok s v L ∅ -> icached v (ip :: lk) (f_inodes s) -> f_inodes s !! ip = Some x -> held v n ip x ->
  (forall s' y, fs_ok s' v L ∅ -> icached v lk (f_inodes s') -> f_inodes s' = <[ip := y]> (f_inodes s) -> caches ROOTDEV n y -> i_ref y = i_ref x /\ i_valid y = true ->
     irefs (f_inodes s') = irefs (f_inodes s) -> Q tt s') ->
  wp (iunlock ip) Q s.
Proof.
  intros F C Hx [(Hr & Hd & Hn) Hlk Hv He] HQ. assert (inode_at s ip = x) as Ex by (by apply list_lookup_total_correct).
  pose proof (lookup_lt_Some _ _ _ Hx) as Hlt. pose proof (id_entry _ _ _ C _ _ Hx) as [E1 E2 E3 E4].
  eapply iunlock_ok; [exact F|rewrite Ex; lia|by rewrite Ex|]. rewrite Ex. intros F'. eapply HQ; [exact F'|..]; cbn [f_inodes].
  - eapply icached_insert; [exact C|exact (uniq_lone _ _ _ (id_uniq _ _ _ C) Hx Hr)|by split|done|set_solver].
  - done.
  - by split_and!.
  - done.
  - by eapply irefs_same.
Qed.

Lemma iunlockput_cached s v L lk n ip x (Q : unit -> fs -> Prop) :
  fs_ok s v L ∅ -> icached v (ip :: lk) (f_inodes s) -> ip ∉ lk -> f_inodes s !! ip = Some x -> held v n ip x -> di_nlink (dinode_at v n) <> 0 ->
  (forall s' y, fs_ok s' v L ∅ -> icached v lk (f_inodes s') -> irefs (f_inodes s') = ref_put n (irefs (f_inodes s)) ->
     f_inodes s' = <[ip := y]> (f_inodes s) -> less_ref x y -> Q tt s') ->
  wp (iunlockput ip) Q s.
Proof.
  intros F C Hlk Hx He Hl HQ. pose proof (he_caches _ _ _ _ He) as (_ & Hd & Hn). pose proof (lookup_lt_Some _ _ _ Hx) as Hlt.
  unfold iunlockput. apply wp_bind. eapply iunlock_cached; [done..|]. intros s1 y F1 C1 Ey Hc [Er _] E1.
  eapply iput_cached; [done|done|done|rewrite Ey; by apply list_lookup_insert_eq|done..|]. intros s2 z F2 C2 E2 Ez (Z1 & Z2 & Z3).
  pose proof Hc as (_ & Hd' & Hn'). rewrite Ey, list_insert_insert_eq in Ez. eapply HQ; [done|done|by rewrite E2, E1|exact Ez|]. split_and!; congruence.
Qed.

(** ** Directories on disk *)

Definition entries (v : list block) (d : dinode) : list (list Z) :=
  (fun i => fbytes v (di_addrs d) (DIRENT_SIZE * Z.of_nat i) (Z.to_nat DIRENT_SIZE)) <$> seq 0 (Z.to_nat (di_size d / DIRENT_SIZE)).

Definition names (name de : list Z) : Prop := de_inum de <> 0 /\ dname (de_name de) = name.
#[export] Instance names_dec name de : Decision (names name de).
Proof. unfold names. apply _. Defined.

(** The position and the inode number of the entry called [name]. *)
Definition dir_find (v : list block) (d : dinode) (name : list Z) : option (nat * Z) :=
  prod_map id de_inum <$> list_find (names name) (entries v d).

(** An inode in use, that a directory lists. *)
Definition linked (v : list block) (n : Z) : Prop := is_inum n /\ di_type (dinode_at v n) <> 0 /\ di_nlink (dinode_at v n) <> 0.

(** The contents of a directory: whole entries, without holes, that list inodes in use. *)
Record dir_ok (v : list block) (d : dinode) : Prop := {
  dk_file : file_ok sb v (di_addrs d);
  dk_size : 0 <= di_size d <= MAXFILE * Z.of_nat BSIZE;
  dk_whole : di_size d mod DIRENT_SIZE = 0;
  dk_hole : no_hole v (di_addrs d) 0 (di_size d);
  dk_list : forall de, de ∈ entries v d -> de_inum de <> 0 -> linked v (de_inum de);
}.

Lemma fbytes_bytes v ad o n : Forall block_ok v -> Forall is_byte (fbytes v ad o n).
Proof.
  intros Hok. revert o. induction n as [|n IH]; intros o; cbn [fbytes]; constructor; [|apply IH]. unfold fbyte.
  rewrite !list_lookup_total_alt. destruct (v !! _) as [d|] eqn:E; [|by vm_compute]. cbn.
  destruct (d !! _) as [b|] eqn:Eb; [|by vm_compute]. cbn. rewrite Forall_lookup in Hok. destruct (Hok _ _ E) as [_ Hd].
  rewrite Forall_lookup in Hd. by eapply Hd.
Qed.

Lemma entries_bytes v d de : Forall block_ok v -> de ∈ entries v d -> Forall is_byte de.
Proof. intros Hok (i & -> & _)%list_elem_of_fmap. by apply fbytes_bytes. Qed.

Lemma namecmp_names name de : Forall is_byte name -> Forall is_byte de -> namecmp name (de_name de) = 0 <-> dname (de_name de) = dname name.
Proof.
  intros Hn Hd. unfold namecmp, dname. rewrite strncmp_zero; [by split; intros ->|done|]. unfold de_name. by apply Forall_drop.
Qed.

(** Entry [i] is read at its offset. *)
Lemma entries_lookup v d i : 0 <= di_size d -> di_size d mod DIRENT_SIZE = 0 -> DIRENT_SIZE * Z.of_nat i < di_size d ->
  entries v d !! i = Some (fbytes v (di_addrs d) (DIRENT_SIZE * Z.of_nat i) (Z.to_nat DIRENT_SIZE)) /\
  DIRENT_SIZE * Z.of_nat i + DIRENT_SIZE <= di_size d.
Proof.
  intros H0 Hm Hi. unfold DIRENT_SIZE in *. pose proof (Z.div_mod (di_size d) 16 ltac:(lia)). split; [|lia]. unfold entries.
  rewrite list_lookup_fmap, lookup_seq_lt by (unfold DIRENT_SIZE; lia). done.
Qed.

Lemma length_entries v d : length (entries v d) = Z.to_nat (di_size d / DIRENT_SIZE).
Proof. unfold entries. by rewrite length_fmap, length_seq. Qed.
Section lookup.
Context (v : list block) (L : list Z) (n : Z) (dp : nat) (x : inode) (l : list inode) (lk : list nat).
Context (Ly : layout sb (length v)) (HL : (length L < NBUF)%nat).
Context (C : icached v lk l) (Hx : l !! dp = Some x) (He : held v n dp x).
Local Notation d := (dinode_at v n).
Context (Hd : dir_ok v d) (Ht : di_type d = T_DIR) (Hroom : (size (irefs l) < length l)%nat).

Lemma din_held s : f_inodes s = l -> din s dp = d /\ i_dev (inode_at s dp) = ROOTDEV.
Proof using Hx He.
  intros E. unfold din, inode_at. rewrite E, (list_lookup_total_correct _ _ _ Hx). split; [apply He|apply (he_caches _ _ _ _ He)].
Qed.

(** Reading one entry. *)
Lemma read_entry {A} s i (f : Z * list Z -> M fs A) Q :
  fs_ok s v L ∅ -> f_inodes s = l -> DIRENT_SIZE * Z.of_nat i < di_size d ->
  (forall s' de, fs_ok s' v L ∅ -> f_inodes s' = l -> entries v d !! i = Some de -> wp (f (DIRENT_SIZE, de)) Q s') ->
  wp (r ← readi dp (DIRENT_SIZE * Z.of_nat i) DIRENT_SIZE; f r) Q s.
Proof using Ly HL Hx He Hd Ht.
  clear Hroom. intros F El Hi HQ. destruct (din_held s El) as [Ed Edev]. pose proof (lookup_lt_Some _ _ _ Hx) as Hlt. rewrite <- El, (fo_inodes _ _ _ _ _ _ _ _ F) in Hlt.
  destruct Hd as [D1 D2 D3 D4 _]. destruct (entries_lookup v d i ltac:(lia) D3 Hi) as [Ee Hle].
  assert (MAXFILE * Z.of_nat BSIZE = 71680) as HM by reflexivity.
  apply wp_bind. eapply (readi_ok sb k pid w s v L dp); rewrite ?Ed; [done..|by rewrite Ht|done|done|lia|done|unfold DIRENT_SIZE in *; lia|done|].
  intros l' F'. rewrite (proj2 (Z.ltb_ge _ _)), (proj2 (Z.leb_gt _ _)) by (unfold DIRENT_SIZE in *; lia). cbn [orb].
  cbv zeta. rewrite Z.min_l by lia. by apply HQ.
Qed.

Lemma dirlookup_loop_ok name (Hn : Forall is_byte name) fuel : forall s i (Q : option (nat * Z) -> fs -> Prop),
  fs_ok s v L ∅ -> f_inodes s = l -> (length (entries v d) - i < fuel)%nat ->
  (forall s', fs_ok s' v L ∅ -> f_inodes s' = l -> list_find (names (dname name)) (drop i (entries v d)) = None -> Q None s') ->
  (forall s' j de ip, fs_ok s' v L ∅ -> list_find (names (dname name)) (drop i (entries v d)) = Some (j, de) ->
     got v lk (de_inum de) l ip (f_inodes s') -> Q (Some (ip, DIRENT_SIZE * Z.of_nat (i + j))) s') ->
  wp (dirlookup_loop fuel dp name (DIRENT_SIZE * Z.of_nat i)) Q s.
Proof using Ly HL C Hx He Hd Ht Hroom.
  induction fuel as [|fuel IH]; intros s i Q F El Hf HN HS; [lia|]. cbn [dirlookup_loop]. apply wp_bind, wp_get.
  destruct (din_held s El) as [-> ->]. pose proof (length_entries v d) as Hlen. destruct Hd as [_ D2 D3 _ D5].
  pose proof (Z.div_mod (di_size d) DIRENT_SIZE ltac:(done)) as Hdiv.
  destruct (Z.ltb_spec (DIRENT_SIZE * Z.of_nat i) (di_size d)) as [Hi|Hi]; cbn [negb].
  2: { apply wp_ret, HN; [done..|]. rewrite drop_ge; [done|]. rewrite Hlen. unfold DIRENT_SIZE in *. lia. }
  eapply (read_entry s i); [done..|]. intros s1 de F1 E1 Hde. cbn [fst snd]. rewrite Z.eqb_refl. cbn [negb].
  rewrite (drop_S _ _ _ Hde) in HN, HS. pose proof (list_elem_of_lookup_2 _ _ _ Hde) as Hin.
  pose proof (entries_bytes v d de (fs_vok _ _ _ _ _ _ _ _ F) Hin) as Hb.
  assert (~ names (dname name) de -> wp (dirlookup_loop fuel dp name (DIRENT_SIZE * Z.of_nat i + DIRENT_SIZE)) Q s1) as Hnext.
  { intros Hne. replace (_ + DIRENT_SIZE) with (DIRENT_SIZE * Z.of_nat (S i)) by lia. apply IH; [done|done|apply lookup_lt_Some in Hde; lia|..].
    - intros s' F' E' EN. apply HN; [done..|]. cbn [list_find]. by rewrite decide_False, EN.
    - intros s' j de' ip F' EF G. replace (S i + j)%nat with (i + S j)%nat by lia. eapply HS; [done| |done]. cbn [list_find]. by rewrite decide_False, EF. }
  destruct (Z.eqb_spec (de_inum de) 0) as [E0|Hne]; [apply Hnext; by intros [??]|].
  destruct (Z.eqb_spec (namecmp name (de_name de)) 0) as [Ec|Hc].
  2: { apply Hnext. intros [_ E]. by apply Hc, namecmp_names. }
  apply namecmp_names in Ec; [|done..]. apply wp_bind. eapply iget_ok; [by rewrite E1|by apply D5|by rewrite E1|]. intros ip l' G. rewrite E1 in G.
  apply wp_ret. replace i with (i + 0)%nat at 1 by lia. eapply (HS _ 0%nat de); [|cbn; by rewrite decide_True|exact G].
  apply fs_set_inodes; [done|]. destruct G as (_ & _ & a & b & _ & -> & _). rewrite length_insert, <- E1. apply (fo_inodes _ _ _ _ _ _ _ _ F1).
Qed.

(** The first entry that is free, or the end. *)
Lemma find_empty_ok fuel : forall s i (Q : Z -> fs -> Prop),
  fs_ok s v L ∅ -> f_inodes s = l -> (i <= length (entries v d))%nat -> (length (entries v d) - i < fuel)%nat ->
  (forall s' j, fs_ok s' v L ∅ -> f_inodes s' = l -> (j <= length (entries v d))%nat -> (forall de, entries v d !! j = Some de -> de_inum de = 0) ->
     Q (DIRENT_SIZE * Z.of_nat j) s') ->
  wp (find_empty fuel dp (DIRENT_SIZE * Z.of_nat i)) Q s.
Proof using Ly HL Hx He Hd Ht.
  clear Hroom C. induction fuel as [|fuel IH]; intros s i Q F El Hi Hf HQ; [lia|]. cbn [find_empty]. apply wp_bind, wp_get.
  destruct (din_held s El) as [-> _]. pose proof (length_entries v d) as Hlen. pose proof (dk_whole _ _ Hd) as D3.
  pose proof (Z.div_mod (di_size d) DIRENT_SIZE ltac:(done)) as Hdiv. destruct (dk_size _ _ Hd) as [D0 _].
  destruct (Z.ltb_spec (DIRENT_SIZE * Z.of_nat i) (di_size d)) as [Hlt|Hge]; cbn [negb].
  2: { apply wp_ret, HQ; [done..|]. intros de Hde%lookup_lt_Some. unfold DIRENT_SIZE in *. lia. }
  eapply (read_entry s i); [done..|]. intros s1 de F1 E1 Hde. cbn [fst snd]. rewrite Z.eqb_refl. cbn [negb].
  destruct (Z.eqb_spec (de_inum de) 0) as [E0|Hne]; [apply wp_ret, HQ; [done..|]; intros de' Hde'; congruence|].
  replace (_ + DIRENT_SIZE) with (DIRENT_SIZE * Z.of_nat (S i)) by lia. apply lookup_lt_Some in Hde. apply IH; [done|done|lia|lia|done].
Qed.

Definition found (name : list Z) (r : option (nat * Z)) (l' : list inode) : Prop :=
  match dir_find v d (dname name) with
  | None => r = None /\ l' = l
  | Some (i, m) => exists ip, r = Some (ip, DIRENT_SIZE * Z.of_nat i) /\ got v lk m l ip l'
  end.

Lemma dirlookup_ok s name (Q : option (nat * Z) -> fs -> Prop) :
  fs_ok s v L ∅ -> f_inodes s = l -> Forall is_byte name ->
  (forall r s', fs_ok s' v L ∅ -> found name r (f_inodes s') -> Q r s') -> wp (dirlookup dp name) Q s.
Proof using Ly HL C Hx He Hd Ht Hroom.
  intros F El Hn HQ. unfold dirlookup. apply wp_bind, wp_get. destruct (din_held s El) as [-> _]. rewrite Ht. cbn [Z.eqb negb].
  pose proof (dk_size _ _ Hd). change 0 with (DIRENT_SIZE * Z.of_nat 0). apply dirlookup_loop_ok; [done..| | |].
  - rewrite length_entries. unfold dir_fuel. assert (0 <= di_size d / DIRENT_SIZE) by (apply Z.div_pos; [lia|done]). lia.
  - intros s' F' E' EN. apply HQ; [done|]. unfold found, dir_find. rewrite drop_0 in EN. by rewrite EN.
  - intros s' j de ip F' EF G. apply HQ; [done|]. unfold found, dir_find. rewrite drop_0 in EF. rewrite EF. cbn. by exists ip.
Qed.
End lookup.

(** ** Path names *)

(** The elements of a path, as directories store them. *)
Fixpoint path_elems_from (elem path : list Z) : list (list Z) :=
  let close rest := match elem with [] => rest | _ => take DIRSIZ elem :: rest end in
  match path with
  | [] => close []
  | c :: path' => if c =? SLASH then close (path_elems_from [] path') else path_elems_from (elem ++ [c]) path'
  end.
Definition path_elems (path : list Z) : list (list Z) := path_elems_from [] path.

(** The walk from inode [n]; [np] stops at the parent of the last element. *)
Fixpoint resolve (np : bool) (v : list block) (n : Z) (es : list (list Z)) : option Z :=
  match es with
  | [] => if np then None else Some n
  | e :: es' =>
      if negb (di_type (dinode_at v n) =? T_DIR) then None else
      if np && (match es' with [] => true | _ => false end) then Some n else
      match dir_find v (dinode_at v n) e with
      | Some (_, m) => resolve np v m es'
      | None => None
      end
  end.
Definition pchar (c : Z) : Prop := is_byte c /\ c <> 0.

Lemma skip_slashes_elems p : path_elems (skip_slashes p) = path_elems p.
Proof. induction p as [|c p IH]; [done|]. unfold path_elems in *. cbn. by destruct (c =? SLASH) eqn:E; [|cbn; rewrite E]. Qed.

Lemma skip_slashes_suffix p : exists q, p = q ++ skip_slashes p.
Proof.
  induction p as [|c p [q IH]]; [by exists []|]. cbn. destruct (c =? SLASH); [|by exists []]. exists (c :: q). cbn. by rewrite <- IH.
Qed.

Lemma skip_slashes_hd p : match skip_slashes p with c :: _ => c <> SLASH | [] => True end.
Proof. induction p as [|c p IH]; [done|]. cbn. destruct (Z.eqb_spec c SLASH); done. Qed.

Lemma elem_of_path_app p : let '(s, rest) := elem_of_path p in p = s ++ rest /\ Forall (fun c => c <> SLASH) s.
Proof.
  induction p as [|c p IH]; cbn; [done|]. destruct (Z.eqb_spec c SLASH); [done|]. destruct (elem_of_path p) as [s rest].
  destruct IH as [-> IH]. split; [done|by constructor].
Qed.

Lemma elem_of_path_rest p : match snd (elem_of_path p) with [] => True | c :: _ => c = SLASH end.
Proof. induction p as [|c p IH]; cbn; [done|]. destruct (Z.eqb_spec c SLASH); [done|]. by destruct (elem_of_path p). Qed.

Lemma path_elems_app s : forall elem rest, Forall (fun c => c <> SLASH) s ->
  path_elems_from elem (s ++ rest) = path_elems_from (elem ++ s) rest.
Proof.
  induction s as [|c s IH]; intros elem rest; cbn [app]; [by rewrite app_nil_r|]. intros [Hc Hs]%Forall_cons. cbn.
  rewrite (proj2 (Z.eqb_neq _ _)) by done. rewrite IH by done. by rewrite <- app_assoc.
Qed.

Lemma path_elems_first s rest : s <> [] -> Forall (fun c => c <> SLASH) s -> match rest with [] => True | c :: _ => c = SLASH end ->
  path_elems (s ++ rest) = take DIRSIZ s :: path_elems rest.
Proof.
  intros H0 Hs Hr. unfold path_elems. rewrite path_elems_app by done. cbn [app]. destruct s as [|c s]; [done|].
  destruct rest as [|c' rest]; [done|]. subst c'. done.
Qed.

(** An element shorter than the buffer gets a terminator, a longer one is cut. *)
Definition store_name (s name : list Z) : list Z :=
  if (DIRSIZ <=? length s)%nat then splice 0 (take DIRSIZ s) name else <[length s := 0]> (splice 0 s name).

Lemma cstr_stop s r : Forall pchar s -> cstr (s ++ 0 :: r) = s.
Proof. induction 1 as [|c s [_ Hc] _ IH]; [done|]. cbn. rewrite (proj2 (Z.eqb_neq _ _)) by done. by rewrite IH. Qed.
Lemma cstr_whole s : Forall pchar s -> cstr s = s.
Proof. induction 1 as [|c s [_ Hc] _ IH]; [done|]. cbn. rewrite (proj2 (Z.eqb_neq _ _)) by done. by rewrite IH. Qed.
Lemma store_name_ok s name : Forall pchar s -> length name = DIRSIZ -> Forall is_byte name ->
  length (store_name s name) = DIRSIZ /\ Forall is_byte (store_name s name) /\ dname (store_name s name) = take DIRSIZ s.
Proof.
  intros Hs Hl Hb. assert (Forall is_byte s) as Hsb by (eapply Forall_impl; [exact Hs|by intros c []]).
  unfold store_name, dname, splice. rewrite !take_0. cbn [app Nat.add]. destruct (Nat.leb_spec DIRSIZ (length s)) as [Hge|Hlt].
  - rewrite drop_ge, app_nil_r by (rewrite length_take; lia). split; [rewrite length_take; lia|].
    split; [by apply Forall_take|]. rewrite cstr_whole by (by apply Forall_take). by rewrite take_take, Nat.min_id.
  - destruct (drop (length s) name) as [|b r] eqn:E. { apply (f_equal length) in E. rewrite length_drop in E. cbn in E. lia. }
    assert (length (b :: r) = (DIRSIZ - length s)%nat) as Hr by (by rewrite <- E, length_drop, Hl).
    replace (length s) with (length s + 0)%nat by lia. rewrite insert_app_r. change (<[0%nat := 0]> (b :: r)) with (0 :: r). rewrite cstr_stop by done.
    split; [rewrite length_app; cbn [length] in *; lia|]. split; [|done]. apply Forall_app. split; [done|].
    assert (Forall is_byte (b :: r)) as [_ ?]%Forall_cons by (rewrite <- E; by apply Forall_drop). by constructor.
Qed.

Lemma skipelem_ok path name : Forall pchar path -> length name = DIRSIZ -> Forall is_byte name ->
  match skipelem path name with
  | None => path_elems path = []
  | Some (path', name') =>
      path_elems path = dname name' :: path_elems path' /\ (length path' =? 0)%nat = (match path_elems path' with [] => true | _ => false end) /\
      (length path' < length path)%nat /\ Forall pchar path' /\ length name' = DIRSIZ /\ Forall is_byte name'
  end.
Proof.
  intros Hp Hl Hb. unfold skipelem. rewrite <- skip_slashes_elems. destruct (skip_slashes_suffix path) as [q Eq].
  pose proof (skip_slashes_hd path) as Hhd. destruct (skip_slashes path) as [|c p] eqn:Es; [done|]. cbv zeta.
  pose proof (elem_of_path_app (c :: p)) as Ha. pose proof (elem_of_path_rest (c :: p)) as Hrest.
  assert (fst (elem_of_path (c :: p)) <> []) as H0.
  { cbn. rewrite (proj2 (Z.eqb_neq _ _)) by done. by destruct (elem_of_path p). }
  destruct (elem_of_path (c :: p)) as [s rest]. cbn [fst snd] in *. destruct Ha as [Ea Hs]. fold (store_name s name).
  rewrite Ea in Eq |- *. rewrite Eq in Hp. apply Forall_app in Hp as [_ [Hps Hpr]%Forall_app].
  destruct (store_name_ok s name Hps Hl Hb) as (L1 & L2 & L3). destruct (skip_slashes_suffix rest) as [q' Eq'].
  rewrite path_elems_first, L3, skip_slashes_elems by done. split; [done|]. split; [|split; [|split; [|done]]].
  - rewrite <- skip_slashes_elems. pose proof (skip_slashes_hd rest) as Hh. destruct (skip_slashes rest) as [|c' p'] eqn:E; [done|].
    pose proof (elem_of_path_app (c' :: p')) as Hb2. pose proof (elem_of_path_rest (c' :: p')) as Hr2.
    assert (fst (elem_of_path (c' :: p')) <> []) as H1 by (cbn; rewrite (proj2 (Z.eqb_neq _ _)) by done; by destruct (elem_of_path p')).
    destruct (elem_of_path (c' :: p')) as [s' rest']. destruct Hb2 as [-> Hs']. rewrite path_elems_first by done. by destruct s'.
  - rewrite Eq, !length_app. apply (f_equal length) in Eq'. rewrite length_app in Eq'. destruct s; [done|]. cbn. lia.
  - rewrite Eq' in Hpr. by apply Forall_app in Hpr as [_ ?].
Qed.

(** Directories that can be reached are well formed. *)
Record tree_ok (v : list block) : Prop := {
  tr_root : linked v ROOTINO;
  tr_dir : forall n, linked v n -> di_type (dinode_at v n) = T_DIR -> dir_ok v (dinode_at v n);
}.

Lemma dir_find_linked v n e i m : tree_ok v -> linked v n -> di_type (dinode_at v n) = T_DIR ->
  dir_find v (dinode_at v n) e = Some (i, m) -> linked v m.
Proof.
  intros T Hn Ht E. unfold dir_find in E. destruct (list_find _ _) as [[j de]|] eqn:Ef; [|done]. cbn in E. injection E as _ <-.
  apply list_find_Some in Ef as (Hj & [H0 _] & _). apply (dk_list _ _ (tr_dir _ T _ Hn Ht)); [by eapply list_elem_of_lookup_2|done].
Qed.

(** What [namex] returns, and the references it leaves. *)
Definition walked (np : bool) (v : list block) (n : Z) (es : list (list Z)) (m0 : gmap Z Z) (r : option nat * list Z) (l' : list inode) : Prop :=
  match resolve np v n es with
  | Some t => exists ip x, r.1 = Some ip /\ l' !! ip = Some x /\ caches ROOTDEV t x /\ irefs l' = ref_get t m0 /\
      (np = true -> last es = Some (dname r.2) /\ Forall is_byte r.2)
  | None => r.1 = None /\ irefs l' = m0
  end.

(** The locked directory is still held after [dirlookup]; when the entry found is
    not the directory itself, it is untouched. *)
Lemma got_held v lk n m l ip x next l' : l !! ip = Some x -> held v n ip x -> got v lk m l next l' ->
  exists x' z, l' !! ip = Some x' /\ held v n ip x' /\ l' !! next = Some z /\ caches ROOTDEV m z /\ (next = ip -> 1 < i_ref z).
Proof.
  intros Hx [(Hr & Hd & Hn) Hlk Hv He] (_ & _ & a & y & Ha & -> & Hy & Hor). pose proof (lookup_lt_Some _ _ _ Ha) as Hlt.
  destruct (decide (next = ip)) as [->|Hne].
  - simplify_eq. destruct Hor as [->|[? _]]; [|lia]. eexists _, _. rewrite !list_lookup_insert_eq by done. split_and!; [done| |done|done|cbn; lia].
    split; cbn; [|done..]. split_and!; [cbn; lia|done..].
  - exists x, y. rewrite list_lookup_insert_ne, list_lookup_insert_eq by done. by split_and!.
Qed.

(** The directory is released; the inode that was found in it keeps its reference. *)
Lemma leave_dir s v L n m m0 dp x l next (Q : unit -> fs -> Prop) :
  fs_ok s v L ∅ -> l !! dp = Some x -> held v n dp x -> got v [dp] m l next (f_inodes s) -> di_nlink (dinode_at v n) <> 0 ->
  irefs l = ref_get n m0 -> positive m0 ->
  (forall s' z, fs_ok s' v L ∅ -> icached v [] (f_inodes s') -> f_inodes s' !! next = Some z -> caches ROOTDEV m z ->
     irefs (f_inodes s') = ref_get m m0 -> Q tt s') ->
  wp (iunlockput dp) Q s.
Proof.
  intros F Hx He G Hl Er Hpos HQ. destruct (got_held _ _ _ _ _ _ _ _ _ Hx He G) as (x2 & z & Hx2 & He2 & Hz & Hcz & Hself).
  eapply iunlockput_cached; [exact F|apply G|apply not_elem_of_nil|done|done|done|]. intros s3 y F3 C3 E3 Ey (Y1 & Y2 & Y3).
  assert (irefs (f_inodes s3) = ref_get m m0) as Er3 by (rewrite E3, (proj1 G), Er, ref_get_comm, ref_put_get; [done|by apply ref_get_positive]).
  destruct (decide (next = dp)) as [->|Hne].
  - simplify_eq. eapply (HQ s3 y); [done|done|rewrite Ey; apply list_lookup_insert_eq; by eapply lookup_lt_Some| |done].
    destruct Hcz as (? & ? & ?). pose proof (Hself eq_refl). split_and!; [lia|congruence..].
  - eapply (HQ s3 z); [done|done|by rewrite Ey, list_lookup_insert_ne|done|done].
Qed.

Section walk.
Context (v : list block) (L : list Z) (m0 : gmap Z Z) (np : bool).
Context (Ly : layout sb (length v)) (HL : (length L < NBUF)%nat) (T : tree_ok v) (Hpos : positive m0) (Hroom : (S (S (size m0)) <= NINODE)%nat).

Lemma walk_end s n ip x name (Q : option nat * list Z -> fs -> Prop) :
  fs_ok s v L ∅ -> icached v [] (f_inodes s) -> f_inodes s !! ip = Some x -> caches ROOTDEV n x -> linked v n ->
  irefs (f_inodes s) = ref_get n m0 ->
  (forall r s', fs_ok s' v L ∅ -> icached v [] (f_inodes s') -> walked np v n [] m0 r (f_inodes s') -> Q r s') ->
  wp (if np then iput ip ;; mret (None, name) else mret (Some ip, name)) Q s.
Proof using Hpos.
  clear Hroom HL. intros F C Hx Hc Hl Er HQ. destruct np eqn:En.
  - apply wp_bind. eapply iput_cached; [done|done|apply not_elem_of_nil|done..|apply Hl|]. intros s' y F' C' E' _ _. apply wp_ret, HQ; [done..|].
    split; [done|]. by rewrite E', Er, ref_put_get.
  - apply wp_ret, HQ; [done..|]. by exists ip, x.
Qed.

(** The directory is given back, [n] with it. *)
Lemma walk_fail s n ip x name e es (Q : option nat * list Z -> fs -> Prop) :
  fs_ok s v L ∅ -> icached v [ip] (f_inodes s) -> f_inodes s !! ip = Some x -> held v n ip x -> linked v n ->
  irefs (f_inodes s) = ref_get n m0 -> resolve np v n (e :: es) = None ->
  (forall r s', fs_ok s' v L ∅ -> icached v [] (f_inodes s') -> walked np v n (e :: es) m0 r (f_inodes s') -> Q r s') ->
  wp (iunlockput ip ;; mret (None, name)) Q s.
Proof using Hpos.
  clear Hroom HL. intros F C Hx Hc Hl Er Hn HQ. apply wp_bind. eapply iunlockput_cached; [done|done|apply not_elem_of_nil|done..|apply Hl|]. intros s' y F' C' E' _ _.
  apply wp_ret, HQ; [done..|]. unfold walked. rewrite Hn. split; [done|]. by rewrite E', Er, ref_put_get.
Qed.

Lemma namex_loop_ok fuel : forall s n ip x path name (Q : option nat * list Z -> fs -> Prop),
  fs_ok s v L ∅ -> icached v [] (f_inodes s) -> f_inodes s !! ip = Some x -> caches ROOTDEV n x -> linked v n ->
  irefs (f_inodes s) = ref_get n m0 -> Forall pchar path -> length name = DIRSIZ -> Forall is_byte name -> (length path <= fuel)%nat ->
  (forall r s', fs_ok s' v L ∅ -> icached v [] (f_inodes s') -> walked np v n (path_elems path) m0 r (f_inodes s') -> Q r s') ->
  wp (namex_loop fuel ip path name np) Q s.
Proof using Ly HL T Hpos Hroom.
  induction fuel as [|fuel IH]; intros s n ip x path name Q F C Hx Hc Hl Er Hp Hnl Hnb Hf HQ; cbn [namex_loop];
    pose proof (skipelem_ok path name Hp Hnl Hnb) as Hs; destruct (skipelem path name) as [[path' name']|];
    try (rewrite Hs in HQ; by eapply walk_end); [lia|].
  destruct Hs as (Es & Ee & Hlt & Hp' & Hnl' & Hnb'). rewrite Es in HQ. rewrite Ee. clear Ee.
  apply wp_bind. eapply ilock_cached; [done|done|done|done|apply not_elem_of_nil|done..|apply Hl|]. intros s1 x1 F1 C1 E1 Er1 He. pose proof (lookup_lt_Some _ _ _ Hx) as Hlen.
  assert (f_inodes s1 !! ip = Some x1) as Hx1 by (rewrite E1; by apply list_lookup_insert_eq). rewrite Er in Er1.
  apply wp_bind, wp_get. destruct (din_held v n ip x1 (f_inodes s1) Hx1 He s1 eq_refl) as [-> _].
  destruct (Z.eqb_spec (di_type (dinode_at v n)) T_DIR) as [Et|Et]; cbn [negb].
  2: { eapply walk_fail; [done..| |exact HQ]. cbn [resolve]. by rewrite (proj2 (Z.eqb_neq _ _)). }
  assert (forall es, resolve np v n (dname name' :: es) = if np && (match es with [] => true | _ => false end) then Some n else
    match dir_find v (dinode_at v n) (dname name') with Some (_, m) => resolve np v m es | None => None end) as Hres.
  { intros es. cbn [resolve]. by rewrite Et. }
  destruct (np && _) eqn:Estop.
  { apply wp_bind. eapply iunlock_cached; [done..|]. intros s2 y F2 C2 E2 Hy _ Er2. apply wp_ret, HQ; [done..|]. unfold walked. rewrite Hres, Estop.
    exists ip, y. split_and!; [done|rewrite E2; apply list_lookup_insert_eq; by eapply lookup_lt_Some|done|by rewrite Er2|].
    intros _. split; [|done]. apply andb_prop in Estop as [_ E0]. by destruct (path_elems path'). }
  apply wp_bind. pose proof (tr_dir _ T n Hl Et) as Hd. pose proof (size_ref_get n m0).
  eapply (dirlookup_ok v L n ip x1 (f_inodes s1) [ip] Ly HL C1 Hx1 He Hd Et); [|done|done|done|].
  { rewrite Er1, (fo_inodes _ _ _ _ _ _ _ _ F1). lia. }
  intros r s2 F2 Hfound. unfold found in Hfound. specialize (Hres (path_elems path')). rewrite Estop in Hres.
  destruct (dir_find v (dinode_at v n) (dname name')) as [[i m]|] eqn:Ed.
  - destruct Hfound as (next & -> & G). apply wp_bind. eapply leave_dir; [exact F2|exact Hx1|exact He|exact G|apply Hl|exact Er1|exact Hpos|].
    intros s3 z' F3 C3 Hz' Hcz' E3. eapply IH; [done|done|exact Hz'|exact Hcz'|by eapply dir_find_linked|exact E3|done..|lia|].
    intros r s4 F4 C4 W. apply HQ; [done..|]. unfold walked in *. rewrite Hres. destruct (resolve np v m _); [|done].
    destruct W as (ip' & x' & ? & ? & ? & ? & W). exists ip', x'. split_and!; [done..|]. intros Hnp. destruct (W Hnp) as [Wl Wb]. split; [|done].
    by destruct (path_elems path').
  - destruct Hfound as [-> E2]. eapply walk_fail; [exact F2|by rewrite E2|by rewrite E2|done|done|by rewrite E2|exact Hres|exact HQ].
Qed.
End walk.

(** The inode a walk starts from: the root, or the current directory [cwd]. *)
Definition walk_start (s : fs) (cwd : nat) (path : list Z) : Z :=
  match cstr path with c :: _ => if c =? SLASH then ROOTINO else i_inum (inode_at s cwd) | [] => i_inum (inode_at s cwd) end.

(** A relative path starts from a directory in use. *)
Definition has_cwd (s : fs) (v : list block) (cwd : nat) (path : list Z) : Prop :=
  hd 0 (cstr path) <> SLASH -> exists c, f_inodes s !! cwd = Some c /\ 0 < i_ref c /\ linked v (i_inum c).

Lemma cstr_pchars s : Forall is_byte s -> Forall pchar (cstr s).
Proof.
  induction 1 as [|c s Hc _ IH]; [constructor|]. cbn. destruct (Z.eqb_spec c 0); [constructor|]. by constructor.
Qed.

Lemma namex_ok s v L np cwd path name (Q : option nat * list Z -> fs -> Prop) :
  fs_ok s v L ∅ -> layout sb (length v) -> (length L < NBUF)%nat -> icached v [] (f_inodes s) -> tree_ok v ->
  (S (S (size (irefs (f_inodes s)))) <= NINODE)%nat -> has_cwd s v cwd path ->
  Forall is_byte path -> length name = DIRSIZ -> Forall is_byte name ->
  (forall r s', fs_ok s' v L ∅ -> icached v [] (f_inodes s') ->
     walked np v (walk_start s cwd path) (path_elems (cstr path)) (irefs (f_inodes s)) r (f_inodes s') -> Q r s') ->
  wp (namex cwd path np name) Q s.
Proof.
  intros F Ly HL C T Hroom Hcwd Hp Hnl Hnb HQ. unfold namex. pose proof (cstr_pchars path Hp) as Hp'.
  pose proof (fo_inodes _ _ _ _ _ _ _ _ F) as Hlen.
  assert (forall ip l', linked v (walk_start s cwd path) -> got v [] (walk_start s cwd path) (f_inodes s) ip l' ->
    wp (namex_loop (length (cstr path)) ip (cstr path) name np) Q (mkFs (f_l s) l' (f_sb s))) as Hgo.
  { intros ip l' Hls (G1 & G2 & a & y & Ha & -> & Hy & _). eapply (namex_loop_ok v L (irefs (f_inodes s)) np Ly HL T (irefs_positive _) Hroom);
      [|exact G2|apply list_lookup_insert_eq; by eapply lookup_lt_Some|exact Hy|exact Hls|exact G1|done..|exact HQ].
    apply fs_set_inodes; [done|]. by rewrite length_insert. }
  assert (hd 0 (cstr path) <> SLASH -> walk_start s cwd path = i_inum (inode_at s cwd) ->
    wp (ip ← idup cwd; namex_loop (length (cstr path)) ip (cstr path) name np) Q s) as Hdup.
  { intros Hh Es. destruct (Hcwd Hh) as (c & Hc & Hr & Hl). assert (inode_at s cwd = c) as Ec by (by apply list_lookup_total_correct).
    rewrite Es, Ec in Hgo. apply wp_bind. unfold idup. apply wp_bind, wp_upd_inode, wp_ret, Hgo; [done|]. rewrite Ec. apply got_old; [done..|].
    split_and!; [done| |done]. by apply (en_dev _ _ (id_entry _ _ _ C _ _ Hc)). }
  unfold walk_start in *. destruct (cstr path) as [|ch p]; [by apply Hdup|]. cbn [hd] in Hdup.
  destruct (Z.eqb_spec ch SLASH); [|by apply Hdup].
  apply wp_bind. eapply iget_ok; [done|apply (tr_root _ T)|lia|]. intros ip l' G. apply Hgo; [apply (tr_root _ T)|done].
Qed.
End dirs.

Section theorems.
Context `{BD : !BlockDevice} `{DS : !Devsw}.

(** [dirlookup] on a locked directory finds the first entry in use with
    the name, and no other: it returns the entry's inode, with one reference more in the inode
    cache, and the offset of the entry; when there is none it returns 0 and leaves the cache
    alone. The directory is read to its end through its block map, the disk
    is unchanged, and the loop ends. *)
Theorem dirlookup_spec sb k pid w s v L lk n dp x name :
  fs_ok sb k pid w s v L ∅ -> layout sb (length v) -> (length L < NBUF)%nat ->
  icached sb v lk (f_inodes s) -> f_inodes s !! dp = Some x -> held sb pid v n dp x ->
  dir_ok sb v (dinode_at sb v n) -> di_type (dinode_at sb v n) = T_DIR -> (size (irefs (f_inodes s)) < length (f_inodes s))%nat ->
  Forall is_byte name ->
  wp (dirlookup dp name) (fun r s' => fs_ok sb k pid w s' v L ∅ /\
    match list_find (names (dname name)) (entries v (dinode_at sb v n)) with
    | None => r = None /\ f_inodes s' = f_inodes s
    | Some (i, de) => exists ip, r = Some (ip, DIRENT_SIZE * Z.of_nat i) /\ got sb v lk (de_inum de) (f_inodes s) ip (f_inodes s')
    end) s.
Proof.
  intros F Ly HL C Hx He Hd Ht Hroom Hn. eapply (dirlookup_ok sb k pid w v L n dp x (f_inodes s) lk); [done..|].
  intros r s' F' Hf. split; [done|]. unfold found, dir_find in Hf. by destruct (list_find _ _) as [[i de]|].
Qed.

(** C11 [namex] is a walk over the directories on disk: for every path, absolute or
    relative, it returns the inode that [resolve] finds for the elements
    of the path ([namei]), or its parent together with the last element ([nameiparent]), and 0
    exactly when there is none. It always returns, and it leaks no
    reference: the counts of the inode cache are as before, plus one for the inode returned.
    Two free cache entries are enough for a path of any length. *)
Theorem namex_spec sb k pid w s v L np cwd path name :
  fs_ok sb k pid w s v L ∅ -> layout sb (length v) -> (length L < NBUF)%nat -> icached sb v [] (f_inodes s) -> tree_ok sb v ->
  (S (S (size (irefs (f_inodes s)))) <= NINODE)%nat -> has_cwd sb s v cwd path ->
  Forall is_byte path -> length name = DIRSIZ -> Forall is_byte name ->
  wp (namex cwd path np name) (fun r s' => fs_ok sb k pid w s' v L ∅ /\ icached sb v [] (f_inodes s') /\
    match resolve sb np v (walk_start s cwd path) (path_elems (cstr path)) with
    | Some t => exists ip x, r.1 = Some ip /\ f_inodes s' !! ip = Some x /\ caches ROOTDEV t x /\
        irefs (f_inodes s') = ref_get t (irefs (f_inodes s)) /\
        (np = true -> last (path_elems (cstr path)) = Some (dname r.2) /\ Forall is_byte r.2)
    | None => r.1 = None /\ irefs (f_inodes s') = irefs (f_inodes s)
    end) s.
Proof. intros. eapply namex_ok; [done..|]. intros r s' F' C' W. by split_and!. Qed.
End theorems.
