(* ===== verification/File.v ===== *)
(** * [file.c] and the descriptor side of [pipe.c]: open files.

    The file table, and reading, writing and closing through it, over pipes
    and the file system. *)

From stdpp Require Import gmap.
From S2P Require Import Prelude Params Bio Log Trans Pipe Kalloc Fs.

Inductive fdtype := FD_NONE | FD_PIPE | FD_INODE.

#[export] Instance fdtype_eq_dec : EqDecision fdtype.
Proof. solve_decision. Defined.

(** [struct file]; [fl_pipe] is the address of the pipe's page, [fl_ip] the
    index of the inode in the cache. *)
Record file := mkFile {
  fl_type : fdtype;
  fl_ref : Z;
  fl_readable : bool;
  fl_writable : bool;
  fl_pipe : Z;
  fl_ip : nat;
  fl_off : Z;
}.

#[export] Instance file_inhabited : Inhabited file := populate (mkFile FD_NONE 0 false false 0 0 0).

Definition set_fref v f := mkFile (fl_type f) v (fl_readable f) (fl_writable f) (fl_pipe f) (fl_ip f) (fl_off f).
Definition set_ftype v f := mkFile v (fl_ref f) (fl_readable f) (fl_writable f) (fl_pipe f) (fl_ip f) (fl_off f).
Definition set_off v f := mkFile (fl_type f) (fl_ref f) (fl_readable f) (fl_writable f) (fl_pipe f) (fl_ip f) v.

(** The kernel state below system calls: memory, file system, [ftable] and
    the pipes by address. *)
Record kern := mkKern { k_mem : kmem; k_fs : fs; ftable : list file; pipes : gmap Z pipe }.

Definition set_k_fs (x : fs) (s : kern) : kern := mkKern (k_mem s) x (ftable s) (pipes s).
Definition set_k_mem (x : kmem) (s : kern) : kern := mkKern x (k_fs s) (ftable s) (pipes s).
Definition set_ftable (x : list file) (s : kern) : kern := mkKern (k_mem s) (k_fs s) x (pipes s).
Definition set_pipes (x : gmap Z pipe) (s : kern) : kern := mkKern (k_mem s) (k_fs s) (ftable s) x.
Definition fsop {A} (m : M fs A) : M kern A := zoom k_fs set_k_fs m.
Definition memop {A} (m : M kmem A) : M kern A := zoom k_mem set_k_mem m.
Definition file_at (s : kern) (f : nat) : file := ftable s !!! f.
Definition upd_file (f : nat) (g : file -> file) : M kern unit :=
  modify (fun s => set_ftable (<[f := g (file_at s f)]> (ftable s)) s).

(** The first free entry. *)
Fixpoint find_file (l : list file) (i : nat) : option nat :=
  match l with [] => None | f :: l' => if fl_ref f =? 0 then Some i else find_file l' (S i) end.

Definition filealloc : M kern (option nat) :=
  s ← get;
  match find_file (ftable s) 0 with
  | None => mret None
  | Some f => upd_file f (set_fref 1) ;; mret (Some f)
  end.

Definition filedup (f : nat) : M kern nat :=
  s ← get;
  if fl_ref (file_at s f) <? 1 then panic "filedup" else
  upd_file f (fun x => set_fref (fl_ref x + 1) x) ;;
  mret f.

Section ops.
Context `{!BlockDevice} `{!Devsw}.
Context (end_ : Z).

(** [pipeclose]: the page is freed with the last end. *)
Definition pipe_close (p : Z) (writable : bool) : M kern unit :=
  s ← get;
  match pipes s !! p with
  | None => fault
  | Some pi =>
      let '(pi', freed) := pipeclose pi writable in
      if freed then modify (set_pipes (delete p (pipes s))) ;; memop (kfree end_ p)
      else modify (set_pipes (<[p := pi']> (pipes s)))
  end.

Definition fileclose (f : nat) : M kern unit :=
  s ← get;
  if fl_ref (file_at s f) <? 1 then panic "fileclose" else
  upd_file f (fun x => set_fref (fl_ref x - 1) x) ;;
  s ← get;
  let ff := file_at s f in
  if 0 <? fl_ref ff then mret tt else
  upd_file f (fun x => set_ftype FD_NONE (set_fref 0 x)) ;;
  match fl_type ff with
  | FD_PIPE => pipe_close (fl_pipe ff) (fl_writable ff)
  | FD_INODE => fsop (lop begin_op ;; iput (fl_ip ff) ;; lop end_op)
  | FD_NONE => mret tt
  end.

Definition filestat (f : nat) : M kern (option stat) :=
  s ← get;
  let ff := file_at s f in
  match fl_type ff with
  | FD_INODE =>
      fsop (ilock (fl_ip ff)) ;;
      st ← fsop (stati (fl_ip ff));
      fsop (iunlock (fl_ip ff)) ;;
      mret (Some st)
  | _ => mret None
  end.

(** The result and the bytes stored at [addr]; [killed] is [myproc()->killed]. *)
Definition piperead (p : Z) (killed : bool) (n : Z) : M kern (Z * list Z) :=
  s ← get;
  match pipes s !! p with
  | None => fault
  | Some pi =>
      let '(pi', l, o) := piperead_run killed n pi in
      modify (set_pipes (<[p := pi']> (pipes s))) ;;
      match o with Ret r => mret (r, l) | Err => mret (-1, []) | Sleep _ => sleep end
  end.

Definition pipewrite (p : Z) (killed : bool) (src : list Z) : M kern Z :=
  s ← get;
  match pipes s !! p with
  | None => fault
  | Some pi =>
      let '(pi', o) := pipewrite_run killed (Z.of_nat (length src)) src pi in
      modify (set_pipes (<[p := pi']> (pipes s))) ;;
      match o with Ret r => mret r | Err => mret (-1) | Sleep _ => sleep end
  end.

Definition fileread (f : nat) (killed : bool) (n : Z) : M kern (Z * list Z) :=
  s ← get;
  let ff := file_at s f in
  if negb (fl_readable ff) then mret (-1, []) else
  match fl_type ff with
  | FD_PIPE => piperead (fl_pipe ff) killed n
  | FD_INODE =>
      fsop (ilock (fl_ip ff)) ;;
      r ← fsop (readi (fl_ip ff) (fl_off ff) (u32 n));
      (if 0 <? r.1 then upd_file f (fun x => set_off (u32 (fl_off x + r.1)) x) else mret tt) ;;
      fsop (iunlock (fl_ip ff)) ;;
      mret r
  | FD_NONE => panic "fileread"
  end.

(** [max] in [filewrite]: bytes written in one transaction. *)
Definition WRITE_MAX : Z := (MAXOPBLOCKS - 1 - 1 - 2) / 2 * 512.

(** One turn of the loop: at most [WRITE_MAX] bytes in one transaction. *)
Definition filewrite_chunk (f : nat) (chunk : list Z) : M kern Z :=
  s ← get;
  let ip := fl_ip (file_at s f) in
  fsop (lop begin_op) ;;
  fsop (ilock ip) ;;
  s ← get;
  r ← fsop (writei ip chunk (fl_off (file_at s f)));
  (if 0 <? r then upd_file f (fun x => set_off (u32 (fl_off x + r)) x) else mret tt) ;;
  fsop (iunlock ip) ;;
  fsop (lop end_op) ;;
  mret r.

(** The bytes [i] written when the loop ends. *)
Fixpoint filewrite_loop (fuel : nat) (f : nat) (src : list Z) (i : Z) : M kern Z :=
  if negb (0 <? Z.of_nat (length src)) then mret i else
  match fuel with
  | O => outOfFuel
  | S fuel' =>
      let n1 := Z.min (Z.of_nat (length src)) WRITE_MAX in
      r ← filewrite_chunk f (take (Z.to_nat n1) src);
      if r <? 0 then mret i else
      if negb (r =? n1) then panic "short filewrite" else
      filewrite_loop fuel' f (drop (Z.to_nat n1) src) (i + r)
  end.

Definition filewrite (f : nat) (killed : bool) (src : list Z) : M kern Z :=
  s ← get;
  let ff := file_at s f in
  let n := Z.of_nat (length src) in
  if negb (fl_writable ff) then mret (-1) else
  match fl_type ff with
  | FD_PIPE => pipewrite (fl_pipe ff) killed src
  | FD_INODE =>
      i ← filewrite_loop (Z.to_nat (n / WRITE_MAX + 1)) f src 0;
      mret (if i =? n then n else -1)
  | FD_NONE => panic "filewrite"
  end.

(** [pipealloc]: two files, or every resource given back. [d] are the bytes of
    the page [kalloc] returned. *)
Definition pipealloc (d : list Z) : M kern (option (nat * nat)) :=
  f0 ← filealloc;
  match f0 with
  | None => mret None
  | Some f0 =>
      f1 ← filealloc;
      match f1 with
      | None => fileclose f0 ;; mret None
      | Some f1 =>
          p ← memop kalloc;
          if p =? 0 then fileclose f0 ;; fileclose f1 ;; mret None else
          modify (fun s => set_pipes (<[p := pipe_init d]> (pipes s)) s) ;;
          upd_file f0 (fun x => mkFile FD_PIPE (fl_ref x) true false p (fl_ip x) (fl_off x)) ;;
          upd_file f1 (fun x => mkFile FD_PIPE (fl_ref x) false true p (fl_ip x) (fl_off x)) ;;
          mret (Some (f0, f1))
      end
  end.
End ops.
