(* ===== verification/Writei.v ===== *)
(** * Writing files in [fs.c]: [bmap] when it allocates, and [writei]. *)

From stdpp Require Import gmap.
From S2P Require Import Prelude Params Bio Log Trans Fs Balloc Inode Content Blockmap File.

Section write.
Context `{BD : !BlockDevice} `{DS : !Devsw}.
Context (sb : superblock) (k : disk) (pid w : Z).
Abbreviation fs_ok := (fs_ok sb k pid w).
Abbreviation used := (used sb).
Abbreviation is_data := (is_data sb).
Abbreviation live := (live sb).
Abbreviation file_ok := (file_ok sb).
Abbreviation alloc_view := (alloc_view sb).

(** ** [bmap] *)

Lemma BBLOCK_small len b : layout sb len -> Z.of_nat len <= FSSIZE -> 0 <= b < sb_size sb -> BBLOCK b sb = sb_bmapstart sb.
Proof.
  intros Ly Hsz Hb. pose proof (ly_size _ _ Ly). unfold BBLOCK, BPB, FSSIZE in *. rewrite Z.div_small by lia. lia.
Qed.

Lemma length_logged2 L0 x y : (length (logged (logged L0 x) y) <= length L0 + 2)%nat.
Proof. pose proof (length_logged L0 x). pose proof (length_logged (logged L0 x) y). lia. Qed.

(** What [bmap] does to the inode [ip] of [s]: the block [b] of [bn]. *)
Record bmapped (s : fs) (ip : nat) (v : list block) (L : list Z) (bn b : Z) (s' : fs) (v' : list block) (L' ad' : list Z) : Prop := {
  bm_fs : fs_ok s' v' L' ∅;
  bm_ino : f_inodes s' = <[ip := with_addrs ad' (inode_at s ip)]> (f_inodes s);
  bm_map : mapped sb v (di_addrs (din s ip)) bn b v' ad';
  bm_log : forall c, c ∈ L' -> c ∈ L \/ c = b \/ c = sb_bmapstart sb \/ c = indirect ad';
}.

(** The only panic: the blocks missing for [n] bytes at [off] are more than are free. *)
Definition no_space (v : list block) (ad : list Z) (off n : Z) (e : string) : Prop :=
  e = "balloc: out of blocks"%string /\ forall lo hi, covers lo hi off n -> spare sb v ad lo hi < 0.

Lemma no_space_full v ad bn e : balloc_full sb v e -> baddr v ad bn = 0 -> no_space v ad (bn * Z.of_nat BSIZE) 1 e.
Proof. intros [-> Hu] H0. split; [done|]. intros lo hi. by apply (hole_spare sb). Qed.

Lemma no_space_wide v ad off n off' n' e : (forall lo hi, covers lo hi off' n' -> covers lo hi off n) -> no_space v ad off n e -> no_space v ad off' n' e.
Proof. intros Hc [-> H]. split; [done|]. intros lo hi Hlh. by apply H, Hc. Qed.

Lemma no_space_later v ad off n v1 ad1 off' n' e : (forall lo hi, covers lo hi off' n' -> covers lo hi off n) -> (forall lo hi, covers lo hi off' n' -> spare sb v ad lo hi <= spare sb v1 ad1 lo hi) ->
  no_space v1 ad1 off n e -> no_space v ad off' n' e.
Proof. intros Hc Hs [-> H]. split; [done|]. intros lo hi Hlh. pose proof (Hs lo hi Hlh). pose proof (H lo hi (Hc lo hi Hlh)). lia. Qed.

Section bmap.
Context (s : fs) (v : list block) (L : list Z) (ip : nat).
Abbreviation ad := (di_addrs (din s ip)).
Hypothesis F : fs_ok s v L ∅.
Hypothesis Ly : layout sb (length v).
Hypothesis Hip : (ip < NINODE)%nat.
Hypothesis Hdev : i_dev (inode_at s ip) = ROOTDEV.
Hypothesis Fk : file_ok v ad.
Hypothesis Hw : 1 <= w.
Hypothesis Hroom : room sb L 2 1.
Hypothesis Hmeta : forall c, 0 <= c < datastart sb -> used v c = true.

Let G : geometry sb (length v) := fs_geom _ _ _ _ _ _ _ _ F.
Let Hok : Forall block_ok v := fs_vok _ _ _ _ _ _ _ _ F.
Let Hsz : Z.of_nat (length v) <= FSSIZE := fs_size _ _ _ _ _ _ _ _ F.

(** Storing an address in the inode. *)
Lemma upd_addr_ok (t : fs) v' L' j b (Q : unit -> fs -> Prop) :
  fs_ok t v' L' ∅ ->
  (fs_ok (mkFs (f_l t) (<[ip := with_addrs (<[j := b]> (di_addrs (din t ip))) (inode_at t ip)]> (f_inodes t)) (f_sb t)) v' L' ∅ ->
   Q tt (mkFs (f_l t) (<[ip := with_addrs (<[j := b]> (di_addrs (din t ip))) (inode_at t ip)]> (f_inodes t)) (f_sb t))) ->
  wp (upd_din ip (fun d => set_addrs (<[j := b]> (di_addrs d)) d)) Q t.
Proof.
  intros Ft HQ. apply wp_modify. apply HQ. apply fs_set_inodes; [done|]. rewrite length_insert. apply (fo_inodes _ _ _ _ _ _ _ _ Ft).
Qed.

(** A missing direct block. *)
Lemma bmap_direct bn : 0 <= bn < NDIRECT -> ad !!! Z.to_nat bn = 0 ->
  wpe (bmap ip bn) (fun b s' => exists v' L' ad', bmapped s ip v L bn b s' v' L' ad') (no_space v ad (bn * Z.of_nat BSIZE) 1) s.
Proof.
  intros Hbn H0. unfold bmap. apply wpe_bind_wp, wp_get. cbv zeta. rewrite (proj2 (Z.ltb_lt bn NDIRECT)) by lia.
  rewrite H0, Hdev. cbn [Z.eqb negb]. eapply wpe_bind, wpe_mono; [eapply (balloc_ok sb k pid w v L ∅ Ly Hw)| |].
  - by rewrite map_size_empty.
  - exact Hmeta.
  - intros a [x Hx]. by rewrite lookup_empty in Hx.
  - exact F.
  - intros b s' ([l ->] & Hb & Hu & _ & F'). apply wpe_bind_wp. eapply upd_addr_ok; [exact F'|]. intros F2.
    apply wpe_wp, wp_ret. exists (alloc_view b v), (logged (logged L (BBLOCK b sb)) b), (<[Z.to_nat bn := b]> ad).
    split; [exact F2|done|by apply mapped_direct|]. intros c. rewrite !elem_logged. destruct Hb.
    rewrite (BBLOCK_small _ b Ly Hsz) by (pose proof (meta_pos _ _ Ly G); lia). tauto.
  - intros e He. apply no_space_full; [done|]. unfold baddr. by rewrite (proj2 (Z.ltb_lt bn NDIRECT)) by lia.
Qed.
End bmap.

(** ** Blocks named by the indirect block *)

(** [bmap] from [bread] of the indirect block on. *)
Definition bmap_entry (dev ind bn : Z) : M fs Z :=
  bp ← bop (bread dev ind);
  a ← bop (bdata bp);
  let addr := get_u32 (4 * Z.to_nat bn) a in
  addr ← (if negb (addr =? 0) then mret addr else
          addr ← balloc dev;
          a ← bop (bdata bp);
          bop (set_bdata bp (put_u32 (4 * Z.to_nat bn) addr a)) ;;
          lop (log_write bp) ;;
          mret addr);
  bop (brelse bp) ;;
  mret addr.

Section entry.
Context (s : fs) (v : list block) (L : list Z) (ip : nat).
Abbreviation ad := (di_addrs (din s ip)).
Hypothesis F : fs_ok s v L ∅.
Hypothesis Ly : layout sb (length v).
Hypothesis Hip : (ip < NINODE)%nat.
Hypothesis Fk : file_ok v ad.
Hypothesis Hw : 1 <= w.
Hypothesis Hroom : room sb L 2 2.
Hypothesis Hroom3 : Z.of_nat (length (logged L (sb_bmapstart sb))) + 2 <= sb_nlog sb - 1.
Hypothesis Hmeta : forall c, 0 <= c < datastart sb -> used v c = true.
Hypothesis Hi : indirect ad <> 0.

Let G : geometry sb (length v) := fs_geom _ _ _ _ _ _ _ _ F.
Let Hok : Forall block_ok v := fs_vok _ _ _ _ _ _ _ _ F.
Let Hsz : Z.of_nat (length v) <= FSSIZE := fs_size _ _ _ _ _ _ _ _ F.

(** Nothing allocated. *)
Lemma bmapped_same bn l : 0 <= bn < MAXFILE -> baddr v ad bn <> 0 -> fs_ok (set_fl l s) v L ∅ ->
  bmapped s ip v L bn (baddr v ad bn) (set_fl l s) v L ad.
Proof.
  intros Hbn H0 Fl. split; [done| |by apply mapped_same|by intros c ?; left].
  cbn [f_inodes set_fl]. unfold din. rewrite with_addrs_id. unfold inode_at. symmetry. apply insert_total_id.
Qed.

(** An entry [b] allocated. *)
Lemma bmapped_entry bn b l : NDIRECT <= bn < MAXFILE -> baddr v ad bn = 0 -> is_data b -> used v b = false ->
  let v' := <[Z.to_nat (indirect ad) := put_u32 (4 * Z.to_nat (bn - NDIRECT)) b (v !!! Z.to_nat (indirect ad))]> (alloc_view b v) in
  let L' := logged (logged (logged L (BBLOCK b sb)) b) (indirect ad) in
  fs_ok (set_fl l s) v' L' ∅ -> bmapped s ip v L bn b (set_fl l s) v' L' ad.
Proof.
  intros Hbn E0 Hb Hu v' L' Fl. pose proof (new_nz sb v b Ly G Hb). split; [exact Fl| |by apply mapped_entry|].
  - cbn [f_inodes set_fl]. unfold din. rewrite with_addrs_id. unfold inode_at. symmetry. apply insert_total_id.
  - intros c. unfold L'. rewrite !elem_logged. destruct Hb. rewrite (BBLOCK_small _ b Ly Hsz) by lia. tauto.
Qed.

Lemma entry_ok bn : NDIRECT <= bn < MAXFILE ->
  wpe (bmap_entry ROOTDEV (indirect ad) (bn - NDIRECT))
    (fun b s' => exists v' L', bmapped s ip v L bn b s' v' L' ad) (no_space v ad (bn * Z.of_nat BSIZE) 1) s.
Proof.
  intros Hbn. pose proof (fk_ind _ _ _ Fk Hi) as Hil. pose proof (live_range sb v Ly G _ Hil) as Hir.
  assert (exists d, v !! Z.to_nat (indirect ad) = Some d) as [d Hd]
    by (apply lookup_lt_is_Some_2; destruct Ly; lia).
  pose proof (list_lookup_total_correct _ _ _ Hd) as Hdt.
  assert (baddr v ad bn = get_u32 (4 * Z.to_nat (bn - NDIRECT)) d) as Eb.
  { unfold baddr. rewrite (proj2 (Z.ltb_ge bn NDIRECT)), (proj2 (Z.eqb_neq _ 0)), Hdt by (done || lia). done. }
  destruct Hroom as [Hr1 Hr2]. pose proof (map_size_empty (M := gmap Z) (A := nat)) as Hse.
  unfold bmap_entry. apply wpe_bind_wp. eapply fs_bread; [exact F|destruct Ly; lia|apply lookup_empty| |rewrite Hse; lia|].
  { apply (data_not_log sb (length v)); [done..|apply Hil]. }
  intros bp l1 F1 Hrel. apply wpe_bind_wp. eapply fs_bdata; [exact F1|apply lookup_insert_eq|exact Hd|]. cbv zeta.
  rewrite <- Eb. destruct (Z.eqb_spec (baddr v ad bn) 0) as [E0|E0]; cbn [negb].
  - eapply wpe_bind, wpe_bind, wpe_mono; [eapply (balloc_ok sb k pid w v L (<[indirect ad := bp]> ∅) Ly Hw); [| | |exact F1]| |].
    + unfold room. rewrite map_size_insert_None, Hse by apply lookup_empty. lia.
    + exact Hmeta.
    + intros a [x Hx]. destruct (decide (a = indirect ad)) as [->|Hne]; [done|].
      rewrite lookup_insert_ne, lookup_empty in Hx by done. done.
    + intros b s2 ([l2 ->] & Hb & Hu & _ & F2).
      pose proof (not_new sb v b Hu _ Hil) as Hne. pose proof (new_nz sb v b Ly G Hb) as Hbn0.
      apply wpe_wp. apply wp_bind. eapply fs_bdata; [exact F2|apply lookup_insert_eq| |].
      { fold (alloc_view b v). rewrite av_ne by (done || apply Hil). exact Hd. }
      apply wp_bind. eapply fs_set_bdata; [exact F2|apply lookup_insert_eq| | |].
      { destruct Hil as [[? _] _]. pose proof (meta_pos _ _ Ly G). lia. }
      { eapply Forall_lookup_1 in Hok as Hdo; [|exact Hd]. apply block_ok_put_u32; [done|]. unfold BSIZE, MAXFILE, NDIRECT, NINDIRECT in *. lia. }
      intros l3 F3. apply wp_bind.
      pose proof (length_logged (logged L (BBLOCK b sb)) b) as Hlg. fold (alloc_view b v) in F3.
      pose proof Hroom3 as Hr3. rewrite <- (BBLOCK_small _ b Ly Hsz) in Hr3 by (destruct Hb; lia).
      eapply fs_log_write; [exact F3|done|apply lookup_insert_eq| |lia|].
      { rewrite length_insert, length_alloc_view. destruct Hil as [[? _] _]. pose proof (meta_pos _ _ Ly G). destruct Ly. lia. }
      intros l4 F4. apply wp_ret. apply wpe_bind_wp. eapply fs_brelse; [exact F4|apply lookup_insert_eq|left; apply elem_logged; by right|].
      intros l5 F5. rewrite delete_insert_id in F5 by apply lookup_empty. apply wpe_wp, wp_ret.
      exists (<[Z.to_nat (indirect ad) := put_u32 (4 * Z.to_nat (bn - NDIRECT)) b d]> (alloc_view b v)),
        (logged (logged (logged L (BBLOCK b sb)) b) (indirect ad)).
      rewrite <- Hdt in F5 |- *. apply bmapped_entry; [done..|exact F5].
    + intros e He. by apply no_space_full.
  - apply wpe_wp, wp_bind, wp_ret. apply wp_bind. eapply fs_brelse; [exact F1|apply lookup_insert_eq|done|]. intros l2 F2.
    rewrite delete_insert_id in F2 by apply lookup_empty. apply wp_ret. exists v, L.
    apply bmapped_same; [unfold NDIRECT in *; lia|done|exact F2].
Qed.
End entry.

(** ** All of [bmap] *)

(** After the indirect block was allocated. *)
Lemma bmapped_indirect s ip v L ib t bn b s' v' L' ad1 :
  let ad := di_addrs (din s ip) in
  layout sb (length v) -> geometry sb (length v) -> Forall block_ok v -> Z.of_nat (length v) <= FSSIZE ->
  is_data ib -> used v ib = false -> file_ok v ad -> indirect ad = 0 -> (ip < length (f_inodes s))%nat ->
  ad1 = <[12%nat := ib]> ad -> f_inodes t = <[ip := with_addrs ad1 (inode_at s ip)]> (f_inodes s) ->
  NDIRECT <= bn < MAXFILE ->
  bmapped t ip (alloc_view ib v) (logged (logged L (BBLOCK ib sb)) ib) bn b s' v' L' ad1 ->
  bmapped s ip v L bn b s' v' L' ad1.
Proof.
  intros ad Ly G Hok Hsz Hib Hiu Fk Hi Hip Ead Et Hbn M. subst ad1.
  destruct (add_indirect sb v ad ib Ly G Hok Hib Hiu Fk Hi) as (_ & Ei & _).
  assert (inode_at t ip = with_addrs (<[12%nat := ib]> ad) (inode_at s ip)) as Eit.
  { unfold inode_at at 1. rewrite Et. by rewrite list_lookup_total_insert_eq. }
  assert (di_addrs (din t ip) = <[12%nat := ib]> ad) as Edt by (unfold din; by rewrite Eit).
  destruct M as [M1 M2 M3 M4]. rewrite Edt in *. split; [done| |by apply (mapped_indirect sb v ad ib)|].
  - rewrite M2, Et, Eit, list_insert_insert_eq. done.
  - intros c Hc. destruct (M4 c Hc) as [Hc'|[?|[?|?]]]; [|by auto..]. apply elem_logged in Hc' as [Hc'|Hc'].
    + apply elem_logged in Hc' as [?| ->]; [by left|]. right. right. left. apply (BBLOCK_small (length v)); [done..|].
      destruct Hib. pose proof (meta_pos _ _ Ly G). lia.
    + right. right. right. by rewrite Ei.
Qed.

Section bmap_all.
Context (s : fs) (v : list block) (L : list Z) (ip : nat).
Abbreviation ad := (di_addrs (din s ip)).
Hypothesis F : fs_ok s v L ∅.
Hypothesis Ly : layout sb (length v).
Hypothesis Hip : (ip < NINODE)%nat.
Hypothesis Hdev : i_dev (inode_at s ip) = ROOTDEV.
Hypothesis Fk : file_ok v ad.
Hypothesis Hw : 1 <= w.
Hypothesis Hroom : room sb L (if decide (indirect ad = 0) then 4 else 3) 2.
Hypothesis Hmeta : forall c, 0 <= c < datastart sb -> used v c = true.

Let G : geometry sb (length v) := fs_geom _ _ _ _ _ _ _ _ F.
Let Hok : Forall block_ok v := fs_vok _ _ _ _ _ _ _ _ F.
Let Hsz : Z.of_nat (length v) <= FSSIZE := fs_size _ _ _ _ _ _ _ _ F.

(** [bmap] once the indirect block [ib] was allocated and its address stored. *)
Lemma bmap_indirect bn ib l1 :
  let t := mkFs l1 (<[ip := with_addrs (<[12%nat := ib]> ad) (inode_at s ip)]> (f_inodes s)) (f_sb s) in
  let L1 := logged (logged L (BBLOCK ib sb)) ib in
  NDIRECT <= bn < MAXFILE -> indirect ad = 0 -> is_data ib -> used v ib = false -> fs_ok t (alloc_view ib v) L1 ∅ ->
  wpe (bmap_entry ROOTDEV ib (bn - NDIRECT)) (fun b s' => exists v' L' ad', bmapped s ip v L bn b s' v' L' ad') (no_space v ad (bn * Z.of_nat BSIZE) 1) t.
Proof.
  intros t L1 Hbn Hi Hib Hiu Ft. pose proof (length_logged2 L (BBLOCK ib sb) ib) as Hlg. fold L1 in Hlg.
  assert (inode_at t ip = with_addrs (<[12%nat := ib]> ad) (inode_at s ip)) as Eit.
  { unfold inode_at at 1. cbn [t f_inodes]. rewrite list_lookup_total_insert_eq; [done|]. by rewrite (fo_inodes _ _ _ _ _ _ _ _ F). }
  assert (di_addrs (din t ip) = <[12%nat := ib]> ad) as Edt by (unfold din; by rewrite Eit).
  destruct (add_indirect sb v ad ib Ly G Hok Hib Hiu Fk Hi) as (Fk' & Ei & _).
  pose proof (length_alloc_view sb v ib) as Hla. pose proof (new_nz sb v ib Ly G Hib).
  replace (bmap_entry ROOTDEV ib (bn - NDIRECT)) with (bmap_entry ROOTDEV (indirect (di_addrs (din t ip))) (bn - NDIRECT))
    by (by rewrite Edt, Ei).
  eapply wpe_mono; [eapply (entry_ok t (alloc_view ib v) _ ip Ft)| |].
  - by rewrite Hla.
  - done.
  - by rewrite Edt.
  - done.
  - rewrite decide_True in Hroom by done. destruct Hroom. unfold room. lia.
  - rewrite decide_True in Hroom by done. destruct Hroom. assert (logged L1 (sb_bmapstart sb) = L1) as ->; [|lia].
    unfold logged at 1. rewrite decide_True; [done|]. apply elem_logged. left. apply elem_logged. right.
    symmetry. apply (BBLOCK_small (length v)); [done..|]. destruct Hib. lia.
  - intros c Hc. rewrite av_used by (done || (pose proof (ly_data _ _ Ly); lia)). rewrite Hmeta by done. apply orb_true_r.
  - rewrite Edt, Ei. lia.
  - done.
  - intros b s' (v' & L' & M). exists v', L', (di_addrs (din t ip)).
    eapply (bmapped_indirect s ip v L ib t); [done..|by rewrite (fo_inodes _ _ _ _ _ _ _ _ F)|exact Edt| |done|exact M].
    by rewrite Edt.
  - rewrite Edt. intros e. apply no_space_later; [done|]. intros lo hi Hc. apply (indirect_spare sb v ad ib bn); [done..|lia|done].
Qed.

Lemma bmap_ok bn : 0 <= bn < MAXFILE ->
  wpe (bmap ip bn) (fun b s' => exists v' L' ad', bmapped s ip v L bn b s' v' L' ad') (fun e => no_space v ad (bn * Z.of_nat BSIZE) 1 e /\ baddr v ad bn = 0) s.
Proof.
  intros Hbn. destruct (decide (baddr v ad bn = 0)) as [H0|H0].
  2: { apply wpe_wp. eapply bmap_mapped; [exact F|done..|destruct Hroom as [_ Hr]; case_decide; lia|]. intros l Fl. exists v, L, ad. by eapply bmapped_same. }
  eapply (wpe_mono _ _ _ (no_space v ad (bn * Z.of_nat BSIZE) 1)); [|intros b s' H; exact H|intros e He; by split]. destruct (decide (bn < NDIRECT)) as [Hd|Hd].
  { apply (bmap_direct s v L ip F Ly Hip Hdev Fk Hw); [destruct Hroom, (decide _); unfold room; lia|done|lia|]. unfold baddr in H0. by rewrite (proj2 (Z.ltb_lt bn NDIRECT)) in H0. }
  assert (NDIRECT <= bn < MAXFILE) as Hbn' by lia.
  unfold bmap. apply wpe_bind_wp, wp_get. cbv zeta. rewrite (proj2 (Z.ltb_ge bn NDIRECT)) by lia.
  rewrite (proj2 (Z.ltb_lt (bn - NDIRECT) NINDIRECT)) by (unfold MAXFILE in Hbn; lia). rewrite Hdev.
  change (ad !!! Z.to_nat NDIRECT) with (indirect ad). destruct (Z.eqb_spec (indirect ad) 0) as [Hi|Hi]; cbn [negb].
  - eapply wpe_bind, wpe_bind, wpe_mono; [eapply (balloc_ok sb k pid w v L ∅ Ly Hw); [| | |exact F]| |].
    + rewrite map_size_empty. destruct Hroom, (decide _); unfold room; lia.
    + exact Hmeta.
    + intros a [x Hx]. by rewrite lookup_empty in Hx.
    + intros ib s1 ([l1 ->] & Hib & Hiu & _ & F1). apply wpe_bind_wp. eapply (upd_addr_ok ip); [exact F1|]. intros F2.
      apply wpe_wp, wp_ret. by apply (bmap_indirect bn ib l1).
    + intros e He. by apply no_space_full.
  - apply wpe_bind_wp, wp_ret. eapply wpe_mono; [eapply (entry_ok s v L ip F Ly Hip Fk Hw)| |by intros e].
    + destruct Hroom, (decide _); unfold room; lia.
    + pose proof (length_logged L (sb_bmapstart sb)). destruct Hroom, (decide _); lia.
    + exact Hmeta.
    + exact Hi.
    + done.
    + intros b s' (v' & L' & M). by exists v', L', ad.
Qed.
End bmap_all.

(** ** [writei] *)

(** *** What is logged *)

(** The blocks logged since [L0]: the bitmap, the indirect block and [T]. *)
Definition logs_in (L0 T L ad : list Z) : Prop :=
  forall c, c ∈ L -> c ∈ L0 \/ c = sb_bmapstart sb \/ c = indirect ad \/ c ∈ T.

Lemma logs_length s v L0 T L ad : fs_ok s v L ∅ -> logs_in L0 T L ad ->
  (length L <= length L0 + (if decide (indirect ad = 0%Z) then 1 else 2) + length T)%nat.
Proof.
  intros F HL. pose proof (lr_home _ _ _ _ _ (tx_rep _ _ _ _ _ _ _ (fo_tx _ _ _ _ _ _ _ _ F))) as (Hnd & _ & Hpos).
  assert (L ⊆+ L0 ++ (if decide (indirect ad = 0) then [] else [indirect ad]) ++ sb_bmapstart sb :: T) as Hs.
  { apply NoDup_submseteq; [done|]. intros c Hc. rewrite !elem_of_app, elem_of_cons. destruct (HL c Hc) as [?|[?|[->|?]]]; [by auto..| |by auto].
    right. left. destruct (Hpos _ Hc). rewrite decide_False by lia. by apply list_elem_of_singleton. }
  apply submseteq_length in Hs. rewrite !length_app in Hs. case_decide; simpl in *; lia.
Qed.

Lemma bmap_logs s ip v L bn b t v1 L1 ad1 L0 T : geometry sb (length v) ->
  bmapped s ip v L bn b t v1 L1 ad1 -> fs_ok s v L ∅ -> logs_in L0 T L (di_addrs (din s ip)) -> logs_in L0 (b :: T) L1 ad1.
Proof.
  intros G M F HL c Hc. pose proof (lr_home _ _ _ _ _ (tx_rep _ _ _ _ _ _ _ (fo_tx _ _ _ _ _ _ _ _ F))) as (_ & _ & Hpos).
  rewrite elem_of_cons. destruct (bm_log _ _ _ _ _ _ _ _ _ _ M c Hc) as [Hc'|[?|[?|?]]]; [|by auto..].
  destruct (HL c Hc') as [?|[?|[Hi|?]]]; [by auto..| |by auto]. destruct (Hpos _ Hc').
  destruct (mp_ind _ _ _ _ _ _ _ (bm_map _ _ _ _ _ _ _ _ _ _ M)) as [E|[E _]]; [|lia]. rewrite E. auto.
Qed.

(** *** The loop *)

(** Storing [chunk] at [o] in the block [b]. *)
Lemma store_chunk {A} t v1 L1 b o chunk d (K : M fs A) Q E :
  fs_ok t v1 L1 ∅ -> layout sb (length v1) -> live v1 b -> v1 !! Z.to_nat b = Some d -> 1 <= w -> (length L1 < NBUF)%nat ->
  Z.of_nat (length L1) < sb_nlog sb - 1 -> Forall is_byte chunk -> (o + length chunk <= BSIZE)%nat ->
  (forall l, fs_ok (set_fl l t) (<[Z.to_nat b := splice o chunk d]> v1) (logged L1 b) ∅ -> wpe K Q E (set_fl l t)) ->
  wpe (bp ← bop (bread ROOTDEV b); d ← bop (bdata bp); bop (set_bdata bp (splice o chunk d)) ;;
       lop (log_write bp) ;; bop (brelse bp) ;; K) Q E t.
Proof.
  intros F Ly Hl Hd Hw HL HL2 Hch Ho HK. pose proof (fs_geom _ _ _ _ _ _ _ _ F) as G. pose proof (live_range sb v1 Ly G _ Hl) as Hr.
  pose proof (meta_pos _ _ Ly G) as Hmp. assert (1 < b) as Hb1 by (destruct Hl as [[? _] _]; lia).
  apply wpe_bind_wp. eapply fs_bread; [exact F|destruct Ly; lia|apply lookup_empty| |rewrite map_size_empty; lia|].
  { apply (data_not_log sb (length v1)); [done..|apply Hl]. }
  intros bp l1 F1 _. apply wpe_bind_wp. eapply fs_bdata; [exact F1|apply lookup_insert_eq|exact Hd|].
  apply wpe_bind_wp. eapply fs_set_bdata; [exact F1|apply lookup_insert_eq|done| |].
  { apply block_ok_splice; [|done..]. eapply Forall_lookup_1; [apply (fs_vok _ _ _ _ _ _ _ _ F)|exact Hd]. }
  intros l2 F2. apply wpe_bind_wp. eapply fs_log_write; [exact F2|done|apply lookup_insert_eq|rewrite length_insert; destruct Ly; lia|done|].
  intros l3 F3. apply wpe_bind_wp. eapply fs_brelse; [exact F3|apply lookup_insert_eq|left; apply elem_logged; by right|].
  intros l4 F4. rewrite delete_insert_id in F4 by apply lookup_empty. exact (HK _ F4).
Qed.

(** The inode [ip] and the view after [src] was stored. *)
Definition stored (s : fs) (ip : nat) (v : list block) (off : Z) (src : list Z) (s' : fs) (v' : list block) (ad' : list Z) : Prop :=
  f_inodes s' = <[ip := with_addrs ad' (inode_at s ip)]> (f_inodes s) /\ written sb v (di_addrs (din s ip)) off src v' ad'.

Lemma stored_inode s ip v off src s' v' ad' : (ip < length (f_inodes s))%nat -> stored s ip v off src s' v' ad' ->
  inode_at s' ip = with_addrs ad' (inode_at s ip).
Proof. intros Hip [E _]. unfold inode_at at 1. rewrite E. by rewrite list_lookup_total_insert_eq. Qed.

Lemma stored_addrs s ip v off src s' v' ad' : (ip < length (f_inodes s))%nat -> stored s ip v off src s' v' ad' -> di_addrs (din s' ip) = ad'.
Proof. intros Hip St. unfold din. by rewrite (stored_inode _ _ _ _ _ _ _ _ Hip St). Qed.

Lemma stored_nil s ip v off : 0 <= off -> off mod Z.of_nat BSIZE = 0 \/ baddr v (di_addrs (din s ip)) (off / Z.of_nat BSIZE) <> 0 ->
  file_ok v (di_addrs (din s ip)) -> stored s ip v off [] s v (di_addrs (din s ip)).
Proof.
  intros Hoff Ho Fk. split; [|by apply written_nil]. unfold din. rewrite with_addrs_id. unfold inode_at. symmetry. apply insert_total_id.
Qed.

Lemma stored_trans s ip v off c1 c2 s2 v2 ad2 s3 v3 ad3 : layout sb (length v) -> geometry sb (length v) -> (ip < length (f_inodes s))%nat ->
  0 <= off -> off + Z.of_nat (length (c1 ++ c2)) <= MAXFILE * Z.of_nat BSIZE ->
  stored s ip v off c1 s2 v2 ad2 -> stored s2 ip v2 (off + Z.of_nat (length c1)) c2 s3 v3 ad3 -> stored s ip v off (c1 ++ c2) s3 v3 ad3.
Proof.
  intros Ly G Hip Hoff Hmax S1 S2. pose proof (stored_inode _ _ _ _ _ _ _ _ Hip S1) as Ei. pose proof (stored_addrs _ _ _ _ _ _ _ _ Hip S1) as Ea.
  destruct S1 as [E1 W1], S2 as [E2 W2]. rewrite Ea in W2. split; [by rewrite E2, Ei, E1, list_insert_insert_eq|]. by eapply written_trans.
Qed.

Section loop.
Context (ip : nat) (L0 : list Z) (nblk : nat).
Hypothesis Hip : (ip < NINODE)%nat.
Hypothesis Hw : 1 <= w.
Hypothesis Hroom : room sb L0 (nblk + 4) 2.

(** The conditions on a turn of the loop, that has touched [T] so far. *)
Record turn_ok (s : fs) (v : list block) (L T : list Z) (off : Z) (src : list Z) : Prop := {
  to_fs : fs_ok s v L ∅;
  to_ly : layout sb (length v);
  to_dev : i_dev (inode_at s ip) = ROOTDEV;
  to_file : file_ok v (di_addrs (din s ip));
  to_meta : forall c, 0 <= c < datastart sb -> used v c = true;
  to_logs : logs_in L0 T L (di_addrs (din s ip));
  to_off : 0 <= off;
  to_max : off + Z.of_nat (length src) <= MAXFILE * Z.of_nat BSIZE;
  to_src : Forall is_byte src;
  to_at : (0 < length src)%nat \/ off mod Z.of_nat BSIZE = 0 \/ baddr v (di_addrs (din s ip)) (off / Z.of_nat BSIZE) <> 0;
  to_blocks : Z.of_nat (length T) + (if decide (src = []) then 0 else nblocks off (Z.of_nat (length src))) <= Z.of_nat nblk;
}.

Definition loop_post (s : fs) (v : list block) (off : Z) (src : list Z) (off' : Z) (s' : fs) : Prop :=
  off' = off + Z.of_nat (length src) /\
  exists v' L' ad' T', fs_ok s' v' L' ∅ /\ stored s ip v off src s' v' ad' /\ logs_in L0 T' L' ad' /\ (length T' <= nblk)%nat.

(** After a turn that stored [chunk]. *)
Lemma turn_next s v L T off chunk rest b t v1 L1 ad1 d l :
  turn_ok s v L T off (chunk ++ rest) -> chunk <> [] -> off mod Z.of_nat BSIZE + Z.of_nat (length chunk) <= Z.of_nat BSIZE ->
  (rest = [] \/ off mod Z.of_nat BSIZE + Z.of_nat (length chunk) = Z.of_nat BSIZE) ->
  bmapped s ip v L (off / Z.of_nat BSIZE) b t v1 L1 ad1 -> v1 !! Z.to_nat b = Some d -> length d = BSIZE ->
  let v2 := <[Z.to_nat b := splice (Z.to_nat (off mod Z.of_nat BSIZE)) chunk d]> v1 in
  fs_ok (set_fl l t) v2 (logged L1 b) ∅ ->
  stored s ip v off chunk (set_fl l t) v2 ad1 /\
  turn_ok (set_fl l t) v2 (logged L1 b) (b :: T) (off + Z.of_nat (length chunk)) rest.
Proof.
  intros [F Ly Hdev Fk Hmeta HL Hoff Hmax Hsrc Hat Hblk] Hne Hc Hrest M Hd Hdl v2 F2. pose proof (fs_geom _ _ _ _ _ _ _ _ F) as G.
  rewrite length_app in *. assert (0 < length chunk)%nat by (destruct chunk; [done|simpl; lia]).
  assert (0 <= off < MAXFILE * Z.of_nat BSIZE) as Hoff' by lia.
  pose proof (turn_written sb v (di_addrs (din s ip)) off b chunk v1 ad1 d Ly G Fk (bm_map _ _ _ _ _ _ _ _ _ _ M) Hoff' Hd Hdl Hc ltac:(done)) as W.
  fold v2 in W. assert (stored s ip v off chunk (set_fl l t) v2 ad1) as St by (split; [apply M|exact W]). split; [exact St|]. assert (ip < length (f_inodes s))%nat as Hip' by (by rewrite (fo_inodes _ _ _ _ _ _ _ _ F)).
  pose proof (stored_inode _ _ _ _ _ _ _ _ Hip' St) as Ei. pose proof (stored_addrs _ _ _ _ _ _ _ _ Hip' St) as Ea.
  pose proof (wr_len _ _ _ _ _ _ _ W) as El.
  split; [exact F2|by rewrite El|by rewrite Ei|rewrite Ea; apply W| | |lia|lia| | |].
  - intros c Hcr. apply (wr_used _ _ _ _ _ _ _ W); [|by apply Hmeta]. pose proof (ly_data _ _ Ly). lia.
  - rewrite Ea. pose proof (bmap_logs _ _ _ _ _ _ _ _ _ _ L0 T G M F HL) as HL1. intros c Hcl. apply elem_logged in Hcl as [Hcl| ->]; [by apply HL1|].
    right. right. right. apply elem_of_cons. by left.
  - by apply Forall_app in Hsrc as [_ ?].
  - destruct rest as [|x rest']; [right|by left; simpl; lia].
    destruct (decide (off mod Z.of_nat BSIZE + Z.of_nat (length chunk) = Z.of_nat BSIZE)) as [E|E]; [left; apply io_next; lia|right].
    rewrite Ea. apply (wr_hole _ _ _ _ _ _ _ W); [apply Z.div_le_mono; unfold BSIZE; lia|].
    destruct (same_block off (Z.of_nat (length chunk))) as [-> _]; [lia..|]. pose proof (Z.mul_div_le off (Z.of_nat BSIZE) eq_refl). lia.
  - rewrite decide_False in Hblk by (by destruct chunk). pose proof (nblocks_pos off (Z.of_nat (length chunk + length rest))).
    cbn [length]. destruct Hrest as [->|Hm]; [rewrite decide_True by done; lia|].
    pose proof (nblocks_next off (Z.of_nat (length chunk + length rest)) (Z.of_nat (length chunk)) Hoff ltac:(lia)) as E.
    replace (Z.of_nat (length chunk + length rest) - Z.of_nat (length chunk)) with (Z.of_nat (length rest)) in E by lia.
    destruct (decide (rest = [])); lia.
Qed.

(** A turn leaves no block unmapped that was mapped. *)
Lemma turn_holes s v off chunk rest t v2 ad1 : stored s ip v off chunk t v2 ad1 -> di_addrs (din t ip) = ad1 -> 0 <= off ->
  off + Z.of_nat (length (chunk ++ rest)) <= MAXFILE * Z.of_nat BSIZE ->
  ~ no_hole v2 (di_addrs (din t ip)) (off + Z.of_nat (length chunk)) (off + Z.of_nat (length chunk) + Z.of_nat (length rest)) ->
  ~ no_hole v (di_addrs (din s ip)) off (off + Z.of_nat (length (chunk ++ rest))).
Proof.
  intros [_ W] Ea Hoff Hmax Hh Hn. apply Hh. intros bn H1 H2. rewrite length_app in *. assert (off / Z.of_nat BSIZE <= bn) as Hlo by (etrans; [apply (Z.div_le_mono off (off + Z.of_nat (length chunk))); unfold BSIZE; lia|done]).
  assert (0 <= off / Z.of_nat BSIZE) by (apply Z.div_pos; [lia|done]). assert (baddr v (di_addrs (din s ip)) bn <> 0) as H0 by (apply Hn; lia).
  rewrite Ea. rewrite (wr_map _ _ _ _ _ _ _ W bn); [done| |done]. unfold BSIZE in *. lia.
Qed.

Lemma writei_loop_ok fuel : forall s v L T off src, turn_ok s v L T off src ->
  (src = [] \/ off mod Z.of_nat BSIZE + Z.of_nat (length src) <= Z.of_nat fuel * Z.of_nat BSIZE) ->
  wpe (writei_loop fuel ip src off) (loop_post s v off src)
    (fun e => no_space v (di_addrs (din s ip)) off (Z.of_nat (length src)) e /\ ~ no_hole v (di_addrs (din s ip)) off (off + Z.of_nat (length src))) s.
Proof.
  induction fuel as [|fuel IH]; intros s v L T off src O Hfuel; cbn [writei_loop];
    pose proof (Z.mod_pos_bound off (Z.of_nat BSIZE) eq_refl) as Hp; pose proof O as [F Ly Hdev Fk Hmeta HL Hoff Hmax Hsrc Hat Hblk];
    (destruct src as [|x0 src0] eqn:Esrc; [cbn [length]; apply wpe_wp, wp_ret; split; [simpl; lia|]; exists v, L, (di_addrs (din s ip)), T;
      split; [done|]; split; [by apply stored_nil; [|destruct Hat as [Hat|Hat]; [simpl in Hat; lia|]|]|]; split; [done|]; simpl in Hblk; lia|]).
  { destruct Hfuel as [?|Hfuel]; [done|]. cbn [length] in Hfuel. lia. }
  rewrite <- Esrc in *. assert (0 < length src)%nat as Hpos by (rewrite Esrc; simpl; lia). rewrite (proj2 (Z.ltb_lt 0 _)) by lia. cbn [negb].
  pose proof (fs_geom _ _ _ _ _ _ _ _ F) as G. pose proof (block_of off ltac:(lia)) as Hbn.
  assert (1 <= nblocks off (Z.of_nat (length src))) as Hnb by (apply nblocks_pos; lia).
  rewrite decide_False in Hblk by (by rewrite Esrc). pose proof (logs_length _ _ _ _ _ _ F HL) as HlenL. destruct Hroom as [Hr1 Hr2].
  apply wpe_bind_wp, wp_get. eapply wpe_bind, wpe_mono; [eapply (bmap_ok s v L ip F Ly Hip Hdev Fk Hw)| |].
  { unfold room. destruct (decide (indirect _ = 0)); lia. }
  { exact Hmeta. }
  { exact Hbn. }
  2: { intros e [He H0]. split; [eapply no_space_wide; [|exact He]; intros lo hi Hc; destruct (covers_block _ _ _ _ Hc) as [B1 B2]; [lia|]; unfold covers; unfold BSIZE in *; lia|]. intros Hn. apply (Hn (off / Z.of_nat BSIZE)); [lia| |done]. pose proof (Z.mul_div_le off (Z.of_nat BSIZE) eq_refl). lia. }
  intros b t (v1 & L1 & ad1 & M). cbv zeta. rewrite Hdev. set (m := Z.min _ _). assert (0 < m <= Z.of_nat (length src)) as Hm by (unfold m; lia).
  destruct (turn_live sb v (di_addrs (din s ip)) off b v1 ad1 Ly G (bm_map _ _ _ _ _ _ _ _ _ _ M) ltac:(lia)) as (Hlb & _ & Hb).
  destruct (lookup_lt_is_Some_2 v1 (Z.to_nat b)) as [d Hd]; [lia|].
  pose proof (bm_fs _ _ _ _ _ _ _ _ _ _ M) as F1. pose proof (Forall_lookup_1 _ _ _ _ (fs_vok _ _ _ _ _ _ _ _ F1) Hd) as [Hdl _].
  pose proof (logs_length _ _ _ _ _ _ F1 (bmap_logs _ _ _ _ _ _ _ _ _ _ L0 T G M F HL)) as HlenL1.
  assert (length L1 <= length L0 + 2 + S (length T))%nat as HlenL1' by (cbn [length] in HlenL1; case_decide; lia).
  set (chunk := take (Z.to_nat m) src). set (rest := drop (Z.to_nat m) src). assert (length chunk = Z.to_nat m) as Hcl by (unfold chunk; rewrite length_take; lia).
  assert (chunk ++ rest = src) as Ecr by apply take_drop. rewrite <- Ecr in O.
  eapply store_chunk; [exact F1|by rewrite (mp_len _ _ _ _ _ _ _ (bm_map _ _ _ _ _ _ _ _ _ _ M))|done|exact Hd|done|lia|lia|by apply Forall_take|unfold m in *; lia|].
  intros l F2. destruct (turn_next s v L T off chunk rest b t v1 L1 ad1 d l O) as [W O2]; [by intros E; rewrite E in Hcl; simpl in Hcl; lia|unfold m in *; lia| |done..|].
  { destruct (decide (m = Z.of_nat (length src))) as [E|E]; [left; unfold rest; apply drop_ge; lia|right; unfold m in *; lia]. }
  replace (off + m) with (off + Z.of_nat (length chunk)) by lia. eapply wpe_mono; [eapply IH; [exact O2|]| |].
  - destruct (decide (rest = [])) as [?|Hne]; [by left|right]. destruct Hfuel as [->|Hfuel]; [done|].
    assert (m <> Z.of_nat (length src)) by (intros E; apply Hne; unfold rest; apply drop_ge; lia).
    rewrite io_next by (unfold m in *; lia). unfold rest. rewrite length_drop. unfold m in *. lia.
  - intros off' s' [-> (v' & L' & ad' & T' & F' & W' & HL' & HT')]. split; [rewrite <- Ecr, length_app; lia|].
    exists v', L', ad', T'. split; [done|]. split; [|done]. rewrite <- Ecr. eapply stored_trans; [done..|by rewrite (fo_inodes _ _ _ _ _ _ _ _ F)|done|by rewrite Ecr|exact W|exact W'].
  - intros e [He Hh2]. assert (di_addrs (din (set_fl l t) ip) = ad1) as Ead by (eapply stored_addrs; [|exact W]; by rewrite (fo_inodes _ _ _ _ _ _ _ _ F)). rewrite <- Ecr. split.
    { eapply no_space_later; [| |exact He]; rewrite length_app, Nat2Z.inj_add; intros lo hi [C1 C2]%covers_app; [done|lia..| |lia|lia]. rewrite Ead. by apply (wr_spare _ _ _ _ _ _ _ (proj2 W)). } eapply (turn_holes s v off chunk rest); [exact W| |done|by rewrite Ecr|exact Hh2].
    eapply stored_addrs; [|exact W]. by rewrite (fo_inodes _ _ _ _ _ _ _ _ F).
Qed.
End loop.

(** *** The whole of [writei] *)

(** [src] was written at [off] to the file of the inode [ip]. *)
Record wrote (s : fs) (ip : nat) (v : list block) (L : list Z) (off : Z) (src : list Z) (s' : fs) (v' : list block) (L' : list Z) : Prop := {
  wt_fs : fs_ok s' v' L' ∅;
  wt_len : length v' = length v;
  wt_inodes : f_inodes s' = <[ip := set_din (din s' ip) (inode_at s ip)]> (f_inodes s);
  wt_din : din s' ip = set_addrs (di_addrs (din s' ip)) (set_size (Z.max (di_size (din s ip)) (off + Z.of_nat (length src))) (din s ip));
  wt_file : file_ok v' (di_addrs (din s' ip));
  wt_hole : no_hole v' (di_addrs (din s' ip)) 0 (di_size (din s' ip));
  wt_bytes : forall o, 0 <= o < di_size (din s' ip) -> fbyte v' (di_addrs (din s' ip)) o =
    if decide (off <= o < off + Z.of_nat (length src)) then src !!! Z.to_nat (o - off) else fbyte v (di_addrs (din s ip)) o;
  wt_other : forall a, live v a -> a <> indirect (di_addrs (din s ip)) ->
    (forall bn, 0 <= bn < MAXFILE -> baddr v (di_addrs (din s ip)) bn <> a) -> v' !! Z.to_nat a = v !! Z.to_nat a;
  wt_others : forall j, is_inum sb j -> j <> i_inum (inode_at s ip) -> dinode_at sb v' j = dinode_at sb v j;
  wt_disk : dinode_at sb v (i_inum (inode_at s ip)) = din s ip -> dinode_at sb v' (i_inum (inode_at s ip)) = din s' ip;
  wt_used : forall c, 0 <= c < sb_size sb -> used v c = true -> used v' c = true;
  wt_acct : forall c, 0 <= c < sb_size sb -> used v' c = true -> used v c = true \/ has_block v' (di_addrs (din s' ip)) c;
  wt_new : forall a, has_block v' (di_addrs (din s' ip)) a -> has_block v (di_addrs (din s ip)) a \/ used v a = false;
  wt_old : forall a, has_block v (di_addrs (din s ip)) a -> has_block v' (di_addrs (din s' ip)) a;
  wt_meta : forall a, 0 <= a < sb_bmapstart sb -> a <> IBLOCK (i_inum (inode_at s ip)) sb -> v' !! Z.to_nat a = v !! Z.to_nat a;
  wt_spare : forall lo hi, covers lo hi off (Z.of_nat (length src)) -> spare sb v (di_addrs (din s ip)) lo hi <= spare sb v' (di_addrs (din s' ip)) lo hi;
  wt_log : Z.of_nat (length L') <= Z.of_nat (length L) + nblocks off (Z.of_nat (length src)) + 3;
}.

Section writei.
Context (s : fs) (ip : nat) (v : list block) (L : list Z) (off : Z) (src : list Z).
Abbreviation d := (din s ip).
Abbreviation n := (Z.of_nat (length src)).
Hypothesis F : fs_ok s v L ∅.
Hypothesis Ly : layout sb (length v).
Hypothesis Hip : (ip < NINODE)%nat.
Hypothesis Hdev : i_dev (inode_at s ip) = ROOTDEV.
Hypothesis Hinum : is_inum sb (i_inum (inode_at s ip)).
Hypothesis Hk : dinode_ok d.
Hypothesis Fk : file_ok v (di_addrs d).
Hypothesis Hs : 0 <= di_size d <= MAXFILE * Z.of_nat BSIZE.
Hypothesis Hh : no_hole v (di_addrs d) 0 (di_size d).
Hypothesis Hw : 1 <= w.
Hypothesis Hroom : room sb L (Z.to_nat (nblocks off n) + 4) 2.
Hypothesis Hmeta : forall c, 0 <= c < datastart sb -> used v c = true.
Hypothesis Hsrc : Forall is_byte src.
Hypothesis Hoff : 0 <= off <= di_size d.
Hypothesis Hmax : off + n <= MAXFILE * Z.of_nat BSIZE.

Let G : geometry sb (length v) := fs_geom _ _ _ _ _ _ _ _ F.

Lemma nblocks_nonneg : 0 <= nblocks off n.
Proof. unfold nblocks, BSIZE. destruct Hoff. Z.to_euclidean_division_equations. lia. Qed.

Lemma writei_turn : turn_ok ip L (Z.to_nat (nblocks off n)) s v L [] off src.
Proof.
  pose proof nblocks_nonneg as Hn. split; [done..| |lia|done|done| |].
  - intros c Hc. by left.
  - destruct (decide (off mod Z.of_nat BSIZE = 0)) as [E|E]; [by right; left|right; right]. apply Hh.
    + change (0 / Z.of_nat BSIZE) with 0. apply Z.div_pos; [lia|done].
    + pose proof (Z.div_mod off (Z.of_nat BSIZE) ltac:(done)). pose proof (Z.mod_pos_bound off (Z.of_nat BSIZE) eq_refl). lia.
  - destruct (decide (src = [])); simpl; lia.
Qed.

Lemma writei_logs t v' L' ad' T' : fs_ok t v' L' ∅ -> logs_in L T' L' ad' -> (length T' <= Z.to_nat (nblocks off n))%nat ->
  Z.of_nat (length L') <= Z.of_nat (length L) + nblocks off n + 2.
Proof.
  intros F' HL' HT'. pose proof (logs_length _ _ _ _ _ _ F' HL') as Hl. pose proof nblocks_nonneg. case_decide; lia.
Qed.

(** Within the old size: no inode is written. *)
Lemma wrote_inside t v' L' ad' T' : off + n <= di_size d -> fs_ok t v' L' ∅ -> stored s ip v off src t v' ad' ->
  logs_in L T' L' ad' -> (length T' <= Z.to_nat (nblocks off n))%nat -> wrote s ip v L off src t v' L'.
Proof.
  intros Hin F' St HL' HT'. pose proof (proj2 St) as W. pose proof (writei_logs _ _ _ _ _ F' HL' HT') as Hl.
  assert (ip < length (f_inodes s))%nat as Hip' by (by rewrite (fo_inodes _ _ _ _ _ _ _ _ F)).
  assert (ad' = di_addrs d) as Ead.
  { apply (wr_same _ _ _ _ _ _ _ W). intros bn H1 H2. apply Hh; [|lia]. change (0 / Z.of_nat BSIZE) with 0.
    pose proof (Z.div_pos off (Z.of_nat BSIZE) ltac:(lia) eq_refl). lia. }
  pose proof (stored_inode _ _ _ _ _ _ _ _ Hip' St) as Ei. subst ad'. unfold din in Ei at 1. rewrite with_addrs_id in Ei.
  assert (din t ip = d) as Ed by (unfold din; by rewrite Ei).
  destruct (written_all sb _ _ _ _ _ _ _ (proj1 Hoff) Hs (proj2 Hoff) Hmax Hh W) as [Wh Wb]. rewrite Z.max_l in Wh, Wb by lia.
  split; rewrite ?Ed; try done; try apply W; try lia.
  - rewrite (proj1 St). unfold with_addrs, din. by destruct (inode_at s ip) as [? ? ? ? ? []].
  - rewrite Z.max_l by lia. by destruct d.
  - intros j Hj _. unfold dinode_at. rewrite !list_lookup_total_alt. rewrite (wr_meta _ _ _ _ _ _ _ W); [done|].
    pose proof (IBLOCK_range sb _ Ly j Hj). pose proof (meta_pos _ _ Ly G). lia.
  - intros E. rewrite <- E. unfold dinode_at. rewrite !list_lookup_total_alt. rewrite (wr_meta _ _ _ _ _ _ _ W); [done|].
    pose proof (IBLOCK_range sb _ Ly _ Hinum). pose proof (meta_pos _ _ Ly G). lia.
  - intros a. by apply (written_new sb _ _ _ _ _ _ a W).
  - intros a. by apply (written_old sb _ _ _ _ _ _ a W).
  - intros a Ha _. by apply (wr_meta _ _ _ _ _ _ _ W).
Qed.

(** Beyond it: the new size goes to the inode, and the inode to the disk. *)
Lemma wrote_beyond t v' L' ad' T' l : di_size d < off + n -> fs_ok t v' L' ∅ -> stored s ip v off src t v' ad' ->
  logs_in L T' L' ad' -> (length T' <= Z.to_nat (nblocks off n))%nat ->
  let i2 := set_din (set_addrs ad' (set_size (off + n) d)) (inode_at s ip) in
  let t2 := mkFs l (<[ip := i2]> (f_inodes s)) (f_sb t) in
  let v2 := put_inode sb (i_inum (inode_at s ip)) (i_din i2) v' in
  fs_ok t2 v2 (logged L' (IBLOCK (i_inum (inode_at s ip)) sb)) ∅ ->
  wrote s ip v L off src t2 v2 (logged L' (IBLOCK (i_inum (inode_at s ip)) sb)).
Proof.
  intros Hout F' St HL' HT' i2 t2 v2 F2. pose proof (proj2 St) as W. pose proof (writei_logs _ _ _ _ _ F' HL' HT') as Hl.
  assert (ip < length (f_inodes s))%nat as Hip' by (by rewrite (fo_inodes _ _ _ _ _ _ _ _ F)).
  assert (inode_at t2 ip = i2) as Ei by (unfold inode_at, t2; cbn [f_inodes]; by rewrite list_lookup_total_insert_eq).
  assert (din t2 ip = set_addrs ad' (set_size (off + n) d)) as Ed by (unfold din; by rewrite Ei).
  destruct (written_all sb _ _ _ _ _ _ _ (proj1 Hoff) Hs (proj2 Hoff) Hmax Hh W) as [Wh Wb]. rewrite Z.max_r in Wh, Wb by lia.
  pose proof (wr_file _ _ _ _ _ _ _ W) as Fk'. pose proof (wr_len _ _ _ _ _ _ _ W) as El.
  assert (layout sb (length v')) as Ly' by congruence. pose proof (fs_geom _ _ _ _ _ _ _ _ F') as G'.
  pose proof (IBLOCK_range sb _ Ly _ Hinum) as HI. pose proof (meta_pos _ _ Ly G) as Hmp.
  assert (dinode_ok (i_din i2)) as Hk2.
  { destruct Hk. split; try done; [unfold uint; cbn; unfold MAXFILE, NDIRECT, NINDIRECT, BSIZE in *; lia|apply Fk'|].
    apply (file_uint sb v'); [done..|apply (fs_size _ _ _ _ _ _ _ _ F')|done]. }
  split; rewrite ?Ed; [exact F2|unfold v2, put_inode; by rewrite length_insert|done|by rewrite Z.max_r by lia|apply meta_file; [done|done|lia|done]| | | | | | | | | | | |].
  - intros bn H1 H2. cbn [di_addrs set_addrs]. unfold v2, put_inode. rewrite (meta_baddr sb) by (done || lia). by apply Wh.
  - intros o Ho. cbn [di_addrs set_addrs di_size set_size] in *. rewrite <- Wb by done. apply (meta_fbyte sb); [done..|lia|done|lia|].
    apply Wh; [change (0 / Z.of_nat BSIZE) with 0; apply Z.div_pos; [lia|done]|]. pose proof (Z.mul_div_le o (Z.of_nat BSIZE) eq_refl). lia.
  - intros a Hl' Hi Hb. rewrite <- (wr_other _ _ _ _ _ _ _ W a Hl' Hi Hb). destruct Hl' as [[? _] _]. apply list_lookup_insert_ne. lia.
  - intros j Hj Hne. unfold v2. rewrite put_inode_ne; [|done|done|apply (fs_vok _ _ _ _ _ _ _ _ F')|done|done|by apply not_eq_sym|apply Hk2]. unfold dinode_at. rewrite !list_lookup_total_alt.
    rewrite (wr_meta _ _ _ _ _ _ _ W); [done|]. pose proof (IBLOCK_range sb _ Ly j Hj). lia.
  - intros _. by apply put_inode_eq; [..|apply (fs_vok _ _ _ _ _ _ _ _ F')|done|].
  - intros c Hc Hu. unfold v2, put_inode. rewrite meta_used by (done || lia). by apply (wr_used _ _ _ _ _ _ _ W).
  - intros c Hc. unfold v2, put_inode. rewrite meta_used by (done || lia). rewrite (meta_has sb) by (done || lia). by apply (wr_acct _ _ _ _ _ _ _ W).
  - intros a. unfold v2, put_inode. rewrite (meta_has sb) by (done || lia). by apply (written_new sb _ _ _ _ _ _ a W).
  - intros a. unfold v2, put_inode. rewrite (meta_has sb) by (done || lia). by apply (written_old sb _ _ _ _ _ _ a W).
  - intros a Ha Hne. unfold v2, put_inode. rewrite list_lookup_insert_ne by lia. by apply (wr_meta _ _ _ _ _ _ _ W).
  - intros lo hi Hcv. cbn [di_addrs set_addrs]. unfold v2, put_inode. etransitivity; [by apply (wr_spare _ _ _ _ _ _ _ W)|]. apply Z.eq_le_incl. symmetry. apply spare_eq; [intros c Hc; by rewrite meta_used by (done || lia)|intros bn; by rewrite (meta_baddr sb) by (done || lia)].
  - pose proof (length_logged L' (IBLOCK (i_inum (inode_at s ip)) sb)). lia.
Qed.

Lemma writei_ok : di_type d <> T_DEV ->
  wpe (writei ip src off) (fun r s' => r = n /\ exists v' L', wrote s ip v L off src s' v' L')
    (fun e => no_space v (di_addrs d) off n e /\ ~ no_hole v (di_addrs d) off (off + n)) s.
Proof.
  intros Ht. assert (MAXFILE * Z.of_nat BSIZE < 4294967296) as Hbig by done.
  unfold writei. apply wpe_bind_wp, wp_get. cbv zeta. rewrite (proj2 (Z.eqb_neq _ _)) by done.
  rewrite u32_small by lia. rewrite (proj2 (Z.ltb_ge (di_size d) off)), (proj2 (Z.ltb_ge (off + n) off)) by lia. cbn [orb].
  rewrite (proj2 (Z.ltb_ge (MAXFILE * Z.of_nat BSIZE) _)) by lia.
  eapply wpe_bind, wpe_mono; [eapply (writei_loop_ok ip L (Z.to_nat (nblocks off n)) Hip Hw Hroom); [exact writei_turn|]| |by intros e].
  { right. apply io_fuel_ok; lia. }
  intros off' t [-> (v' & L' & ad' & T' & F' & St & HL' & HT')]. pose proof (proj2 St) as W. apply wpe_wp. apply wp_bind, wp_get. cbv zeta.
  assert (ip < length (f_inodes s))%nat as Hip' by (by rewrite (fo_inodes _ _ _ _ _ _ _ _ F)).
  pose proof (stored_inode _ _ _ _ _ _ _ _ Hip' St) as Ei. assert (din t ip = set_addrs ad' d) as Ed by (unfold din; by rewrite Ei).
  rewrite Ed. cbn [di_size set_addrs]. apply wp_bind. destruct (Z.ltb_spec (di_size d) (off + n)) as [Hb|Hb].
  - rewrite (proj2 (Z.ltb_lt 0 n)) by lia. cbn [andb]. apply wp_bind. apply wp_upd_inode.
    assert (set_din (set_size (off + n) (i_din (inode_at t ip))) (inode_at t ip) = set_din (set_addrs ad' (set_size (off + n) d)) (inode_at s ip)) as E2
      by (rewrite Ei; done).
    rewrite E2, (proj1 St), list_insert_insert_eq. set (t2 := mkFs _ _ _).
    assert (fs_ok t2 v' L' ∅) as F2 by (apply (fs_set_inodes _ _ _ _ t); [done|rewrite length_insert; apply (fo_inodes _ _ _ _ _ _ _ _ F)]).
    assert (inode_at t2 ip = set_din (set_addrs ad' (set_size (off + n) d)) (inode_at s ip)) as Ei2
      by (unfold inode_at at 1, t2; cbn [f_inodes]; by rewrite list_lookup_total_insert_eq).
    eapply iupdate_ok; [exact F2|by rewrite (wr_len _ _ _ _ _ _ _ W)|done| |rewrite Ei2..|].
    + pose proof (writei_logs _ _ _ _ _ F' HL' HT'). destruct Hroom. pose proof nblocks_nonneg. unfold room. rewrite map_size_empty. lia.
    + done.
    + done.
    + apply (fk_len _ _ _ (wr_file _ _ _ _ _ _ _ W)).
    + apply lookup_empty.
    + rewrite Ei2. intros l F3. apply wp_ret. split; [done|]. eexists _, _. by apply (wrote_beyond t v' L' ad' T' l).
  - rewrite andb_false_r. apply wp_ret, wp_ret. split; [done|]. exists v', L'. by apply (wrote_inside t v' L' ad' T').
Qed.
End writei.
End write.

(** The file of the inode [ip], open for writing in a transaction. *)
Record writable `{!BlockDevice} (sb : superblock) (k : disk) (pid w : Z) (s : fs) (v : list block) (L : list Z) (ip : nat) : Prop := {
  wa_fs : fs_ok sb k pid w s v L ∅;
  wa_layout : layout sb (length v);
  wa_ops : 1 <= w;
  wa_meta : forall c, 0 <= c < datastart sb -> used sb v c = true;
  wa_ip : (ip < NINODE)%nat;
  wa_dev : i_dev (inode_at s ip) = ROOTDEV;
  wa_inum : is_inum sb (i_inum (inode_at s ip));
  wa_din : dinode_ok (din s ip);
  wa_type : di_type (din s ip) <> T_DEV;
  wa_file : file_ok sb v (di_addrs (din s ip));
  wa_size : 0 <= di_size (din s ip) <= MAXFILE * Z.of_nat BSIZE;
  wa_hole : no_hole v (di_addrs (din s ip)) 0 (di_size (din s ip));
}.

Section theorems.
Context `{BD : !BlockDevice} `{DS : !Devsw}.
Context (sb : superblock) (k : disk) (pid w : Z).

Lemma writei_bad s ip src off :
  let n := Z.of_nat (length src) in
  di_type (din s ip) <> T_DEV -> 0 <= off < 4294967296 -> n < 4294967296 ->
  (di_size (din s ip) <? off) || (MAXFILE * Z.of_nat BSIZE <? off + n) = true -> wp (writei ip src off) (fun r s' => r = -1 /\ s' = s) s.
Proof.
  intros n Ht Hoff Hn E. assert (MAXFILE * Z.of_nat BSIZE < 2147483648) as Hbig by done. unfold writei. apply wp_bind, wp_get. cbv zeta.
  rewrite (proj2 (Z.eqb_neq _ _)) by done. apply orb_true_iff in E as [E|E]; [rewrite E; by apply wp_ret|]. fold n. apply Z.ltb_lt in E.
  destruct (_ || _) eqn:E2; [by apply wp_ret|]. apply orb_false_iff in E2 as [E1 E2]. apply Z.ltb_ge in E1, E2.
  destruct (decide (off + n < 4294967296)) as [Hlt|Hlt].
  - rewrite u32_small by lia. rewrite (proj2 (Z.ltb_lt _ _)) by lia. by apply wp_ret.
  - exfalso. unfold u32 in E2. rewrite <- (Z_mod_plus_full _ (-1)), Z.mod_small in E2 by lia. lia.
Qed.

(** The blocks that [n] bytes at [off] need and that are not allocated. *)
Definition missing_blocks (v : list block) (ad : list Z) (off n : Z) : Z := missing v ad (off / Z.of_nat BSIZE) ((off + n + (Z.of_nat BSIZE - 1)) / Z.of_nat BSIZE).

Lemma covers_self off n : 0 <= off -> 0 <= n -> off + n <= MAXFILE * Z.of_nat BSIZE -> covers (off / Z.of_nat BSIZE) ((off + n + (Z.of_nat BSIZE - 1)) / Z.of_nat BSIZE) off n.
Proof.
  intros H1 H2 H3. change (MAXFILE * Z.of_nat BSIZE) with 71680 in H3. unfold covers. change MAXFILE with 140. change (Z.of_nat BSIZE) with 512. change (512 - 1) with 511.
  pose proof (Z.div_mod off 512 ltac:(done)). pose proof (Z.mod_pos_bound off 512 eq_refl). pose proof (Z.div_mod (off + n + 511) 512 ltac:(done)). pose proof (Z.mod_pos_bound (off + n + 511) 512 eq_refl). lia.
Qed.

Lemma no_space_missing v ad off n e : 0 <= off -> 0 <= n -> off + n <= MAXFILE * Z.of_nat BSIZE -> no_space sb v ad off n e ->
  e = "balloc: out of blocks"%string /\ Z.of_nat (nfree sb v) < missing_blocks v ad off n.
Proof. intros H1 H2 H3 [-> H]. split; [done|]. specialize (H _ _ (covers_self off n H1 H2 H3)). unfold spare in H. unfold missing_blocks. lia. Qed.


(** C33 The reservation of [begin_op] covers a chunk of [filewrite]: with at most
    [WRITE_MAX] bytes, a transaction to which [MAXOPBLOCKS] blocks may
    still be added has room for the whole [writei] wherever it starts and
    however much it allocates (it never panics with "too big a transaction" or
    runs out of buffers), and grows by less than the reservation. *)
Theorem writei_reservation s v L ip src off :
  let n := Z.of_nat (length src) in
  writable sb k pid w s v L ip -> Forall is_byte src -> 0 <= off <= di_size (din s ip) -> off + n <= MAXFILE * Z.of_nat BSIZE ->
  n <= WRITE_MAX -> sb_nlog sb = LOGSIZE -> Z.of_nat (length L) + MAXOPBLOCKS <= LOGSIZE ->
  wpe (writei ip src off)
    (fun r s' => r = n /\ exists v' L', fs_ok sb k pid w s' v' L' ∅ /\ Z.of_nat (length L') < Z.of_nat (length L) + MAXOPBLOCKS)
    (fun e => e = "balloc: out of blocks"%string /\ Z.of_nat (nfree sb v) < missing_blocks v (di_addrs (din s ip)) off n) s.
Proof.
  intros n [F Ly Hw Hmeta Hip Hdev Hi Hk Ht Fk Hs Hh] Hsrc Hoff Hmax Hn Hlog HL.
  change WRITE_MAX with 1536 in Hn. pose proof (nblocks_chunk off n ltac:(lia) ltac:(lia)) as Hb.
  eapply wpe_mono; [apply (writei_ok sb k pid w s ip v L off src); try done| |intros e [? _]; by apply no_space_missing; [lia..|]].
  - unfold room. fold n. rewrite Hlog. unfold LOGSIZE, MAXOPBLOCKS, NBUF in *. lia.
  - intros r s' [-> (v' & L' & W)]. split; [done|]. exists v', L'. split; [apply W|]. pose proof (wt_log _ _ _ _ _ _ _ _ _ _ _ _ _ W) as Hw'.
    fold n in Hw'. unfold MAXOPBLOCKS. lia.
Qed.
End theorems.

(** ** The small file system of [Balloc] *)

(** Without devices. *)
Definition no_devsw : Devsw := {| dev_read := fun _ => None; dev_write := fun _ => None |}.
#[local] Existing Instance no_devsw.

Lemma baddr0 v bn : baddr v (di_addrs dinode0) bn = 0.
Proof.
  unfold baddr, NDIRECT. cbn [dinode0 di_addrs]. destruct (Z.ltb_spec bn 12); [|done]. apply lookup_total_replicate_2. lia.
Qed.

(** Its root inode, still empty, can be written. *)
Lemma root_writable k s v : fs_ok sb1 k 1 1 s v [] ∅ -> home_eq sb1 v disk1 -> layout sb1 (length v) -> inode_at s 0 = root0 ->
  writable sb1 k 1 1 s v [] 0.
Proof.
  intros F Heq Ly E.
  split; unfold din; rewrite ?E; [done|done|lia| |unfold NINODE; lia|done|unfold is_inum; cbn; lia| |done| |by vm_compute|].
  - intros c Hc. change (datastart sb1) with 36 in Hc. rewrite used1 by (done || lia). apply Z.ltb_lt. lia.
  - split; try done; try (unfold short, uint; cbn; lia). by apply Forall_replicate.
  - split; [done|done|..]; intros bn; cbn [i_din root0]; [|intros bn']; rewrite baddr0; done.
  - intros bn H1 H2. cbn in H2. change (0 / Z.of_nat BSIZE) with 0 in H1. unfold BSIZE in *. lia.
Qed.

(** It has eight free blocks. *)
Lemma nfree1 v : home_eq sb1 v disk1 -> (8 <= nfree sb1 v)%nat.
Proof.
  intros Heq. change 8%nat with (length (seqZ 36 8)). apply submseteq_length, NoDup_submseteq; [apply NoDup_seqZ|]. intros c Hc%elem_of_seqZ.
  apply list_elem_of_filter. split; [|apply elem_of_seqZ; cbn; lia]. rewrite used1 by (done || lia). apply Z.ltb_ge. lia.
Qed.


Lemma writei_reservation_witness :
  wp get_root (fun _ s => wp (writei 0 (replicate 1536 7) 0) (fun r s' => r = 1536) s) boot_fs.
Proof.
  apply get_root_spec. intros k s v F Heq Ly E. assert (di_size (din s 0) = 0) as Es by (unfold din; by rewrite E).
  pose proof (nfree1 v Heq) as Hfree. apply (wp_wpe _ _ (fun _ => False)); [|by intros e []].
  eapply wpe_mono; [apply (writei_reservation sb1 k 1 1 s v [] 0 (replicate 1536 7) 0 (root_writable k s v F Heq Ly E))| |].
  - by apply Forall_replicate.
  - rewrite Es. lia.
  - rewrite length_replicate. vm_compute. congruence.
  - rewrite length_replicate. vm_compute. congruence.
  - done.
  - vm_compute. congruence.
  - intros r s' [-> _]. by rewrite length_replicate.
  - intros e (_ & Hm). pose proof (missing_le v (di_addrs (din s 0)) 0 3 ltac:(lia)). change (missing_blocks _ _ _ _) with (missing v (di_addrs (din s 0)) 0 3) in Hm. lia.
Defined.

(** What was written is read back. *)
Lemma readi_spec_witness :
  wp get_root (fun _ s => wpe (writei 0 [1; 2; 3] 0) (fun _ s' => wp (readi 0 1 512) (fun r _ => r = (2, [2; 3])) s') (fun e => e = "balloc: out of blocks"%string) s) boot_fs.
Proof.
  apply get_root_spec. intros k s v F Heq Ly E. destruct (root_writable k s v F Heq Ly E) as [_ _ Hw Hmeta Hip Hdev Hi Hk Ht Fk Hs Hh].
  assert (di_size (din s 0) = 0) as Es by (unfold din; by rewrite E). eapply wpe_mono; [apply (writei_ok sb1 k 1 1 s 0 v [] 0 [1; 2; 3]); try done| |by intros e [[? _] _]].
  - unfold room, NBUF. vm_compute. split; [congruence|lia].
  - by repeat constructor.
  - lia.
  - intros r s' [_ (v' & L' & W)]. pose proof W as [Wf Wn Wi Wd Wk Wh Wb _ _ _ _ _ _ _ _ _ Wl]. rewrite Es in Wd.
    assert (inode_at s' 0 = set_din (din s' 0) (inode_at s 0)) as Ei.
    { unfold inode_at at 1. rewrite Wi. apply list_lookup_total_insert_eq. by rewrite (fo_inodes _ _ _ _ _ _ _ _ F). }
    assert (di_size (din s' 0) = 3) as Es' by (by rewrite Wd).
    eapply wp_mono; [apply (readi_spec sb1 k 1 1 s' v' L' 0 1 512 Wf)|].
    + by rewrite Wn.
    + done.
    + by rewrite Ei.
    + by rewrite Wd.
    + done.
    + change (nblocks 0 (Z.of_nat (length [1; 2; 3]))) with 1 in Wl. unfold NBUF. simpl in Wl. lia.
    + rewrite Es'. by vm_compute.
    + done.
    + lia.
    + lia.
    + rewrite Es'. intros [r1 r2] s2 (_ & _ & H1 & H2 & H3). cbn [fst snd] in *. subst r1. change (512 `min` (3 - 1)) with 2 in *. f_equal.
      assert (forall j, 0 <= j < 2 -> r2 !!! Z.to_nat j = [2; 3] !!! Z.to_nat j) as Hj.
      { intros j Hj. rewrite H3, Wb by lia. rewrite decide_True by (simpl; lia). assert (j = 0 \/ j = 1) as [-> | ->] by lia; done. }
      pose proof (Hj 0 ltac:(lia)) as E0. pose proof (Hj 1 ltac:(lia)) as E1. destruct r2 as [|x [|y [|]]]; try (simpl in H2; lia).
      change (x = 2) in E0. change (y = 3) in E1. by subst.
Defined.
