(* ===== verification/Volume.v ===== *)
(** * The consistency of the whole file system ([fs.c]).

    What a file system checker would check: every inode in use has a well-formed
    block map, no two of them share a block, the bitmap marks exactly the blocks of inodes in use, and
    directories list inodes in use. Writing a file, allocating an inode and adding a
    directory entry keep it. *)

From Stdlib Require Import String.
From stdpp Require Import gmap.
From S2P Require Import Prelude CString Params Bio Log Trans Fs Balloc Inode Content Blockmap Dir Writei.
Local Open Scope Z_scope.

Section vol.
Context (sb : superblock).
#[local] Abbreviation dinode_at := (dinode_at sb).
#[local] Abbreviation is_inum := (is_inum sb).
#[local] Abbreviation file_ok := (file_ok sb).
#[local] Abbreviation used := (used sb).
#[local] Abbreviation is_data := (is_data sb).
#[local] Abbreviation live := (live sb).
#[local] Abbreviation linked := (linked sb).
#[local] Abbreviation dir_ok := (dir_ok sb).
#[local] Abbreviation tree_ok := (tree_ok sb).

Definition addrs (v : list block) (n : Z) : list Z := di_addrs (dinode_at v n).

Definition in_use (v : list block) (n : Z) : Prop := is_inum n /\ di_type (dinode_at v n) <> 0.

Record inode_good (v : list block) (n : Z) : Prop := {
  ig_file : file_ok v (addrs v n);
  ig_size : 0 <= di_size (dinode_at v n) <= MAXFILE * Z.of_nat BSIZE;
  ig_hole : no_hole v (addrs v n) 0 (di_size (dinode_at v n));
}.

Record vol_ok (v : list block) : Prop := {
  vo_layout : layout sb (length v);
  vo_tree : tree_ok v;
  vo_zero : di_type (dinode_at v 0) = 0;
  vo_good : forall n, in_use v n -> inode_good v n;
  vo_apart : forall n m, in_use v n -> in_use v m -> n <> m -> apart v (addrs v n) (addrs v m);
  vo_meta : forall c, 0 <= c < datastart sb -> used v c = true;
  vo_exact : forall c, is_data c -> used v c = true -> exists n, in_use v n /\ has_block v (addrs v n) c;
}.

(** The fields that writing does not change. *)
Definition same_attrs (d d' : dinode) : Prop :=
  di_type d' = di_type d /\ di_major d' = di_major d /\ di_minor d' = di_minor d /\ di_nlink d' = di_nlink d.

(** The bytes of a file. *)
Definition content (v : list block) (n : Z) : list Z := fbytes v (addrs v n) 0 (Z.to_nat (di_size (dinode_at v n))).

(** The inode cache refers to inodes in use. *)
Definition refs_used (v : list block) (l : list inode) : Prop := forall n r, irefs l !! n = Some r -> di_type (dinode_at v n) <> 0.

Lemma use_pos v n : vol_ok v -> in_use v n -> 0 < n.
Proof. intros V [[Hn _] Ht]. pose proof (vo_zero _ V). destruct (decide (n = 0)) as [->|]; [done|lia]. Qed.

Lemma linked_use v n : linked v n -> in_use v n.
Proof. by intros (Hn & Ht & _). Qed.

Lemma fbytes_ext v v' ad ad' o n : (forall j, (j < n)%nat -> fbyte v' ad' (o + Z.of_nat j) = fbyte v ad (o + Z.of_nat j)) ->
  fbytes v' ad' o n = fbytes v ad o n.
Proof.
  intros H. apply list_eq. intros j. destruct (decide (j < n)%nat); [|by rewrite !lookup_ge_None_2 by (rewrite length_fbytes; lia)].
  by rewrite !lookup_fbytes, H by done.
Qed.

Lemma hole_byte v ad size o : no_hole v ad 0 size -> 0 <= o < size -> baddr v ad (o / Z.of_nat BSIZE) <> 0.
Proof.
  intros H Ho. apply H; [change (0 / Z.of_nat BSIZE) with 0; by apply Z.div_pos; [lia|]|]. pose proof (Z.mul_div_le o (Z.of_nat BSIZE) eq_refl). lia.
Qed.

(** The inode [j] and the blocks of its file are the same in two views. *)
Section same.
Context (v v' : list block) (j : Z).
Context (Hg : inode_good v j) (Ed : dinode_at v' j = dinode_at v j).
Context (Hk : forall a, has_block v (addrs v j) a -> v' !! Z.to_nat a = v !! Z.to_nat a /\ live v' a).

Lemma same_addrs : addrs v' j = addrs v j.
Proof using Ed. unfold addrs. by rewrite Ed. Qed.

Lemma same_has a : has_block v' (addrs v' j) a <-> has_block v (addrs v j) a.
Proof using Ed Hk. rewrite same_addrs. exact (kept_has sb v v' _ Hk a). Qed.

Lemma same_fbyte o : 0 <= o < di_size (dinode_at v j) -> fbyte v' (addrs v' j) o = fbyte v (addrs v j) o.
Proof using Hg Ed Hk.
  intros Ho. rewrite same_addrs. pose proof (ig_size _ _ Hg). apply (kept_fbyte sb v v' _ Hk); [lia|]. eapply hole_byte; [apply Hg|done].
Qed.

Lemma same_good : inode_good v' j.
Proof using Hg Ed Hk.
  split; rewrite ?same_addrs, ?Ed; [apply (kept_file sb v v'); [apply Hg|done]|apply Hg|]. apply (kept_hole sb v v' _ Hk), Hg.
Qed.

Lemma same_content : content v' j = content v j.
Proof using Hg Ed Hk.
  unfold content. rewrite Ed. pose proof (ig_size _ _ Hg). apply fbytes_ext. intros i Hi. apply same_fbyte. lia.
Qed.

Lemma same_entries : entries v' (dinode_at v' j) = entries v (dinode_at v j).
Proof using Hg Ed Hk.
  unfold entries. rewrite Ed. pose proof (ig_size _ _ Hg) as Hs. unfold DIRENT_SIZE in *. pose proof (Z.mul_div_le (di_size (dinode_at v j)) 16 ltac:(done)).
  apply list_fmap_ext. intros i m [-> Hi]%lookup_seq. apply fbytes_ext. intros o Ho. pose proof (same_fbyte (16 * Z.of_nat i + Z.of_nat o) ltac:(lia)) as E.
  unfold addrs in E. by rewrite Ed in E.
Qed.
End same.

(** The inode [j], its file and, for a directory, its entries are the same. *)
Record same_inode (v v' : list block) (j : Z) : Prop := {
  sm_din : dinode_at v' j = dinode_at v j;
  sm_content : content v' j = content v j;
  sm_entries : entries v' (dinode_at v' j) = entries v (dinode_at v j);
}.

Lemma same_inode_trans v1 v2 v3 j : same_inode v1 v2 j -> same_inode v2 v3 j -> same_inode v1 v3 j.
Proof. intros [A1 A2 A3] [B1 B2 B3]. split; [by rewrite B1|by rewrite B2|by rewrite B3]. Qed.

Lemma same_inode_find v v' j q : same_inode v v' j -> dir_find v' (dinode_at v' j) q = dir_find v (dinode_at v j) q.
Proof. intros [_ _ E]. unfold dir_find. by rewrite E. Qed.

Lemma same_inode_use v v' j : same_inode v v' j -> in_use v j -> in_use v' j.
Proof. intros [E _ _] [Hj Ht]. split; [done|by rewrite E]. Qed.

(** ** Changing one inode *)

(** From [v] to [v'] the inode [n] and its file change. *)
Record changed (v v' : list block) (n : Z) : Prop := {
  ch_pos : 0 < n;
  ch_len : length v' = length v;
  ch_other : forall j, is_inum j -> j <> n -> dinode_at v' j = dinode_at v j;
  ch_keep : forall j a, in_use v j -> j <> n -> has_block v (addrs v j) a -> v' !! Z.to_nat a = v !! Z.to_nat a /\ live v' a;
  ch_used : forall c, 0 <= c < sb_size sb -> used v c = true -> used v' c = true;
  ch_new : forall a, has_block v' (addrs v' n) a -> in_use v n /\ has_block v (addrs v n) a \/ used v a = false;
  ch_old : forall a, in_use v n -> has_block v (addrs v n) a -> has_block v' (addrs v' n) a;
  ch_acct : forall c, is_data c -> used v' c = true -> used v c = true \/ has_block v' (addrs v' n) c;
  ch_use : in_use v' n;
  ch_good : inode_good v' n;
  ch_linked : linked v n -> linked v' n;
  ch_dir : linked v' n -> di_type (dinode_at v' n) = T_DIR -> dir_ok v' (dinode_at v' n);
}.

Section change.
Context (v v' : list block) (n : Z) (V : vol_ok v) (Ch : changed v v' n).

Lemma ch_in_use j : j <> n -> in_use v' j <-> in_use v j.
Proof using Ch. intros Hne. split; intros [Hj Ht]; (split; [done|]); [by rewrite (ch_other _ _ _ Ch) in Ht|by rewrite (ch_other _ _ _ Ch)]. Qed.

Lemma ch_linked_all j : linked v j -> linked v' j.
Proof using Ch.
  intros Hl. destruct (decide (j = n)) as [->|Hne]; [by apply (ch_linked _ _ _ Ch)|]. destruct Hl as (Hj & Ht & Hn).
  unfold Dir.linked. by rewrite (ch_other _ _ _ Ch).
Qed.

Lemma ch_inode_good j : in_use v' j -> inode_good v' j.
Proof using V Ch.
  intros Hj. destruct (decide (j = n)) as [->|Hne]; [apply Ch|]. rewrite ch_in_use in Hj by done.
  apply (same_good v v'); [by apply (vo_good _ V)|apply (ch_other _ _ _ Ch); [apply Hj|done]|]. intros a. by apply (ch_keep _ _ _ Ch).
Qed.

Lemma ch_has j a : in_use v j -> j <> n -> has_block v' (addrs v' j) a <-> has_block v (addrs v j) a.
Proof using Ch. intros Hj Hne. apply same_has; [apply (ch_other _ _ _ Ch); [apply Hj|done]|]. intros b. by apply (ch_keep _ _ _ Ch). Qed.

Lemma ch_apart_n j : in_use v j -> j <> n -> apart v' (addrs v' j) (addrs v' n).
Proof using V Ch.
  intros Hj Hne a Ha Hb. rewrite ch_has in Ha by done. destruct (ch_new _ _ _ Ch a Hb) as [[Hn Hb']|Hu].
  - exact (vo_apart _ V j n Hj Hn Hne a Ha Hb').
  - destruct (has_live sb v _ a (ig_file _ _ (vo_good _ V j Hj)) Ha). congruence.
Qed.

Lemma ch_dirs j : linked v' j -> di_type (dinode_at v' j) = T_DIR -> dir_ok v' (dinode_at v' j).
Proof using V Ch.
  intros Hl Ht. destruct (decide (j = n)) as [->|Hne]; [by apply (ch_dir _ _ _ Ch)|]. pose proof Hl as (Hj & Hty & Hn).
  assert (dinode_at v' j = dinode_at v j) as Ed by (by apply (ch_other _ _ _ Ch)). rewrite Ed in Hty, Hn, Ht.
  assert (in_use v j) as Hu by done. pose proof (vo_good _ V j Hu) as Hg. destruct (tr_dir _ _ (vo_tree _ V) j ltac:(done) Ht) as [D1 D2 D3 D4 D5].
  assert (forall a, has_block v (addrs v j) a -> v' !! Z.to_nat a = v !! Z.to_nat a /\ live v' a) as Hk by (intros a; by apply (ch_keep _ _ _ Ch)).
  destruct (same_good v v' j Hg Ed Hk) as [G1 G2 G3]. split; [done|done|by rewrite Ed|done|].
  rewrite (same_entries v v' j Hg Ed Hk). intros de Hde H0. apply ch_linked_all. by apply D5.
Qed.

Lemma vol_changed : vol_ok v'.
Proof using V Ch.
  split.
  - rewrite (ch_len _ _ _ Ch). apply V.
  - split; [apply ch_linked_all, (tr_root _ _ (vo_tree _ V))|exact ch_dirs].
  - pose proof (ch_pos _ _ _ Ch). destruct (tr_root _ _ (vo_tree _ V)) as [[? ?] _]. rewrite (ch_other _ _ _ Ch); [apply V|unfold Inode.is_inum; lia|lia].
  - exact ch_inode_good.
  - intros j m Hj Hm Hne. destruct (decide (j = n)) as [->|Hjn].
    + apply apart_sym, ch_apart_n; [|done]. by apply ch_in_use.
    + rewrite ch_in_use in Hj by done. destruct (decide (m = n)) as [->|Hmn]; [by apply ch_apart_n|]. rewrite ch_in_use in Hm by done.
      intros a Ha Hb. rewrite ch_has in Ha, Hb by done. exact (vo_apart _ V j m Hj Hm Hne a Ha Hb).
  - intros c Hc. pose proof (ly_data _ _ (vo_layout _ V)). apply (ch_used _ _ _ Ch); [lia|]. by apply (vo_meta _ V).
  - intros c Hc Hu. destruct (ch_acct _ _ _ Ch c Hc Hu) as [Hv|Hb]; [|exists n; split; [apply Ch|done]].
    destruct (vo_exact _ V c Hc Hv) as (j & Hj & Hb). exists j. destruct (decide (j = n)) as [->|Hne].
    + split; [apply Ch|by apply (ch_old _ _ _ Ch)].
    + split; [by apply ch_in_use|by apply ch_has].
Qed.

Lemma changed_same j : in_use v j -> j <> n -> same_inode v v' j.
Proof using V Ch.
  intros Hj Hne. assert (inode_good v j) as Hg by (by apply (vo_good _ V)). assert (dinode_at v' j = dinode_at v j) as Ed by (apply (ch_other _ _ _ Ch); [apply Hj|done]).
  assert (forall a, has_block v (addrs v j) a -> v' !! Z.to_nat a = v !! Z.to_nat a /\ live v' a) as Hk by (intros a; by apply (ch_keep _ _ _ Ch)).
  split; [done|by apply same_content|by apply same_entries].
Qed.
End change.

(** ** The log area does not matter *)

Section home.
Context (v u : list block) (V : vol_ok v) (G : geometry sb (length v)) (Heq : home_eq sb u v) (Hlen : length u = length v).

Lemma home_block a : sb_inodestart sb <= a -> u !! Z.to_nat a = v !! Z.to_nat a.
Proof using V G Heq. clear Hlen. intros Ha. pose proof (meta_pos _ _ (vo_layout _ V) G). apply Heq; [lia|]. exact (above_log _ _ (vo_layout _ V) a Ha). Qed.

Lemma home_dinode j : is_inum j -> dinode_at u j = dinode_at v j.
Proof using V G Heq.
  clear Hlen. intros Hj. pose proof (IBLOCK_range sb _ (vo_layout _ V) j Hj). unfold Inode.dinode_at. rewrite !list_lookup_total_alt. by rewrite home_block by lia.
Qed.

Lemma home_used c : 0 <= c -> used u c = used v c.
Proof using V G Heq.
  clear Hlen. intros Hc. unfold Balloc.used. rewrite !list_lookup_total_alt, home_block; [done|]. unfold BBLOCK. pose proof (Z.div_pos c BPB Hc eq_refl).
  pose proof (ly_bmap _ _ (vo_layout _ V)). destruct (ly_ninodes _ _ (vo_layout _ V)). assert (0 <= sb_ninodes sb / IPB) by (apply Z.div_pos; [lia|done]). lia.
Qed.

Lemma home_keep j a : in_use v j -> has_block v (addrs v j) a -> u !! Z.to_nat a = v !! Z.to_nat a /\ live u a.
Proof using V G Heq.
  clear Hlen. intros Hj Ha. pose proof (has_live sb v _ a (ig_file _ _ (vo_good _ V j Hj)) Ha) as [[Hd Hd'] Hu]. pose proof (meta_pos _ _ (vo_layout _ V) G).
  pose proof (ly_bmap _ _ (vo_layout _ V)). destruct (ly_ninodes _ _ (vo_layout _ V)). assert (0 <= sb_ninodes sb / IPB) by (apply Z.div_pos; [lia|done]).
  split; [apply home_block; lia|]. split; [done|]. rewrite home_used by lia. done.
Qed.

Lemma home_use j : in_use u j <-> in_use v j.
Proof using V G Heq. clear Hlen. split; intros [Hj Ht]; (split; [done|]); by rewrite home_dinode in *. Qed.

Lemma home_linked j : linked u j <-> linked v j.
Proof using V G Heq. clear Hlen. unfold Dir.linked. split; intros (Hj & Ht); by rewrite home_dinode in *. Qed.

Lemma home_same j : in_use v j -> same_inode v u j.
Proof using V G Heq.
  intros Hj. pose proof (vo_good _ V j Hj) as Hg. pose proof (home_dinode j (proj1 Hj)) as Ed. pose proof (fun a => home_keep j a Hj) as Hk.
  split; [done|by apply same_content|by apply same_entries].
Qed.

Lemma home_good j : in_use v j -> inode_good u j.
Proof using V G Heq. intros Hj. apply (same_good v u); [by apply (vo_good _ V)|apply home_dinode, Hj|]. intros a. by apply home_keep. Qed.

Lemma home_has j a : in_use v j -> has_block u (addrs u j) a <-> has_block v (addrs v j) a.
Proof using V G Heq. intros Hj. apply (same_has v u); [apply home_dinode, Hj|]. intros b. by apply home_keep. Qed.

Lemma home_spare j lo hi : in_use v j -> spare sb u (addrs u j) lo hi = spare sb v (addrs v j) lo hi.
Proof using V G Heq.
  clear Hlen. intros Hj. unfold addrs at 1. rewrite (home_dinode j (proj1 Hj)). change (di_addrs (dinode_at v j)) with (addrs v j). apply spare_eq; [intros c Hc; apply home_used; lia|].
  intros bn. unfold baddr. destruct (bn <? NDIRECT); [done|]. destruct (Z.eqb_spec (indirect (addrs v j)) 0) as [|Hi]; [done|]. assert (u !!! Z.to_nat (indirect (addrs v j)) = v !!! Z.to_nat (indirect (addrs v j))) as ->; [|done]. rewrite !list_lookup_total_alt. f_equal.
  apply (home_keep j); [done|]. split; [done|]. by left.
Qed.

Lemma home_vol : vol_ok u.
Proof using V G Heq Hlen.
  pose proof (vo_tree _ V) as T. split.
  - rewrite Hlen. apply V.
  - split; [apply home_linked, T|]. intros j Hj Ht. apply home_linked in Hj. pose proof (linked_use v j Hj) as Hu. pose proof (home_dinode j (proj1 Hu)) as Ed. rewrite Ed in Ht.
    destruct (tr_dir _ _ T j Hj Ht) as [D1 D2 D3 D4 D5]. destruct (home_good j Hu) as [G1 G2 G3]. split; [done|done|by rewrite Ed|done|].
    rewrite (sm_entries _ _ _ (home_same j Hu)). intros de Hde H0. by apply home_linked, D5.
  - destruct (tr_root _ _ T) as [[? ?] _]. rewrite home_dinode; [apply V|unfold Inode.is_inum; unfold ROOTINO in *; lia].
  - intros j Hj%home_use. by apply home_good.
  - intros j m Hj%home_use Hm%home_use Hne a Ha Hb. rewrite home_has in Ha, Hb by done. by eapply (vo_apart _ V j m).
  - intros c Hc. rewrite home_used by lia. by apply (vo_meta _ V).
  - intros c Hc Hu. pose proof (meta_pos _ _ (vo_layout _ V) G). pose proof (ly_bmap _ _ (vo_layout _ V)). destruct (ly_ninodes _ _ (vo_layout _ V)).
    assert (0 <= sb_ninodes sb / IPB) by (apply Z.div_pos; [lia|done]). rewrite home_used in Hu by (destruct Hc; lia). destruct (vo_exact _ V c Hc Hu) as (j & Hj & Hb). exists j. split; [by apply home_use|by apply home_has].
Qed.
End home.

(** ** Storing an inode *)

(** An empty directory. *)
Lemma empty_dir v d : di_addrs d = replicate 13 0 -> di_size d = 0 -> dir_ok v d.
Proof.
  intros Ea Es. split; rewrite ?Ea, ?Es; [apply file_ok_empty|done|done| |].
  - intros bn H1 H2. change (0 / Z.of_nat BSIZE) with 0 in H1. unfold BSIZE in *. lia.
  - intros de. unfold entries. rewrite Es. intros []%not_elem_of_nil.
Qed.

Section put.
Context (v : list block) (n : Z) (d : dinode) (V : vol_ok v) (G : geometry sb (length v)) (Hok : Forall block_ok v).
Context (Hn : is_inum n) (Hd : dinode_ok d) (Ht : di_type d <> 0).
#[local] Abbreviation v' := (put_inode sb n d v).

Lemma put_eq : dinode_at v' n = d.
Proof using V G Hok Hn Hd. clear Ht. apply put_inode_eq; [apply V|done..]. Qed.

Lemma iblock_meta : 0 <= IBLOCK n sb < sb_bmapstart sb.
Proof using V G Hn. clear Ht Hd Hok. pose proof (IBLOCK_range sb _ (vo_layout _ V) n Hn). pose proof (meta_pos _ _ (vo_layout _ V) G). lia. Qed.

(** A free inode is given an empty file. *)
Lemma put_new : 0 < n -> di_type (dinode_at v n) = 0 -> di_addrs d = replicate 13 0 -> di_size d = 0 -> changed v v' n.
Proof using V G Hok Hn Hd Ht.
  intros Hpos H0 Ea Es. pose proof (vo_layout _ V) as Ly. pose proof iblock_meta as Hb. pose proof put_eq as Ed.
  assert (addrs v' n = replicate 13 0) as Ea' by (unfold addrs; by rewrite Ed). assert (~ in_use v n) as Hnu by (by intros [_ ?]).
  assert (inode_good v' n) as Hg.
  { split; rewrite ?Ea', ?Ed, ?Es; [apply file_ok_empty|done|]. intros bn H1 H2. change (0 / Z.of_nat BSIZE) with 0 in H1. unfold BSIZE in *. lia. }
  split.
  - done.
  - unfold put_inode. by rewrite length_insert.
  - intros j Hj Hne. apply put_inode_ne; [done..|by apply not_eq_sym|apply Hd].
  - intros j a Hj _ Ha. pose proof (has_live sb v _ a (ig_file _ _ (vo_good _ V j Hj)) Ha) as Hl. split; [|by apply (meta_live sb)].
    destruct Hl as [[? _] _]. unfold put_inode. rewrite list_lookup_insert_ne; [done|]. pose proof (meta_pos _ _ Ly G). lia.
  - intros c Hc Hu. unfold put_inode. by rewrite (meta_used sb).
  - intros a. rewrite Ea'. intros []%no_blocks.
  - by intros a [].
  - intros c Hc. unfold put_inode. rewrite (meta_used sb); [by left|done..|]. destruct Hc. pose proof (meta_pos _ _ Ly G). lia.
  - split; [done|]. by rewrite Ed.
  - done.
  - by intros (_ & ? & _).
  - intros _ _. apply empty_dir; by rewrite Ed.
Qed.

(** An inode in use keeps its file and its links. *)
Section meta.
Context (Hu : in_use v n) (Ea : di_addrs d = addrs v n) (Es : di_size d = di_size (dinode_at v n)).

Lemma put_kept j a : in_use v j -> has_block v (addrs v j) a -> v' !! Z.to_nat a = v !! Z.to_nat a /\ live v' a.
Proof using V G Hok Hn.
  clear Hu Ea Es Ht Hd. pose proof (vo_layout _ V) as Ly. pose proof iblock_meta as Hb. intros Hj Ha.
  pose proof (has_live sb v _ a (ig_file _ _ (vo_good _ V j Hj)) Ha) as Hla. split; [|by apply (meta_live sb)].
  destruct Hla as [[? _] _]. unfold put_inode. rewrite list_lookup_insert_ne; [done|]. pose proof (meta_pos _ _ Ly G). lia.
Qed.

Lemma put_entries : entries v' d = entries v (dinode_at v n).
Proof using V G Hok Hn Hd Hu Ea Es.
  clear Ht. destruct (vo_good _ V n Hu) as [G1 G2 G3]. unfold entries. rewrite Es. apply list_fmap_ext. intros q m [-> Hq]%lookup_seq. apply fbytes_ext. intros o Hoo. rewrite Ea.
  unfold DIRENT_SIZE in *. pose proof (Z.mul_div_le (di_size (dinode_at v n)) 16 ltac:(done)).
  apply (kept_fbyte sb v v'); [intros a; by apply put_kept|lia|]. eapply hole_byte; [exact G3|lia].
Qed.

Lemma put_meta : (linked v n -> di_nlink d <> 0) -> (di_type d = T_DIR -> di_nlink d <> 0 -> dir_ok v (dinode_at v n)) -> changed v v' n.
Proof using V G Hok Hn Hd Ht Hu Ea Es.
  intros Hl Hdir. pose proof (vo_layout _ V) as Ly. pose proof iblock_meta as Hb. pose proof put_eq as Ed. destruct (vo_good _ V n Hu) as [G1 G2 G3].
  assert (addrs v' n = addrs v n) as Ea' by (unfold addrs at 1; by rewrite Ed). pose proof (fun a => put_kept n a Hu) as Hk.
  assert (forall j, is_inum j -> j <> n -> dinode_at v' j = dinode_at v j) as Ho by (intros j Hj Hne; apply put_inode_ne; [done..|by apply not_eq_sym|apply Hd]).
  assert (inode_good v' n) as Hg.
  { split; rewrite ?Ea', ?Ed, ?Es; [by apply (kept_file sb v v')|done|by apply (kept_hole sb v v')]. }
  split.
  - exact (use_pos v n V Hu).
  - unfold put_inode. by rewrite length_insert.
  - done.
  - intros j a Hj _. by apply put_kept.
  - intros c Hc Hcu. unfold put_inode. by rewrite (meta_used sb).
  - intros a. rewrite Ea', (kept_has sb v v') by done. by left.
  - intros a _. by rewrite Ea', (kept_has sb v v') by done.
  - intros c Hc. unfold put_inode. rewrite (meta_used sb); [by left|done..|]. destruct Hc. pose proof (meta_pos _ _ Ly G). lia.
  - split; [done|]. by rewrite Ed.
  - done.
  - intros Hln. split; [done|]. rewrite Ed. split; [done|]. by apply Hl.
  - rewrite Ed. intros (_ & _ & Hn0) Htd. rewrite Ed in Hn0. destruct (Hdir Htd Hn0) as [D1 D2 D3 D4 D5]. destruct Hg as [K1 K2 K3].
    unfold addrs in K1, K3. rewrite Ed in K1, K2, K3. split; [done|done|by rewrite Es|done|]. intros de Hde H0.
    rewrite put_entries in Hde. destruct (D5 de Hde H0) as (J1 & J2 & J3). split; [done|]. destruct (decide (de_inum de = n)) as [->|Hne]; [by rewrite Ed|]. by rewrite Ho.
Qed.
End meta.
End put.
End vol.

(** ** Writing a file *)

Section ops.
Context `{BD : !BlockDevice} `{DS : !Devsw}.
Context (sb : superblock) (k : disk) (pid w : Z).
#[local] Abbreviation fs_ok := (fs_ok sb k pid w).
#[local] Abbreviation dinode_at := (dinode_at sb).
#[local] Abbreviation is_inum := (is_inum sb).
#[local] Abbreviation linked := (linked sb).
#[local] Abbreviation dir_ok := (dir_ok sb).
#[local] Abbreviation in_use := (in_use sb).
#[local] Abbreviation vol_ok := (vol_ok sb).
#[local] Abbreviation addrs := (addrs sb).

Section wrote.
Context (s : fs) (ip : nat) (v : list block) (L : list Z) (off : Z) (src : list Z) (s' : fs) (v' : list block) (L' : list Z).
#[local] Abbreviation n := (i_inum (inode_at s ip)).
Context (V : vol_ok v) (G : geometry sb (length v)) (Hn : in_use v n) (Ed : dinode_at v n = din s ip).
Context (W : wrote sb k pid w s ip v L off src s' v' L') (Hmax : 0 <= off /\ off + Z.of_nat (length src) <= MAXFILE * Z.of_nat BSIZE).

Lemma wrote_din : dinode_at v' n = set_addrs (addrs v' n) (set_size (Z.max (di_size (dinode_at v n)) (off + Z.of_nat (length src))) (dinode_at v n)).
Proof using Ed W. pose proof (wt_disk _ _ _ _ _ _ _ _ _ _ _ _ _ W Ed) as E. unfold Volume.addrs. rewrite E, Ed. apply W. Qed.

Lemma wrote_addrs : addrs v' n = di_addrs (din s' ip).
Proof using Ed W. unfold Volume.addrs. by rewrite (wt_disk _ _ _ _ _ _ _ _ _ _ _ _ _ W Ed). Qed.

Lemma wrote_size : di_size (dinode_at v' n) = Z.max (di_size (dinode_at v n)) (off + Z.of_nat (length src)).
Proof using Ed W. by rewrite wrote_din. Qed.

Lemma wrote_same_type : di_type (dinode_at v' n) = di_type (dinode_at v n) /\ di_nlink (dinode_at v' n) = di_nlink (dinode_at v n).
Proof using Ed W. by rewrite wrote_din. Qed.

Lemma wrote_attrs : same_attrs (dinode_at v n) (dinode_at v' n).
Proof using Ed W. by rewrite wrote_din. Qed.

Lemma wrote_good : inode_good sb v' n.
Proof using V Hn Ed W Hmax.
  clear G. pose proof (ig_size _ _ _ (vo_good _ _ V _ Hn)). split; rewrite ?wrote_addrs.
  - apply W.
  - rewrite wrote_size. lia.
  - rewrite (wt_disk _ _ _ _ _ _ _ _ _ _ _ _ _ W Ed). apply W.
Qed.

Lemma wrote_keep j a : in_use v j -> j <> n -> has_block v (addrs v j) a -> v' !! Z.to_nat a = v !! Z.to_nat a /\ live sb v' a.
Proof using V G Hn Ed W.
  clear Hmax. intros Hj Hne Ha. pose proof (has_live sb v _ a (ig_file _ _ _ (vo_good _ _ V j Hj)) Ha) as Hl.
  pose proof (vo_apart _ _ V j n Hj Hn Hne a Ha) as Hno. pose proof (live_range sb v (vo_layout _ _ V) G a Hl) as [Hr _].
  assert (addrs v n = di_addrs (din s ip)) as Ea by (unfold Volume.addrs; by rewrite Ed). rewrite Ea in Hno. split.
  - apply (wt_other _ _ _ _ _ _ _ _ _ _ _ _ _ W); [done|..].
    + intros ->. apply Hno. split; [apply Ha|by left].
    + intros bn Hbn <-. apply Hno. split; [apply Ha|]. right. by exists bn.
  - split; [apply Hl|]. apply (wt_used _ _ _ _ _ _ _ _ _ _ _ _ _ W); [done|apply Hl].
Qed.

Lemma wrote_linked j : linked v j -> linked v' j.
Proof using Ed W.
  intros (Hj & Ht & Hl). unfold Dir.linked. destruct (decide (j = n)) as [->|Hne]; [by destruct wrote_same_type as [-> ->]|].
  by rewrite (wt_others _ _ _ _ _ _ _ _ _ _ _ _ _ W).
Qed.

Lemma wrote_changed : (linked v n -> di_type (dinode_at v n) = T_DIR -> dir_ok v' (dinode_at v' n)) -> changed sb v v' n.
Proof using V G Hn Ed W Hmax.
  intros Hdir. destruct wrote_same_type as [Et El]. assert (addrs v n = di_addrs (din s ip)) as Ea by (unfold Volume.addrs; by rewrite Ed). split.
  - exact (use_pos sb v n V Hn).
  - exact (wt_len _ _ _ _ _ _ _ _ _ _ _ _ _ W).
  - exact (wt_others _ _ _ _ _ _ _ _ _ _ _ _ _ W).
  - exact wrote_keep.
  - exact (wt_used _ _ _ _ _ _ _ _ _ _ _ _ _ W).
  - intros a. rewrite wrote_addrs, Ea. intros [?|?]%(wt_new _ _ _ _ _ _ _ _ _ _ _ _ _ W); [by left|by right].
  - intros a _. rewrite wrote_addrs, Ea. apply (wt_old _ _ _ _ _ _ _ _ _ _ _ _ _ W).
  - intros c Hc. rewrite wrote_addrs. apply (wt_acct _ _ _ _ _ _ _ _ _ _ _ _ _ W). destruct Hc. pose proof (meta_pos _ _ (vo_layout _ _ V) G). lia.
  - destruct Hn. split; [done|]. by rewrite Et.
  - apply wrote_good.
  - intros (? & ? & ?). unfold Dir.linked. by rewrite Et, El.
  - unfold Dir.linked. rewrite Et, El. by apply Hdir.
Qed.

Lemma wrote_content : off <= di_size (dinode_at v n) -> content sb v' n = splice (Z.to_nat off) src (content sb v n).
Proof using V Hn Ed W Hmax.
  clear G. intros Ho. pose proof (ig_size _ _ _ (vo_good _ _ V _ Hn)) as Hs. pose proof wrote_size as Es. unfold content. apply list_eq. intros j.
  rewrite lookup_splice_le by (rewrite length_fbytes; lia). destruct (decide (Z.of_nat j < di_size (dinode_at v' n))) as [Hj|Hj].
  - rewrite lookup_fbytes by lia. pose proof (wt_bytes _ _ _ _ _ _ _ _ _ _ _ _ _ W (Z.of_nat j)) as Hb.
    rewrite <- wrote_addrs, <- (wt_disk _ _ _ _ _ _ _ _ _ _ _ _ _ W Ed) in Hb. rewrite Z.add_0_l, Hb by lia. case_decide as Hd.
    + rewrite decide_True by lia. rewrite list_lookup_total_alt. replace (Z.to_nat (Z.of_nat j - off)) with (j - Z.to_nat off)%nat by lia.
      destruct (lookup_lt_is_Some_2 src (j - Z.to_nat off)) as [b ->]; [lia|done].
    + rewrite decide_False by lia. rewrite lookup_fbytes by lia. rewrite Z.add_0_l. unfold Volume.addrs. by rewrite Ed.
  - rewrite decide_False by lia. rewrite !lookup_ge_None_2; [done|rewrite length_fbytes; lia..].
Qed.

(** Entry [i] of a directory was written, in place or at its end. *)
Lemma wrote_entries i : off = DIRENT_SIZE * Z.of_nat i -> length src = 16%nat -> di_size (dinode_at v n) mod DIRENT_SIZE = 0 ->
  (i <= length (entries v (dinode_at v n)))%nat ->
  forall j, entries v' (dinode_at v' n) !! j = if decide (j = i) then Some src else entries v (dinode_at v n) !! j.
Proof using V Hn Ed W.
  clear G Hmax. intros Eo El Hm Hi j. pose proof (ig_size _ _ _ (vo_good _ _ V _ Hn)) as Hs. rewrite length_entries in Hi. pose proof wrote_size as Es.
  pose proof (Z.div_mod (di_size (dinode_at v n)) DIRENT_SIZE ltac:(done)) as Hdm. rewrite El in Es. unfold DIRENT_SIZE in *.
  assert (di_size (dinode_at v' n) mod 16 = 0) as Hm' by (rewrite Es; destruct (Z.max_spec (di_size (dinode_at v n)) (off + Z.of_nat 16)) as [[_ ->]|[_ ->]]; [|done]; subst off; Z.to_euclidean_division_equations; lia).
  assert (forall o, 0 <= o < di_size (dinode_at v' n) -> fbyte v' (di_addrs (dinode_at v' n)) o =
    if decide (off <= o < off + 16) then src !!! Z.to_nat (o - off) else fbyte v (di_addrs (dinode_at v n)) o) as Hb.
  { intros o Ho. pose proof (wt_bytes _ _ _ _ _ _ _ _ _ _ _ _ _ W o) as B. rewrite (wt_disk _ _ _ _ _ _ _ _ _ _ _ _ _ W Ed) in *. rewrite El in B. rewrite Ed. by apply B. }
  destruct (decide (16 * Z.of_nat j < di_size (dinode_at v' n))) as [Hlt|Hge].
  2: { rewrite decide_False by lia. rewrite !lookup_ge_None_2; [done|rewrite length_entries; unfold DIRENT_SIZE; lia|].
       rewrite length_entries. unfold DIRENT_SIZE. Z.to_euclidean_division_equations. lia. }
  destruct (entries_lookup v' (dinode_at v' n) j ltac:(lia) Hm' Hlt) as [-> Hle]. unfold DIRENT_SIZE in *. change (Z.to_nat 16) with 16%nat. case_decide as Hji.
  - subst j. f_equal. apply list_eq. intros q. destruct (decide (q < 16)%nat) as [Hq|Hq]; [|rewrite !lookup_ge_None_2; [done|lia|rewrite length_fbytes; lia]].
    rewrite lookup_fbytes by done. rewrite Hb, decide_True by lia. replace (Z.to_nat (_ - off)) with q by lia. symmetry. apply list_lookup_lookup_total_lt. lia.
  - assert (16 * Z.of_nat j < di_size (dinode_at v n)) as Hlt' by lia. destruct (entries_lookup v (dinode_at v n) j ltac:(lia) Hm Hlt') as [-> Hle']. unfold DIRENT_SIZE in *.
    f_equal. apply fbytes_ext. intros q Hq. change (Z.to_nat 16) with 16%nat in Hq. rewrite Hb, decide_False by lia. done.
Qed.
End wrote.

(** ** Adding a directory entry *)

Section find.
Context {A : Type} (P : A -> Prop) `{!forall x, Decision (P x)} (E E' : list A) (i : nat) (e : A).
Context (HE : forall j, E' !! j = if decide (j = i) then Some e else E !! j).

Lemma find_put_hit : list_find P E = None -> P e -> list_find P E' = Some (i, e).
Proof using HE.
  intros HN He. apply list_find_None in HN. apply list_find_Some. split; [by rewrite HE, decide_True|]. split; [done|].
  intros j y Hj Hlt. rewrite HE, decide_False in Hj by lia. by eapply Forall_lookup_1 in HN.
Qed.

Lemma find_put_miss : (forall x, E !! i = Some x -> ~ P x) -> ~ P e -> list_find P E' = list_find P E.
Proof using HE.
  intros Hi He. destruct (list_find P E) as [[j x]|] eqn:EF.
  - apply list_find_Some in EF as (Hj & Hx & Hb). apply list_find_Some. rewrite HE. assert (j <> i) by (intros ->; by eapply Hi).
    rewrite decide_False by done. split; [done|]. split; [done|]. intros j' y Hj' Hlt. rewrite HE in Hj'. case_decide; [by simplify_eq|]. by eapply Hb.
  - apply list_find_None in EF. apply list_find_None, Forall_lookup. intros j x Hj. rewrite HE in Hj. case_decide; [by simplify_eq|].
    by eapply Forall_lookup_1 in EF.
Qed.
End find.

(** The cache after inode [n], held in entry [ip], has changed. *)
Lemma icached_changed v v' lk l n ip x :
  icached sb v lk l -> (forall j, is_inum j -> j <> n -> dinode_at v' j = dinode_at v j) -> l !! ip = Some x -> held sb pid v n ip x ->
  let y := set_din (dinode_at v' n) x in
  icached sb v' lk (<[ip := y]> l) /\ irefs (<[ip := y]> l) = irefs l /\ held sb pid v' n ip y.
Proof.
  intros C Hoth Hx [(Hr & Hdv & Hn) Hlk Hv He] y. pose proof (uniq_lone _ _ _ (id_uniq _ _ _ _ C) Hx Hr) as Ho. split_and!.
  - split.
    + apply uniq_insert; [apply C|done].
    + intros j z [(-> & <- & _)|[Hne Hz]]%list_lookup_insert_Some.
      * pose proof (id_entry _ _ _ _ C _ _ Hx) as [E1 E2 E3 E4]. split; cbn; [done..|]. intros _ _. by rewrite Hn.
      * pose proof (id_entry _ _ _ _ C _ _ Hz) as [E1 E2 E3 E4]. split; [done..|]. intros Hr' Hv'. rewrite E4 by done. symmetry.
        apply Hoth; [by apply E3|]. intros E. apply Hne. symmetry. eapply Ho; [exact Hz|done|congruence].
    + intros j z [(-> & <- & _)|[_ Hz]]%list_lookup_insert_Some Hj; [|by eapply id_lock]. exact (id_lock _ _ _ _ C _ _ Hx Hj).
  - by eapply irefs_same.
  - split; cbn; done.
Qed.

(** The fields of the inode held in entry [ip] are updated, in the cache and on disk. *)
Lemma update_din {A} s v L n ip x f (m : M fs A) Q E :
  fs_ok s v L ∅ -> layout sb (length v) -> 1 <= w -> room sb L 1 1 -> f_inodes s !! ip = Some x -> held sb pid v n ip x -> is_inum n ->
  length (di_addrs (f (dinode_at v n))) = 13%nat ->
  (forall s', fs_ok s' (put_inode sb n (f (dinode_at v n)) v) (logged L (IBLOCK n sb)) ∅ -> f_inodes s' = <[ip := set_din (f (dinode_at v n)) x]> (f_inodes s) -> wpe m Q E s') ->
  wpe (upd_din ip f ;; iupdate ip ;; m) Q E s.
Proof.
  intros F Ly Hw Hroom Hx [(Hr & Hdv & Hn) Hlk Hv Hdin] Hnum Hd HQ. pose proof (lookup_lt_Some _ _ _ Hx) as Hlt. assert (inode_at s ip = x) as Ex by (by apply list_lookup_total_correct).
  apply wpe_bind_wp, wp_upd_inode. rewrite Ex, Hdin. apply wpe_bind_wp. eapply iupdate_ok; rewrite ?map_size_empty, ?inode_at_insert by done; cbn [set_din i_dev i_inum i_din]; rewrite ?Hn; try done.
  - apply fs_set_inodes; [exact F|]. rewrite length_insert. apply (fo_inodes _ _ _ _ _ _ _ _ F).
  - intros l F'. by apply HQ.
Qed.

(** The volume stays consistent when the inode keeps its file and stays linked. *)
Section meta.
Context (s : fs) (v : list block) (L : list Z) (lk : list nat) (n : Z) (ip : nat) (x : inode) (f : dinode -> dinode).
Context (F : fs_ok s v L ∅) (V : vol_ok v) (Hw : 1 <= w) (Hroom : room sb L 1 1).
Context (C : icached sb v lk (f_inodes s)) (Hx : f_inodes s !! ip = Some x) (He : held sb pid v n ip x) (Hu : in_use v n).
#[local] Abbreviation d := (f (dinode_at v n)).
#[local] Abbreviation v' := (put_inode sb n d v).
Context (Hd : dinode_ok d) (Ht : di_type d <> 0) (Ea : di_addrs d = addrs v n) (Es : di_size d = di_size (dinode_at v n)).
Context (Hl : linked v n -> di_nlink d <> 0) (Hdir : di_type d = T_DIR -> di_nlink d <> 0 -> dir_ok v (dinode_at v n)).

Lemma update_meta {A} (m : M fs A) Q E :
  (forall s', fs_ok s' v' (logged L (IBLOCK n sb)) ∅ -> icached sb v' lk (f_inodes s') -> f_inodes s' = <[ip := set_din d x]> (f_inodes s) ->
     irefs (f_inodes s') = irefs (f_inodes s) -> held sb pid v' n ip (set_din d x) -> dinode_at v' n = d -> entries v' d = entries v (dinode_at v n) -> changed sb v v' n -> wpe m Q E s') ->
  wpe (upd_din ip f ;; iupdate ip ;; m) Q E s.
Proof using F V Hw Hroom C Hx He Hu Hd Ht Ea Es Hl Hdir.
  intros HQ. pose proof (vo_layout _ _ V) as Ly. pose proof (fs_geom _ _ _ _ _ _ _ _ F) as G. pose proof (fs_vok _ _ _ _ _ _ _ _ F) as Hok.
  pose proof (put_meta sb v n d V G Hok (proj1 Hu) Hd Ht Hu Ea Es Hl Hdir) as Ch.
  pose proof (put_eq sb v n d V G Hok (proj1 Hu) Hd) as Ed. pose proof (put_entries sb v n d V G Hok (proj1 Hu) Hd Hu Ea Es) as Ee. destruct (icached_changed v v' lk (f_inodes s) n ip x C (ch_other _ _ _ _ Ch) Hx He) as (C' & Er & He'). rewrite Ed in *.
  apply (update_din s v L n ip x f m Q E F Ly Hw Hroom Hx He (proj1 Hu)); [apply Hd|]. intros s' F' Ei. rewrite <- Ei in C', Er. exact (HQ s' F' C' Ei Er He' eq_refl Ee Ch).
Qed.
End meta.

Lemma nblocks_entry i : nblocks (DIRENT_SIZE * Z.of_nat i) 16 = 1.
Proof. unfold nblocks, DIRENT_SIZE, BSIZE. Z.to_euclidean_division_equations. lia. Qed.

(** Writing an inode takes no block. *)
Lemma put_nfree v n d : vol_ok v -> geometry sb (length v) -> is_inum n -> nfree sb (put_inode sb n d v) = nfree sb v.
Proof.
  intros V G Hn. pose proof (IBLOCK_range sb _ (vo_layout _ _ V) n Hn). pose proof (meta_pos _ _ (vo_layout _ _ V) G). apply nfree_eq. intros c Hc.
  apply (used_insert_data sb _ (vo_layout _ _ V) G); lia.
Qed.

(** The blocks that a new entry of a directory of [size] bytes may need: a block when the last one is full, and the indirect block when the inode names no more. *)
Definition dir_cost (size : Z) : Z := if size mod Z.of_nat BSIZE =? 0 then if size / Z.of_nat BSIZE <? NDIRECT then 1 else 2 else 0.

Lemma dir_cost_pos size : 0 <= dir_cost size.
Proof. unfold dir_cost. destruct (_ =? _); [destruct (_ <? _)|]; lia. Qed.

Lemma mapped_missing v ad bn : baddr v ad bn <> 0 -> missing v ad bn (bn + 1) = 0.
Proof.
  intros H0. unfold missing, holes. replace (bn + 1 - bn) with 1 by lia. rewrite seqZ_cons, filter_cons_False, seqZ_nil by (done || lia). cbn [length filter].
  rewrite decide_False; [done|]. intros [Hi Hl]. apply H0. unfold baddr. by rewrite (proj2 (Z.ltb_ge bn NDIRECT)), Hi by lia.
Qed.

Lemma slot_missing v d i : dir_ok v d -> (i <= length (entries v d))%nat ->
  missing v (di_addrs d) (DIRENT_SIZE * Z.of_nat i / Z.of_nat BSIZE) (DIRENT_SIZE * Z.of_nat i / Z.of_nat BSIZE + 1) <= dir_cost (di_size d).
Proof.
  intros D Hi. rewrite length_entries in Hi. destruct (dk_size _ _ _ D) as [S0 S1]. pose proof (dk_whole _ _ _ D) as Hwh. set (bn := _ / _).
  pose proof (Z.div_mod (di_size d) DIRENT_SIZE ltac:(done)) as Hdiv. assert (DIRENT_SIZE * Z.of_nat i <= di_size d) as Hle by (unfold DIRENT_SIZE in *; lia).
  assert (0 <= bn) as Hb0 by (apply Z.div_pos; [unfold DIRENT_SIZE; lia|done]). pose proof (dir_cost_pos (di_size d)).
  destruct (decide (bn * Z.of_nat BSIZE < di_size d)) as [Hm|Hm]; [rewrite mapped_missing; [done|]; by apply (dk_hole _ _ _ D)|].
  assert (di_size d = bn * Z.of_nat BSIZE) as Es by (pose proof (Z.mul_div_le (DIRENT_SIZE * Z.of_nat i) (Z.of_nat BSIZE) eq_refl) as Hmd; fold bn in Hmd; lia).
  unfold dir_cost. rewrite Es, Z_mod_mult, Z_div_mult by done. cbn [Z.eqb]. destruct (Z.ltb_spec bn NDIRECT) as [Hl|Hl]; [|pose proof (missing_le v (di_addrs d) bn (bn + 1)); lia].
  unfold missing, holes. rewrite decide_False by lia. pose proof (length_filter (fun x => baddr v (di_addrs d) x = 0) (seqZ bn (bn + 1 - bn))) as Hf. rewrite length_seqZ in Hf. lia.
Qed.

Lemma slot_covers i : DIRENT_SIZE * Z.of_nat i + 16 <= MAXFILE * Z.of_nat BSIZE ->
  covers (DIRENT_SIZE * Z.of_nat i / Z.of_nat BSIZE) (DIRENT_SIZE * Z.of_nat i / Z.of_nat BSIZE + 1) (DIRENT_SIZE * Z.of_nat i) 16.
Proof.
  change (MAXFILE * Z.of_nat BSIZE) with 71680. unfold covers, DIRENT_SIZE. change MAXFILE with 140. change (Z.of_nat BSIZE) with 512. intros H. Z.to_euclidean_division_equations. lia.
Qed.

(** The entry [i] of directory [n], held in [dp], becomes [de]. *)
Section slot.
Context (s : fs) (v : list block) (L : list Z) (n : Z) (dp : nat) (x : inode) (i : nat) (de : list Z).
Context (F : fs_ok s v L ∅) (V : vol_ok v) (Hx : f_inodes s !! dp = Some x) (He : held sb pid v n dp x).
Context (Hl : linked v n) (Ht : di_type (dinode_at v n) = T_DIR) (Hi : (i <= length (entries v (dinode_at v n)))%nat).
Context (Hlen : length de = 16%nat) (Hde : de_inum de <> 0 -> linked v (de_inum de)) (Hmax : DIRENT_SIZE * Z.of_nat i + 16 <= MAXFILE * Z.of_nat BSIZE).

Record slot_set (s' : fs) (v' : list block) (L' : list Z) : Prop := {
  ss_fs : fs_ok s' v' L' ∅;
  ss_changed : changed sb v v' n;
  ss_inodes : f_inodes s' = <[dp := set_din (dinode_at v' n) x]> (f_inodes s);
  ss_entries : forall j, entries v' (dinode_at v' n) !! j = if decide (j = i) then Some de else entries v (dinode_at v n) !! j;
  ss_attrs : same_attrs (dinode_at v n) (dinode_at v' n);
  ss_size : di_size (dinode_at v' n) = Z.max (di_size (dinode_at v n)) (DIRENT_SIZE * Z.of_nat i + 16);
  ss_free : Z.of_nat (nfree sb v) <= Z.of_nat (nfree sb v') + dir_cost (di_size (dinode_at v n));
  ss_log : Z.of_nat (length L') <= Z.of_nat (length L) + 4;
}.

Lemma slot_wrote s' v' L' : wrote sb k pid w s dp v L (DIRENT_SIZE * Z.of_nat i) de s' v' L' -> slot_set s' v' L'.
Proof using F V Hx He Hl Ht Hi Hlen Hde Hmax.
  intros W. assert (inode_at s dp = x) as Ex by (by apply list_lookup_total_correct).
  destruct He as [(Hr & Hdv & Hn) Hlk Hv Hdin]. assert (i_inum (inode_at s dp) = n) as En by (by rewrite Ex).
  assert (dinode_at v n = din s dp) as Ed by (unfold din; by rewrite Ex). pose proof (fs_geom _ _ _ _ _ _ _ _ F) as G.
  pose proof (linked_use _ _ _ Hl) as Hu. pose proof (tr_dir _ _ (vo_tree _ _ V) n Hl Ht) as D.
  assert (0 <= DIRENT_SIZE * Z.of_nat i /\ DIRENT_SIZE * Z.of_nat i + Z.of_nat (length de) <= MAXFILE * Z.of_nat BSIZE) as Hmx
    by (rewrite Hlen; unfold DIRENT_SIZE in *; lia).
  rewrite <- En in Hu, Ed. pose proof (wrote_entries s dp v L _ _ s' v' L' V Hu Ed W i eq_refl Hlen) as HE.
  pose proof (wrote_good s dp v L _ _ s' v' L' V Hu Ed W Hmx) as Hgood. pose proof (wrote_size s dp v L _ _ s' v' L' Ed W) as Hsz.
  pose proof (wrote_attrs s dp v L _ _ s' v' L' Ed W) as Hattrs. pose proof (wrote_linked s dp v L _ _ s' v' L' Ed W) as Hlinked.
  assert (linked v (i_inum (inode_at s dp)) -> di_type (dinode_at v (i_inum (inode_at s dp))) = T_DIR -> dir_ok v' (dinode_at v' (i_inum (inode_at s dp)))) as Hdir.
  { intros _ _. rewrite En in *. specialize (HE (dk_whole _ _ _ D) Hi). destruct Hgood as [G1 G2 G3]. split; [done|done| |done|].
    - rewrite Hsz, Hlen. pose proof (dk_whole _ _ _ D) as Hwh. unfold DIRENT_SIZE in *. destruct (Z.max_spec (di_size (dinode_at v n)) (16 * Z.of_nat i + Z.of_nat 16)) as [[_ ->]|[_ ->]]; [|done].
      Z.to_euclidean_division_equations. lia.
    - intros de' [j Hj]%list_elem_of_lookup_1 H0. rewrite HE in Hj. apply Hlinked. case_decide.
      + simplify_eq. by apply Hde.
      + apply (dk_list _ _ _ D); [by eapply list_elem_of_lookup_2|done]. }
  pose proof (wrote_changed s dp v L _ _ s' v' L' V G Hu Ed W Hmx Hdir) as Ch. rewrite En in *. split.
  - apply W.
  - exact Ch.
  - rewrite (wt_inodes _ _ _ _ _ _ _ _ _ _ _ _ _ W), Ex. do 2 f_equal. symmetry. pose proof (wt_disk _ _ _ _ _ _ _ _ _ _ _ _ _ W) as Hdk. rewrite En in Hdk. by apply Hdk.
  - exact (HE (dk_whole _ _ _ D) Hi).
  - exact Hattrs.
  - by rewrite Hsz, Hlen.
  - pose proof (slot_missing v (dinode_at v n) i D Hi) as Hc. pose proof (slot_covers i Hmax) as Hcv. pose proof (wt_spare _ _ _ _ _ _ _ _ _ _ _ _ _ W _ _ ltac:(rewrite Hlen; exact Hcv)) as Hsp.
    unfold spare in Hsp. rewrite <- Ed in Hsp. unfold missing at 2 in Hsp. destruct (decide _) in Hsp; lia.
  - pose proof (wt_log _ _ _ _ _ _ _ _ _ _ _ _ _ W) as Hlog. rewrite Hlen, nblocks_entry in Hlog. lia.
Qed.

(** Writing the entry. *)
Lemma slot_write : 1 <= w -> room sb L 5 2 -> Forall is_byte de ->
  wpe (writei dp de (DIRENT_SIZE * Z.of_nat i)) (fun r s' => r = DIRENT_SIZE /\ exists v' L', slot_set s' v' L')
    (fun e => (e = "balloc: out of blocks"%string /\ Z.of_nat (nfree sb v) < dir_cost (di_size (dinode_at v n))) /\ i = length (entries v (dinode_at v n))) s.
Proof using F V Hx He Hl Ht Hi Hlen Hde Hmax.
  intros Hw Hroom Hb. pose proof (vo_layout _ _ V) as Ly. pose proof (tr_dir _ _ (vo_tree _ _ V) n Hl Ht) as D. pose proof (fs_geom _ _ _ _ _ _ _ _ F) as G.
  assert (inode_at s dp = x) as Ex by (by apply list_lookup_total_correct). destruct (din_held sb pid v n dp x (f_inodes s) Hx He s eq_refl) as [Ed Edev].
  pose proof (lookup_lt_Some _ _ _ Hx) as Hlt. rewrite (fo_inodes _ _ _ _ _ _ _ _ F) in Hlt. pose proof Hi as Hi'. rewrite length_entries in Hi'. destruct (dk_size _ _ _ D) as [S0 S1].
  pose proof (dk_whole _ _ _ D) as Hwh. pose proof (Z.div_mod (di_size (dinode_at v n)) DIRENT_SIZE ltac:(done)) as Hdiv.
  eapply wpe_mono; [eapply (writei_ok sb k pid w s dp v L (DIRENT_SIZE * Z.of_nat i) de F Ly)| |].
  all: rewrite ?Ed, ?Ex, ?Hlen; try done; try (unfold DIRENT_SIZE in *; lia).
  - apply He.
  - destruct He as [(_ & _ & ->) _ _ _]. apply Hl.
  - apply dinode_at_ok; [done..|by apply (fs_vok _ _ _ _ _ _ _ _ F)|apply Hl].
  - apply D.
  - apply D.
  - change (Z.of_nat 16) with 16. by rewrite nblocks_entry.
  - apply V.
  - by rewrite Ht.
  - intros r t [-> (v' & L' & W)]. split; [done|]. exists v', L'. by apply slot_wrote.
  - intros e [[-> He'] Hh]. split; [split; [done|]; specialize (He' _ _ (slot_covers i Hmax)); pose proof (slot_missing v (dinode_at v n) i D Hi); unfold spare in He'; lia|]. destruct (decide (i = length (entries v (dinode_at v n)))) as [|Hne]; [done|]. exfalso. apply Hh.
    rewrite length_entries in Hne. intros bn H1 H2. apply (dk_hole _ _ _ D); [change (0 / Z.of_nat BSIZE) with 0|unfold DIRENT_SIZE in *; lia].
    etrans; [|exact H1]. apply Z.div_pos; [unfold DIRENT_SIZE; lia|done].
Qed.
End slot.

Lemma slot_set_eq s t v L n dp x i de s' v' L' : f_inodes t = f_inodes s -> slot_set t v L n dp x i de s' v' L' -> slot_set s v L n dp x i de s' v' L'.
Proof. intros E [A1 A2 A3 A4 A5 A6 A7 A8]. split; [done|done|by rewrite <- E|done..]. Qed.

Section dirlink.
Context (s : fs) (v : list block) (L : list Z) (lk : list nat) (n : Z) (dp : nat) (x : inode) (name : list Z) (m : Z).
Context (F : fs_ok s v L ∅) (V : vol_ok v) (Hw : 1 <= w) (Hroom : room sb L 5 2).
Context (C : icached sb v lk (f_inodes s)) (Hx : f_inodes s !! dp = Some x) (He : held sb pid v n dp x).
Context (Hl : linked v n) (Ht : di_type (dinode_at v n) = T_DIR) (Hm : linked v m) (Hm0 : 0 < m) (Hname : Forall is_byte name).

(** The entry [i] of directory [n] lists [m] as [name]; nothing else has changed. *)
Record entered (i : nat) (s' : fs) (v' : list block) (L' : list Z) : Prop := {
  et_set : slot_set s v L n dp x i (dirent m name) s' v' L';
  et_at : (i <= length (entries v (dinode_at v n)))%nat;
  et_slot : forall de, entries v (dinode_at v n) !! i = Some de -> de_inum de = 0;
}.

Lemma linked_small : m < 65536.
Proof using Hm V. clear - Hm V. destruct Hm as [[_ H] _]. destruct (ly_ninodes _ _ (vo_layout _ _ V)). lia. Qed.

(** Looking a name up afterwards. *)
Lemma entered_find i s' v' L' q : entered i s' v' L' -> dir_find v (dinode_at v n) (dname name) = None ->
  dir_find v' (dinode_at v' n) q = if decide (q = dname name) then Some (i, m) else dir_find v (dinode_at v n) q.
Proof using V Hm Hm0.
  intros E Hnone. pose proof linked_small as Hsm. unfold dir_find. assert (de_inum (dirent m name) = m) as Ei by (apply dirent_inum; lia). case_decide as Eq.
  - subst q. rewrite (find_put_hit _ _ _ i (dirent m name) (ss_entries _ _ _ _ _ _ _ _ _ _ _ (et_set _ _ _ _ E))); [change (Some (i, de_inum (dirent m name)) = Some (i, m)); by rewrite Ei| |split; [lia|apply dirent_name]].
    unfold dir_find in Hnone. by destruct (list_find _ _).
  - by rewrite (find_put_miss _ _ _ i (dirent m name) (ss_entries _ _ _ _ _ _ _ _ _ _ _ (et_set _ _ _ _ E))); [|intros de Hde [? _]; by apply (et_slot _ _ _ _ E) in Hde|rewrite <- (dirent_name m name) in Eq; by intros [_ <-]].
Qed.

Definition no_block (e : string) : Prop := e = "balloc: out of blocks"%string /\ Z.of_nat (nfree sb v) < dir_cost (di_size (dinode_at v n)).
Definition dir_full (e : string) : Prop := e = "dirlink"%string /\ di_size (dinode_at v n) = MAXFILE * Z.of_nat BSIZE.

Lemma dirlink_ok : (size (irefs (f_inodes s)) < length (f_inodes s))%nat -> dir_find v (dinode_at v n) (dname name) = None ->
  wpe (dirlink dp name m) (fun r s' => r = 0 /\ exists i v' L', entered i s' v' L') (fun e => no_block e \/ dir_full e) s.
Proof using F V Hw Hroom C Hx He Hl Ht Hm Hm0 Hname.
  intros Hfree Hnone. pose proof (vo_layout _ _ V) as Ly. pose proof (tr_dir _ _ (vo_tree _ _ V) n Hl Ht) as D.
  assert (length L < NBUF)%nat as HL by (destruct Hroom; lia). pose proof (fs_geom _ _ _ _ _ _ _ _ F) as G.
  pose proof (lookup_lt_Some _ _ _ Hx) as Hlt. rewrite (fo_inodes _ _ _ _ _ _ _ _ F) in Hlt.
  unfold dirlink. apply wpe_bind_wp. eapply (dirlookup_ok sb k pid w v L n dp x (f_inodes s) lk Ly HL C Hx He D Ht Hfree); [done|done|done|].
  intros r t F1 Hfound. unfold found in Hfound. rewrite Hnone in Hfound. destruct Hfound as [-> Et]. apply wpe_bind_wp, wp_get.
  destruct (din_held sb pid v n dp x (f_inodes s) Hx He t Et) as [-> _]. destruct (dk_size _ _ _ D) as [S0 S1]. pose proof (dk_whole _ _ _ D) as Hwh.
  pose proof (Z.div_mod (di_size (dinode_at v n)) DIRENT_SIZE ltac:(done)) as Hdiv. pose proof (length_entries v (dinode_at v n)) as Hlen.
  apply wpe_bind_wp. change 0 with (DIRENT_SIZE * Z.of_nat 0). eapply (find_empty_ok sb k pid w v L n dp x (f_inodes s) Ly HL Hx He D Ht); [done|done|lia| |].
  { unfold dir_fuel. assert (0 <= di_size (dinode_at v n) / DIRENT_SIZE) by (apply Z.div_pos; [lia|done]). lia. }
  intros t2 i F2 Et2 Hi Hslot. destruct (din_held sb pid v n dp x (f_inodes s) Hx He t2 Et2) as [Ed2 Edev2].
  assert (inode_at t2 dp = x) as Ex by (unfold inode_at; rewrite Et2; by apply list_lookup_total_correct).
  assert (MAXFILE * Z.of_nat BSIZE = 71680) as HM by reflexivity. assert (DIRENT_SIZE * Z.of_nat i <= di_size (dinode_at v n)) as Hoff by (unfold DIRENT_SIZE in *; lia).
  destruct (decide (DIRENT_SIZE * Z.of_nat i + 16 <= MAXFILE * Z.of_nat BSIZE)) as [Hmax|Hmax].
  - eapply wpe_bind, wpe_mono; [apply (slot_write t2 v L n dp x i (dirent m name) F2 V); rewrite ?Et2; try done| |intros e [He' _]; by left].
    + apply length_dirent.
    + intros _. rewrite dirent_inum; [done|]. pose proof linked_small. lia.
    + by apply dirent_bytes.
    + intros r t3 [-> (v' & L' & W)]. apply wpe_wp. rewrite Z.eqb_refl. cbn [negb]. apply wp_ret. split; [done|].
      exists i, v', L'. split; [by apply (slot_set_eq s t2)|done|done].
  - apply wpe_bind_wp. eapply wp_mono; [apply (writei_bad t2 dp (dirent m name) (DIRENT_SIZE * Z.of_nat i))|].
    + by rewrite Ed2, Ht.
    + unfold DIRENT_SIZE in *. lia.
    + by rewrite length_dirent.
    + rewrite length_dirent. apply orb_true_iff. right. apply Z.ltb_lt. lia.
    + intros r t3 [-> ->]. change (-1 =? DIRENT_SIZE) with false. cbn [negb]. right. split; [done|]. unfold DIRENT_SIZE in *. lia.
Qed.

(** The directory has one entry more. *)
Record entry_added (s' : fs) (v' : list block) (L' : list Z) (y : inode) : Prop := {
  ea_fs : fs_ok s' v' L' ∅;
  ea_vol : vol_ok v';
  ea_cached : icached sb v' lk (f_inodes s');
  ea_inodes : f_inodes s' = <[dp := y]> (f_inodes s);
  ea_refs : irefs (f_inodes s') = irefs (f_inodes s);
  ea_held : held sb pid v' n dp y;
  ea_changed : changed sb v v' n;
  ea_find : forall q, snd <$> dir_find v' (dinode_at v' n) q = if decide (q = dname name) then Some m else snd <$> dir_find v (dinode_at v n) q;
  ea_attrs : same_attrs (dinode_at v n) (dinode_at v' n);
  ea_size : DIRENT_SIZE <= di_size (dinode_at v' n);
  ea_free : Z.of_nat (nfree sb v) <= Z.of_nat (nfree sb v') + dir_cost (di_size (dinode_at v n));
  ea_len : (length (entries v' (dinode_at v' n)) <= S (length (entries v (dinode_at v n))))%nat;
  ea_log : Z.of_nat (length L') <= Z.of_nat (length L) + 4;
}.

Lemma dirlink_adds : (size (irefs (f_inodes s)) < length (f_inodes s))%nat -> dir_find v (dinode_at v n) (dname name) = None ->
  wpe (dirlink dp name m) (fun r s' => r = 0 /\ exists v' L' y, entry_added s' v' L' y) (fun e => no_block e \/ dir_full e) s.
Proof using F V Hw Hroom C Hx He Hl Ht Hm Hm0 Hname.
  intros Hfree Hnone. eapply wpe_mono; [by apply dirlink_ok| |done]. intros r s' [-> (i & v' & L' & E)]. split; [done|].
  pose proof (ss_changed _ _ _ _ _ _ _ _ _ _ _ (et_set _ _ _ _ E)) as Ch. destruct (icached_changed v v' lk (f_inodes s) n dp x C (ch_other _ _ _ _ Ch) Hx He) as (C' & Er & He').
  exists v', L', (set_din (dinode_at v' n) x). rewrite <- (ss_inodes _ _ _ _ _ _ _ _ _ _ _ (et_set _ _ _ _ E)) in C', Er. split; try done; try apply E.
  - exact (vol_changed sb v v' n V Ch).
  - intros q. rewrite (entered_find i s' v' L' q E Hnone). by case_decide.
  - rewrite (ss_size _ _ _ _ _ _ _ _ _ _ _ (et_set _ _ _ _ E)). unfold DIRENT_SIZE. lia.
  - apply Nat.nlt_ge. intros Hlt. destruct (lookup_lt_is_Some_2 _ _ Hlt) as [de Hde]. rewrite (ss_entries _ _ _ _ _ _ _ _ _ _ _ (et_set _ _ _ _ E)) in Hde. pose proof (et_at _ _ _ _ E).
    rewrite decide_False in Hde by lia. apply lookup_lt_Some in Hde. lia.
Qed.
End dirlink.

(** ** Allocating an inode *)

Section ialloc.
Context (v : list block) (L : list Z) (lk : list nat) (l : list inode) (type : Z).
Context (Ly : layout sb (length v)) (Hw : 1 <= w) (Hroom : room sb L 1 1) (C : icached sb v lk l) (Hfree : (size (irefs l) < length l)%nat).
Context (Hrefs : forall n r, irefs l !! n = Some r -> di_type (dinode_at v n) <> 0).

(** The inode [n] was free; it is cleared, given its type and taken into the cache. *)
Record allocated (n : Z) (ip : nat) (s' : fs) : Prop := {
  al_inum : is_inum n;
  al_pos : 0 < n;
  al_free : di_type (dinode_at v n) = 0;
  al_fs : fs_ok s' (put_inode sb n (fresh_dinode type) v) (logged L (IBLOCK n sb)) ∅;
  al_got : got sb (put_inode sb n (fresh_dinode type) v) lk n l ip (f_inodes s');
}.

Lemma free_uncached n : di_type (dinode_at v n) = 0 -> forall j x, l !! j = Some x -> 0 < i_ref x -> i_inum x <> n.
Proof using C Hrefs. clear Hroom. intros H0 j x Hj Hr <-. by apply (Hrefs (i_inum x) (i_ref x)); [eapply irefs_lookup; [apply C|done..]|]. Qed.

Lemma icached_free n d : Forall block_ok v -> geometry sb (length v) -> is_inum n -> length (di_addrs d) = 13%nat -> di_type (dinode_at v n) = 0 ->
  icached sb (put_inode sb n d v) lk l.
Proof using Ly C Hrefs.
  clear Hroom. intros Hok G Hn Hd H0. destruct C as [U E K]. split; [done| |done]. intros j x Hj. pose proof (E j x Hj) as [E1 E2 E3 E4].
  split; [done..|]. intros Hr Hv. rewrite E4 by done. symmetry. apply put_inode_ne; [done..|by apply E3| |done]. apply not_eq_sym. by apply (free_uncached n H0 j).
Qed.

Lemma ialloc_loop_ok fuel : forall s i, fs_ok s v L ∅ -> f_inodes s = l -> 0 < i -> sb_ninodes sb - i <= Z.of_nat fuel ->
  (forall j, 0 < j < i -> di_type (dinode_at v j) <> 0) ->
  wpe (ialloc_loop fuel ROOTDEV type i) (fun ip s' => exists n, allocated n ip s')
    (fun e => e = "ialloc: no inodes"%string /\ forall j, 0 < j < sb_ninodes sb -> di_type (dinode_at v j) <> 0) s.
Proof using Ly Hw Hroom C Hfree Hrefs.
  induction fuel as [|fuel IH]; intros s i F El Hi Hf Hall; cbn [ialloc_loop]; apply wpe_bind_wp, wp_get; rewrite (fo_sb _ _ _ _ _ _ _ _ F);
    (destruct (Z.ltb_spec i (sb_ninodes sb)) as [Hlt|Hge]; cbn [negb]; [|split; [done|]; intros j Hj; apply Hall; lia]); [lia|].
  pose proof (fs_geom _ _ _ _ _ _ _ _ F) as G. pose proof (fs_vok _ _ _ _ _ _ _ _ F) as Hok. assert (is_inum i) as Hin by (unfold Inode.is_inum; lia).
  pose proof (IBLOCK_range sb _ Ly i Hin). pose proof (meta_pos _ _ Ly G). destruct (inode_block sb v Ly G Hok i Hin) as (d & Hv & Hbd & Ev). destruct Hroom as [Hr1 Hr2].
  apply wpe_bind_wp. eapply fs_bread; [exact F|destruct Ly; lia|done|apply (above_log _ _ Ly); lia|rewrite map_size_empty; lia|]. intros bp l1 F1 Hrel.
  apply wpe_bind_wp. eapply fs_bdata; [exact F1|apply lookup_insert_eq|exact Hv|].
  assert (s16 (get_u16 (dip_off i) d) = di_type (dinode_at v i)) as -> by (unfold Inode.dinode_at; by rewrite Ev).
  destruct (Z.eqb_spec (di_type (dinode_at v i)) 0) as [E0|Hne].
  - apply wpe_wp. rewrite put_fresh by (rewrite (proj1 Hbd); apply dip_off_fits).
    eapply wp_write_block; [exact F1|done|done|destruct Ly; lia|apply put_dinode_block; [done|apply dip_off_fits|done]|lia|]. intros l2 F2.
    assert (<[Z.to_nat (IBLOCK i sb) := put_dinode (dip_off i) (fresh_dinode type) d]> v = put_inode sb i (fresh_dinode type) v) as Ep by (unfold put_inode; by rewrite Ev).
    rewrite Ep in F2. pose proof (icached_free i (fresh_dinode type) Hok G Hin eq_refl E0) as C2.
    eapply (iget_ok sb); cbn [set_fl f_inodes]; rewrite ?El; [exact C2|done|done|]. intros ip l' Hgot. exists i. split; [done|done|done| |done].
    apply (fs_set_inodes sb k pid w (set_fl l2 (set_fl l1 s))); [exact F2|]. destruct Hgot as (_ & _ & a & y & _ & -> & _). rewrite length_insert, <- El. apply (fo_inodes _ _ _ _ _ _ _ _ F).
  - apply wpe_bind_wp. eapply fs_brelse; [exact F1|apply lookup_insert_eq|done|]. intros l2 F2. rewrite delete_insert_id in F2 by done.
    apply IH; [exact F2|done|lia|lia|]. intros j Hj. destruct (decide (j = i)) as [->|]; [done|]. apply Hall. lia.
Qed.

Lemma ialloc_gives s : fs_ok s v L ∅ -> f_inodes s = l ->
  wpe (ialloc ROOTDEV type) (fun ip s' => exists n, allocated n ip s')
    (fun e => e = "ialloc: no inodes"%string /\ forall j, 0 < j < sb_ninodes sb -> di_type (dinode_at v j) <> 0) s.
Proof using Ly Hw Hroom C Hfree Hrefs.
  intros F El. unfold ialloc. apply wpe_bind_wp, wp_get. rewrite (fo_sb _ _ _ _ _ _ _ _ F). apply ialloc_loop_ok; [done|done|lia| |lia]. destruct (ly_ninodes _ _ Ly). lia.
Qed.
End ialloc.
End ops.
