(* ===== verification/Trunc.v ===== *)
(** * Freeing a file in [fs.c]: [bfree] in [itrunc], and the last [iput] of an inode without links.

    Truncating a file frees exactly its blocks; the inode is then free as well, and the
    rest of the volume is as before. *)

From Stdlib Require Import String.
From stdpp Require Import gmap.
From S2P Require Import Prelude CString Params Bio Log Trans Fs Balloc Inode Content Blockmap Dir Writei Volume.
Local Open Scope Z_scope.

(** ** Blocks that are freed *)

Section freed.
Context (sb : superblock).
#[local] Abbreviation used := (used sb).

(** From [v] to [v'] the blocks of [P] are freed, and nothing else changes. *)
Record freed (P : Z -> Prop) (v v' : list block) : Prop := {
  fr_len : length v' = length v;
  fr_used : forall c, 0 <= c < sb_size sb -> used v' c = true <-> used v c = true /\ ~ P c;
  fr_other : forall a, 0 <= a -> a < sb_bmapstart sb \/ datastart sb <= a -> v' !! Z.to_nat a = v !! Z.to_nat a;
}.

Lemma freed_none P v : (forall c, ~ P c) -> freed P v v.
Proof. intros H. split; [done| |done]. intros c _. naive_solver. Qed.

Lemma freed_iff P P' v v' : (forall c, P c <-> P' c) -> freed P v v' -> freed P' v v'.
Proof. intros H [A1 A2 A3]. split; [done| |done]. intros c Hc. by rewrite A2, H. Qed.

Lemma freed_one P v v' b : layout sb (length v) -> geometry sb (length v) -> Forall block_ok v' -> 0 <= b < sb_size sb ->
  freed P v v' -> freed (fun c => P c \/ c = b) v (unmark sb b v').
Proof.
  intros Ly G Hok Hb [A1 A2 A3]. rewrite <- A1 in Ly, G. pose proof (meta_pos _ _ Ly G). pose proof (BBLOCK_range sb b Hb). split.
  - unfold unmark. by rewrite length_insert.
  - intros c Hc. rewrite (used_unmark sb _ Ly G v' b eq_refl Hok Hb c Hc), andb_true_iff, negb_true_iff, bool_decide_eq_false, (A2 c Hc). tauto.
  - intros a Ha Hr. unfold unmark. rewrite list_lookup_insert_ne by lia. by apply A3.
Qed.

(** A file that loses no block. *)
Lemma freed_keep P v v' ad a : freed P v v' -> layout sb (length v) -> geometry sb (length v) -> file_ok sb v ad -> has_block v ad a -> ~ P a ->
  v' !! Z.to_nat a = v !! Z.to_nat a /\ live sb v' a.
Proof.
  intros [A1 A2 A3] Ly G Fk Ha Hn. destruct (has_live sb v ad a Fk Ha) as [[H1 H2] Hu]. pose proof (meta_pos _ _ Ly G).
  split; [apply A3; lia|]. split; [done|]. apply A2; [lia|done].
Qed.
End freed.

(** The blocks of the first [n] file blocks. *)
Definition first_blocks (v : list block) (ad : list Z) (n : Z) (c : Z) : Prop := c <> 0 /\ exists bn, 0 <= bn < n /\ baddr v ad bn = c.

Lemma first_none v ad c : ~ first_blocks v ad 0 c.
Proof. intros (_ & bn & ? & _). lia. Qed.

Lemma first_next v ad n c : 0 <= n -> first_blocks v ad (n + 1) c <-> first_blocks v ad n c \/ c = baddr v ad n /\ baddr v ad n <> 0.
Proof.
  intros Hn. split.
  - intros (H0 & bn & Hb & <-). destruct (decide (bn = n)) as [->|]; [by right|]. left. split; [done|]. exists bn. split; [lia|done].
  - intros [(H0 & bn & Hb & <-)|[-> H0]]; (split; [done|]); eexists; (split; [|done]); lia.
Qed.

Lemma first_direct v ad c : indirect ad = 0 -> first_blocks v ad NDIRECT c <-> has_block v ad c.
Proof.
  intros Hi. split.
  - intros (H0 & bn & Hb & E). split; [done|]. right. exists bn. split; [unfold MAXFILE, NINDIRECT; lia|done].
  - intros (H0 & [E|(bn & Hb & E)]); [congruence|]. split; [done|]. exists bn. split; [|done]. destruct (decide (bn < NDIRECT)); [lia|].
    unfold baddr in E. rewrite (proj2 (Z.ltb_ge _ _)) in E by lia. rewrite Hi in E. cbn in E. congruence.
Qed.

Lemma first_all v ad c : indirect ad <> 0 -> first_blocks v ad MAXFILE c \/ c = indirect ad <-> has_block v ad c.
Proof. intros Hi. unfold first_blocks, has_block. split; [intros [?| ->]; [tauto|by split; [|left]]|tauto]. Qed.

(** ** The volume without an inode *)

Section removed.
Context (sb : superblock).
#[local] Abbreviation dinode_at := (dinode_at sb).
#[local] Abbreviation in_use := (in_use sb).
#[local] Abbreviation addrs := (addrs sb).
#[local] Abbreviation used := (used sb).
#[local] Abbreviation linked := (linked sb).

(** From [v] to [v'] the inode [n] is freed, with the blocks of its file. *)
Record removed (v v' : list block) (n : Z) : Prop := {
  rm_len : length v' = length v;
  rm_other : forall j, is_inum sb j -> j <> n -> dinode_at v' j = dinode_at v j;
  rm_type : di_type (dinode_at v' n) = 0;
  rm_keep : forall j a, in_use v j -> j <> n -> has_block v (addrs v j) a -> v' !! Z.to_nat a = v !! Z.to_nat a /\ live sb v' a;
  rm_used : forall c, is_data sb c -> used v' c = true -> used v c = true /\ ~ has_block v (addrs v n) c;
  rm_meta : forall c, 0 <= c < datastart sb -> used v' c = true;
}.

Section keep.
Context (v v' : list block) (n : Z) (V : vol_ok sb v) (R : removed v v' n) (Hn : ~ linked v n) (Hu : in_use v n).

Lemma rm_use j : in_use v' j <-> in_use v j /\ j <> n.
Proof using R.
  clear Hn Hu. split.
  - intros [Hj Ht]. destruct (decide (j = n)) as [->|Hne]; [by rewrite (rm_type _ _ _ R) in Ht|]. rewrite (rm_other _ _ _ R) in Ht by done. by split.
  - intros [[Hj Ht] Hne]. split; [done|]. by rewrite (rm_other _ _ _ R).
Qed.

Lemma rm_linked j : linked v' j <-> linked v j.
Proof using R Hn.
  unfold Dir.linked. split; intros (Hj & Ht & Hl).
  - destruct (decide (j = n)) as [->|Hne]; [by rewrite (rm_type _ _ _ R) in Ht|]. by rewrite (rm_other _ _ _ R) in Ht, Hl.
  - destruct (decide (j = n)) as [->|Hne]; [by destruct Hn|]. by rewrite (rm_other _ _ _ R).
Qed.

Lemma rm_same j : in_use v j -> j <> n -> inode_good sb v' j /\ same_inode sb v v' j.
Proof using V R.
  intros Hj Hne. pose proof (vo_good _ _ V j Hj) as Hg. pose proof (rm_other _ _ _ R j (proj1 Hj) Hne) as Ed. pose proof (fun a => rm_keep _ _ _ R j a Hj Hne) as Hk.
  split; [by apply (same_good sb v v')|]. split; [done|by apply (same_content sb v v')|by apply (same_entries sb v v')].
Qed.

Lemma rm_has j a : in_use v j -> j <> n -> has_block v' (addrs v' j) a <-> has_block v (addrs v j) a.
Proof using R. intros Hj Hne. apply (same_has sb v v'); [by apply (rm_other _ _ _ R); [apply Hj|]|]. intros b. by apply (rm_keep _ _ _ R). Qed.

Lemma rm_vol : vol_ok sb v'.
Proof using V R Hn Hu.
  assert (0 < n) as Hpos by (by eapply use_pos). split.
  - rewrite (rm_len _ _ _ R). apply V.
  - split; [apply rm_linked, (vo_tree _ _ V)|]. intros j Hj. pose proof (proj1 (rm_linked j) Hj) as Hj0. assert (j <> n) as Hne by (by intros ->).
    destruct (rm_same j (linked_use _ _ _ Hj0) Hne) as [[G1 G2 G3] [Ed _ Ee]]. intros Ht. pose proof Ht as Ht0. rewrite Ed in Ht0. destruct (tr_dir _ _ (vo_tree _ _ V) j Hj0 Ht0) as [D1 D2 D3 D4 D5].
    split; [done|done|by rewrite Ed|done|]. intros de. rewrite Ee. intros Hde H0. apply rm_linked. by apply D5.
  - rewrite (rm_other _ _ _ R); [apply V| |lia]. destruct (ly_ninodes _ _ (vo_layout _ _ V)). unfold Inode.is_inum. lia.
  - intros j [Hj Hne]%rm_use. by apply rm_same.
  - intros j m [Hj Hjn]%rm_use [Hm Hmn]%rm_use Hne a Ha Hb. rewrite rm_has in Ha, Hb by done. exact (vo_apart _ _ V j m Hj Hm Hne a Ha Hb).
  - apply R.
  - intros c Hc Huc. destruct (rm_used _ _ _ R c Hc Huc) as [Hv Hnb]. destruct (vo_exact _ _ V c Hc Hv) as (j & Hj & Hb).
    assert (j <> n) by (by intros ->). exists j. split; [by apply rm_use|by apply rm_has].
Qed.
End keep.

(** The inode is emptied, then marked free. *)
Lemma removed_put v v1 n d1 d2 : vol_ok sb v -> geometry sb (length v) -> in_use v n -> freed sb (has_block v (addrs v n)) v v1 -> Forall block_ok v1 ->
  Forall block_ok (put_inode sb n d1 v1) -> length (di_addrs d1) = 13%nat -> dinode_ok d2 -> di_type d2 = 0 ->
  removed v (put_inode sb n d2 (put_inode sb n d1 v1)) n.
Proof.
  intros V G Hu Fr Hok Hok1 Hl1 Hd2 Ht. pose proof (fr_len _ _ _ _ Fr) as El. pose proof (vo_layout _ _ V) as Ly. pose proof (meta_pos _ _ Ly G) as HM. pose proof (ly_data _ _ Ly).
  assert (length (put_inode sb n d1 v1) = length v) as El1 by (unfold put_inode; by rewrite length_insert).
  pose proof (IBLOCK_range sb _ Ly n (proj1 Hu)) as Hb. assert (forall d u c, layout sb (length u) -> geometry sb (length u) -> 0 <= c < sb_size sb -> used (put_inode sb n d u) c = used u c) as Hused
    by (intros d u c Lu Gu Hc; unfold put_inode; apply (meta_used sb u); [done|done|lia|done]).
  assert (forall c, 0 <= c < sb_size sb -> used (put_inode sb n d2 (put_inode sb n d1 v1)) c = used v1 c) as Hus.
  { intros c Hc. rewrite Hused, Hused; [done|by rewrite El|by rewrite El|done|by rewrite El1|by rewrite El1|done]. }
  split.
  - unfold put_inode at 1. by rewrite length_insert.
  - intros j Hj Hne. assert (n <> j) as Hne' by congruence.
    rewrite (put_inode_ne sb (put_inode sb n d1 v1)); rewrite ?El1; [|done|done|done|apply Hu|done|done|apply Hd2].
    rewrite (put_inode_ne sb v1); rewrite ?El; [|done|done|done|apply Hu|done|done|done].
    pose proof (IBLOCK_range sb _ Ly j Hj). unfold Inode.dinode_at. rewrite !list_lookup_total_alt, (fr_other _ _ _ _ Fr) by lia. done.
  - rewrite put_inode_eq; rewrite ?El1; try done. apply Hu.
  - intros j a Hj Hne Ha. destruct (freed_keep _ _ _ _ _ a Fr Ly G (ig_file _ _ _ (vo_good _ _ V j Hj)) Ha) as [E [[Ha1 Ha2] Ha3]].
    { intros Hb'. exact (vo_apart _ _ V j n Hj Hu Hne a Ha Hb'). }
    split; [unfold put_inode; rewrite !list_lookup_insert_ne by lia; done|]. split; [done|]. rewrite Hus by lia. done.
  - intros c [Hc1 Hc2] Huc. apply (fr_used _ _ _ _ Fr c); [lia|]. by rewrite <- Hus by lia.
  - intros c Hc. rewrite Hus by lia. apply (fr_used _ _ _ _ Fr c); [lia|]. split; [by apply (vo_meta _ _ V)|]. intros Hh.
    destruct (has_live sb v _ c (ig_file _ _ _ (vo_good _ _ V n Hu)) Hh) as [[? _] _]. lia.
Qed.
End removed.

Section trunc.
Context `{BD : !BlockDevice} `{DS : !Devsw}.
Context (sb : superblock) (k : disk) (pid w : Z) (Hw : 1 <= w).
#[local] Abbreviation fs_ok := (fs_ok sb k pid w).
#[local] Abbreviation bm := (sb_bmapstart sb).

(** The bitmap is one block. *)
Lemma one_bitmap s v L Hd b : fs_ok s v L Hd -> layout sb (length v) -> 0 <= b < sb_size sb -> BBLOCK b sb = bm.
Proof.
  intros F Ly Hb. pose proof (fs_size _ _ _ _ _ _ _ _ F) as H. rewrite <- (ly_size _ _ Ly) in H. unfold BBLOCK. rewrite Z.div_small; [lia|]. unfold FSSIZE, BPB in *. lia.
Qed.

Lemma bfree_ok s v L Hd b (Q : unit -> fs -> Prop) :
  fs_ok s v L Hd -> layout sb (length v) -> room sb L 1 (S (size Hd)) -> 0 <= b < sb_size sb -> Hd !! bm = None -> used sb v b = true ->
  (forall s', f_inodes s' = f_inodes s -> fs_ok s' (unmark sb b v) (logged L bm) Hd -> Q tt s') -> wp (bfree ROOTDEV b) Q s.
Proof using Hw.
  intros F Ly Hr Hb Hn Hu HQ. pose proof (one_bitmap s v L Hd b F Ly Hb) as Eb.
  eapply wp_wpe; [eapply wpe_mono; [eapply (bfree_spec sb k pid w s v L Hd b); try done; by rewrite Eb| |intros e He; exact He]|by intros e [_ ?%eq_sym]; rewrite Hu in *].
  intros [] s' (_ & Ei & F' & _). rewrite Eb in F'. by apply HQ.
Qed.

(** ** [itrunc] *)

Section file.
Context (s : fs) (v : list block) (L : list Z) (n : Z) (ip : nat) (x : inode).
#[local] Abbreviation ad := (di_addrs (i_din x)).
Context (F : fs_ok s v L ∅) (Ly : layout sb (length v)) (Hroom : room sb L 3 2).
Context (Hx : f_inodes s !! ip = Some x) (Hdev : i_dev x = ROOTDEV) (Hn : i_inum x = n) (Hnum : is_inum sb n) (Fk : file_ok sb v ad).

(** The blocks of [P] are freed, and the inode has the addresses [ad']. *)
Definition freeing (P : Z -> Prop) (ad' : list Z) (Hd : gmap Z nat) (s' : fs) : Prop := exists v' L',
  fs_ok s' v' L' Hd /\ freed sb P v v' /\ (L' = L \/ L' = logged L bm) /\ f_inodes s' = <[ip := with_addrs ad' x]> (f_inodes s).

Lemma freeing_iff P P' ad' Hd s' : (forall c, P c <-> P' c) -> freeing P ad' Hd s' -> freeing P' ad' Hd s'.
Proof. intros H (v' & L' & F' & Fr & HL & Ei). exists v', L'. split_and!; [done|by eapply freed_iff|done|done]. Qed.

Lemma free_next P ad' Hd s' b : freeing P ad' Hd s' -> (size Hd <= 1)%nat -> Hd !! bm = None -> live sb v b -> ~ P b ->
  wp (bfree ROOTDEV b) (fun _ => freeing (fun c => P c \/ c = b) ad' Hd) s'.
Proof using Hw F Ly Hroom.
  intros (v' & L' & F' & Fr & HL & Ei) Hs Hb Hlive HP. pose proof (fs_geom _ _ _ _ _ _ _ _ F) as G. destruct (live_range sb v Ly G b Hlive) as [Hrg _].
  assert (layout sb (length v')) as Ly' by (by rewrite (fr_len _ _ _ _ Fr)). pose proof (length_logged L bm). destruct Hroom as [R1 R2].
  eapply (bfree_ok s' v' L' Hd b); [done|done| |done|done| |].
  - destruct HL; subst L'; split; lia.
  - apply (fr_used _ _ _ _ Fr b Hrg). split; [apply Hlive|done].
  - intros s2 E2 F2. exists (unmark sb b v'), (logged L' bm). split_and!; [done| | |by rewrite E2].
    + apply freed_one; [done|done|by apply (fs_vok _ _ _ _ _ _ _ _ F')|done|done].
    + right. destruct HL; subst L'; [done|]. unfold logged at 1. rewrite decide_True; [done|]. apply elem_logged. by right.
Qed.

Lemma freeing_at P ad' Hd s' : freeing P ad' Hd s' -> inode_at s' ip = with_addrs ad' x.
Proof using Hx. intros (v' & L' & _ & _ & _ & Ei). unfold inode_at. rewrite Ei. apply list_lookup_total_insert_eq. by eapply lookup_lt_Some. Qed.

Lemma freeing_set P ad' ad2 Hd s' (f : dinode -> dinode) : freeing P ad' Hd s' -> f (set_addrs ad' (i_din x)) = set_addrs ad2 (i_din x) ->
  wp (upd_din ip f) (fun _ => freeing P ad2 Hd) s'.
Proof using F Hx.
  intros Hf E. pose proof (freeing_at P ad' Hd s' Hf) as Ea. destruct Hf as (v' & L' & F' & Fr & HL & Ei). apply wp_upd_inode. rewrite Ea.
  exists v', L'. split_and!; [|done|done|cbn [f_inodes]].
  - apply fs_set_inodes; [done|]. rewrite length_insert. by apply (fo_inodes _ _ _ _ _ _ _ _ F').
  - rewrite Ei, list_insert_insert_eq. unfold with_addrs, set_din. cbn [i_din i_dev i_inum i_ref i_lock i_valid]. by rewrite E.
Qed.

(** The direct blocks. *)
Definition cleared (i : Z) : list Z := replicate (Z.to_nat i) 0 ++ drop (Z.to_nat i) ad.

Lemma cleared_next i : 0 <= i < NDIRECT -> <[Z.to_nat i := 0]> (cleared i) = cleared (i + 1).
Proof using Fk.
  intros Hi. pose proof (fk_len _ _ _ Fk) as Hl. unfold cleared, NDIRECT in *. replace (Z.to_nat (i + 1)) with (S (Z.to_nat i)) by lia.
  rewrite insert_app_r_alt by (rewrite length_replicate; lia). rewrite length_replicate, Nat.sub_diag. destruct (drop (Z.to_nat i) ad) as [|a r] eqn:E.
  { apply (f_equal length) in E. rewrite length_drop in E. cbn in E. lia. }
  rewrite replicate_S_end, <- app_assoc. cbn. f_equal. f_equal.  rewrite <- Nat.add_1_r, <- drop_drop, E. done.
Qed.

Lemma cleared_at i : 0 <= i < NDIRECT -> cleared i !!! Z.to_nat i = baddr v ad i.
Proof using Fk.
  intros Hi. unfold cleared, baddr. rewrite (proj2 (Z.ltb_lt _ _)) by lia. rewrite !list_lookup_total_alt, lookup_app_r, length_replicate, Nat.sub_diag, lookup_drop by (rewrite length_replicate; lia).
  by rewrite Nat.add_0_r.
Qed.

Lemma first_fresh m : 0 <= m < MAXFILE -> baddr v ad m <> 0 -> ~ first_blocks v ad m (baddr v ad m).
Proof using Fk. intros Hm H0 (_ & bn & Hb & E). pose proof (fk_inj _ _ _ Fk m bn Hm ltac:(lia) H0 (eq_sym E)). lia. Qed.

Lemma direct_ok : wp (for_loop (Z.to_nat NDIRECT) 0 (fun i =>
    s ← get; let addr := di_addrs (din s ip) !!! Z.to_nat i in
    if addr =? 0 then mret tt else bfree ROOTDEV addr ;; upd_din ip (fun d => set_addrs (<[Z.to_nat i := 0]> (di_addrs d)) d)))
  (fun _ => freeing (first_blocks v ad NDIRECT) (cleared NDIRECT) ∅) s.
Proof using Hw F Ly Hroom Hx Fk.
  eapply wp_mono; [apply (wp_for_loop (fun i => freeing (first_blocks v ad i) (cleared i) ∅))|by intros []].
  - exists v, L. split_and!; [done|apply freed_none, first_none|by left|]. rewrite list_insert_id; [done|]. rewrite Hx. f_equal. symmetry. apply with_addrs_id.
  - intros i t Hi Hf. change (0 + Z.of_nat (Z.to_nat NDIRECT)) with NDIRECT in Hi. apply wp_bind, wp_get. unfold din. rewrite (freeing_at _ _ _ _ Hf). cbn [with_addrs set_din i_din di_addrs set_addrs].
    rewrite cleared_at by lia. pose proof (fun c => first_next v ad i c ltac:(lia)) as Hnx. assert (i < MAXFILE) by (unfold MAXFILE, NINDIRECT in *; lia).
    destruct (Z.eqb_spec (baddr v ad i) 0) as [E0|H0].
    + apply wp_ret. destruct Hf as (v' & L' & F' & Fr & HL & Ei). exists v', L'. split_and!; [done| |done|].
      * eapply freed_iff; [|exact Fr]. intros c. rewrite Hnx. tauto.
      * assert (cleared (i + 1) = cleared i) as ->; [|done]. rewrite <- cleared_next by lia. apply list_insert_id.
        rewrite list_lookup_lookup_total_lt; [f_equal; rewrite cleared_at by lia; done|].
        unfold cleared. rewrite length_app, length_replicate, length_drop, (fk_len _ _ _ Fk). unfold NDIRECT in *. lia.
    + apply wp_bind. eapply wp_mono; [apply (free_next _ _ _ _ (baddr v ad i) Hf); rewrite ?map_size_empty; [lia|apply lookup_empty|apply (fk_live _ _ _ Fk); [lia|done]|]|].
      * apply first_fresh; [lia|done].
      * intros [] t2 Hf2. eapply wp_mono; [eapply (freeing_set _ _ (cleared (i + 1)) _ _ _ Hf2)|].
        -- cbn [di_addrs set_addrs]. rewrite cleared_next by lia. done.
        -- intros [] t3. apply freeing_iff. intros c. rewrite Hnx. tauto.
Qed.

(** The entries of the indirect block, in the buffer [bp]. *)
Lemma entries_ok t bp d : indirect ad <> 0 -> v !! Z.to_nat (indirect ad) = Some d ->
  freeing (first_blocks v ad NDIRECT) (cleared NDIRECT) {[indirect ad := bp]} t ->
  wp (for_loop (Z.to_nat NINDIRECT) 0 (fun j =>
      a ← bop (bdata bp); let addr := get_u32 (4 * Z.to_nat j) a in if addr =? 0 then mret tt else bfree ROOTDEV addr))
    (fun _ => freeing (first_blocks v ad MAXFILE) (cleared NDIRECT) {[indirect ad := bp]}) t.
Proof using Hw F Ly Hroom Hx Fk.
  intros Hi Hd Hf. pose proof (fs_geom _ _ _ _ _ _ _ _ F) as G. pose proof (meta_pos _ _ Ly G) as HM. destruct (fk_ind _ _ _ Fk Hi) as [[Hi1 Hi2] _].
  eapply wp_mono; [apply (wp_for_loop (fun j => freeing (first_blocks v ad (NDIRECT + j)) (cleared NDIRECT) {[indirect ad := bp]})); [exact Hf|]|by intros []].
  intros j t1 Hj Hf1. change (0 + Z.of_nat (Z.to_nat NINDIRECT)) with NINDIRECT in Hj. apply wp_bind.
  assert (baddr v ad (NDIRECT + j) = get_u32 (4 * Z.to_nat j) d) as Eb.
  { unfold baddr. rewrite (proj2 (Z.ltb_ge _ _)) by lia. rewrite (proj2 (Z.eqb_neq _ _)) by done. rewrite (list_lookup_total_correct _ _ _ Hd). by replace (NDIRECT + j - NDIRECT) with j by lia. }
  assert (NDIRECT + j < MAXFILE) as Hmax by (unfold MAXFILE; lia). assert (0 <= NDIRECT + j) as Hpos by (unfold NDIRECT; lia).
  pose proof (fun c => first_next v ad (NDIRECT + j) c Hpos) as Hnx. rewrite Eb in Hnx. rewrite Z.add_assoc.
  pose proof Hf1 as (v' & L' & F' & Fr & HL & Ei). eapply fs_bdata; [exact F'|apply lookup_insert_eq|rewrite (fr_other _ _ _ _ Fr) by lia; exact Hd|].
  cbv zeta. destruct (Z.eqb_spec (get_u32 (4 * Z.to_nat j) d) 0) as [E0|H0].
  - apply wp_ret. eapply freeing_iff; [|exact Hf1]. intros c. rewrite Hnx. tauto.
  - eapply wp_mono; [apply (free_next _ _ _ _ _ Hf1)|].
    + by rewrite map_size_singleton.
    + apply lookup_singleton_ne. lia.
    + rewrite <- Eb in H0 |- *. apply (fk_live _ _ _ Fk); [lia|done].
    + rewrite <- Eb in *. apply first_fresh; [lia|done].
    + intros [] t2. apply freeing_iff. intros c. rewrite Hnx. tauto.
Qed.

Lemma cleared_ind : cleared NDIRECT = replicate 12 0 ++ [indirect ad].
Proof using Fk.
  pose proof (fk_len _ _ _ Fk) as Hl. unfold cleared, indirect. change (Z.to_nat NDIRECT) with 12%nat. f_equal.
  destruct ad as [|a0 [|a1 [|a2 [|a3 [|a4 [|a5 [|a6 [|a7 [|a8 [|a9 [|a10 [|a11 [|a12 [|]]]]]]]]]]]]]]; try discriminate Hl. done.
Qed.

(** The indirect block, its entries and itself. *)
Lemma indirect_ok t : freeing (first_blocks v ad NDIRECT) (cleared NDIRECT) ∅ t ->
  wp (let ind := indirect ad in
    if ind =? 0 then mret tt else
    bp ← bop (bread ROOTDEV ind);
    for_loop (Z.to_nat NINDIRECT) 0 (fun j =>
      a ← bop (bdata bp); let addr := get_u32 (4 * Z.to_nat j) a in if addr =? 0 then mret tt else bfree ROOTDEV addr) ;;
    bop (brelse bp) ;;
    bfree ROOTDEV ind ;;
    upd_din ip (fun d => set_addrs (<[Z.to_nat NDIRECT := 0]> (di_addrs d)) d))
  (fun _ => freeing (has_block v ad) (replicate 13 0) ∅) t.
Proof using Hw F Ly Hroom Hx Fk.
  intros Hf. cbv zeta. destruct (Z.eqb_spec (indirect ad) 0) as [E0|H0].
  { apply wp_ret. rewrite cleared_ind, E0 in Hf. eapply freeing_iff; [|exact Hf]. intros c. by apply first_direct. }
  pose proof (fs_geom _ _ _ _ _ _ _ _ F) as G. pose proof (meta_pos _ _ Ly G) as HM. pose proof (fk_ind _ _ _ Fk H0) as Hli. pose proof (live_range sb v Ly G _ Hli) as Hr.
  destruct (lookup_lt_is_Some_2 v (Z.to_nat (indirect ad))) as [d Hd]; [destruct Ly; lia|]. destruct Hf as (v1 & L1 & F1 & Fr1 & HL1 & Ei1). pose proof (length_logged L bm). destruct Hroom as [R1 R2].
  apply wp_bind. eapply fs_bread; [exact F1|rewrite (fr_len _ _ _ _ Fr1); destruct Ly; lia|apply lookup_empty|by apply (data_not_log sb (length v)); [..|apply Hli]|rewrite map_size_empty; destruct HL1; subst L1; lia|].
  intros bp l F2 Hrel. apply wp_bind. eapply wp_mono; [apply (entries_ok _ bp d H0 Hd); by exists v1, L1|]. intros [] t2 (v2 & L2 & F3 & Fr2 & HL2 & Ei2).
  apply wp_bind. eapply fs_brelse; [exact F3|apply lookup_insert_eq| |].
  { destruct (fs_releasable _ _ _ _ _ _ _ _ F (indirect ad)) as [HL|Hk]; [lia|apply lookup_empty|left|right].
    - destruct HL2; subst L2; [done|]. apply elem_logged. by left.
    - destruct Hli as [[? ?] _]. rewrite (fr_other _ _ _ _ Fr2) by lia. done. }
  intros l3 F4. rewrite delete_singleton_eq in F4. apply wp_bind. eapply wp_mono; [apply (free_next (first_blocks v ad MAXFILE) (cleared NDIRECT) ∅ (set_fl l3 t2) (indirect ad))|].
  - by exists v2, L2.
  - by rewrite map_size_empty; lia.
  - apply lookup_empty.
  - done.
  - intros (_ & bn & Hb & E). destruct (fk_live _ _ _ Fk bn Hb) as [_ ?]; [congruence|done].
  - intros [] t4 Hf4. eapply wp_mono; [eapply (freeing_set _ _ (replicate 13 0) _ _ _ Hf4)|].
    + cbn [di_addrs set_addrs]. by rewrite cleared_ind.
    + intros [] t5. apply freeing_iff. intros c. by apply first_all.
Qed.

Definition emptied : dinode := set_size 0 (set_addrs (replicate 13 0) (i_din x)).

(** [itrunc] frees the blocks of the file, and no others. *)
Lemma itrunc_ok (Q : unit -> fs -> Prop) :
  (forall s' v' L', freed sb (has_block v ad) v v' -> Forall block_ok v' -> fs_ok s' (put_inode sb n emptied v') L' ∅ -> f_inodes s' = <[ip := set_din emptied x]> (f_inodes s) ->
     (length L' <= length L + 2)%nat -> IBLOCK n sb ∈ L' -> Q tt s') ->
  wp (itrunc ip) Q s.
Proof using Hw F Ly Hroom Hx Hdev Hn Hnum Fk.
  intros HQ. unfold itrunc. apply wp_bind, wp_get. assert (inode_at s ip = x) as Ex by (by apply list_lookup_total_correct). rewrite Ex, Hdev. cbv zeta.
  apply wp_bind. eapply wp_mono; [apply direct_ok|]. intros [] t Hf. apply wp_bind, wp_get. unfold din. rewrite (freeing_at _ _ _ _ Hf). cbn [with_addrs set_din i_din di_addrs set_addrs].
  rewrite cleared_ind. change ((replicate 12 0 ++ [indirect ad]) !!! Z.to_nat NDIRECT) with (indirect ad).
  apply wp_bind. eapply wp_mono; [apply (indirect_ok t Hf)|]. intros [] t2 Hf2. pose proof (freeing_at _ _ _ _ Hf2) as Ea. destruct Hf2 as (v' & L' & F' & Fr & HL & Ei).
  pose proof (fo_inodes _ _ _ _ _ _ _ _ F') as Hlen. pose proof (lookup_lt_Some _ _ _ Hx) as Hlt. rewrite (fo_inodes _ _ _ _ _ _ _ _ F) in Hlt. pose proof (length_logged L bm). pose proof (length_logged L' (IBLOCK n sb)).
  apply wp_bind, wp_upd_inode. rewrite Ea. eapply iupdate_ok; rewrite ?inode_at_insert by (by rewrite Hlen); cbn [set_din with_addrs i_dev i_inum i_din]; rewrite ?Hn.
  - apply fs_set_inodes; [exact F'|]. by rewrite length_insert.
  - by rewrite (fr_len _ _ _ _ Fr).
  - done.
  - rewrite map_size_empty. destruct Hroom as [R1 R2]. destruct HL; subst L'; split; lia.
  - done.
  - done.
  - done.
  - apply lookup_empty.
  - intros l F2. eapply HQ; [exact Fr|by apply (fs_vok _ _ _ _ _ _ _ _ F')|exact F2|..].
    + cbn [f_inodes set_fl]. rewrite Ei, list_insert_insert_eq. done.
    + destruct HL; subst L'; lia.
    + apply elem_logged. by right.
Qed.
End file.

(** ** [iput] *)

(** The cache after the inode [n], held in entry [ip], has gone. *)
Lemma icached_removed v v' lk l n ip x y : icached sb v lk l -> removed sb v v' n -> l !! ip = Some x -> caches ROOTDEV n x -> i_ref x = 1 ->
  i_ref y = 0 -> i_inum y = n -> sl_locked (i_lock y) = false -> icached sb v' lk (<[ip := y]> l) /\ irefs (<[ip := y]> l) = ref_put n (irefs l).
Proof.
  intros C R Hx (Hr & Hd & Hn) E1 E0 En Hlk. pose proof (uniq_lone _ _ _ (id_uniq _ _ _ _ C) Hx Hr) as Ho. rewrite Hn in Ho. split.
  - split.
    + apply uniq_insert; [apply C|by rewrite En].
    + intros j z [(-> & <- & _)|[Hne Hz]]%list_lookup_insert_Some; [split; lia|].
      pose proof (id_entry _ _ _ _ C _ _ Hz) as [A1 A2 A3 A4]. split; [done..|]. intros Hr' Hv'. rewrite A4 by done. symmetry.
      apply (rm_other _ _ _ _ R); [by apply A3|]. intros E. apply Hne. symmetry. by eapply Ho.
    + intros j z [(-> & <- & _)|[_ Hz]]%list_lookup_insert_Some Hj; [done|by eapply id_lock].
  - rewrite (irefs_insert l ip x); [|apply C|done|by rewrite En|by rewrite En]. rewrite E0, En. cbn. unfold ref_put. rewrite <- Hn, (irefs_lookup l (id_uniq _ _ _ _ C) ip x Hx Hr), E1. done.
Qed.

Lemma free_dinode_ok x : dinode_ok (i_din x) -> dinode_ok (set_type 0 (emptied x)).
Proof. intros [A1 A2 A3 A4 A5 A6 A7]. split; cbn; [done..|]. by repeat constructor. Qed.

Lemma put_away t ip z (Q : unit -> fs -> Prop) : f_inodes t !! ip = Some z ->
  Q tt (mkFs (f_l t) (<[ip := set_ref (i_ref z - 1) (set_ilock (mkSleeplock false 0) (set_valid false z))]> (f_inodes t)) (f_sb t)) ->
  wp (upd_inode ip (set_valid false)) (fun _ => wp (with_ilock ip releasesleep ;; upd_inode ip (fun i => set_ref (i_ref i - 1) i)) Q) t.
Proof.
  intros Hz HQ. pose proof (lookup_lt_Some _ _ _ Hz) as Hlt. assert (inode_at t ip = z) as Ez by (by apply list_lookup_total_correct).
  apply wp_upd_inode, wp_bind. unfold with_ilock, releasesleep. apply wp_zoom, wp_modify, wp_upd_inode. cbn [f_l f_inodes f_sb]. rewrite Ez.
  rewrite !inode_at_insert, !list_insert_insert_eq by (by rewrite ?length_insert). exact HQ.
Qed.

(** The last reference to an inode without links: the inode and its blocks are freed. *)
Lemma iput_last s v L lk n ip x (Q : unit -> fs -> Prop) :
  fs_ok s v L ∅ -> vol_ok sb v -> room sb L 3 2 -> icached sb v lk (f_inodes s) -> ip ∉ lk -> f_inodes s !! ip = Some x -> caches ROOTDEV n x ->
  i_valid x = true -> i_ref x = 1 -> in_use sb v n -> di_nlink (dinode_at sb v n) = 0 ->
  (forall s' v' L', fs_ok s' v' L' ∅ -> removed sb v v' n -> icached sb v' lk (f_inodes s') -> irefs (f_inodes s') = ref_put n (irefs (f_inodes s)) -> Q tt s') ->
  wp (iput ip) Q s.
Proof using Hw.
  intros F V Hroom C Hlk Hx Hc Hv Hr1 Hu Hl0 HQ. pose proof Hc as (Hr & Hd & Hn). assert (inode_at s ip = x) as Ex by (by apply list_lookup_total_correct). pose proof (vo_layout _ _ V) as Ly.
  pose proof (fs_geom _ _ _ _ _ _ _ _ F) as G. pose proof (id_entry _ _ _ _ C _ _ Hx) as En. pose proof (lookup_lt_Some _ _ _ Hx) as Hlt. pose proof (fo_inodes _ _ _ _ _ _ _ _ F) as Hlen.
  assert (i_din x = dinode_at sb v n) as Ed by (rewrite (en_copy _ _ _ En), Hn by done; done). pose proof (vo_good _ _ V n Hu) as [Fk _ _].
  unfold iput. apply wp_bind, wp_get, wp_bind. unfold with_ilock. apply wp_zoom. rewrite Ex. unfold acquiresleep. wp_steps. rewrite (id_lock _ _ _ _ C _ _ Hx Hlk). wp_steps.
  set (s1 := mkFs _ _ _). assert (fs_ok s1 v L ∅) as F1 by (apply fs_set_inodes; [done|]; by rewrite length_insert).
  set (x1 := set_ilock (mkSleeplock true (mypid s)) x). assert (f_inodes s1 = <[ip := x1]> (f_inodes s)) as Ei1 by done.
  assert (f_inodes s1 !! ip = Some x1) as Hx1 by (rewrite Ei1; by apply list_lookup_insert_eq). assert (inode_at s1 ip = x1) as E1 by (by apply list_lookup_total_correct).
  clearbody s1. unfold din. rewrite E1. cbn [x1 i_valid set_ilock i_din i_ref]. rewrite Hv, Ed, Hl0, Hr1. change (true && (0 =? 0) && (1 =? 1)) with true. cbv iota.
  apply wp_bind. eapply (itrunc_ok s1 v L n ip x1 F1 Ly Hroom Hx1); [exact Hd|exact Hn|exact (proj1 Hu)|change (i_din x1) with (i_din x); rewrite Ed; exact Fk|].
  intros s2 v1 L1 Fr Hok1 F2 Ei2 HL1 Hlog. set (x2 := set_din _ _) in Ei2.
  rewrite Ei1, list_insert_insert_eq in Ei2. assert (f_inodes s2 !! ip = Some x2) as Hx2 by (rewrite Ei2; by apply list_lookup_insert_eq). assert (inode_at s2 ip = x2) as E2 by (by apply list_lookup_total_correct).
  pose proof (length_logged L1 (IBLOCK n sb)). pose proof (fr_len _ _ _ _ Fr) as Elen. pose proof (fo_inodes _ _ _ _ _ _ _ _ F2) as Hlen2. set (d2 := set_type 0 (emptied x1)).
  assert (dinode_ok d2) as Hd2 by (apply free_dinode_ok; change (i_din x1) with (i_din x); rewrite Ed; apply dinode_at_ok; [done|done|by apply (fs_vok _ _ _ _ _ _ _ _ F)|apply Hu]).
  change (di_addrs (i_din x1)) with (di_addrs (i_din x)) in Fr. rewrite Ed in Fr.
  assert (removed sb v (put_inode sb n d2 (put_inode sb n (emptied x1) v1)) n) as R by (apply removed_put; [done..|by apply (fs_vok _ _ _ _ _ _ _ _ F2)|done|done|done]).
  apply wp_bind, wp_upd_inode. rewrite E2, Ei2, list_insert_insert_eq. apply wp_bind.
  eapply iupdate_ok; rewrite ?map_size_empty, ?inode_at_insert by done; cbn [set_din i_dev i_inum i_din x2 x1 set_ilock]; rewrite ?Hn.
  - apply (fs_set_inodes sb k pid w s2); [exact F2|]. by rewrite length_insert.
  - unfold put_inode. by rewrite length_insert, Elen.
  - done.
  - destruct Hroom. split; lia.
  - done.
  - apply Hu.
  - done.
  - apply lookup_empty.
  - intros l F3. apply (put_away _ ip (set_din d2 x2)); [by apply list_lookup_insert_eq|]. cbn [f_l f_inodes f_sb set_fl]. rewrite list_insert_insert_eq.
    destruct (icached_removed v _ lk (f_inodes s) n ip x (set_ref (i_ref (set_din d2 x2) - 1) (set_ilock (mkSleeplock false 0) (set_valid false (set_din d2 x2)))) C R Hx Hc Hr1) as [C' Er]; [cbn; lia|done|done|].
    eapply HQ; [|exact R|exact C'|exact Er]. apply (fs_set_inodes sb k pid w _ _ _ _ _ F3). by rewrite length_insert.
Qed.
End trunc.
