(* ===== verification/Links.v ===== *)
(** * Links: the names of a file, and what removing one does to the volume.

    The link count of a file is the number of directory entries that list it. Clearing an entry
    and counting one link less keep that, and keep the volume consistent. *)

From Stdlib Require Import String.
From stdpp Require Import gmap.
From S2P Require Import Prelude CString Params Bio Log Trans Fs Balloc Inode Content Blockmap Dir Writei Volume Trunc.
Local Open Scope Z_scope.

Section links.
Context (sb : superblock).
#[local] Abbreviation dinode_at := (dinode_at sb).
#[local] Abbreviation is_inum := (is_inum sb).
#[local] Abbreviation linked := (linked sb).
#[local] Abbreviation in_use := (in_use sb).
#[local] Abbreviation vol_ok := (vol_ok sb).
#[local] Abbreviation addrs := (addrs sb).
#[local] Abbreviation same_inode := (same_inode sb).

(** ** Counting links *)

(** The entries of a directory that can be reached. *)
Definition listing (v : list block) (j : Z) : list (list Z) :=
  if decide (di_type (dinode_at v j) = T_DIR /\ di_nlink (dinode_at v j) <> 0) then entries v (dinode_at v j) else [].

Definition cnt (n : Z) (l : list (list Z)) : nat := length (filter (fun de => de_inum de = n) l).

(** The number of entries that list [n]. *)
Definition nrefs (v : list block) (n : Z) : nat := sum_list_with (fun j => cnt n (listing v (Z.of_nat j))) (seq 0 (Z.to_nat (sb_ninodes sb))).

(** The root is a directory, and the link count of a file that is not a directory is the number of its names. *)
Record links_ok (v : list block) : Prop := {
  lk_root : di_type (dinode_at v ROOTINO) = T_DIR;
  lk_count : forall n, in_use v n -> di_type (dinode_at v n) <> T_DIR -> di_nlink (dinode_at v n) = Z.of_nat (nrefs v n);
}.

Lemma sum_one (f g : nat -> nat) d l : NoDup l -> d ∈ l -> (forall j, j ∈ l -> j <> d -> g j = f j) -> (sum_list_with g l + f d = sum_list_with f l + g d)%nat.
Proof.
  intros Hn Hd Hg. induction Hn as [|x l Hx Hn IH]; [by apply not_elem_of_nil in Hd|]. cbn. destruct (decide (x = d)) as [->|Hne].
  - assert (sum_list_with g l = sum_list_with f l) as ->; [|lia]. clear IH Hd. induction l as [|y l IHl]; [done|]. cbn. rewrite not_elem_of_cons in Hx. apply NoDup_cons in Hn as [_ Hn].
    rewrite (Hg y); [|by right; left|destruct Hx; congruence]. rewrite IHl; [done|by apply Hx|done|]. intros j Hj. apply Hg. rewrite !elem_of_cons in *. tauto.
  - apply elem_of_cons in Hd as [Hd|Hd]; [congruence|]. rewrite (Hg x); [|by left|done]. rewrite <- Nat.add_assoc, IH; [lia|done|]. intros j Hj. apply Hg. by right.
Qed.

Lemma nrefs_same v v' n : (forall j, is_inum j -> listing v' j = listing v j) -> nrefs v' n = nrefs v n.
Proof.
  intros H. unfold nrefs. assert (forall j, j ∈ seq 0 (Z.to_nat (sb_ninodes sb)) -> listing v' (Z.of_nat j) = listing v (Z.of_nat j)) as H'.
  { intros j Hj%elem_of_seq. apply H. unfold Inode.is_inum. lia. }
  revert H'. generalize (seq 0 (Z.to_nat (sb_ninodes sb))). intros l H'. induction l as [|x l IH]; [done|]. cbn. rewrite H' by left. rewrite IH; [done|]. intros j Hj. apply H'. by right.
Qed.

Lemma nrefs_change v v' d n : is_inum d -> (forall j, is_inum j -> j <> d -> listing v' j = listing v j) ->
  (nrefs v' n + cnt n (listing v d) = nrefs v n + cnt n (listing v' d))%nat.
Proof.
  intros Hd H. unfold Inode.is_inum in *. unfold nrefs. pose proof (sum_one (fun j => cnt n (listing v (Z.of_nat j))) (fun j => cnt n (listing v' (Z.of_nat j))) (Z.to_nat d) (seq 0 (Z.to_nat (sb_ninodes sb)))) as E.
  cbn beta in E. rewrite Z2Nat.id in E by lia. apply E; [apply NoDup_seq|apply elem_of_seq; lia|]. intros j Hj%elem_of_seq Hne. rewrite H; [done|lia|lia].
Qed.

Lemma cnt_app n l l' : cnt n (l ++ l') = (cnt n l + cnt n l')%nat.
Proof. unfold cnt. by rewrite filter_app, length_app. Qed.

Lemma cnt_one n de : cnt n [de] = if decide (de_inum de = n) then 1%nat else 0%nat.
Proof. unfold cnt. rewrite filter_cons, filter_nil. by case_decide. Qed.

Lemma cnt_zero n l : (forall de, de ∈ l -> de_inum de <> n) -> cnt n l = 0%nat.
Proof.
  intros H. induction l as [|de l IH]; [done|]. change (de :: l) with ([de] ++ l). rewrite cnt_app, cnt_one, IH by (intros; apply H; by right).
  rewrite decide_False; [done|]. apply H. left.
Qed.

(** The entry [i] was replaced, or added at the end. *)
Lemma cnt_set n (E E' : list (list Z)) i e : (i <= length E)%nat -> (forall j, E' !! j = if decide (j = i) then Some e else E !! j) ->
  (cnt n E' + match E !! i with Some x => cnt n [x] | None => 0 end = cnt n E + cnt n [e])%nat.
Proof.
  intros Hi HE. assert (E' = take i E ++ e :: drop (S i) E) as ->.
  { apply list_eq. intros j. rewrite HE. case_decide as Hj; [subst j; rewrite lookup_app_r, length_take, Nat.min_l, Nat.sub_diag by (rewrite ?length_take; lia); done|].
    destruct (decide (j < i)%nat); [by rewrite lookup_app_l, lookup_take_lt by (rewrite ?length_take; lia)|].
    rewrite lookup_app_r by (rewrite length_take; lia). rewrite length_take, Nat.min_l by lia. destruct (j - i)%nat as [|q] eqn:Eq; [lia|]. change ((e :: drop (S i) E) !! S q) with (drop (S i) E !! q). rewrite lookup_drop. f_equal. lia. }
  rewrite cnt_app. change (e :: drop (S i) E) with ([e] ++ drop (S i) E). rewrite cnt_app. destruct (E !! i) as [x|] eqn:Ex.
  - rewrite <- (take_drop_middle E i x Ex) at 3. rewrite cnt_app. change (x :: drop (S i) E) with ([x] ++ drop (S i) E). rewrite cnt_app. lia.
  - apply lookup_ge_None_1 in Ex. rewrite drop_ge by lia. rewrite take_ge by lia. change (cnt n []) with 0%nat. lia.
Qed.

Lemma cnt_elem n l de : de ∈ l -> de_inum de = n -> (1 <= cnt n l)%nat.
Proof. intros [l1 [l2 ->]]%list_elem_of_split E. change (de :: l2) with ([de] ++ l2). rewrite !cnt_app, cnt_one, decide_True by done. lia. Qed.

Lemma sum_elem {A} (f : A -> nat) x l : x ∈ l -> (f x <= sum_list_with f l)%nat.
Proof. induction 1 as [|x y l _ IH]; cbn; lia. Qed.

Lemma nrefs_dir v j n : is_inum j -> (cnt n (listing v j) <= nrefs v n)%nat.
Proof.
  intros Hj. unfold Inode.is_inum in Hj. pose proof (sum_elem (fun j => cnt n (listing v (Z.of_nat j))) (Z.to_nat j) (seq 0 (Z.to_nat (sb_ninodes sb)))) as H.
  cbn beta in H. rewrite Z2Nat.id in H by lia. apply H, elem_of_seq. lia.
Qed.

(** A name that a directory lists is counted. *)
Lemma nrefs_listed v j de : linked v j -> di_type (dinode_at v j) = T_DIR -> de ∈ entries v (dinode_at v j) -> (1 <= nrefs v (de_inum de))%nat.
Proof.
  intros (Hj & H0 & Hl) Ht Hde. etrans; [|apply (nrefs_dir v j _ Hj)]. unfold listing. rewrite decide_True by done. by eapply cnt_elem.
Qed.

(** Just one directory. *)
Lemma nrefs_single v d n : is_inum d -> (forall j, is_inum j -> j <> d -> listing v j = []) -> nrefs v n = cnt n (listing v d).
Proof.
  intros Hd H. unfold Inode.is_inum in *. pose proof (sum_one (fun _ => 0%nat) (fun j => cnt n (listing v (Z.of_nat j))) (Z.to_nat d) (seq 0 (Z.to_nat (sb_ninodes sb)))) as E.
  cbn beta in E. rewrite Z2Nat.id in E by lia. unfold nrefs. assert (forall l, sum_list_with (fun _ : nat => 0%nat) l = 0%nat) as E0 by (induction l; done). rewrite E0 in E.
  rewrite Nat.add_0_r in E. apply E; [apply NoDup_seq|apply elem_of_seq; lia|]. intros j Hj%elem_of_seq Hne. rewrite H; [done|lia|lia].
Qed.

Lemma cnt_single n l i de : l !! i = Some de -> de_inum de = n -> (forall j de', l !! j = Some de' -> j <> i -> de_inum de' <> n) -> cnt n l = 1%nat.
Proof.
  intros Hi E Ho. rewrite <- (take_drop_middle l i de Hi). change (de :: drop (S i) l) with ([de] ++ drop (S i) l). rewrite !cnt_app, cnt_one, decide_True by done.
  rewrite !cnt_zero; [done|..]; intros de' [j Hj]%list_elem_of_lookup_1.
  - rewrite lookup_drop in Hj. eapply Ho; [exact Hj|lia].
  - apply lookup_take_Some in Hj as [Hj Hlt]. eapply Ho; [exact Hj|lia].
Qed.

Lemma unlinked_refs v m : vol_ok v -> 0 < m -> ~ linked v m -> nrefs v m = 0%nat.
Proof.
  intros V Hm Hl. assert (forall j, is_inum j -> cnt m (listing v j) = 0%nat) as H.
  { intros j Hj. unfold listing. case_decide as Hd; [|done]. apply cnt_zero. intros de Hde E. apply Hl. rewrite <- E.
    destruct Hd as [Ht Hn]. apply (dk_list _ _ _ (tr_dir _ _ (vo_tree _ _ V) j ltac:(split; [done|]; by rewrite Ht) Ht)); [done|lia]. }
  unfold nrefs. assert (forall j, j ∈ seq 0 (Z.to_nat (sb_ninodes sb)) -> cnt m (listing v (Z.of_nat j)) = 0%nat) as H'.
  { intros j Hj%elem_of_seq. apply H. unfold Inode.is_inum. lia. }
  revert H'. generalize (seq 0 (Z.to_nat (sb_ninodes sb))). intros l H'. induction l as [|x l IH]; [done|]. cbn. rewrite H' by left. rewrite IH; [done|]. intros j Hj. apply H'. by right.
Qed.

(** ** What changes no entry *)

(** An inode that is the same, or free before and after, lists the same. *)
Lemma same_listing v v' j : (in_use v j -> same_inode v v' j) -> (is_inum j -> di_type (dinode_at v j) = 0 -> dinode_at v' j = dinode_at v j) -> is_inum j -> listing v' j = listing v j.
Proof.
  intros Hs H0 Hj. unfold listing. destruct (decide (di_type (dinode_at v j) = 0)) as [E|Hne].
  - rewrite (H0 Hj E), E. by rewrite !decide_False by (intros [? _]; done).
  - destruct (Hs (conj Hj Hne)) as [Ed _ E]. rewrite Ed in E |- *. by rewrite E.
Qed.

Lemma changed_listing v v' n j : vol_ok v -> changed sb v v' n -> is_inum j -> j <> n -> listing v' j = listing v j.
Proof.
  intros V Ch Hj Hne. apply same_listing; [|intros _ _|done].
  - intros Hu. by apply (changed_same sb v v' n).
  - by apply (ch_other _ _ _ _ Ch).
Qed.

Lemma removed_listing v v' n j : vol_ok v -> removed sb v v' n -> di_nlink (dinode_at v n) = 0 -> is_inum j -> listing v' j = listing v j.
Proof.
  intros V R H0 Hj. destruct (decide (j = n)) as [->|Hne].
  - unfold listing. rewrite (rm_type _ _ _ _ R), H0. by rewrite !decide_False by (intros [? ?]; done).
  - apply same_listing; [|intros _ _|done]; [|by apply (rm_other _ _ _ _ R)]. intros Hu. by apply (rm_same sb v v' n).
Qed.

(** ** A different number of links *)

Section nlink.
Context (v : list block) (m l : Z) (V : vol_ok v) (G : geometry sb (length v)) (Hok : Forall block_ok v).
Context (Hu : in_use v m) (Hl : short l) (Ht : di_type (dinode_at v m) <> T_DIR) (Hr : di_type (dinode_at v ROOTINO) = T_DIR).
#[local] Abbreviation d := (set_nlink l (dinode_at v m)).
#[local] Abbreviation v' := (put_inode sb m d v).

Lemma nlink_ok : dinode_ok d.
Proof using V G Hok Hu Hl. clear Ht Hr. destruct (dinode_at_ok sb v (vo_layout _ _ V) G Hok m (proj1 Hu)). by split. Qed.

Lemma nlink_eq : dinode_at v' m = d.
Proof using V G Hok Hu Hl. apply put_inode_eq; [apply V|done|done|apply Hu|apply nlink_ok]. Qed.

Lemma nlink_other j : is_inum j -> j <> m -> dinode_at v' j = dinode_at v j.
Proof using V G Hok Hu Hl. intros Hj Hne. apply put_inode_ne; [apply V|done|done|apply Hu|done|congruence|]. exact (dk_len _ nlink_ok). Qed.

Lemma nlink_addrs j : is_inum j -> addrs v' j = addrs v j /\ di_size (dinode_at v' j) = di_size (dinode_at v j) /\ di_type (dinode_at v' j) = di_type (dinode_at v j).
Proof using V G Hok Hu Hl.
  intros Hj. unfold Volume.addrs. destruct (decide (j = m)) as [->|Hne]; [by rewrite nlink_eq|by rewrite nlink_other].
Qed.

Lemma nlink_keep j a : in_use v j -> has_block v (addrs v j) a -> v' !! Z.to_nat a = v !! Z.to_nat a /\ live sb v' a.
Proof using V G Hok Hu. exact (put_kept sb v m d V G Hok (proj1 Hu) j a). Qed.

Lemma nlink_use j : in_use v' j <-> in_use v j.
Proof using V G Hok Hu Hl. clear Ht Hr. split; intros [Hj H0]; (split; [done|]); destruct (nlink_addrs j Hj) as (_ & _ & E); congruence. Qed.

Lemma nlink_same j : in_use v j -> j <> m -> same_inode v v' j.
Proof using V G Hok Hu Hl.
  intros Hj Hne. pose proof (vo_good _ _ V j Hj) as Hg. pose proof (nlink_other j (proj1 Hj) Hne) as Ed. pose proof (fun a => nlink_keep j a Hj) as Hk.
  split; [done|by apply same_content|by apply same_entries].
Qed.

Lemma nlink_content : content sb v' m = content sb v m.
Proof using V G Hok Hu Hl.
  destruct (nlink_addrs m (proj1 Hu)) as (Ea & Es & _). unfold content. rewrite Es, Ea. pose proof (vo_good _ _ V m Hu) as [G1 G2 G3].
  apply fbytes_ext. intros j Hj. apply (kept_fbyte sb v v'); [intros a; by apply nlink_keep|lia|]. eapply hole_byte; [exact G3|lia].
Qed.

Lemma nlink_listing j : is_inum j -> listing v' j = listing v j.
Proof using V G Hok Hu Hl Ht.
  intros Hj. destruct (decide (j = m)) as [->|Hne].
  - unfold listing. rewrite nlink_eq. cbn [set_nlink di_type]. by rewrite !decide_False by (intros [? _]; done).
  - apply same_listing; [|intros _ _|done]; [|by apply nlink_other]. intros Hj'. by apply nlink_same.
Qed.

Lemma nlink_linked j : (j = m -> l <> 0) -> linked v j -> linked v' j.
Proof using V G Hok Hu Hl.
  clear Ht Hr. intros Hlm (Hj & H0 & Hlj). split; [done|]. destruct (nlink_addrs j Hj) as (_ & _ & ->). split; [done|].
  destruct (decide (j = m)) as [->|Hne]; [by rewrite nlink_eq; apply Hlm|by rewrite nlink_other].
Qed.

Lemma nlink_vol : (l = 0 -> nrefs v m = 0%nat) -> vol_ok v'.
Proof using V G Hok Hu Hl Ht Hr.
  intros Hz. pose proof (vo_layout _ _ V) as Ly. pose proof (iblock_meta sb v m V G (proj1 Hu)) as Hb.
  assert (forall c, 0 <= c < sb_size sb -> used sb v' c = used sb v c) as Hus by (intros c Hc; unfold put_inode; by apply (meta_used sb)).
  assert (forall j a, in_use v j -> has_block v' (addrs v' j) a <-> has_block v (addrs v j) a) as Hhas.
  { intros j a Hj. destruct (nlink_addrs j (proj1 Hj)) as (-> & _). apply (kept_has sb v v'). intros b. by apply nlink_keep. }
  assert (forall j, in_use v j -> inode_good sb v' j) as Hgood.
  { intros j Hj. destruct (vo_good _ _ V j Hj) as [G1 G2 G3]. destruct (nlink_addrs j (proj1 Hj)) as (Ea & Es & _). pose proof (fun a => nlink_keep j a Hj) as Hk.
    split; rewrite ?Ea, ?Es; [by apply (kept_file sb v v')|done|by apply (kept_hole sb v v')]. }
  pose proof (ly_data _ _ Ly). pose proof (meta_pos _ _ Ly G). split.
  - unfold put_inode. by rewrite length_insert.
  - split; [apply nlink_linked; [intros E; by rewrite <- E in Ht|apply V]|]. intros j Hj Htj. destruct (nlink_addrs j (proj1 Hj)) as (_ & _ & Et). rewrite Et in Htj. assert (j <> m) as Hne by (intros ->; done).
    assert (linked v j) as Hj0 by (destruct Hj as (J1 & J2 & J3); rewrite nlink_other in J2, J3 by done; done). pose proof (nlink_same j (linked_use _ _ _ Hj0) Hne) as [Ed _ Ee].
    destruct (tr_dir _ _ (vo_tree _ _ V) j Hj0 Htj) as [D1 D2 D3 D4 D5]. destruct (Hgood j (linked_use _ _ _ Hj0)) as [K1 K2 K3].
    split; [done|done|by rewrite Ed|done|]. rewrite Ee. intros de Hde Hd0. apply nlink_linked; [|by apply D5]. intros E E0.
    pose proof (nrefs_listed v j de Hj0 Htj Hde) as Hn. rewrite E, Hz in Hn by done. lia.
  - destruct (nlink_addrs 0) as (_ & _ & ->); [|apply V]. destruct (ly_ninodes _ _ Ly). unfold Inode.is_inum. lia.
  - intros j Hj. by apply Hgood, nlink_use.
  - intros j q Hj%nlink_use Hq%nlink_use Hne a Ha Hb'. rewrite Hhas in Ha, Hb' by done. exact (vo_apart _ _ V j q Hj Hq Hne a Ha Hb').
  - intros c Hc. rewrite Hus by lia. by apply (vo_meta _ _ V).
  - intros c [Hc1 Hc2] Huc. rewrite Hus in Huc by lia. destruct (vo_exact _ _ V c (conj Hc1 Hc2) Huc) as (j & Hj & Ha). exists j. split; [by apply nlink_use|by apply Hhas].
Qed.
End nlink.

(** ** Removing a name *)

Definition no_entry : list Z := replicate 16 0.

(** The entry [i] of directory [n], that lists [m], is cleared; [m] has one link less, or is [gone] with the
    blocks of its file; everything else is the same. *)
Record unlinked (v v' : list block) (n : Z) (i : nat) (m : Z) (gone : Prop) : Prop := {
  ul_entries : entries v' (dinode_at v' n) = <[i := no_entry]> (entries v (dinode_at v n));
  ul_attrs : same_attrs (dinode_at v n) (dinode_at v' n);
  ul_same : forall j, in_use v j -> j <> n -> j <> m -> same_inode v v' j;
  ul_gone : gone -> di_type (dinode_at v' m) = 0 /\ forall a, has_block v (addrs v m) a -> used sb v' a = false;
  ul_kept : ~ gone -> dinode_at v' m = set_nlink (di_nlink (dinode_at v m) - 1) (dinode_at v m) /\ content sb v' m = content sb v m;
}.

Lemma unlinked_iff v v' n i m P P' : (P <-> P') -> unlinked v v' n i m P -> unlinked v v' n i m P'.
Proof. intros H [A1 A2 A3 A4 A5]. split; [done|done|done|by rewrite <- H|by rewrite <- H]. Qed.

Section name.
Context (v v1 : list block) (n m : Z) (i : nat) (de : list Z).
Context (V : vol_ok v) (K : links_ok v) (Ch : changed sb v v1 n) (Hat : same_attrs (dinode_at v n) (dinode_at v1 n)).
Context (HE : forall j, entries v1 (dinode_at v1 n) !! j = if decide (j = i) then Some no_entry else entries v (dinode_at v n) !! j).
Context (Hi : entries v (dinode_at v n) !! i = Some de) (Hde : de_inum de = m) (Hm0 : m <> 0).
Context (Hl : linked v n) (Ht : di_type (dinode_at v n) = T_DIR) (Hmt : di_type (dinode_at v m) <> T_DIR).

Lemma name_target : linked v m /\ m <> n.
Proof using V Hi Hde Hm0 Hl Ht Hmt.
  split; [|congruence]. rewrite <- Hde. apply (dk_list _ _ _ (tr_dir _ _ (vo_tree _ _ V) n Hl Ht)); [by eapply list_elem_of_lookup_2|congruence].
Qed.

Lemma name_same : same_inode v v1 m.
Proof using V Ch Hi Hde Hm0 Hl Ht Hmt. destruct name_target as [Hlm Hne]. apply (changed_same sb v v1 n); [done|done|by apply linked_use|done]. Qed.

Lemma name_refs q : q <> 0 -> (nrefs v1 q + (if decide (q = m) then 1 else 0) = nrefs v q)%nat.
Proof using V Ch Hat HE Hi Hde Hm0 Hl Ht Hmt.
  intros Hq. assert (listing v n = entries v (dinode_at v n)) as E0 by (unfold listing; rewrite decide_True; [done|]; split; [done|apply Hl]).
  assert (listing v1 n = entries v1 (dinode_at v1 n)) as E1 by (unfold listing; destruct Hat as (-> & _ & _ & ->); rewrite decide_True; [done|]; split; [done|apply Hl]).
  pose proof (nrefs_change v v1 n q (proj1 Hl) (fun j Hj Hne => changed_listing v v1 n j V Ch Hj Hne)) as Hc. rewrite E0, E1 in Hc.
  pose proof (cnt_set q (entries v (dinode_at v n)) (entries v1 (dinode_at v1 n)) i no_entry) as Hs. rewrite Hi, !cnt_one, Hde in Hs.
  rewrite (decide_False (P := de_inum no_entry = q)) in Hs by (intros E; apply Hq; by rewrite <- E).
  specialize (Hs (Nat.lt_le_incl _ _ (lookup_lt_Some _ _ _ Hi)) HE). repeat case_decide; subst; try congruence; lia.
Qed.

Lemma name_count : di_nlink (dinode_at v m) = Z.of_nat (nrefs v m) /\ 1 <= di_nlink (dinode_at v m).
Proof using V K Hi Hde Hm0 Hl Ht Hmt.
  destruct name_target as [Hlm _]. pose proof (lk_count _ K m (linked_use _ _ _ Hlm) Hmt) as E. split; [done|]. rewrite E.
  pose proof (nrefs_listed v n de Hl Ht ltac:(by eapply list_elem_of_lookup_2)) as H. rewrite Hde in H. lia.
Qed.

Context (G : geometry sb (length v1)) (Hok : Forall block_ok v1).
#[local] Abbreviation l := (di_nlink (dinode_at v m) - 1).
#[local] Abbreviation v2 := (put_inode sb m (set_nlink l (dinode_at v1 m)) v1).

Lemma name_vol : vol_ok v1 /\ in_use v1 m /\ short l /\ di_type (dinode_at v1 m) <> T_DIR /\ di_type (dinode_at v1 ROOTINO) = T_DIR.
Proof using V K Ch Hat Hi Hde Hm0 Hl Ht Hmt G Hok.
  pose proof (vol_changed sb v v1 n V Ch) as V1. pose proof name_same as S. destruct name_target as [Hlm Hne]. pose proof (same_inode_use sb v v1 m S (linked_use _ _ _ Hlm)) as Hu1.
  destruct name_count as [_ Hc]. split_and!; [done|done| |by rewrite (sm_din _ _ _ _ S)|].
  - pose proof (dk_nlink _ (dinode_at_ok sb v1 (vo_layout _ _ V1) G Hok m (proj1 Hu1))) as Hs. rewrite (sm_din _ _ _ _ S) in Hs. unfold short in *. lia.
  - destruct (decide (ROOTINO = n)) as [E|Hn]; [destruct Hat as (E' & _); by rewrite E, E'|].
    rewrite (ch_other _ _ _ _ Ch); [apply K|apply (tr_root _ _ (vo_tree _ _ V))|done].
Qed.

Lemma name_vol2 : vol_ok v2.
Proof using V K Ch Hat HE Hi Hde Hm0 Hl Ht Hmt G Hok.
  destruct name_vol as (V1 & Hu & Hs & Ht1 & Hr1). apply nlink_vol; [done..|]. intros E. destruct name_count as [En _].
  pose proof (name_refs m Hm0) as Hn. rewrite decide_True in Hn by done. lia.
Qed.

Lemma name_links2 : links_ok v2.
Proof using V K Ch Hat HE Hi Hde Hm0 Hl Ht Hmt G Hok.
  destruct name_vol as (V1 & Hu & Hs & Ht1 & Hr1). destruct (tr_root _ _ (vo_tree _ _ V)) as [Hroot _]. destruct name_target as [_ Hnm]. split.
  - by destruct (nlink_addrs v1 m l V1 G Hok Hu Hs ROOTINO Hroot) as (_ & _ & ->).
  - intros q Hq Hqt. apply (nlink_use v1 m l V1 G Hok Hu Hs) in Hq. destruct (nlink_addrs v1 m l V1 G Hok Hu Hs q (proj1 Hq)) as (_ & _ & Et). rewrite Et in Hqt.
    pose proof (use_pos sb v1 q V1 Hq) as Hpos. rewrite (nrefs_same v1 v2 q) by (intros j Hj; by apply nlink_listing). pose proof (name_refs q ltac:(lia)) as Hn.
    destruct (decide (q = m)) as [->|Hne].
    + rewrite nlink_eq by done. cbn [set_nlink di_nlink]. destruct name_count. lia.
    + rewrite (nlink_other v1 m l V1 G Hok Hu Hs q (proj1 Hq) Hne). assert (q <> n) as Hqn by (intros ->; destruct Hat as (E & _); congruence).
      pose proof (ch_other _ _ _ _ Ch q (proj1 Hq) Hqn) as Ed. rewrite Ed in Hqt |- *. rewrite (lk_count _ K q (proj1 (ch_in_use sb v v1 n Ch q Hqn) Hq) Hqt). lia.
Qed.

(** The file is still there. *)
Lemma name_kept : unlinked v v2 n i m False.
Proof using V K Ch Hat HE Hi Hde Hm0 Hl Ht Hmt G Hok.
  destruct name_vol as (V1 & Hu & Hs & Ht1 & Hr1). destruct name_target as [Hlm Hnm]. pose proof name_same as [Sd Sc _].
  assert (in_use v1 n) as Hun by (apply (ch_use _ _ _ _ Ch)). assert (n <> m) as Hnm' by congruence. pose proof (nlink_same v1 m l V1 G Hok Hu Hs n Hun Hnm') as [Nd _ Ne]. split.
  - rewrite Ne. apply list_eq. intros j. rewrite HE. case_decide as E; [subst j; symmetry; apply list_lookup_insert_eq; by eapply lookup_lt_Some|by rewrite list_lookup_insert_ne].
  - by rewrite Nd.
  - intros j Hj Hjn Hjm. pose proof (changed_same sb v v1 n V Ch j Hj Hjn) as S. eapply same_inode_trans; [exact S|]. apply nlink_same; [done..| |done]. by eapply same_inode_use.
  - done.
  - intros _. rewrite nlink_eq by done. split; [by rewrite Sd|]. by rewrite nlink_content.
Qed.

(** It is gone. *)
Lemma name_gone v3 : l = 0 -> removed sb v2 v3 m -> vol_ok v3 /\ links_ok v3 /\ unlinked v v3 n i m True.
Proof using V K Ch Hat HE Hi Hde Hm0 Hl Ht Hmt G Hok.
  intros E0 R. pose proof name_vol2 as V2. pose proof name_links2 as K2. destruct name_vol as (V1 & Hu & Hs & Ht1 & Hr1). destruct name_target as [Hlm Hnm].
  pose proof (nlink_eq v1 m l V1 G Hok Hu Hs) as Ed2. assert (di_nlink (dinode_at v2 m) = 0) as Hn2 by (by rewrite Ed2).
  assert (in_use v2 m) as Hu2 by (by apply nlink_use). assert (~ linked v2 m) as Hnl by (intros (_ & _ & H); exact (H Hn2)). pose proof name_kept as [N1 N2 N3 _ N5]. assert (n <> m) as Hnm' by congruence.
  assert (in_use v2 n) as Hun by (apply nlink_use; [done..|apply (ch_use _ _ _ _ Ch)]). destruct (rm_same sb v2 v3 m V2 R n Hun Hnm') as [_ [Rd _ Re]].
  split_and!; [exact (rm_vol sb v2 v3 m V2 R Hnl Hu2)|split|split].
  - destruct (decide (ROOTINO = m)) as [E|Hne]; [rewrite <- E in Ht1; by destruct Ht1|]. rewrite (rm_other _ _ _ _ R ROOTINO (proj1 (tr_root _ _ (vo_tree _ _ V))) Hne). apply K2.
  - intros q [Hq Hqm]%(rm_use sb v2 v3 m R) Hqt. rewrite (nrefs_same v2 v3 q) by (intros j Hj; by apply (removed_listing v2 v3 m)).
    rewrite (rm_other _ _ _ _ R q (proj1 Hq) Hqm) in Hqt |- *. exact (lk_count _ K2 q Hq Hqt).
  - by rewrite Re.
  - by rewrite Rd.
  - intros j Hj Hjn Hjm. pose proof (N3 j Hj Hjn Hjm) as S. eapply same_inode_trans; [exact S|]. apply (rm_same sb v2 v3 m); [done|done| |done]. by eapply same_inode_use.
  - intros _. split; [apply R|]. intros a Ha. destruct (has_live sb v _ a (ig_file _ _ _ (vo_good _ _ V m (linked_use _ _ _ Hlm))) Ha) as [Hda _].
    destruct (used sb v3 a) eqn:Eu; [|done]. destruct (rm_used _ _ _ _ R a Hda Eu) as [_ []]. destruct (nlink_addrs v1 m l V1 G Hok Hu Hs m (proj1 Hu)) as (-> & _).
    apply (kept_has sb v1 v2); [intros b; by apply (nlink_keep v1 m l V1 G Hok Hu)|]. exact (proj2 (ch_has sb v v1 n Ch m a (linked_use _ _ _ Hlm) Hnm) Ha).
  - done.
Qed.
End name.
End links.
