(* ===== verification/Rest.v ===== *)
(** * The file system between system calls.

    At rest nothing is logged or locked and the volume is consistent. [begin_op] starts
    a transaction there, and [end_op] leads back to rest, in such a way that a crash at any of its
    disk writes leaves the volume of before or the one of after. *)

From Stdlib Require Import String.
From stdpp Require Import gmap.
From S2P Require Import Prelude Params Bio Log Trans Fs Balloc Inode Content Blockmap Dir Volume.
Local Open Scope Z_scope.

Section rest.
Context `{BD : !BlockDevice}.
Context (sb : superblock) (pid : Z).
#[local] Abbreviation vol_ok := (vol_ok sb).
#[local] Abbreviation home_eq := (home_eq sb).
#[local] Abbreviation disk_of s := (bdisk (l_bio (f_l s))).

(** Between system calls: nothing is logged, nothing is locked, and the volume [v] is consistent. *)
Record at_rest (s : fs) (v : list block) : Prop := {
  ar_log : log_rep sb (f_l s) v [] ∅;
  ar_out : lg_outstanding (l_log (f_l s)) = 0;
  ar_idle : lg_committing (l_log (f_l s)) = false;
  ar_pid : bpid (l_bio (f_l s)) = pid;
  ar_sb : f_sb s = sb;
  ar_inodes : length (f_inodes s) = NINODE;
  ar_vol : vol_ok v;
  ar_cached : icached sb v [] (f_inodes s);
  ar_used : refs_used sb v (f_inodes s);
}.

(** Whatever writes of [ws] have reached the disk [k], and whatever crashes
    happen while recovering, a boot finds a consistent volume with [P]. *)
Definition crash_safe (k : list block) (ws : list (Z * block)) (P : list block -> Prop) : Prop :=
  forall n k' p, rtc recovery_crash (replay k (take n ws)) k' ->
    wp boot_recover (fun _ l => exists u, blocks (bdisk (l_bio l)) = u /\ vol_ok u /\ P u) (boot k' p).

Lemma crash_safe_mono k ws (P P' : list block -> Prop) : (forall u, vol_ok u -> P u -> P' u) -> crash_safe k ws P -> crash_safe k ws P'.
Proof. intros H C n k' p Hr. eapply wp_mono; [by apply (C n k' p)|]. intros [] l (u & Hu & Vu & Pu). exists u. split_and!; [done..|by apply H]. Qed.

Lemma crash_safe_app k ws1 ws2 P : crash_safe k ws1 P -> crash_safe (replay k ws1) ws2 P -> crash_safe k (ws1 ++ ws2) P.
Proof.
  intros H1 H2 n k' p. rewrite take_app, replay_app. destruct (decide (n <= length ws1)%nat) as [Hn|Hn].
  - replace (n - length ws1)%nat with 0%nat by lia. rewrite take_0. apply H1.
  - rewrite (take_ge ws1) by lia. apply H2.
Qed.

Lemma recovery_crash_len k k' : rtc recovery_crash k k' -> length k' = length k.
Proof. induction 1 as [|k1 k2 k3 (p & s & ws & n & _ & _ & ->) _ IH]; [done|]. by rewrite IH, length_replay. Qed.

Lemma begin_ok s v (Q : unit -> fs -> Prop) : at_rest s v ->
  (forall s1, fs_ok sb (disk_of s) pid 1 s1 v [] ∅ -> f_inodes s1 = f_inodes s -> Q tt s1) -> wp (lop begin_op) Q s.
Proof.
  intros [R Ho Hc Hp Hsb Hi V C U] HQ. apply wp_zoom. eapply wp_mono; [apply (begin_op_spec sb (f_l s) v [] ∅ R Hc); rewrite Ho; [done|]|].
  - unfold_params. cbn. lia.
  - intros [] l [T Hl]. apply HQ; [|done]. split; cbn [set_fl f_l f_sb f_inodes]; [by rewrite <- Hp|done|lia|done].
Qed.

Lemma home_cached v u lk l : vol_ok v -> geometry sb (length v) -> home_eq u v -> icached sb v lk l -> icached sb u lk l.
Proof.
  intros V G Heq [U E K]. split; [done| |done]. intros j x Hx. destruct (E j x Hx) as [E1 E2 E3 E4]. split; [done..|].
  intros Hr Hv. rewrite (home_dinode sb v u V G Heq) by (by apply E3). by apply E4.
Qed.

Lemma home_refs v u l : vol_ok v -> geometry sb (length v) -> home_eq u v -> icached sb v [] l -> refs_used sb v l -> refs_used sb u l.
Proof.
  intros V G Heq C U n r Hn. pose proof (U n r Hn) as Ht. apply irefs_in in Hn as (j & x & Hx & Hr & <- & _).
  rewrite (home_dinode sb v u V G Heq); [done|]. by apply (en_inum _ _ _ (id_entry _ _ _ _ C _ _ Hx)).
Qed.

Lemma end_ok s v v0 L k : fs_ok sb k pid 1 s v L ∅ -> vol_ok v -> icached sb v [] (f_inodes s) -> refs_used sb v (f_inodes s) ->
  vol_ok v0 -> home_eq (blocks k) v0 -> length (blocks k) = length v0 ->
  wp (lop end_op) (fun _ s' => exists v' ws, at_rest s' v' /\ home_eq v' v /\ f_inodes s' = f_inodes s /\
    disk_of s' = disk_replay k ws /\ crash_safe (blocks k) ws (fun u => home_eq u v0 \/ home_eq u v)) s.
Proof.
  intros F V C U V0 H0 Hl0. pose proof F as [[R _ Hc Hk Hp] Hsb Ho Hi]. pose proof (lr_geom _ _ _ _ _ R) as G. pose proof (rep_len _ _ _ _ (lr_bio _ _ _ _ _ R)) as Hvl. rewrite Hk in Hvl.
  assert (geometry sb (length v0)) as G0 by (by rewrite <- Hl0, <- Hvl).
  apply wp_zoom. eapply wp_mono; [by eapply end_op_last|]. rewrite Hk. intros [] l (v' & ws & R' & Heq & Ho' & Hc' & Hp' & Hd & Hcr). cbn [f_inodes set_fl f_l].
  pose proof (rep_len _ _ _ _ (lr_bio _ _ _ _ _ R')) as Hvl'. rewrite Hd in Hvl'. cbn [disk_replay blocks] in Hvl'. rewrite length_replay in Hvl'.
  exists v', ws. split; [|split; [done|split; [done|split; [done|]]]].
  - split; cbn [f_inodes set_fl f_l f_sb]; [done|done|done|congruence|done|done|..].
    + apply (home_vol sb v v' V G Heq). congruence.
    + exact (home_cached v v' [] _ V G Heq C).
    + exact (home_refs v v' _ V G Heq C U).
  - intros n k' p Hrc. eapply wp_mono; [apply recovery_spec; eapply recovery_crashes_recover; [exact Hrc|apply Hcr]|].
    intros [] r (u & ws' & Hr & Hu & Hdu & Hur & _). exists u. rewrite Hdu. split; [done|].
    assert (length u = length (blocks k)) as Hlu by (rewrite Hur, length_replay, (recovery_crash_len _ _ Hrc), length_replay; done).
    case_decide.
    + assert (home_eq u v0) as Hu0 by (etrans; [exact Hu|done]). split; [|by left]. apply (home_vol sb v0 u V0 G0 Hu0). congruence.
    + split; [|by right]. apply (home_vol sb v u V G Hu). congruence.
Qed.

Lemma rest_disk s v : at_rest s v -> home_eq (blocks (disk_of s)) v /\ length (blocks (disk_of s)) = length v.
Proof.
  intros R. pose proof (lr_bio _ _ _ _ _ (ar_log _ _ R)) as B. split; [|by rewrite (rep_len _ _ _ _ B)].
  intros b Hb _. symmetry. apply (rep_clean _ _ _ _ B); [done|apply not_elem_of_empty|done].
Qed.

(** A system call that started from [v] has ended: the file system is at rest again, with a volume of which [P] holds
    and no reference leaked, and a crash at any of the writes of the call leaves the one volume or the other. *)
Definition settled (x0 : fs) (v : list block) (P : list block -> Prop) (x : fs) : Prop := exists v' ws,
  at_rest x v' /\ irefs (f_inodes x) = irefs (f_inodes x0) /\ disk_of x = disk_replay (disk_of x0) ws /\
  crash_safe (blocks (disk_of x0)) ws (fun u => home_eq u v \/ home_eq u v') /\ P v'.

Lemma settle x0 v x v1 L1 (P : list block -> Prop) : at_rest x0 v -> fs_ok sb (disk_of x0) pid 1 x v1 L1 ∅ -> vol_ok v1 -> icached sb v1 [] (f_inodes x) -> refs_used sb v1 (f_inodes x) ->
  irefs (f_inodes x) = irefs (f_inodes x0) -> (forall v', home_eq v' v1 -> P v') -> wp (lop end_op) (fun _ => settled x0 v P) x.
Proof.
  intros R F1 V1 C1 U1 Er HP. destruct (rest_disk x0 v R) as [H1 H2]. eapply wp_mono; [eapply (end_ok x v1 v L1 (disk_of x0) F1 V1 C1 U1 (ar_vol _ _ R) H1 H2)|].
  intros [] x' (v' & ws & R' & Heq & Ei & Hd & Hc). exists v', ws. rewrite Ei. split; [done|]. split; [done|]. split; [done|]. split; [|by apply HP].
  eapply crash_safe_mono; [|exact Hc]. intros u _ [?|?]; [by left|right]. by rewrite Heq.
Qed.

(** Nothing was changed. *)
Lemma settle_same x0 v x (P : list block -> Prop) : at_rest x0 v -> fs_ok sb (disk_of x0) pid 1 x v [] ∅ -> icached sb v [] (f_inodes x) ->
  irefs (f_inodes x) = irefs (f_inodes x0) -> (forall v', home_eq v' v -> P v') -> wp (lop end_op) (fun _ => settled x0 v P) x.
Proof.
  intros R F C Er. apply (settle x0 v x v []); [exact R|exact F|apply R|exact C| |exact Er]. pose proof (ar_used _ _ R) as U. unfold refs_used in *. by rewrite Er.
Qed.
End rest.

#[global] Opaque crash_safe.
