(* ===== verification/Mkfs.v ===== *)
(** * [mkfs.c]: building the file system image.

    The host program writes sectors of the image file. Its structures are kept
    in the byte order of the disk ([xshort], [xint]), so that the encoders of [fs.c] apply.
    [exit(1)] after a failed read and a failed [assert] are panics. *)

From Stdlib Require Import String.
From stdpp Require Import gmap.
From S2P Require Import Prelude CString Params Bio Log Trans Fs Balloc Inode Content Blockmap Dir.
Local Open Scope Z_scope.

Definition NINODES : Z := 200.
Definition nbitmap : Z := FSSIZE / (Z.of_nat BSIZE * 8) + 1.
Definition ninodeblocks : Z := NINODES / IPB + 1.
Definition nlog : Z := LOGSIZE.
Definition nmeta : Z := 2 + nlog + ninodeblocks + nbitmap.
Definition nblocks : Z := FSSIZE - nmeta.

(** The image file and the next free inode and block. *)
Record img := mkImg { im_disk : list block; freeinode : Z; freeblock : Z }.

(** [sb], set at the start of [main]. *)
Definition mksb : superblock :=
  mkSuperblock FSSIZE nblocks NINODES nlog 2 (2 + nlog) (2 + nlog + ninodeblocks).
Definition sb_block : block :=
  splice 0 (concat (map (le_bytes 4) [sb_size mksb; sb_nblocks mksb; sb_ninodes mksb; sb_nlog mksb; sb_logstart mksb; sb_inodestart mksb; sb_bmapstart mksb]))
    zero_block.

(** A write past the end makes the file longer. *)
Definition wsect (sec : Z) (buf : block) : M img unit :=
  modify (fun s =>
    let d := im_disk s ++ replicate (Z.to_nat sec + 1 - length (im_disk s)) zero_block in
    mkImg (<[Z.to_nat sec := buf]> d) (freeinode s) (freeblock s)).
Definition rsect (sec : Z) : M img block :=
  s ← get;
  match im_disk s !! Z.to_nat sec with Some b => mret b | None => panic "read" end.

Definition winode (inum : Z) (ip : dinode) : M img unit :=
  let bn := IBLOCK inum mksb in
  buf ← rsect bn;
  wsect bn (put_dinode (dip_off inum) ip buf).
Definition rinode (inum : Z) : M img dinode :=
  buf ← rsect (IBLOCK inum mksb);
  mret (get_dinode (dip_off inum) buf).

Definition ialloc (type : Z) : M img Z :=
  s ← get;
  let inum := freeinode s in
  modify (fun s => mkImg (im_disk s) (freeinode s + 1) (freeblock s)) ;;
  winode inum (mkDinode type 0 0 1 0 (replicate 13 0)) ;;
  mret inum.

(** [freeblock++]. *)
Definition next_block : M img Z :=
  s ← get;
  modify (fun s => mkImg (im_disk s) (freeinode s) (freeblock s + 1)) ;;
  mret (freeblock s).

(** [iappend]: the block [x] that the indirect block holds for [fbn]. *)
Definition iappend_entry (din : dinode) (fbn : Z) : M img (dinode * Z) :=
  let ind := di_addrs din !!! Z.to_nat NDIRECT in
  indirect ← rsect ind;
  let o := (4 * Z.to_nat (fbn - NDIRECT))%nat in
  indirect ← (if get_u32 o indirect =? 0 then
                b ← next_block;
                let indirect := put_u32 o b indirect in
                wsect ind indirect ;; mret indirect
              else mret indirect);
  mret (din, get_u32 o indirect).

(** [iappend]: the block [x] of file block [fbn]. *)
Definition iappend_block (din : dinode) (fbn : Z) : M img (dinode * Z) :=
  if fbn <? NDIRECT then
    din ← (if di_addrs din !!! Z.to_nat fbn =? 0 then
             b ← next_block; mret (set_addrs (<[Z.to_nat fbn := b]> (di_addrs din)) din)
           else mret din);
    mret (din, di_addrs din !!! Z.to_nat fbn)
  else
    din ← (if di_addrs din !!! Z.to_nat NDIRECT =? 0 then
             b ← next_block; mret (set_addrs (<[Z.to_nat NDIRECT := b]> (di_addrs din)) din)
           else mret din);
    iappend_entry din fbn.

Fixpoint iappend_loop (fuel : nat) (din : dinode) (off : Z) (p : list Z) : M img (dinode * Z) :=
  if negb (0 <? Z.of_nat (length p)) then mret (din, off) else
  match fuel with
  | O => outOfFuel
  | S fuel' =>
      let fbn := off / Z.of_nat BSIZE in
      if negb (fbn <? MAXFILE) then panic "assert" else
      r ← iappend_block din fbn;
      let n1 := Z.min (Z.of_nat (length p)) ((fbn + 1) * Z.of_nat BSIZE - off) in
      buf ← rsect r.2;
      wsect r.2 (splice (Z.to_nat (off - fbn * Z.of_nat BSIZE)) (take (Z.to_nat n1) p) buf) ;;
      iappend_loop fuel' r.1 (off + n1) (drop (Z.to_nat n1) p)
  end.

Definition iappend (inum : Z) (p : list Z) : M img unit :=
  din ← rinode inum;
  r ← iappend_loop (io_fuel (Z.of_nat (length p))) din (di_size din) p;
  winode inum (set_size r.2 r.1).

(** [read(fd, buf, sizeof(buf))] until the end of the file. *)
Fixpoint append_file (fuel : nat) (inum : Z) (content : list Z) : M img unit :=
  match content with
  | [] => mret tt
  | _ =>
      match fuel with
      | O => outOfFuel
      | S fuel' => iappend inum (take BSIZE content) ;; append_file fuel' inum (drop BSIZE content)
      end
  end.

(** The body of the loop over the files named on the command line. *)
Definition add_file (rootino : Z) (file : list Z * list Z) : M img unit :=
  let '(name, content) := file in
  if bool_decide (47 ∈ name) then panic "assert" else
  let name := match name with 95 :: name' => name' | _ => name end in
  inum ← ialloc T_FILE;
  iappend rootino (dirent inum name) ;;
  append_file (length content) inum content.
Fixpoint add_files (rootino : Z) (files : list (list Z * list Z)) : M img unit :=
  match files with [] => mret tt | f :: files' => add_file rootino f ;; add_files rootino files' end.

(** [balloc]: the bitmap of the first [used] blocks. *)
Fixpoint bits (used : nat) : block :=
  match used with O => zero_block | S n => set_bit (bits n) (Z.of_nat n) end.
Definition balloc (used : Z) : M img unit :=
  if negb (used <? Z.of_nat BSIZE * 8) then panic "assert" else
  wsect (sb_bmapstart mksb) (bits (Z.to_nat used)).

Definition mkfs (files : list (list Z * list Z)) : M img unit :=
  modify (fun s => mkImg (im_disk s) (freeinode s) nmeta) ;;
  for_loop (Z.to_nat FSSIZE) 0 (fun i => wsect i zero_block) ;;
  wsect 1 sb_block ;;
  rootino ← ialloc T_DIR;
  assert_or (rootino =? ROOTINO) (panic "assert") ;;
  iappend rootino (dirent rootino (str ".")) ;;
  iappend rootino (dirent rootino (str "..")) ;;
  add_files rootino files ;;
  din ← rinode rootino;
  winode rootino (set_size ((di_size din / Z.of_nat BSIZE + 1) * Z.of_nat BSIZE) din) ;;
  s ← get;
  balloc (freeblock s).

(** Before [main]: the image is truncated. *)
Definition img0 : img := mkImg [] 1 0.

(** ** The bitmap *)

Lemma bits_ok n : block_ok (bits n).
Proof. induction n as [|n IH]; [apply zero_block_ok|]. by apply block_ok_set_bit. Qed.

Lemma bit_zero c : in_bits c -> bit zero_block c = false.
Proof. intros Hc. unfold bit, zero_block. rewrite lookup_total_replicate_2 by (by apply in_bits_byte). apply Z.bits_0. Qed.

Lemma bit_bits n c : (n <= 4096)%nat -> in_bits c -> bit (bits n) c = (c <? Z.of_nat n).
Proof.
  intros Hn Hc. pose proof Hc as Hc'. unfold in_bits, BPB in Hc'. induction n as [|n IH]; cbn [bits].
  - rewrite bit_zero by done. symmetry. apply Z.ltb_ge. lia.
  - rewrite bit_set_bit by (first [apply bits_ok|done|unfold in_bits, BPB; lia]). rewrite IH by lia.
    case_bool_decide as E; [subst; symmetry; apply Z.ltb_lt; lia|]. cbn [orb].
    destruct (Z.ltb_spec c (Z.of_nat n)), (Z.ltb_spec c (Z.of_nat (S n))); lia || done.
Qed.

#[local] Abbreviation used := (used mksb).
#[local] Abbreviation is_data := (is_data mksb).
#[local] Abbreviation file_ok := (file_ok mksb).
#[local] Abbreviation dinode_at := (dinode_at mksb).

Lemma mk_layout : layout mksb (Z.to_nat FSSIZE).
Proof. split; vm_compute; congruence || (split; congruence). Qed.
Lemma mk_geometry : geometry mksb (Z.to_nat FSSIZE).
Proof. unfold geometry. vm_compute. split_and!; congruence. Qed.

(** *** The view

    Until the end the bitmap is not written: the view is the image with the
    bitmap of the blocks given out so far. *)
Definition view (d : list block) (n : Z) : list block := <[58%nat := bits (Z.to_nat n)]> d.

(** The image while files are added: [n] blocks are given out, the others are
    zero. *)
Record image (d : list block) (n : Z) : Prop := {
  ig_len : length d = Z.to_nat FSSIZE;
  ig_ok : Forall block_ok d;
  ig_n : nmeta <= n <= FSSIZE;
  ig_zero : forall b, n <= b < FSSIZE -> d !! Z.to_nat b = Some zero_block;
}.

Section view.
Context (d : list block) (n : Z).
Hypothesis I : image d n.

Lemma view_len : length (view d n) = Z.to_nat FSSIZE.
Proof. unfold view. rewrite length_insert. apply I. Qed.
Lemma view_layout : layout mksb (length (view d n)).
Proof. rewrite view_len. apply mk_layout. Qed.
Lemma view_geometry : geometry mksb (length (view d n)).
Proof. rewrite view_len. apply mk_geometry. Qed.
Lemma view_ok : Forall block_ok (view d n).
Proof. apply Forall_insert; [apply I|apply bits_ok]. Qed.
Lemma view_size : Z.of_nat (length (view d n)) <= FSSIZE.
Proof. rewrite view_len. unfold FSSIZE. lia. Qed.

Lemma view_used c : 0 <= c < FSSIZE -> used (view d n) c = (c <? n).
Proof.
  intros Hc. pose proof (ig_n _ _ I) as Hn. change nmeta with 59 in Hn. unfold FSSIZE in *. unfold used, view, BBLOCK, BPB. rewrite Z.div_small, Z.mod_small by lia.
  change (Z.to_nat (0 + sb_bmapstart mksb)) with 58%nat. rewrite list_lookup_total_insert_eq by (rewrite (ig_len _ _ I); unfold FSSIZE; lia).
  rewrite bit_bits by (unfold in_bits, BPB; lia). by rewrite Z2Nat.id by lia.
Qed.

Lemma view_lookup a : a <> 58 -> 0 <= a -> view d n !! Z.to_nat a = d !! Z.to_nat a.
Proof. intros Ha H0. unfold view. apply list_lookup_insert_ne. lia. Qed.

(** The next block. *)
Lemma view_alloc : n < FSSIZE -> alloc_view mksb n (view d n) = view d (n + 1).
Proof.
  intros Hn. pose proof (ig_n _ _ I) as Hn'. change nmeta with 59 in Hn'. unfold alloc_view, mark, view, BBLOCK, BPB. unfold FSSIZE in *.
  rewrite Z.div_small, Z.mod_small by lia. change (Z.to_nat (0 + sb_bmapstart mksb)) with 58%nat.
  assert (length d = 1000%nat) as Hl by apply (ig_len _ _ I). rewrite list_lookup_total_insert_eq by lia. rewrite list_insert_insert_eq.
  replace (Z.to_nat (n + 1)) with (S (Z.to_nat n)) by lia. cbn [bits]. rewrite Z2Nat.id by lia.
  apply list_insert_id. rewrite list_lookup_insert_ne by lia. apply (ig_zero _ _ I). unfold FSSIZE. lia.
Qed.

Lemma image_alloc : n < FSSIZE -> image d (n + 1).
Proof. intros Hn. destruct I as [? ? ? Hz]. split; [done|done|lia|]. intros b Hb. apply Hz. lia. Qed.

Lemma next_data : n < FSSIZE -> is_data n /\ used (view d n) n = false.
Proof.
  intros Hn. pose proof (ig_n _ _ I) as Hn'. split; [unfold is_data; change (datastart mksb) with nmeta; cbn; lia|].
  rewrite view_used by (change nmeta with 59 in Hn'; lia). apply Z.ltb_ge. lia.
Qed.
End view.

Lemma view_insert d n a x : a <> 58 -> 0 <= a -> view (<[Z.to_nat a := x]> d) n = <[Z.to_nat a := x]> (view d n).
Proof. intros Ha H0. unfold view. apply list_insert_insert_ne. lia. Qed.

Lemma image_insert d n a x : image d n -> 0 <= a < n -> block_ok x -> image (<[Z.to_nat a := x]> d) n.
Proof.
  intros [Hl Ho Hn Hz] Ha Hx. split; [by rewrite length_insert|by apply Forall_insert|done|].
  intros b Hb. rewrite list_lookup_insert_ne by lia. by apply Hz.
Qed.

(** ** [iappend] *)

(** How the program gives up: the image is full, or an assertion fails. *)
Definition gives_up (e : string) : Prop := e = "read"%string \/ e = "assert"%string.

Lemma wpe_rsect {A} a x (k : block -> M img A) Q s : im_disk s !! Z.to_nat a = Some x -> wpe (k x) Q gives_up s -> wpe (b ← rsect a; k b) Q gives_up s.
Proof. intros E HQ. apply wpe_bind_wp. unfold rsect. apply wp_bind, wp_get. rewrite E. by apply wp_ret. Qed.

Lemma rsect_full {A} (k : block -> M img A) Q s : length (im_disk s) = Z.to_nat FSSIZE -> wpe (b ← rsect FSSIZE; k b) Q gives_up s.
Proof.
  intros Hl. apply wpe_bind. unfold rsect. apply wpe_bind_wp, wp_get. rewrite lookup_ge_None_2 by lia. by left.
Qed.

Lemma wp_wsect a x s (Q : unit -> img -> Prop) : (Z.to_nat a < length (im_disk s))%nat ->
  Q tt (mkImg (<[Z.to_nat a := x]> (im_disk s)) (freeinode s) (freeblock s)) -> wp (wsect a x) Q s.
Proof.
  intros Ha HQ. apply wp_modify. replace (Z.to_nat a + 1 - length (im_disk s))%nat with 0%nat by lia. cbn [replicate]. by rewrite app_nil_r.
Qed.

Section append.
Context (fi : Z).

(** What [iappend_block] does: no block is left, or the file has the block. *)
Definition block_post (d : list block) (n : Z) (din : dinode) (fbn : Z) (r : dinode * Z) (s' : img) : Prop :=
  r.2 = FSSIZE /\ length (im_disk s') = Z.to_nat FSSIZE \/
  exists d' n', s' = mkImg d' fi n' /\ image d' n' /\ n <= n' /\ r.1 = set_addrs (di_addrs r.1) din /\
    mapped mksb (view d n) (di_addrs din) fbn r.2 (view d' n') (di_addrs r.1).

Lemma set_addrs_id din : set_addrs (di_addrs din) din = din.
Proof. by destruct din. Qed.

Section entry.
Context (d : list block) (n : Z) (din : dinode).
Abbreviation ad := (di_addrs din).
Hypothesis I : image d n.
Hypothesis Fk : file_ok (view d n) ad.

Let Ly := view_layout d n I.
Let G := view_geometry d n I.

Lemma live_block a : live mksb (view d n) a -> nmeta <= a < n /\ exists x, d !! Z.to_nat a = Some x /\ view d n !! Z.to_nat a = Some x /\ block_ok x.
Proof.
  intros [[Ha1 Ha2] Hu]. change (datastart mksb) with nmeta in Ha1. cbn in Ha2. change nmeta with 59 in *.
  rewrite view_used in Hu by (done || lia). apply Z.ltb_lt in Hu. split; [lia|].
  destruct (lookup_lt_is_Some_2 d (Z.to_nat a)) as [x Hx]; [rewrite (ig_len _ _ I); lia|]. exists x.
  rewrite view_lookup by lia. split; [done|]. split; [done|]. by eapply Forall_lookup_1; [apply (ig_ok _ _ I)|].
Qed.

Lemma entry_addr fbn x : NDIRECT <= fbn < MAXFILE -> indirect ad <> 0 -> view d n !! Z.to_nat (indirect ad) = Some x ->
  baddr (view d n) ad fbn = get_u32 (4 * Z.to_nat (fbn - NDIRECT)) x.
Proof.
  intros Hf Hi Hx. unfold baddr. rewrite (proj2 (Z.ltb_ge fbn NDIRECT)), (proj2 (Z.eqb_neq _ 0)) by (done || lia).
  by rewrite (list_lookup_total_correct _ _ _ Hx).
Qed.

Lemma iappend_entry_ok fbn : NDIRECT <= fbn < MAXFILE -> indirect ad <> 0 ->
  wpe (iappend_entry din fbn) (fun r s' => block_post d n din fbn r s' /\ r.1 = din) gives_up (mkImg d fi n).
Proof.
  intros Hf Hi. destruct (live_block _ (fk_ind _ _ _ Fk Hi)) as (Hir & x & Hx & Hvx & Hxo). pose proof (entry_addr fbn x Hf Hi Hvx) as Eb.
  change nmeta with 59 in Hir. pose proof (ig_n _ _ I) as Hn. unfold iappend_entry. cbv zeta. change (ad !!! Z.to_nat NDIRECT) with (indirect ad).
  eapply wpe_rsect; [exact Hx|]. rewrite <- Eb. apply wpe_wp, wp_bind. destruct (Z.eqb_spec (baddr (view d n) ad fbn) 0) as [E0|E0].
  - unfold next_block. apply wp_bind, wp_bind, wp_get. apply wp_bind, wp_modify, wp_ret. cbn [freeblock im_disk freeinode].
    assert (4 * Z.to_nat (fbn - NDIRECT) + 4 <= BSIZE)%nat as Ho by (unfold BSIZE, MAXFILE, NDIRECT, NINDIRECT in *; lia).
    apply wp_bind, wp_wsect; [cbn; rewrite (ig_len _ _ I); lia|]. apply wp_ret, wp_ret. cbn [im_disk freeinode freeblock]. split; [|done].
    rewrite get_put_u32_eq by (first [by rewrite (proj1 Hxo)|unfold FSSIZE in *; change nmeta with 59 in *; lia]).
    destruct (decide (n < FSSIZE)) as [Hlt|Hge].
    + right. exists (<[Z.to_nat (indirect ad) := put_u32 (4 * Z.to_nat (fbn - NDIRECT)) n x]> d), (n + 1). cbn [fst snd].
      split; [done|]. split; [apply image_insert; [by apply image_alloc|lia|by apply block_ok_put_u32]|]. split; [lia|].
      split; [by rewrite set_addrs_id|]. rewrite view_insert, <- view_alloc by (done || lia).
      rewrite <- (list_lookup_total_correct _ _ _ Hvx). destruct (next_data d n I Hlt). 
      apply mapped_entry; [done..|by apply view_ok|done|done|done|by apply view_size|done|done|done].
    + left. split; [cbn; lia|]. cbn. rewrite length_insert. apply I.
  - apply wp_ret, wp_ret. split; [|done]. right. exists d, n. split; [done|]. split; [done|]. split; [lia|]. cbn [fst snd].
    split; [by rewrite set_addrs_id|]. rewrite <- Eb. by apply mapped_same.
Qed.
End entry.

Lemma iappend_block_ok d n din fbn : image d n -> file_ok (view d n) (di_addrs din) -> 0 <= fbn < MAXFILE ->
  wpe (iappend_block din fbn) (block_post d n din fbn) gives_up (mkImg d fi n).
Proof.
  intros I Fk Hf. pose proof (view_layout d n I) as Ly. pose proof (view_geometry d n I) as G. pose proof (view_ok d n I) as Hok.
  pose proof (ig_n _ _ I) as Hn. change nmeta with 59 in Hn. pose proof (fk_len _ _ _ Fk) as Hl. unfold iappend_block. destruct (Z.ltb_spec fbn NDIRECT) as [Hd|Hd].
  - apply wpe_wp, wp_bind. destruct (Z.eqb_spec (di_addrs din !!! Z.to_nat fbn) 0) as [E0|E0].
    + unfold next_block. apply wp_bind, wp_bind, wp_get. apply wp_bind, wp_modify, wp_ret, wp_ret, wp_ret. cbn [freeblock di_addrs set_addrs im_disk freeinode].
      rewrite list_lookup_total_insert_eq by (unfold NDIRECT in Hd; lia). destruct (decide (n < FSSIZE)) as [Hlt|Hge]; [|left; split; [cbn; lia|apply I]].
      right. exists d, (n + 1). split; [done|]. split; [by apply image_alloc|]. split; [lia|]. cbn [fst snd]. split; [done|].
      destruct (next_data d n I Hlt). rewrite <- view_alloc by done. apply mapped_direct; done || lia.
    + apply wp_ret, wp_ret. right. exists d, n. split; [done|]. split; [done|]. split; [lia|]. cbn [fst snd]. split; [by rewrite set_addrs_id|].
      assert (baddr (view d n) (di_addrs din) fbn = di_addrs din !!! Z.to_nat fbn) as <- by (unfold baddr; by rewrite (proj2 (Z.ltb_lt _ _))).
      apply mapped_same; [done|]. unfold baddr. by rewrite (proj2 (Z.ltb_lt _ _)).
  - assert (NDIRECT <= fbn < MAXFILE) as Hf' by lia. change (di_addrs din !!! Z.to_nat NDIRECT) with (indirect (di_addrs din)).
    destruct (Z.eqb_spec (indirect (di_addrs din)) 0) as [Hi|Hi].
    2: { apply wpe_bind_wp, wp_ret. eapply wpe_mono; [by apply iappend_entry_ok| |done]. by intros r s' [? _]. }
    unfold next_block. apply wpe_bind_wp. apply wp_bind, wp_bind, wp_get. apply wp_bind, wp_modify, wp_ret, wp_ret. cbn [freeblock im_disk freeinode].
    change (Z.to_nat NDIRECT) with 12%nat. destruct (decide (n < FSSIZE)) as [Hlt|Hge].
    + destruct (next_data d n I Hlt) as [Hdt Hu]. destruct (add_indirect mksb (view d n) (di_addrs din) n Ly G Hok Hdt Hu Fk Hi) as (Fk' & Ei & _).
      rewrite view_alloc in Fk' by done. set (din1 := set_addrs (<[12%nat := n]> (di_addrs din)) din).
      eapply wpe_mono; [apply (iappend_entry_ok d (n + 1) din1); [by apply image_alloc|exact Fk'|done|change (indirect (<[12%nat := n]> (di_addrs din)) <> 0); rewrite Ei; lia]| |done].
      intros [r1 r2] s' [[?|(d' & n' & -> & I' & Hn' & Er & M)] E1]; [by left|]. right. cbn [fst snd] in *. subst r1. exists d', n'. split; [done|]. split; [done|].
      split; [lia|]. split; [done|]. rewrite <- view_alloc in M by done. by apply (mapped_indirect mksb (view d n) (di_addrs din) n).
    + unfold iappend_entry. cbn [di_addrs set_addrs]. change (Z.to_nat NDIRECT) with 12%nat. rewrite list_lookup_total_insert_eq by lia.
      replace n with FSSIZE by lia. apply rsect_full. apply I.
Qed.

(** [turn]: the bytes of one block. *)
Definition loop_post (d : list block) (n : Z) (din : dinode) (off : Z) (p : list Z) (r : dinode * Z) (s' : img) : Prop :=
  r.2 = off + Z.of_nat (length p) /\ r.2 <= MAXFILE * Z.of_nat BSIZE /\
  exists d' n', s' = mkImg d' fi n' /\ image d' n' /\ n <= n' /\ r.1 = set_addrs (di_addrs r.1) din /\
    written mksb (view d n) (di_addrs din) off p (view d' n') (di_addrs r.1).

Lemma iappend_loop_ok fuel : forall d n din off p,
  image d n -> file_ok (view d n) (di_addrs din) -> 0 <= off <= MAXFILE * Z.of_nat BSIZE -> Forall is_byte p ->
  (off mod Z.of_nat BSIZE = 0 \/ (0 < length p)%nat \/ baddr (view d n) (di_addrs din) (off / Z.of_nat BSIZE) <> 0) ->
  (p = [] \/ off mod Z.of_nat BSIZE + Z.of_nat (length p) <= Z.of_nat fuel * Z.of_nat BSIZE) ->
  wpe (iappend_loop fuel din off p) (loop_post d n din off p) gives_up (mkImg d fi n).
Proof.
  induction fuel as [|fuel IH]; intros d n din off p I Fk Hoff Hp Hat Hfuel; cbn [iappend_loop];
    pose proof (Z.mod_pos_bound off (Z.of_nat BSIZE) eq_refl) as Hm0;
    (destruct (decide (p = [])) as [->|Hne]; [apply wpe_wp, wp_ret; split; [cbn; lia|]; split; [cbn [snd]; lia|]; exists d, n; split; [done|]; split; [done|]; split; [lia|];
      split; [by rewrite set_addrs_id|]; apply written_nil; [lia|destruct Hat as [?|[Hat|?]]; [by left|simpl in Hat; lia|by right]|done]|]);
    (assert (0 < length p)%nat as Hpos by (destruct p; [done|simpl; lia])).
  { destruct Hfuel as [?|Hfuel]; [done|]. lia. }
  rewrite (proj2 (Z.ltb_lt 0 _)) by lia. cbn [negb]. set (fbn := off / Z.of_nat BSIZE) in *.
  assert (0 <= fbn) as Hf0 by (apply Z.div_pos; [lia|done]). destruct (Z.ltb_spec fbn MAXFILE) as [Hf|Hf]; cbn [negb]; [|by right].
  pose proof (Z.div_mod off (Z.of_nat BSIZE) ltac:(done)) as Hdm. fold fbn in Hdm.
  eapply wpe_bind, wpe_mono; [by apply iappend_block_ok| |done]. intros [din1 x] s1 HB. unfold block_post in HB. cbn [fst snd] in *.
  destruct HB as [[-> Hl]|(d1 & n1 & -> & I1 & Hn1 & Ed & M)]; [by apply rsect_full|]. cbn [fst snd] in *.
  set (m := Z.min _ _). assert (0 < m <= Z.of_nat (length p) /\ off mod Z.of_nat BSIZE + m <= Z.of_nat BSIZE) as Hm by (unfold m; lia).
  replace (off - fbn * Z.of_nat BSIZE) with (off mod Z.of_nat BSIZE) by lia.
  assert (0 <= off < MAXFILE * Z.of_nat BSIZE) as Hoff' by (unfold BSIZE in *; lia).
  pose proof (view_layout d n I) as Ly. pose proof (view_geometry d n I) as G.
  destruct (turn_live mksb (view d n) (di_addrs din) off x (view d1 n1) (di_addrs din1) Ly G M Hoff') as (Hlx & Hxi & _).
  destruct (live_block d1 n1 I1 x Hlx) as (Hxr & buf & Hbuf & Hvb & Hbo). change nmeta with 59 in Hxr.
  eapply wpe_rsect; [exact Hbuf|]. set (chunk := take (Z.to_nat m) p). set (rest := drop (Z.to_nat m) p).
  assert (length chunk = Z.to_nat m) as Hcl by (unfold chunk; rewrite length_take; lia). assert (chunk ++ rest = p) as Ecr by apply take_drop.
  apply wpe_bind_wp, wp_wsect; [eapply lookup_lt_Some; exact Hbuf|]. cbn [im_disk freeinode freeblock].
  pose proof (turn_written mksb (view d n) (di_addrs din) off x chunk (view d1 n1) (di_addrs din1) buf Ly G Fk M Hoff' Hvb (proj1 Hbo) ltac:(lia) ltac:(lia)) as W.
  rewrite <- view_insert in W by lia. set (d2 := <[Z.to_nat x := _]> d1) in *.
  assert (image d2 n1) as I2 by (apply image_insert; [done|lia|apply block_ok_splice; [done|by apply Forall_take|unfold BSIZE in *; lia]]).
  replace (off + m) with (off + Z.of_nat (length chunk)) by lia.
  eapply wpe_mono; [apply (IH d2 n1 din1 (off + Z.of_nat (length chunk)) rest I2)| |done].
  - apply W.
  - unfold m in *. unfold BSIZE in *. lia.
  - by apply Forall_drop.
  - destruct (decide (off mod Z.of_nat BSIZE + m = Z.of_nat BSIZE)) as [E|E]; [left; apply io_next; lia|right; right].
    apply (wr_hole _ _ _ _ _ _ _ W); [apply Z.div_le_mono; unfold BSIZE; lia|].
    destruct (same_block off (Z.of_nat (length chunk))) as [-> _]; [lia..|]. fold fbn. lia.
  - destruct (decide (rest = [])) as [?|Hr]; [by left|right]. destruct Hfuel as [?|Hfuel]; [done|].
    assert (m <> Z.of_nat (length p)) by (intros E; apply Hr; unfold rest; apply drop_ge; lia).
    rewrite io_next by (unfold m in *; lia). unfold rest. rewrite length_drop. unfold m in *. lia.
  - intros [r1 r2] s' (Er & Hr2 & d' & n' & -> & I' & Hn' & Ed' & W'). cbn [fst snd] in *. split; [cbn; rewrite Er, <- Ecr, length_app; lia|]. split; [done|].
    exists d', n'. split; [done|]. split; [done|]. split; [lia|]. split; [cbn [fst]; rewrite Ed', Ed; by destruct din|]. rewrite <- Ecr.
    eapply written_trans; [exact Ly|exact G|lia| |exact W|exact W']. rewrite length_app. lia.
Qed.
End append.

(** ** The files of the image *)

(** The inode [inum] is a file of type [ty] that holds [c]; the rest of its
    last block is zero. *)
Record file_is (v : list block) (inum ty : Z) (c : list Z) : Prop := {
  fi_din : dinode_at v inum = mkDinode ty 0 0 1 (Z.of_nat (length c)) (di_addrs (dinode_at v inum));
  fi_ok : file_ok v (di_addrs (dinode_at v inum));
  fi_size : Z.of_nat (length c) <= MAXFILE * Z.of_nat BSIZE;
  fi_hole : no_hole v (di_addrs (dinode_at v inum)) 0 (Z.of_nat (length c));
  fi_bytes : forall o, 0 <= o < Z.of_nat (length c) -> fbyte v (di_addrs (dinode_at v inum)) o = c !!! Z.to_nat o;
  fi_tail : forall o, Z.of_nat (length c) <= o < MAXFILE * Z.of_nat BSIZE ->
    baddr v (di_addrs (dinode_at v inum)) (o / Z.of_nat BSIZE) <> 0 -> fbyte v (di_addrs (dinode_at v inum)) o = 0;
}.

(** The image after the files [fl] (type and contents), inodes 1 and on. *)
Record built (s : img) (fl : list (Z * list Z)) : Prop := {
  bu_image : image (im_disk s) (freeblock s);
  bu_sb : im_disk s !! 1%nat = Some sb_block;
  bu_log : im_disk s !! 2%nat = Some zero_block;
  bu_inode : freeinode s = 1 + Z.of_nat (length fl);
  bu_max : 1 + Z.of_nat (length fl) <= NINODES;
  bu_files : forall i ty c, fl !! i = Some (ty, c) -> file_is (view (im_disk s) (freeblock s)) (Z.of_nat i + 1) ty c;
  bu_apart : forall i j, (i < length fl)%nat -> (j < length fl)%nat -> i <> j ->
    apart (view (im_disk s) (freeblock s)) (di_addrs (dinode_at (view (im_disk s) (freeblock s)) (Z.of_nat i + 1)))
      (di_addrs (dinode_at (view (im_disk s) (freeblock s)) (Z.of_nat j + 1)));
  bu_exact : forall a, nmeta <= a < freeblock s -> exists j, (j < length fl)%nat /\
    has_block (view (im_disk s) (freeblock s)) (di_addrs (dinode_at (view (im_disk s) (freeblock s)) (Z.of_nat j + 1))) a;
  bu_types : Forall (fun f => short f.1) fl;
  bu_free : forall j, 0 <= j < NINODES -> j = 0 \/ Z.of_nat (length fl) < j -> di_type (dinode_at (view (im_disk s) (freeblock s)) j) = 0;
}.

Lemma is_inum_mk i : 0 <= i < NINODES -> is_inum mksb i /\ 32 <= IBLOCK i mksb < 58.
Proof.
  unfold is_inum. cbn [mksb sb_ninodes]. intros Hi. split; [done|]. unfold IBLOCK, IPB, NINODES in *. cbn [sb_inodestart mksb].
  change (2 + nlog) with 32. Z.to_euclidean_division_equations. lia.
Qed.

(** Inodes are stored the same in image and view. *)
Lemma view_put d n i x : 0 <= i < NINODES -> view (put_inode mksb i x d) n = put_inode mksb i x (view d n).
Proof.
  intros Hi. destruct (is_inum_mk i Hi) as [_ Hb]. unfold put_inode. rewrite view_insert by lia. do 2 f_equal.
  unfold view. by rewrite list_lookup_total_insert_ne by lia.
Qed.

Lemma view_dinode d n i : 0 <= i < NINODES -> dinode_at (view d n) i = dinode_at d i.
Proof.
  intros Hi. destruct (is_inum_mk i Hi) as [_ Hb]. unfold dinode_at, view. by rewrite list_lookup_total_insert_ne by lia.
Qed.

Lemma image_put d n i x : image d n -> 0 <= i < NINODES -> length (di_addrs x) = 13%nat -> image (put_inode mksb i x d) n.
Proof.
  intros I Hi Hx. destruct (is_inum_mk i Hi) as [_ Hb]. pose proof (ig_n _ _ I) as Hn. change nmeta with 59 in Hn.
  apply image_insert; [done|lia|]. apply put_dinode_block; [|apply dip_off_fits|done].
  destruct (lookup_lt_is_Some_2 d (Z.to_nat (IBLOCK i mksb))) as [y Hy]; [rewrite (ig_len _ _ I); unfold FSSIZE; lia|].
  rewrite (list_lookup_total_correct _ _ _ Hy). by eapply Forall_lookup_1; [apply (ig_ok _ _ I)|].
Qed.

Lemma wp_rinode i d fi n (Q : dinode -> img -> Prop) : image d n -> 0 <= i < NINODES -> Q (dinode_at d i) (mkImg d fi n) -> wp (rinode i) Q (mkImg d fi n).
Proof.
  intros I Hi HQ. destruct (is_inum_mk i Hi) as [_ Hb]. destruct (lookup_lt_is_Some_2 d (Z.to_nat (IBLOCK i mksb))) as [y Hy]; [rewrite (ig_len _ _ I); unfold FSSIZE; lia|].
  unfold rinode, rsect. apply wp_bind, wp_bind, wp_get. cbn [im_disk]. rewrite Hy. apply wp_ret, wp_ret.
  unfold dinode_at in HQ. by rewrite (list_lookup_total_correct _ _ _ Hy) in HQ.
Qed.

Lemma wp_winode i x d fi n (Q : unit -> img -> Prop) : image d n -> 0 <= i < NINODES ->
  Q tt (mkImg (put_inode mksb i x d) fi n) -> wp (winode i x) Q (mkImg d fi n).
Proof.
  intros I Hi HQ. destruct (is_inum_mk i Hi) as [_ Hb]. destruct (lookup_lt_is_Some_2 d (Z.to_nat (IBLOCK i mksb))) as [y Hy]; [rewrite (ig_len _ _ I); unfold FSSIZE; lia|].
  unfold winode, rsect. cbv zeta. apply wp_bind, wp_bind, wp_get. cbn [im_disk]. rewrite Hy. apply wp_ret. apply wp_wsect; [by eapply lookup_lt_Some|].
  unfold put_inode in HQ. by rewrite (list_lookup_total_correct _ _ _ Hy) in HQ.
Qed.

(** *** Storing an inode *)

Section put.
Context (v : list block) (i : Z) (x : dinode).
Hypothesis Ly : layout mksb (length v).
Hypothesis G : geometry mksb (length v).
Hypothesis Hok : Forall block_ok v.
Hypothesis Hi : 0 <= i < NINODES.
Hypothesis Hx : length (di_addrs x) = 13%nat.
Abbreviation v' := (put_inode mksb i x v).

Let Hb : 0 <= IBLOCK i mksb < sb_bmapstart mksb.
Proof. destruct (is_inum_mk i Hi) as [_ ?]. change (sb_bmapstart mksb) with 58. lia. Qed.

Lemma put_other j : 0 <= j < NINODES -> j <> i -> dinode_at v' j = dinode_at v j.
Proof. intros Hj Hne. apply put_inode_ne; [done..|by apply is_inum_mk|by apply is_inum_mk|congruence|done]. Qed.

Lemma put_has ad a : file_ok v ad -> has_block v' ad a <-> has_block v ad a.
Proof. intros Fk. unfold has_block, put_inode. by setoid_rewrite (meta_baddr mksb v ad _ _ Ly G Hb Fk). Qed.

Lemma put_apart ad1 ad2 : file_ok v ad1 -> file_ok v ad2 -> apart v ad1 ad2 -> apart v' ad1 ad2.
Proof. intros F1 F2 Ha a H1 H2. rewrite put_has in H1, H2 by done. by eapply Ha. Qed.

(** The contents are as before, for the file with the addresses [ad]. *)
Lemma put_file ad n (f : Z -> Z) :
  file_ok v ad -> n <= MAXFILE * Z.of_nat BSIZE -> no_hole v ad 0 n -> (forall o, 0 <= o < n -> fbyte v ad o = f o) ->
  (forall o, n <= o < MAXFILE * Z.of_nat BSIZE -> baddr v ad (o / Z.of_nat BSIZE) <> 0 -> fbyte v ad o = 0) ->
  file_ok v' ad /\ no_hole v' ad 0 n /\ (forall o, 0 <= o < n -> fbyte v' ad o = f o) /\
  (0 <= n -> forall o, n <= o < MAXFILE * Z.of_nat BSIZE -> baddr v' ad (o / Z.of_nat BSIZE) <> 0 -> fbyte v' ad o = 0).
Proof.
  intros Fk Hn Hh Hby Ht. unfold put_inode. split_and!.
  - by apply meta_file.
  - intros bn H1 H2. rewrite (meta_baddr mksb) by done. by apply Hh.
  - intros o Ho. rewrite (meta_fbyte mksb); [by apply Hby|done..|lia|]. apply Hh.
    + change (0 / Z.of_nat BSIZE) with 0. apply Z.div_pos; [lia|done].
    + pose proof (Z.mul_div_le o (Z.of_nat BSIZE) eq_refl). lia.
  - intros H0 o Ho. rewrite (meta_baddr mksb) by done. intros Hne. rewrite (meta_fbyte mksb); [by apply Ht|done..|lia|done].
Qed.

Lemma file_is_other j ty c : 0 <= j < NINODES -> j <> i -> file_is v j ty c -> file_is v' j ty c.
Proof.
  intros Hj Hne [Hd Fk Hs Hh Hby Ht]. destruct (put_file _ _ _ Fk Hs Hh Hby Ht) as (Fk' & Hh' & Hb' & Ht').
  split; rewrite ?put_other by done; try done. apply Ht'. lia.
Qed.

Lemma file_is_new ty c : dinode_ok x -> x = mkDinode ty 0 0 1 (Z.of_nat (length c)) (di_addrs x) -> file_ok v (di_addrs x) ->
  Z.of_nat (length c) <= MAXFILE * Z.of_nat BSIZE -> no_hole v (di_addrs x) 0 (Z.of_nat (length c)) ->
  (forall o, 0 <= o < Z.of_nat (length c) -> fbyte v (di_addrs x) o = c !!! Z.to_nat o) ->
  (forall o, Z.of_nat (length c) <= o < MAXFILE * Z.of_nat BSIZE -> baddr v (di_addrs x) (o / Z.of_nat BSIZE) <> 0 -> fbyte v (di_addrs x) o = 0) ->
  file_is v' i ty c.
Proof.
  intros Hxk Ex Fk Hs Hh Hby Ht. destruct (put_file _ _ _ Fk Hs Hh Hby Ht) as (Fk' & Hh' & Hb' & Ht').
  assert (dinode_at v' i = x) as E by (apply put_inode_eq; [done..|by apply is_inum_mk|done]).
  split; rewrite ?E; try done. apply Ht'. lia.
Qed.
End put.

(** *** Appending to a file *)

Section appended.
Context (s : img) (fl : list (Z * list Z)) (i : nat) (ty : Z) (c p : list Z) (d' : list block) (n' : Z) (ad' : list Z).
Abbreviation v := (view (im_disk s) (freeblock s)).
Abbreviation ad := (di_addrs (dinode_at v (Z.of_nat i + 1))).
Hypothesis B : built s fl.
Hypothesis Hf : fl !! i = Some (ty, c).
Hypothesis I' : image d' n'.
Hypothesis Hmax : Z.of_nat (length c) + Z.of_nat (length p) <= MAXFILE * Z.of_nat BSIZE.
Hypothesis W : written mksb v ad (Z.of_nat (length c)) p (view d' n') ad'.

Definition grown : dinode := mkDinode ty 0 0 1 (Z.of_nat (length c) + Z.of_nat (length p)) ad'.

Let Ly : layout mksb (length v) := view_layout _ _ (bu_image _ _ B).
Let G : geometry mksb (length v) := view_geometry _ _ (bu_image _ _ B).
Let Ly' : layout mksb (length (view d' n')) := view_layout _ _ I'.
Let G' : geometry mksb (length (view d' n')) := view_geometry _ _ I'.
Let Hil : (i < length fl)%nat := lookup_lt_Some _ _ _ Hf.

Lemma file_inum j : (j < length fl)%nat -> 0 <= Z.of_nat j + 1 < NINODES.
Proof. intros Hj. pose proof (bu_max _ _ B). lia. Qed.

Lemma grown_ok : dinode_ok grown.
Proof.
  pose proof (wr_file _ _ _ _ _ _ _ W) as Fk'. split; cbn [grown di_type di_major di_minor di_nlink di_size di_addrs]; try (unfold short; lia).
  - pose proof (bu_types _ _ B) as Ht. by eapply (Forall_lookup_1 _ _ _ (ty, c)) in Ht.
  - unfold uint, MAXFILE, NDIRECT, NINDIRECT, BSIZE in *. lia.
  - apply Fk'.
  - apply (file_uint mksb (view d' n')); [done..|by apply view_size|done].
Qed.

Lemma write_dinode j : 0 <= j < NINODES -> dinode_at (view d' n') j = dinode_at v j.
Proof.
  intros Hj. destruct (is_inum_mk j Hj) as [_ Hb]. unfold dinode_at. rewrite !list_lookup_total_alt.
  by rewrite (wr_meta _ _ _ _ _ _ _ W) by (change (sb_bmapstart mksb) with 58; lia).
Qed.

Lemma write_block a : 0 <= a < 58 -> d' !! Z.to_nat a = im_disk s !! Z.to_nat a.
Proof.
  intros Ha. pose proof (wr_meta _ _ _ _ _ _ _ W a Ha) as E. by rewrite !view_lookup in E by lia.
Qed.

(** The file itself. *)
Lemma write_file : file_is (put_inode mksb (Z.of_nat i + 1) grown (view d' n')) (Z.of_nat i + 1) ty (c ++ p).
Proof.
  pose proof (bu_files _ _ B i ty c Hf) as [Hd Fk Hs Hh Hby Ht]. pose proof (wr_file _ _ _ _ _ _ _ W) as Fk'.
  destruct (written_all mksb v ad (Z.of_nat (length c)) (Z.of_nat (length c)) p (view d' n') ad') as [Wh Wb]; [lia..|exact Hh|exact W|].
  rewrite Z.max_r in Wh, Wb by lia.
  apply file_is_new; [done|done|by apply view_ok|by apply file_inum|apply Fk'|apply grown_ok|..]; rewrite ?length_app, ?Nat2Z.inj_add; try done.
  - intros o Ho. cbn [grown di_addrs]. rewrite Wb by done. case_decide as Hd'.
    + rewrite lookup_total_app_r by lia. f_equal. lia.
    + rewrite Hby, lookup_total_app_l by lia. done.
  - intros o Ho Hne. cbn [grown di_addrs] in *. destruct (decide (baddr v ad (o / Z.of_nat BSIZE) = 0)) as [Hz|Hz].
    + apply (wr_zero _ _ _ _ _ _ _ W); [lia|lia|done|done].
    + rewrite (wr_keep _ _ _ _ _ _ _ W); [apply Ht; [lia|done]|lia|lia|done].
Qed.

(** The others. *)
Lemma write_other j tj cj : j <> i -> fl !! j = Some (tj, cj) ->
  file_is (put_inode mksb (Z.of_nat i + 1) grown (view d' n')) (Z.of_nat j + 1) tj cj.
Proof.
  intros Hne Hj. pose proof (lookup_lt_Some _ _ _ Hj) as Hjl. pose proof (bu_files _ _ B j tj cj Hj) as [Hd Fk Hs Hh Hby Ht].
  pose proof (bu_apart _ _ B j i Hjl Hil Hne) as Hap. pose proof (wr_file _ _ _ _ _ _ _ W) as Fk'.
  apply file_is_other; [done|done|by apply view_ok|by apply file_inum|apply Fk'|by apply file_inum|lia|].
  split; rewrite ?(write_dinode _ (file_inum j Hjl)); [done|exact (frame_file mksb v ad (Z.of_nat (length c)) p (view d' n') ad' _ Ly G W Fk Hap)|done|..].
  - intros bn H1 H2. rewrite (frame_baddr mksb v ad (Z.of_nat (length c)) p (view d' n') ad') by done. by apply Hh.
  - intros o Ho. rewrite (frame_fbyte mksb v ad (Z.of_nat (length c)) p (view d' n') ad'); [by apply Hby|done..|lia|]. apply Hh.
    + change (0 / Z.of_nat BSIZE) with 0. apply Z.div_pos; [lia|done].
    + pose proof (Z.mul_div_le o (Z.of_nat BSIZE) eq_refl). lia.
  - intros o Ho. rewrite (frame_baddr mksb v ad (Z.of_nat (length c)) p (view d' n') ad') by done. intros H0.
    rewrite (frame_fbyte mksb v ad (Z.of_nat (length c)) p (view d' n') ad'); [by apply Ht|done..|lia|done].
Qed.

Lemma write_apart j k : (j < length fl)%nat -> (k < length fl)%nat -> j <> k ->
  let v2 := put_inode mksb (Z.of_nat i + 1) grown (view d' n') in
  apart v2 (di_addrs (dinode_at v2 (Z.of_nat j + 1))) (di_addrs (dinode_at v2 (Z.of_nat k + 1))).
Proof.
  intros Hj Hk Hne v2. pose proof (wr_file _ _ _ _ _ _ _ W) as Fk'. pose proof (view_ok d' n' I') as Hok'.
  assert (forall m, (m < length fl)%nat -> m <> i -> di_addrs (dinode_at v2 (Z.of_nat m + 1)) = di_addrs (dinode_at v (Z.of_nat m + 1)) /\
    file_ok v (di_addrs (dinode_at v (Z.of_nat m + 1))) /\ file_ok (view d' n') (di_addrs (dinode_at v (Z.of_nat m + 1))) /\
    apart v (di_addrs (dinode_at v (Z.of_nat m + 1))) ad) as Ho.
  { intros m Hm Hmi. destruct (lookup_lt_is_Some_2 fl m Hm) as [[tm cm] Em]. pose proof (fi_ok _ _ _ _ (bu_files _ _ B m tm cm Em)) as Fm.
    pose proof (bu_apart _ _ B m i Hm Hil Hmi) as Hap.
    unfold v2. rewrite put_other by (done || apply Fk' || by apply file_inum || lia). rewrite write_dinode by (by apply file_inum).
    split; [done|]. split; [done|]. split; [|done]. exact (frame_file mksb v ad (Z.of_nat (length c)) p (view d' n') ad' _ Ly G W Fm Hap). }
  assert (di_addrs (dinode_at v2 (Z.of_nat i + 1)) = ad') as Ei.
  { unfold v2. rewrite put_inode_eq; [done|done|done|done|by apply is_inum_mk, file_inum|apply grown_ok]. }
  destruct (decide (j = i)) as [->|Hji]; [|destruct (decide (k = i)) as [->|Hki]].
  - destruct (Ho k Hk ltac:(done)) as (-> & Fm & Fm' & Hap). rewrite Ei. apply apart_sym, put_apart; [done|done|by apply file_inum|apply Fk'|done|done|].
    exact (frame_apart mksb v ad (Z.of_nat (length c)) p (view d' n') ad' _ Ly G W Fm Hap).
  - destruct (Ho j Hj ltac:(done)) as (-> & Fm & Fm' & Hap). rewrite Ei. apply put_apart; [done|done|by apply file_inum|apply Fk'|done|done|].
    exact (frame_apart mksb v ad (Z.of_nat (length c)) p (view d' n') ad' _ Ly G W Fm Hap).
  - destruct (Ho j Hj Hji) as (-> & Fj & Fj' & Hapj), (Ho k Hk Hki) as (-> & Fm & Fm' & Hapk).
    apply put_apart; [done|done|by apply file_inum|apply Fk'|done|done|]. intros a Ha Hb.
    rewrite (frame_has mksb v ad (Z.of_nat (length c)) p (view d' n') ad') in Ha, Hb by done. by apply (bu_apart _ _ B j k Hj Hk Hne a).
Qed.

(** The blocks taken belong to the file. *)
Lemma write_exact a : nmeta <= a < n' -> let v2 := put_inode mksb (Z.of_nat i + 1) grown (view d' n') in
  exists j, (j < length fl)%nat /\ has_block v2 (di_addrs (dinode_at v2 (Z.of_nat j + 1))) a.
Proof.
  intros Ha v2. pose proof (wr_file _ _ _ _ _ _ _ W) as Fk'. pose proof (view_ok d' n' I') as Hok'. pose proof (ig_n _ _ I') as Hn'. change nmeta with 59 in *.
  assert (di_addrs (dinode_at v2 (Z.of_nat i + 1)) = ad') as Ei.
  { unfold v2. rewrite put_inode_eq; [done|done|done|done|by apply is_inum_mk, file_inum|apply grown_ok]. }
  assert (has_block (view d' n') ad' a -> has_block v2 (di_addrs (dinode_at v2 (Z.of_nat i + 1))) a) as Hown.
  { rewrite Ei. intros H. apply put_has; [done|done|by apply file_inum|apply Fk'|done|done]. }
  destruct (wr_acct _ _ _ _ _ _ _ W a) as [Hu|Hb]; [change (sb_size mksb) with FSSIZE; lia|rewrite view_used by (done || lia); apply Z.ltb_lt; lia| |by exists i; auto].
  rewrite view_used in Hu by (apply (bu_image _ _ B) || lia). apply Z.ltb_lt in Hu. destruct (bu_exact _ _ B a ltac:(change nmeta with 59; lia)) as (j & Hj & Hb).
  exists j. split; [done|]. destruct (decide (j = i)) as [->|Hne]; [by apply Hown, (written_old mksb v ad (Z.of_nat (length c)) p)|].
  destruct (lookup_lt_is_Some_2 fl j Hj) as [[tj cj] Ej]. pose proof (fi_ok _ _ _ _ (bu_files _ _ B j tj cj Ej)) as Fj. pose proof (bu_apart _ _ B j i Hj Hil Hne) as Hap.
  unfold v2. rewrite put_other by (done || apply Fk' || by apply file_inum || lia). rewrite write_dinode by (by apply file_inum).
  apply put_has; [done|done|by apply file_inum|apply Fk'|exact (frame_file mksb v ad (Z.of_nat (length c)) p (view d' n') ad' _ Ly G W Fj Hap)|].
  by rewrite (frame_has mksb v ad (Z.of_nat (length c)) p (view d' n') ad').
Qed.

Lemma built_append : built (mkImg (put_inode mksb (Z.of_nat i + 1) grown d') (freeinode s) n') (<[i := (ty, c ++ p)]> fl).
Proof.
  pose proof (wr_file _ _ _ _ _ _ _ W) as Fk'. pose proof (file_inum i Hil) as Hi. destruct (is_inum_mk _ Hi) as [_ Hb].
  assert (forall a, 0 <= a < 32 -> put_inode mksb (Z.of_nat i + 1) grown d' !! Z.to_nat a = im_disk s !! Z.to_nat a) as Hlow.
  { intros a Ha. unfold put_inode. rewrite list_lookup_insert_ne by lia. apply write_block. lia. }
  split; cbn [im_disk freeblock freeinode]; rewrite ?length_insert, ?view_put by done.
  - apply image_put; [done|done|apply Fk'].
  - change 1%nat with (Z.to_nat 1). rewrite Hlow by lia. apply (bu_sb _ _ B).
  - change 2%nat with (Z.to_nat 2). rewrite Hlow by lia. apply (bu_log _ _ B).
  - apply (bu_inode _ _ B).
  - apply (bu_max _ _ B).
  - intros j tj cj Hj. destruct (decide (j = i)) as [->|Hne].
    + rewrite list_lookup_insert_eq in Hj by done. injection Hj as <- <-. apply write_file.
    + rewrite list_lookup_insert_ne in Hj by done. by apply write_other.
  - intros j k Hj Hk Hne. by apply write_apart.
  - exact write_exact.
  - apply Forall_insert; [apply (bu_types _ _ B)|]. pose proof (bu_types _ _ B) as Ht. by eapply (Forall_lookup_1 _ _ _ (ty, c)) in Ht.
  - intros j Hj Hf'. rewrite put_other; [|done|done|by apply view_ok|done|apply Fk'|done|lia]. rewrite write_dinode by done. by apply (bu_free _ _ B).
Qed.
End appended.

Lemma img_eta s : mkImg (im_disk s) (freeinode s) (freeblock s) = s.
Proof. by destruct s. Qed.

Lemma iappend_ok s fl i ty c p : built s fl -> fl !! i = Some (ty, c) -> Forall is_byte p ->
  wpe (iappend (Z.of_nat i + 1) p) (fun _ s' => built s' (<[i := (ty, c ++ p)]> fl)) gives_up s.
Proof.
  intros B Hf Hp. pose proof (lookup_lt_Some _ _ _ Hf) as Hil. pose proof (bu_max _ _ B) as Hmax. assert (0 <= Z.of_nat i + 1 < NINODES) as Hi by lia.
  pose proof (bu_files _ _ B i ty c Hf) as [Hd Fk Hs Hh Hby Ht]. rewrite <- (img_eta s). unfold iappend.
  apply wpe_bind_wp. eapply wp_rinode; [apply (bu_image _ _ B)|done|]. rewrite <- (view_dinode _ (freeblock s)) by done.
  assert (di_size (dinode_at (view (im_disk s) (freeblock s)) (Z.of_nat i + 1)) = Z.of_nat (length c)) as Es by (by rewrite Hd).
  rewrite Es. eapply wpe_bind, wpe_mono; [apply (iappend_loop_ok (freeinode s)); [apply (bu_image _ _ B)|exact Fk|lia|done| |]| |done].
  - destruct (decide (Z.of_nat (length c) mod Z.of_nat BSIZE = 0)) as [?|E]; [by left|right; right]. apply Hh.
    + change (0 / Z.of_nat BSIZE) with 0. apply Z.div_pos; [lia|done].
    + pose proof (Z.div_mod (Z.of_nat (length c)) (Z.of_nat BSIZE) ltac:(done)). pose proof (Z.mod_pos_bound (Z.of_nat (length c)) (Z.of_nat BSIZE) eq_refl). lia.
  - right. apply io_fuel_ok; lia.
  - intros [din' off'] s' (Eo & Hle & d' & n' & -> & I' & _ & Ed & W). cbn [fst snd] in *. rewrite Eo in *. apply wpe_wp.
    eapply wp_winode; [exact I'|done|].
    assert (set_size (Z.of_nat (length c) + Z.of_nat (length p)) din' = grown ty c p (di_addrs din')) as -> by (rewrite Ed, Hd; done).
    by apply built_append.
Qed.

(** *** A new file *)

Lemma ialloc_ok s fl ty : built s fl -> 1 + Z.of_nat (length fl) < NINODES -> short ty ->
  wp (ialloc ty) (fun inum s' => inum = Z.of_nat (length fl) + 1 /\ built s' (fl ++ [(ty, [])])) s.
Proof.
  intros B Hmax Hty. pose proof (bu_image _ _ B) as I. set (i := Z.of_nat (length fl) + 1). set (x := mkDinode ty 0 0 1 0 (replicate 13 0)).
  assert (0 <= i < NINODES) as Hi by lia. destruct (is_inum_mk i Hi) as [Hii Hb].
  unfold ialloc. apply wp_bind, wp_get. apply wp_bind, wp_modify. rewrite (bu_inode _ _ B). replace (1 + Z.of_nat (length fl)) with i by lia.
  apply wp_bind. eapply wp_winode; [exact I|done|]. fold x. apply wp_ret. split; [done|]. set (d := im_disk s) in *. set (n := freeblock s) in *.
  pose proof (view_layout d n I) as Ly. pose proof (view_geometry d n I) as G. pose proof (view_ok d n I) as Hok.
  assert (dinode_ok x) as Hx by (split; cbn; try (unfold short, uint; lia); [done|change (Forall uint (replicate 13 0)); by apply Forall_replicate]).
  assert (dinode_at (put_inode mksb i x (view d n)) i = x) as Ex by (by apply put_inode_eq).
  assert (forall j, (j < length fl)%nat -> dinode_at (put_inode mksb i x (view d n)) (Z.of_nat j + 1) = dinode_at (view d n) (Z.of_nat j + 1)) as Eo.
  { intros j Hj. apply put_other; done || lia. }
  assert (forall j, (j < length fl)%nat -> file_ok (view d n) (di_addrs (dinode_at (view d n) (Z.of_nat j + 1)))) as Fo.
  { intros j Hj. destruct (lookup_lt_is_Some_2 fl j Hj) as [[tj cj] Ej]. exact (fi_ok _ _ _ _ (bu_files _ _ B j tj cj Ej)). }
  split; cbn [im_disk freeblock freeinode]; rewrite ?length_app, ?view_put by done.
  - by apply image_put.
  - unfold put_inode. rewrite list_lookup_insert_ne by lia. apply (bu_sb _ _ B).
  - unfold put_inode. rewrite list_lookup_insert_ne by lia. apply (bu_log _ _ B).
  - cbn [length]. lia.
  - cbn [length]. lia.
  - intros j tj cj Hj. apply lookup_app_Some in Hj as [Hj|[Hl Hj]].
    + apply file_is_other; [done..|pose proof (lookup_lt_Some _ _ _ Hj); lia|pose proof (lookup_lt_Some _ _ _ Hj); lia|]. by apply (bu_files _ _ B).
    + apply list_lookup_singleton_Some in Hj as [Hj [= <- <-]]. replace (Z.of_nat j + 1) with i by lia.
      apply file_is_new; [done|done|done|done|done|done|done|apply (file_ok_empty mksb)|by vm_compute| | |].
      * intros bn H1 H2. cbn [length] in H2. change (0 / Z.of_nat BSIZE) with 0 in H1. unfold BSIZE in *. lia.
      * intros o Ho. cbn [length] in Ho. lia.
      * intros o _ H0. by rewrite no_addrs in H0.
  - intros j k Hj Hk Hne. cbn [length] in *. destruct (decide (j = length fl)) as [->|Hj']; [fold i; rewrite Ex; intros a Ha; by apply no_blocks in Ha|].
    destruct (decide (k = length fl)) as [->|Hk']; [fold i; rewrite Ex; intros a _; apply no_blocks|].
    rewrite !Eo by lia. apply put_apart; [done..|apply Fo; lia|apply Fo; lia|]. apply (bu_apart _ _ B); lia.
  - intros a Ha. destruct (bu_exact _ _ B a Ha) as (j & Hj & Hhb). exists j. cbn [length]. split; [lia|]. rewrite Eo by done. apply put_has; [done..|by apply Fo|done].
  - apply Forall_app. split; [apply (bu_types _ _ B)|]. by constructor.
  - intros j Hj Hf. cbn [length] in Hf. rewrite put_other by (done || lia). apply (bu_free _ _ B); [done|lia].
Qed.

(** ** The program *)

Lemma append_file_ok fuel : forall s fl i ty c content, built s fl -> fl !! i = Some (ty, c) -> Forall is_byte content -> (length content <= fuel)%nat ->
  wpe (append_file fuel (Z.of_nat i + 1) content) (fun _ s' => built s' (<[i := (ty, c ++ content)]> fl)) gives_up s.
Proof.
  induction fuel as [|fuel IH]; intros s fl i ty c content B Hf Hby Hl;
    (destruct content as [|x content]; [apply wpe_wp, wp_ret; rewrite app_nil_r; by rewrite list_insert_id|]); [simpl in Hl; lia|].
  cbn [append_file]. eapply wpe_bind, wpe_mono; [apply (iappend_ok s fl i ty c (take BSIZE (x :: content))); [done..|by apply Forall_take]| |done].
  intros [] s' B'. eapply wpe_mono; [eapply (IH s' _ i ty (c ++ take BSIZE (x :: content))); [exact B'|..]| |done].
  - apply list_lookup_insert_eq. by eapply lookup_lt_Some.
  - by apply Forall_drop.
  - rewrite length_drop. unfold BSIZE. cbn [length] in *. lia.
  - intros [] s2. rewrite list_insert_insert_eq, <- app_assoc, take_drop. done.
Qed.

Definition strip (name : list Z) : list Z := match name with 95 :: name' => name' | _ => name end.

(** The directory entries of the files, from inode [k] on. *)
Fixpoint dirents (k : Z) (files : list (list Z * list Z)) : list Z :=
  match files with [] => [] | f :: files' => dirent k (strip f.1) ++ dirents (k + 1) files' end.
Definition root_dir (files : list (list Z * list Z)) : list Z :=
  dirent ROOTINO (str ".") ++ dirent ROOTINO (str "..") ++ dirents 2 files.

Definition input_ok (files : list (list Z * list Z)) : Prop := Forall (fun f => Forall is_byte f.1 /\ Forall is_byte f.2) files.

Lemma add_file_ok s r fs name content : built s ((T_DIR, r) :: fs) -> Forall is_byte name -> Forall is_byte content -> 2 + Z.of_nat (length fs) < NINODES ->
  wpe (add_file ROOTINO (name, content))
    (fun _ s' => built s' ((T_DIR, r ++ dirent (Z.of_nat (length fs) + 2) (strip name)) :: fs ++ [(T_FILE, content)])) gives_up s.
Proof.
  intros B Hn Hc Hmax. unfold add_file. case_bool_decide; [by right|]. fold (strip name). assert (Forall is_byte (strip name)) as Hs.
  { unfold strip. destruct Hn as [|x l]; [constructor|]. repeat (case_match; try done; try by constructor). }
  apply wpe_bind_wp. eapply wp_mono; [apply (ialloc_ok s _ T_FILE B); [cbn [length]; lia|done]|]. intros inum s1 [-> B1].
  cbn [length app] in *. replace (Z.of_nat (S (length fs)) + 1) with (Z.of_nat (length fs) + 2) by lia.
  eapply wpe_bind, wpe_mono; [apply (iappend_ok s1 _ 0 T_DIR r _ B1 eq_refl); by apply dirent_bytes| |done].
  intros [] s2 B2. cbn [insert list_insert] in B2. replace (append_file (length content) (Z.of_nat (length fs) + 2) content)
    with (append_file (length content) (Z.of_nat (S (length fs)) + 1) content) by (f_equal; lia).
  eapply wpe_mono; [apply (append_file_ok (length content) s2 _ (S (length fs)) T_FILE [] content B2); [|done|done]| |done].
  - change ((fs ++ [(T_FILE, [])]) !! length fs = Some (T_FILE, [] : list Z)). rewrite lookup_app_r by lia. by rewrite Nat.sub_diag.
  - intros [] s3 B3. change (built s3 ((T_DIR, r ++ dirent (Z.of_nat (length fs) + 2) (strip name)) :: <[length fs := (T_FILE, content)]> (fs ++ [(T_FILE, [])]))) in B3.
    rewrite insert_app_r_alt, Nat.sub_diag in B3 by lia. exact B3.
Qed.

Lemma add_files_ok files : forall s r fs, built s ((T_DIR, r) :: fs) -> input_ok files -> 1 + Z.of_nat (length fs) + Z.of_nat (length files) < NINODES ->
  wpe (add_files ROOTINO files)
    (fun _ s' => built s' ((T_DIR, r ++ dirents (Z.of_nat (length fs) + 2) files) :: fs ++ map (fun f => (T_FILE, f.2)) files)) gives_up s.
Proof.
  induction files as [|[name content] files IH]; intros s r fs B Hin Hmax.
  { apply wpe_wp, wp_ret. cbn [dirents map]. by rewrite !app_nil_r. }
  apply Forall_cons in Hin as [[Hn Hc] Hin]. cbn [fst snd length] in *. cbn [add_files].
  eapply wpe_bind, wpe_mono; [apply (add_file_ok s r fs); [done..|lia]| |done]. intros [] s1 B1.
  eapply wpe_mono; [apply (IH _ _ _ B1 Hin); rewrite length_app; cbn [length]; lia| |done]. intros [] s2. cbn [dirents map fst snd].
  rewrite <- !app_assoc. cbn [app]. rewrite length_app. cbn [length]. by replace (Z.of_nat (length fs + 1) + 2) with (Z.of_nat (length fs) + 2 + 1) by lia.
Qed.

(** The empty image. *)
Lemma zeroes_ok fi (Q : unit -> img -> Prop) n : Q tt (mkImg (replicate (Z.to_nat FSSIZE) zero_block) fi n) ->
  wp (for_loop (Z.to_nat FSSIZE) 0 (fun i => wsect i zero_block)) Q (mkImg [] fi n).
Proof.
  intros HQ. eapply wp_mono; [apply (wp_for_loop (fun i s => 0 <= i /\ s = mkImg (replicate (Z.to_nat i) zero_block) fi n))|].
  - done.
  - intros i s _ [Hi ->]. apply wp_modify. split; [lia|]. cbn [im_disk freeinode freeblock]. rewrite length_replicate.
    replace (Z.to_nat i + 1 - Z.to_nat i)%nat with 1%nat by lia. rewrite <- replicate_add. f_equal.
    rewrite list_insert_id; [f_equal; lia|]. apply lookup_replicate_2. lia.
  - intros [] s [_ ->]. exact HQ.
Qed.

Lemma sb_block_ok : block_ok sb_block /\ sb_of_block sb_block = mksb.
Proof. split; [|vm_compute; reflexivity]. apply block_ok_splice; [apply zero_block_ok| |vm_compute; lia]. vm_compute. repeat constructor; vm_compute; congruence. Qed.

Lemma zero_dinode_type o : (o + DINODE_SIZE <= BSIZE)%nat -> di_type (get_dinode o zero_block) = 0.
Proof.
  intros Ho. unfold get_dinode, DINODE_SIZE in *. cbn [di_type]. unfold get_u16. assert (slice o 2 zero_block = replicate 2 0) as ->; [|done].
  unfold slice, zero_block. by rewrite drop_replicate, take_replicate, min_l by lia.
Qed.

Lemma built_empty : built (mkImg (<[1%nat := sb_block]> (replicate (Z.to_nat FSSIZE) zero_block)) 1 nmeta) [].
Proof.
  split; cbn [im_disk freeblock freeinode length]; try done.
  - split; [by rewrite length_insert, length_replicate|apply Forall_insert; [by apply Forall_replicate, zero_block_ok|apply sb_block_ok]|vm_compute; split; congruence|].
    intros b Hb. change nmeta with 59 in Hb. rewrite list_lookup_insert_ne by lia. apply lookup_replicate_2. lia.
  - intros i j Hi. cbn in Hi. lia.
  - intros a Ha. lia.
  - intros j Hj _. rewrite view_dinode by done. destruct (is_inum_mk j Hj) as [_ Hb]. unfold dinode_at.
    rewrite list_lookup_total_insert_ne by lia. rewrite lookup_total_replicate_2 by (unfold FSSIZE; lia). apply zero_dinode_type, dip_off_fits.
Qed.

(** *** The finished image *)

(** The root directory: the entries, then zeros up to its size, a multiple of the block size. *)
Record root_is (v : list block) (c : list Z) : Prop := {
  ri_din : dinode_at v ROOTINO =
    mkDinode T_DIR 0 0 1 ((Z.of_nat (length c) / Z.of_nat BSIZE + 1) * Z.of_nat BSIZE) (di_addrs (dinode_at v ROOTINO));
  ri_ok : file_ok v (di_addrs (dinode_at v ROOTINO));
  ri_hole : Z.of_nat (length c) mod Z.of_nat BSIZE <> 0 -> no_hole v (di_addrs (dinode_at v ROOTINO)) 0 (di_size (dinode_at v ROOTINO));
  ri_bytes : forall o, 0 <= o < Z.of_nat (length c) -> fbyte v (di_addrs (dinode_at v ROOTINO)) o = c !!! Z.to_nat o;
  ri_tail : forall o, Z.of_nat (length c) <= o < di_size (dinode_at v ROOTINO) -> o < MAXFILE * Z.of_nat BSIZE ->
    baddr v (di_addrs (dinode_at v ROOTINO)) (o / Z.of_nat BSIZE) <> 0 -> fbyte v (di_addrs (dinode_at v ROOTINO)) o = 0;
}.

(** An image that the kernel can mount, with the blocks below [n] in use, the
    root directory [root] and the files [files], whose blocks are apart. *)
Record mountable (v : list block) (n : Z) (root : list Z) (files : list (list Z)) : Prop := {
  mo_recovers : recovers_to mksb v v;
  mo_layout : layout mksb (length v);
  mo_n : nmeta <= n <= FSSIZE;
  mo_used : forall c, 0 <= c < FSSIZE -> used v c = (c <? n);
  mo_root : root_is v root;
  mo_files : forall i c, files !! i = Some c -> file_is v (Z.of_nat i + 2) T_FILE c;
  mo_apart : forall i j, (i <= length files)%nat -> (j <= length files)%nat -> i <> j ->
    apart v (di_addrs (dinode_at v (Z.of_nat i + 1))) (di_addrs (dinode_at v (Z.of_nat j + 1)));
  mo_exact : forall a, nmeta <= a < n -> exists i, (i <= length files)%nat /\ has_block v (di_addrs (dinode_at v (Z.of_nat i + 1))) a;
  mo_free : forall j, 0 <= j < NINODES -> j = 0 \/ Z.of_nat (length files) + 1 < j -> di_type (dinode_at v j) = 0;
}.

Section finish.
Context (s : img) (root : list Z) (files : list (list Z)).
Hypothesis B : built s ((T_DIR, root) :: map (pair T_FILE) files).
Abbreviation d := (im_disk s).
Abbreviation n := (freeblock s).
Abbreviation ad := (di_addrs (dinode_at (view d n) ROOTINO)).
Definition rounded : dinode := mkDinode T_DIR 0 0 1 ((Z.of_nat (length root) / Z.of_nat BSIZE + 1) * Z.of_nat BSIZE) ad.
Abbreviation v := (put_inode mksb ROOTINO rounded (view d n)).

Let I : image d n := bu_image _ _ B.
Let Ly : layout mksb (length (view d n)) := view_layout _ _ I.
Let G : geometry mksb (length (view d n)) := view_geometry _ _ I.

Lemma root_file : file_is (view d n) ROOTINO T_DIR root.
Proof. exact (bu_files _ _ B 0 T_DIR root eq_refl). Qed.

Lemma rounded_ok : dinode_ok rounded.
Proof.
  pose proof root_file as [_ Fk Hs _ _ _]. split; cbn [rounded di_type di_major di_minor di_nlink di_size di_addrs]; [unfold short, T_DIR; lia|unfold short; lia..| | |].
  - unfold uint. unfold MAXFILE, NDIRECT, NINDIRECT in Hs. pose proof (Z.div_pos (Z.of_nat (length root)) (Z.of_nat BSIZE)).
    pose proof (Z.mul_div_le (Z.of_nat (length root)) (Z.of_nat BSIZE) eq_refl). unfold BSIZE in *. lia.
  - apply Fk.
  - apply (file_uint mksb (view d n)); [done..|by apply view_size|done].
Qed.

Lemma root_finished : root_is v root.
Proof.
  pose proof root_file as [_ Fk Hs Hh Hby Ht]. destruct (put_file (view d n) ROOTINO rounded Ly G ltac:(unfold ROOTINO, NINODES; lia) (fk_len _ _ _ Fk) _ _ _ Fk Hs Hh Hby Ht) as (Fk' & Hh' & Hb' & Ht').
  assert (dinode_at v ROOTINO = rounded) as E by (apply put_inode_eq; [done|done|by apply view_ok|by vm_compute|apply rounded_ok]).
  split; rewrite ?E; cbn [rounded di_addrs di_size]; try done.
  - intros Hm bn H1 H2. apply Hh'; [done|]. pose proof (Z.div_mod (Z.of_nat (length root)) (Z.of_nat BSIZE) ltac:(done)).
    pose proof (Z.mod_pos_bound (Z.of_nat (length root)) (Z.of_nat BSIZE) eq_refl). unfold BSIZE in *. lia.
  - intros o Ho Hm. apply Ht'; lia.
Qed.

Lemma file_addrs_ok i : (i <= length files)%nat -> file_ok (view d n) (di_addrs (dinode_at (view d n) (Z.of_nat i + 1))).
Proof.
  intros Hi. destruct (lookup_lt_is_Some_2 ((T_DIR, root) :: map (pair T_FILE) files) i) as [[ty c] E]; [cbn [length]; rewrite length_map; lia|].
  exact (fi_ok _ _ _ _ (bu_files _ _ B i ty c E)).
Qed.

Lemma finished_addrs i : (i <= length files)%nat -> di_addrs (dinode_at v (Z.of_nat i + 1)) = di_addrs (dinode_at (view d n) (Z.of_nat i + 1)).
Proof.
  intros Hi. pose proof (bu_max _ _ B) as Hmax. cbn [length] in Hmax. rewrite length_map in Hmax. pose proof (view_ok d n I) as Hok.
  destruct (decide (i = 0%nat)) as [->|Hne].
  - change (Z.of_nat 0 + 1) with ROOTINO. rewrite put_inode_eq; [done|done|done|done|by vm_compute|apply rounded_ok].
  - rewrite put_other; [done|done|done|done|unfold ROOTINO, NINODES; lia|apply (fk_len _ _ _ (fi_ok _ _ _ _ root_file))|lia|unfold ROOTINO; lia].
Qed.

Lemma finished : mountable v n root files.
Proof.
  pose proof root_file as [_ Fk Hs Hh Hby Ht]. pose proof (view_ok d n I) as Hok. assert (0 <= ROOTINO < NINODES) as Hr by (unfold ROOTINO, NINODES; lia).
  destruct (is_inum_mk ROOTINO Hr) as [Hri Hrb]. assert (length v = Z.to_nat FSSIZE) as Hl by (unfold put_inode; rewrite length_insert; apply view_len, I).
  assert (forall a, (a < 32)%nat -> v !! a = d !! a) as Hlow.
  { intros a Ha. unfold put_inode, view. rewrite !list_lookup_insert_ne by lia. done. }
  split.
  - apply (recovers_self mksb v v zero_block); [|rewrite Hl; by vm_compute|rewrite Hl; apply mk_geometry| | |by vm_compute|done].
    + rewrite <- view_put by done. apply view_ok, image_put; [done|done|apply Fk].
    + exists sb_block. rewrite Hlow by lia. split; [apply (bu_sb _ _ B)|apply sb_block_ok].
    + change (Z.to_nat (sb_logstart mksb)) with 2%nat. rewrite Hlow by lia. apply (bu_log _ _ B).
  - rewrite Hl. apply mk_layout.
  - apply I.
  - intros c Hc. unfold put_inode. rewrite (meta_used mksb) by (done || (change (sb_bmapstart mksb) with 58; lia)). by apply view_used.
  - apply root_finished.
  - intros i c Hi. pose proof (lookup_lt_Some _ _ _ Hi) as Hil. pose proof (bu_max _ _ B) as Hmax. cbn [length] in Hmax. rewrite length_map in Hmax.
    replace (Z.of_nat i + 2) with (Z.of_nat (S i) + 1) by lia. apply file_is_other; [done|done|done|done|apply Fk|lia|unfold ROOTINO; lia|].
    apply (bu_files _ _ B). change (map (pair T_FILE) files !! i = Some (T_FILE, c)). by rewrite list_lookup_fmap, Hi.
  - intros i j Hi Hj Hne. rewrite !finished_addrs by done. apply put_apart; [done|done|done|apply Fk|by apply file_addrs_ok|by apply file_addrs_ok|].
    apply (bu_apart _ _ B); [cbn [length]; rewrite length_map; lia..|done].
  - intros a Ha. destruct (bu_exact _ _ B a Ha) as (j & Hj & Hhb). cbn [length] in Hj. rewrite length_map in Hj. exists j. split; [lia|].
    rewrite finished_addrs by lia. apply put_has; [done|done|done|apply Fk|apply file_addrs_ok; lia|done].
  - intros j Hj Hf. rewrite put_other; [|done|done|done|done|apply Fk|done|unfold ROOTINO; lia]. apply (bu_free _ _ B); [done|].
    cbn [length]. rewrite length_map. lia.
Qed.
End finish.

Lemma mkfs_ok files : input_ok files -> 2 + Z.of_nat (length files) <= NINODES ->
  wpe (mkfs files) (fun _ s => mountable (im_disk s) (freeblock s) (root_dir files) (map snd files)) gives_up img0.
Proof.
  intros Hin Hmax. unfold mkfs. apply wpe_bind_wp, wp_modify, wpe_bind_wp, zeroes_ok. cbn [freeinode img0].
  apply wpe_bind_wp, wp_wsect; [cbn [im_disk]; rewrite length_replicate; unfold FSSIZE; lia|]. cbn [im_disk freeinode freeblock]. change (Z.to_nat 1) with 1%nat.
  apply wpe_bind_wp. eapply wp_mono; [apply (ialloc_ok _ [] T_DIR built_empty); [by vm_compute|unfold short, T_DIR; lia]|]. intros r s1 [-> B1].
  apply wpe_bind_wp, wp_ret. change (Z.of_nat (length (@nil (Z * list Z))) + 1) with (Z.of_nat 0 + 1).
  eapply wpe_bind, wpe_mono; [apply (iappend_ok s1 _ 0 T_DIR [] _ B1 eq_refl); apply dirent_bytes; by repeat constructor| |done]. intros [] s2 B2.
  eapply wpe_bind, wpe_mono; [eapply (iappend_ok s2 _ 0 T_DIR _ _ B2 eq_refl); apply dirent_bytes; by repeat constructor| |done]. intros [] s3 B3.
  eapply wpe_bind, wpe_mono; [eapply (add_files_ok files s3 _ [] B3 Hin); cbn [length]; lia| |done]. intros [] s4 B4.
  assert (built s4 ((T_DIR, root_dir files) :: map (pair T_FILE) (map snd files))) as B.
  { rewrite map_map. unfold root_dir. rewrite app_assoc. exact B4. }
  clear B1 B2 B3 B4. assert (0 <= ROOTINO < NINODES) as Hr by (unfold ROOTINO, NINODES; lia). pose proof (bu_image _ _ B) as I.
  rewrite <- (img_eta s4). apply wpe_wp, wp_bind. eapply wp_rinode; [exact I|done|]. apply wp_bind. eapply wp_winode; [exact I|done|].
  apply wp_bind, wp_get. cbn [freeblock]. pose proof (ig_n _ _ I) as Hn. change nmeta with 59 in Hn. unfold balloc.
  rewrite (proj2 (Z.ltb_lt _ _)) by (unfold BSIZE, FSSIZE in *; lia). cbn [negb].
  apply wp_wsect; [cbn [im_disk]; unfold put_inode; rewrite length_insert, (ig_len _ _ I); unfold FSSIZE; vm_compute; lia|]. cbn [im_disk freeblock freeinode].
  change (Z.of_nat 0 + 1) with ROOTINO. rewrite <- !(view_dinode (im_disk s4) (freeblock s4)) by done.
  pose proof (finished s4 (root_dir files) (map snd files) B) as Fin. rewrite <- view_put in Fin by done.
  pose proof (fi_din _ _ _ _ (root_file s4 (root_dir files) (map snd files) B)) as Ed.
  assert (rounded s4 (root_dir files) = set_size ((di_size (dinode_at (view (im_disk s4) (freeblock s4)) ROOTINO) / Z.of_nat BSIZE + 1) * Z.of_nat BSIZE)
    (dinode_at (view (im_disk s4) (freeblock s4)) ROOTINO)) as Er.
  { unfold rounded. rewrite Ed. done. }
  rewrite <- Er. exact Fin.
Qed.

(** C10 The image that [mkfs] writes can be mounted and holds the files. Unless it
    gives up (the disk is full, or an assertion on a name or a file size
    fails), the image has the super block and an empty log, so that recovery takes it as it
    is; the bitmap marks exactly the blocks handed out; every file given is there, at its
    inode, with exactly its bytes, through direct and indirect blocks;
    the root directory lists the files; and no two files share a block. *)
Theorem mkfs_spec files : input_ok files -> 2 + Z.of_nat (length files) <= NINODES ->
  wpe (mkfs files) (fun _ s => mountable (im_disk s) (freeblock s) (root_dir files) (map snd files)) gives_up img0.
Proof. apply mkfs_ok. Qed.

Definition demo_files : list (list Z * list Z) := [(str "_cat", replicate 700 65); (str "README", str "xv6")].

Lemma mkfs_spec_witness :
  wpe (mkfs demo_files) (fun _ s => file_is (im_disk s) 3 T_FILE (str "xv6")) gives_up img0.
Proof.
  eapply wpe_mono; [apply (mkfs_spec demo_files)| |done].
  - repeat constructor; done.
  - by vm_compute.
  - intros [] s M. exact (mo_files _ _ _ _ M 1 _ eq_refl).
Defined.
