(* ===== verification/Mount.v ===== *)
(** * From [mkfs] to [namei] and [readi].

    An image that [mkfs] built is booted: the log is recovered, the super block
    read, and a path is looked up and its file read, through inode cache,
    block map, log and buffer cache. The theorem of this file composes those of
    [Mkfs], [Log], [Dir] and [Content]. *)

From Stdlib Require Import String.
From stdpp Require Import gmap.
From S2P Require Import Prelude CString Params Bio Log Trans Fs Balloc Inode Content Blockmap Dir Writei Volume Trunc Links Rest Mkfs.
Local Open Scope Z_scope.

#[local] Abbreviation dinode_at := (dinode_at mksb).
#[local] Abbreviation file_ok := (file_ok mksb).
#[local] Abbreviation used := (used mksb).
#[local] Abbreviation live := (live mksb).

(** ** Recovery leaves the files alone *)

Section agree.
Context (v k : list block).
Context (Heq : home_eq mksb v k).

Lemma ag_block a : 32 <= a -> v !!! Z.to_nat a = k !!! Z.to_nat a.
Proof using Heq.
  intros Ha. rewrite !list_lookup_total_alt, Heq; [done|lia|]. unfold in_log. change (sb_logstart mksb) with 2. change (sb_nlog mksb) with 30. lia.
Qed.

Lemma ag_dinode n : 0 <= n < NINODES -> dinode_at v n = dinode_at k n.
Proof using Heq. intros Hn. destruct (is_inum_mk n Hn) as [_ Hb]. unfold Inode.dinode_at. by rewrite ag_block by lia. Qed.

Lemma ag_used c : 0 <= c -> used v c = used k c.
Proof using Heq.
  intros Hc. unfold Balloc.used. rewrite ag_block; [done|]. unfold BBLOCK. pose proof (Z.div_pos c BPB Hc eq_refl). change (sb_bmapstart mksb) with 58. lia.
Qed.

Lemma data_high a : is_data mksb a -> 59 <= a.
Proof using. unfold is_data. change (datastart mksb) with 59. lia. Qed.

Lemma ag_live a : live v a <-> live k a.
Proof using Heq. split; intros [Hd Hu]; (split; [done|]); pose proof (data_high a Hd); [rewrite <- ag_used by lia|rewrite ag_used by lia]; done. Qed.

Section file.
Context (ad : list Z) (Fk : file_ok k ad).

Lemma ag_baddr bn : baddr v ad bn = baddr k ad bn.
Proof using Heq Fk.
  unfold baddr. destruct (_ <? _); [done|]. destruct (Z.eqb_spec (indirect ad) 0) as [|H0]; [done|].
  pose proof (data_high _ (proj1 (fk_ind _ _ _ Fk H0))). by rewrite ag_block by lia.
Qed.

Lemma ag_file : file_ok v ad.
Proof using Heq Fk.
  destruct Fk as [Hl I V J]. split; [done|intros H0; by apply ag_live, I|..].
  - intros bn Hbn. rewrite ag_baddr. intros H0. destruct (V bn Hbn H0). split; [by apply ag_live|done].
  - intros bn bn' Hbn Hbn'. rewrite !ag_baddr. by apply J.
Qed.

Lemma ag_hole lo hi : no_hole k ad lo hi -> no_hole v ad lo hi.
Proof using Heq Fk. intros H bn H1 H2. rewrite ag_baddr. by apply H. Qed.

Lemma ag_fbyte o : 0 <= o < MAXFILE * Z.of_nat BSIZE -> baddr k ad (o / Z.of_nat BSIZE) <> 0 -> fbyte v ad o = fbyte k ad o.
Proof using Heq Fk.
  intros Ho H0. unfold fbyte. rewrite ag_baddr, ag_block; [done|].
  pose proof (data_high _ (proj1 (proj1 (fk_live _ _ _ Fk _ (block_of o Ho) H0)))). lia.
Qed.
End file.

(** The block of a byte below the size is there. *)
Lemma no_hole_byte ad size o : no_hole k ad 0 size -> 0 <= o < size -> baddr k ad (o / Z.of_nat BSIZE) <> 0.
Proof using.
  intros H Ho. apply H; [change (0 / Z.of_nat BSIZE) with 0; by apply Z.div_pos; [lia|]|]. pose proof (Z.mul_div_le o (Z.of_nat BSIZE) eq_refl). lia.
Qed.

Lemma ag_file_is n ty c : 0 <= n < NINODES -> file_is k n ty c -> file_is v n ty c.
Proof using Heq.
  intros Hn [F1 F2 F3 F4 F5 F6]. split; rewrite ?(ag_dinode n Hn); [done|by apply ag_file|done|by apply ag_hole|..].
  - intros o Ho. rewrite ag_fbyte; [by apply F5|done|lia|]. by eapply no_hole_byte.
  - intros o Ho. rewrite (ag_baddr _ F2). intros H0. rewrite ag_fbyte; [by apply F6|done|lia|done].
Qed.

Lemma ag_root_is c : Z.of_nat (length c) mod Z.of_nat BSIZE <> 0 -> (Z.of_nat (length c) / Z.of_nat BSIZE + 1) * Z.of_nat BSIZE <= MAXFILE * Z.of_nat BSIZE ->
  root_is k c -> root_is v c.
Proof using Heq.
  intros Hm Hs [F1 F2 F3 F4 F5]. assert (0 <= ROOTINO < NINODES) as Hn by (unfold ROOTINO, NINODES; lia).
  assert (di_size (dinode_at k ROOTINO) = (Z.of_nat (length c) / Z.of_nat BSIZE + 1) * Z.of_nat BSIZE) as Es by (by rewrite F1).
  pose proof (Z.div_mod (Z.of_nat (length c)) (Z.of_nat BSIZE) ltac:(done)) as Hdm.
  pose proof (Z.mod_pos_bound (Z.of_nat (length c)) (Z.of_nat BSIZE) eq_refl) as Hmb.
  split; rewrite ?(ag_dinode _ Hn); [done|by apply ag_file|intros _; by apply ag_hole, F3|..].
  - intros o Ho. rewrite ag_fbyte; [by apply F4|done|lia|]. eapply no_hole_byte; [by apply F3|]. lia.
  - intros o Ho Ho'. rewrite (ag_baddr _ F2). intros H0. rewrite ag_fbyte; [by apply F5|done|lia|done].
Qed.
End agree.

(** ** The root directory *)

Fixpoint file_entries (k : Z) (files : list (list Z * list Z)) : list (list Z) :=
  match files with [] => [] | f :: files' => dirent k (strip f.1) :: file_entries (k + 1) files' end.
Definition root_entries (files : list (list Z * list Z)) : list (list Z) :=
  dirent ROOTINO (str ".") :: dirent ROOTINO (str "..") :: file_entries 2 files.

Lemma root_dir_concat files : root_dir files = concat (root_entries files).
Proof.
  unfold root_dir, root_entries. cbn [concat]. do 2 f_equal. generalize 2. induction files as [|f files IH]; intros k; cbn; [done|]. by rewrite <- IH.
Qed.

Lemma length_file_entries files : forall k, length (file_entries k files) = length files.
Proof. induction files as [|f files IH]; intros k; cbn; [done|]. by rewrite IH. Qed.

Lemma file_entries_lookup files : forall k i f, files !! i = Some f -> file_entries k files !! i = Some (dirent (k + Z.of_nat i) (strip f.1)).
Proof.
  induction files as [|g files IH]; intros k i f Hi; [done|]. destruct i as [|i].
  - injection Hi as ->. change (Some (dirent k (strip f.1)) = Some (dirent (k + 0) (strip f.1))). by rewrite Z.add_0_r.
  - change (file_entries (k + 1) files !! i = Some (dirent (k + Z.of_nat (S i)) (strip f.1))). rewrite (IH _ _ _ Hi). do 2 f_equal. lia.
Qed.

(** Pieces of the same length, laid out one after the other. *)
Lemma concat_slice {A} (ls : list (list A)) m i x : (forall l, l ∈ ls -> length l = m) -> ls !! i = Some x -> slice (m * i) m (concat ls) = x.
Proof.
  revert i. induction ls as [|l ls IH]; intros i Hm Hi; [done|]. assert (length l = m) as Hl by (apply Hm; left).
  unfold slice in *. destruct i as [|i]; cbn in *.
  - injection Hi as ->. rewrite Nat.mul_0_r, drop_0. by rewrite take_app_length' by done.
  - rewrite drop_app_ge by lia. replace (m * S i - length l)%nat with (m * i)%nat by lia. apply IH; [|done]. intros y Hy. apply Hm. by right.
Qed.

Lemma root_entries_length files e : e ∈ root_entries files -> length e = 16%nat.
Proof.
  unfold root_entries. rewrite !elem_of_cons. intros [->|[->|He]]; [apply length_dirent..|]. revert He. generalize 2.
  induction files as [|f files IH]; intros k; cbn; [by intros ?%elem_of_nil|]. rewrite elem_of_cons. intros [->|He]; [apply length_dirent|by eapply IH].
Qed.

Lemma length_root_dir files : length (root_dir files) = (16 * (length files + 2))%nat.
Proof.
  unfold root_dir. rewrite !length_app, !length_dirent. assert (forall k, length (dirents k files) = (16 * length files)%nat) as ->; [|lia].
  induction files as [|f files IH]; intros k; cbn [dirents length]; [done|]. rewrite length_app, length_dirent, IH. lia.
Qed.

Section root.
Context (v : list block) (files : list (list Z * list Z)).
Context (R : root_is v (root_dir files)) (Hmod : (Z.of_nat (length files) + 2) mod 32 <> 0) (Hmax : 2 + Z.of_nat (length files) <= NINODES).
#[local] Abbreviation d := (dinode_at v ROOTINO).

Lemma root_mod : Z.of_nat (length (root_dir files)) mod Z.of_nat BSIZE <> 0.
Proof using Hmod.
  clear Hmax R. rewrite length_root_dir. unfold BSIZE. replace (Z.of_nat (16 * (length files + 2))) with (16 * (Z.of_nat (length files) + 2)) by lia.
  change (Z.of_nat 512) with (16 * 32). rewrite Z.mul_mod_distr_l by lia. lia.
Qed.

Lemma root_size : 16 * (Z.of_nat (length files) + 2) <= di_size d /\ di_size d <= MAXFILE * Z.of_nat BSIZE /\ di_size d mod DIRENT_SIZE = 0.
Proof using R Hmax.
  clear Hmod. rewrite (ri_din _ _ R). cbn [di_size]. rewrite length_root_dir. unfold NINODES in Hmax.
  pose proof (Z.div_mod (Z.of_nat (16 * (length files + 2))) 512 ltac:(done)). pose proof (Z.mod_pos_bound (Z.of_nat (16 * (length files + 2))) 512 eq_refl).
  change (Z.of_nat BSIZE) with 512. change (MAXFILE * 512) with 71680. split; [lia|]. split; [lia|].
  unfold DIRENT_SIZE. change 512 with (32 * 16). rewrite Z.mul_assoc. by apply Z.mod_mul.
Qed.

Lemma root_byte o : 0 <= o < di_size d -> fbyte v (di_addrs d) o = if decide (o < Z.of_nat (length (root_dir files))) then root_dir files !!! Z.to_nat o else 0.
Proof using R Hmod Hmax.
  intros Ho. case_decide; [apply (ri_bytes _ _ R); lia|]. pose proof root_size. apply (ri_tail _ _ R); [lia|lia|].
  eapply no_hole_byte; [apply (ri_hole _ _ R), root_mod|done].
Qed.

Lemma root_entry i e : entries v d !! i = Some e -> root_entries files !! i = Some e \/ (length files + 2 <= i)%nat /\ de_inum e = 0.
Proof using R Hmod Hmax.
  pose proof root_size as (H1 & H2 & H3). intros He. pose proof (lookup_lt_Some _ _ _ He) as Hi. rewrite length_entries in Hi.
  assert (DIRENT_SIZE * Z.of_nat i < di_size d) as Hlt by (unfold DIRENT_SIZE in *; pose proof (Z.div_mod (di_size d) 16 ltac:(done)); lia).
  destruct (entries_lookup v d i ltac:(lia) H3 Hlt) as [E Hle]. rewrite E in He. apply (inj Some) in He. subst e. unfold DIRENT_SIZE in *.
  assert (forall j, (j < 16)%nat -> fbytes v (di_addrs d) (16 * Z.of_nat i) (Z.to_nat 16) !! j =
    Some (if decide (16 * Z.of_nat i + Z.of_nat j < Z.of_nat (length (root_dir files))) then root_dir files !!! Z.to_nat (16 * Z.of_nat i + Z.of_nat j) else 0)) as Hj.
  { intros j Hj. rewrite lookup_fbytes by lia. by rewrite root_byte by lia. }
  pose proof (length_fbytes v (di_addrs d) (16 * Z.of_nat i) (Z.to_nat 16)) as Hfl. revert Hfl Hj.
  generalize (fbytes v (di_addrs d) (16 * Z.of_nat i) (Z.to_nat 16)). intros fb Hfl Hj. clear E.
  rewrite length_root_dir in Hj. destruct (decide (i < length files + 2)%nat) as [Hlo|Hhi].
  - left. assert (i < length (root_entries files))%nat as Hl by (cbn; rewrite length_file_entries; lia).
    destruct (lookup_lt_is_Some_2 _ _ Hl) as [e Ee]. rewrite Ee. f_equal. rewrite <- (concat_slice _ 16 i e (root_entries_length files) Ee), <- root_dir_concat.
    apply list_eq. intros j. rewrite lookup_slice. case_decide as Hlt'; [|symmetry; apply lookup_ge_None_2; lia].
    rewrite Hj, decide_True by lia. replace (Z.to_nat (16 * Z.of_nat i + Z.of_nat j)) with (16 * i + j)%nat by lia.
    apply list_lookup_lookup_total_lt. rewrite length_root_dir. lia.
  - right. split; [lia|]. unfold de_inum, get_u16. assert (slice 0 2 fb = [0; 0]) as ->; [|done].
    apply list_eq. intros j. rewrite lookup_slice. case_decide as Hj'; [|symmetry; apply lookup_ge_None_2; cbn; lia].
    rewrite Hj, decide_False by lia. by destruct j as [|[|j]]; [..|lia].
Qed.
End root.

(** ** The mounted file system *)

Record mounted (v : list block) (files : list (list Z * list Z)) : Prop := {
  mt_root : root_is v (root_dir files);
  mt_files : forall i f, files !! i = Some f -> file_is v (Z.of_nat i + 2) T_FILE f.2;
  mt_free : forall j, 0 <= j < NINODES -> j = 0 \/ Z.of_nat (length files) + 1 < j -> di_type (dinode_at v j) = 0;
}.

(** The size of the root directory is rounded up to a block that [mkfs] allocated. *)
Definition files_fit (files : list (list Z * list Z)) : Prop :=
  2 + Z.of_nat (length files) <= NINODES /\ (Z.of_nat (length files) + 2) mod 32 <> 0.

Lemma mountable_mounted v k n files : files_fit files -> mountable k n (root_dir files) (map snd files) -> home_eq mksb v k -> mounted v files.
Proof.
  intros [Hmax Hmod] M Heq. split.
  - apply (ag_root_is v k Heq); [by apply root_mod| |apply M]. rewrite length_root_dir. unfold NINODES in Hmax.
    pose proof (Z.mul_div_le (Z.of_nat (16 * (length files + 2))) (Z.of_nat BSIZE) eq_refl) as H. change (Z.of_nat BSIZE) with 512 in *.
    change (MAXFILE * 512) with 71680. lia.
  - intros i f Hi. pose proof (lookup_lt_Some _ _ _ Hi). apply (ag_file_is v k Heq); [lia|]. apply (mo_files _ _ _ _ M).
    by rewrite list_lookup_fmap, Hi.
  - intros j Hj Hf. rewrite (ag_dinode v k Heq) by done. apply (mo_free _ _ _ _ M); [done|]. by rewrite length_map.
Qed.

(** The name under which a file is found. *)
Definition fname (f : list Z * list Z) : list Z := dname (strip f.1).

Section mounted.
Context (v : list block) (files : list (list Z * list Z)) (Hfit : files_fit files) (M : mounted v files).

Lemma root_entries_inv i e : root_entries files !! i = Some e -> exists n name, 1 <= n <= Z.of_nat (length files) + 1 /\ e = dirent n name.
Proof using.
  destruct i as [|[|i]].
  - intros [= <-]. exists 1, (str "."). split; [lia|done].
  - intros [= <-]. exists 1, (str ".."). split; [lia|done].
  - change (file_entries 2 files !! i = Some e -> exists n name, 1 <= n <= Z.of_nat (length files) + 1 /\ e = dirent n name). intros He.
    pose proof (lookup_lt_Some _ _ _ He) as Hi. rewrite length_file_entries in Hi. destruct (lookup_lt_is_Some_2 _ _ Hi) as [f Hf].
    rewrite (file_entries_lookup files 2 i f Hf) in He. exists (2 + Z.of_nat i), (strip f.1). split; [lia|]. by apply (inj Some) in He.
Qed.

Lemma mounted_linked n : 1 <= n <= Z.of_nat (length files) + 1 -> linked mksb v n.
Proof using Hfit M.
  intros Hn. destruct Hfit as [Hmax _]. split; [apply is_inum_mk; lia|]. destruct (decide (n = 1)) as [->|Hne].
  - pose proof (ri_din _ _ (mt_root _ _ M)) as E. change ROOTINO with 1 in E. rewrite E. done.
  - assert (Z.to_nat (n - 2) < length files)%nat as Hi by lia. destruct (lookup_lt_is_Some_2 _ _ Hi) as [f Hf].
    pose proof (fi_din _ _ _ _ (mt_files _ _ M _ _ Hf)) as E. replace (Z.of_nat (Z.to_nat (n - 2)) + 2) with n in E by lia. rewrite E. done.
Qed.

Lemma mounted_tree : tree_ok mksb v.
Proof using Hfit M.
  destruct Hfit as [Hmax Hmod]. split; [apply mounted_linked; unfold ROOTINO; lia|]. intros n [Hn Hl] Ht.
  change (0 <= n < NINODES) in Hn. destruct (decide (n = ROOTINO)) as [->|Hne].
  - pose proof (mt_root _ _ M) as R. pose proof (root_size v files R Hmax) as (S1 & S2 & S3).
    split; [apply R|lia|done|apply (ri_hole _ _ R), root_mod, Hmod|]. intros e [i He]%list_elem_of_lookup_1 H0.
    destruct (root_entry v files R Hmod Hmax i e He) as [Hr|[_ ?]]; [|done]. apply root_entries_inv in Hr as (n & name & Hb & ->).
    rewrite dirent_inum by (unfold NINODES in Hmax; lia). by apply mounted_linked.
  - exfalso. unfold ROOTINO in Hne. destruct (decide (2 <= n <= Z.of_nat (length files) + 1)) as [Hb|Hb].
    + assert (Z.to_nat (n - 2) < length files)%nat as Hi by lia. destruct (lookup_lt_is_Some_2 _ _ Hi) as [f Hf].
      pose proof (fi_din _ _ _ _ (mt_files _ _ M _ _ Hf)) as E. replace (Z.of_nat (Z.to_nat (n - 2)) + 2) with n in E by lia.
      rewrite E in Ht. done.
    + rewrite (mt_free _ _ M) in Ht; [done|done|lia].
Qed.

(** A file is found by its name, the first with that name. *)
Record first_named (i : nat) (f : list Z * list Z) : Prop := {
  fn_at : files !! i = Some f;
  fn_first : forall j g, (j < i)%nat -> files !! j = Some g -> fname g <> fname f;
  fn_dot : fname f <> str "." /\ fname f <> str "..";
}.

Lemma root_lookup i : (i < length files + 2)%nat -> entries v (dinode_at v ROOTINO) !! i = root_entries files !! i.
Proof using Hfit M.
  intros Hi. destruct Hfit as [Hmax Hmod]. pose proof (mt_root _ _ M) as R. pose proof (root_size v files R Hmax) as (S1 & S2 & S3).
  destruct (entries_lookup v (dinode_at v ROOTINO) i ltac:(lia) S3) as [E _]; [unfold DIRENT_SIZE; lia|].
  destruct (root_entry v files R Hmod Hmax i _ E) as [Hr|[? _]]; [by rewrite Hr|lia].
Qed.

Lemma mounted_find i f : first_named i f -> dir_find v (dinode_at v ROOTINO) (fname f) = Some ((i + 2)%nat, Z.of_nat i + 2).
Proof using Hfit M.
  intros [Ha Hf Hd]. pose proof (lookup_lt_Some _ _ _ Ha) as Hi. destruct Hfit as [Hmax _]. unfold NINODES in Hmax.
  assert (list_find (names (fname f)) (entries v (dinode_at v ROOTINO)) = Some ((i + 2)%nat, dirent (2 + Z.of_nat i) (strip f.1))) as E.
  { apply list_find_Some. split_and!.
    - rewrite root_lookup by lia. replace (i + 2)%nat with (S (S i)) by lia. by apply (file_entries_lookup files 2).
    - split; [rewrite dirent_inum; lia|apply dirent_name].
    - intros j e He Hj [_ En]. rewrite root_lookup in He by lia. destruct j as [|[|j]].
      + injection He as <-. rewrite dirent_name in En. by destruct Hd.
      + injection He as <-. rewrite dirent_name in En. by destruct Hd.
      + change (file_entries 2 files !! j = Some e) in He. destruct (lookup_lt_is_Some_2 files j ltac:(lia)) as [g Hg].
        rewrite (file_entries_lookup files 2 j g Hg) in He. apply (inj Some) in He. subst e. rewrite dirent_name in En. eapply Hf; [|done..]. lia. }
  unfold dir_find. rewrite E. change (Some ((i + 2)%nat, de_inum (dirent (2 + Z.of_nat i) (strip f.1))) = Some ((i + 2)%nat, Z.of_nat i + 2)).
  rewrite dirent_inum by lia. do 2 f_equal. lia.
Qed.

(** Every file has one name. *)
Lemma mounted_file j : in_use mksb v j -> di_type (dinode_at v j) <> T_DIR -> exists i f, files !! i = Some f /\ j = Z.of_nat i + 2.
Proof using Hfit M.
  intros [Hj Ht] Hd. change (0 <= j < NINODES) in Hj. destruct (decide (j = 0 \/ Z.of_nat (length files) + 1 < j)) as [Hf|Hf]; [by rewrite (mt_free _ _ M) in Ht|].
  destruct (decide (j = 1)) as [->|Hne]; [destruct Hd; exact (f_equal di_type (ri_din _ _ (mt_root _ _ M)))|].
  destruct (lookup_lt_is_Some_2 files (Z.to_nat (j - 2)) ltac:(lia)) as [f Hi]. exists (Z.to_nat (j - 2)), f. split; [done|lia].
Qed.

Lemma mounted_listing j : is_inum mksb j -> j <> ROOTINO -> listing mksb v j = [].
Proof using Hfit M.
  intros Hj Hne. unfold listing. apply decide_False. intros [Ht _]. change (0 <= j < NINODES) in Hj. unfold ROOTINO in Hne.
  destruct (decide (j = 0 \/ Z.of_nat (length files) + 1 < j)) as [Hf|Hf]; [by rewrite (mt_free _ _ M) in Ht|].
  destruct (lookup_lt_is_Some_2 files (Z.to_nat (j - 2)) ltac:(lia)) as [f Hi]. pose proof (fi_din _ _ _ _ (mt_files _ _ M _ _ Hi)) as E.
  replace (Z.of_nat (Z.to_nat (j - 2)) + 2) with j in E by lia. by rewrite E in Ht.
Qed.

Lemma mounted_links : links_ok mksb v.
Proof using Hfit M.
  pose proof (ri_din _ _ (mt_root _ _ M)) as Er. assert (di_type (dinode_at v ROOTINO) = T_DIR) as Et by (by rewrite Er). split; [done|].
  intros j Hj Hd. destruct (mounted_file j Hj Hd) as (i & f & Hi & ->). pose proof (lookup_lt_Some _ _ _ Hi) as Hlt. destruct Hfit as [Hmax Hmod]. unfold NINODES in Hmax.
  rewrite (fi_din _ _ _ _ (mt_files _ _ M _ _ Hi)). cbn [di_nlink]. rewrite (nrefs_single mksb v ROOTINO); [|done|apply mounted_listing]. unfold listing. rewrite decide_True by (by rewrite Er).
  rewrite (cnt_single _ _ (S (S i)) (dirent (2 + Z.of_nat i) (strip f.1))); [done|..].
  - rewrite root_lookup by lia. by apply (file_entries_lookup files 2).
  - rewrite dirent_inum by lia. lia.
  - intros q de Hq Hne. destruct (root_entry v files (mt_root _ _ M) Hmod Hmax q de Hq) as [Hr|[_ ->]]; [|lia]. destruct q as [|[|q]]; [injection Hr as <-; vm_compute (de_inum _); lia..|].
    change (file_entries 2 files !! q = Some de) in Hr. pose proof (lookup_lt_Some _ _ _ Hr) as Hl. rewrite length_file_entries in Hl. destruct (lookup_lt_is_Some_2 files q Hl) as [g Hg].
    rewrite (file_entries_lookup files 2 q g Hg) in Hr. apply (inj Some) in Hr as <-. rewrite dirent_inum by lia. lia.
Qed.
End mounted.

(** ** A new file system is consistent *)

Section volume.
Context (v k : list block) (n : Z) (files : list (list Z * list Z)).
Context (Hfit : files_fit files) (Mo : mountable k n (root_dir files) (map snd files)) (Heq : home_eq mksb v k) (Hlen : length v = length k).

Let M : mounted v files := mountable_mounted v k n files Hfit Mo Heq.

(** The inodes in use: the root and the files. *)
Lemma use_index j : in_use mksb v j -> exists i, (i <= length files)%nat /\ j = Z.of_nat i + 1.
Proof using Hfit Mo Heq.
  intros [Hj Ht]. change (0 <= j < NINODES) in Hj. destruct (decide (j = 0 \/ Z.of_nat (length files) + 1 < j)) as [Hf|Hf]; [by rewrite (mt_free _ _ M) in Ht|].
  exists (Z.to_nat (j - 1)). clear Hlen. lia.
Qed.

Lemma index_inum i : (i <= length files)%nat -> 0 <= Z.of_nat i + 1 < NINODES.
Proof using Hfit. clear - Hfit. destruct Hfit as [? _]. lia. Qed.

Lemma index_use i : (i <= length files)%nat -> in_use mksb v (Z.of_nat i + 1).
Proof using Hfit Mo Heq. intros Hi. clear Hlen. apply linked_use, (mounted_linked v files Hfit M). lia. Qed.

Lemma index_good i : (i <= length files)%nat -> inode_good mksb v (Z.of_nat i + 1) /\ file_ok k (addrs mksb k (Z.of_nat i + 1)).
Proof using Hfit Mo Heq.
  clear Hlen. intros Hi. pose proof Hfit as [Hmax Hmod]. destruct i as [|i].
  - change (Z.of_nat 0 + 1) with ROOTINO. pose proof (mt_root _ _ M) as R. pose proof (root_size v files R Hmax) as (S1 & S2 & S3).
    split; [|apply (mo_root _ _ _ _ Mo)]. split; [apply R|lia|]. apply (ri_hole _ _ R), root_mod, Hmod.
  - replace (Z.of_nat (S i) + 1) with (Z.of_nat i + 2) by lia. destruct (lookup_lt_is_Some_2 files i Hi) as [f Hf].
    pose proof (mt_files _ _ M i f Hf) as [F1 F2 F3 F4 _ _]. assert (di_size (dinode_at v (Z.of_nat i + 2)) = Z.of_nat (length f.2)) as Es by (by rewrite F1). split.
    + split; [exact F2|rewrite Es; lia|rewrite Es; exact F4].
    + eapply fi_ok, (mo_files _ _ _ _ Mo). by rewrite list_lookup_fmap, Hf.
Qed.

Lemma index_has i a : (i <= length files)%nat -> has_block v (addrs mksb v (Z.of_nat i + 1)) a <-> has_block k (addrs mksb k (Z.of_nat i + 1)) a.
Proof using Hfit Mo Heq.
  intros Hi. destruct (index_good i Hi) as [_ Fk]. unfold addrs in *. rewrite (ag_dinode v k Heq) by (by apply index_inum). unfold has_block.
  by setoid_rewrite (ag_baddr v k Heq _ Fk).
Qed.

Lemma mounted_vol : vol_ok mksb v.
Proof using Hfit Mo Heq Hlen.
  split.
  - rewrite Hlen. apply (mo_layout _ _ _ _ Mo).
  - by apply (mounted_tree v files).
  - apply (mt_free _ _ M); [by vm_compute|by left].
  - intros j (i & Hi & ->)%use_index. by apply index_good.
  - intros j1 j2 (i1 & Hi1 & ->)%use_index (i2 & Hi2 & ->)%use_index Hne a Ha Hb. rewrite index_has in Ha, Hb by done.
    eapply (mo_apart _ _ _ _ Mo i1 i2); [by rewrite length_map..|lia|exact Ha|exact Hb].
  - intros c Hc. change (datastart mksb) with 59 in Hc. rewrite (ag_used v k Heq) by lia. pose proof (mo_n _ _ _ _ Mo) as Hn. change nmeta with 59 in Hn.
    rewrite (mo_used _ _ _ _ Mo) by (unfold FSSIZE; lia). apply Z.ltb_lt. lia.
  - intros c [H1 H2] Hu. change (datastart mksb) with 59 in H1. change (sb_size mksb) with FSSIZE in H2. rewrite (ag_used v k Heq) in Hu by lia.
    rewrite (mo_used _ _ _ _ Mo) in Hu by lia. apply Z.ltb_lt in Hu. destruct (mo_exact _ _ _ _ Mo c ltac:(change nmeta with 59; lia)) as (i & Hi & Hb).
    rewrite length_map in Hi. exists (Z.of_nat i + 1). split; [by apply index_use|by apply index_has].
Qed.
End volume.

(** ** Looking a file up and reading it *)

(** What [open] and [read] do with the file system: look the path up, lock the inode, read. *)
Definition read_path `{!BlockDevice} `{!Devsw} (path : list Z) (off n : Z) : M fs (option (Z * list Z)) :=
  r ← namei 0 path;
  match r with
  | None => mret None
  | Some ip => ilock ip ;; r ← readi ip off n; mret (Some r)
  end.

Definition boot_image (k : list block) : fs := mkFs (boot k 1) (replicate NINODE inode0) sb0.

Lemma fresh_cache sb v : icached sb v [] (replicate NINODE inode0) /\ irefs (replicate NINODE inode0) = ∅.
Proof.
  assert (forall j x, replicate NINODE inode0 !! j = Some x -> x = inode0) as Hr by (intros j x H; by apply lookup_replicate_1 in H as [-> _]).
  split; [|vm_compute; reflexivity]. split.
  - intros i j x y Hx Hy H. rewrite (Hr _ _ Hx) in H. cbn in H. lia.
  - intros j x Hx. rewrite (Hr _ _ Hx). split; cbn; lia.
  - intros j x Hx _. by rewrite (Hr _ _ Hx).
Qed.

Lemma fname_pchars f : Forall is_byte f.1 -> Forall pchar (fname f).
Proof.
  intros Hb. apply Forall_take, cstr_pchars. unfold strip. destruct Hb as [|x l]; [constructor|].
  repeat (case_match; try done; try by constructor).
Qed.

Lemma path_of_name f : Forall is_byte f.1 -> fname f <> [] -> Forall (fun c => c <> SLASH) (fname f) ->
  cstr (SLASH :: fname f) = SLASH :: fname f /\ path_elems (SLASH :: fname f) = [fname f].
Proof.
  intros Hb H0 Hs. split; [apply cstr_whole; constructor; [done|by apply fname_pchars]|].
  change (path_elems (fname f) = [fname f]). rewrite <- (app_nil_r (fname f)) at 1. rewrite path_elems_first by done.
  unfold fname, dname. by rewrite take_take, Nat.min_id.
Qed.

Section boot.
Context `{BD : !BlockDevice} `{DS : !Devsw}.

Lemma fbytes_file v n ty c off m : file_is v n ty c -> 0 <= off -> 0 <= m -> off + m <= Z.of_nat (length c) ->
  fbytes v (di_addrs (dinode_at v n)) off (Z.to_nat m) = take (Z.to_nat m) (drop (Z.to_nat off) c).
Proof.
  intros F Ho Hm Hl. apply list_eq. intros j. destruct (decide (j < Z.to_nat m)%nat) as [Hj|Hj].
  - rewrite lookup_fbytes, lookup_take_lt, lookup_drop by done. rewrite (fi_bytes _ _ _ _ F) by lia.
    replace (Z.to_nat (off + Z.of_nat j)) with (Z.to_nat off + j)%nat by lia. symmetry. apply list_lookup_lookup_total_lt. lia.
  - rewrite !lookup_ge_None_2; [done|rewrite length_take; lia|rewrite length_fbytes; lia].
Qed.

Lemma read_mounted k w s v files i f off n :
  fs_ok mksb k 1 w s v [] ∅ -> layout mksb (length v) -> f_inodes s = replicate NINODE inode0 -> files_fit files -> mounted v files ->
  first_named files i f -> Forall is_byte f.1 -> fname f <> [] -> Forall (fun c => c <> SLASH) (fname f) ->
  0 <= off <= Z.of_nat (length f.2) -> 0 <= n -> off + n < 4294967296 ->
  wp (read_path (SLASH :: fname f) off n) (fun r _ => r = Some (Z.min n (Z.of_nat (length f.2) - off),
    take (Z.to_nat n) (drop (Z.to_nat off) f.2))) s.
Proof.
  intros F Ly Ei Hfit M Hn Hb H0 Hs Hoff Hn0 Hw. destruct (path_of_name f Hb H0 Hs) as [Ec Ep]. destruct (fresh_cache mksb v) as [C Er]. rewrite <- Ei in C, Er.
  pose proof (mounted_tree v files Hfit M) as T. pose proof (fn_at _ _ _ Hn) as Hi. pose proof (mt_files _ _ M _ _ Hi) as Fi.
  unfold read_path, namei. apply wp_bind, wp_bind. eapply (namex_ok mksb k 1 w s v []); [done..|cbn; unfold NBUF; lia|done|done|rewrite Er; vm_compute; lia| | |done| |].
  - unfold has_cwd. rewrite Ec. done.
  - constructor; [done|]. eapply Forall_impl; [by apply fname_pchars|by intros c []].
  - by apply Forall_replicate.
  - intros [r name] s1 F1 C1 W. unfold walked, walk_start in W. rewrite Ec, Z.eqb_refl, Ep in W.
    assert (di_type (dinode_at v ROOTINO) = T_DIR) as Et by (by rewrite (ri_din _ _ (mt_root _ _ M))).
    assert (resolve mksb false v ROOTINO [fname f] = Some (Z.of_nat i + 2)) as Hres by (cbn [resolve]; by rewrite Et, (mounted_find v files Hfit M i f Hn)).
    rewrite Hres in W.
    destruct W as (ip & x & -> & Hx & Hc & _ & _). apply wp_ret. cbn [fst].
    assert (di_type (dinode_at v (Z.of_nat i + 2)) <> 0) as Ht by (rewrite (fi_din _ _ _ _ Fi); done).
    apply wp_bind. eapply (ilock_cached mksb k 1 w s1 v [] []); [done..|cbn; unfold NBUF; lia|done|apply not_elem_of_nil|done|exact Hc|exact Ht|]. intros s2 y F2 C2 E2 _ He.
    pose proof (lookup_lt_Some _ _ _ Hx) as Hlt. assert (f_inodes s2 !! ip = Some y) as Hy by (rewrite E2; by apply list_lookup_insert_eq).
    destruct (din_held mksb 1 v (Z.of_nat i + 2) ip y (f_inodes s2) Hy He s2 eq_refl) as [Ed Edev].
    assert (di_size (dinode_at v (Z.of_nat i + 2)) = Z.of_nat (length f.2)) as Es by (by rewrite (fi_din _ _ _ _ Fi)).
    rewrite (fo_inodes _ _ _ _ _ _ _ _ F1) in Hlt.
    apply wp_bind. eapply (readi_ok mksb k 1 w s2 v [] ip off n); rewrite ?Ed, ?Es; [done|done|done|done|..].
    + rewrite (fi_din _ _ _ _ Fi). done.
    + apply Fi.
    + cbn. unfold NBUF. lia.
    + split; [lia|apply Fi].
    + apply Fi.
    + lia.
    + lia.
    + intros l F3. rewrite (proj2 (Z.ltb_ge _ _)), (proj2 (Z.leb_gt _ _)) by lia. cbn [orb]. apply wp_ret. cbv zeta. f_equal. f_equal.
      rewrite (fbytes_file v _ T_FILE f.2) by (done || lia).
      destruct (decide (n <= Z.of_nat (length f.2) - off)); [by rewrite Z.min_l by lia|]. rewrite Z.min_r by lia. rewrite !take_ge; [done|rewrite length_drop; lia..].
Qed.

(** C5 What goes into [mkfs] comes out of the kernel: unless [mkfs] gives up, booting
    its image and reading a path [/name] returns the bytes of the file given under that
    name, for every offset and count. This passes through recovery of the log, the super
    block, the root directory and [namei], the inode cache, the block map
    with its indirect block, and the buffer cache. Names are cut to
    [DIRSIZ] bytes as [mkfs] cuts them, a leading underscore is dropped, and the first of several files with one
    name is the one found. *)
Theorem mkfs_boot_read files i f off n :
  input_ok files -> files_fit files -> first_named files i f -> fname f <> [] -> Forall (fun c => c <> SLASH) (fname f) ->
  0 <= off <= Z.of_nat (length f.2) -> 0 <= n -> off + n < 4294967296 ->
  wpe (mkfs files)
    (fun _ s => wp (start_fs ;; read_path (SLASH :: fname f) off n)
       (fun r _ => r = Some (Z.min n (Z.of_nat (length f.2) - off), take (Z.to_nat n) (drop (Z.to_nat off) f.2)))
       (boot_image (im_disk s)))
    gives_up img0.
Proof.
  intros Hin Hfit Hn H0 Hs Hoff Hn0 Hw. eapply wpe_mono; [apply (mkfs_ok files Hin), Hfit| |done]. intros [] s M.
  apply wp_bind, (start_ok mksb); [apply M|]. intros k s' v F Heq Hlen Ei.
  eapply read_mounted; [exact F|rewrite Hlen; apply M|done|done|by eapply mountable_mounted|done| |done..].
  pose proof (Forall_lookup_1 _ _ _ _ Hin (fn_at _ _ _ Hn)) as [Hb _]. exact Hb.
Qed.
End boot.

(** ** Examples *)

#[local] Existing Instance no_devsw.

Lemma demo_fits : input_ok demo_files /\ files_fit demo_files.
Proof. split; [repeat constructor; done|]. by vm_compute. Qed.

(** The state after the boot of the example image. *)
Lemma demo_boot (P : fs -> Prop) :
  (forall k s v, fs_ok mksb k 1 1 s v [] ∅ -> layout mksb (length v) -> f_inodes s = replicate NINODE inode0 -> mounted v demo_files -> P s) ->
  wpe (mkfs demo_files) (fun _ s => wp start_fs (fun _ => P) (boot_image (im_disk s))) gives_up img0.
Proof.
  intros HP. destruct demo_fits as [Hin Hfit]. eapply wpe_mono; [apply (mkfs_ok demo_files Hin), Hfit| |done]. intros [] s M.
  apply (start_ok mksb); [apply M|]. intros k s' v F Heq Hlen Ei. eapply HP; [exact F|rewrite Hlen; apply M|done|by eapply mountable_mounted].
Qed.

Lemma mkfs_boot_read_witness :
  wpe (mkfs demo_files)
    (fun _ s => wp (start_fs ;; read_path (str "/README") 1 10) (fun r _ => r = Some (2, str "v6")) (boot_image (im_disk s)))
    gives_up img0.
Proof.
  apply (mkfs_boot_read demo_files 1 (str "README", str "xv6") 1 10); [apply demo_fits|apply demo_fits| | |by repeat constructor|by vm_compute|by vm_compute|by vm_compute].
  - split; [done| |done]. intros [|j] g Hj; [|lia]. intros [= <-]. by vm_compute.
  - by vm_compute.
Defined.

Lemma namex_spec_witness :
  wpe (mkfs demo_files)
    (fun _ s => wp start_fs (fun _ s1 => wp (namex 0 (str "//cat") false (replicate DIRSIZ 0))
       (fun r s2 => exists ip x, r.1 = Some ip /\ f_inodes s2 !! ip = Some x /\ caches ROOTDEV 2 x) s1) (boot_image (im_disk s)))
    gives_up img0.
Proof.
  apply demo_boot. intros k s v F Ly Ei M. destruct demo_fits as [_ Hfit]. destruct (fresh_cache mksb v) as [C Er]. rewrite <- Ei in C, Er.
  eapply wp_mono; [apply (namex_spec mksb k 1 1 s v [] false 0 (str "//cat") (replicate DIRSIZ 0) F Ly)|].
  - cbn. unfold NBUF. lia.
  - done.
  - by apply mounted_tree with (files := demo_files).
  - rewrite Er. vm_compute. lia.
  - intros H. by destruct H.
  - by repeat constructor.
  - done.
  - by repeat constructor.
  - intros r s2 (_ & _ & W).
    assert (di_type (dinode_at v ROOTINO) = T_DIR) as Et by (by rewrite (ri_din _ _ (mt_root _ _ M))).
    assert (resolve mksb false v (walk_start s 0 (str "//cat")) (path_elems (cstr (str "//cat"))) = Some 2) as Hres.
    { change (resolve mksb false v ROOTINO [fname (str "_cat", replicate 700 65)] = Some 2). cbn [resolve]. rewrite Et.
      rewrite (mounted_find v demo_files Hfit M 0 (str "_cat", replicate 700 65)); [done|]. split; [done|lia|done]. }
    rewrite Hres in W. destruct W as (ip & x & H1 & H2 & H3 & _). by exists ip, x.
Defined.

Lemma dirlookup_spec_witness :
  wpe (mkfs demo_files)
    (fun _ s => wp start_fs (fun _ s1 => wp (ip ← iget ROOTDEV ROOTINO; ilock ip ;; mret ip)
       (fun dp s2 => wp (dirlookup dp (str "README")) (fun r _ => exists ip, r = Some (ip, 48)) s2) s1) (boot_image (im_disk s)))
    gives_up img0.
Proof.
  apply demo_boot. intros k s v F Ly Ei M. destruct demo_fits as [_ Hfit]. destruct (fresh_cache mksb v) as [C Er]. rewrite <- Ei in C, Er.
  pose proof (mounted_tree v demo_files Hfit M) as T. pose proof (tr_root _ _ T) as Hl.
  assert (di_type (dinode_at v ROOTINO) = T_DIR) as Et by (by rewrite (ri_din _ _ (mt_root _ _ M))).
  apply wp_bind. eapply (iget_ok mksb s v [] ROOTINO); [done|apply Hl|rewrite Er, Ei; vm_compute; lia|]. intros ip l' (G1 & G2 & a & y & Ha & -> & Hy & _).
  apply wp_bind. eapply (ilock_cached mksb k 1 1 _ v [] [] ROOTINO ip y); [|done| |exact G2|apply not_elem_of_nil| |exact Hy|apply Hl|].
  - apply fs_set_inodes; [done|]. rewrite length_insert, Ei. done.
  - cbn. unfold NBUF. lia.
  - apply list_lookup_insert_eq. by eapply lookup_lt_Some.
  - cbn [f_inodes]. intros s2 z F2 C2 E2 Er2 He. apply wp_ret.
    eapply wp_mono; [apply (dirlookup_spec mksb k 1 1 s2 v [] [ip] ROOTINO ip z (str "README") F2 Ly)|].
    + cbn. unfold NBUF. lia.
    + done.
    + rewrite E2. apply list_lookup_insert_eq. rewrite length_insert. by eapply lookup_lt_Some.
    + done.
    + by apply (tr_dir _ _ T).
    + done.
    + rewrite Er2, G1, Er, (fo_inodes _ _ _ _ _ _ _ _ F2). vm_compute. lia.
    + by repeat constructor.
    + assert (first_named demo_files 1 (str "README", str "xv6")) as Hn.
      { split; [done| |done]. intros [|j] g Hj; [|lia]. intros [= <-]. by vm_compute. }
      intros r s3 [_ H]. pose proof (mounted_find v demo_files Hfit M _ _ Hn) as Hf. unfold dir_find in Hf.
      change (dname (str "README")) with (fname (str "README", str "xv6")) in H.
      destruct (list_find _ _) as [[j de]|]; [|done]. destruct H as (ip' & -> & _). exists ip'. cbn in Hf. by injection Hf as -> _.
Defined.

(** [mkfs] succeeds on the example. *)
Lemma demo_mkfs : wp (mkfs demo_files) (fun _ s => mountable (im_disk s) 63 (root_dir demo_files) (map snd demo_files)) img0.
Proof.
  assert (match mkfs demo_files img0 with Ok _ s => freeblock s =? 63 | _ => false end = true) as E by (vm_compute; reflexivity).
  pose proof (mkfs_ok demo_files (proj1 demo_fits) (proj1 (proj2 demo_fits))) as W. revert W E. unfold wpe, wp. generalize (mkfs demo_files img0).
  intros r. destruct r as [[] s| | | |]; [|discriminate 2..]. intros W E%Z.eqb_eq. rewrite <- E. exact W.
Qed.

(** The file system after the boot. *)
Record demo_rest (x : fs) (v : list block) : Prop := {
  dr_rest : at_rest mksb 1 x v;
  dr_mounted : mounted v demo_files;
  dr_inodes : f_inodes x = replicate NINODE inode0;
  dr_free : (900 <= nfree mksb v)%nat;
}.

Lemma demo_mounted (P : fs -> Prop) : (forall x v, demo_rest x v -> P x) ->
  wp (mkfs demo_files) (fun _ s => wp mount_fs (fun _ => P) (boot_image (im_disk s))) img0.
Proof.
  intros HP. destruct demo_fits as [Hin Hfit]. eapply wp_mono; [exact demo_mkfs|]. intros [] s Mo.
  apply (mount_ok mksb (im_disk s)); [apply Mo|]. intros x v [R Ho Hc Hp Hsb Hi Hh Hl]. apply (HP x v). destruct (fresh_cache mksb v) as [C Er].
  split; [|by eapply mountable_mounted|done|].
  - split; [done|done|done|done|done|by rewrite Hi|by eapply mounted_vol|by rewrite Hi|]. intros n r. rewrite Hi, Er. by rewrite lookup_empty.
  - assert (900 <= length (seqZ 64 936))%nat as Hlen by (rewrite length_seqZ; lia). etransitivity; [exact Hlen|].
    apply submseteq_length, NoDup_submseteq; [apply NoDup_seqZ|]. intros c Hcr%elem_of_seqZ. apply list_elem_of_filter. change (sb_size mksb) with 1000.
    split; [|apply elem_of_seqZ; lia]. rewrite (ag_used v (im_disk s) Hh) by lia. rewrite (mo_used _ _ _ _ Mo) by (unfold FSSIZE; lia). apply Z.ltb_ge. lia.
Qed.

Lemma demo_root v : mounted v demo_files -> di_type (dinode_at v ROOTINO) = T_DIR /\ dir_find v (dinode_at v ROOTINO) (str "d") = None.
Proof.
  intros M. destruct demo_fits as [_ [Hmax Hmod]]. pose proof (mt_root _ _ M) as Hr. split; [by rewrite (ri_din _ _ Hr)|].
  unfold dir_find. assert (list_find (names (str "d")) (entries v (dinode_at v ROOTINO)) = None) as ->; [|done]. apply list_find_None, Forall_lookup.
  intros i e He [H0 Hn]. destruct (root_entry v demo_files Hr Hmod Hmax i e He) as [Hi|[_ ?]]; [|done].
  do 4 (destruct i as [|i]; [injection Hi as <-; vm_compute in Hn; congruence|]). done.
Qed.

Lemma demo_nlink v : mounted v demo_files -> forall n, linked mksb v n -> di_type (dinode_at v n) = T_DIR -> 0 < di_nlink (dinode_at v n) < 32767.
Proof.
  intros M n (Hn & Ht & _) Htd. change (0 <= n < NINODES) in Hn. destruct (decide (n = ROOTINO)) as [->|Hne]; [rewrite (ri_din _ _ (mt_root _ _ M)); cbn; lia|].
  exfalso. unfold ROOTINO in Hne. destruct (decide (2 <= n <= 3)) as [Hb|Hb]; [|by rewrite (mt_free _ _ M) in Htd; [|done|cbn; lia]].
  destruct (lookup_lt_is_Some_2 demo_files (Z.to_nat (n - 2))) as [f Hf]; [cbn; lia|]. pose proof (fi_din _ _ _ _ (mt_files _ _ M _ _ Hf)) as E.
  replace (Z.of_nat (Z.to_nat (n - 2)) + 2) with n in E by lia. rewrite E in Htd. done.
Qed.

Lemma root_parent v e : di_type (dinode_at v ROOTINO) = T_DIR -> resolve mksb true v ROOTINO [e] = Some ROOTINO.
Proof. intros Et. cbn [resolve andb]. by rewrite Et. Qed.

(** The example image: thirty blocks of its data area. *)
Lemma three_operations_panic_witness :
  wp (mkfs demo_files) (fun _ s => wp mount_fs (fun _ x => (three_ops ;; bzero_all (seqZ 100 29 ++ [129])) x = Panic "too big a transaction") (boot_image (im_disk s))) img0.
Proof.
  apply demo_mounted. intros x v [R _ _ _]. destruct R as [R1 R2 R3 R4 R5 R6 R7 R8 R9].
  assert (length v = 1000%nat) as Hlen by (pose proof (ly_size _ _ (vo_layout _ _ R7)) as H; change (sb_size mksb) with 1000 in H; lia).
  apply (three_operations_panic mksb x v (seqZ 100 29) 129 R1 R2 R3 R5 R6).
  - reflexivity.
  - apply (bool_decide_unpack _). vm_compute. exact I.
  - vm_compute. reflexivity.
  - rewrite Hlen. apply Forall_forall. intros b. change (seqZ 100 29 ++ [129]) with (seqZ 100 30). intros Hb%elem_of_seqZ. unfold is_home, in_log. change (sb_logstart mksb) with 2. change (sb_nlog mksb) with 30. lia.
Defined.
