(* ===== verification/Fwrite.v ===== *)
(** * Writing to an open file ([filewrite] of [file.c]) is crash safe.

    [filewrite] cuts the bytes into chunks and writes each in a transaction of its own.
    The theorem of this file follows it from the file table through the inode, the block map
    and the log: the file has the new contents, nothing else has changed, and after
    a crash some prefix of the bytes has been written to a consistent
    volume. *)

From Stdlib Require Import String.
From stdpp Require Import gmap.
From S2P Require Import Mkfs Mount.
From S2P Require Import Prelude CString Params Kalloc Bio Log Trans Fs Balloc Inode Content Blockmap Dir File Writei Volume Rest.
Local Open Scope Z_scope.

Section fwrite.
Context `{BD : !BlockDevice} `{DS : !Devsw}.
Context (sb : superblock) (pid : Z).
#[local] Abbreviation dinode_at := (dinode_at sb).
#[local] Abbreviation in_use := (in_use sb).
#[local] Abbreviation vol_ok := (vol_ok sb).
#[local] Abbreviation home_eq := (home_eq sb).
#[local] Abbreviation at_rest := (at_rest sb pid).
#[local] Abbreviation crash_safe := (crash_safe sb).
#[local] Abbreviation content := (content sb).
#[local] Abbreviation same_inode := (same_inode sb).
#[local] Abbreviation disk_of s := (bdisk (l_bio (f_l (k_fs s)))).
#[local] Abbreviation size_of v n := (di_size (dinode_at v n)).

(** Entry [f] of the file table is open for writing on the regular file [n]. *)
Record open_file (s : kern) (v : list block) (f : nat) (n : Z) : Prop := {
  of_rest : at_rest (k_fs s) v;
  of_lt : (f < length (ftable s))%nat;
  of_type : fl_type (file_at s f) = FD_INODE /\ fl_writable (file_at s f) = true;
  of_inode : exists x, f_inodes (k_fs s) !! fl_ip (file_at s f) = Some x /\ caches ROOTDEV n x;
  of_kind : di_type (dinode_at v n) = T_FILE;
  of_off : 0 <= fl_off (file_at s f) <= size_of v n;
}.

(** In [u] a prefix of [src] has been written at [off] to file [n] of [v]; the other files are the same. *)
Definition prefix_written (v : list block) (n off : Z) (src : list Z) (u : list block) : Prop :=
  (exists i, content u n = splice (Z.to_nat off) (take i src) (content v n)) /\ forall j, in_use v j -> j <> n -> same_inode v u j.

(** All of [src] has been written, and whenever the machine had crashed, a prefix would have been. *)
Record wrote_file (s : kern) (v : list block) (f : nat) (n : Z) (src : list Z) (s' : kern) (v' : list block) (ws : list (Z * block)) : Prop := {
  wf_state : s' = mkKern (k_mem s) (k_fs s') (<[f := set_off (fl_off (file_at s f) + Z.of_nat (length src)) (file_at s f)]> (ftable s)) (pipes s);
  wf_open : open_file s' v' f n;
  wf_refs : irefs (f_inodes (k_fs s')) = irefs (f_inodes (k_fs s));
  wf_content : content v' n = splice (Z.to_nat (fl_off (file_at s f))) src (content v n);
  wf_same : forall j, in_use v j -> j <> n -> same_inode v v' j;
  wf_spare : forall lo hi, covers lo hi (fl_off (file_at s f)) (Z.of_nat (length src)) -> spare sb v (addrs sb v n) lo hi <= spare sb v' (addrs sb v' n) lo hi;
  wf_crash : disk_of s' = disk_replay (disk_of s) ws /\ crash_safe (blocks (disk_of s)) ws (prefix_written v n (fl_off (file_at s f)) src);
}.

Lemma length_content v n : 0 <= size_of v n -> Z.of_nat (length (content v n)) = size_of v n.
Proof. intros H. unfold Volume.content. rewrite length_fbytes. lia. Qed.

Lemma open_use s v f n : open_file s v f n -> in_use v n.
Proof.
  intros [R _ _ (x & Hx & Hr & _ & <-) Ht _]. split; [|by rewrite Ht]. by apply (en_inum _ _ _ (id_entry _ _ _ _ (ar_cached _ _ _ _ R) _ _ Hx)).
Qed.

Lemma wpe_fsop {A} (m : M fs A) Q E s : wpe m (fun a x => Q a (set_k_fs x s)) E (k_fs s) -> wpe (fsop m) Q E s.
Proof. unfold wpe, fsop, zoom. by destruct (m (k_fs s)). Qed.

Lemma file_at_insert s f x m p y : (f < length (ftable s))%nat -> file_at (mkKern m x (<[f := y]> (ftable s)) p) f = y.
Proof. intros Hf. unfold file_at. cbn. by apply list_lookup_total_insert_eq. Qed.

(** ** One chunk *)

Section chunk.
Context (s : kern) (v : list block) (f : nat) (n : Z) (src : list Z).
#[local] Abbreviation off := (fl_off (file_at s f)).
#[local] Abbreviation ip := (fl_ip (file_at s f)).
#[local] Abbreviation len := (Z.of_nat (length src)).
Context (O : open_file s v f n) (Hlog : 16 <= sb_nlog sb) (Hsrc : Forall is_byte src) (Hmax : off + len <= MAXFILE * Z.of_nat BSIZE).

(** The views before and after the commit. *)
Lemma prefix_home u v1 i : geometry sb (length v1) -> vol_ok v1 -> in_use v1 n -> home_eq u v1 ->
  content v1 n = splice (Z.to_nat off) (take i src) (content v n) -> (forall j, in_use v j -> j <> n -> same_inode v v1 j) -> prefix_written v n off src u.
Proof using.
  clear Hmax Hsrc. intros G1 V1 Hu Heq Hc Hs. split; [exists i; by rewrite (sm_content _ _ _ _ (home_same sb v1 u V1 G1 Heq n Hu))|].
  intros j Hj Hne. pose proof (Hs j Hj Hne) as S. eapply same_inode_trans; [exact S|]. apply (home_same sb v1 u V1 G1 Heq). by eapply same_inode_use.
Qed.

Lemma splice_nil : splice (Z.to_nat off) (take 0 src) (content v n) = content v n.
Proof using. unfold splice. cbn [take app length]. rewrite Nat.add_0_r. apply take_drop. Qed.

(** The end of the transaction in which the bytes were written. *)
Lemma chunk_end x x1 v1 L1 : fs_ok sb (disk_of s) pid 1 x1 v1 L1 ∅ -> vol_ok v1 -> icached sb v1 [] (f_inodes x1) ->
  irefs (f_inodes x1) = irefs (f_inodes (k_fs s)) -> f_inodes x1 !! ip = Some x -> caches ROOTDEV n x ->
  same_attrs (dinode_at v n) (dinode_at v1 n) -> size_of v1 n = Z.max (size_of v n) (off + len) ->
  content v1 n = splice (Z.to_nat off) src (content v n) -> (forall j, in_use v j -> j <> n -> same_inode v v1 j) ->
  (forall lo hi, covers lo hi off len -> spare sb v (addrs sb v n) lo hi <= spare sb v1 (addrs sb v1 n) lo hi) ->
  wp (lop end_op) (fun _ x' => exists v' ws,
    wrote_file s v f n src (mkKern (k_mem s) x' (<[f := set_off (off + len) (file_at s f)]> (ftable s)) (pipes s)) v' ws) x1.
Proof using O.
  clear Hmax Hsrc Hlog. intros F1 V1 C1 Er1 Hx Hc (At & _) Hsz Hcont Hsame Hsp. pose proof (fs_geom _ _ _ _ _ _ _ _ F1) as G1. pose proof (open_use _ _ _ _ O) as Hu.
  pose proof O as [R Hlt Hty _ Hk Hoff]. destruct (rest_disk sb pid _ _ R) as [Hd Hl]. pose proof (ar_vol _ _ _ _ R) as V.
  assert (in_use v1 n) as Hu1 by (split; [apply Hu|]; rewrite At; apply Hu).
  eapply wp_mono; [eapply (end_ok sb pid x1 v1 v L1 (disk_of s) F1 V1 C1)|]; [|done|done|done|].
  { intros j r. rewrite Er1. intros Hj. pose proof (ar_used _ _ _ _ R j r Hj) as Huj. apply irefs_in in Hj as (i & q & Hq & Hrq & <- & _).
    pose proof (en_inum _ _ _ (id_entry _ _ _ _ (ar_cached _ _ _ _ R) _ _ Hq) Hrq) as Hin. destruct (decide (i_inum q = n)) as [->|Hne]; [apply Hu1|].
    by rewrite (sm_din _ _ _ _ (Hsame _ (conj Hin Huj) Hne)). }
  intros [] x' (v' & ws & R' & Heq & Ei & Hd' & Hcr). exists v', ws. pose proof (home_same sb v1 v' V1 G1 Heq n Hu1) as Sn.
  assert (geometry sb (length v)) as G by (apply (lr_geom _ _ _ _ _ (ar_log _ _ _ _ R))). split.
  - reflexivity.
  - split; rewrite ?file_at_insert by done; cbn [k_fs ftable set_off fl_type fl_writable fl_ip fl_off].
    + exact R'.
    + by rewrite length_insert.
    + exact Hty.
    + exists x. rewrite Ei. split; [exact Hx|exact Hc].
    + rewrite (sm_din _ _ _ _ Sn), At. exact Hk.
    + rewrite (sm_din _ _ _ _ Sn), Hsz. lia.
  - cbn [k_fs]. by rewrite Ei.
  - by rewrite (sm_content _ _ _ _ Sn).
  - intros j Hj Hne. pose proof (Hsame j Hj Hne) as Sj. eapply same_inode_trans; [exact Sj|]. apply (home_same sb v1 v' V1 G1 Heq). by eapply same_inode_use.
  - intros lo hi Hc'. rewrite (home_spare sb v1 v' V1 G1 Heq n lo hi Hu1). by apply Hsp.
  - split; [exact Hd'|]. eapply crash_safe_mono; [|exact Hcr]. intros u _ [H0|H1].
    + apply (prefix_home u v 0 G V Hu H0); [by rewrite splice_nil|]. intros j Hj _. by split.
    + apply (prefix_home u v1 (length src) G1 V1 Hu1 H1); [by rewrite take_ge|done].
Qed.

(** What the write leaves in inode and cache. *)
Lemma chunk_wrote x2 y x3 v1 L1 : f_inodes x2 !! ip = Some y -> held sb pid v n ip y -> icached sb v [ip] (f_inodes x2) ->
  wrote sb (disk_of s) pid 1 x2 ip v [] off src x3 v1 L1 ->
  exists z, f_inodes x3 !! ip = Some z /\ held sb pid v1 n ip z /\ icached sb v1 [ip] (f_inodes x3) /\ irefs (f_inodes x3) = irefs (f_inodes x2) /\
    changed sb v v1 n /\ same_attrs (dinode_at v n) (dinode_at v1 n) /\ size_of v1 n = Z.max (size_of v n) (off + len) /\
    content v1 n = splice (Z.to_nat off) src (content v n) /\
    forall lo hi, covers lo hi off len -> spare sb v (addrs sb v n) lo hi <= spare sb v1 (addrs sb v1 n) lo hi.
Proof using O Hmax.
  clear Hlog Hsrc. intros Hy He C W. pose proof O as [R Hlt Hty _ Hk Hoff]. pose proof (open_use _ _ _ _ O) as Hu. pose proof (ar_vol _ _ _ _ R) as V.
  assert (inode_at x2 ip = y) as Ey by (by apply list_lookup_total_correct). assert (i_inum (inode_at x2 ip) = n) as En by (rewrite Ey; apply (he_caches _ _ _ _ _ _ He)).
  destruct (din_held sb pid v n ip y _ Hy He x2 eq_refl) as [Ed _]. pose proof (lr_geom _ _ _ _ _ (ar_log _ _ _ _ R)) as G.
  assert (in_use v (i_inum (inode_at x2 ip))) as Hu' by (by rewrite En). assert (dinode_at v (i_inum (inode_at x2 ip)) = din x2 ip) as Ed' by (by rewrite En).
  assert (0 <= off /\ off + len <= MAXFILE * Z.of_nat BSIZE) as Hm by (split; [apply Hoff|exact Hmax]).
  assert (changed sb v v1 n) as Ch.
  { rewrite <- En. eapply (wrote_changed sb _ pid 1 x2 ip v [] off src x3 v1 L1); [exact V|exact G|exact Hu'|exact Ed'|exact W|exact Hm|]. rewrite En, Hk. intros _ H. by vm_compute in H. }
  destruct (icached_changed sb pid v v1 [ip] (f_inodes x2) n ip y C (ch_other _ _ _ _ Ch) Hy He) as (C' & Er & He'). pose proof (wt_disk _ _ _ _ _ _ _ _ _ _ _ _ _ W Ed') as Ed1. rewrite En in Ed1.
  pose proof (wt_inodes _ _ _ _ _ _ _ _ _ _ _ _ _ W) as Ei. rewrite Ey, <- Ed1 in Ei. rewrite <- Ei in C', Er. exists (set_din (dinode_at v1 n) y).
  pose proof (wrote_attrs sb _ pid 1 x2 ip v [] off src x3 v1 L1 Ed' W) as At. pose proof (wrote_size sb _ pid 1 x2 ip v [] off src x3 v1 L1 Ed' W) as Sz.
  pose proof (wrote_content sb _ pid 1 x2 ip v [] off src x3 v1 L1 V Hu' Ed' W Hm) as Ct. rewrite En in At, Sz, Ct.
  split; [rewrite Ei; apply list_lookup_insert_eq; by eapply lookup_lt_Some|]. split; [exact He'|]. split; [exact C'|]. split; [exact Er|]. split; [exact Ch|]. split; [exact At|]. split; [exact Sz|].
  split; [apply Ct; apply Hoff|]. unfold addrs. rewrite Ed1. rewrite <- En, Ed'. exact (wt_spare _ _ _ _ _ _ _ _ _ _ _ _ _ W).
Qed.

(** Locking, writing and unlocking. *)
Lemma chunk_ok : len <= WRITE_MAX -> 0 < len ->
  wpe (filewrite_chunk f src) (fun r s' => r = len /\ exists v' ws, wrote_file s v f n src s' v' ws) (no_space sb v (addrs sb v n) off len) s.
Proof using O Hlog Hsrc Hmax.
  intros Hlen Hpos. pose proof O as [R Hlt Hty (x & Hx & Hc) Hk Hoff]. pose proof (open_use _ _ _ _ O) as Hu. pose proof (ar_vol _ _ _ _ R) as V. pose proof (vo_layout _ _ V) as Ly.
  change WRITE_MAX with 1536 in Hlen. pose proof (nblocks_chunk off len ltac:(lia) ltac:(lia)) as Hnb.
  unfold filewrite_chunk. apply wpe_bind_wp, wp_get. cbv zeta. apply wpe_bind, wpe_fsop, wpe_wp. eapply begin_ok; [exact R|]. intros x1 F1 Ei1.
  apply wpe_bind, wpe_fsop, wpe_wp. cbn [set_k_fs k_fs]. pose proof (ar_cached _ _ _ _ R) as C. rewrite <- Ei1 in C, Hx.
  eapply ilock_cached; [exact F1|exact Ly|cbn; unfold NBUF; lia|exact C|apply not_elem_of_nil|exact Hx|exact Hc|apply Hu|]. intros x2 y F2 C2 Ei2 Er2 He2.
  assert (f_inodes x2 !! ip = Some y) as Hy by (rewrite Ei2; apply list_lookup_insert_eq; by eapply lookup_lt_Some).
  assert (inode_at x2 ip = y) as Ey by (by apply list_lookup_total_correct). destruct (din_held sb pid v n ip y _ Hy He2 x2 eq_refl) as [Ed2 Edev].
  apply wpe_bind_wp, wp_get. cbn [set_k_fs k_fs k_mem ftable pipes]. change (file_at (mkKern (k_mem s) x2 (ftable s) (pipes s)) f) with (file_at s f).
  apply wpe_bind, wpe_fsop. cbn [set_k_fs k_fs]. assert (i_inum (inode_at x2 ip) = n) as En by (rewrite Ey; apply (he_caches _ _ _ _ _ _ He2)).
  pose proof (vo_good _ _ V n Hu) as [Gf Gs Gh]. unfold Volume.addrs in Gf, Gh. pose proof (fs_geom _ _ _ _ _ _ _ _ F1) as G.
  assert (ip < NINODE)%nat as Hip by (apply lookup_lt_Some in Hy; by rewrite (fo_inodes _ _ _ _ _ _ _ _ F2) in Hy).
  eapply wpe_mono; [eapply (writei_ok sb (disk_of s) pid 1 x2 ip v [] off src F2 Ly Hip Edev); rewrite ?En, ?Ed2|intros r x3 [-> (v1 & L1 & W)]|intros e [He _]; rewrite Ed2 in He; exact He].
  - apply Hu.
  - apply dinode_at_ok; [exact Ly|exact G|exact (fs_vok _ _ _ _ _ _ _ _ F1)|apply Hu].
  - exact Gf.
  - exact Gs.
  - exact Gh.
  - lia.
  - unfold room, NBUF. cbn [length]. lia.
  - apply V.
  - exact Hsrc.
  - exact Hoff.
  - exact Hmax.
  - rewrite Hk. done.
  - destruct (chunk_wrote x2 y x3 v1 L1 Hy He2 C2 W) as (z & Hz & He3 & C3 & Er3 & Ch & At & Sz & Ct & Sp).
    rewrite (proj2 (Z.ltb_lt 0 len)) by lia. apply wpe_bind_wp, wp_modify. assert (MAXFILE * Z.of_nat BSIZE < 4294967296) as Hbig by done.
    change (file_at (set_k_fs x3 (set_k_fs x2 (set_k_fs x1 s))) f) with (file_at s f). rewrite u32_small by lia.
    apply wpe_bind, wpe_fsop, wpe_wp. eapply iunlock_cached; [exact (wt_fs _ _ _ _ _ _ _ _ _ _ _ _ _ W)|exact C3|exact Hz|exact He3|].
    intros x4 q F4 C4 Ei4 Hq _ Er4. apply wpe_bind, wpe_fsop, wpe_wp. eapply wp_mono; [eapply (chunk_end q x4 v1 L1 F4 (vol_changed sb v v1 n V Ch) C4)|].
    + rewrite Er4. change (irefs (f_inodes x3) = irefs (f_inodes (k_fs s))). by rewrite Er3, Er2, Ei1.
    + rewrite Ei4. apply list_lookup_insert_eq. by eapply lookup_lt_Some.
    + exact Hq.
    + exact At.
    + exact Sz.
    + exact Ct.
    + intros j Hj Hne. exact (changed_same sb v v1 n V Ch j Hj Hne).
    + exact Sp.
    + intros [] x5 (v' & ws & Hw). apply wpe_wp, wp_ret. split; [done|]. exists v', ws. exact Hw.
Qed.
End chunk.

(** ** The loop *)

(** The bytes before and after a chunk. *)
Lemma prefix_first v n off a b u : prefix_written v n off a u -> prefix_written v n off (a ++ b) u.
Proof.
  intros [[i Hi] Hs]. split; [|done]. exists (Nat.min i (length a)). rewrite take_app_le by lia. rewrite Hi. f_equal.
  destruct (Nat.le_gt_cases i (length a)); [by rewrite Nat.min_l|]. rewrite Nat.min_r by lia. by rewrite !take_ge by lia.
Qed.

Lemma prefix_next v v1 n off a b u : 0 <= off <= Z.of_nat (length (content v n)) -> content v1 n = splice (Z.to_nat off) a (content v n) ->
  (forall j, in_use v j -> j <> n -> same_inode v v1 j) -> prefix_written v1 n (off + Z.of_nat (length a)) b u -> prefix_written v n off (a ++ b) u.
Proof.
  intros Ho Hc Hs [[i Hi] Hs1]. split.
  - exists (length a + i)%nat. rewrite Hi, Hc. replace (Z.to_nat (off + Z.of_nat (length a))) with (Z.to_nat off + length a)%nat by lia.
    rewrite splice_app by lia. by rewrite take_app_add.
  - intros j Hj Hne. pose proof (Hs j Hj Hne) as S. eapply same_inode_trans; [exact S|]. apply Hs1; [|done]. by eapply same_inode_use.
Qed.

(** A chunk that does not fit in a file: the transaction is empty. *)
Lemma chunk_fail s v f n src : open_file s v f n -> Z.of_nat (length src) <= WRITE_MAX -> MAXFILE * Z.of_nat BSIZE < fl_off (file_at s f) + Z.of_nat (length src) ->
  wp (filewrite_chunk f src) (fun r s' => r = -1 /\ exists v' ws, wrote_file s v f n [] s' v' ws) s.
Proof.
  intros O Hlen Hmax. pose proof O as [R Hlt Hty (x & Hx & Hc) Hk Hoff]. pose proof (open_use _ _ _ _ O) as Hu. pose proof (ar_vol _ _ _ _ R) as V. pose proof (vo_layout _ _ V) as Ly.
  pose proof (ig_size _ _ _ (vo_good _ _ V n Hu)) as Hs. assert (MAXFILE * Z.of_nat BSIZE < 2147483648) as Hbig by done. change WRITE_MAX with 1536 in Hlen.
  unfold filewrite_chunk. apply wp_bind, wp_get. cbv zeta. apply wp_bind, wp_zoom. eapply begin_ok; [exact R|]. intros x1 F1 Ei1.
  apply wp_bind, wp_zoom. cbn [set_k_fs k_fs]. pose proof (ar_cached _ _ _ _ R) as C. rewrite <- Ei1 in C, Hx.
  eapply ilock_cached; [exact F1|exact Ly|cbn; unfold NBUF; lia|exact C|apply not_elem_of_nil|exact Hx|exact Hc|apply Hu|]. intros x2 y F2 C2 Ei2 Er2 He2.
  assert (f_inodes x2 !! fl_ip (file_at s f) = Some y) as Hy by (rewrite Ei2; apply list_lookup_insert_eq; by eapply lookup_lt_Some).
  destruct (din_held sb pid v n _ y _ Hy He2 x2 eq_refl) as [Ed2 _]. apply wp_bind, wp_get. cbn [set_k_fs k_fs k_mem ftable pipes]. change (file_at (mkKern (k_mem s) x2 (ftable s) (pipes s)) f) with (file_at s f).
  apply wp_bind, wp_zoom. cbn [set_k_fs k_fs]. eapply wp_mono; [apply (writei_bad x2 (fl_ip (file_at s f)) src (fl_off (file_at s f))); rewrite ?Ed2; [by rewrite Hk|lia|lia|]|].
  { apply orb_true_iff. right. by apply Z.ltb_lt. }
  intros r x3 [-> ->]. change (0 <? -1) with false. cbv iota. apply wp_bind, wp_ret. apply wp_bind, wp_zoom. eapply iunlock_cached; [exact F2|exact C2|exact Hy|exact He2|].
  intros x4 q F4 C4 Ei4 Hq _ Er4. apply wp_bind, wp_zoom. eapply wp_mono; [eapply (chunk_end s v f n [] O q x4 v [] F4 V C4)|].
  - rewrite Er4. change (irefs (f_inodes x2) = irefs (f_inodes (k_fs s))). by rewrite Er2, Ei1.
  - rewrite Ei4. apply list_lookup_insert_eq. by eapply lookup_lt_Some.
  - exact Hq.
  - done.
  - cbn [length]. lia.
  - symmetry. unfold splice. cbn [app length]. rewrite Nat.add_0_r. apply take_drop.
  - intros j Hj Hne. by split.
  - done.
  - intros [] x5 (v' & ws & Hw). apply wp_ret. split; [done|]. exists v', ws. rewrite list_insert_id in Hw; [exact Hw|]. unfold file_at. rewrite (list_lookup_lookup_total_lt _ _ Hlt). f_equal.
    cbn [length]. rewrite Z.add_0_r. by destruct (ftable s !!! f).
Qed.

Lemma wrote_file_app s v f n a b s1 v1 ws1 s2 v2 ws2 : open_file s v f n ->
  wrote_file s v f n a s1 v1 ws1 -> wrote_file s1 v1 f n b s2 v2 ws2 -> wrote_file s v f n (a ++ b) s2 v2 (ws1 ++ ws2).
Proof.
  intros [R Hlt _ _ _ Ho] [A1 A2 A3 A4 A5 A8 [A6 A7]] [B1 B2 B3 B4 B5 B8 [B6 B7]]. pose proof (ar_vol _ _ _ _ R) as V.
  assert (fl_off (file_at s1 f) = fl_off (file_at s f) + Z.of_nat (length a)) as Eo by (rewrite A1, file_at_insert by done; done).
  assert (Z.of_nat (length (content v n)) = size_of v n) as El by (apply length_content; lia). split.
  - rewrite B1. cbn [k_fs]. f_equal; [by rewrite A1| |by rewrite A1]. rewrite Eo, A1, file_at_insert by done. cbn [ftable]. rewrite list_insert_insert_eq.
    f_equal. unfold set_off. cbn. f_equal. rewrite length_app. lia.
  - exact B2.
  - by rewrite B3.
  - rewrite B4, A4, Eo. replace (Z.to_nat (fl_off (file_at s f) + Z.of_nat (length a))) with (Z.to_nat (fl_off (file_at s f)) + length a)%nat by lia. apply splice_app. lia.
  - intros j Hj Hne. pose proof (A5 j Hj Hne) as S. eapply same_inode_trans; [exact S|]. apply B5; [|done]. by eapply same_inode_use.
  - intros lo hi. rewrite length_app, Nat2Z.inj_add. intros [C1 C2]%covers_app; [|lia..]. etransitivity; [by apply A8|]. apply B8. by rewrite Eo.
  - split; [rewrite B6, A6; unfold disk_replay; cbn [blocks writes]; by rewrite replay_app, app_assoc|]. apply crash_safe_app.
    + eapply crash_safe_mono; [|exact A7]. intros u _. apply prefix_first.
    + rewrite A6 in B7. cbn [disk_replay blocks] in B7. eapply crash_safe_mono; [|exact B7]. intros u _ Hu. rewrite Eo in Hu. eapply prefix_next; [|exact A4|exact A5|exact Hu]. lia.
Qed.

Lemma loop_done fuel f i s Q (E : string -> Prop) : Q i s -> wpe (filewrite_loop fuel f [] i) Q E s.
Proof. intros HQ. by destruct fuel. Qed.

(** The bytes in the chunks that fit in a file: the loop stops at the first chunk that would pass the largest size. *)
Definition fitting (off len : Z) : Z :=
  if off + len <=? MAXFILE * Z.of_nat BSIZE then len else WRITE_MAX * ((MAXFILE * Z.of_nat BSIZE - off) / WRITE_MAX).

Lemma fitting_range off len : 0 <= off <= MAXFILE * Z.of_nat BSIZE -> 0 <= len -> 0 <= fitting off len <= len /\ off + fitting off len <= MAXFILE * Z.of_nat BSIZE.
Proof.
  intros Ho Hl. unfold fitting. change WRITE_MAX with 1536. change (MAXFILE * Z.of_nat BSIZE) with 71680 in *. destruct (Z.leb_spec (off + len) 71680); Z.to_euclidean_division_equations; lia.
Qed.

Lemma fitting_first off len : 0 <= off <= MAXFILE * Z.of_nat BSIZE -> 0 < len -> MAXFILE * Z.of_nat BSIZE < off + Z.min len WRITE_MAX -> fitting off len = 0.
Proof.
  unfold fitting. change WRITE_MAX with 1536. change (MAXFILE * Z.of_nat BSIZE) with 71680 in *. intros. rewrite (proj2 (Z.leb_gt _ _)) by lia. Z.to_euclidean_division_equations. lia.
Qed.

Lemma fitting_next off len : WRITE_MAX < len -> off + WRITE_MAX <= MAXFILE * Z.of_nat BSIZE -> fitting off len = WRITE_MAX + fitting (off + WRITE_MAX) (len - WRITE_MAX).
Proof.
  unfold fitting. change WRITE_MAX with 1536. change (MAXFILE * Z.of_nat BSIZE) with 71680 in *. intros. replace (off + 1536 + (len - 1536)) with (off + len) by lia.
  destruct (off + len <=? 71680); [lia|]. Z.to_euclidean_division_equations. lia.
Qed.

Lemma loop_ok (Hlog : 16 <= sb_nlog sb) fuel : forall s v f n src i, open_file s v f n -> Forall is_byte src -> 0 < Z.of_nat (length src) <= Z.of_nat fuel * WRITE_MAX ->
  let k := fitting (fl_off (file_at s f)) (Z.of_nat (length src)) in
  wpe (filewrite_loop fuel f src i) (fun r s' => r = i + k /\ exists v' ws, wrote_file s v f n (take (Z.to_nat k) src) s' v' ws) (no_space sb v (addrs sb v n) (fl_off (file_at s f)) k) s.
Proof.
  induction fuel as [|fuel IH]; intros s v f n src i O Hb Hf k; [lia|]. cbn [filewrite_loop]. pose proof (of_off _ _ _ _ O) as Ho.
  pose proof (ig_size _ _ _ (vo_good _ _ (ar_vol _ _ _ _ (of_rest _ _ _ _ O)) n (open_use _ _ _ _ O))) as Hs. assert (0 <= fl_off (file_at s f) <= MAXFILE * Z.of_nat BSIZE) as Ho' by lia. assert (0 < WRITE_MAX) as HW by done.
  rewrite (proj2 (Z.ltb_lt _ _)) by lia. cbn [negb]. cbv zeta. set (n1 := Z.min (Z.of_nat (length src)) WRITE_MAX). set (a := take (Z.to_nat n1) src). set (b := drop (Z.to_nat n1) src).
  assert (Z.of_nat (length a) = n1) as La by (unfold a; rewrite length_take; lia). assert (a ++ b = src) as Eab by apply take_drop.
  assert (length b = length src - length a)%nat as Lb by (unfold b; rewrite length_drop; lia).
  destruct (decide (fl_off (file_at s f) + n1 <= MAXFILE * Z.of_nat BSIZE)) as [Hfit|Hfit].
  2: { assert (k = 0) as -> by (apply fitting_first; [done|lia|fold n1; lia]). apply wpe_wp, wp_bind. eapply wp_mono; [apply (chunk_fail s v f n a O); lia|].
       intros r s' [-> Hw]. change (-1 <? 0) with true. cbv iota. apply wp_ret. split; [lia|]. by rewrite take_0. }
  assert (n1 <= k) as Hk1.
  { destruct (decide (Z.of_nat (length src) <= WRITE_MAX)); [unfold k, fitting; rewrite (proj2 (Z.leb_le _ _)) by lia; lia|]. unfold k. rewrite fitting_next by lia.
    pose proof (fitting_range (fl_off (file_at s f) + WRITE_MAX) (Z.of_nat (length src) - WRITE_MAX)). lia. }
  eapply wpe_bind, wpe_mono; [apply (chunk_ok s v f n a O Hlog); [by apply Forall_take|lia|lia|lia]| |intros e; apply no_space_wide; rewrite La; unfold covers; lia].
  intros r s1 [-> (v1 & ws1 & W1)]. rewrite La, (proj2 (Z.ltb_ge n1 0)), Z.eqb_refl by lia. cbn [negb]. destruct (decide (b = [])) as [Eb|Hne].
  - rewrite Eb. apply loop_done. rewrite Eb, app_nil_r in Eab. assert (Z.of_nat (length src) = n1) as El by (by rewrite <- La, Eab).
    pose proof (fitting_range (fl_off (file_at s f)) (Z.of_nat (length src)) Ho' ltac:(lia)) as Hfr. fold k in Hfr. assert (k = n1) as -> by lia.
    split; [done|]. exists v1, ws1. unfold a in W1. exact W1.
  - assert (0 < length b)%nat as Hpos by (destruct b; [done|cbn; lia]). assert (f < length (ftable s))%nat as Hlt by apply O.
    assert (n1 = WRITE_MAX) as En by lia. assert (fl_off (file_at s1 f) = fl_off (file_at s f) + n1) as Eo by (rewrite (wf_state _ _ _ _ _ _ _ _ W1), file_at_insert by done; cbn [set_off fl_off]; lia).
    assert (k = n1 + fitting (fl_off (file_at s1 f)) (Z.of_nat (length b))) as Ek by (unfold k; rewrite Eo, En, fitting_next by lia; do 2 f_equal; lia).
    pose proof (fitting_range (fl_off (file_at s1 f)) (Z.of_nat (length b)) ltac:(lia) ltac:(lia)) as Hfr.
    eapply wpe_mono; [apply (IH s1 v1 f n b (i + n1)); [apply W1|by apply Forall_drop|lia]| |].
    + intros r s2 [-> (v2 & ws2 & W2)]. split; [lia|]. exists v2, (ws1 ++ ws2). rewrite <- Eab, Ek. rewrite Z2Nat.inj_add, <- La, Nat2Z.id by lia. rewrite take_app_add. by eapply wrote_file_app.
    + intros e. rewrite Ek. apply no_space_later; [rewrite Eo; unfold covers; lia|]. intros lo hi Hc. apply (wf_spare _ _ _ _ _ _ _ _ W1). rewrite La. unfold covers in *. lia.
Qed.
End fwrite.

Section theorems.
Context `{BD : !BlockDevice} `{DS : !Devsw}.

(** C4 [filewrite] on a regular file, any number of bytes: the bytes go to the file at the offset of the open
    file, which grows if they reach past its end, the offset moves past
    them, the volume is consistent and at rest again, no other file changes and no reference is leaked. It returns the number of
    bytes; its loop ends. When the bytes would pass the largest file, the chunks that fit are written and it returns -1. If the machine crashes after any of the disk writes it makes, and any number of times while
    recovering, the next boot finds a consistent volume in which some prefix of the bytes has been written and nothing
    else has changed. It panics only when fewer blocks are free than those bytes need and the file does not have. *)
Theorem filewrite_spec sb pid s v f n killed src :
  open_file sb pid s v f n -> 16 <= sb_nlog sb -> Forall is_byte src -> 0 < Z.of_nat (length src) ->
  let off := fl_off (file_at s f) in
  let k := fitting off (Z.of_nat (length src)) in
  wpe (filewrite f killed src)
    (fun r s' => r = (if off + Z.of_nat (length src) <=? MAXFILE * Z.of_nat BSIZE then Z.of_nat (length src) else -1) /\
       exists v' ws, wrote_file sb pid s v f n (take (Z.to_nat k) src) s' v' ws)
    (fun e => e = "balloc: out of blocks"%string /\ Z.of_nat (nfree sb v) < missing_blocks v (di_addrs (dinode_at sb v n)) off k) s.
Proof.
  intros O Hlog Hb Hpos off k. pose proof (of_off _ _ _ _ _ _ O) as Ho. pose proof (ig_size _ _ _ (vo_good _ _ (ar_vol _ _ _ _ (of_rest _ _ _ _ _ _ O)) n (open_use _ _ _ _ _ _ O))) as Hs.
  destruct (fitting_range off (Z.of_nat (length src))) as [K1 K2]; [unfold off; lia|lia|]. unfold filewrite. apply wpe_bind_wp, wp_get. cbv zeta. destruct (of_type _ _ _ _ _ _ O) as [-> ->]. cbn [negb].
  eapply wpe_bind, wpe_mono; [eapply (loop_ok sb pid Hlog)| |intros e He; apply no_space_missing in He; [exact He|exact (proj1 Ho)|exact (proj1 K1)|exact K2]]; [exact O|exact Hb| |].
  - change WRITE_MAX with 1536. pose proof (Z.div_mod (Z.of_nat (length src)) 1536 ltac:(done)). pose proof (Z.mod_pos_bound (Z.of_nat (length src)) 1536 eq_refl).
    assert (0 <= Z.of_nat (length src) / 1536) by (apply Z.div_pos; lia). lia.
  - intros r s' [-> Hw]. fold off k in Hw |- *. rewrite Z.add_0_l. apply wpe_wp, wp_ret. split; [|exact Hw]. unfold k, fitting in *. destruct (Z.leb_spec (off + Z.of_nat (length src)) (MAXFILE * Z.of_nat BSIZE)); [by rewrite Z.eqb_refl|].
    rewrite (proj2 (Z.eqb_neq _ _)); [done|lia].
Qed.
End theorems.

(** ** Example: the second file of a new file system *)

#[local] Existing Instance no_devsw.

Definition open_kern (x : fs) (ip : nat) : kern := mkKern (mkKmem (fun _ => 0) 0 true) x [mkFile FD_INODE 1 true true 0 ip 1] ∅.

Lemma filewrite_spec_witness :
  wp (mkfs demo_files) (fun _ s => wp mount_fs
      (fun _ x => wp (iget ROOTDEV 3) (fun ip x1 => wp (filewrite 0 false (str "hello")) (fun r s' => r = 5) (open_kern x1 ip)) x) (boot_image (im_disk s))) img0.
Proof.
  apply demo_mounted. intros x v [R M Ei Nf]. destruct (fresh_cache mksb v) as [_ Er]. pose proof (mt_files _ _ M 1 _ eq_refl) as Hf. pose proof (fi_din _ _ _ _ Hf) as Ed.
  change (Z.of_nat 1 + 2) with 3 in Ed. eapply (iget_ok mksb x v [] 3); [apply R|by vm_compute|rewrite Ei, Er; vm_compute; lia|]. intros ip l' (G1 & G2 & a & y & Ha & -> & Hy & _).
  apply (wp_wpe _ _ (fun _ => False)); [|by intros e []]. eapply wpe_mono; [apply (filewrite_spec mksb 1 (open_kern _ ip) v 0 3 false (str "hello"))| |].
  - split; cbn [open_kern k_fs ftable].
    + destruct R as [R1 R2 R3 R4 R5 R6 R7 R8 R9]. split; cbn [f_l f_sb f_inodes]; [exact R1|exact R2|exact R3|exact R4|exact R5|by rewrite length_insert|exact R7|exact G2|].
      intros n r. rewrite G1, Ei, Er. unfold ref_get. intros [[<- _]|[_ H]]%lookup_insert_Some; [by rewrite Ed|by rewrite lookup_empty in H].
    + cbn. lia.
    + done.
    + exists y. split; [|exact Hy]. apply list_lookup_insert_eq. by eapply lookup_lt_Some.
    + by rewrite Ed.
    + rewrite Ed. cbn. lia.
  - vm_compute. congruence.
  - by repeat constructor.
  - by vm_compute.
  - intros r s' [-> _]. reflexivity.
  - intros e [_ Hm]. change (missing_blocks _ _ _ _) with (missing v (di_addrs (dinode_at mksb v 3)) 0 1) in Hm. pose proof (missing_le v (di_addrs (dinode_at mksb v 3)) 0 1). lia.
Defined.
