(* ===== verification/Proc.v ===== *)
(** * [proc.c]: processes.

    The process table and the operations on it. What an operation does while
    it holds [ptable.lock] is one definition ([..._locked]), so that the
    transition system of [ProcInv] interleaves exactly these sections. *)

From stdpp Require Import gmap.
From S2P Require Import Prelude CString Params Mmu Bio Log Kalloc Vm Fs File.

Inductive procstate := UNUSED | EMBRYO | SLEEPING | RUNNABLE | RUNNING | ZOMBIE.

#[export] Instance procstate_eq_dec : EqDecision procstate.
Proof. solve_decision. Defined.

(** A wait channel is an address: that of a process ([wait]) or of any other
    kernel object. *)
Inductive chan := CProc (p : nat) | CObj (a : Z).

#[export] Instance chan_eq_dec : EqDecision chan.
Proof. solve_decision. Defined.

(** [struct trapframe]. *)
Record trapframe := mkTf {
  tf_edi : Z; tf_esi : Z; tf_ebp : Z; tf_oesp : Z; tf_ebx : Z; tf_edx : Z; tf_ecx : Z; tf_eax : Z;
  tf_gs : Z; tf_fs : Z; tf_es : Z; tf_ds : Z; tf_trapno : Z; tf_err : Z;
  tf_eip : Z; tf_cs : Z; tf_eflags : Z; tf_esp : Z; tf_ss : Z;
}.

Definition tf0 : trapframe := mkTf 0 0 0 0 0 0 0 0 0 0 0 0 0 0 0 0 0 0 0.
Definition set_eax (v : Z) (t : trapframe) : trapframe :=
  mkTf (tf_edi t) (tf_esi t) (tf_ebp t) (tf_oesp t) (tf_ebx t) (tf_edx t) (tf_ecx t) v
    (tf_gs t) (tf_fs t) (tf_es t) (tf_ds t) (tf_trapno t) (tf_err t)
    (tf_eip t) (tf_cs t) (tf_eflags t) (tf_esp t) (tf_ss t).

(** [struct proc]; the saved kernel context and stack contents are left out. *)
Record proc := mkProc {
  p_sz : Z;
  p_pgdir : Z;
  p_kstack : Z;
  p_state : procstate;
  p_pid : Z;
  p_parent : option nat;
  p_tf : trapframe;
  p_chan : option chan;
  p_killed : bool;
  p_ofile : list (option nat);
  p_cwd : option nat;
  p_name : list Z;
}.

(** [ptable] starts zeroed. *)
Definition proc0 : proc := mkProc 0 0 0 UNUSED 0 None tf0 None false (replicate (Z.to_nat NOFILE) None) None (replicate 16 0).
#[export] Instance proc_inhabited : Inhabited proc := populate proc0.

Definition set_sz v p := mkProc v (p_pgdir p) (p_kstack p) (p_state p) (p_pid p) (p_parent p) (p_tf p) (p_chan p) (p_killed p) (p_ofile p) (p_cwd p) (p_name p).
Definition set_pgdir v p := mkProc (p_sz p) v (p_kstack p) (p_state p) (p_pid p) (p_parent p) (p_tf p) (p_chan p) (p_killed p) (p_ofile p) (p_cwd p) (p_name p).
Definition set_kstack v p := mkProc (p_sz p) (p_pgdir p) v (p_state p) (p_pid p) (p_parent p) (p_tf p) (p_chan p) (p_killed p) (p_ofile p) (p_cwd p) (p_name p).
Definition set_state v p := mkProc (p_sz p) (p_pgdir p) (p_kstack p) v (p_pid p) (p_parent p) (p_tf p) (p_chan p) (p_killed p) (p_ofile p) (p_cwd p) (p_name p).
Definition set_pid v p := mkProc (p_sz p) (p_pgdir p) (p_kstack p) (p_state p) v (p_parent p) (p_tf p) (p_chan p) (p_killed p) (p_ofile p) (p_cwd p) (p_name p).
Definition set_parent v p := mkProc (p_sz p) (p_pgdir p) (p_kstack p) (p_state p) (p_pid p) v (p_tf p) (p_chan p) (p_killed p) (p_ofile p) (p_cwd p) (p_name p).
Definition set_tf v p := mkProc (p_sz p) (p_pgdir p) (p_kstack p) (p_state p) (p_pid p) (p_parent p) v (p_chan p) (p_killed p) (p_ofile p) (p_cwd p) (p_name p).
Definition set_chan v p := mkProc (p_sz p) (p_pgdir p) (p_kstack p) (p_state p) (p_pid p) (p_parent p) (p_tf p) v (p_killed p) (p_ofile p) (p_cwd p) (p_name p).
Definition set_killed v p := mkProc (p_sz p) (p_pgdir p) (p_kstack p) (p_state p) (p_pid p) (p_parent p) (p_tf p) (p_chan p) v (p_ofile p) (p_cwd p) (p_name p).
Definition set_ofile v p := mkProc (p_sz p) (p_pgdir p) (p_kstack p) (p_state p) (p_pid p) (p_parent p) (p_tf p) (p_chan p) (p_killed p) v (p_cwd p) (p_name p).
Definition set_cwd v p := mkProc (p_sz p) (p_pgdir p) (p_kstack p) (p_state p) (p_pid p) (p_parent p) (p_tf p) (p_chan p) (p_killed p) (p_ofile p) v (p_name p).
Definition set_name v p := mkProc (p_sz p) (p_pgdir p) (p_kstack p) (p_state p) (p_pid p) (p_parent p) (p_tf p) (p_chan p) (p_killed p) (p_ofile p) (p_cwd p) v.

(** [ptable.proc], [nextpid] and [initproc]. *)
Record ptable := mkPt { procs : list proc; nextpid : Z; initproc : nat }.

Definition upd_proc (i : nat) (f : proc -> proc) (t : ptable) : ptable :=
  mkPt (<[i := f (procs t !!! i)]> (procs t)) (nextpid t) (initproc t).
Definition proc_at (t : ptable) (i : nat) : proc := procs t !!! i.

(** ** The sections under [ptable.lock] *)

Fixpoint find_unused (l : list proc) (i : nat) : option nat :=
  match l with
  | [] => None
  | p :: l' => if decide (p_state p = UNUSED) then Some i else find_unused l' (S i)
  end.

(** [allocproc]: claim an entry and a pid. *)
Definition alloc_locked (t : ptable) : option nat * ptable :=
  match find_unused (procs t) 0 with
  | None => (None, t)
  | Some i =>
      let t := upd_proc i (fun p => set_pid (nextpid t) (set_state EMBRYO p)) t in
      (Some i, mkPt (procs t) (s32 (nextpid t + 1)) (initproc t))
  end.

Definition wakeup1 (c : chan) (l : list proc) : list proc :=
  (fun p => if decide (p_state p = SLEEPING /\ p_chan p = Some c) then set_state RUNNABLE p else p) <$> l.

Definition with_procs (f : list proc -> list proc) (t : ptable) : ptable := mkPt (f (procs t)) (nextpid t) (initproc t).

Definition wakeup (c : chan) (t : ptable) : ptable := with_procs (wakeup1 c) t.

(** The loop of [exit] that passes children to init, from entry [i] on. *)
Fixpoint reparent (fuel : nat) (cur : nat) (i : nat) (t : ptable) : ptable :=
  match fuel with
  | O => t
  | S fuel' =>
      let t :=
        if decide (p_parent (proc_at t i) = Some cur) then
          let t := upd_proc i (set_parent (Some (initproc t))) t in
          if decide (p_state (proc_at t i) = ZOMBIE) then with_procs (wakeup1 (CProc (initproc t))) t else t
        else t in
      reparent fuel' cur (S i) t
  end.

(** [exit] from [acquire] to [sched]. A process without a parent wakes the
    null channel, on which nothing sleeps. *)
Definition exit_locked (cur : nat) (t : ptable) : ptable :=
  let t := match p_parent (proc_at t cur) with Some q => with_procs (wakeup1 (CProc q)) t | None => t end in
  let t := reparent (length (procs t)) cur 0 t in
  upd_proc cur (set_state ZOMBIE) t.

(** The scan of [wait]: a zombie child, or whether there is a child. *)
Fixpoint wait_scan (l : list proc) (i : nat) (cur : nat) (havekids : bool) : option nat * bool :=
  match l with
  | [] => (None, havekids)
  | p :: l' =>
      if decide (p_parent p = Some cur) then
        if decide (p_state p = ZOMBIE) then (Some i, true) else wait_scan l' (S i) cur true
      else wait_scan l' (S i) cur havekids
  end.

Definition reap (p : proc) : proc :=
  set_state UNUSED (set_killed false (set_name (<[0%nat := 0]> (p_name p))
    (set_parent None (set_pid 0 (set_kstack 0 p))))).

(** One turn of the loop of [wait]: the child's entry to free and its pid, a
    return of -1, or sleeping on the own process. *)
Inductive wait_result := Reaped (child : nat) (pid : Z) | NoChild | WaitSleep.

Definition wait_locked (cur : nat) (t : ptable) : wait_result * ptable :=
  match wait_scan (procs t) 0 cur false with
  | (Some i, _) => (Reaped i (p_pid (proc_at t i)), upd_proc i reap t)
  | (None, havekids) =>
      if negb havekids || p_killed (proc_at t cur) then (NoChild, t)
      else (WaitSleep, upd_proc cur (fun p => set_state SLEEPING (set_chan (Some (CProc cur)) p)) t)
  end.

(** [sleep] up to [sched], and after it. *)
Definition sleep_locked (cur : nat) (c : chan) (t : ptable) : ptable :=
  upd_proc cur (fun p => set_state SLEEPING (set_chan (Some c) p)) t.
Definition awake_locked (cur : nat) (t : ptable) : ptable := upd_proc cur (set_chan None) t.

Definition yield_locked (cur : nat) (t : ptable) : ptable := upd_proc cur (set_state RUNNABLE) t.

(** [scheduler]: the next entry it runs, from [i] on. *)
Fixpoint pick (l : list proc) (i : nat) : option nat :=
  match l with
  | [] => None
  | p :: l' => if decide (p_state p = RUNNABLE) then Some i else pick l' (S i)
  end.
Definition run_locked (i : nat) (t : ptable) : ptable := upd_proc i (set_state RUNNING) t.

Fixpoint find_pid (l : list proc) (i : nat) (pid : Z) : option nat :=
  match l with [] => None | p :: l' => if p_pid p =? pid then Some i else find_pid l' (S i) pid end.

Definition kill (pid : Z) (t : ptable) : Z * ptable :=
  match find_pid (procs t) 0 pid with
  | None => (-1, t)
  | Some i =>
      (0, upd_proc i (fun p =>
            let p := set_killed true p in
            if decide (p_state p = SLEEPING) then set_state RUNNABLE p else p) t)
  end.

(** The checks of [sched]: [None] when it switches to the scheduler. *)
Definition sched (holding : bool) (ncli : Z) (p : proc) (fl_if : bool) : option string :=
  if negb holding then Some "sched ptable.lock"%string
  else if negb (ncli =? 1) then Some "sched locks"%string
  else if decide (p_state p = RUNNING) then Some "sched running"%string
  else if fl_if then Some "sched interruptible"%string
  else None.

(** [mycpu]: the index in [cpus] of the running CPU. *)
Fixpoint find_apic (apicids : list Z) (i : nat) (apicid : Z) : option nat :=
  match apicids with [] => None | a :: l => if a =? apicid then Some i else find_apic l (S i) apicid end.
Definition mycpu (apicids : list Z) (fl_if : bool) (lapicid : Z) : nat + string :=
  if fl_if then inr "mycpu called with interrupts enabled"%string
  else match find_apic apicids 0 lapicid with Some i => inl i | None => inr "unknown apicid"%string end.

(** ** Whole operations

    The state: process table, and the kernel below it. *)
Record sys := mkSys { pt : ptable; kn : kern }.

Definition ptop (f : ptable -> ptable) : M sys unit := modify (fun s => mkSys (f (pt s)) (kn s)).
Definition knop {A} (m : M kern A) : M sys A := zoom kn (fun k s => mkSys (pt s) k) m.
Definition vmop {A} (m : M kmem A) : M sys A := knop (memop m).
Definition updp (i : nat) (f : proc -> proc) : M sys unit := ptop (upd_proc i f).
Definition myproc (cur : nat) : M sys proc := gets (fun s => proc_at (pt s) cur).

Section ops.
Context `{!BlockDevice} `{!Devsw}.
(** Kernel addresses: the end of the kernel and the start of its data. *)
Context (end_ data : Z).

(** [allocproc]; the trap frame lies at the top of the kernel stack. *)
Definition allocproc : M sys (option nat) :=
  s ← get;
  let '(r, t) := alloc_locked (pt s) in
  ptop (fun _ => t) ;;
  match r with
  | None => mret None
  | Some i =>
      k ← vmop kalloc;
      updp i (set_kstack k) ;;
      if k =? 0 then updp i (set_state UNUSED) ;; mret None else
      mret (Some i)
  end.

(** [switchuvm]: its checks; what it loads into the processor is in [Seg]. *)
Definition switchuvm (p : proc) : M sys unit :=
  if p_kstack p =? 0 then panic "switchuvm: no kstack" else
  if p_pgdir p =? 0 then panic "switchuvm: no pgdir" else mret tt.

Definition SEG_UCODE : Z := 3.
Definition SEG_UDATA : Z := 4.
Definition DPL_USER : Z := 3.
Definition FL_IF : Z := 0x200.

Definition user_tf : trapframe :=
  let cs := Z.lor (Z.shiftl SEG_UCODE 3) DPL_USER in
  let ds := Z.lor (Z.shiftl SEG_UDATA 3) DPL_USER in
  mkTf 0 0 0 0 0 0 0 0 0 0 ds ds 0 0 0 cs FL_IF PGSIZE ds.

(** [initcode], [size]: the linked-in user program. *)
Definition userinit (initcode size : Z) : M sys unit :=
  p ← allocproc;
  match p with
  | None => fault
  | Some p =>
      ptop (fun t => mkPt (procs t) (nextpid t) p) ;;
      d ← vmop (setupkvm end_ data);
      updp p (set_pgdir d) ;;
      if d =? 0 then panic "userinit: out of memory?" else
      vmop (inituvm d initcode size) ;;
      updp p (set_sz PGSIZE) ;;
      updp p (set_tf user_tf) ;;
      updp p (fun x => set_name (safestrcpy (p_name x) (str "initcode" ++ [0]) 16) x) ;;
      ip ← knop (fsop (namei 0 (str "/")));
      updp p (set_cwd ip) ;;
      updp p (set_state RUNNABLE)
  end.

Definition growproc (cur : nat) (n : Z) : M sys Z :=
  p ← myproc cur;
  let sz := p_sz p in
  r ← (if 0 <? n then r ← vmop (allocuvm end_ (p_pgdir p) sz (u32 (sz + n))); mret (negb (r =? 0), r)
       else if n <? 0 then r ← vmop (deallocuvm end_ (p_pgdir p) sz (u32 (sz + n))); mret (negb (r =? 0), r)
       else mret (true, sz));
  let '(ok, sz) := r in
  if negb ok then mret (-1) else
  updp cur (set_sz sz) ;;
  p ← myproc cur;
  switchuvm p ;;
  mret 0.

Definition fork (cur : nat) : M sys Z :=
  np ← allocproc;
  match np with
  | None => mret (-1)
  | Some np =>
      p ← myproc cur;
      d ← vmop (copyuvm end_ data (p_pgdir p) (p_sz p));
      updp np (set_pgdir d) ;;
      if d =? 0 then
        q ← myproc np;
        vmop (kfree end_ (p_kstack q)) ;;
        updp np (set_kstack 0) ;;
        updp np (set_state UNUSED) ;;
        mret (-1)
      else
      updp np (set_sz (p_sz p)) ;;
      updp np (set_parent (Some cur)) ;;
      updp np (set_tf (set_eax 0 (p_tf p))) ;;
      for_loop (Z.to_nat NOFILE) 0 (fun i =>
        match p_ofile p !!! Z.to_nat i with
        | None => mret tt
        | Some f =>
            f ← knop (filedup f);
            updp np (fun q => set_ofile (<[Z.to_nat i := Some f]> (p_ofile q)) q)
        end) ;;
      (match p_cwd p with
       | None => fault
       | Some ip => ip ← knop (fsop (idup ip)); updp np (set_cwd (Some ip))
       end) ;;
      updp np (fun q => set_name (safestrcpy (p_name q) (p_name p) 16) q) ;;
      q ← myproc np;
      updp np (set_state RUNNABLE) ;;
      mret (p_pid q)
  end.

(** [exit] up to its [sched]. *)
Definition exit_run (cur : nat) : M sys unit :=
  s ← get;
  if (cur =? initproc (pt s))%nat then panic "init exiting" else
  for_loop (Z.to_nat NOFILE) 0 (fun fd =>
    p ← myproc cur;
    match p_ofile p !!! Z.to_nat fd with
    | None => mret tt
    | Some f =>
        knop (fileclose end_ f) ;;
        updp cur (fun q => set_ofile (<[Z.to_nat fd := None]> (p_ofile q)) q)
    end) ;;
  p ← myproc cur;
  (match p_cwd p with
   | None => fault
   | Some ip => knop (fsop (lop begin_op ;; iput ip ;; lop end_op))
   end) ;;
  updp cur (set_cwd None) ;;
  ptop (exit_locked cur).

(** [sched] does not return to a zombie. *)
Definition exit (cur : nat) : M sys unit := exit_run cur ;; sleep.

(** One turn of [wait]; [sleep] ends it when no child has exited. *)
Definition wait (cur : nat) : M sys Z :=
  s ← get;
  match wait_scan (procs (pt s)) 0 cur false with
  | (Some i, _) =>
      let p := proc_at (pt s) i in
      vmop (kfree end_ (p_kstack p)) ;;
      vmop (freevm end_ (p_pgdir p)) ;;
      updp i reap ;;
      mret (p_pid p)
  | (None, _) =>
      let '(r, t) := wait_locked cur (pt s) in
      match r with
      | NoChild => mret (-1)
      | _ => ptop (fun _ => t) ;; sleep
      end
  end.

(** [forkret]: the first process initialises the file system. *)
Definition forkret (first : bool) : M sys unit :=
  if first then knop (fsop (iinit ROOTDEV ;; lop (initlog ROOTDEV))) else mret tt.
End ops.

(** ** [procdump]: a line per process that is in use *)

Definition state_name (s : procstate) : string :=
  match s with
  | UNUSED => "unused" | EMBRYO => "embryo" | SLEEPING => "sleep "
  | RUNNABLE => "runble" | RUNNING => "run   " | ZOMBIE => "zombie"
  end.

(** Pid, state and name; the call stack of sleepers is left out. *)
Definition procdump (t : ptable) : list (Z * string * list Z) :=
  (fun p => (p_pid p, state_name (p_state p), cstr (p_name p))) <$>
    filter (fun p => p_state p <> UNUSED) (procs t).
