(* ===== verification/Seg.v ===== *)
(** * Segments, task state and gates: [mmu.h], [x86.h], [seginit] and [switchuvm] of [vm.c], [tvinit] and [idtinit] of [trap.c].

    The tables are written to memory as the structs of [mmu.h] lay them out, and read back by the processor of [X86]. *)

From S2P Require Import Prelude CString Params Mmu X86 Proc.

(** ** [mmu.h] *)

Definition SEG_KCODE : Z := 1.
Definition SEG_KDATA : Z := 2.
Definition SEG_TSS : Z := 5.
Definition NSEGS : Z := 6.
Definition STA_X : Z := 0x8.
Definition STA_W : Z := 0x2.
Definition STA_R : Z := 0x2.
Definition STS_T32A : Z := 0x9.
Definition STS_IG32 : Z := 0xe.
Definition STS_TG32 : Z := 0xf.

Record segdesc := mkSeg {
  sd_lim_15_0 : Z; sd_base_15_0 : Z; sd_base_23_16 : Z; sd_type : Z; sd_s : Z; sd_dpl : Z; sd_p : Z;
  sd_lim_19_16 : Z; sd_avl : Z; sd_rsv1 : Z; sd_db : Z; sd_g : Z; sd_base_31_24 : Z;
}.
Definition segdesc_fields (d : segdesc) : list (Z * Z) :=
  [(16, sd_lim_15_0 d); (16, sd_base_15_0 d); (8, sd_base_23_16 d); (4, sd_type d); (1, sd_s d); (2, sd_dpl d); (1, sd_p d);
   (4, sd_lim_19_16 d); (1, sd_avl d); (1, sd_rsv1 d); (1, sd_db d); (1, sd_g d); (8, sd_base_31_24 d)].

Definition SEG (type base lim dpl : Z) : segdesc :=
  mkSeg (Z.land (Z.shiftr lim 12) 0xffff) (Z.land base 0xffff) (Z.land (Z.shiftr base 16) 0xff) type 1 dpl 1 (Z.shiftr lim 28) 0 0 1 1 (Z.shiftr base 24).
Definition SEG16 (type base lim dpl : Z) : segdesc :=
  mkSeg (Z.land lim 0xffff) (Z.land base 0xffff) (Z.land (Z.shiftr base 16) 0xff) type 1 dpl 1 (Z.shiftr lim 16) 0 0 1 0 (Z.shiftr base 24).
Definition set_s (v : Z) (d : segdesc) : segdesc :=
  mkSeg (sd_lim_15_0 d) (sd_base_15_0 d) (sd_base_23_16 d) (sd_type d) v (sd_dpl d) (sd_p d) (sd_lim_19_16 d) (sd_avl d) (sd_rsv1 d) (sd_db d) (sd_g d) (sd_base_31_24 d).

Record gatedesc := mkGate { g_off_15_0 : Z; g_cs : Z; g_args : Z; g_rsv1 : Z; g_type : Z; g_s : Z; g_dpl : Z; g_p : Z; g_off_31_16 : Z }.
Definition gatedesc_fields (g : gatedesc) : list (Z * Z) :=
  [(16, g_off_15_0 g); (16, g_cs g); (5, g_args g); (3, g_rsv1 g); (4, g_type g); (1, g_s g); (2, g_dpl g); (1, g_p g); (16, g_off_31_16 g)].
Definition SETGATE (istrap : bool) (sel off d : Z) : gatedesc :=
  mkGate (Z.land off 0xffff) sel 0 0 (if istrap then STS_TG32 else STS_IG32) 0 d 1 (Z.shiftr off 16).

(** [struct taskstate] and [struct cpu]: sizes, and offsets of the fields used. *)
Definition TS_SIZE : Z := 104.
Definition TS_ESP0 : Z := 4.
Definition TS_SS0 : Z := 8.
Definition TS_IOMB : Z := 102.
Definition CPU_SIZE : Z := 176.
Definition CPU_TS : Z := 8.
Definition CPU_GDT : Z := 112.
Definition CPU_NCLI : Z := 164.
Definition CPU_INTENA : Z := 168.

(** ** [x86.h] *)

Definition ldl (a : Z) : M x86 Z := gets (fun s => load32 (x_mem s) a).
Definition stl (a v : Z) : M x86 unit := modify (fun s => set_xmem (store32 (x_mem s) a v) s).
Definition stw (a v : Z) : M x86 unit := modify (fun s => set_xmem (store16 (x_mem s) a v) s).

(** The six bytes [pd] that [lgdt] and [lidt] load: limit and base. *)
Definition table_reg (p size : Z) : Z * Z :=
  let pd0 := u16 (size - 1) in let pd1 := u16 p in let pd2 := u16 (Z.shiftr p 16) in (pd1 + 65536 * pd2, pd0).
Definition lgdt (p size : Z) : M x86 unit := modify (set_gdtr (table_reg p size)).
Definition lidt (p size : Z) : M x86 unit := modify (set_idtr (table_reg p size)).
Definition lcr3 (v : Z) : M x86 unit := modify (set_cr3 v).
Definition readeflags : M x86 Z := gets x_eflags.
Definition cli : M x86 unit := modify (fun s => set_eflags (Z.ldiff (x_eflags s) EF_IF) s).
Definition sti : M x86 unit := modify (fun s => set_eflags (Z.lor (x_eflags s) EF_IF) s).

(** The task register must name an available task state, which becomes busy. *)
Definition ltr (sel : Z) : M x86 unit :=
  s ← get;
  match seg_descriptor s sel with
  | None => fault
  | Some d =>
      if null_sel sel || negb ((d_s d =? 0) && (d_type d =? STS_T32A) && present_desc d) then fault else
      modify (fun s => set_xmem (store64 (x_mem s) ((x_gdtr s).1 + 8 * Z.shiftr sel 3) (Z.lor d (2 ^ 41))) s) ;;
      modify (set_tr sel)
  end.

(** ** [spinlock.c]: [pushcli] and [popcli] on the [struct cpu] at [c] *)

Definition pushcli (c : Z) : M x86 unit :=
  eflags ← readeflags;
  cli ;;
  ncli ← ldl (c + CPU_NCLI);
  (if ncli =? 0 then stl (c + CPU_INTENA) (Z.land eflags FL_IF) else mret tt) ;;
  ncli ← ldl (c + CPU_NCLI);
  stl (c + CPU_NCLI) (ncli + 1).

Definition popcli (c : Z) : M x86 unit :=
  fl ← readeflags;
  if negb (Z.land fl FL_IF =? 0) then panic "popcli - interruptible" else
  ncli ← ldl (c + CPU_NCLI);
  stl (c + CPU_NCLI) (ncli - 1) ;;
  if s32 (ncli - 1) <? 0 then panic "popcli" else
  ncli ← ldl (c + CPU_NCLI);
  intena ← ldl (c + CPU_INTENA);
  if (ncli =? 0) && negb (intena =? 0) then sti else mret tt.

(** ** [vm.c] and [trap.c] *)

Definition set_gdt (c i : Z) (d : segdesc) : M x86 unit :=
  modify (fun s => set_xmem (store64 (x_mem s) (c + CPU_GDT + 8 * i) (pack (segdesc_fields d))) s).
Definition set_idt (idt i : Z) (g : gatedesc) : M x86 unit :=
  modify (fun s => set_xmem (store64 (x_mem s) (idt + 8 * i) (pack (gatedesc_fields g))) s).

(** [cpus]: the array; [id]: [cpuid()]. *)
Definition seginit (cpus id : Z) : M x86 unit :=
  let c := cpus + CPU_SIZE * id in
  set_gdt c SEG_KCODE (SEG (Z.lor STA_X STA_R) 0 0xffffffff 0) ;;
  set_gdt c SEG_KDATA (SEG STA_W 0 0xffffffff 0) ;;
  set_gdt c SEG_UCODE (SEG (Z.lor STA_X STA_R) 0 0xffffffff DPL_USER) ;;
  set_gdt c SEG_UDATA (SEG STA_W 0 0xffffffff DPL_USER) ;;
  lgdt (c + CPU_GDT) (8 * NSEGS).

(** [c]: [mycpu()]; [p]: the fields [kstack] and [pgdir] of the process. *)
Definition switchuvm (c : Z) (p : option (Z * Z)) : M x86 unit :=
  match p with
  | None => panic "switchuvm: no process"
  | Some (kstack, pgdir) =>
      if kstack =? 0 then panic "switchuvm: no kstack" else
      if pgdir =? 0 then panic "switchuvm: no pgdir" else
      pushcli c ;;
      let d := SEG16 STS_T32A (c + CPU_TS) (TS_SIZE - 1) 0 in
      set_gdt c SEG_TSS d ;;
      set_gdt c SEG_TSS (set_s 0 d) ;;
      stw (c + CPU_TS + TS_SS0) (Z.shiftl SEG_KDATA 3) ;;
      stl (c + CPU_TS + TS_ESP0) (u32 (kstack + KSTACKSIZE)) ;;
      stw (c + CPU_TS + TS_IOMB) 0xffff ;;
      ltr (Z.shiftl SEG_TSS 3) ;;
      lcr3 (V2P pgdir) ;;
      popcli c
  end.
Definition switchkvm (kpgdir : Z) : M x86 unit := lcr3 (V2P kpgdir).

(** [traps.h] *)
Definition T_SYSCALL : Z := 64.
Definition T_IRQ0 : Z := 32.
Definition IRQ_TIMER : Z := 0.
Definition IRQ_KBD : Z := 1.
Definition IRQ_COM1 : Z := 4.
Definition IRQ_IDE : Z := 14.
Definition IRQ_SPURIOUS : Z := 31.
Definition IRQ_ERROR : Z := 19.

(** [idt]: the table; [vectors i]: the address of entry point [i]. *)
Fixpoint tvinit_loop (idt : Z) (vectors : Z -> Z) (n : nat) (i : Z) : M x86 unit :=
  match n with
  | O => mret tt
  | S n' => set_idt idt i (SETGATE false (Z.shiftl SEG_KCODE 3) (vectors i) 0) ;; tvinit_loop idt vectors n' (i + 1)
  end.
Definition tvinit (idt : Z) (vectors : Z -> Z) : M x86 unit :=
  tvinit_loop idt vectors 256 0 ;;
  set_idt idt T_SYSCALL (SETGATE true (Z.shiftl SEG_KCODE 3) (vectors T_SYSCALL) DPL_USER).
Definition idtinit (idt : Z) : M x86 unit := lidt idt (8 * 256).

(** ** Descriptors as the processor reads them *)

(** A segment: base, last address, type, privilege level. *)
Record segment := mkSegment { g_base : Z; g_limit : Z; g_kind : Z; g_system : bool; g_level : Z; g_present : bool }.
Definition decode (d : Z) : segment := mkSegment (d_base d) (d_limit d) (d_type d) (d_s d =? 0) (d_dpl d) (d_p d =? 1).

Lemma segdesc_widths d : widths_ok (segdesc_fields d).
Proof. repeat constructor; cbn; lia. Qed.
Lemma gatedesc_widths g : widths_ok (gatedesc_fields g).
Proof. repeat constructor; cbn; lia. Qed.
#[export] Hint Resolve segdesc_widths gatedesc_widths : core.

Lemma segdesc_range d : 0 <= pack (segdesc_fields d) < 2 ^ 64.
Proof. apply pack_range, segdesc_widths. Qed.
Lemma gatedesc_range g : 0 <= pack (gatedesc_fields g) < 2 ^ 64.
Proof. apply pack_range, gatedesc_widths. Qed.

Ltac field k off w := erewrite (bits_pack _ k off w) by (auto || reflexivity).
Ltac fields := change 0xffff with (Z.ones 16); change 0xff with (Z.ones 8); rewrite ?Z.land_ones, ?Z.shiftr_div_pow2 by lia;
  change (2 ^ 1) with 2 in *; change (2 ^ 2) with 4 in *; change (2 ^ 4) with 16 in *; change (2 ^ 8) with 256 in *; change (2 ^ 12) with 4096 in *; change (2 ^ 16) with 65536 in *;
  change (2 ^ 24) with 16777216 in *; change (2 ^ 28) with 268435456 in *; change (2 ^ 32) with 4294967296 in *.

Lemma decode_fields d : sd_g d = 0 \/ sd_g d = 1 ->
  decode (pack (segdesc_fields d)) =
  mkSegment (sd_base_15_0 d mod 2 ^ 16 + 2 ^ 16 * (sd_base_23_16 d mod 2 ^ 8) + 2 ^ 24 * (sd_base_31_24 d mod 2 ^ 8))
    (let l := sd_lim_15_0 d mod 2 ^ 16 + 2 ^ 16 * (sd_lim_19_16 d mod 2 ^ 4) in if sd_g d =? 1 then l * 4096 + 4095 else l)
    (sd_type d mod 2 ^ 4) (sd_s d mod 2 ^ 1 =? 0) (sd_dpl d mod 2 ^ 2) (sd_p d mod 2 ^ 1 =? 1).
Proof.
  intros Hg. unfold decode, d_base, d_limit, d_type, d_s, d_dpl, d_p. rewrite (bits_split _ 16 16 8) by lia.
  field 1%nat 16 16. field 2%nat 32 8. field 12%nat 56 8. field 0%nat 0 16. field 7%nat 48 4. field 11%nat 55 1. field 3%nat 40 4. field 4%nat 44 1. field 5%nat 45 2. field 6%nat 47 1. cbv zeta. by destruct Hg as [-> | ->].
Qed.

Lemma SEG_decode type base lim dpl : 0 <= type < 16 -> 0 <= base < 2 ^ 32 -> 0 <= lim < 2 ^ 32 -> 0 <= dpl < 4 ->
  decode (pack (segdesc_fields (SEG type base lim dpl))) = mkSegment base (lim / 4096 * 4096 + 4095) type false dpl true.
Proof.
  intros Ht Hb Hl Hd. rewrite decode_fields by (by right). unfold SEG. cbn [sd_lim_15_0 sd_base_15_0 sd_base_23_16 sd_type sd_s sd_dpl sd_p sd_lim_19_16 sd_avl sd_rsv1 sd_db sd_g sd_base_31_24]. fields.
  cbv zeta. change (1 =? 1) with true. cbv iota. f_equal; try done; [| |apply Z.mod_small; lia..]; rewrite ?Z.mod_mod by lia; Z.to_euclidean_division_equations; lia.
Qed.

(** C37 The descriptors that [SEG] makes are well formed: for a base, limit, type and level in range no bit field is cut, and the processor reads from the packed
    bytes exactly the base, the limit rounded up to the end of its page, the type and the level, of a segment that is present and not a system segment. *)
Theorem SEG_typed type base lim dpl : 0 <= type < 16 -> 0 <= base < 2 ^ 32 -> 0 <= lim < 2 ^ 32 -> 0 <= dpl < 4 ->
  Forall (fun f => 0 <= f.2 < 2 ^ f.1) (segdesc_fields (SEG type base lim dpl)) /\
  decode (pack (segdesc_fields (SEG type base lim dpl))) = mkSegment base (lim / PGSIZE * PGSIZE + (PGSIZE - 1)) type false dpl true.
Proof.
  intros Ht Hb Hl Hd. split.
  - unfold segdesc_fields, SEG. cbn [sd_lim_15_0 sd_base_15_0 sd_base_23_16 sd_type sd_s sd_dpl sd_p sd_lim_19_16 sd_avl sd_rsv1 sd_db sd_g sd_base_31_24]. fields.
    repeat constructor; cbn [fst snd]; try lia; try (apply Z.mod_pos_bound; lia); Z.to_euclidean_division_equations; lia.
  - by rewrite SEG_decode by done.
Qed.

(** ** The tables *)

Definition segment_of (s : x86) (sel : Z) : option segment := decode <$> seg_descriptor s sel.
Definition flat_code (level : Z) : segment := mkSegment 0 0xffffffff (STA_X + STA_R) false level true.
Definition flat_data (level : Z) : segment := mkSegment 0 0xffffffff STA_W false level true.

Definition KCS : Z := Z.shiftl SEG_KCODE 3.
Definition KDS : Z := Z.shiftl SEG_KDATA 3.
Definition UCS : Z := Z.lor (Z.shiftl SEG_UCODE 3) DPL_USER.
Definition UDS : Z := Z.lor (Z.shiftl SEG_UDATA 3) DPL_USER.

(** The selectors of the kernel and of user programs name segments that cover all memory, at their levels. *)
Record flat (s : x86) : Prop := {
  fl_kcode : segment_of s KCS = Some (flat_code 0);
  fl_kdata : segment_of s KDS = Some (flat_data 0);
  fl_ucode : segment_of s UCS = Some (flat_code 3);
  fl_udata : segment_of s UDS = Some (flat_data 3);
}.

(** The table of the CPU at [c] is loaded. *)
Definition gdt_loaded (c : Z) (s : x86) : Prop := x_gdtr s = (c + CPU_GDT, 47).

Lemma gdt_entry c s sel i : gdt_loaded c s -> Z.land sel 4 = 0 -> Z.shiftr sel 3 = i -> i < 6 -> seg_descriptor s sel = Some (load64 (x_mem s) (c + CPU_GDT + 8 * i)).
Proof. intros Hg Ht Hi H6. unfold seg_descriptor, descriptor. rewrite Ht, Hi, Hg. cbn [negb Z.eqb]. by rewrite (proj2 (Z.leb_le _ _)) by lia. Qed.

Lemma table_reg_ok p size : 0 <= p < 2 ^ 32 -> 0 < size <= 65536 -> table_reg p size = (p, size - 1).
Proof.
  intros Hp Hs. unfold table_reg, u16. rewrite Z.shiftr_div_pow2 by lia. change (2 ^ 16) with 65536. f_equal; Z.to_euclidean_division_equations; lia.
Qed.

(** [seginit] makes the segments and loads the table. *)
Lemma seginit_ok cpus id s (Q : unit -> x86 -> Prop) : let c := cpus + CPU_SIZE * id in 0 <= c -> c + CPU_SIZE <= 2 ^ 32 ->
  (forall m, flat (set_gdtr (c + CPU_GDT, 47) (set_xmem m s)) -> (forall x, x < c + CPU_GDT + 8 \/ c + CPU_GDT + 40 <= x -> m x = x_mem s x) -> Q tt (set_gdtr (c + CPU_GDT, 47) (set_xmem m s))) ->
  wp (seginit cpus id) Q s.
Proof.
  intros c Hc Hmax HQ. unfold seginit. fold c. do 4 (apply wp_bind, wp_modify). unfold lgdt. rewrite table_reg_ok by (unfold CPU_GDT, CPU_SIZE, NSEGS in *; lia). apply wp_modify.
  cbn [x_mem set_xmem]. match goal with |- Q tt (set_gdtr _ (set_xmem ?m _)) => specialize (HQ m) end. apply HQ; clear HQ.
  - split; unfold segment_of; [rewrite (gdt_entry c _ _ 1) by done|rewrite (gdt_entry c _ _ 2) by done|rewrite (gdt_entry c _ _ 3) by done|rewrite (gdt_entry c _ _ 4) by done]; cbn [fmap option_fmap option_map x_mem set_xmem set_gdtr];
      unfold SEG_KCODE, SEG_KDATA, SEG_UCODE, SEG_UDATA; rewrite ?load64_store64_ne by lia; (rewrite load64_store64_eq by apply segdesc_range); by rewrite SEG_decode by (by vm_compute).
  - intros x Hx. unfold SEG_KCODE, SEG_KDATA, SEG_UCODE, SEG_UDATA. by rewrite !store64_frame by lia.
Qed.

(** A gate: the entry point, its code segment, type and level. *)
Record gateway := mkGw { gw_off : Z; gw_sel : Z; gw_type : Z; gw_system : bool; gw_level : Z; gw_present : bool }.
Definition decode_gate (d : Z) : gateway := mkGw (g_off d) (g_sel d) (d_type d) (d_s d =? 0) (d_dpl d) (d_p d =? 1).
Definition gate_of (s : x86) (n : Z) : option gateway := decode_gate <$> descriptor (x_mem s) (x_idtr s) (8 * n).

(** Every trap enters the kernel at its vector; only [T_SYSCALL] may be raised by a user program, and only it leaves interrupts on. *)
Definition gates (vectors : Z -> Z) (s : x86) : Prop :=
  forall n, 0 <= n < 256 -> gate_of s n = Some (mkGw (vectors n) KCS (if decide (n = T_SYSCALL) then STS_TG32 else STS_IG32) true (if decide (n = T_SYSCALL) then DPL_USER else 0) true).

Lemma SETGATE_decode istrap sel off d : 0 <= off < 2 ^ 32 -> 0 <= sel < 2 ^ 16 -> 0 <= d < 4 ->
  decode_gate (pack (gatedesc_fields (SETGATE istrap sel off d))) = mkGw off sel (if istrap then STS_TG32 else STS_IG32) true d true.
Proof.
  intros Ho Hs Hd. unfold decode_gate, g_off, g_sel, d_type, d_s, d_dpl, d_p.
  field 0%nat 0 16. field 8%nat 48 16. field 1%nat 16 16. field 4%nat 40 4. field 5%nat 44 1. field 6%nat 45 2. field 7%nat 47 1.
  unfold SETGATE. cbn [g_off_15_0 g_cs g_args g_rsv1 g_type g_s g_dpl g_p g_off_31_16]. fields.
  f_equal; [rewrite Z.mod_mod by lia; Z.to_euclidean_division_equations; lia|apply Z.mod_small; lia|by destruct istrap|apply Z.mod_small; lia].
Qed.

Definition gate_in (m : mem) (idt n : Z) (istrap : bool) (off d : Z) : Prop := decode_gate (load64 m (idt + 8 * n)) = mkGw off KCS (if istrap then STS_TG32 else STS_IG32) true d true.

Lemma tvinit_loop_ok idt vectors (Hv : forall i, 0 <= i < 256 -> 0 <= vectors i < 2 ^ 32) n : forall i s (Q : unit -> x86 -> Prop), 0 <= i -> i + Z.of_nat n <= 256 ->
  (forall m, (forall j, i <= j < i + Z.of_nat n -> gate_in m idt j false (vectors j) 0) -> (forall x, x < idt + 8 * i \/ idt + 8 * (i + Z.of_nat n) <= x -> m x = x_mem s x) -> Q tt (set_xmem m s)) ->
  wp (tvinit_loop idt vectors n i) Q s.
Proof.
  induction n as [|n IH]; intros i s Q Hi0 Hi1 HQ; cbn [tvinit_loop].
  - apply wp_ret. replace s with (set_xmem (x_mem s) s) by (by destruct s). apply HQ; [lia|done].
  - apply wp_bind, wp_modify. apply IH; [lia|lia|]. intros m Hm Ho. cbn [x_mem set_xmem] in Ho. change (set_xmem m (set_xmem ?x s)) with (set_xmem m s). apply HQ.
    + intros j Hj. destruct (decide (j = i)) as [->|Hne]; [|apply Hm; lia]. unfold gate_in. rewrite (load64_ext (store64 (x_mem s) (idt + 8 * i) (pack (gatedesc_fields (SETGATE false (Z.shiftl SEG_KCODE 3) (vectors i) 0))))) by (intros x Hx; apply Ho; lia).
      rewrite load64_store64_eq by apply gatedesc_range. by rewrite SETGATE_decode by (done || apply Hv; lia).
    + intros x Hx. rewrite Ho by lia. apply store64_frame. lia.
Qed.

(** [tvinit] fills the table, and [idtinit] loads it. *)
Lemma tvinit_ok idt vectors s (Q : unit -> x86 -> Prop) : (forall i, 0 <= i < 256 -> 0 <= vectors i < 2 ^ 32) -> 0 <= idt -> idt + 2048 <= 2 ^ 32 ->
  (forall m, gates vectors (set_idtr (idt, 2047) (set_xmem m s)) -> (forall x, x < idt \/ idt + 2048 <= x -> m x = x_mem s x) -> Q tt (set_idtr (idt, 2047) (set_xmem m s))) ->
  wp (tvinit idt vectors ;; idtinit idt) Q s.
Proof.
  intros Hv Hi Hmax HQ. apply wp_bind. unfold tvinit. apply wp_bind, tvinit_loop_ok; [done|lia|lia|]. intros m Hm Ho. apply wp_modify. unfold idtinit, lidt. rewrite table_reg_ok by lia. apply wp_modify.
  cbn [x_mem set_xmem]. apply HQ.
  - intros n Hn. unfold gate_of, descriptor. cbn [x_idtr set_idtr x_mem set_xmem]. rewrite (proj2 (Z.leb_le _ _)) by lia. cbn [fmap option_fmap option_map]. f_equal. case_decide as Hs.
    + subst n. rewrite load64_store64_eq by apply gatedesc_range. by rewrite SETGATE_decode by (done || by apply Hv).
    + unfold T_SYSCALL in *. rewrite load64_store64_ne by lia. apply (Hm n). lia.
  - intros x Hx. unfold T_SYSCALL. rewrite store64_frame by lia. apply Ho. lia.
Qed.

(** ** [switchuvm] *)

Definition if_set (fl : Z) : bool := Z.testbit fl 9.

Lemma land_if fl : Z.land fl FL_IF = if if_set fl then FL_IF else 0.
Proof.
  unfold if_set. change FL_IF with (2 ^ 9). apply Z.bits_inj'. intros n Hn. rewrite Z.land_spec, Z.pow2_bits_eqb by lia. destruct (Z.eqb_spec 9 n) as [<-|Hne].
  - rewrite andb_true_r. by destruct (Z.testbit fl 9).
  - rewrite andb_false_r. destruct (Z.testbit fl 9); [|by rewrite Z.bits_0]. rewrite Z.pow2_bits_false; [done|lia].
Qed.

Lemma if_cli fl : if_set (Z.ldiff fl EF_IF) = false.
Proof. unfold if_set. rewrite Z.ldiff_spec. by rewrite andb_false_r. Qed.
Lemma if_sti fl : if_set (Z.lor fl EF_IF) = true.
Proof. unfold if_set. rewrite Z.lor_spec. by rewrite orb_true_r. Qed.

Definition mem_same_out (lo hi : Z) (m m' : mem) : Prop := forall x, x < lo \/ hi <= x -> m' x = m x.

Lemma seg_pushcli_ok c s n (Q : unit -> x86 -> Prop) : load32 (x_mem s) (c + CPU_NCLI) = n -> 0 <= n < 2 ^ 31 - 1 ->
  (forall m, load32 m (c + CPU_NCLI) = n + 1 -> (load32 m (c + CPU_INTENA) = if decide (n = 0) then if if_set (x_eflags s) then FL_IF else 0 else load32 (x_mem s) (c + CPU_INTENA)) -> mem_same_out (c + CPU_NCLI) (c + CPU_INTENA + 4) (x_mem s) m ->
     Q tt (set_eflags (Z.ldiff (x_eflags s) EF_IF) (set_xmem m s))) ->
  wp (pushcli c) Q s.
Proof.
  intros Hn Hr HQ. unfold pushcli. apply wp_bind, wp_gets, wp_bind, wp_modify, wp_bind, wp_gets. cbn [x_mem set_eflags]. rewrite Hn. apply wp_bind. unfold CPU_NCLI, CPU_INTENA in *. rewrite land_if.
  destruct (Z.eqb_spec n 0) as [Hz|Hz]; [apply wp_modify|apply wp_ret]; apply wp_bind, wp_gets, wp_modify; cbn [x_mem set_xmem set_eflags].
  - rewrite load32_store32_ne, Hn by lia. match goal with |- Q tt (set_xmem ?m _) => specialize (HQ m) end. apply HQ; clear HQ.
    + by rewrite load32_store32_eq by lia.
    + rewrite decide_True by done. rewrite load32_store32_ne by lia. apply load32_store32_eq. unfold FL_IF. destruct (if_set (x_eflags s)); lia.
    + intros x Hx. by rewrite !store32_frame by lia.
  - rewrite Hn. match goal with |- Q tt (set_xmem ?m _) => specialize (HQ m) end. apply HQ; clear HQ; [by rewrite load32_store32_eq by lia|rewrite decide_False by done; apply load32_store32_ne; lia|]. intros x Hx. by rewrite store32_frame by lia.
Qed.

Lemma seg_popcli_ok c s n (Q : unit -> x86 -> Prop) : load32 (x_mem s) (c + CPU_NCLI) = n + 1 -> 0 <= n < 2 ^ 31 - 1 -> if_set (x_eflags s) = false ->
  (forall m fl, load32 m (c + CPU_NCLI) = n -> if_set fl = (if decide (n = 0) then negb (load32 (x_mem s) (c + CPU_INTENA) =? 0) else false) ->
     mem_same_out (c + CPU_NCLI) (c + CPU_NCLI + 4) (x_mem s) m -> Q tt (set_eflags fl (set_xmem m s))) ->
  wp (popcli c) Q s.
Proof.
  intros Hn Hr Hfl HQ. unfold popcli. apply wp_bind, wp_gets. rewrite land_if, Hfl. cbn [negb Z.eqb]. apply wp_bind, wp_gets. rewrite Hn. apply wp_bind, wp_modify. replace (n + 1 - 1) with n by lia.
  rewrite (proj2 (Z.ltb_ge _ _)) by (unfold s32; Z.to_euclidean_division_equations; lia). apply wp_bind, wp_gets, wp_bind, wp_gets. cbn [x_mem set_xmem]. unfold CPU_NCLI, CPU_INTENA in *.
  rewrite load32_store32_eq, load32_store32_ne by lia. set (m := store32 (x_mem s) (c + 164) n). assert (mem_same_out (c + 164) (c + 164 + 4) (x_mem s) m) as Ho by (intros x Hx; apply store32_frame; lia). assert (load32 m (c + 164) = n) as El by (by apply load32_store32_eq; lia).
  destruct (Z.eqb_spec n 0) as [Hz|Hz]; cbn [andb].
  - destruct (negb (load32 (x_mem s) (c + 168) =? 0)) eqn:Ei.
    + apply wp_modify. cbn [x_eflags set_xmem]. apply HQ; [done| |done]. rewrite if_sti, decide_True by done. done.
    + apply wp_ret. replace (set_xmem m s) with (set_eflags (x_eflags s) (set_xmem m s)) by (by destruct s). apply HQ; [done| |done]. rewrite Hfl, decide_True by done. done.
  - apply wp_ret. replace (set_xmem m s) with (set_eflags (x_eflags s) (set_xmem m s)) by (by destruct s). apply HQ; [done| |done]. by rewrite Hfl, decide_False.
Qed.

Lemma TSS_decode base : 0 <= base < 2 ^ 32 ->
  decode (pack (segdesc_fields (set_s 0 (SEG16 STS_T32A base (TS_SIZE - 1) 0)))) = mkSegment base (TS_SIZE - 1) STS_T32A true 0 true.
Proof.
  intros Hb. rewrite decode_fields by (by left). unfold set_s, SEG16. cbn [sd_lim_15_0 sd_base_15_0 sd_base_23_16 sd_type sd_s sd_dpl sd_p sd_lim_19_16 sd_avl sd_rsv1 sd_db sd_g sd_base_31_24]. fields.
  f_equal; try done. rewrite ?Z.mod_mod by lia. Z.to_euclidean_division_equations; lia.
Qed.

Lemma lor_bound a b n : 0 <= a < 2 ^ n -> 0 <= b < 2 ^ n -> 0 < n -> 0 <= Z.lor a b < 2 ^ n.
Proof.
  intros Ha Hb Hn. split; [apply Z.lor_nonneg; lia|]. destruct (Z.eq_dec (Z.lor a b) 0) as [->|Hne]; [lia|]. assert (0 < Z.lor a b) by (pose proof (proj2 (Z.lor_nonneg a b) ltac:(lia)); lia).
  apply Z.log2_lt_pow2; [done|]. rewrite Z.log2_lor by lia. apply Z.max_lub_lt; [destruct (Z.eq_dec a 0) as [->|]|destruct (Z.eq_dec b 0) as [->|]]; try (cbn; lia); apply Z.log2_lt_pow2; lia.
Qed.

(** The processor goes to [top] when a trap interrupts a user program, and user programs get no port: the I/O bitmap would start after the end of the task state. *)
Record user_ready (c top : Z) (s : x86) : Prop := {
  ur_flat : flat s;
  ur_gdt : gdt_loaded c s;
  ur_tss : tss_stack s = Some (KDS, top);
  ur_ports : exists d, seg_descriptor s (x_tr s) = Some d /\ d_limit d < load16 (x_mem s) (d_base d + TS_IOMB);
}.

Lemma flat_mem c s s' : gdt_loaded c s -> gdt_loaded c s' -> (forall x, c + CPU_GDT <= x < c + CPU_GDT + 40 -> x_mem s' x = x_mem s x) -> flat s -> flat s'.
Proof.
  intros Hg Hg' Hm. assert (forall sel i, Z.land sel 4 = 0 -> Z.shiftr sel 3 = i -> 0 <= i < 5 -> segment_of s' sel = segment_of s sel) as E.
  { intros sel i Ht Hi Hr. unfold segment_of. rewrite !(gdt_entry c _ sel i) by (done || lia). do 2 f_equal. apply load64_ext. intros x Hx. apply Hm. lia. }
  intros [H1 H2 H3 H4]. split; [rewrite (E _ 1)|rewrite (E _ 2)|rewrite (E _ 3)|rewrite (E _ 4)]; done.
Qed.

(** The task state and its descriptor [d], busy, in a memory with the tables of the CPU at [c]. *)
Lemma ready_from c top d s : 0 <= c -> c + CPU_SIZE <= 2 ^ 32 -> 0 <= d < 2 ^ 64 -> d_base d = c + CPU_TS -> d_limit d = TS_SIZE - 1 -> flat s -> gdt_loaded c s -> x_tr s = Z.shiftl SEG_TSS 3 ->
  load64 (x_mem s) (c + CPU_GDT + 8 * SEG_TSS) = Z.lor d (2 ^ 41) -> load16 (x_mem s) (c + CPU_TS + TS_SS0) = KDS -> load32 (x_mem s) (c + CPU_TS + TS_ESP0) = top -> load16 (x_mem s) (c + CPU_TS + TS_IOMB) = 0xffff ->
  user_ready c top s.
Proof.
  intros Hc Hmax Hd Db Dl Hf Hg Htr E5 E8 E4 Eb.
  assert (d_base (Z.lor d (2 ^ 41)) = c + CPU_TS) as Db' by (rewrite <- Db; unfold d_base; by rewrite !bits_setbit by lia).
  assert (d_limit (Z.lor d (2 ^ 41)) = TS_SIZE - 1) as Dl' by (rewrite <- Dl; unfold d_limit; by rewrite !bits_setbit by lia).
  assert (seg_descriptor s (x_tr s) = Some (Z.lor d (2 ^ 41))) as Es by (rewrite Htr, (gdt_entry c s _ SEG_TSS), E5; done).
  split; [done|done| |].
  - unfold tss_stack. rewrite Es, Dl', Db'. change (9 <=? TS_SIZE - 1) with true. cbv iota. fold TS_SS0 TS_ESP0. by rewrite E8, E4.
  - exists (Z.lor d (2 ^ 41)). split; [done|]. by rewrite Dl', Db', Eb.
Qed.

Lemma switchuvm_ok c kstack pgdir s n (Q : unit -> x86 -> Prop) : 0 <= c -> c + CPU_SIZE <= 2 ^ 32 -> flat s -> gdt_loaded c s -> load32 (x_mem s) (c + CPU_NCLI) = n -> 0 <= n < 2 ^ 31 - 1 -> (n <> 0 -> if_set (x_eflags s) = false) ->
  kstack <> 0 -> pgdir <> 0 ->
  (forall m fl, let s' := set_eflags fl (set_cr3 (V2P pgdir) (set_tr (Z.shiftl SEG_TSS 3) (set_xmem m s))) in
     user_ready c (u32 (kstack + KSTACKSIZE)) s' -> if_set fl = if_set (x_eflags s) -> mem_same_out (c + CPU_TS) (c + CPU_SIZE) (x_mem s) m ->
     load32 m (c + CPU_NCLI) = n -> (n <> 0 -> load32 m (c + CPU_INTENA) = load32 (x_mem s) (c + CPU_INTENA)) -> Q tt s') ->
  wp (switchuvm c (Some (kstack, pgdir))) Q s.
Proof.
  intros Hc Hmax Hflat Hg Hn Hr Hif Hk Hp HQ. unfold switchuvm. rewrite (proj2 (Z.eqb_neq _ _) Hk), (proj2 (Z.eqb_neq _ _) Hp). apply wp_bind, (seg_pushcli_ok c s n); [done|done|]. intros m1 Hm1 Hi1 Ho1.
  cbv zeta. do 5 (apply wp_bind, wp_modify). cbn [x_mem set_xmem set_eflags]. unfold CPU_NCLI, CPU_INTENA, CPU_SIZE, CPU_GDT, CPU_TS, TS_SS0, TS_ESP0, TS_IOMB, SEG_TSS in *.
  set (d := pack (segdesc_fields (set_s 0 (SEG16 STS_T32A (c + 8) (TS_SIZE - 1) 0)))). match goal with |- wp _ _ (set_xmem ?m _) => set (m2 := m) end.
  assert (load64 m2 (c + 112 + 8 * 5) = d) as Ed. { unfold m2. rewrite (load64_ext (store64 (store64 m1 (c + 112 + 8 * 5) (pack (segdesc_fields (SEG16 STS_T32A (c + 8) (TS_SIZE - 1) 0)))) (c + 112 + 8 * 5) d)); [apply load64_store64_eq, segdesc_range|]. intros x Hx. by rewrite !store16_frame, !store32_frame, !store16_frame by lia. }
  pose proof (TSS_decode (c + 8) ltac:(lia)) as Dd. fold d in Dd. pose proof (segdesc_range (set_s 0 (SEG16 STS_T32A (c + 8) (TS_SIZE - 1) 0))) as Hd. fold d in Hd. clearbody d.
  pose proof (f_equal g_base Dd) as D1. pose proof (f_equal g_limit Dd) as D2. pose proof (f_equal g_kind Dd) as D3. pose proof (f_equal g_system Dd) as D4. pose proof (f_equal g_present Dd) as D6. cbn [decode g_base g_limit g_kind g_system g_present] in D1, D2, D3, D4, D6.
  apply wp_bind. unfold ltr. apply wp_bind, wp_get. rewrite (gdt_entry c _ _ 5) by (exact Hg || done). cbn [x_mem set_xmem]. unfold CPU_GDT. rewrite Ed. unfold present_desc. rewrite D3, D4, D6. change (null_sel (Z.shiftl 5 3)) with false. change (STS_T32A =? STS_T32A) with true. cbn [orb negb andb].
  apply wp_bind, wp_modify, wp_modify. cbn [x_mem set_xmem x_gdtr set_eflags]. rewrite Hg. cbn [fst]. change (Z.shiftr (Z.shiftl 5 3) 3) with 5. unfold CPU_GDT.
  set (m3 := store64 m2 (c + 112 + 8 * 5) (Z.lor d (2 ^ 41))). assert (load64 m3 (c + 112 + 8 * 5) = Z.lor d (2 ^ 41)) as E5 by (apply load64_store64_eq, lor_bound; lia).
  assert (forall x, c + 12 <= x < c + 112 -> m3 x = m2 x) as E3 by (intros x Hx; apply store64_frame; lia).
  assert (load16 m3 (c + 8 + 8) = KDS) as E8. { rewrite (load16_ext m2) by (intros; apply E3; lia). unfold m2. rewrite (load16_ext (store16 (store64 (store64 m1 (c + 112 + 8 * 5) (pack (segdesc_fields (SEG16 STS_T32A (c + 8) (TS_SIZE - 1) 0)))) (c + 112 + 8 * 5) d) (c + 8 + 8) KDS)) by (intros x Hx; by rewrite store16_frame, store32_frame by lia). by apply load16_store16_eq. }
  assert (load32 m3 (c + 8 + 4) = u32 (kstack + KSTACKSIZE)) as E4. { rewrite (load32_ext _ m2) by (intros; apply E3; lia). unfold m2. rewrite (load32_ext _ (store32 (store16 (store64 (store64 m1 (c + 112 + 8 * 5) (pack (segdesc_fields (SEG16 STS_T32A (c + 8) (TS_SIZE - 1) 0)))) (c + 112 + 8 * 5) d) (c + 8 + 8) KDS) (c + 8 + 4) (u32 (kstack + KSTACKSIZE)))) by (intros x Hx; by rewrite store16_frame by lia). apply load32_store32_eq, u32_range. }
  assert (load16 m3 (c + 8 + 102) = 0xffff) as Eb by (rewrite (load16_ext m2) by (intros; apply E3; lia); by apply load16_store16_eq).
  assert (forall x, x < c + 8 \/ c + 112 <= x < c + 152 \/ c + 160 <= x -> m3 x = m1 x) as Eo by (intros x Hx; unfold m3, m2; by rewrite store64_frame, store16_frame, store32_frame, store16_frame, !store64_frame by lia).
  clearbody m3. clearbody m2. apply wp_bind, wp_modify. cbv [set_cr3 set_tr set_xmem set_eflags x_reg x_seg x_eip x_eflags x_cr3 x_gdtr x_idtr x_tr x_mem]. clear m2 Ed E3. apply (seg_popcli_ok c _ n); cbn [x_mem x_eflags set_cr3 set_tr set_xmem set_eflags]; unfold CPU_NCLI, CPU_INTENA.
  - rewrite <- Hm1. apply load32_ext. intros x Hx. apply Eo. lia.
  - done.
  - apply if_cli.
  - intros m fl Hm Hfl Ho. rewrite (load32_ext m3 m1) in Hfl by (intros; apply Eo; lia). apply (HQ m fl).
    + apply (ready_from c _ d); cbn [x_mem x_tr set_eflags set_cr3 set_tr set_xmem]; unfold CPU_GDT, CPU_TS, TS_SS0, TS_ESP0, TS_IOMB, SEG_TSS; [done|done|done|done|done| |exact Hg|done| | | |].
      * eapply (flat_mem c s); [exact Hg|exact Hg| |exact Hflat]. unfold CPU_GDT. cbn [x_mem]. intros x Hx. rewrite Ho, Eo, Ho1 by lia. done.
      * rewrite (load64_ext m3) by (intros; apply Ho; lia). done.
      * rewrite (load16_ext m3) by (intros; apply Ho; lia). done.
      * rewrite (load32_ext _ m3) by (intros; apply Ho; lia). done.
      * rewrite (load16_ext m3) by (intros; apply Ho; lia). done.
    + rewrite Hfl. case_decide as Hz; [rewrite Hi1; by destruct (if_set (x_eflags s))|by rewrite Hif].
    + intros x Hx. unfold CPU_TS, CPU_SIZE in *. rewrite Ho, Eo, Ho1 by lia. done.
    + exact Hm.
    + intros Hz. rewrite decide_False in Hi1 by done. rewrite <- Hi1. apply load32_ext. intros x Hx. unfold CPU_INTENA in *. rewrite Ho, Eo by lia. done.
Qed.

(** ** What the processor may do with the segments *)

Lemma decode_inv s sel sg : segment_of s sel = Some sg -> exists d, seg_descriptor s sel = Some d /\ d_type d = g_kind sg /\ d_s d = (if g_system sg then 0 else 1) /\ d_dpl d = g_level sg /\ present_desc d = g_present sg.
Proof.
  unfold segment_of. destruct (seg_descriptor s sel) as [d|]; cbn; [|done]. intros [= <-]. exists d. cbn. split_and!; [done|done| |done|done].
  pose proof (bits_range d 44 1 ltac:(lia) ltac:(lia)) as Hr. fold (d_s d) in Hr. destruct (Z.eqb_spec (d_s d) 0); lia.
Qed.

Lemma code_desc s sel lv : segment_of s sel = Some (flat_code lv) ->
  exists d, seg_descriptor s sel = Some d /\ is_code d = true /\ conforming d = false /\ present_desc d = true /\ d_dpl d = lv.
Proof.
  intros (d & Ed & Et & Es & El & Ep)%decode_inv. exists d. split; [done|]. unfold conforming, is_code. rewrite Et, Es. by repeat split.
Qed.

Lemma data_desc s sel lv : segment_of s sel = Some (flat_data lv) ->
  exists d, seg_descriptor s sel = Some d /\ writable d = true /\ readable d = true /\ present_desc d = true /\ d_dpl d = lv.
Proof.
  intros (d & Ed & Et & Es & El & Ep)%decode_inv. exists d. split; [done|]. unfold writable, readable, is_code, is_data. rewrite Et, Es. by repeat split.
Qed.

Lemma stack_seg_ok s sel lv : segment_of s sel = Some (flat_data lv) -> null_sel sel = false -> rpl sel = lv -> stack_ok s lv sel = true.
Proof. intros (d & Ed & Hw & _ & Hp & Hl)%data_desc Hn Hr. unfold stack_ok. by rewrite Hn, Ed, Hr, Hw, Hp, Hl, !Z.eqb_refl. Qed.

(** A selector that a user program can have in a data segment register. *)
Definition user_sel (s : x86) (sel : Z) : Prop :=
  is_half sel /\ (null_sel sel = true \/ exists d, seg_descriptor s sel = Some d /\ readable d = true /\ conforming d = false /\ present_desc d = true /\ d_dpl d = DPL_USER).

Lemma rpl_range sel : 0 <= rpl sel <= 3.
Proof. unfold rpl. change 3 with (Z.ones 2) at 1 2. rewrite Z.land_ones by lia. pose proof (Z.mod_pos_bound sel (2 ^ 2) ltac:(lia)). lia. Qed.

Lemma load_user s r sel (Q : unit -> x86 -> Prop) : user_sel s sel -> Q tt (set_seg r sel s) -> wp (load_data r sel) Q s.
Proof.
  intros [Hs Hu] HQ. unfold load_data. apply wp_bind, wp_get. destruct Hu as [Hn|(d & Ed & Hr & Hc & Hp & Hl)]; [rewrite Hn; by apply wp_modify|].
  destruct (null_sel sel); [by apply wp_modify|]. rewrite Ed, Hr, Hc, Hp, Hl. cbn [andb orb]. rewrite !(proj2 (Z.leb_le _ _)) by (apply rpl_range). by apply wp_modify.
Qed.

Lemma load_kernel s r sel (Q : unit -> x86 -> Prop) : segment_of s sel = Some (flat_data 0) -> rpl sel = 0 -> cpl s = 0 -> Q tt (set_seg r sel s) -> wp (load_data r sel) Q s.
Proof.
  intros (d & Ed & _ & Hr & Hp & Hl)%data_desc Hrp Hc HQ. unfold load_data. apply wp_bind, wp_get. destruct (null_sel sel); [by apply wp_modify|]. rewrite Ed, Hr, Hp, Hl, Hrp, Hc. cbn. rewrite orb_true_r. by apply wp_modify.
Qed.

Lemma drop_user s r (Q : unit -> x86 -> Prop) : user_sel s (x_seg s r) -> cpl s = DPL_USER -> Q tt s -> wp (drop_seg r) Q s.
Proof.
  intros [Hs Hu] Hc HQ. unfold drop_seg. apply wp_bind, wp_get. destruct Hu as [Hn|(d & Ed & Hr & Hcf & Hp & Hl)].
  - rewrite Hn. cbn [negb andb]. destruct (seg_descriptor s (x_seg s r)); by apply wp_ret.
  - rewrite Ed, Hl, Hc, Z.ltb_irrefl, andb_false_r. by apply wp_ret.
Qed.

Lemma flat_same s s' : x_mem s' = x_mem s -> x_gdtr s' = x_gdtr s -> flat s -> flat s'.
Proof.
  intros Em Eg. assert (forall sel, segment_of s' sel = segment_of s sel) as E by (intros sel; unfold segment_of, seg_descriptor; by rewrite Em, Eg). intros [H1 H2 H3 H4]. split; by rewrite E.
Qed.

(** ** Setting up a CPU *)

Lemma gates_mem vectors s s' idt : x_idtr s = (idt, 2047) -> x_idtr s' = (idt, 2047) -> (forall x, idt <= x < idt + 2048 -> x_mem s' x = x_mem s x) -> gates vectors s -> gates vectors s'.
Proof.
  intros E E' Hm Hg n Hn. rewrite <- (Hg n Hn). unfold gate_of, descriptor. rewrite E, E'. rewrite (proj2 (Z.leb_le _ _)) by lia. do 2 f_equal. apply load64_ext. intros x Hx. apply Hm. lia.
Qed.

(** What [main], [mpmain] and [scheduler] run on the first CPU to set up protection, in their order, up to the first process: [seginit] and [tvinit] of [main], [idtinit] of [mpmain], and in [scheduler]
    [sti], the [pushcli] of [acquire(&ptable.lock)], and [switchuvm]. *)
Definition setup_cpu (cpus id idt : Z) (vectors : Z -> Z) (p : Z * Z) : M x86 unit :=
  let c := cpus + CPU_SIZE * id in
  seginit cpus id ;; (tvinit idt vectors ;; idtinit idt) ;;
  sti ;; pushcli c ;; switchuvm c (Some p).

(** A CPU that is about to run a process with this kernel stack and page table, under [ptable.lock]. *)
Record protects (c idt : Z) (vectors : Z -> Z) (kstack pgdir : Z) (s : x86) : Prop := {
  pr_ready : user_ready c (u32 (kstack + KSTACKSIZE)) s;
  pr_gates : gates vectors s;
  pr_idt : x_idtr s = (idt, 2047);
  pr_cr3 : x_cr3 s = V2P pgdir;
  pr_if : if_set (x_eflags s) = false;
  pr_ncli : load32 (x_mem s) (c + CPU_NCLI) = 1;
  pr_intena : load32 (x_mem s) (c + CPU_INTENA) = FL_IF;
}.

(** [switchuvm] of the scheduler, with the tables in place. *)
Lemma switch_protects c idt vectors kstack pgdir s (Q : unit -> x86 -> Prop) : 0 <= c -> c + CPU_SIZE <= 2 ^ 32 -> (c + CPU_SIZE <= idt \/ idt + 2048 <= c) -> kstack <> 0 -> pgdir <> 0 ->
  flat s -> gdt_loaded c s -> gates vectors s -> x_idtr s = (idt, 2047) -> if_set (x_eflags s) = false -> load32 (x_mem s) (c + CPU_NCLI) = 1 -> load32 (x_mem s) (c + CPU_INTENA) = FL_IF ->
  (forall s', protects c idt vectors kstack pgdir s' -> (forall r, x_reg s' r = x_reg s r) -> (forall r, x_seg s' r = x_seg s r) -> x_eip s' = x_eip s -> mem_same_out (c + CPU_TS) (c + CPU_SIZE) (x_mem s) (x_mem s') -> Q tt s') ->
  wp (switchuvm c (Some (kstack, pgdir))) Q s.
Proof.
  intros Hc Hmax Hap Hk Hp Hf Hg Hv Hi Hif Hn Hin HQ. apply (switchuvm_ok c kstack pgdir s 1); try done. intros m fl s' Hr Hfl Ho Hn' Hin'. apply HQ; try done.
  split; try done; [|by rewrite <- Hif|cbn; by rewrite Hin']. apply (gates_mem vectors s s' idt); [done|done| |done]. intros x Hx. apply Ho. unfold CPU_TS, CPU_SIZE in *. lia.
Qed.

Section setup.
Context (cpus id idt kstack pgdir : Z) (vectors : Z -> Z) (s : x86).
Notation c := (cpus + CPU_SIZE * id).
Context (Hc : 0 <= c) (Hcmax : c + CPU_SIZE <= 2 ^ 32) (Hi : 0 <= idt) (Himax : idt + 2048 <= 2 ^ 32) (Hapart : c + CPU_SIZE <= idt \/ idt + 2048 <= c).
Context (Hv : forall i, 0 <= i < 256 -> 0 <= vectors i < 2 ^ 32) (Hk : kstack <> 0) (Hp : pgdir <> 0) (Hn : load32 (x_mem s) (c + CPU_NCLI) = 0).

Lemma setup_ok (Q : unit -> x86 -> Prop) :
  (forall s', protects c idt vectors kstack pgdir s' -> (forall r, x_reg s' r = x_reg s r) -> (forall r, x_seg s' r = x_seg s r) -> x_eip s' = x_eip s -> Q tt s') ->
  wp (setup_cpu cpus id idt vectors (kstack, pgdir)) Q s.
Proof using All.
  intros HQ. unfold setup_cpu. cbv zeta. apply wp_bind, seginit_ok; [done|done|]. intros m1 F1 O1. cbv zeta in F1, O1. set (c0 := c) in *. clearbody c0. unfold CPU_SIZE, CPU_GDT, CPU_NCLI in *. apply wp_bind, tvinit_ok; [done|done|done|]. intros m2 G2 O2. cbn [x_mem set_gdtr set_xmem] in O2.
  match goal with |- wp _ _ ?t => set (s2 := t) end. assert (forall x, x < c0 + 120 \/ c0 + 152 <= x -> x < idt \/ idt + 2048 <= x -> x_mem s2 x = x_mem s x) as O by (intros x Hx Hx'; change (m2 x = x_mem s x); rewrite O2 by lia; apply O1; lia).
  assert (flat s2) as F2. { eapply (flat_mem c0); [| | |exact F1]; [done|done|]. unfold CPU_GDT. intros x Hx. change (m2 x = m1 x). apply O2. lia. }
  assert (load32 (x_mem s2) (c0 + CPU_NCLI) = 0) as N2 by (rewrite <- Hn; apply load32_ext; intros i Hi'; unfold CPU_NCLI; apply O; lia).
  assert (gdt_loaded c0 s2) as Hg2 by done. assert (x_idtr s2 = (idt, 2047)) as Hi2 by done. assert (gates vectors s2) as G2' by exact G2.
  assert ((forall r, x_reg s2 r = x_reg s r) /\ (forall r, x_seg s2 r = x_seg s r) /\ x_eip s2 = x_eip s) as (R2 & S2 & E2) by done. clearbody s2. clear G2 O O1 O2 F1.
  apply wp_bind, wp_modify, wp_bind, (seg_pushcli_ok c0 _ 0); [exact N2|lia|]. cbn [x_eflags set_eflags]. intros m3 N3 I3 O3. rewrite if_sti, decide_True in I3 by done.
  apply (switch_protects c0 idt vectors); cbn [x_mem x_eflags x_idtr x_reg x_seg x_eip set_eflags set_xmem]; try done.
  - eapply (flat_mem c0 s2); [exact Hg2|exact Hg2| |exact F2]. unfold CPU_GDT, CPU_NCLI, CPU_INTENA in *. intros x Hx. apply O3. lia.
  - apply (gates_mem vectors s2 _ idt); [done|done| |done]. unfold CPU_NCLI, CPU_INTENA in *. intros x Hx. apply O3. lia.
  - apply if_cli.
  - intros s' Hs Er Es Ee _. apply HQ; [done|intros q; by rewrite Er, <- R2|intros q; by rewrite Es, <- S2|by rewrite Ee].
Qed.

End setup.

Definition demo_x86 : x86 := mkX86 (fun _ => 7) (fun _ => 0) 0x1000 0x200 0 (0, 0) (0, 0) 0 (fun _ => 0).


Lemma SEG_typed_witness : Forall (fun f => 0 <= f.2 < 2 ^ f.1) (segdesc_fields (SEG (Z.lor STA_X STA_R) 0 0xffffffff DPL_USER)) /\
  decode (pack (segdesc_fields (SEG (Z.lor STA_X STA_R) 0 0xffffffff DPL_USER))) = mkSegment 0 0xffffffff 10 false 3 true.
Proof. apply (SEG_typed (Z.lor STA_X STA_R) 0 0xffffffff DPL_USER); by vm_compute. Defined.
