(* ===== verification/Trapasm.v ===== *)
(** * [trapasm.S], [vectors.pl]: traps into the kernel and returns from them. *)

From S2P Require Import Prelude CString Params Mmu X86 Proc Seg Swtch.

(** ** [vectors.pl] and [trapasm.S] *)

(** The exceptions for which the processor pushes an error code. *)
Definition has_error (i : Z) : bool := (i =? 8) || ((10 <=? i) && (i <=? 14)) || (i =? 17).
Definition vector (i : Z) : list instr := (if negb (has_error i) then [PUSHI 0] else []) ++ [PUSHI i].

Section code.
Context `{!Pushseg}.

Definition trapret : M x86 unit := run [POPAL; POPS GS; POPS FS; POPS ES; POPS DS; ADDI 8 ESP] ;; iret.

(** [trap]: the body of the C function up to its [ret]; [ra]: the address after the call. *)
Definition alltraps (trap : M x86 unit) (ra : Z) : M x86 unit :=
  run [PUSHS DS; PUSHS ES; PUSHS FS; PUSHS GS; PUSHAL; MOVW (Z.shiftl SEG_KDATA 3); MOVAX DS; MOVAX ES; PUSHL ESP] ;;
  run [PUSHI ra] ;; trap ;; run [RET] ;;
  run [ADDI 4 ESP] ;;
  trapret.
End code.

(** [struct trapframe] of [x86.h]: selectors are the lower halves of their words. *)
Definition frame_cells (t : trapframe) : list cell :=
  [Wd (tf_edi t); Wd (tf_esi t); Wd (tf_ebp t); Wd (tf_oesp t); Wd (tf_ebx t); Wd (tf_edx t); Wd (tf_ecx t); Wd (tf_eax t);
   Hf (tf_gs t); Hf (tf_fs t); Hf (tf_es t); Hf (tf_ds t); Wd (tf_trapno t); Wd (tf_err t); Wd (tf_eip t); Hf (tf_cs t); Wd (tf_eflags t); Wd (tf_esp t); Hf (tf_ss t)].
Definition FRAME_SIZE : Z := 76.

(** [allocproc], from the address of the new stack on: the addresses [p->tf] and [p->context]. *)
Definition kstack_init (kstack trapret_addr forkret_addr : Z) (m : mem) : mem * (Z * Z) :=
  let sp := u32 (kstack + KSTACKSIZE) in
  let sp := u32 (sp - FRAME_SIZE) in
  let tf := sp in
  let sp := u32 (sp - 4) in
  let m := store32 m sp trapret_addr in
  let sp := u32 (sp - CONTEXT_SIZE) in
  let context := sp in
  let m := memset m context 0 CONTEXT_SIZE in
  let m := store32 m (context + 16) forkret_addr in
  (m, (tf, context)).

Section asm.
Context `{!Pushseg}.

(** ** Returning to a user program *)

(** A trap frame that the kernel may return to. *)
Record user_frame (s : x86) (t : trapframe) : Prop := {
  uf_cs : tf_cs t = UCS;
  uf_ss : tf_ss t = UDS;
  uf_ds : user_sel s (tf_ds t);
  uf_es : user_sel s (tf_es t);
  uf_fs : user_sel s (tf_fs t);
  uf_gs : user_sel s (tf_gs t);
  uf_vm : Z.land (tf_eflags t) EF_VM = 0;
}.

(** The user program of the frame runs. *)
Record running (t : trapframe) (s : x86) : Prop := {
  rn_eax : x_reg s EAX = tf_eax t; rn_ebx : x_reg s EBX = tf_ebx t; rn_ecx : x_reg s ECX = tf_ecx t; rn_edx : x_reg s EDX = tf_edx t;
  rn_esi : x_reg s ESI = tf_esi t; rn_edi : x_reg s EDI = tf_edi t; rn_ebp : x_reg s EBP = tf_ebp t; rn_esp : x_reg s ESP = tf_esp t;
  rn_cs : x_seg s CS = tf_cs t; rn_ss : x_seg s SS = tf_ss t; rn_ds : x_seg s DS = tf_ds t; rn_es : x_seg s ES = tf_es t; rn_fs : x_seg s FS = tf_fs t; rn_gs : x_seg s GS = tf_gs t;
  rn_eip : x_eip s = tf_eip t; rn_fl : x_eflags s = tf_eflags t;
}.

(** The parts of the machine that only the kernel changes. *)
Definition same_tables (s s' : x86) : Prop := x_cr3 s' = x_cr3 s /\ x_gdtr s' = x_gdtr s /\ x_idtr s' = x_idtr s /\ x_tr s' = x_tr s.

(** The kernel is about to return to the frame at [a]. *)
Record returning (s : x86) (a : Z) (t : trapframe) : Prop := {
  rt_cells : cells (x_mem s) a (frame_cells t);
  rt_low : 0 <= a;
  rt_high : a + FRAME_SIZE < 2 ^ 32;
  rt_cpl : cpl s = 0;
  rt_flat : flat s;
  rt_nt : Z.land (x_eflags s) EF_NT = 0;
  rt_user : user_frame s t;
}.

Lemma iret_user s sp t (Q : unit -> x86 -> Prop) : x_reg s ESP = sp -> cells (x_mem s) sp [Wd (tf_eip t); Hf (tf_cs t); Wd (tf_eflags t); Wd (tf_esp t); Hf (tf_ss t)] -> 0 <= sp -> sp + 20 < 2 ^ 32 ->
  cpl s = 0 -> flat s -> Z.land (x_eflags s) EF_NT = 0 -> user_frame s t -> x_seg s DS = tf_ds t -> x_seg s ES = tf_es t -> x_seg s FS = tf_fs t -> x_seg s GS = tf_gs t ->
  (forall s', x_seg s' CS = UCS -> x_seg s' SS = UDS -> x_seg s' DS = tf_ds t -> x_seg s' ES = tf_es t -> x_seg s' FS = tf_fs t -> x_seg s' GS = tf_gs t ->
     x_eip s' = tf_eip t -> x_eflags s' = tf_eflags t -> x_reg s' ESP = tf_esp t -> (forall r, r <> ESP -> x_reg s' r = x_reg s r) -> x_mem s' = x_mem s -> same_tables s s' -> Q tt s') ->
  wp iret Q s.
Proof.
  intros Hsp C Hlo Hhi Hcpl Hflat Hnt [Ucs Uss Uds Ues Ufs Ugs Uvm] Gds Ges Gfs Ggs HQ. unfold iret. apply wp_bind, wp_gets. rewrite Hnt. cbn [negb Z.eqb].
  apply wp_bind. xpop C. apply wp_bind. xpop C; [by rewrite Ucs|]. apply wp_bind. xpop C. cbv zeta. rewrite Ew, Ucs, Uvm. cbn [negb Z.eqb].
  destruct (code_desc s UCS 3 (fl_ucode s Hflat)) as (d & Ed & Dc & Df & Dp & Dl). apply wp_bind, wp_get. change (seg_descriptor _ UCS) with (seg_descriptor s UCS). rewrite Ed.
  change (cpl (set_reg ESP (sp + 4 + 4 + 4) _)) with (cpl s). rewrite Hcpl, Dc, Df, Dp, Dl. change (rpl UCS) with 3. change (null_sel UCS) with false. cbn [negb andb orb Z.eqb Z.ltb Z.compare Pos.compare Pos.compare_cont Pos.eqb].
  apply wp_bind. xpop C. apply wp_bind. xpop C; [by rewrite Uss|]. cbv zeta. rewrite Ew0, Uss.
  change (stack_ok _ 3 UDS) with (stack_ok s 3 UDS). rewrite (stack_seg_ok s UDS 3) by (done || apply Hflat). cbn [negb].
  apply wp_bind, wp_modify, wp_bind, wp_modify. match goal with |- wp _ _ ?t => set (s1 := t) end.
  assert (cpl s1 = DPL_USER) as Hc1 by (unfold s1, cpl; xread; done).
  assert (x_seg s1 ES = tf_es t) as Ses by (unfold s1; xread; done). assert (x_seg s1 FS = tf_fs t) as Sfs by (unfold s1; xread; done).
  assert (x_seg s1 GS = tf_gs t) as Sgs by (unfold s1; xread; done). assert (x_seg s1 DS = tf_ds t) as Sds by (unfold s1; xread; done).
  apply wp_bind, drop_user; [rewrite Ses; exact Ues|done|]. apply wp_bind, drop_user; [rewrite Sfs; exact Ufs|done|].
  apply wp_bind, drop_user; [rewrite Sgs; exact Ugs|done|]. apply drop_user; [rewrite Sds; exact Uds|done|].
  apply HQ; unfold s1; xread; try done. intros r Hr. repeat ((rewrite reg_set_ne by done) || (progress autorewrite with xread)). done.
Qed.

Lemma trapret_ok s a t (Q : unit -> x86 -> Prop) : returning s a t -> x_reg s ESP = a ->
  (forall s', running t s' -> x_mem s' = x_mem s -> same_tables s s' -> Q tt s') -> wp trapret Q s.
Proof.
  intros [C Hlo Hhi Hcpl Hflat Hnt Huser] Hsp HQ. unfold FRAME_SIZE in *. unfold trapret. apply wp_bind. unfold frame_cells in C.
  apply wp_step. cbn [step].
  do 3 (apply wp_bind, wp_bind; xpop C; apply wp_modify). apply wp_bind. xpop C. do 3 (apply wp_bind, wp_bind; xpop C; apply wp_modify). apply wp_bind; xpop C; apply wp_modify.
  pose proof Huser as [Ucs Uss Uds Ues Ufs Ugs Uvm].
  apply wp_step, wp_bind. xpop C; [apply Ugs|]. rewrite Ew. apply load_user; [exact Ugs|].
  apply wp_step, wp_bind. xpop C; [apply Ufs|]. rewrite Ew0. apply load_user; [exact Ufs|].
  apply wp_step, wp_bind. xpop C; [apply Ues|]. rewrite Ew1. apply load_user; [exact Ues|].
  apply wp_step, wp_bind. xpop C; [apply Uds|]. rewrite Ew2. apply load_user; [exact Uds|].
  apply wp_step, wp_bind, wp_gets, wp_modify, wp_ret. xread. rewrite u32_small by lia. destruct C as (_ & _ & C).
  match goal with |- wp _ _ ?t => set (s1 := t) end. eapply (iret_user s1 (a + 4 + 4 + 4 + 4 + 4 + 4 + 4 + 4 + 4 + 4 + 4 + 4 + 8) t); unfold s1; xread; try done; try lia; try exact Hcpl.
  - match goal with |- cells _ ?x _ => replace x with (a + 4 + 4 + 4 + 4 + 4 + 4 + 4 + 4 + 4 + 4 + 4 + 4 + 4 + 4) by lia end. exact C.
  - apply (flat_same s); [reflexivity|reflexivity|exact Hflat].
  - intros s' S1 S2 S3 S4 S5 S6 S7 S8 S9 Sr Sm St. apply HQ; [|exact Sm|exact St]. split; rewrite ?Sr by discriminate; xread; first [reflexivity|assumption|rewrite Ucs; assumption|rewrite Uss; assumption].
Qed.

(** ** Entering the kernel *)

(** What the frame says of the interrupted program. *)
Definition frame_of (s : x86) (n : Z) (err : option Z) (oesp : Z) : trapframe :=
  mkTf (x_reg s EDI) (x_reg s ESI) (x_reg s EBP) oesp (x_reg s EBX) (x_reg s EDX) (x_reg s ECX) (x_reg s EAX)
    (x_seg s GS) (x_seg s FS) (x_seg s ES) (x_seg s DS) n (default 0 err) (x_eip s) (x_seg s CS) (x_eflags s) (x_reg s ESP) (x_seg s SS).

Definition hw_cells (s : x86) (err : option Z) : list cell :=
  match err with Some e => [Wd e] | None => [] end ++ [Wd (x_eip s); Hf (x_seg s CS); Wd (x_eflags s); Wd (x_reg s ESP); Hf (x_seg s SS)].

(** A user program runs; a trap goes to the stack that ends at [top], of which the lowest address is [lo]. *)
Record user_runs (vectors : Z -> Z) (c lo top : Z) (s : x86) : Prop := {
  us_wf : x86_wf s;
  us_cs : x_seg s CS = UCS;
  us_ready : user_ready c top s;
  us_gates : gates vectors s;
  us_lo : 0 <= lo;
  us_top : lo + 88 <= top < 2 ^ 32;
  us_apart : c + CPU_SIZE <= lo \/ top <= c + CPU_GDT;
}.

(** Trap [n] can happen: [int] only for system calls, an error code when the processor has one. *)
Definition trap_happens (soft : bool) (n : Z) (err : option Z) : Prop :=
  0 <= n < 256 /\ (soft = true -> n = T_SYSCALL) /\ match err with Some e => has_error n = true /\ is_word e | None => has_error n = false end.

Lemma gate_inv vectors s n : gates vectors s -> 0 <= n < 256 -> exists g, descriptor (x_mem s) (x_idtr s) (8 * n) = Some g /\ g_off g = vectors n /\ g_sel g = KCS /\
  d_type g = (if decide (n = T_SYSCALL) then STS_TG32 else STS_IG32) /\ d_s g = 0 /\ d_dpl g = (if decide (n = T_SYSCALL) then DPL_USER else 0) /\ present_desc g = true.
Proof.
  intros Hg Hn. specialize (Hg n Hn). unfold gate_of in Hg. destruct (descriptor (x_mem s) (x_idtr s) (8 * n)) as [g|]; [|discriminate]. apply (inj Some) in Hg. exists g.
  split_and!; [done|exact (f_equal gw_off Hg)|exact (f_equal gw_sel Hg)|exact (f_equal gw_type Hg)|exact (proj1 (Z.eqb_eq _ _) (f_equal gw_system Hg))|exact (f_equal gw_level Hg)|exact (f_equal gw_present Hg)].
Qed.

(** The flags in the kernel. *)
Definition entry_flags (n fl : Z) : Z := Z.ldiff fl (Z.lor (EF_TF + EF_NT + EF_RF + EF_VM) (if decide (n = T_SYSCALL) then 0 else EF_IF)).

(** The checks pass, and the processor switches stacks. *)
Lemma interrupt_checks vectors c lo top s soft n err (Q : unit -> x86 -> Prop) : user_runs vectors c lo top s -> trap_happens soft n err ->
  wp ((setr ESP top ;; modify (set_seg SS KDS) ;; pushseg (x_seg s SS) ;; pushv (x_reg s ESP)) ;;
      pushv (x_eflags s) ;; pushseg (x_seg s CS) ;; pushv (x_eip s) ;; match err with Some e => pushv e | None => mret tt end ;;
      modify (set_seg CS KCS) ;; modify (set_eip (vectors n)) ;; modify (fun s => set_eflags (entry_flags n (x_eflags s)) s)) Q s ->
  wp (interrupt soft n err) Q s.
Proof.
  intros [Hwf Hcs [Hflat Hg Htss _] Hgates Hlo Htop Hap] (Hn & Hsoft & Herr) HQ. unfold interrupt. apply wp_bind, wp_get.
  destruct (gate_inv vectors s n Hgates Hn) as (g & Eg & G1 & G2 & G3 & G4 & G5 & G6). rewrite Eg, G2, G3, G4, G5, G6.
  assert (cpl s = 3) as Hcpl by (unfold cpl; by rewrite Hcs). rewrite Hcpl.
  assert ((Z.lor (if decide (n = T_SYSCALL) then STS_TG32 else STS_IG32) 1 =? 15) = true) as Et by (by case_decide).
  assert ((soft && ((if decide (n = T_SYSCALL) then DPL_USER else 0) <? 3)) = false) as Es by (destruct soft; [rewrite decide_True by (by apply Hsoft); done|done]).
  rewrite Et, Es. cbn [Z.eqb andb negb orb].
  destruct (code_desc s KCS 0 (fl_kcode s Hflat)) as (d & Ed & Dc & Df & Dp & Dl). rewrite Ed, Dc, Df, Dp, Dl. change (null_sel KCS) with false. change (3 <? 0) with false. change (0 <? 3) with true. cbn [andb negb orb].
  rewrite Htss, (stack_seg_ok s KDS 0) by (done || apply Hflat). cbn [negb].
  rewrite G1. assert ((if Z.testbit (if decide (n = T_SYSCALL) then STS_TG32 else STS_IG32) 0 then 0 else EF_IF) = if decide (n = T_SYSCALL) then 0 else EF_IF) as Ef by (by case_decide).
  rewrite Ef. exact HQ.
Qed.

Lemma interrupt_user vectors c lo top s soft n err (Q : unit -> x86 -> Prop) : user_runs vectors c lo top s -> trap_happens soft n err ->
  (forall s1, stacked (x_mem s) lo top (hw_cells s err) (x_mem s1) -> x_reg s1 ESP = top - 4 * Z.of_nat (length (hw_cells s err)) -> (forall r, r <> ESP -> x_reg s1 r = x_reg s r) ->
     x_seg s1 CS = KCS -> x_seg s1 SS = KDS -> (forall r, r <> CS -> r <> SS -> x_seg s1 r = x_seg s r) -> x_eip s1 = vectors n -> x_eflags s1 = entry_flags n (x_eflags s) -> same_tables s s1 -> Q tt s1) ->
  wp (interrupt soft n err) Q s.
Proof.
  intros Hu Ht HQ. apply (interrupt_checks vectors c lo top); [done|done|]. destruct Hu as [[Wr Ws We Wf] Hcs _ _ Hlo Htop _]. destruct Ht as (_ & _ & Herr). pose proof (stacked_nil (x_mem s) lo top) as K0.
  apply wp_bind, wp_bind, wp_modify, wp_bind, wp_modify, wp_bind. xpush K0 K1; [apply Ws|]. xpush K1 K2; [apply Wr|]. apply wp_bind. xpush K2 K3; [exact Wf|]. apply wp_bind. xpush K3 K4; [apply Ws|]. apply wp_bind. xpush K4 K5; [exact We|].
  apply wp_bind. destruct err as [e|]; [xpush K5 K6; [apply Herr|]|apply wp_ret]; apply wp_bind, wp_modify, wp_bind, wp_modify, wp_modify.
  - apply HQ; xread; [exact K6|cbn [length hw_cells app]; lia|intros r Hr; repeat ((rewrite reg_set_ne by exact Hr) || (progress autorewrite with xread)); reflexivity|reflexivity|reflexivity|intros r Hr Hr'; repeat ((rewrite seg_set_ne by assumption) || (progress autorewrite with xread)); reflexivity|reflexivity|reflexivity|split_and!; reflexivity].
  - apply HQ; xread; [exact K5|cbn [length hw_cells app]; lia|intros r Hr; repeat ((rewrite reg_set_ne by exact Hr) || (progress autorewrite with xread)); reflexivity|reflexivity|reflexivity|intros r Hr Hr'; repeat ((rewrite seg_set_ne by assumption) || (progress autorewrite with xread)); reflexivity|reflexivity|reflexivity|split_and!; reflexivity].
Qed.

(** [trap] begins: its argument points to the frame, which holds the state of the interrupted program. *)
Record trap_entered (s : x86) (n : Z) (err : option Z) (lo top ra : Z) (s1 : x86) : Prop := {
  te_sp : x_reg s1 ESP = top - FRAME_SIZE - 8;
  te_call : cells (x_mem s1) (top - FRAME_SIZE - 8) [Wd ra; Wd (top - FRAME_SIZE)];
  te_frame : exists oesp, cells (x_mem s1) (top - FRAME_SIZE) (frame_cells (frame_of s n err oesp));
  te_mem : forall x, x < lo \/ top <= x -> x_mem s1 x = x_mem s x;
  te_cs : x_seg s1 CS = KCS; te_ss : x_seg s1 SS = KDS; te_ds : x_seg s1 DS = KDS; te_es : x_seg s1 ES = KDS;
  te_fl : x_eflags s1 = entry_flags n (x_eflags s);
  te_tables : same_tables s s1;
}.

(** Only the stack pointer and the memory differ. *)
Record only_sp (s s' : x86) : Prop := {
  os_reg : forall r, r <> ESP -> x_reg s' r = x_reg s r;
  os_seg : forall r, x_seg s' r = x_seg s r;
  os_eip : x_eip s' = x_eip s;
  os_fl : x_eflags s' = x_eflags s;
  os_tables : same_tables s s';
}.

(** Since [s0], [l] was pushed on the stack that ends at [hi]; below is room down to [lo]. *)
Record pushed (s0 : x86) (m0 : mem) (lo hi : Z) (l : list cell) (s : x86) : Prop := {
  pu_only : only_sp s0 s;
  pu_stack : stacked m0 lo hi l (x_mem s);
  pu_sp : x_reg s ESP = hi - 4 * Z.of_nat (length l);
}.

Section pushes.
Context (s0 : x86) (m0 : mem) (lo hi : Z) (Hlo : 0 <= lo) (Hhi : hi < 2 ^ 32).

Lemma pushed_at l s c m : pushed s0 m0 lo hi l s -> stacked m0 lo hi (c :: l) m -> pushed s0 m0 lo hi (c :: l) (at_sp (hi - 4 * Z.of_nat (length l) - 4) m s).
Proof using.
  intros [[H1 H2 H3 H4 H5] _ _] Hm. split; [split|..]; unfold at_sp; [|done..|rewrite reg_set; cbn [length]; lia]. intros r Hr. rewrite reg_set_ne, x_reg_set_mem by done. by apply H1.
Qed.

Lemma push_word l s v (Q : unit -> x86 -> Prop) : pushed s0 m0 lo hi l s -> lo + 4 + 4 * Z.of_nat (length l) <= hi -> is_word v -> (forall s', pushed s0 m0 lo hi (Wd v :: l) s' -> Q tt s') -> wp (pushv v) Q s.
Proof using Hlo Hhi. intros Hp Hr Hv HQ. eapply wp_pushv; [apply Hp|apply Hp|lia|lia|lia|done|]. intros m Hm. by apply HQ, pushed_at. Qed.

Lemma push_reg l s r (Q : unit -> x86 -> Prop) : pushed s0 m0 lo hi l s -> r <> ESP -> lo + 4 + 4 * Z.of_nat (length l) <= hi -> is_word (x_reg s0 r) -> (forall s', pushed s0 m0 lo hi (Wd (x_reg s0 r) :: l) s' -> Q tt s') -> wp (v ← reg r; pushv v) Q s.
Proof using Hlo Hhi. intros Hp Hne Hr Hv HQ. apply wp_bind, wp_gets. rewrite (os_reg _ _ (pu_only _ _ _ _ _ _ Hp)) by done. by apply (push_word l). Qed.

Lemma push_seg l s r (Q : unit -> x86 -> Prop) : pushed s0 m0 lo hi l s -> lo + 4 + 4 * Z.of_nat (length l) <= hi -> is_half (x_seg s0 r) -> (forall s', pushed s0 m0 lo hi (Hf (x_seg s0 r) :: l) s' -> Q tt s') -> wp (v ← seg r; pushseg v) Q s.
Proof using Hlo Hhi.
  intros Hp Hr Hv HQ. apply wp_bind, wp_gets. rewrite (os_seg _ _ (pu_only _ _ _ _ _ _ Hp)). eapply wp_pushseg; [apply Hp|apply Hp|lia|lia|lia|done|]. intros m Hm. by apply HQ, pushed_at.
Qed.
End pushes.

Definition err_cells (err : option Z) : list cell := match err with Some e => [Wd e] | None => [] end.

Lemma vector_ok s0 m0 lo hi s n err l (Q : unit -> x86 -> Prop) : 0 <= n < 256 -> (if has_error n then exists e, err = Some e else err = None) -> pushed s0 m0 lo hi (err_cells err ++ l) s ->
  0 <= lo -> lo + 8 + 4 * Z.of_nat (length l) <= hi -> hi < 2 ^ 32 ->
  (forall s', pushed s0 m0 lo hi (Wd n :: Wd (default 0 err) :: l) s' -> Q tt s') -> wp (run (vector n)) Q s.
Proof.
  intros Hn Herr P0 Hlo Hroom Hhi HQ. unfold vector. assert (is_word n) as Wn by (unfold is_word; lia).
  destruct (has_error n); [destruct Herr as [e ->]|subst err]; cbn [negb app err_cells] in *.
  - apply wp_step. eapply push_word; [done|done|exact P0|cbn [length]; lia|done|]. intros s1 P1. by apply wp_ret, HQ.
  - apply wp_step. eapply push_word; [done|done|exact P0|lia|done|]. intros s1 P1. apply wp_step. eapply push_word; [done|done|exact P1|cbn [length]; lia|done|]. intros s2 P2. by apply wp_ret, HQ.
Qed.

Definition regs_cells (s : x86) (oesp : Z) : list cell :=
  [Wd (x_reg s EDI); Wd (x_reg s ESI); Wd (x_reg s EBP); Wd oesp; Wd (x_reg s EBX); Wd (x_reg s EDX); Wd (x_reg s ECX); Wd (x_reg s EAX);
   Hf (x_seg s GS); Hf (x_seg s FS); Hf (x_seg s ES); Hf (x_seg s DS)].

(** The registers are pushed. *)
Lemma save_ok s0 m0 lo hi s l (Q : unit -> x86 -> Prop) : (forall r, is_word (x_reg s0 r)) -> (forall r, is_half (x_seg s0 r)) -> pushed s0 m0 lo hi l s ->
  0 <= lo -> lo + 48 + 4 * Z.of_nat (length l) <= hi -> hi < 2 ^ 32 ->
  (forall s' oesp, pushed s0 m0 lo hi (regs_cells s0 oesp ++ l) s' -> Q tt s') -> wp (run [PUSHS DS; PUSHS ES; PUSHS FS; PUSHS GS; PUSHAL]) Q s.
Proof.
  intros Wr Ws P0 Hlo Hroom Hhi HQ.
  apply wp_step. eapply push_seg; [done|done|exact P0|lia|apply Ws|]. clear P0. intros s1 P1. apply wp_step. eapply push_seg; [done|done|exact P1|cbn [length]; lia|apply Ws|]. clear P1. intros s2 P2.
  apply wp_step. eapply push_seg; [done|done|exact P2|cbn [length]; lia|apply Ws|]. clear P2. intros s3 P3. apply wp_step. eapply push_seg; [done|done|exact P3|cbn [length]; lia|apply Ws|]. clear P3. intros s4 P4.
  apply wp_step. cbn [step]. apply wp_bind, wp_gets. pose proof (pu_sp _ _ _ _ _ _ P4) as Esp. cbn [length] in Esp.
  assert (is_word (x_reg s4 ESP)) as W4 by (unfold is_word; lia). set (oesp := x_reg s4 ESP) in *.
  apply wp_bind. eapply push_reg; [done|done|exact P4|done|cbn [length]; lia|apply Wr|]. clear P4. intros t1 T1. apply wp_bind. eapply push_reg; [done|done|exact T1|done|cbn [length]; lia|apply Wr|]. clear T1. intros t2 T2.
  apply wp_bind. eapply push_reg; [done|done|exact T2|done|cbn [length]; lia|apply Wr|]. clear T2. intros t3 T3. apply wp_bind. eapply push_reg; [done|done|exact T3|done|cbn [length]; lia|apply Wr|]. clear T3. intros t4 T4.
  apply wp_bind. eapply push_word; [done|done|exact T4|cbn [length]; lia|done|]. clear T4. intros t5 T5. apply wp_bind. eapply push_reg; [done|done|exact T5|done|cbn [length]; lia|apply Wr|]. clear T5. intros t6 T6.
  apply wp_bind. eapply push_reg; [done|done|exact T6|done|cbn [length]; lia|apply Wr|]. clear T6. intros t7 T7. eapply push_reg; [done|done|exact T7|done|cbn [length]; lia|apply Wr|]. clear T7. intros t8 T8.
  apply wp_ret. by apply (HQ t8 oesp).
Qed.

(** The kernel's data segments are loaded, and [trap] is called with a pointer to what was pushed. *)
Lemma enter_c m0 lo hi s l ra (Q : unit -> x86 -> Prop) : stacked m0 lo hi l (x_mem s) -> x_reg s ESP = hi - 4 * Z.of_nat (length l) -> 0 <= lo -> lo + 8 + 4 * Z.of_nat (length l) <= hi -> hi < 2 ^ 32 -> is_word ra ->
  flat s -> cpl s = 0 ->
  (forall s', stacked m0 lo hi (Wd ra :: Wd (hi - 4 * Z.of_nat (length l)) :: l) (x_mem s') -> x_reg s' ESP = hi - 4 * Z.of_nat (length l) - 8 ->
     x_seg s' CS = x_seg s CS -> x_seg s' SS = x_seg s SS -> x_seg s' DS = KDS -> x_seg s' ES = KDS -> x_eflags s' = x_eflags s -> same_tables s s' -> Q tt s') ->
  wp (run [MOVW (Z.shiftl SEG_KDATA 3); MOVAX DS; MOVAX ES; PUSHL ESP]) (fun _ s' => wp (run [PUSHI ra]) Q s') s.
Proof.
  intros K0 Hsp Hlo Hroom Hhi Hra Hf Hc HQ. assert (forall a, u16 (65536 * (a / 65536) + KDS) = KDS) as Hax by (intros a; unfold u16; rewrite Z.mul_comm, Z.add_comm, Z.mod_add by lia; done).
  apply wp_step, wp_bind, wp_gets, wp_modify. apply wp_step, wp_bind, wp_gets. xread. rewrite Hax. apply load_kernel; [exact (fl_kdata s Hf)|done|exact Hc|].
  apply wp_step, wp_bind, wp_gets. xread. rewrite Hax. apply load_kernel; [exact (fl_kdata s Hf)|done|exact Hc|].
  apply wp_step, wp_bind, wp_gets. xread. rewrite Hsp. xpush K0 K1; [unfold is_word; lia|]. apply wp_ret, wp_step. cbn [step]. xpush K1 K2; [done|]. apply wp_ret, HQ; xread; [exact K2|cbn [length]; lia|reflexivity..|split_and!; xread; reflexivity].
Qed.

Lemma apart_flat c lo top s s' : user_ready c top s -> (c + CPU_SIZE <= lo \/ top <= c + CPU_GDT) -> (forall x, x < lo \/ top <= x -> x_mem s' x = x_mem s x) -> same_tables s s' -> flat s'.
Proof.
  intros [Hf Hg _ _] Ha Hm (_ & Eg & _). apply (flat_mem c s); [done|unfold gdt_loaded in *; congruence| |done]. intros x Hx. apply Hm. unfold CPU_SIZE, CPU_GDT in *. lia.
Qed.

Lemma only_tables s s' t : same_tables s s' -> same_tables s' t -> same_tables s t.
Proof. intros (A1 & A2 & A3 & A4) (B1 & B2 & B3 & B4). split_and!; congruence. Qed.

(** From the trap to the call of [trap]. *)
Lemma trap_entry vectors c lo top s soft n err ra (k : M x86 unit) (Q : unit -> x86 -> Prop) : user_runs vectors c lo top s -> trap_happens soft n err -> is_word ra ->
  (forall s1, trap_entered s n err lo top ra s1 -> wp k Q s1) ->
  wp (interrupt soft n err ;; run (vector n) ;; run [PUSHS DS; PUSHS ES; PUSHS FS; PUSHS GS; PUSHAL; MOVW (Z.shiftl SEG_KDATA 3); MOVAX DS; MOVAX ES; PUSHL ESP] ;; run [PUSHI ra] ;; k) Q s.
Proof.
  intros Hu Ht Hra HQ. apply wp_bind. eapply interrupt_user; [exact Hu|exact Ht|]. intros b K Esp Er Ecs Ess Es Eip Efl Etab. destruct Hu as [[Wr Ws We Wf] Hcs Hready Hgates Hlo Htop Hap]. destruct Ht as (Hn & _ & Herr).
  assert (pushed b (x_mem s) lo top (hw_cells s err) b) as P0 by (split; [by split|exact K|exact Esp]).
  assert (4 * Z.of_nat (length (hw_cells s err)) <= 24) as Hhw by (destruct err; cbn [length hw_cells app]; lia).
  set (l0 := [Wd (x_eip s); Hf (x_seg s CS); Wd (x_eflags s); Wd (x_reg s ESP); Hf (x_seg s SS)]).
  apply wp_bind. eapply (vector_ok b (x_mem s) lo top b n err l0); [done|destruct err as [e|]; [destruct Herr as [-> _]; by exists e|by rewrite Herr]|exact P0|done|cbn [length l0]; lia|lia|]. intros s2 P2.
  apply wp_bind. change ([PUSHS DS; PUSHS ES; PUSHS FS; PUSHS GS; PUSHAL; MOVW (Z.shiftl SEG_KDATA 3); MOVAX DS; MOVAX ES; PUSHL ESP]) with ([PUSHS DS; PUSHS ES; PUSHS FS; PUSHS GS; PUSHAL] ++ [MOVW (Z.shiftl SEG_KDATA 3); MOVAX DS; MOVAX ES; PUSHL ESP]). apply run_app.
  eapply (save_ok b); [| |exact P2|done|cbn [length l0]; lia|lia|].
  { intros r. destruct (decide (r = ESP)) as [->|Hr]; [rewrite Esp; unfold is_word; lia|rewrite Er by done; apply Wr]. }
  { intros r. destruct (decide (r = CS)) as [->|H1]; [by rewrite Ecs|]. destruct (decide (r = SS)) as [->|H2]; [by rewrite Ess|]. rewrite Es by done. apply Ws. }
  intros s3 oesp [O3 K3 E3].
  assert (regs_cells b oesp ++ Wd n :: Wd (default 0 err) :: l0 = frame_cells (frame_of s n err oesp)) as El by (unfold regs_cells, l0; by rewrite !Er, !Es by done).
  rewrite El in K3, E3. clear El. destruct O3 as [_ Oseg _ Ofl Otab]. pose proof (only_tables _ _ _ Etab Otab) as Tab3. pose proof K3 as [_ Hout].
  eapply (wp_mono _ (fun _ s' => wp (run [PUSHI ra]) (fun _ s'' => wp k Q s'') s')); [|intros [] s5 H5; apply wp_bind; exact H5].
  eapply (enter_c (x_mem s) lo top s3 (frame_cells (frame_of s n err oesp))); [exact K3|exact E3|done|cbn [length frame_cells]; lia|lia|exact Hra|eapply apart_flat; [exact Hready|exact Hap|exact Hout|exact Tab3]|unfold cpl; by rewrite Oseg, Ecs|].
  change (length (frame_cells (frame_of s n err oesp))) with 19%nat. intros s4 [C4 Out4] E4 Ecs4 Ess4 Eds4 Ees4 Efl4 Tab4.
  change (length (Wd ra :: Wd (top - 4 * Z.of_nat 19) :: frame_cells (frame_of s n err oesp))) with 21%nat in C4. replace (top - 4 * Z.of_nat 21) with (top - FRAME_SIZE - 8) in C4 by (unfold FRAME_SIZE; lia).
  replace (top - 4 * Z.of_nat 19) with (top - FRAME_SIZE) in * by (unfold FRAME_SIZE; lia). destruct C4 as (C1 & C2 & C3). replace (top - FRAME_SIZE - 8 + 4 + 4) with (top - FRAME_SIZE) in C3 by lia.
  apply HQ. split; [exact E4|done|by exists oesp|done|rewrite Ecs4, Oseg; exact Ecs|rewrite Ess4, Oseg; exact Ess|done|done|congruence|exact (only_tables _ _ _ Tab3 Tab4)].
Qed.

(** [trap] has returned to the call: the frame is now [t]. *)
Record trap_done (top ra : Z) (t : trapframe) (s : x86) : Prop := {
  td_sp : x_reg s ESP = top - FRAME_SIZE - 8;
  td_ra : load32 (x_mem s) (top - FRAME_SIZE - 8) = ra;
  td_frame : returning s (top - FRAME_SIZE) t;
}.

Lemma returning_same s s' a t : x_mem s' = x_mem s -> x_gdtr s' = x_gdtr s -> x_seg s' CS = x_seg s CS -> x_eflags s' = x_eflags s -> returning s a t -> returning s' a t.
Proof.
  intros Em Eg Ec Ef [H2 H3 H4 H5 H6 H7 [U1 U2 U3 U4 U5 U6 U7]]. assert (forall sel, user_sel s sel -> user_sel s' sel) as Eu by (intros sel; unfold user_sel, seg_descriptor; by rewrite Em, Eg).
  split; rewrite ?Em; [done|done|done|unfold cpl in *; congruence|by apply (flat_same s)|congruence|]. split; [done|done|by apply Eu..|done].
Qed.

Lemma trap_exit top ra t s (Q : unit -> x86 -> Prop) : trap_done top ra t s -> FRAME_SIZE + 8 <= top -> (forall s', running t s' -> x_mem s' = x_mem s -> same_tables s s' -> Q tt s') ->
  wp (run [RET] ;; run [ADDI 4 ESP] ;; trapret) Q s.
Proof.
  intros [Hsp Hra Hret] Htop HQ. pose proof (rt_high _ _ _ Hret) as Hh. unfold FRAME_SIZE in *. apply wp_bind, wp_step, wp_bind.
  eapply (wp_popv _ (top - 76 - 8) ra []); [done|split; [exact Hra|done]|lia|lia|]. intros _. apply wp_modify, wp_ret, wp_bind, wp_step, wp_bind, wp_gets, wp_modify, wp_ret. xread. rewrite u32_small by lia.
  eapply (trapret_ok _ (top - 76) t); [eapply returning_same; [..|exact Hret]; reflexivity|xread; lia|]. intros s' Hr Hm Ht. apply HQ; [done|exact Hm|exact Ht].
Qed.

(** C7 Traps from user programs and back: whatever trap [n] interrupts a user program (only a system call can be raised by the program itself), the processor, the vector's code and [alltraps]
    get to [trap] in kernel mode, on the process's kernel stack, with a frame that holds every register of the program, the trap number and the error code; all other memory is as it was.
    And when [trap] returns, having made the frame any frame of a user program, [trapret] goes back to user mode with exactly the registers of the frame, and changes no memory. *)
Theorem trap_roundtrip vectors c lo top s soft n err ra (trap : M x86 unit) (Q : unit -> x86 -> Prop) : user_runs vectors c lo top s -> trap_happens soft n err -> is_word ra ->
  (forall s1, trap_entered s n err lo top ra s1 -> wp trap (fun _ s2 => exists t, trap_done top ra t s2 /\ forall s', running t s' -> x_mem s' = x_mem s2 -> same_tables s2 s' -> Q tt s') s1) ->
  wp (interrupt soft n err ;; run (vector n) ;; alltraps trap ra) Q s.
Proof.
  intros Hu Ht Hra HT. unfold alltraps. eapply trap_entry; [exact Hu|exact Ht|exact Hra|]. intros s1 H1. apply wp_bind. eapply wp_mono; [exact (HT s1 H1)|].
  intros [] s2 (t & Hd & HQ). eapply trap_exit; [exact Hd|destruct Hu; unfold FRAME_SIZE; lia|exact HQ].
Qed.

(** ** A new process *)

Lemma kstack_init_ok kstack tr fr m : 0 < kstack -> kstack + KSTACKSIZE < 2 ^ 32 -> is_word tr -> is_word fr ->
  let '(m', (tf, ctx)) := kstack_init kstack tr fr m in
  tf = kstack + KSTACKSIZE - FRAME_SIZE /\ ctx = tf - 4 - CONTEXT_SIZE /\ cells m' ctx (context_cells (mkContext 0 0 0 0 fr) ++ [Wd tr]) /\ forall x, x < ctx \/ tf <= x -> m' x = m x.
Proof.
  intros Hk Hmax Htr Hfr. unfold kstack_init, is_word, KSTACKSIZE, FRAME_SIZE, CONTEXT_SIZE in *. cbv zeta. rewrite (u32_small (kstack + 4096)) by lia. rewrite (u32_small (kstack + 4096 - 76)) by lia. set (tf := kstack + 4096 - 76). rewrite (u32_small (tf - 4)) by lia. rewrite (u32_small (tf - 4 - 20)) by lia. split; [done|]. split; [lia|]. replace (tf - 4 - 20 + 16) with (tf - 8) by lia.
  assert (forall a, tf - 24 <= a -> a + 4 <= tf - 8 -> load32 (store32 (memset (store32 m (tf - 4) tr) (tf - 4 - 20) 0 20) (tf - 8) fr) a = 0) as Hz.
  { intros a Ha Hb. rewrite load32_store32_ne by lia. transitivity (load32 (fun _ => 0) a); [|done]. apply load32_ext. intros i Hi. rewrite memset_spec by lia. zdec. }
  split.
  - cbn [context_cells app cells cell_at c_edi c_esi c_ebx c_ebp c_eip]. split_and!; [apply Hz; lia..| | |done].
    + replace (tf - 4 - 20 + 4 + 4 + 4 + 4) with (tf - 8) by lia. by apply load32_store32_eq.
    + replace (tf - 4 - 20 + 4 + 4 + 4 + 4 + 4) with (tf - 4) by lia. rewrite load32_store32_ne by lia. rewrite <- (load32_store32_eq m (tf - 4) tr) at 2 by done. apply load32_ext. intros i Hi. rewrite memset_spec by lia. zdec.
  - intros x Hx. rewrite store32_frame by lia. rewrite memset_spec by lia. rewrite <- (store32_frame m (tf - 4) tr x) by lia. zdec.
Qed.

(** C21 A new process gets to user mode: on the stack that [allocproc] makes, the first [swtch] to its context runs [forkret], and when that returns, having left the
    stack as it found it, the processor runs [trapret] on the trap frame at the top of the stack and goes to user mode with the registers of the frame. *)
Theorem first_run kstack tr fr m0 s sp ra old t : 0 < kstack -> kstack + KSTACKSIZE < 2 ^ 32 -> is_word tr -> is_word fr ->
  let '(m, (tf, ctx)) := kstack_init kstack tr fr m0 in
  calls_swtch s sp ra old ctx -> (forall x, ctx <= x < tf -> x_mem s x = m x) -> (old + 4 <= ctx \/ tf <= old) -> (sp <= ctx \/ tf <= sp - 16) ->
  wp (run swtch) (fun _ s1 => x_eip s1 = fr /\ load32 (x_mem s1) (x_reg s1 ESP) = tr /\
    forall forkret : M x86 unit, wp forkret (fun _ s2 => x_reg s2 ESP = x_reg s1 ESP /\ load32 (x_mem s2) (x_reg s1 ESP) = load32 (x_mem s1) (x_reg s1 ESP) /\ returning s2 tf t) s1 ->
      wp (forkret ;; run [RET]) (fun _ s3 => x_eip s3 = tr /\ wp trapret (fun _ s4 => running t s4) s3) s1) s.
Proof.
  intros Hk Hmax Htr Hfr. pose proof (kstack_init_ok kstack tr fr m0 Hk Hmax Htr Hfr) as Hi. destruct (kstack_init kstack tr fr m0) as [m [tf ctx]]. destruct Hi as (Etf & Ectx & Hc & _).
  intros Hcall Hm Hold Hsp. unfold CONTEXT_SIZE, FRAME_SIZE, KSTACKSIZE in *. assert (cells (x_mem s) ctx (context_cells (mkContext 0 0 0 0 fr) ++ [Wd tr])) as Hc'.
  { eapply cells_same; [|exact Hc]. cbn [length context_cells app]. intros x Hx. apply Hm. lia. }
  apply cells_app in Hc' as [Hc1 [Hc2 _]]. cbn [length context_cells cell_at] in Hc2. eapply (swtch_ok s sp ra old ctx); [exact Hcall|exact Hc1|]. intros s1 [R1 R2] _ _ Hout. unfold CONTEXT_SIZE in R2.
  assert (x_eip s1 = fr) as Eip by exact (f_equal c_eip R1). assert (load32 (x_mem s1) (x_reg s1 ESP) = tr) as Ett.
  { rewrite R2, <- Hc2. change (4 * Z.of_nat 5) with 20. apply load32_ext. intros i Hi'. apply Hout; lia. }
  split; [done|]. split; [done|]. intros forkret Hf. apply wp_bind. eapply wp_mono; [exact Hf|]. intros [] s2 (E1 & E2 & Hret). pose proof (rt_high _ _ _ Hret) as Hh. pose proof (rt_low _ _ _ Hret) as Hl. unfold FRAME_SIZE in Hh.
  apply wp_step, wp_bind. eapply (wp_popv _ (x_reg s1 ESP) tr []); [done|split; [cbn [cell_at]; congruence|done]|lia|lia|]. intros _. apply wp_modify, wp_ret. split; [done|].
  eapply (trapret_ok _ tf t); [eapply returning_same; [..|exact Hret]; reflexivity|rewrite x_reg_set_eip, reg_set; lia|]. intros s4 Hr _ _. exact Hr.
Qed.
End asm.

(** Writing [tf->eax]. *)
Lemma frame_set_eax m a t v : is_word v -> cells m a (frame_cells t) -> cells (store32 m (a + 28) v) a (frame_cells (set_eax v t)).
Proof.
  intros Hv Hc. change (frame_cells t) with (take 7 (frame_cells t) ++ [Wd (tf_eax t)] ++ drop 8 (frame_cells t)) in Hc. change (frame_cells (set_eax v t)) with (take 7 (frame_cells t) ++ [Wd v] ++ drop 8 (frame_cells t)).
  rewrite !cells_app in *. destruct Hc as (H1 & H2 & H3). split_and!.
  - eapply cells_same; [|exact H1]. intros x Hx. apply store32_frame. cbn [length take frame_cells] in Hx. lia.
  - split; [|done]. cbn [cell_at]. change (length (take 7 (frame_cells t))) with 7%nat. change (4 * Z.of_nat 7) with 28. by apply load32_store32_eq.
  - eapply cells_same; [|exact H3]. intros x Hx. apply store32_frame. cbn [length take drop frame_cells] in Hx. lia.
Qed.

(** ** An example: a CPU is set up, a user program makes a system call, and [trap] returns 42 in [tf->eax]. *)

#[local] Instance demo_push : Pushseg := false.
Definition demo_top : Z := 0x8df01000.
Definition demo_trap : M x86 unit := modify (fun s => set_xmem (store32 (x_mem s) (demo_top - FRAME_SIZE + 28) 42) s).
Definition to_user (s : x86) : x86 :=
  set_eflags 0x202 (set_seg CS UCS (set_seg SS UDS (set_seg DS UDS (set_seg ES UDS (set_seg FS 0 (set_seg GS 0 s)))))).

Lemma user_uds s : flat s -> user_sel s UDS.
Proof. intros Hf. split; [by vm_compute|right]. destruct (decode_inv _ _ _ (fl_udata s Hf)) as (d & Ed & Et & Es & El & Ep). exists d. unfold readable, conforming, is_data, is_code. by rewrite Ed, Et, Es, El. Qed.

Lemma user_null s : user_sel s 0.
Proof. split; [by vm_compute|by left]. Qed.

Lemma demo_returning c s s1 : let u := to_user s in user_ready c demo_top u -> c + CPU_SIZE <= demo_top - 4096 -> trap_entered u 64 None (demo_top - 4096) demo_top 0x80106000 s1 -> exists t,
  trap_done demo_top 0x80106000 t (set_xmem (store32 (x_mem s1) (demo_top - FRAME_SIZE + 28) 42) s1) /\ tf_eax t = 42 /\ tf_ebx t = x_reg s EBX.
Proof.
  intros u Hu Hc [E1 [E2 _] (oesp & E3) Eo Ecs _ _ _ Efl Et]. exists (set_eax 42 (frame_of u 64 None oesp)). split; [|done]. set (s2 := set_xmem (store32 (x_mem s1) (demo_top - FRAME_SIZE + 28) 42) s1).
  assert (flat s2) as Hf. { eapply apart_flat; [exact Hu|left; exact Hc| |exact Et]. intros x Hx. change (store32 (x_mem s1) (demo_top - FRAME_SIZE + 28) 42 x = x_mem u x). unfold FRAME_SIZE, demo_top in *. rewrite store32_frame by lia. by apply Eo. }
  split; [exact E1| |split].
  - change (load32 (store32 (x_mem s1) (demo_top - FRAME_SIZE + 28) 42) (demo_top - FRAME_SIZE - 8) = 0x80106000). rewrite load32_store32_ne by lia. exact E2.
  - by apply frame_set_eax.
  - unfold FRAME_SIZE, demo_top. lia.
  - unfold FRAME_SIZE, demo_top. lia.
  - unfold cpl. change (x_seg s2 CS) with (x_seg s1 CS). by rewrite Ecs.
  - exact Hf.
  - change (x_eflags s2) with (x_eflags s1). by rewrite Efl.
  - split; [done|done|by apply user_uds|by apply user_uds|apply user_null|apply user_null|done].
Qed.

Lemma trap_roundtrip_witness :
  wp (setup_cpu 0x80112000 1 0x80114000 (fun n => 0x80105000 + 8 * n) (0x8df00000, 0x8de00000) ;; modify to_user ;;
      interrupt true 64 None ;; run (vector 64) ;; alltraps demo_trap 0x80106000) (fun _ s' => x_reg s' EAX = 42 /\ x_reg s' EBX = 7 /\ cpl s' = 3) demo_x86.
Proof.
  apply wp_bind, setup_ok; [unfold CPU_SIZE; lia|unfold CPU_SIZE; lia|lia|lia|unfold CPU_SIZE; lia|lia|lia|lia|reflexivity|]. intros s [Hr Hg _ _ _ _ _] Er Es Ei. apply wp_bind, wp_modify. set (u := to_user s).
  assert (user_ready (0x80112000 + CPU_SIZE * 1) demo_top u) as Hu by (destruct Hr as [H1 H2 H3 H4]; split; [by apply (flat_same s)|done|exact H3|exact H4]).
  apply (trap_roundtrip (fun n => 0x80105000 + 8 * n) (0x80112000 + CPU_SIZE * 1) (demo_top - 4096) demo_top).
  - split; [|done|exact Hu|exact Hg|by vm_compute|unfold demo_top; lia|left; unfold demo_top, CPU_SIZE; lia].
    split; [intros r; change (is_word (x_reg s r)); rewrite Er; by vm_compute|intros []; by vm_compute|change (is_word (x_eip s)); rewrite Ei; by vm_compute|by vm_compute].
  - split; [lia|done].
  - by vm_compute.
  - intros s1 H1. apply wp_modify. destruct (demo_returning _ s s1 Hu) as (t & Ht & Ea & Eb); [unfold CPU_SIZE, demo_top; lia|exact H1|]. exists t. split; [exact Ht|]. intros s' Hrun _ _.
    split; [rewrite (rn_eax _ _ Hrun); exact Ea|]. split; [rewrite (rn_ebx _ _ Hrun), Eb, Er; reflexivity|].
    unfold cpl. rewrite (rn_cs _ _ Hrun), (uf_cs _ _ (rt_user _ _ _ (td_frame _ _ _ _ Ht))). reflexivity.
Defined.

(** The scheduler, on its stack at 0x80115000, switches to the new process for the first time. *)
Definition demo_kstack (m : mem) : mem := fst (kstack_init 0x8df00000 0x80106010 0x80103000 m).
Definition demo_sched : x86 :=
  mkX86 (fun r => if decide (r = ESP) then 0x80115000 else 9) (fun _ => 0) 0 0 0 (0, 0) (0, 0) 0 (demo_kstack (store_words (fun _ => 0) 0x80115000 [0x80104000; 0x80112784; 0x8df00f9c])).

Lemma first_run_witness : wp (run swtch) (fun _ s1 => x_eip s1 = 0x80103000 /\ load32 (x_mem s1) (x_reg s1 ESP) = 0x80106010) demo_sched.
Proof.
  eapply wp_mono; [apply (first_run 0x8df00000 0x80106010 0x80103000 (store_words (fun _ => 0) 0x80115000 [0x80104000; 0x80112784; 0x8df00f9c]) demo_sched 0x80115000 0x80104000 0x80112784 tf0)|].
  - lia.
  - by vm_compute.
  - by vm_compute.
  - by vm_compute.
  - split; try (by vm_compute); [split; [intros []; by vm_compute|by vm_compute..]|by left; vm_compute|by right; vm_compute|by right; vm_compute].
  - intros x _. reflexivity.
  - left. by vm_compute.
  - left. by vm_compute.
  - intros [] s1 (E1 & E2 & _). split; [exact E1|exact E2].
Defined.
