(* ===== verification/Apic.v ===== *)
(** * [lapic.c], [ioapic.c], [picirq.c] and [uartinit]: interrupt controllers, the clock, the serial port.

    The devices are hardware: one class gives port and memory-mapped accesses, and a class per device states what the code relies on. *)

From S2P Require Import Prelude CString Mmu X86 Seg.

(** ** Accesses *)

Class Bus := {
  dev : Type;
  inb : Z -> M dev Z;
  outb : Z -> Z -> M dev unit;
  rd : Z -> M dev Z;         (** volatile reads and writes of device memory *)
  wr : Z -> Z -> M dev unit;
}.

(** ** [picirq.c] *)

Definition IO_PIC1 : Z := 0x20.
Definition IO_PIC2 : Z := 0xA0.
Definition picinit `{!Bus} : M dev unit := outb (IO_PIC1 + 1) 0xFF ;; outb (IO_PIC2 + 1) 0xFF.

(** ** [ioapic.c] *)

Definition IOAPIC : Z := 0xFEC00000.
Definition REG_ID : Z := 0.
Definition REG_VER : Z := 1.
Definition REG_TABLE : Z := 0x10.
Definition INT_DISABLED : Z := 0x10000.

Section ioapic.
Context `{!Bus}.

(** [struct ioapic]: the register selector, and 16 bytes on the data. *)
Definition ioapicread (reg : Z) : M dev Z := wr IOAPIC reg ;; rd (IOAPIC + 16).
Definition ioapicwrite (reg data : Z) : M dev unit := wr IOAPIC reg ;; wr (IOAPIC + 16) data.

Fixpoint ioapicinit_loop (n : nat) (i : Z) : M dev unit :=
  match n with
  | O => mret tt
  | S n' =>
      ioapicwrite (REG_TABLE + 2 * i) (Z.lor INT_DISABLED (T_IRQ0 + i)) ;;
      ioapicwrite (REG_TABLE + 2 * i + 1) 0 ;;
      ioapicinit_loop n' (i + 1)
  end.

(** The result says whether the message about the id is printed. *)
Definition ioapicinit (ioapicid : Z) : M dev bool :=
  v ← ioapicread REG_VER;
  let maxintr := Z.land (Z.shiftr v 16) 0xFF in
  id ← ioapicread REG_ID;
  let id := Z.shiftr id 24 in
  ioapicinit_loop (Z.to_nat (maxintr + 1)) 0 ;;
  mret (negb (id =? ioapicid)).

Definition ioapicenable (irq cpunum : Z) : M dev unit :=
  ioapicwrite (REG_TABLE + 2 * irq) (T_IRQ0 + irq) ;;
  ioapicwrite (REG_TABLE + 2 * irq + 1) (u32 (Z.shiftl cpunum 24)).
End ioapic.

(** The device: a selected register and its registers, of which those of the redirection table can be written. *)
Class IoApic `{!Bus} := {
  io_sel : dev -> Z;
  io_reg : dev -> Z -> Z;
  io_select : forall a r, exists a', wr IOAPIC r a = Ok tt a' /\ io_sel a' = r /\ forall q, io_reg a' q = io_reg a q;
  io_read : forall a, exists a', rd (IOAPIC + 16) a = Ok (io_reg a (io_sel a)) a' /\ forall q, io_reg a' q = io_reg a q;
  io_write : forall a v, REG_TABLE <= io_sel a < REG_TABLE + 2 * 256 -> exists a', wr (IOAPIC + 16) v a = Ok tt a' /\ forall q, io_reg a' q = if decide (q = io_sel a) then v else io_reg a q;
}.

Section ioapic_proofs.
Context `{BU : !Bus} `{IA : !IoApic}.

Lemma ioapicread_ok r a (Q : Z -> dev -> Prop) : (forall a', (forall q, io_reg a' q = io_reg a q) -> Q (io_reg a r) a') -> wp (ioapicread r) Q a.
Proof.
  intros HQ. destruct (io_select a r) as (a1 & E1 & S1 & R1). destruct (io_read a1) as (a2 & E2 & R2). apply wp_bind, wp_ok. exists tt, a1. split; [done|]. apply wp_ok. exists (io_reg a1 (io_sel a1)), a2. split; [done|].
  rewrite S1, R1. apply HQ. intros q. by rewrite R2, R1.
Qed.

Lemma ioapicwrite_ok r v a (Q : unit -> dev -> Prop) : REG_TABLE <= r < REG_TABLE + 2 * 256 -> (forall a', (forall q, io_reg a' q = if decide (q = r) then v else io_reg a q) -> Q tt a') -> wp (ioapicwrite r v) Q a.
Proof.
  intros Hr HQ. destruct (io_select a r) as (a1 & E1 & S1 & R1). destruct (io_write a1 v) as (a2 & E2 & R2); [by rewrite S1|]. apply wp_bind, wp_ok. exists tt, a1. split; [done|]. apply wp_ok. exists tt, a2. split; [done|].
  apply HQ. intros q. by rewrite R2, S1, R1.
Qed.

(** The entry of interrupt [i]: its low and its high word. *)
Definition entry (a : dev) (i : Z) : Z * Z := (io_reg a (REG_TABLE + 2 * i), io_reg a (REG_TABLE + 2 * i + 1)).
Definition off_entry (i : Z) : Z * Z := (Z.lor INT_DISABLED (T_IRQ0 + i), 0).

Lemma ioapicinit_loop_ok n : forall i a (Q : unit -> dev -> Prop), 0 <= i -> i + Z.of_nat n <= 256 ->
  (forall a', (forall j, i <= j < i + Z.of_nat n -> entry a' j = off_entry j) -> (forall j, 0 <= j < i -> entry a' j = entry a j) -> Q tt a') -> wp (ioapicinit_loop n i) Q a.
Proof.
  induction n as [|n IH]; intros i a Q Hi Hn HQ; cbn [ioapicinit_loop]; [apply wp_ret, HQ; [lia|done]|].
  apply wp_bind, ioapicwrite_ok; [unfold REG_TABLE; lia|]. intros a1 R1. apply wp_bind, ioapicwrite_ok; [unfold REG_TABLE; lia|]. intros a2 R2.
  assert (forall j, entry a2 j = if decide (j = i) then off_entry i else entry a j) as E.
  { intros j. unfold entry. rewrite !R2, !R1. destruct (decide (j = i)) as [->|Hj]; repeat case_decide; done || lia. }
  apply IH; [lia|lia|]. intros a3 H3 H4. apply HQ.
  - intros j Hj. destruct (decide (j = i)) as [->|Hne]; [|apply H3; lia]. rewrite H4, E, decide_True by (done || lia). done.
  - intros j Hj. rewrite H4, E, decide_False by lia. done.
Qed.

(** [ioapicinit] turns every interrupt of the device off, and [ioapicenable] turns one on. *)
Lemma ioapicinit_spec ioapicid a : wp (ioapicinit ioapicid) (fun r a' => r = negb (Z.shiftr (io_reg a REG_ID) 24 =? ioapicid) /\ forall i, 0 <= i <= Z.land (Z.shiftr (io_reg a REG_VER) 16) 0xFF -> entry a' i = off_entry i) a.
Proof.
  assert (0 <= Z.land (Z.shiftr (io_reg a REG_VER) 16) 0xFF < 256) as Hm by (change 0xFF with (Z.ones 8); rewrite Z.land_ones by lia; by apply Z.mod_pos_bound).
  unfold ioapicinit. apply wp_bind, ioapicread_ok. intros a1 R1. apply wp_bind, ioapicread_ok. intros a2 R2. rewrite R1. apply wp_bind, ioapicinit_loop_ok; [lia|lia|]. intros a3 H3 _. apply wp_ret. split; [done|]. intros i Hi. apply H3. lia.
Qed.

Lemma ioapicenable_spec irq cpunum a : 0 <= irq < 256 -> wp (ioapicenable irq cpunum) (fun _ a' => forall i, entry a' i = if decide (i = irq) then (T_IRQ0 + irq, u32 (Z.shiftl cpunum 24)) else entry a i) a.
Proof.
  intros Hi. unfold ioapicenable. apply wp_bind, ioapicwrite_ok; [unfold REG_TABLE; lia|]. intros a1 R1. apply ioapicwrite_ok; [unfold REG_TABLE; lia|]. intros a2 R2 i. unfold entry. rewrite !R2, !R1.
  destruct (decide (i = irq)) as [->|Hj]; repeat case_decide; done || lia.
Qed.
End ioapic_proofs.

(** ** [lapic.c]: the local interrupt controller *)

(** Registers, as indices of [lapic]. *)
Definition ID : Z := 0x20 / 4.
Definition VER : Z := 0x30 / 4.
Definition TPR : Z := 0x80 / 4.
Definition EOI : Z := 0xB0 / 4.
Definition SVR : Z := 0xF0 / 4.
Definition ESR : Z := 0x280 / 4.
Definition ICRLO : Z := 0x300 / 4.
Definition ICRHI : Z := 0x310 / 4.
Definition TIMER : Z := 0x320 / 4.
Definition PCINT : Z := 0x340 / 4.
Definition LINT0 : Z := 0x350 / 4.
Definition LINT1 : Z := 0x360 / 4.
Definition ERROR : Z := 0x370 / 4.
Definition TICR : Z := 0x380 / 4.
Definition TDCR : Z := 0x3E0 / 4.
Definition ENABLE : Z := 0x100.
Definition INIT : Z := 0x500.
Definition STARTUP : Z := 0x600.
Definition DELIVS : Z := 0x1000.
Definition ASSERT : Z := 0x4000.
Definition LEVEL : Z := 0x8000.
Definition BCAST : Z := 0x80000.
Definition X1 : Z := 0xB.
Definition PERIODIC : Z := 0x20000.
Definition MASKED : Z := 0x10000.

Definition CMOS_PORT : Z := 0x70.

(** Memory, and the devices. *)
Record board `{!Bus} := mkBoard { bd_mem : mem; bd_dev : dev }.
Definition ondev `{!Bus} {A} (m : M dev A) : M board A := zoom bd_dev (fun d b => mkBoard _ (bd_mem b) d) m.

Section lapic.
Context `{!Bus}.
(** The address of the registers, from [mp.c]; the turns that the wait for a delivery gets. *)
Context (lapic : Z) (turns : nat).

Definition lapicw (index value : Z) : M dev unit := wr (lapic + 4 * index) (u32 value) ;; rd (lapic + 4 * ID) ;; mret tt.

Fixpoint wait_delivery (fuel : nat) : M dev unit :=
  v ← rd (lapic + 4 * ICRLO);
  if Z.land v DELIVS =? 0 then mret tt else
  match fuel with O => outOfFuel | S fuel' => wait_delivery fuel' end.

Definition lapicinit : M dev unit :=
  if lapic =? 0 then mret tt else
  lapicw SVR (Z.lor ENABLE (T_IRQ0 + IRQ_SPURIOUS)) ;;
  lapicw TDCR X1 ;;
  lapicw TIMER (Z.lor PERIODIC (T_IRQ0 + IRQ_TIMER)) ;;
  lapicw TICR 10000000 ;;
  lapicw LINT0 MASKED ;;
  lapicw LINT1 MASKED ;;
  v ← rd (lapic + 4 * VER);
  (if 4 <=? Z.land (Z.shiftr v 16) 0xFF then lapicw PCINT MASKED else mret tt) ;;
  lapicw ERROR (T_IRQ0 + IRQ_ERROR) ;;
  lapicw ESR 0 ;;
  lapicw ESR 0 ;;
  lapicw EOI 0 ;;
  lapicw ICRHI 0 ;;
  lapicw ICRLO (Z.lor (Z.lor BCAST INIT) LEVEL) ;;
  wait_delivery turns ;;
  lapicw TPR 0.

Definition lapicid : M dev Z :=
  if lapic =? 0 then mret 0 else
  v ← rd (lapic + 4 * ID);
  mret (Z.shiftr v 24).

Definition lapiceoi : M dev unit := if lapic =? 0 then mret tt else lapicw EOI 0.

Fixpoint startup_loop (n : nat) (apicid addr : Z) : M dev unit :=
  match n with
  | O => mret tt
  | S n' =>
      lapicw ICRHI (Z.shiftl apicid 24) ;;
      lapicw ICRLO (Z.lor STARTUP (Z.shiftr addr 12)) ;;
      startup_loop n' apicid addr
  end.

Definition lapicstartap (apicid addr : Z) : M board unit :=
  ondev (outb CMOS_PORT 0xF ;; outb (CMOS_PORT + 1) 0x0A) ;;
  (let wrv := P2V (Z.lor (Z.shiftl 0x40 4) 0x67) in
   modify (fun b => mkBoard _ (store16 (store16 (bd_mem b) wrv 0) (wrv + 2) (u16 (Z.shiftr addr 4))) (bd_dev b))) ;;
  ondev (
    lapicw ICRHI (Z.shiftl apicid 24) ;;
    lapicw ICRLO (Z.lor (Z.lor INIT LEVEL) ASSERT) ;;
    lapicw ICRLO (Z.lor INIT LEVEL) ;;
    startup_loop 2 apicid addr).
End lapic.

(** The registers that hold what is written to them. *)
Definition stored (i : Z) : bool := existsb (Z.eqb i) [TPR; SVR; ICRHI; TIMER; PCINT; LINT0; LINT1; ERROR; TICR; TDCR].

(** Writing [ICRLO] sends an interrupt to the processor that [ICRHI] names; [DELIVS] is set for fewer than [la_turns] reads. *)
Class LocalApic `{!Bus} (lapic : Z) := {
  la_reg : dev -> Z -> Z;
  la_sent : dev -> list (Z * Z);
  la_busy : dev -> nat;
  la_turns : nat;
  la_busy_turns : forall a, (la_busy a <= la_turns)%nat;
  la_read : forall a i, exists v a', rd (lapic + 4 * i) a = Ok v a' /\ (forall j, la_reg a' j = la_reg a j) /\ la_sent a' = la_sent a /\ (i = VER -> v = la_reg a VER) /\
    (i = ICRLO -> match la_busy a with O => Z.land v DELIVS = 0 | S n => la_busy a' = n end);
  la_write : forall a i v, exists a', wr (lapic + 4 * i) v a = Ok tt a' /\
    (stored i = true -> (forall j, la_reg a' j = if decide (j = i) then v else la_reg a j) /\ la_sent a' = la_sent a) /\
    (i = ICRLO -> (forall j, la_reg a' j = la_reg a j) /\ la_sent a' = la_sent a ++ [(la_reg a ICRHI, v)]) /\
    (i = EOI \/ i = ESR -> (forall j, la_reg a' j = la_reg a j) /\ la_sent a' = la_sent a);
  la_ports : forall a p v, p = CMOS_PORT \/ p = CMOS_PORT + 1 -> exists a', outb p v a = Ok tt a' /\ (forall j, la_reg a' j = la_reg a j) /\ la_sent a' = la_sent a;
}.

Section lapic_proofs.
Context `{BU : !Bus} (lapic : Z) `{LA : !LocalApic lapic} (Hl : lapic <> 0).

(** After the writes of [l] to stored registers, the last first, and the interrupts [q]. *)
Fixpoint last_write (l : list (Z * Z)) (j d : Z) : Z :=
  match l with [] => d | (i, v) :: l' => if decide (j = i) then v else last_write l' j d end.
Definition wrote (a0 : dev) (l q : list (Z * Z)) (a : dev) : Prop := (forall j, la_reg a j = last_write l j (la_reg a0 j)) /\ la_sent a = la_sent a0 ++ q.

Lemma wrote_same a0 l q a a' : (forall j, la_reg a' j = la_reg a j) -> la_sent a' = la_sent a -> wrote a0 l q a -> wrote a0 l q a'.
Proof using. intros Hr Hs [H1 H2]. split; [intros j; by rewrite Hr|by rewrite Hs]. Qed.

Lemma read_ok a0 l q a i (Q : Z -> dev -> Prop) : wrote a0 l q a -> (forall v a', wrote a0 l q a' -> (i = VER -> v = last_write l VER (la_reg a0 VER)) -> Q v a') -> wp (rd (lapic + 4 * i)) Q a.
Proof using. intros Hw HQ. destruct (la_read a i) as (v & a' & E & Hr & Hs & Hv & _). apply wp_ok. exists v, a'. split; [done|]. apply HQ; [by eapply wrote_same|]. intros Hi. rewrite Hv by done. apply Hw. Qed.

Lemma lapicw_done a0 l q i v a a1 (Q : unit -> dev -> Prop) : wr (lapic + 4 * i) (u32 v) a = Ok tt a1 -> wrote a0 l q a1 -> (forall a', wrote a0 l q a' -> Q tt a') -> wp (lapicw lapic i v) Q a.
Proof using. intros E Hw HQ. apply wp_bind, wp_ok. exists tt, a1. split; [done|]. apply wp_bind. eapply read_ok; [exact Hw|]. intros w a' Hw' _. by apply wp_ret, HQ. Qed.

Lemma lapicw_stored a0 l q a i v (Q : unit -> dev -> Prop) : wrote a0 l q a -> stored i = true -> (forall a', wrote a0 ((i, u32 v) :: l) q a' -> Q tt a') -> wp (lapicw lapic i v) Q a.
Proof using.
  intros [H1 H2] Hi HQ. destruct (la_write a i (u32 v)) as (a1 & E & Hs & _). destruct (Hs Hi) as [Hr Hq]. eapply lapicw_done; [exact E| |exact HQ]. split; [|by rewrite Hq].
  intros j. cbn [last_write]. rewrite Hr. case_decide; [done|apply H1].
Qed.

Lemma lapicw_send a0 l q a v (Q : unit -> dev -> Prop) : wrote a0 l q a -> (forall a', wrote a0 l (q ++ [(last_write l ICRHI (la_reg a0 ICRHI), u32 v)]) a' -> Q tt a') -> wp (lapicw lapic ICRLO v) Q a.
Proof using.
  intros [H1 H2] HQ. destruct (la_write a ICRLO (u32 v)) as (a1 & E & _ & Hs & _). destruct (Hs eq_refl) as [Hr Hq]. eapply lapicw_done; [exact E| |exact HQ]. split; [intros j; by rewrite Hr|]. by rewrite Hq, H2, H1, app_assoc.
Qed.

Lemma lapicw_other a0 l q a i v (Q : unit -> dev -> Prop) : wrote a0 l q a -> i = EOI \/ i = ESR -> (forall a', wrote a0 l q a' -> Q tt a') -> wp (lapicw lapic i v) Q a.
Proof using. intros Hw Hi HQ. destruct (la_write a i (u32 v)) as (a1 & E & _ & _ & Hs). destruct (Hs Hi) as [Hr Hq]. eapply lapicw_done; [exact E|by eapply wrote_same|exact HQ]. Qed.

Lemma wait_delivery_ok a0 l q fuel : forall a (Q : unit -> dev -> Prop), wrote a0 l q a -> (la_busy a <= fuel)%nat -> (forall a', wrote a0 l q a' -> Q tt a') -> wp (wait_delivery lapic fuel) Q a.
Proof using.
  induction fuel as [|fuel IH]; intros a Q Hw Hb HQ; cbn [wait_delivery]; destruct (la_read a ICRLO) as (v & a' & E & Hr & Hs & _ & Hd); specialize (Hd eq_refl); apply wp_bind, wp_ok; exists v, a'; (split; [done|]);
    pose proof (wrote_same _ _ _ _ _ Hr Hs Hw) as Hw'.
  - destruct (la_busy a); [|lia]. rewrite Hd. by apply wp_ret, HQ.
  - destruct (Z.land v DELIVS =? 0) eqn:Ev; [by apply wp_ret, HQ|]. destruct (la_busy a) as [|n]; [by rewrite Hd in Ev|]. apply IH; [done|lia|done].
Qed.

Lemma wrote_0 a : wrote a [] [] a.
Proof using. split; [done|by rewrite app_nil_r]. Qed.

(** From the error vector on. *)
Lemma lapicinit_rest a0 l a (Q : unit -> dev -> Prop) : wrote a0 l [] a -> (forall a', wrote a0 ((TPR, 0) :: (ICRHI, 0) :: (ERROR, 51) :: l) [(0, 0x88500)] a' -> Q tt a') ->
  wp (lapicw lapic ERROR (T_IRQ0 + IRQ_ERROR) ;; lapicw lapic ESR 0 ;; lapicw lapic ESR 0 ;; lapicw lapic EOI 0 ;; lapicw lapic ICRHI 0 ;; lapicw lapic ICRLO (Z.lor (Z.lor BCAST INIT) LEVEL) ;; wait_delivery lapic la_turns ;; lapicw lapic TPR 0) Q a.
Proof using.
  intros W HQ. apply wp_bind. eapply lapicw_stored; [exact W|done|]. clear W. intros a1 W. apply wp_bind. eapply lapicw_other; [exact W|by right|]. clear W. intros a2 W. apply wp_bind. eapply lapicw_other; [exact W|by right|]. clear W. intros a3 W.
  apply wp_bind. eapply lapicw_other; [exact W|by left|]. clear W. intros a4 W. apply wp_bind. eapply lapicw_stored; [exact W|done|]. clear W. intros a5 W. apply wp_bind. eapply lapicw_send; [exact W|]. clear W. intros a6 W.
  apply wp_bind. eapply wait_delivery_ok; [exact W|apply la_busy_turns|]. clear W. intros a7 W. eapply lapicw_stored; [exact W|done|]. clear W. intros a8 W. by apply HQ.
Qed.

(** [lapicinit] returns with the timer running on its vector, errors and spurious interrupts on theirs, the lines masked, and one interrupt sent: to all, to synchronise. *)
Lemma lapicinit_spec a : wp (lapicinit lapic la_turns) (fun _ a' => la_sent a' = la_sent a ++ [(0, 0x88500)] /\
  la_reg a' SVR = 0x13f /\ la_reg a' TIMER = 0x20020 /\ la_reg a' TICR = 10000000 /\ la_reg a' TDCR = X1 /\ la_reg a' LINT0 = MASKED /\ la_reg a' LINT1 = MASKED /\ la_reg a' ERROR = 51 /\ la_reg a' TPR = 0 /\
  la_reg a' PCINT = if 4 <=? Z.land (Z.shiftr (la_reg a VER) 16) 0xFF then MASKED else la_reg a PCINT) a.
Proof using Hl.
  unfold lapicinit. rewrite (proj2 (Z.eqb_neq _ _) Hl). pose proof (wrote_0 a) as W.
  do 6 (apply wp_bind; eapply lapicw_stored; [exact W|done|]; clear W; intros ? W). apply wp_bind. eapply read_ok; [exact W|]. clear W. intros v a7 W Hv. rewrite (Hv eq_refl). clear Hv. cbn [last_write].
  repeat rewrite decide_False by done. apply wp_bind.
  destruct (4 <=? Z.land (Z.shiftr (la_reg a VER) 16) 0xFF); [eapply lapicw_stored; [exact W|done|]; clear W; intros a8 W|apply wp_ret]; eapply lapicinit_rest; [exact W| |exact W|]; clear W; intros b [Wr Ws]; by rewrite Ws, !Wr.
Qed.

(** [lapicstartap] resets the processor [apicid] and starts it, with two startup interrupts, at the page [addr]; the warm reset vector also points there. *)
Lemma lapicstartap_spec apicid addr b : 0 <= apicid < 256 -> 0 <= addr < 2 ^ 20 -> addr mod 4096 = 0 ->
  wp (lapicstartap lapic apicid addr) (fun _ b' => let dst := Z.shiftl apicid 24 in
    la_sent (bd_dev b') = la_sent (bd_dev b) ++ [(dst, Z.lor (Z.lor INIT LEVEL) ASSERT); (dst, Z.lor INIT LEVEL); (dst, STARTUP + addr / 4096); (dst, STARTUP + addr / 4096)] /\
    16 * load16 (bd_mem b') (P2V 0x469) + load16 (bd_mem b') (P2V 0x467) = addr) b.
Proof using.
  intros Hid Ha Hp. unfold lapicstartap. apply wp_bind, wp_zoom.
  destruct (la_ports (bd_dev b) CMOS_PORT 0xF) as (a1 & E1 & R1 & S1); [by left|]. destruct (la_ports a1 (CMOS_PORT + 1) 0x0A) as (a2 & E2 & R2 & S2); [by right|].
  apply wp_bind, wp_ok. exists tt, a1. split; [done|]. apply wp_ok. exists tt, a2. split; [done|]. apply wp_bind, wp_modify, wp_zoom. cbn [bd_dev bd_mem].
  assert (u32 (Z.shiftl apicid 24) = Z.shiftl apicid 24) as Ed by (rewrite Z.shiftl_mul_pow2 by lia; apply u32_small; lia).
  assert (Z.lor STARTUP (Z.shiftr addr 12) = STARTUP + addr / 4096) as Es.
  { rewrite Z.shiftr_div_pow2 by lia. change (2 ^ 12) with 4096. symmetry. apply Z.add_nocarry_lor. change STARTUP with (Z.shiftl 6 8). apply Z.bits_inj'. intros n Hn. rewrite Z.land_spec, Z.bits_0. destruct (Z.ltb_spec n 8).
    - by rewrite Z.shiftl_spec_low by lia.
    - rewrite <- (Z.mod_small (addr / 4096) (2 ^ 8)) by (Z.to_euclidean_division_equations; lia). rewrite Z.mod_pow2_bits_high by lia. by rewrite andb_false_r. }
  pose proof (wrote_0 a2) as W. set (dst := Z.shiftl apicid 24) in *.
  apply wp_bind. eapply lapicw_stored; [exact W|done|]. clear W. intros b1 W. apply wp_bind. eapply lapicw_send; [exact W|]. clear W. intros b2 W. apply wp_bind. eapply lapicw_send; [exact W|]. clear W. intros b3 W. cbn [startup_loop]. fold dst.
  apply wp_bind. eapply lapicw_stored; [exact W|done|]. clear W. intros b4 W. apply wp_bind. eapply lapicw_send; [exact W|]. clear W. intros b5 W.
  apply wp_bind. eapply lapicw_stored; [exact W|done|]. clear W. intros b6 W. apply wp_bind. eapply lapicw_send; [exact W|]. clear W. intros b7 [_ W]. apply wp_ret. cbn [bd_dev bd_mem]. rewrite W, S2, S1.
  assert (u32 (STARTUP + addr / 4096) = STARTUP + addr / 4096) as Eu by (apply u32_small; unfold STARTUP; Z.to_euclidean_division_equations; lia).
  split; [rewrite Es, Eu; cbn [last_write app]; rewrite !decide_True, Ed by done; done|]. change (P2V (Z.lor (Z.shiftl 0x40 4) 0x67)) with (P2V 0x467). change (P2V 0x469) with (P2V 0x467 + 2).
  rewrite Z.shiftr_div_pow2 by lia. change (2 ^ 4) with 16. rewrite load16_store16_eq by apply Z.mod_pos_bound, eq_refl. rewrite (load16_ext (store16 (bd_mem b) (P2V 0x467) 0)) by (intros x Hx; apply store16_frame; lia). rewrite load16_store16_eq by lia.
  unfold u16. Z.to_euclidean_division_equations; lia.
Qed.
End lapic_proofs.

(** ** [uart.c] *)

Definition COM1 : Z := 0x3f8.

Section uart.
Context `{!Bus}.

Fixpoint wait_tx (n : nat) : M dev unit :=
  match n with
  | O => mret tt
  | S n' => st ← inb (COM1 + 5); if Z.land st 0x20 =? 0 then wait_tx n' else mret tt
  end.
Definition uartputc (uart : bool) (c : Z) : M dev unit :=
  if negb uart then mret tt else wait_tx 128 ;; outb COM1 (u8 c).

Fixpoint uartputs (uart : bool) (p : list Z) : M dev unit :=
  match p with [] => mret tt | c :: p' => uartputc uart c ;; uartputs uart p' end.

(** The result is the variable [uart]. *)
Definition uartinit : M dev bool :=
  outb (COM1 + 2) 0 ;;
  outb (COM1 + 3) 0x80 ;;
  outb COM1 (115200 / 9600) ;;
  outb (COM1 + 1) 0 ;;
  outb (COM1 + 3) 0x03 ;;
  outb (COM1 + 4) 0 ;;
  outb (COM1 + 1) 0x01 ;;
  st ← inb (COM1 + 5);
  if st =? 0xFF then mret false else
  inb (COM1 + 2) ;;
  inb COM1 ;;
  ioapicenable IRQ_COM1 0 ;;
  uartputs true (str "xv6..." ++ [10]) ;;
  mret true.
End uart.

(** The port: while [ua_latch], the first register is the low half of the divisor, else what is written to it is sent. *)
Class Uart `{!Bus} := {
  ua_latch : dev -> bool;
  ua_divisor : dev -> Z;
  ua_sent : dev -> list Z;
  ua_present : dev -> bool;
  ua_in : forall a p, COM1 <= p <= COM1 + 5 -> exists v a', inb p a = Ok v a' /\ ua_latch a' = ua_latch a /\ ua_divisor a' = ua_divisor a /\ ua_sent a' = ua_sent a /\ ua_present a' = ua_present a /\
    (p = COM1 + 5 -> (v = 0xFF <-> ua_present a = false));
  ua_out : forall a p v, COM1 <= p <= COM1 + 4 -> exists a', outb p v a = Ok tt a' /\ ua_present a' = ua_present a /\
    ua_latch a' = (if decide (p = COM1 + 3) then Z.testbit v 7 else ua_latch a) /\
    ua_divisor a' = (if ua_latch a then if decide (p = COM1) then 256 * (ua_divisor a / 256) + v else if decide (p = COM1 + 1) then ua_divisor a mod 256 + 256 * v else ua_divisor a else ua_divisor a) /\
    ua_sent a' = (if decide (p = COM1) then if ua_latch a then ua_sent a else ua_sent a ++ [v] else ua_sent a);
  ua_other : forall a p v, p = IOAPIC \/ p = IOAPIC + 16 -> exists a', wr p v a = Ok tt a' /\ ua_present a' = ua_present a /\ ua_latch a' = ua_latch a /\ ua_divisor a' = ua_divisor a /\ ua_sent a' = ua_sent a;
}.

Section uart_proofs.
Context `{BU : !Bus} `{UA : !Uart}.

(** The lines are set: transmission at the divisor [d], with [q] sent. *)
Definition uart_at (l : bool) (d : Z) (q : list Z) (pr : bool) (a : dev) : Prop := ua_latch a = l /\ ua_divisor a = d /\ ua_sent a = q /\ ua_present a = pr.

Lemma uart_in p l d q pr a (Q : Z -> dev -> Prop) : COM1 <= p <= COM1 + 5 -> uart_at l d q pr a -> (forall v a', uart_at l d q pr a' -> (p = COM1 + 5 -> (v = 0xFF <-> pr = false)) -> Q v a') -> wp (inb p) Q a.
Proof. intros Hp (H1 & H2 & H3 & H4) HQ. destruct (ua_in a p Hp) as (v & a' & E & E1 & E2 & E3 & E4 & Ev). apply wp_ok. exists v, a'. split; [done|]. apply HQ; [split_and!; congruence|]. intros Hp'. rewrite (Ev Hp'), H4. done. Qed.

Lemma uart_out p v l d q pr a (Q : unit -> dev -> Prop) : COM1 <= p <= COM1 + 4 -> uart_at l d q pr a ->
  (forall a', uart_at (if decide (p = COM1 + 3) then Z.testbit v 7 else l) (if l then if decide (p = COM1) then 256 * (d / 256) + v else if decide (p = COM1 + 1) then d mod 256 + 256 * v else d else d)
     (if decide (p = COM1) then if l then q else q ++ [v] else q) pr a' -> Q tt a') -> wp (outb p v) Q a.
Proof. intros Hp (H1 & H2 & H3 & H4) HQ. destruct (ua_out a p v Hp) as (a' & E & E1 & E2 & E3 & E4). apply wp_ok. exists tt, a'. split; [done|]. apply HQ. rewrite H1, H2, H3 in *. split_and!; congruence. Qed.

Lemma wait_tx_ok n : forall l d q pr a (Q : unit -> dev -> Prop), uart_at l d q pr a -> (forall a', uart_at l d q pr a' -> Q tt a') -> wp (wait_tx n) Q a.
Proof.
  induction n as [|n IH]; intros l d q pr a Q Ha HQ; cbn [wait_tx]; [by apply wp_ret, HQ|]. apply wp_bind. eapply uart_in; [lia|exact Ha|]. intros v a' Ha' _. destruct (Z.land v 0x20 =? 0); [eapply IH; [exact Ha'|done]|by apply wp_ret, HQ].
Qed.

Lemma uartputs_ok p : forall d q pr a (Q : unit -> dev -> Prop), uart_at false d q pr a -> (forall a', uart_at false d (q ++ map u8 p) pr a' -> Q tt a') -> wp (uartputs true p) Q a.
Proof.
  induction p as [|c p IH]; intros d q pr a Q Ha HQ; cbn [uartputs]; [apply wp_ret, HQ; cbn [map]; by rewrite app_nil_r|]. apply wp_bind. unfold uartputc. cbn [negb]. apply wp_bind. eapply wait_tx_ok; [exact Ha|]. intros a1 H1.
  eapply uart_out; [lia|exact H1|]. intros a2 H2. rewrite decide_False, decide_True in H2 by (done || lia). eapply IH; [exact H2|]. intros a3 H3. apply HQ. cbn [map]. rewrite <- app_assoc in H3. exact H3.
Qed.

Lemma uart_enable irq cpu l d q pr a (Q : unit -> dev -> Prop) : uart_at l d q pr a -> (forall a', uart_at l d q pr a' -> Q tt a') -> wp (ioapicenable irq cpu) Q a.
Proof.
  assert (forall p v a (Q : unit -> dev -> Prop), p = IOAPIC \/ p = IOAPIC + 16 -> uart_at l d q pr a -> (forall a', uart_at l d q pr a' -> Q tt a') -> wp (wr p v) Q a) as Hw.
  { intros p v b R Hp (H1 & H2 & H3 & H4) HR. destruct (ua_other b p v Hp) as (b' & E & E1 & E2 & E3 & E4). apply wp_ok. exists tt, b'. split; [done|]. apply HR. split_and!; congruence. }
  intros Ha HQ. apply wp_bind, wp_bind, Hw; [by left|done|]. intros a1 H1. apply Hw; [by right|done|]. intros a2 H2. apply wp_bind, Hw; [by left|done|]. intros a3 H3. apply Hw; [by right|done|done].
Qed.

Ltac uart_step H := eapply uart_out; [lia|exact H|]; clear H; intros ? H; repeat ((rewrite decide_True in H by done) || (rewrite decide_False in H by done)).

(** [uartinit] sets 9600 baud, finds out whether there is a port, and if so sends the greeting. *)
Lemma uartinit_spec a : wp uartinit (fun r a' => r = ua_present a /\ ua_divisor a' = 12 /\ ua_latch a' = false /\ (r = true -> exists q, ua_sent a' = q ++ map u8 (str "xv6..." ++ [10]))) a.
Proof.
  unfold uartinit. assert (exists l d q, uart_at l d q (ua_present a) a) as (l & d & q & H) by (by do 3 eexists).
  apply wp_bind. uart_step H. replace (if l then d else d) with d in H by (by destruct l). apply wp_bind. uart_step H. replace (if l then d else d) with d in H by (by destruct l). change (Z.testbit 128 7) with true in H.
  apply wp_bind. uart_step H. apply wp_bind. uart_step H. apply wp_bind. uart_step H. change (Z.testbit 3 7) with false in H. apply wp_bind. uart_step H. apply wp_bind. uart_step H.
  replace ((256 * (d / 256) + 115200 / 9600) mod 256 + 256 * 0) with 12 in H by (change (115200 / 9600) with 12; Z.to_euclidean_division_equations; lia).
  apply wp_bind. eapply uart_in; [lia|exact H|]. clear H. intros v a8 H Hv. specialize (Hv eq_refl). destruct (Z.eqb_spec v 0xFF) as [->|Hne].
  - apply wp_ret. destruct H as (H1 & H2 & _ & _). split; [by rewrite (proj1 Hv eq_refl)|]. by split_and!.
  - apply wp_bind. eapply uart_in; [lia|exact H|]. clear H. intros _ a9 H _. apply wp_bind. eapply uart_in; [lia|exact H|]. clear H. intros _ b1 H _. apply wp_bind. eapply uart_enable; [exact H|]. clear H. intros b2 H.
    apply wp_bind. eapply uartputs_ok; [exact H|]. clear H. intros b3 (H1 & H2 & H3 & H4). apply wp_ret. split; [destruct (ua_present a); [done|tauto]|]. split_and!; [done|done|]. intros _. by eexists.
Qed.
End uart_proofs.

(** ** Devices with these laws *)

Module Sim.
Record ioapic := mkIo { i_sel : Z; i_reg : Z -> Z }.
#[local] Instance ioapic_bus : Bus := {|
  dev := ioapic; inb := fun _ a => Ok 0 a; outb := fun _ _ a => Ok tt a;
  rd := fun _ a => Ok (i_reg a (i_sel a)) a;
  wr := fun p v a => Ok tt (if decide (p = IOAPIC) then mkIo v (i_reg a) else mkIo (i_sel a) (fun q => if decide (q = i_sel a) then v else i_reg a q)) |}.
#[local] Program Instance ioapic_laws : IoApic := {| io_sel := i_sel; io_reg := i_reg |}.
Next Obligation. intros a r. by eexists. Qed.
Next Obligation. intros a. by eexists. Qed.
Next Obligation. intros a v _. by eexists. Qed.

Record local := mkLocal { l_reg : Z -> Z; l_sent : list (Z * Z); l_busy : bool }.
#[local] Instance local_bus (lapic : Z) : Bus := {|
  dev := local; inb := fun _ a => Ok 0 a; outb := fun _ _ a => Ok tt a;
  rd := fun p a => if decide ((p - lapic) / 4 = ICRLO) then Ok (if l_busy a then DELIVS else 0) (mkLocal (l_reg a) (l_sent a) false) else Ok (l_reg a ((p - lapic) / 4)) a;
  wr := fun p v a => let i := (p - lapic) / 4 in
    Ok tt (if stored i then mkLocal (fun j => if decide (j = i) then v else l_reg a j) (l_sent a) (l_busy a) else
      if decide (i = ICRLO) then mkLocal (l_reg a) (l_sent a ++ [(l_reg a ICRHI, v)]) true else a) |}.

Lemma reg_index lapic i : (lapic + 4 * i - lapic) / 4 = i.
Proof. replace (lapic + 4 * i - lapic) with (i * 4) by lia. by apply Z.div_mul. Qed.

#[local] Program Instance local_laws (lapic : Z) : @LocalApic (local_bus lapic) lapic :=
  {| la_reg := l_reg; la_sent := l_sent; la_busy := fun a : @dev (local_bus lapic) => if l_busy a then 1%nat else 0%nat; la_turns := 1%nat |}.
Next Obligation. intros lapic a. cbn. destruct (l_busy a); lia. Qed.
Next Obligation.
  intros lapic a i. cbn [rd local_bus]. rewrite reg_index. case_decide as Hi; (eexists _, _; split; [reflexivity|]); split_and!; try done; [by rewrite Hi|intros _; by destruct (l_busy a)|by intros ->].
Qed.
Next Obligation.
  intros lapic a i v. cbn [wr local_bus]. rewrite reg_index. eexists. split; [reflexivity|]. split_and!; [by intros ->|by intros ->|by intros [->| ->]].
Qed.
Next Obligation. intros lapic a p v _. by eexists. Qed.

Record port := mkPort { u_latch : bool; u_divisor : Z; u_sent : list Z; u_present : bool }.
#[local] Instance port_bus : Bus := {|
  dev := port; inb := fun p a => Ok (if u_present a then 0x20 else 0xFF) a;
  outb := fun p v a => Ok tt (mkPort (if decide (p = COM1 + 3) then Z.testbit v 7 else u_latch a)
    (if u_latch a then if decide (p = COM1) then 256 * (u_divisor a / 256) + v else if decide (p = COM1 + 1) then u_divisor a mod 256 + 256 * v else u_divisor a else u_divisor a)
    (if decide (p = COM1) then if u_latch a then u_sent a else u_sent a ++ [v] else u_sent a) (u_present a));
  rd := fun _ a => Ok 0 a; wr := fun _ _ a => Ok tt a |}.
#[local] Program Instance port_laws : Uart := {| ua_latch := u_latch; ua_divisor := u_divisor; ua_sent := u_sent; ua_present := u_present |}.
Next Obligation. intros a p _. eexists _, _. split; [reflexivity|]. split_and!; try done. intros _. by destruct (u_present a). Qed.
Next Obligation. intros a p v _. by eexists. Qed.
Next Obligation. intros a p v _. by eexists. Qed.
End Sim.
