(* ===== verification/Cmos.v ===== *)
(** * [cmostime] of [lapic.c]: reading the clock while it runs. *)

From S2P Require Import Prelude CString Apic.

(** [date.h] *)
Record rtcdate := mkDate { second : Z; minute : Z; hour : Z; day : Z; month : Z; year : Z }.
#[export] Instance rtcdate_eq : EqDecision rtcdate.
Proof. solve_decision. Defined.
#[export] Instance rtcdate_inhabited : Inhabited rtcdate := populate (mkDate 0 0 0 0 0 0).

Definition CMOS_RETURN : Z := 0x71.
Definition CMOS_STATA : Z := 0x0a.
Definition CMOS_STATB : Z := 0x0b.
Definition CMOS_UIP : Z := Z.shiftl 1 7.
Definition SECS : Z := 0.
Definition MINS : Z := 2.
Definition HOURS : Z := 4.
Definition DAY : Z := 7.
Definition MONTH : Z := 8.
Definition YEAR : Z := 9.

Section code.
Context `{!Bus}.

Definition cmos_read (reg : Z) : M dev Z := outb CMOS_PORT reg ;; inb CMOS_RETURN.

Definition fill_rtcdate : M dev rtcdate :=
  second ← cmos_read SECS; minute ← cmos_read MINS; hour ← cmos_read HOURS;
  day ← cmos_read DAY; month ← cmos_read MONTH; year ← cmos_read YEAR;
  mret (mkDate second minute hour day month year).

(** The loop that reads the clock twice. *)
Fixpoint stable_loop (fuel : nat) : M dev rtcdate :=
  match fuel with
  | O => outOfFuel
  | S fuel' =>
      t1 ← fill_rtcdate;
      st ← cmos_read CMOS_STATA;
      if negb (Z.land st CMOS_UIP =? 0) then stable_loop fuel' else
      t2 ← fill_rtcdate;
      if decide (t1 = t2) then mret t1 else stable_loop fuel'
  end.

Definition CONV (x : Z) : Z := Z.shiftr x 4 * 10 + Z.land x 0xf.
Definition conv_date (t : rtcdate) : rtcdate := mkDate (CONV (second t)) (CONV (minute t)) (CONV (hour t)) (CONV (day t)) (CONV (month t)) (CONV (year t)).

Definition cmostime (fuel : nat) : M dev rtcdate :=
  sb ← cmos_read CMOS_STATB;
  let bcd := Z.land sb (Z.shiftl 1 2) =? 0 in
  t1 ← stable_loop fuel;
  let t1 := if bcd then conv_date t1 else t1 in
  mret (mkDate (second t1) (minute t1) (hour t1) (day t1) (month t1) (year t1 + 2000)).
End code.

(** ** The clock *)

Definition field (t : rtcdate) (r : Z) : Z :=
  if decide (r = SECS) then second t else if decide (r = MINS) then minute t else if decide (r = HOURS) then hour t else
  if decide (r = DAY) then day t else if decide (r = MONTH) then month t else year t.
Definition time_reg (r : Z) : bool := existsb (Z.eqb r) [SECS; MINS; HOURS; DAY; MONTH; YEAR].

(** The clock chip, read by read. Between updates ([ck_busy] is off) the time registers show one date for [ck_left] more reads; then an update cycle begins, of [ck_left] reads, during which a time register reads as anything; it
    ends with a new date. The flag [CMOS_UIP] off means that no update begins for 244 microseconds, in which six registers can be read; it is on during an update
    and at most [ck_lead] reads before. Updates are far apart. [ck_hist] is what the clock has shown, the last first. *)
Class Rtc `{!Bus} := {
  ck_sel : dev -> Z;
  ck_hist : dev -> list rtcdate;
  ck_busy : dev -> bool;
  ck_left : dev -> nat;
  ck_statb : dev -> Z;
  ck_lead : nat;
  ck_long : nat;
  ck_update : forall a, ck_busy a = true -> (ck_left a <= ck_long)%nat;
  ck_select : forall a r, exists a', outb CMOS_PORT r a = Ok tt a' /\ ck_sel a' = r /\ ck_hist a' = ck_hist a /\ ck_busy a' = ck_busy a /\ ck_left a' = ck_left a /\ ck_statb a' = ck_statb a;
  ck_read : forall a, exists v a', inb CMOS_RETURN a = Ok v a' /\ ck_statb a' = ck_statb a /\
    match ck_left a with
    | S n => ck_hist a' = ck_hist a /\ ck_busy a' = ck_busy a /\ ck_left a' = n
    | O => ck_busy a' = negb (ck_busy a) /\
        if ck_busy a then (exists t, ck_hist a' = t :: ck_hist a) /\ (ck_lead + 26 <= ck_left a')%nat else ck_hist a' = ck_hist a
    end /\
    (time_reg (ck_sel a) = true -> ck_busy a' = false -> v = field (hd inhabitant (ck_hist a')) (ck_sel a)) /\
    (ck_sel a = CMOS_STATA -> if decide (Z.land v CMOS_UIP = 0) then ck_busy a' = false /\ (6 <= ck_left a')%nat else ck_busy a' = true \/ (ck_left a' <= ck_lead)%nat) /\
    (ck_sel a = CMOS_STATB -> v = ck_statb a');
}.

Section proofs.
Context `{BU : !Bus} `{RT : !Rtc}.

(** The date on the clock. *)
Definition now (a : dev) : rtcdate := hd inhabitant (ck_hist a).

(** One read. *)
Definition tick (a a' : dev) : Prop := ck_statb a' = ck_statb a /\
  match ck_left a with
  | S n => ck_hist a' = ck_hist a /\ ck_busy a' = ck_busy a /\ ck_left a' = n
  | O => ck_busy a' = negb (ck_busy a) /\
      if ck_busy a then (exists t, ck_hist a' = t :: ck_hist a) /\ (ck_lead + 26 <= ck_left a')%nat else ck_hist a' = ck_hist a
  end.

Lemma clock_read r a (Q : Z -> dev -> Prop) :
  (forall v a', tick a a' -> (time_reg r = true -> ck_busy a' = false -> v = field (now a') r) ->
     (r = CMOS_STATA -> if decide (Z.land v CMOS_UIP = 0) then ck_busy a' = false /\ (6 <= ck_left a')%nat else ck_busy a' = true \/ (ck_left a' <= ck_lead)%nat) ->
     (r = CMOS_STATB -> v = ck_statb a) -> Q v a') -> wp (cmos_read r) Q a.
Proof.
  intros HQ. destruct (ck_select a r) as (a1 & E1 & S1 & H1 & Y1 & L1 & B1). destruct (ck_read a1) as (v & a2 & E2 & B2 & Hc & Hv & Hu & Hb). rewrite L1, Y1, H1 in Hc. rewrite S1 in *.
  apply wp_bind, wp_ok. exists tt, a1. split; [done|]. apply wp_ok. exists v, a2. split; [done|]. apply HQ; [split; [congruence|done]|done|done|]. intros Hr. rewrite (Hb Hr). congruence.
Qed.

(** *** How the clock goes on *)

Definition goes (a a' : dev) : Prop := exists l, ck_hist a' = l ++ ck_hist a /\ ck_statb a' = ck_statb a.

Lemma goes_refl a : goes a a.
Proof. by exists []. Qed.
Lemma goes_trans a b c : goes a b -> goes b c -> goes a c.
Proof. intros (l & E & B) (l' & E' & B'). exists (l' ++ l). split; [by rewrite E', E, app_assoc|congruence]. Qed.
Lemma goes_tick a b : tick a b -> goes a b.
Proof.
  intros (B & H). destruct (ck_left a) as [|n]; [|destruct H as (E & _); by exists []]. destruct H as (_ & H). destruct (ck_busy a); [destruct H as [[t E] _]; by exists [t]|by exists []].
Qed.

(** Reads until the next date has come, at most; 0 when a whole turn of the loop fits before the update. *)
Definition due (a : dev) : nat :=
  if ck_busy a then S (ck_left a) else if decide (ck_lead + 13 <= ck_left a)%nat then 0%nat else (ck_left a + ck_long + 2)%nat.

(** [k] reads after a state with [n] reads due: closer to the new date, or not long after it. *)
Definition stage (n k : nat) (b : dev) : Prop :=
  (0 < due b /\ due b + k <= n)%nat \/ ck_busy b = false /\ (ck_lead + 26 <= ck_left b + k)%nat.

Lemma stage_tick n k a b : stage n k a -> tick a b -> (k <= 12)%nat -> stage n (S k) b.
Proof.
  intros Hs (_ & Ht) Hk. unfold stage, due in *. destruct (ck_busy a) eqn:Ea; destruct (ck_left a) as [|m] eqn:El.
  - destruct Ht as (Eb & _ & Hl). rewrite Eb. cbn [negb]. right. split; [done|lia].
  - destruct Ht as (_ & Eb & Hl). rewrite Eb, Hl. left. destruct Hs as [?|[? _]]; [lia|done].
  - destruct Ht as (Eb & _). rewrite Eb. cbn [negb]. pose proof (ck_update b Eb). left. destruct Hs as [Hs|Hs]; [|lia]. rewrite decide_False in Hs by lia. lia.
  - destruct Ht as (_ & Eb & Hl). rewrite Eb, Hl. destruct Hs as [Hs|Hs]; [|right; lia]. left. case_decide; [lia|]. rewrite decide_False by lia. lia.
Qed.

(** A piece of a turn: what [k] reads leave. *)
Definition after (n k : nat) (a b : dev) : Prop := goes a b /\ stage n k b.

Lemma fill_any n k a (Q : rtcdate -> dev -> Prop) : (k <= 7)%nat -> stage n k a -> (forall t b, after n (6 + k) a b -> Q t b) -> wp fill_rtcdate Q a.
Proof.
  intros Hk Hs HQ. unfold fill_rtcdate.
  apply wp_bind, clock_read. intros v1 a1 T1 _ _ _. assert (S1 := stage_tick _ _ _ _ Hs T1 ltac:(lia)). apply wp_bind, clock_read. intros v2 a2 T2 _ _ _. assert (S2 := stage_tick _ _ _ _ S1 T2 ltac:(lia)).
  apply wp_bind, clock_read. intros v3 a3 T3 _ _ _. assert (S3 := stage_tick _ _ _ _ S2 T3 ltac:(lia)). apply wp_bind, clock_read. intros v4 a4 T4 _ _ _. assert (S4 := stage_tick _ _ _ _ S3 T4 ltac:(lia)).
  apply wp_bind, clock_read. intros v5 a5 T5 _ _ _. assert (S5 := stage_tick _ _ _ _ S4 T5 ltac:(lia)). apply wp_bind, clock_read. intros v6 a6 T6 _ _ _. assert (S6 := stage_tick _ _ _ _ S5 T6 ltac:(lia)).
  apply wp_ret, HQ. split; [|exact S6]. apply (goes_trans a a1), (goes_trans a1 a2), (goes_trans a2 a3), (goes_trans a3 a4), (goes_trans a4 a5); by apply goes_tick.
Qed.

(** *** Between updates *)

(** [k] reads later, no update has begun. *)
Definition later (k : nat) (a a' : dev) : Prop := ck_hist a' = ck_hist a /\ ck_busy a' = false /\ ck_left a = (k + ck_left a')%nat /\ ck_statb a' = ck_statb a.

Lemma later_goes k a b : later k a b -> goes a b.
Proof. intros (E & _ & _ & B). by exists []. Qed.

Lemma later_tick k a b c : later k a b -> tick b c -> (0 < ck_left b)%nat -> later (S k) a c.
Proof. intros (E & Y & L & B) (B' & Ht) H0. destruct (ck_left b) as [|n]; [lia|]. destruct Ht as (E' & Y' & L'). split_and!; [congruence|congruence|lia|congruence]. Qed.

(** A whole reading. *)
Lemma fill_calm a (Q : rtcdate -> dev -> Prop) : ck_busy a = false -> (6 <= ck_left a)%nat -> (forall b, later 6 a b -> Q (now b) b) -> wp fill_rtcdate Q a.
Proof.
  intros Hb Hl HQ. assert (later 0 a a) as L0 by done.
  assert (forall k r b (R : Z -> dev -> Prop), (k < 6)%nat -> time_reg r = true -> later k a b -> (forall c, later (S k) a c -> R (field (now a) r) c) -> wp (cmos_read r) R b) as Step.
  { intros k r b R Hk Hr L HR. apply clock_read. intros v c T Hv _ _. pose proof L as (_ & _ & El & _). pose proof (later_tick _ _ _ _ L T ltac:(lia)) as Lc. pose proof Lc as (Eh & Eb & _). rewrite (Hv Hr Eb). unfold now. rewrite Eh. by apply HR. }
  unfold fill_rtcdate. apply wp_bind, (Step 0%nat _ a); [lia|done|done|]. intros a1 L1. apply wp_bind, (Step 1%nat _ a1); [lia|done|done|]. intros a2 L2. apply wp_bind, (Step 2%nat _ a2); [lia|done|done|]. intros a3 L3.
  apply wp_bind, (Step 3%nat _ a3); [lia|done|done|]. intros a4 L4. apply wp_bind, (Step 4%nat _ a4); [lia|done|done|]. intros a5 L5. apply wp_bind, (Step 5%nat _ a5); [lia|done|done|]. intros a6 L6. apply wp_ret.
  pose proof L6 as (Eh & _). assert (now a6 = now a) as E by (unfold now; by rewrite Eh). specialize (HQ a6 L6). rewrite E in HQ. by destruct (now a).
Qed.

(** The second reading of a turn. *)
Lemma wp_and_fill a k n (Q : rtcdate -> dev -> Prop) : stage n k a -> ck_busy a = false -> (6 <= ck_left a)%nat -> (k <= 7)%nat -> (forall b, later 6 a b -> stage n (6 + k) b -> Q (now b) b) -> wp fill_rtcdate Q a.
Proof.
  intros Hs Hb Hl Hk HQ. apply fill_calm; [done|done|]. intros b L. apply HQ; [done|]. destruct L as (_ & Eb & El & _). unfold stage, due in *. rewrite Hb, Eb in *.
  destruct Hs as [Hs|Hs]; [left|right; lia]. case_decide; [lia|]. rewrite decide_False by lia. lia.
Qed.

(** *** The loop *)

Lemma stable_loop_ok fuel : forall a (Q : rtcdate -> dev -> Prop), (due a < fuel)%nat -> (forall b, goes a b -> Q (now b) b) -> wp (stable_loop fuel) Q a.
Proof.
  induction fuel as [|fuel IH]; intros a Q Hf HQ; [lia|]. cbn [stable_loop]. destruct (decide (due a = 0%nat)) as [H0|H0].
  - assert (ck_busy a = false /\ ck_lead + 13 <= ck_left a)%nat as [Hb Hl] by (unfold due in H0; destruct (ck_busy a); [lia|]; case_decide; [done|lia]).
    apply wp_bind, fill_calm; [done|lia|]. intros a1 L1. pose proof L1 as (Eh1 & Eb1 & El1 & _). apply wp_bind, clock_read. intros v a2 T2 _ Hu _. specialize (Hu eq_refl). pose proof (later_tick _ _ _ _ L1 T2 ltac:(lia)) as L2. pose proof L2 as (Eh2 & Eb2 & El2 & _).
    case_decide as Hz; [|destruct Hu as [Hu|Hu]; [congruence|lia]]. rewrite Hz. cbn [Z.eqb negb]. apply wp_bind, fill_calm; [done|lia|]. intros a3 L3. pose proof L3 as (Eh3 & _).
    assert (now a1 = now a3) as E by (unfold now; by rewrite Eh3, Eh2, Eh1). rewrite decide_True by done. rewrite E. apply wp_ret, HQ. exact (goes_trans _ _ _ (later_goes _ _ _ L2) (later_goes _ _ _ L3)).
  - assert (forall k b, (0 < k <= 13)%nat -> goes a b -> stage (due a) k b -> wp (stable_loop fuel) Q b) as Again.
    { intros k b Hk Hg Hs. apply IH; [|intros c Hc; apply HQ; exact (goes_trans _ _ _ Hg Hc)]. destruct Hs as [Hs|[Eb Hl]]; [lia|]. unfold due at 1. rewrite Eb, decide_True by lia. lia. }
    apply wp_bind, (fill_any (due a) 0); [lia|left; lia|]. intros t1 a1 [G1 S1]. apply wp_bind, clock_read. intros v a2 T2 _ Hu _. specialize (Hu eq_refl). assert (S2 := stage_tick _ _ _ _ S1 T2 ltac:(lia)). pose proof (goes_trans _ _ _ G1 (goes_tick _ _ T2)) as G2.
    case_decide as Hz; [|rewrite (proj2 (Z.eqb_neq _ _) Hz); cbn [negb]; apply (Again 7%nat); [lia|done|exact S2]]. rewrite Hz. cbn [Z.eqb negb]. destruct Hu as [Hb Hl].
    apply wp_bind. eapply (wp_and_fill a2 7 (due a)); [exact S2|done|done|lia|]. intros a3 L3 S3. pose proof (goes_trans _ _ _ G2 (later_goes _ _ _ L3)) as G3. case_decide as Et; [|by apply (Again 13%nat); [lia| |]]. rewrite Et. by apply wp_ret, HQ.
Qed.

Lemma read_statb a (Q : Z -> dev -> Prop) : (forall a', goes a a' -> Q (ck_statb a) a') -> wp (cmos_read CMOS_STATB) Q a.
Proof. intros HQ. apply clock_read. intros v a' T _ _ Hv. rewrite (Hv eq_refl). by apply HQ, goes_tick. Qed.

(** Two decimal digits in a byte. *)
Definition bcd (x : Z) : Z := 16 * (x / 10) + x mod 10.
Definition bcd_date (t : rtcdate) : rtcdate := mkDate (bcd (second t)) (bcd (minute t)) (bcd (hour t)) (bcd (day t)) (bcd (month t)) (bcd (year t)).
Definition two_digits (t : rtcdate) : Prop := Forall (fun x => 0 <= x < 100) [second t; minute t; hour t; day t; month t; year t].

Lemma CONV_bcd x : 0 <= x < 100 -> CONV (bcd x) = x.
Proof.
  intros Hx. unfold CONV, bcd. change 0xf with (Z.ones 4). rewrite Z.land_ones, Z.shiftr_div_pow2 by lia. change (2 ^ 4) with 16. Z.to_euclidean_division_equations; lia.
Qed.

Definition with_century (t : rtcdate) : rtcdate := mkDate (second t) (minute t) (hour t) (day t) (month t) (year t + 2000).

(** C35 [cmostime] reads the running clock without tearing: however updates fall between its reads, and whatever the registers show during them, it returns, and the date it returns is the one on the clock at that
    moment, decoded from two decimal digits per field or from binary as the status register says, in the years from 2000 on. *)
Theorem cmostime_spec a : wp (cmostime (ck_lead + ck_long + 16)) (fun r a' => goes a a' /\
  forall d, two_digits d -> now a' = (if Z.testbit (ck_statb a) 2 then d else bcd_date d) -> r = with_century d) a.
Proof.
  unfold cmostime. apply wp_bind, read_statb. intros a1 G1. apply wp_bind, stable_loop_ok; [unfold due; pose proof (ck_update a1); destruct (ck_busy a1); [specialize (H eq_refl); lia|]; case_decide; lia|]. intros a2 G2. apply wp_ret. split; [by apply (goes_trans a a1)|]. intros d Hd Et.
  assert ((Z.land (ck_statb a) (Z.shiftl 1 2) =? 0) = negb (Z.testbit (ck_statb a) 2)) as ->.
  { change (Z.shiftl 1 2) with (2 ^ 2). destruct (Z.testbit (ck_statb a) 2) eqn:Eb; cbn [negb].
    - apply Z.eqb_neq. intros H0. assert (Z.testbit (Z.land (ck_statb a) (2 ^ 2)) 2 = true) as H by (rewrite Z.land_spec, Eb; done). by rewrite H0, Z.bits_0 in H.
    - apply Z.eqb_eq. apply Z.bits_inj'. intros n Hn. rewrite Z.land_spec, Z.bits_0, Z.pow2_bits_eqb by lia. destruct (Z.eqb_spec 2 n) as [<-|]; [by rewrite Eb|by rewrite andb_false_r]. }
  destruct (Z.testbit (ck_statb a) 2); cbn [negb]; [by rewrite Et|]. rewrite Et. unfold two_digits in Hd. rewrite !Forall_cons in Hd. destruct Hd as (H1 & H2 & H3 & H4 & H5 & H6 & _).
  unfold conv_date, bcd_date, with_century. cbn [second minute hour day month year]. by rewrite !CONV_bcd.
Qed.
End proofs.

(** A clock that goes from the last second of a year to the next one while it is read; during the update all its registers read [0xff]. *)
Record sim_clock := mkClock { sc_sel : Z; sc_hist : list rtcdate; sc_left : nat + nat }.
Definition new_year : rtcdate := bcd_date (mkDate 0 0 0 1 1 27).
Definition old_year : rtcdate := bcd_date (mkDate 59 59 23 31 12 26).
Definition sc_busy (a : sim_clock) : bool := match sc_left a with inl _ => false | inr _ => true end.
Definition sc_reads (a : sim_clock) : nat := match sc_left a with inl n => n | inr n => n `min` 20 end.
Definition sim_step (a : sim_clock) : sim_clock :=
  match sc_left a with
  | inl (S n) => mkClock (sc_sel a) (sc_hist a) (inl n)
  | inl O => mkClock (sc_sel a) (sc_hist a) (inr 20%nat)
  | inr O => mkClock (sc_sel a) (new_year :: sc_hist a) (inl 60%nat)
  | inr (S n) => mkClock (sc_sel a) (sc_hist a) (inr (n `min` 19))
  end%nat.
Definition sim_byte (r : Z) (a : sim_clock) : Z :=
  if time_reg r then if sc_busy a then 0xff else field (hd inhabitant (sc_hist a)) r
  else if decide (r = CMOS_STATA) then if decide (sc_busy a = false /\ 8 < sc_reads a)%nat then 0 else CMOS_UIP else 0.
Definition sim_in (p : Z) : M sim_clock Z := fun a => Ok (sim_byte (sc_sel a) (sim_step a)) (sim_step a).

#[local] Instance sim_bus : Bus := {|
  dev := sim_clock; inb := sim_in; outb := fun _ v a => Ok tt (mkClock v (sc_hist a) (sc_left a)); rd := fun _ a => Ok 0 a; wr := fun _ _ a => Ok tt a |}.
#[local] Program Instance sim_rtc : Rtc := {| ck_sel := sc_sel; ck_hist := sc_hist; ck_busy := sc_busy; ck_left := sc_reads; ck_statb := fun _ => 0; ck_lead := 8%nat; ck_long := 20%nat |}.
Next Obligation. intros [sel h [n|n]]; cbn; [done|lia]. Qed.
Next Obligation. intros a r. by eexists. Qed.
Next Obligation.
  intros [sel h l]. exists (sim_byte sel (sim_step (mkClock sel h l))), (sim_step (mkClock sel h l)). split; [reflexivity|]. split; [done|]. split; [|split].
  - destruct l as [[|n]|[|n]]; cbn; [done|done|split; [done|split; [by eexists|lia]]|split_and!; [done|done|lia]].
  - intros Ht Hb. cbn [sc_sel] in *. unfold sim_byte. by rewrite Ht, Hb.
  - cbn [sc_sel]. split; intros ->; unfold sim_byte; [|done]. change (time_reg CMOS_STATA) with false. rewrite (decide_True (P := CMOS_STATA = CMOS_STATA)) by done. cbn [sc_sel].
    destruct (decide (sc_busy (sim_step (mkClock CMOS_STATA h l)) = false /\ 8 < sc_reads (sim_step (mkClock CMOS_STATA h l)))%nat) as [[Hb Hl]|Hn]; [rewrite decide_True by done; split; [done|lia]|].
    rewrite decide_False by done. destruct (sc_busy _); [by left|right]. apply not_and_l in Hn as [?|?]; [done|lia].
Qed.

Definition demo_clock : @dev sim_bus := mkClock 0 [old_year] (inl 3%nat).

Lemma cmostime_spec_witness : wp (cmostime (ck_lead + ck_long + 16)) (fun r a' => goes demo_clock a' /\ (now a' = new_year -> r = mkDate 0 0 0 1 1 2027)) demo_clock.
Proof.
  eapply wp_mono; [apply (cmostime_spec demo_clock)|]. intros r a' (Hs & Hd). split; [exact Hs|]. intros E. apply (Hd (mkDate 0 0 0 1 1 27)); [|exact E].
  repeat constructor; cbn; lia.
Defined.
