(* ===== verification/Entry.v ===== *)
(** * [bootasm.S], [entryother.S], [entry.S], [asm.h]: from power-on to C.

    The processor as these files use it: real mode, protected mode through the bootstrap segment table, then paging with 4 Mbyte pages.
    A segment register holds its selector and what the processor loaded for it. *)

From S2P Require Import Prelude CString Params Mmu X86 Proc Seg Apic.

Definition CR0_PE : Z := 1.
Definition CR0_WP : Z := 0x10000.
Definition CR0_PG : Z := 0x80000000.
Definition CR4_PSE : Z := 0x10.

(** ** The processor *)

Record segreg := mkSr { sr_sel : Z; sr_base : Z; sr_limit : Z; sr_32 : bool }.

Record boot := mkCore {
  b_ax : Z;
  b_esp : Z;
  b_eip : Z;
  b_seg : sreg -> segreg;
  b_if : bool;
  b_cr0 : Z;
  b_cr3 : Z;
  b_cr4 : Z;
  b_gdtr : Z * Z;
  b_phys : mem;
}.

Definition set_ax v s := mkCore v (b_esp s) (b_eip s) (b_seg s) (b_if s) (b_cr0 s) (b_cr3 s) (b_cr4 s) (b_gdtr s) (b_phys s).
Definition set_esp v s := mkCore (b_ax s) v (b_eip s) (b_seg s) (b_if s) (b_cr0 s) (b_cr3 s) (b_cr4 s) (b_gdtr s) (b_phys s).
Definition set_ip v s := mkCore (b_ax s) (b_esp s) v (b_seg s) (b_if s) (b_cr0 s) (b_cr3 s) (b_cr4 s) (b_gdtr s) (b_phys s).
Definition set_sr r v s := mkCore (b_ax s) (b_esp s) (b_eip s) (fun q => if decide (q = r) then v else b_seg s q) (b_if s) (b_cr0 s) (b_cr3 s) (b_cr4 s) (b_gdtr s) (b_phys s).
Definition set_if v s := mkCore (b_ax s) (b_esp s) (b_eip s) (b_seg s) v (b_cr0 s) (b_cr3 s) (b_cr4 s) (b_gdtr s) (b_phys s).
Definition set_cr0 v s := mkCore (b_ax s) (b_esp s) (b_eip s) (b_seg s) (b_if s) v (b_cr3 s) (b_cr4 s) (b_gdtr s) (b_phys s).
Definition set_bcr3 v s := mkCore (b_ax s) (b_esp s) (b_eip s) (b_seg s) (b_if s) (b_cr0 s) v (b_cr4 s) (b_gdtr s) (b_phys s).
Definition set_cr4 v s := mkCore (b_ax s) (b_esp s) (b_eip s) (b_seg s) (b_if s) (b_cr0 s) (b_cr3 s) v (b_gdtr s) (b_phys s).
Definition set_bgdtr v s := mkCore (b_ax s) (b_esp s) (b_eip s) (b_seg s) (b_if s) (b_cr0 s) (b_cr3 s) (b_cr4 s) v (b_phys s).
Definition set_phys v s := mkCore (b_ax s) (b_esp s) (b_eip s) (b_seg s) (b_if s) (b_cr0 s) (b_cr3 s) (b_cr4 s) (b_gdtr s) v.

Definition protected (s : boot) : bool := Z.testbit (b_cr0 s) 0.
Definition paging (s : boot) : bool := Z.testbit (b_cr0 s) 31.

(** Address translation. *)
Definition translate (s : boot) (va : Z) : option Z :=
  if negb (paging s) then Some va else
  let pde := load32 (b_phys s) (PTE_ADDR (b_cr3 s) + 4 * PDX va) in
  if negb (Z.testbit pde 0) then None else
  if Z.testbit pde 7 && Z.testbit (b_cr4 s) 4 then Some (Z.lor (Z.land pde 0xFFC00000) (Z.land va 0x3FFFFF)) else
  let pte := load32 (b_phys s) (PTE_ADDR pde + 4 * PTX va) in
  if negb (Z.testbit pte 0) then None else Some (Z.lor (PTE_ADDR pte) (Z.land va 0xFFF)).

(** Loading a segment register: in real mode from the selector alone. *)
Definition load_sr (r : sreg) (sel : Z) : M boot unit :=
  s ← get;
  if negb (protected s) then modify (set_sr r (mkSr sel (16 * sel) 0xffff false)) else
  if null_sel sel then if bool_decide (r = SS \/ r = CS) then fault else modify (set_sr r (mkSr sel 0 0 false)) else
  match descriptor (b_phys s) (b_gdtr s) (8 * Z.shiftr sel 3) with
  | None => fault
  | Some d =>
      if negb (present_desc d && (if bool_decide (r = CS) then is_code d else if bool_decide (r = SS) then writable d else readable d)) then fault else
      modify (set_sr r (mkSr sel (d_base d) (d_limit d) (bits d 54 1 =? 1)))
  end.

(** ** Instructions *)

Definition bcli : M boot unit := modify (set_if false).
Definition movw_ax (v : Z) : M boot unit := modify (fun s => set_ax (65536 * (b_ax s / 65536) + v) s).
Definition movl_ax (v : Z) : M boot unit := modify (set_ax v).
Definition movw_seg (r : sreg) : M boot unit := v ← gets b_ax; load_sr r (u16 v).
(** The six bytes at [%ds:a]: limit and base, of which 16-bit code loads 24 bits. *)
Definition blgdt (a : Z) : M boot unit :=
  s ← get;
  let d := b_seg s DS in
  if sr_limit d <? a + 5 then fault else
  modify (set_bgdtr (Z.land (load32 (b_phys s) (sr_base d + a + 2)) 0xFFFFFF, load16 (b_phys s) (sr_base d + a))).
(** A control register through [%eax]: [movl %cr, %eax; orl $v, %eax; movl %eax, %cr]. *)
Definition orl_cr0 (v : Z) : M boot unit := modify (fun s => let x := Z.lor (b_cr0 s) v in set_cr0 x (set_ax x s)).
Definition orl_cr4 (v : Z) : M boot unit := modify (fun s => let x := Z.lor (b_cr4 s) v in set_cr4 x (set_ax x s)).
Definition ljmp (sel off : Z) : M boot unit := load_sr CS sel ;; modify (set_ip off).

(** A call, from 32-bit code whose next address is [ra]. *)
Definition bcall (target ra : Z) : M boot unit :=
  s ← get;
  let sp := u32 (b_esp s - 4) in
  match translate s sp with
  | Some pa => modify (fun s => set_ip target (set_esp sp (set_phys (store32 (b_phys s) pa ra) s)))
  | None => fault
  end.

(** A word of memory. *)
Definition ldw (a : Z) : M boot Z :=
  s ← get;
  match translate s a with Some pa => mret (load32 (b_phys s) pa) | None => fault end.

(** ** [asm.h] *)

Definition SEG_NULLASM : list Z := [0; 0; 0; 0; 0; 0; 0; 0].
Definition SEG_ASM (type base lim : Z) : list Z :=
  le_bytes 2 (Z.land (Z.shiftr lim 12) 0xffff) ++ le_bytes 2 (Z.land base 0xffff) ++
  [Z.land (Z.shiftr base 16) 0xff; Z.lor 0x90 type; Z.lor 0xC0 (Z.land (Z.shiftr lim 28) 0xf); Z.land (Z.shiftr base 24) 0xff].

(** The table of [bootasm.S] and of [entryother.S], and [gdtdesc] after it, at [gdt]. *)
Definition boot_gdt : list Z := SEG_NULLASM ++ SEG_ASM (Z.lor STA_X STA_R) 0 0xffffffff ++ SEG_ASM STA_W 0 0xffffffff.
Definition boot_gdtdesc (gdt : Z) : list Z := le_bytes 2 (Z.of_nat (length boot_gdt) - 1) ++ le_bytes 4 gdt.

(** ** [bootasm.S] *)

Section boot.
(** The keyboard controller, through which line A20 is opened; the number of polls it may take. *)
Context `{!Bus} (polls : nat).

Record pc := mkPc { pc_core : boot; pc_dev : dev }.
Definition core {A} (m : M boot A) : M pc A := zoom pc_core (fun c s => mkPc c (pc_dev s)) m.
Definition ports {A} (m : M dev A) : M pc A := zoom pc_dev (fun d s => mkPc (pc_core s) d) m.

Fixpoint seta20 (fuel : nat) : M dev unit :=
  al ← inb 0x64;
  if Z.land al 2 =? 0 then mret tt else
  match fuel with O => outOfFuel | S fuel' => seta20 fuel' end.

(** From [start] to the call of [bootmain]. *)
Definition bootasm (gdtdesc start start32 bootmain ra : Z) : M pc unit :=
  core (bcli ;; movw_ax 0 ;; movw_seg DS ;; movw_seg ES ;; movw_seg SS) ;;
  ports (seta20 polls) ;; ports (outb 0x64 0xd1) ;;
  ports (seta20 polls) ;; ports (outb 0x60 0xdf) ;;
  core (
    blgdt gdtdesc ;; orl_cr0 CR0_PE ;;
    ljmp (Z.shiftl SEG_KCODE 3) start32 ;;
    movw_ax (Z.shiftl SEG_KDATA 3) ;; movw_seg DS ;; movw_seg ES ;; movw_seg SS ;;
    movw_ax 0 ;; movw_seg FS ;; movw_seg GS ;;
    modify (set_esp start) ;;
    bcall bootmain ra).
End boot.

(** ** [entry.S] *)

(** [entrypgdir], [stack] and [main]: addresses the linker gives. *)
Definition entry (entrypgdir stack main : Z) : M boot unit :=
  orl_cr4 CR4_PSE ;;
  movl_ax (V2P entrypgdir) ;; (pgdir ← gets b_ax; modify (set_bcr3 pgdir)) ;;
  orl_cr0 (Z.lor CR0_PG CR0_WP) ;;
  modify (set_esp (u32 (stack + KSTACKSIZE))) ;;
  movl_ax main ;; (target ← gets b_ax; modify (set_ip target)).

(** ** [entryother.S] *)

Definition entryother (gdtdesc start start32 ra : Z) : M boot unit :=
  bcli ;; movw_ax 0 ;; movw_seg DS ;; movw_seg ES ;; movw_seg SS ;;
  blgdt gdtdesc ;; orl_cr0 CR0_PE ;;
  ljmp (Z.shiftl SEG_KCODE 3) start32 ;;
  movw_ax (Z.shiftl SEG_KDATA 3) ;; movw_seg DS ;; movw_seg ES ;; movw_seg SS ;;
  movw_ax 0 ;; movw_seg FS ;; movw_seg GS ;;
  orl_cr4 CR4_PSE ;;
  (pgdir ← ldw (start - 12); movl_ax pgdir ;; modify (set_bcr3 pgdir)) ;;
  orl_cr0 (Z.lor (Z.lor CR0_PE CR0_PG) CR0_WP) ;;
  (sp ← ldw (start - 4); modify (set_esp sp)) ;;
  (target ← ldw (start - 8); bcall target ra).

(** ** [main.c]: [entrypgdir] *)

Definition entrypgdir_entry (i : Z) : Z :=
  if (i =? 0) || (i =? Z.shiftr KERNBASE PDXSHIFT) then Z.lor (Z.lor (Z.lor 0 PTE_P) PTE_W) PTE_PS else 0.

(** [startothers], for each CPU: what [entryother.S] finds below its code at [code]. *)
Definition ap_args (code stack mpenter entrypgdir : Z) (m : mem) : mem :=
  store32 (store32 (store32 m (code - 4) (u32 (stack + KSTACKSIZE))) (code - 8) mpenter) (code - 12) (V2P entrypgdir).

(** ** The segment table *)

Definition bytes_at (m : mem) (a : Z) (l : list Z) : Prop := forall i, (i < length l)%nat -> m (a + Z.of_nat i) = l !!! i.

Lemma bytes_load64 m a l i : bytes_at m a l -> (i + 8 <= length l)%nat -> load64 m (a + Z.of_nat i) = le_val (take 8 (drop i l)).
Proof.
  intros Hb Hl. assert (forall k, (k < 8)%nat -> m (a + Z.of_nat i + Z.of_nat k) = l !!! (i + k)%nat) as Hk by (intros k Hk; rewrite <- Z.add_assoc, <- Nat2Z.inj_add; apply Hb; lia).
  assert (take 8 (drop i l) = [l !!! i; l !!! (i + 1)%nat; l !!! (i + 2)%nat; l !!! (i + 3)%nat; l !!! (i + 4)%nat; l !!! (i + 5)%nat; l !!! (i + 6)%nat; l !!! (i + 7)%nat]) as ->.
  { apply list_eq. intros k. destruct (decide (k < 8)%nat) as [H8|H8].
    - rewrite lookup_take, decide_True, lookup_drop by done. rewrite (list_lookup_lookup_total_lt l (i + k)) by lia. do 8 (destruct k as [|k]; [by rewrite ?Nat.add_0_r|]). lia.
    - rewrite !lookup_ge_None_2; [done|cbn; lia|rewrite length_take, length_drop; lia]. }
  unfold load64, load32. pose proof (Hk 0%nat ltac:(lia)) as E0. rewrite Z.add_0_r, Nat.add_0_r in E0. pose proof (Hk 1%nat ltac:(lia)) as E1. pose proof (Hk 2%nat ltac:(lia)) as E2. pose proof (Hk 3%nat ltac:(lia)) as E3.
  pose proof (Hk 4%nat ltac:(lia)) as E4. pose proof (Hk 5%nat ltac:(lia)) as E5. pose proof (Hk 6%nat ltac:(lia)) as E6. pose proof (Hk 7%nat ltac:(lia)) as E7.
  replace (a + Z.of_nat i + 4 + 1) with (a + Z.of_nat i + Z.of_nat 5) by lia. replace (a + Z.of_nat i + 4 + 2) with (a + Z.of_nat i + Z.of_nat 6) by lia. replace (a + Z.of_nat i + 4 + 3) with (a + Z.of_nat i + Z.of_nat 7) by lia.
  change 1 with (Z.of_nat 1) at 1. change 2 with (Z.of_nat 2) at 1. change 3 with (Z.of_nat 3) at 1. change 4 with (Z.of_nat 4) at 1.
  rewrite E0, E5, E6, E7. cbn [le_val foldr]. change (Z.of_nat 1) with 1 in *. change (Z.of_nat 2) with 2 in *. change (Z.of_nat 3) with 3 in *. change (Z.of_nat 4) with 4 in *. rewrite E1, E2, E3, E4. lia.
Qed.

Record boot_table (gdt : Z) (m : mem) : Prop := {
  bt_gdt : bytes_at m gdt boot_gdt;
  bt_desc : bytes_at m (gdt + 24) (boot_gdtdesc gdt);
  bt_range : 0 <= gdt /\ gdt + 30 <= 2 ^ 16;
}.

Lemma boot_gdtr gdt m : boot_table gdt m -> (load32 m (gdt + 24 + 2), load16 m (gdt + 24)) = (gdt, 23).
Proof.
  intros [_ Hd [Hr Hr']]. change (2 ^ 16) with 65536 in Hr'. pose proof (Hd 0%nat ltac:(cbn; lia)) as E0. pose proof (Hd 1%nat ltac:(cbn; lia)) as E1. pose proof (Hd 2%nat ltac:(cbn; lia)) as E2. pose proof (Hd 3%nat ltac:(cbn; lia)) as E3. pose proof (Hd 4%nat ltac:(cbn; lia)) as E4. pose proof (Hd 5%nat ltac:(cbn; lia)) as E5.
  rewrite Z.add_0_r in E0. change (Z.of_nat 1) with 1 in *. change (Z.of_nat 2) with 2 in *. change (Z.of_nat 3) with 3 in *. change (Z.of_nat 4) with 4 in *. change (Z.of_nat 5) with 5 in *.
  unfold load32, load16. rewrite <- !Z.add_assoc in *. change (2 + 1) with 3. change (2 + 2) with 4. change (2 + 3) with 5. rewrite !Z.add_assoc in *. rewrite E0, E1, E2, E3, E4, E5. unfold boot_gdtdesc.
  change (boot_gdtdesc gdt) with ([23; 0] ++ le_bytes 4 gdt). cbn [le_bytes]. f_equal.
  change (gdt mod 256 + 256 * ((gdt / 256) mod 256 + 256 * ((gdt / 256 / 256) mod 256 + 256 * ((gdt / 256 / 256 / 256) mod 256))) = gdt). Z.to_euclidean_division_equations; lia.
Qed.

(** What the processor loads from the table. *)
Definition boot_code : segreg := mkSr (Z.shiftl SEG_KCODE 3) 0 0xffffffff true.
Definition boot_data : segreg := mkSr (Z.shiftl SEG_KDATA 3) 0 0xffffffff true.

Lemma load_code gdt s (Q : unit -> boot -> Prop) : boot_table gdt (b_phys s) -> b_gdtr s = (gdt, 23) -> protected s = true -> Q tt (set_sr CS boot_code s) -> wp (load_sr CS (Z.shiftl SEG_KCODE 3)) Q s.
Proof.
  intros [Hg _ _] Hr Hp HQ. unfold load_sr. apply wp_bind, wp_get. rewrite Hp. unfold descriptor. rewrite Hr. cbn [negb].
  change (gdt + 8 * Z.shiftr (Z.shiftl SEG_KCODE 3) 3) with (gdt + Z.of_nat 8). rewrite (bytes_load64 _ _ _ 8 Hg) by (cbn; lia). by apply wp_modify.
Qed.

Lemma load_boot_data gdt r s (Q : unit -> boot -> Prop) : r <> CS -> boot_table gdt (b_phys s) -> b_gdtr s = (gdt, 23) -> protected s = true -> Q tt (set_sr r boot_data s) -> wp (load_sr r (Z.shiftl SEG_KDATA 3)) Q s.
Proof.
  intros Hne [Hg _ _] Hr Hp HQ. unfold load_sr. apply wp_bind, wp_get. rewrite Hp. unfold descriptor. rewrite Hr. cbn [negb].
  change (gdt + 8 * Z.shiftr (Z.shiftl SEG_KDATA 3) 3) with (gdt + Z.of_nat 16). rewrite (bytes_load64 _ _ _ 16 Hg) by (cbn; lia). rewrite (bool_decide_eq_false_2 (r = CS)) by done.
  destruct (bool_decide (r = SS)); by apply wp_modify.
Qed.

Lemma load_boot_null r s (Q : unit -> boot -> Prop) : r <> CS -> r <> SS -> protected s = true -> Q tt (set_sr r (mkSr 0 0 0 false) s) -> wp (load_sr r 0) Q s.
Proof. intros H1 H2 Hp HQ. unfold load_sr. apply wp_bind, wp_get. rewrite Hp. cbn [negb]. change (null_sel 0) with true. rewrite bool_decide_eq_false_2 by tauto. by apply wp_modify. Qed.

Lemma load_real r sel s (Q : unit -> boot -> Prop) : protected s = false -> Q tt (set_sr r (mkSr sel (16 * sel) 0xffff false) s) -> wp (load_sr r sel) Q s.
Proof. intros Hp HQ. unfold load_sr. apply wp_bind, wp_get. rewrite Hp. by apply wp_modify. Qed.

(** ** Into protected mode *)

Record flat32 (s : boot) : Prop := {
  f3_cs : b_seg s CS = boot_code; f3_ds : b_seg s DS = boot_data; f3_es : b_seg s ES = boot_data; f3_ss : b_seg s SS = boot_data;
  f3_fs : b_seg s FS = mkSr 0 0 0 false; f3_gs : b_seg s GS = mkSr 0 0 0 false;
}.

Lemma sr_set r v s : b_seg (set_sr r v s) r = v.
Proof. cbn. by rewrite decide_True. Qed.
Lemma sr_set_ne r v s q : q <> r -> b_seg (set_sr r v s) q = b_seg s q.
Proof. intros. cbn. by rewrite decide_False. Qed.

Lemma ax_low a v : 0 <= v < 65536 -> u16 (65536 * (a / 65536) + v) = v.
Proof. intros Hv. unfold u16. rewrite Z.mul_comm, Z.add_comm, Z.mod_add by lia. by apply Z.mod_small. Qed.

Definition real_zero : segreg := mkSr 0 0 0xffff false.

(** The interrupts go off, and the data segments of real mode start at 0. *)
Lemma real_start s (Q : unit -> boot -> Prop) : protected s = false -> (forall s', b_seg s' DS = real_zero -> b_if s' = false -> b_cr0 s' = b_cr0 s -> b_cr4 s' = b_cr4 s -> b_phys s' = b_phys s -> Q tt s') ->
  wp (bcli ;; movw_ax 0 ;; movw_seg DS ;; movw_seg ES ;; movw_seg SS) Q s.
Proof.
  intros Hp HQ. apply wp_bind, wp_modify, wp_bind, wp_modify. do 2 (apply wp_bind, wp_bind, wp_gets; cbn [b_ax set_ax set_sr]; rewrite ax_low by lia; apply load_real; [done|]).
  apply wp_bind, wp_gets. cbn [b_ax set_ax set_sr]. rewrite ax_low by lia. apply load_real; [done|]. by apply HQ.
Qed.

Lemma real_start_k s (k : M boot unit) Q : protected s = false -> (forall s', b_seg s' DS = real_zero -> b_if s' = false -> b_cr0 s' = b_cr0 s -> b_cr4 s' = b_cr4 s -> b_phys s' = b_phys s -> wp k Q s') ->
  wp (bcli ;; movw_ax 0 ;; movw_seg DS ;; movw_seg ES ;; movw_seg SS ;; k) Q s.
Proof.
  intros Hp HQ. apply wp_bind, wp_modify, wp_bind, wp_modify. do 3 (apply wp_bind, wp_bind, wp_gets; cbn [b_ax set_ax set_sr]; rewrite ax_low by lia; apply load_real; [done|]). by apply HQ.
Qed.

Lemma lgdt_ok gdt s (Q : unit -> boot -> Prop) : boot_table gdt (b_phys s) -> b_seg s DS = real_zero -> Q tt (set_bgdtr (gdt, 23) s) -> wp (blgdt (gdt + 24)) Q s.
Proof.
  intros Ht Hds HQ. pose proof (bt_range _ _ Ht) as [Hg Hg']. change (2 ^ 16) with 65536 in Hg'. unfold blgdt. apply wp_bind, wp_get. rewrite Hds. cbn [sr_limit sr_base real_zero]. cbv zeta. rewrite !Z.add_0_l.
  destruct (Z.ltb_spec 0xffff (gdt + 24 + 5)); [lia|]. apply wp_modify. pose proof (boot_gdtr gdt _ Ht) as E. pose proof (f_equal fst E) as E1. pose proof (f_equal snd E) as E2. cbn [fst snd] in E1, E2.
  rewrite E1, E2. change 0xFFFFFF with (Z.ones 24). rewrite Z.land_ones, Z.mod_small by lia. exact HQ.
Qed.

Lemma enter_protected gdt start32 s (k : M boot unit) Q : boot_table gdt (b_phys s) -> b_seg s DS = real_zero ->
  (forall s', flat32 s' -> b_phys s' = b_phys s -> b_if s' = b_if s -> b_cr0 s' = Z.lor (b_cr0 s) CR0_PE -> b_cr4 s' = b_cr4 s -> b_eip s' = start32 -> wp k Q s') ->
  wp (blgdt (gdt + 24) ;; orl_cr0 CR0_PE ;; ljmp (Z.shiftl SEG_KCODE 3) start32 ;; movw_ax (Z.shiftl SEG_KDATA 3) ;; movw_seg DS ;; movw_seg ES ;; movw_seg SS ;; movw_ax 0 ;; movw_seg FS ;; movw_seg GS ;; k) Q s.
Proof.
  intros Ht Hds HQ. apply wp_bind, (lgdt_ok gdt); [done|done|]. apply wp_bind, wp_modify. cbv zeta. cbn [b_cr0 set_bgdtr].
  assert (forall t, b_cr0 t = Z.lor (b_cr0 s) CR0_PE -> protected t = true) as Hp by (intros t E; unfold protected; rewrite E, Z.lor_spec; apply orb_true_r).
  apply wp_bind, wp_bind, (load_code gdt); [done|done|by apply Hp|]. apply wp_modify, wp_bind, wp_modify.
  do 3 (apply wp_bind, wp_bind, wp_gets; cbn [b_ax set_ax set_sr]; rewrite ax_low by (by vm_compute); apply (load_boot_data gdt); [done|done|done|by apply Hp|]).
  apply wp_bind, wp_modify. do 2 (apply wp_bind, wp_bind, wp_gets; cbn [b_ax set_ax set_sr]; rewrite ax_low by (by vm_compute); apply load_boot_null; [done|done|by apply Hp|]).
  apply HQ; done.
Qed.

(** ** Paging *)

(** The page directory [entrypgdir] is at the physical address [pd]. *)
Record entry_dir (pd : Z) (m : mem) : Prop := {
  ed_align : PTE_ADDR pd = pd;
  ed_entries : forall i, 0 <= i < NPDENTRIES -> load32 m (pd + 4 * i) = entrypgdir_entry i;
}.

Lemma low22 va : 0 <= va < 2 ^ 22 -> Z.lor (Z.land 131 0xFFC00000) (Z.land va 0x3FFFFF) = va.
Proof. intros Hv. change (Z.land 131 0xFFC00000) with 0. rewrite Z.lor_0_l. change 0x3FFFFF with (Z.ones 22). rewrite Z.land_ones by lia. by apply Z.mod_small. Qed.

Lemma high22 pa : 0 <= pa < 2 ^ 22 -> Z.lor (Z.land 131 0xFFC00000) (Z.land (KERNBASE + pa) 0x3FFFFF) = pa.
Proof. intros Hv. change (Z.land 131 0xFFC00000) with 0. rewrite Z.lor_0_l. change 0x3FFFFF with (Z.ones 22). rewrite Z.land_ones by lia. change KERNBASE with (512 * 2 ^ 22). rewrite Z.add_comm, Z.mod_add by lia. by apply Z.mod_small. Qed.

(** With [entrypgdir], the first 4 Mbytes are mapped twice, at 0 and at [KERNBASE], and nothing else is. *)
Lemma entry_translate s va : paging s = true -> Z.testbit (b_cr4 s) 4 = true -> entry_dir (b_cr3 s) (b_phys s) -> 0 <= va < 2 ^ 32 ->
  translate s va = if decide (va < 2 ^ 22) then Some va else if decide (KERNBASE <= va < KERNBASE + 2 ^ 22) then Some (va - KERNBASE) else None.
Proof.
  intros Hp H4 [Ha He] Hv. unfold translate. rewrite Hp, H4, Ha. cbn [negb]. rewrite PDX_spec by lia. rewrite He by (unfold NPDENTRIES; Z.to_euclidean_division_equations; lia). unfold entrypgdir_entry.
  change (Z.shiftr KERNBASE PDXSHIFT) with 512. unfold KERNBASE. destruct (Z.eqb_spec (va / 4194304) 0) as [E|E]; cbn [orb].
  - rewrite decide_True by (Z.to_euclidean_division_equations; lia). cbn -[Z.land Z.lor]. change (Z.lor (Z.lor (Z.lor 0 PTE_P) PTE_W) PTE_PS) with 131. cbn -[Z.land Z.lor]. rewrite low22; [done|Z.to_euclidean_division_equations; lia].
  - rewrite decide_False by (Z.to_euclidean_division_equations; lia). destruct (Z.eqb_spec (va / 4194304) 512) as [E2|E2].
    + rewrite decide_True by (Z.to_euclidean_division_equations; lia). change (Z.lor (Z.lor (Z.lor 0 PTE_P) PTE_W) PTE_PS) with 131. cbn -[Z.land Z.lor Z.sub]. replace va with (KERNBASE + (va - 2147483648)) at 1 by (unfold KERNBASE; lia). rewrite high22; [done|]. Z.to_euclidean_division_equations; lia.
    + rewrite decide_False by (Z.to_euclidean_division_equations; lia). done.
Qed.

(** [entry.S]: paging is on, the code goes on at [main] in the high half, on the stack. *)
Lemma entry_spec entrypgdir stack main s : entry_dir (V2P entrypgdir) (b_phys s) ->
  wp (entry entrypgdir stack main) (fun _ s' => b_eip s' = main /\ b_esp s' = u32 (stack + KSTACKSIZE) /\ b_phys s' = b_phys s /\
    forall va, 0 <= va < 2 ^ 32 -> translate s' va = if decide (va < 2 ^ 22) then Some va else if decide (KERNBASE <= va < KERNBASE + 2 ^ 22) then Some (va - KERNBASE) else None) s.
Proof.
  intros Hd. unfold entry. apply wp_bind, wp_modify, wp_bind, wp_modify, wp_bind, wp_bind, wp_gets, wp_modify, wp_bind, wp_modify, wp_bind, wp_modify, wp_bind, wp_modify, wp_bind, wp_gets, wp_modify. split_and!; [done|done|done|].
  intros va Hv. apply entry_translate; [|change (Z.testbit (Z.lor (b_cr4 s) CR4_PSE) 4 = true); rewrite Z.lor_spec; apply orb_true_r|exact Hd|done]. change (Z.testbit (Z.lor (b_cr0 s) (Z.lor CR0_PG CR0_WP)) 31 = true). rewrite Z.lor_spec. apply orb_true_r.
Qed.

Lemma ldw_ok s a pa (Q : Z -> boot -> Prop) : translate s a = Some pa -> Q (load32 (b_phys s) pa) s -> wp (ldw a) Q s.
Proof. intros Ht HQ. unfold ldw. apply wp_bind, wp_get. rewrite Ht. by apply wp_ret. Qed.

Lemma bcall_ok s target ra pa (Q : unit -> boot -> Prop) : translate s (u32 (b_esp s - 4)) = Some pa -> Q tt (set_ip target (set_esp (u32 (b_esp s - 4)) (set_phys (store32 (b_phys s) pa ra) s))) -> wp (bcall target ra) Q s.
Proof. intros Ht HQ. unfold bcall. apply wp_bind, wp_get. cbv zeta. rewrite Ht. by apply wp_modify. Qed.

Lemma translate_off s a : paging s = false -> translate s a = Some a.
Proof. intros Hp. unfold translate. by rewrite Hp. Qed.

(** The words that [startothers] stores. *)
Lemma ap_args_words code stack mpenter entrypgdir m : 12 <= code -> 0 <= mpenter < 2 ^ 32 -> 0 <= stack + KSTACKSIZE < 2 ^ 32 -> let m' := ap_args code stack mpenter entrypgdir m in
  load32 m' (code - 12) = V2P entrypgdir /\ load32 m' (code - 8) = mpenter /\ load32 m' (code - 4) = stack + KSTACKSIZE.
Proof.
  intros Hc Hm Hs m'. unfold m', ap_args. split_and!; [apply load32_store32_eq, u32_range|rewrite load32_store32_ne by lia; by apply load32_store32_eq|].
  rewrite !load32_store32_ne by lia. rewrite load32_store32_eq by apply u32_range. by apply u32_small.
Qed.

Lemma entry_dir_frame pd m a w : entry_dir pd m -> (a + 4 <= pd \/ pd + PGSIZE <= a) -> entry_dir pd (store32 m a w).
Proof. intros [Ha He] Hd. split; [done|]. intros i Hi. rewrite load32_store32_ne by (unfold PGSIZE, NPDENTRIES in *; lia). by apply He. Qed.

(** With paging on: the stack and the start of the code stay where they were. *)
Lemma page_on pd s : entry_dir pd (b_phys s) -> b_cr3 s = pd -> paging s = true -> Z.testbit (b_cr4 s) 4 = true -> forall pa, 0 <= pa < 2 ^ 22 -> translate s pa = Some pa /\ translate s (KERNBASE + pa) = Some pa.
Proof.
  intros Hd E Hp H4 pa Hpa. subst pd. rewrite !entry_translate by (done || unfold KERNBASE; lia). split; [by rewrite decide_True by lia|]. unfold KERNBASE. rewrite decide_False, decide_True by lia. f_equal. lia.
Qed.

(** ** The boot sector *)

(** The keyboard controller: its status register tells when a command or a byte may be written, after a bounded number of reads; a byte after the command [0xd1] sets its output port, whose bit 1 is line A20. *)
Class Kbc `{!Bus} (polls : nat) := {
  kb_busy : dev -> nat;
  kb_cmd : dev -> Z;
  kb_a20 : dev -> bool;
  kb_busy_polls : forall a, (kb_busy a <= polls)%nat;
  kb_status : forall a, exists v a', inb 0x64 a = Ok v a' /\ kb_cmd a' = kb_cmd a /\ kb_busy a' = pred (kb_busy a) /\ (Z.land v 2 = 0 <-> kb_busy a = 0%nat);
  kb_command : forall a v, kb_busy a = 0%nat -> exists a', outb 0x64 v a = Ok tt a' /\ kb_cmd a' = v;
  kb_data : forall a v, kb_busy a = 0%nat -> kb_cmd a = 0xd1 -> exists a', outb 0x60 v a = Ok tt a' /\ kb_a20 a' = Z.testbit v 1;
}.

Section bootasm_proofs.
Context `{BU : !Bus} (polls : nat) `{KB : !Kbc polls}.

Lemma seta20_ok n : forall a (Q : unit -> dev -> Prop), (kb_busy a <= n)%nat -> (forall a', kb_busy a' = 0%nat -> kb_cmd a' = kb_cmd a -> Q tt a') -> wp (seta20 n) Q a.
Proof.
  induction n as [|n IH]; intros a Q Hn HQ; cbn [seta20]; destruct (kb_status a) as (v & a' & E & Ec & Eb & Ev); apply wp_bind, wp_ok; exists v, a'; (split; [done|]);
    destruct (Z.eqb_spec (Z.land v 2) 0) as [H0|H0]; try (apply wp_ret, HQ; [rewrite Eb, (proj1 Ev H0)|]; done).
  - exfalso. apply H0, Ev. lia.
  - apply IH; [lia|]. intros a'' H1 H2. apply HQ; congruence.
Qed.

(** The boot sector, from real mode to the call of [bootmain] in protected mode: line A20 is open, the segments are flat, interrupts are off, the stack is below the code. *)
Lemma bootasm_spec gdt start start32 bootmain ra s : boot_table gdt (b_phys (pc_core s)) -> 4 <= start < 2 ^ 32 -> protected (pc_core s) = false -> paging (pc_core s) = false ->
  wp (bootasm polls (gdt + 24) start start32 bootmain ra) (fun _ s' => let c := pc_core s' in kb_a20 (pc_dev s') = true /\ flat32 c /\ b_if c = false /\ protected c = true /\ paging c = false /\
    b_eip c = bootmain /\ b_esp c = start - 4 /\ b_phys c = store32 (b_phys (pc_core s)) (start - 4) ra) s.
Proof.
  intros Ht Hs Hp Hpg. unfold bootasm. apply wp_bind, wp_zoom, real_start; [done|]. intros c1 D1 I1 C1 R1 P1.
  apply wp_bind, wp_zoom, seta20_ok; [apply kb_busy_polls|]. intros a1 B1 _. cbn [pc_core pc_dev]. destruct (kb_command a1 0xd1 B1) as (a2 & E2 & K2). apply wp_bind, wp_zoom, wp_ok. exists tt, a2. split; [done|].
  apply wp_bind, wp_zoom, seta20_ok; [apply kb_busy_polls|]. intros a3 B3 K3. cbn [pc_core pc_dev] in *. destruct (kb_data a3 0xdf B3 ltac:(congruence)) as (a4 & E4 & A4). apply wp_bind, wp_zoom, wp_ok. exists tt, a4. split; [done|].
  apply wp_zoom, enter_protected; cbn [pc_core pc_dev]; [by rewrite P1|done|]. intros c2 F2 P2 I2 C2 R2 _. apply wp_bind, wp_modify.
  assert (protected c2 = true) as Hp2 by (unfold protected; rewrite C2, Z.lor_spec; apply orb_true_r). assert (paging c2 = false) as Hg2 by (unfold paging in *; by rewrite C2, C1, Z.lor_spec, Hpg).
  eapply bcall_ok; [by apply translate_off|]. cbn [b_phys b_esp set_esp pc_core pc_dev]. rewrite u32_small by lia. split_and!; [done|destruct F2; by split|cbn; congruence|done|done|done|done|cbn; congruence].
Qed.
End bootasm_proofs.

(** A controller with these laws, busy for one read after each byte. *)
Module Sim.
Record kbc := mkKbc { k_busy : bool; k_cmd : Z; k_a20 : bool }.
#[local] Instance kbc_bus : Bus := {|
  dev := kbc; inb := fun _ a => Ok (if k_busy a then 2 else 0) (mkKbc false (k_cmd a) (k_a20 a));
  outb := fun p v a => Ok tt (if decide (p = 0x64) then mkKbc true v (k_a20 a) else mkKbc true (k_cmd a) (if decide (k_cmd a = 0xd1) then Z.testbit v 1 else k_a20 a));
  rd := fun _ a => Ok 0 a; wr := fun _ _ a => Ok tt a |}.
#[local] Program Instance kbc_laws : Kbc 1 := {| kb_busy := fun a : @dev kbc_bus => if k_busy a then 1%nat else 0%nat; kb_cmd := k_cmd; kb_a20 := k_a20 |}.
Next Obligation. intros a. cbn. destruct (k_busy a); lia. Qed.
Next Obligation. intros a. eexists _, _. split; [reflexivity|]. by destruct (k_busy a). Qed.
Next Obligation. intros a v _. by eexists. Qed.
Next Obligation. intros a v _ E. eexists. split; [reflexivity|]. cbn in *. by rewrite E. Qed.
End Sim.

(** C24 Starting another processor: in real mode, at the copy of [entryother.S] with the words that [startothers] stored below it, a processor with any registers and interrupts on gets to
    protected mode with flat segments and interrupts off, turns on paging with [entrypgdir] without losing its code, and calls [mpenter] at its high address on the top of the stack it was given,
    with the return address there and the rest of memory as it was. *)
Theorem entryother_starts code gdt start32 ra stack mpenter entrypgdir m s : 12 <= code -> code < 2 ^ 16 -> boot_table gdt (b_phys s) -> entry_dir (V2P entrypgdir) (b_phys s) ->
  b_phys s = ap_args code stack mpenter entrypgdir m -> KERNBASE < stack -> stack + KSTACKSIZE <= KERNBASE + 2 ^ 22 -> (stack + KSTACKSIZE <= entrypgdir \/ entrypgdir + PGSIZE <= stack) -> KERNBASE <= entrypgdir < 2 ^ 32 -> 0 <= mpenter < 2 ^ 32 -> protected s = false -> paging s = false ->
  wp (entryother (gdt + 24) code start32 ra) (fun _ s' => flat32 s' /\ b_if s' = false /\ protected s' = true /\ b_eip s' = mpenter /\ b_esp s' = stack + KSTACKSIZE - 4 /\
    b_phys s' = store32 (b_phys s) (stack + KSTACKSIZE - 4 - KERNBASE) ra /\
    forall pa, 0 <= pa < 2 ^ 22 -> translate s' pa = Some pa /\ translate s' (KERNBASE + pa) = Some pa) s.
Proof.
  intros Hc Hc' Ht Hd Hm Hst Hst' Hdis Hpd Hmp Hp Hpg. unfold entryother. apply real_start_k; [done|]. intros s1 D1 I1 C1 R1 P1. apply enter_protected; [by rewrite P1|done|]. intros s2 F2 P2 I2 C2 R2 _.
  assert (b_phys s2 = ap_args code stack mpenter entrypgdir m) as Hm2 by congruence. destruct (ap_args_words code stack mpenter entrypgdir m) as (L12 & L8 & L4); [done|done|unfold KSTACKSIZE, KERNBASE in *; lia|]. rewrite <- Hm2 in L12, L8, L4.
  apply wp_bind, wp_modify. cbv zeta. apply wp_bind, wp_bind. eapply ldw_ok.
  { apply translate_off. unfold paging in *. cbn [b_cr0 set_cr4 set_ax]. rewrite C2, C1, Z.lor_spec, Hpg. done. }
  cbn [b_phys set_cr4 set_ax]. rewrite L12. apply wp_bind, wp_modify, wp_modify, wp_bind, wp_modify. cbv zeta. cbn [b_cr0 set_cr4 set_ax set_bcr3].
  set (s3 := set_cr0 _ _). assert (b_phys s3 = b_phys s2) as P3 by done.
  assert (paging s3 = true) as G3 by (change (Z.testbit (Z.lor (b_cr0 s2) (Z.lor (Z.lor CR0_PE CR0_PG) CR0_WP)) 31 = true); rewrite Z.lor_spec; apply orb_true_r).
  assert (Z.testbit (b_cr4 s3) 4 = true) as X3 by (change (Z.testbit (Z.lor (b_cr4 s2) CR4_PSE) 4 = true); rewrite Z.lor_spec; apply orb_true_r).
  assert (b_cr3 s3 = V2P entrypgdir) as B3 by done. assert (entry_dir (V2P entrypgdir) (b_phys s3)) as D3 by (by rewrite P3, P2, P1). pose proof (page_on _ s3 D3 B3 G3 X3) as Ht3.
  assert (protected s3 = true) as Hp3 by (change (Z.testbit (Z.lor (b_cr0 s2) (Z.lor (Z.lor CR0_PE CR0_PG) CR0_WP)) 0 = true); rewrite Z.lor_spec; apply orb_true_r).
  assert (flat32 s3) as F3 by (destruct F2; by split). assert (b_if s3 = false) as I3 by (rewrite <- I1, <- I2; done). clearbody s3.
  apply wp_bind, wp_bind. eapply ldw_ok; [apply Ht3; lia|]. rewrite P3, L4. apply wp_modify, wp_bind. eapply ldw_ok; [apply (Ht3 (code - 8)); lia|]. cbn [b_phys set_esp]. rewrite P3, L8.
  eapply bcall_ok.
  { cbn [b_esp set_esp]. rewrite u32_small by (unfold KSTACKSIZE, KERNBASE in *; lia). replace (stack + KSTACKSIZE - 4) with (KERNBASE + (stack + KSTACKSIZE - 4 - KERNBASE)) by lia. apply (Ht3 (stack + KSTACKSIZE - 4 - KERNBASE)). unfold KSTACKSIZE, KERNBASE in *; lia. }
  cbn [b_phys b_esp set_esp]. rewrite u32_small by (unfold KSTACKSIZE, KERNBASE in *; lia). split_and!; [destruct F3; by split|done|done|done|done|cbn; congruence|].
  apply (page_on (V2P entrypgdir)); [|done|done|done]. apply entry_dir_frame; [done|]. unfold V2P. rewrite u32_small by (unfold KERNBASE in *; lia). unfold KSTACKSIZE, PGSIZE in *. lia.
Qed.

(** ** A machine with the code at 0x7000 *)

Lemma bytes_check (m : mem) a l : forallb (fun i => m (a + Z.of_nat i) =? l !!! i) (seq 0 (length l)) = true -> bytes_at m a l.
Proof. intros H i Hi. rewrite forallb_forall in H. apply Z.eqb_eq, H, in_seq. lia. Qed.

Lemma entry_dir_check pd m : PTE_ADDR pd = pd -> forallb (fun i => load32 m (pd + 4 * Z.of_nat i) =? entrypgdir_entry (Z.of_nat i)) (seq 0 (Z.to_nat NPDENTRIES)) = true -> entry_dir pd m.
Proof. intros Ha H. split; [done|]. intros i Hi. rewrite forallb_forall in H. specialize (H (Z.to_nat i)). rewrite Z2Nat.id in H by lia. apply Z.eqb_eq, H, in_seq. lia. Qed.

Definition demo_low : mem := fun a =>
  if (0x7100 <=? a) && (a <? 0x711E) then (boot_gdt ++ boot_gdtdesc 0x7100) !!! Z.to_nat (a - 0x7100) else
  if (a =? 0x109000) || (a =? 0x109800) then 131 else 0.
Definition demo_pgdir : Z := KERNBASE + 0x109000.
Definition demo_stack : Z := KERNBASE + 0x3ff000.
Definition demo_mpenter : Z := KERNBASE + 0x102f00.
Definition demo_ap : boot := mkCore 0x1234 0 0x7000 (fun _ => mkSr 0x700 0x7000 0xffff false) true 0x60000010 0 0 (0, 0) (ap_args 0x7000 demo_stack demo_mpenter demo_pgdir demo_low).

Lemma entryother_starts_witness : wp (entryother (0x7100 + 24) 0x7000 0x7040 0x7080) (fun _ s' => flat32 s' /\ b_if s' = false /\ protected s' = true /\ b_eip s' = demo_mpenter /\ b_esp s' = demo_stack + KSTACKSIZE - 4 /\
    b_phys s' = store32 (b_phys demo_ap) (demo_stack + KSTACKSIZE - 4 - KERNBASE) 0x7080 /\
    forall pa, 0 <= pa < 2 ^ 22 -> translate s' pa = Some pa /\ translate s' (KERNBASE + pa) = Some pa) demo_ap.
Proof.
  apply (entryother_starts 0x7000 0x7100 0x7040 0x7080 demo_stack demo_mpenter demo_pgdir demo_low demo_ap); try done.
  - split; [apply bytes_check; by vm_compute|apply bytes_check; by vm_compute|done].
  - apply entry_dir_check; by vm_compute.
  - right. by vm_compute.
Defined.
