(* ===== verification/ProcInv.v ===== *)
(** * The process table under concurrency.

    The sections of [proc.c] that run under [ptable.lock], interleaved in any
    order by any number of processes, interrupt handlers and CPUs; the
    invariant of the table, and what it gives: no lost wakeup in [wait], no
    lost zombie, unique pids. *)

From stdpp Require Import gmap relations.
From S2P Require Import Prelude CString Params Proc.

Definition is_obj (c : chan) : Prop := exists a, c = CObj a.

(** [fork] sets the parent of its new entry before it makes it runnable, both
    while the entry is an [EMBRYO]. *)
Inductive step : ptable -> ptable -> Prop :=
| step_run i t : p_state (proc_at t i) = RUNNABLE -> step t (awake_locked i (run_locked i t))
| step_yield i t : p_state (proc_at t i) = RUNNING -> step t (yield_locked i t)
| step_sleep i c t : p_state (proc_at t i) = RUNNING -> is_obj c -> step t (sleep_locked i c t)
| step_wakeup c t : is_obj c -> step t (wakeup c t)
| step_kill pid t : step t (kill pid t).2
| step_alloc i t t' : nextpid t < 2147483647 -> alloc_locked t = (Some i, t') -> step t t'
| step_fork_fail i t : p_state (proc_at t i) = EMBRYO -> p_parent (proc_at t i) = None ->
    step t (upd_proc i (set_state UNUSED) t)
| step_fork_parent i cur t : p_state (proc_at t cur) = RUNNING -> p_state (proc_at t i) = EMBRYO ->
    p_parent (proc_at t i) = None -> step t (upd_proc i (set_parent (Some cur)) t)
| step_fork_ready i t : p_state (proc_at t i) = EMBRYO -> p_parent (proc_at t i) <> None ->
    step t (upd_proc i (set_state RUNNABLE) t)
| step_exit cur t : p_state (proc_at t cur) = RUNNING -> cur <> initproc t -> step t (exit_locked cur t)
| step_wait cur t : p_state (proc_at t cur) = RUNNING -> step t (wait_locked cur t).2.

(** After [userinit]: the first entry is the init process. *)
Definition init_proc : proc := set_state RUNNABLE (set_pid 1 proc0).
Definition init_table : ptable := mkPt (<[0%nat := init_proc]> (replicate (Z.to_nat NPROC) proc0)) 2 0.

(** ** Entries after an update *)

Lemma proc_at_none t i : (length (procs t) <= i)%nat -> proc_at t i = proc0.
Proof. intros Hi. unfold proc_at. rewrite list_lookup_total_alt, lookup_ge_None_2 by done. done. Qed.

Lemma used_in_range t i : p_state (proc_at t i) <> UNUSED -> (i < length (procs t))%nat.
Proof. intros H. destruct (decide (i < length (procs t))%nat); [done|]. rewrite proc_at_none in H by lia. done. Qed.

Lemma proc_at_upd t i f j :
  (i < length (procs t))%nat -> proc_at (upd_proc i f t) j = if decide (j = i) then f (proc_at t i) else proc_at t j.
Proof.
  intros Hi. unfold proc_at, upd_proc. cbn [procs]. case_decide as E.
  - subst j. by apply list_lookup_total_insert_eq.
  - by apply list_lookup_total_insert_ne.
Qed.

Definition wake (c : chan) (p : proc) : proc :=
  if decide (p_state p = SLEEPING /\ p_chan p = Some c) then set_state RUNNABLE p else p.

Lemma proc_at_wakeup t c j : proc_at (with_procs (wakeup1 c) t) j = wake c (proc_at t j).
Proof.
  unfold proc_at, with_procs, wakeup1. cbn [procs]. rewrite !list_lookup_total_alt, list_lookup_fmap.
  destruct (procs t !! j); [done|]. simpl. unfold wake. rewrite decide_False; [done|]. by intros [? _].
Qed.

Lemma length_upd_proc i f t : length (procs (upd_proc i f t)) = length (procs t).
Proof. apply length_insert. Qed.

(** ** The loop of [exit] *)

Definition adopt (cur init : nat) (p : proc) : proc :=
  if decide (p_parent p = Some cur) then set_parent (Some init) p else p.
Definition wake_if (b : bool) (c : chan) (p : proc) : proc := if b then wake c p else p.

Lemma wake_fields c p : p_parent (wake c p) = p_parent p /\ p_chan (wake c p) = p_chan p /\ p_pid (wake c p) = p_pid p /\
  (p_state (wake c p) = p_state p \/ p_state p = SLEEPING /\ p_chan p = Some c /\ p_state (wake c p) = RUNNABLE).
Proof. unfold wake. case_decide as H; [|by auto]. destruct H. by auto 10. Qed.

Lemma wake_state c p s : s <> SLEEPING -> s <> RUNNABLE -> p_state (wake c p) = s <-> p_state p = s.
Proof. intros H1 H2. unfold wake. case_decide as H; [|done]. destruct H as [-> _]. simpl. split; congruence. Qed.

Lemma wake_wake c p : wake c (wake c p) = wake c p.
Proof.
  unfold wake. destruct (decide (p_state p = SLEEPING /\ p_chan p = Some c)) as [Hp|Hp]; [|by rewrite decide_False].
  rewrite decide_False; [done|]. by intros [? _].
Qed.

Lemma adopt_wake cur init c p : adopt cur init (wake c p) = wake c (adopt cur init p).
Proof. unfold adopt, wake. repeat case_decide; simpl in *; try done; tauto. Qed.

Lemma wake_if_wake b c p : wake_if b c (wake c p) = wake c p.
Proof. destruct b; [apply wake_wake|done]. Qed.

(** One turn of the loop. *)
Definition reparent1 (cur i : nat) (t : ptable) : ptable :=
  if decide (p_parent (proc_at t i) = Some cur) then
    let t := upd_proc i (set_parent (Some (initproc t))) t in
    if decide (p_state (proc_at t i) = ZOMBIE) then with_procs (wakeup1 (CProc (initproc t))) t else t
  else t.

Lemma reparent1_spec cur i t :
  length (procs (reparent1 cur i t)) = length (procs t) /\ initproc (reparent1 cur i t) = initproc t /\
  nextpid (reparent1 cur i t) = nextpid t /\
  exists b : bool,
    (p_parent (proc_at t i) = Some cur -> p_state (proc_at t i) = ZOMBIE -> b = true) /\
    forall j, proc_at (reparent1 cur i t) j =
      wake_if b (CProc (initproc t)) (if decide (j = i) then adopt cur (initproc t) (proc_at t j) else proc_at t j).
Proof.
  unfold reparent1. case_decide as Hp.
  - assert (Hi : (i < length (procs t))%nat).
    { destruct (decide (i < length (procs t))%nat); [done|]. rewrite proc_at_none in Hp by lia. done. }
    assert (Ha : forall j, proc_at (upd_proc i (set_parent (Some (initproc t))) t) j =
                 if decide (j = i) then adopt cur (initproc t) (proc_at t j) else proc_at t j).
    { intros j. rewrite proc_at_upd by done. case_decide as E; [|done]. subst j. unfold adopt. by rewrite decide_True. }
    case_decide as Hz.
    + split_and!; [by unfold wakeup1; cbn; rewrite length_fmap, length_insert|done|done|].
      exists true. split; [done|]. intros j. rewrite proc_at_wakeup, Ha. done.
    + split_and!; [by rewrite length_upd_proc|done|done|]. exists false. split; [|by intros j; rewrite Ha].
      intros _ H. rewrite Ha, decide_True in Hz by done. unfold adopt in Hz. by rewrite decide_True in Hz.
  - split_and!; [done..|]. exists false. split; [done|]. intros j. simpl. case_decide as E; [|done]. subst j.
    unfold adopt. by rewrite decide_False.
Qed.

Lemma reparent_spec n cur : forall i t,
  length (procs (reparent n cur i t)) = length (procs t) /\ initproc (reparent n cur i t) = initproc t /\
  nextpid (reparent n cur i t) = nextpid t /\
  exists b : bool,
    (forall j, (i <= j < i + n)%nat -> p_parent (proc_at t j) = Some cur -> p_state (proc_at t j) = ZOMBIE -> b = true) /\
    forall j, proc_at (reparent n cur i t) j =
      wake_if b (CProc (initproc t)) (if decide (i <= j < i + n)%nat then adopt cur (initproc t) (proc_at t j) else proc_at t j).
Proof.
  induction n as [|n IH]; intros i t.
  - split_and!; [done..|]. exists false. split; [lia|]. intros j. rewrite decide_False by lia. done.
  - cbn [reparent]. fold (reparent1 cur i t). destruct (reparent1_spec cur i t) as (L1 & I1 & N1 & b1 & B1 & S1).
    destruct (IH (S i) (reparent1 cur i t)) as (L2 & I2 & N2 & b2 & B2 & S2). rewrite I1 in *.
    split_and!; [congruence..|]. exists (b1 || b2). split.
    + intros j Hj Hp Hz. destruct (decide (j = i)) as [->|Hne]; [by rewrite B1|]. rewrite orb_true_iff.
      right. apply (B2 j); [lia| |]; rewrite S1, decide_False by done.
      * unfold wake_if. destruct b1; [|done]. by rewrite (proj1 (wake_fields _ _)).
      * unfold wake_if. destruct b1; [|done]. by apply wake_state.
    + intros j. rewrite S2, S1. destruct (decide (j = i)) as [->|Hne].
      * rewrite decide_False, decide_True by lia. destruct b1, b2; simpl; rewrite ?wake_wake; done.
      * destruct (decide (S i <= j < S i + n)%nat).
        -- rewrite (decide_True (P := (i <= j < i + S n)%nat)) by lia. destruct b1, b2; simpl; rewrite ?adopt_wake, ?wake_wake; done.
        -- rewrite (decide_False (P := (i <= j < i + S n)%nat)) by lia. destruct b1, b2; simpl; rewrite ?wake_wake; done.
Qed.

(** ** The invariant *)

Definition live (p : proc) : Prop := p_state p = SLEEPING \/ p_state p = RUNNABLE \/ p_state p = RUNNING.
(** Asleep in [wait]. *)
Definition waiting (i : nat) (p : proc) : Prop := p_state p = SLEEPING /\ p_chan p = Some (CProc i).

Record pinv (P : nat -> proc) (ini : nat) (np : Z) : Prop := {
  pi_init : live (P ini);
  pi_root : p_parent (P ini) = None;
  pi_unused : forall i, p_state (P i) = UNUSED -> p_parent (P i) = None;
  pi_parent : forall i q, p_parent (P i) = Some q -> live (P q) /\ q <> i;
  pi_orphan : forall i, i <> ini -> live (P i) \/ p_state (P i) = ZOMBIE -> p_parent (P i) <> None;
  pi_chan : forall i, p_state (P i) <> SLEEPING -> p_state (P i) <> RUNNABLE -> p_chan (P i) = None;
  pi_self : forall i q, p_chan (P i) = Some (CProc q) -> q = i;
  pi_wait : forall i, waiting i (P i) ->
    (exists j, p_parent (P j) = Some i) /\ forall j, p_parent (P j) = Some i -> p_state (P j) <> ZOMBIE;
  pi_pid : forall i, 0 <= p_pid (P i) < np /\ (p_state (P i) <> UNUSED -> 1 <= p_pid (P i));
  pi_uniq : forall i j, p_pid (P i) <> 0 -> p_pid (P i) = p_pid (P j) -> i = j;
}.

(** A change of state or channel that neither creates nor ends a process nor
    starts a [wait]. *)
Record quiet (i : nat) (p p' : proc) : Prop := {
  q_parent : p_parent p' = p_parent p;
  q_pid : p_pid p' = p_pid p;
  q_state : p_state p' = p_state p \/ live p /\ live p';
  q_chan : p_state p' <> SLEEPING -> p_state p' <> RUNNABLE -> p_chan p' = None;
  q_self : forall q, p_chan p' = Some (CProc q) -> q = i;
  q_wait : waiting i p' -> waiting i p;
}.

Lemma quiet_live i p p' : quiet i p p' -> live p' <-> live p.
Proof. intros [_ _ [E|[? ?]] _ _ _]; [unfold live; by rewrite E|tauto]. Qed.

Lemma quiet_state i p p' s : quiet i p p' -> s = UNUSED \/ s = ZOMBIE -> p_state p' = s <-> p_state p = s.
Proof.
  intros [_ _ [E|[H H']] _ _ _] Hs; [by rewrite E|]. unfold live in *.
  destruct Hs as [-> | ->]; split; intros; intuition congruence.
Qed.

Lemma quiet_inv P P' ini np : pinv P ini np -> (forall i, quiet i (P i) (P' i)) -> pinv P' ini np.
Proof.
  intros [] HQ.
  assert (Hpar : forall i, p_parent (P' i) = p_parent (P i)) by (intros i; apply (q_parent _ _ _ (HQ i))).
  assert (Hu : forall i, p_state (P' i) = UNUSED <-> p_state (P i) = UNUSED) by (intros i; eapply quiet_state; [apply HQ|by left]).
  assert (Hz : forall i, p_state (P' i) = ZOMBIE <-> p_state (P i) = ZOMBIE) by (intros i; eapply quiet_state; [apply HQ|by right]).
  assert (Hl : forall i, live (P' i) <-> live (P i)) by (intros i; eapply quiet_live, HQ).
  assert (Hid : forall i, p_pid (P' i) = p_pid (P i)) by (intros i; apply (q_pid _ _ _ (HQ i))).
  split.
  - by apply Hl.
  - by rewrite Hpar.
  - intros i. rewrite Hu, Hpar. auto.
  - intros i q. rewrite Hpar, Hl. auto.
  - intros i. rewrite Hl, Hz, Hpar. auto.
  - intros i. apply (q_chan _ _ _ (HQ i)).
  - intros i. apply (q_self _ _ _ (HQ i)).
  - intros i Hw. destruct (pi_wait0 i (q_wait _ _ _ (HQ i) Hw)) as [[j Hj] Hn]. split; [exists j; by rewrite Hpar|].
    intros k. rewrite Hpar, Hz. auto.
  - intros i. rewrite Hu, Hid. auto.
  - intros i j. rewrite !Hid. auto.
Qed.

Section quiet.
Context (P : nat -> proc) (ini : nat) (np : Z).
Hypothesis I : pinv P ini np.

Lemma quiet_refl i : quiet i (P i) (P i).
Proof. destruct I. split; auto. Qed.

Lemma quiet_wake i c : quiet i (P i) (wake c (P i)).
Proof.
  unfold wake. case_decide as H; [|apply quiet_refl]. destruct H as [Hs Hc], I.
  split; unfold waiting, live; simpl; auto; try tauto; try congruence.
Qed.

(** Running, yielding and sleeping on an object change one live entry. *)
Lemma quiet_set i s c :
  live (P i) -> live (set_state s (P i)) -> (s <> SLEEPING -> s <> RUNNABLE -> c = None) ->
  c = None \/ (exists o, c = Some o /\ is_obj o) ->
  quiet i (P i) (set_state s (set_chan c (P i))).
Proof.
  intros Hl Hl' Hc Ho. split; try done.
  - by right.
  - intros q E. cbn in E. destruct Ho as [->|(o & -> & a & ->)]; done.
  - intros [_ E]. cbn in E. destruct Ho as [->|(o & -> & a & ->)]; done.
Qed.

Lemma quiet_kill i :
  let p := set_killed true (P i) in quiet i (P i) (if decide (p_state p = SLEEPING) then set_state RUNNABLE p else p).
Proof.
  cbn. destruct I. case_decide as H; split; unfold waiting, live; simpl; auto; try tauto; try congruence.
Qed.
End quiet.

(** ** Preservation *)

Definition upd (i : nat) (p : proc) (P : nat -> proc) (j : nat) : proc := if decide (j = i) then p else P j.

Lemma upd_eq i p P : upd i p P i = p.
Proof. unfold upd. by rewrite decide_True. Qed.
Lemma upd_ne i p P j : j <> i -> upd i p P j = P j.
Proof. intros. unfold upd. by rewrite decide_False. Qed.

Ltac updcase := repeat match goal with
  | |- context [upd ?i _ _ ?j] => destruct (decide (j = i)) as [->|]; [rewrite !upd_eq in *|rewrite !upd_ne in * by done]
  | H : context [upd ?i _ _ ?j] |- _ => destruct (decide (j = i)) as [->|]; [rewrite !upd_eq in *|rewrite !upd_ne in * by done]
  end.

Section steps.
Context (P : nat -> proc) (ini : nat) (np : Z).
Hypothesis I : pinv P ini np.

(** [allocproc] *)
Lemma inv_alloc i : p_state (P i) = UNUSED -> pinv (upd i (set_pid np (set_state EMBRYO (P i))) P) ini (np + 1).
Proof.
  intros Hi. pose proof I as [Hini Hroot Hun Hpar Horph Hch Hself Hw Hpid Huniq].
  assert (Hnot : ini <> i) by (intros ->; unfold live in Hini; rewrite Hi in Hini; intuition congruence).
  assert (Hnl : ~ live (P i)) by (unfold live; rewrite Hi; intuition congruence).
  split; try (intros; updcase; simpl in *; auto; congruence).
  - intros j q. updcase; simpl; try by auto.
    + intros Hq. by rewrite Hun in Hq.
    + intros Hq. by destruct (Hpar _ _ Hq).
  - intros j Hj. updcase; simpl; [|by auto]. unfold live. simpl. intuition congruence.
  - intros j. updcase; simpl; [|by auto]. intros _ _. apply Hch; congruence.
  - intros j. updcase; simpl; [by intros [? _]|]. intros Hwj. destruct (Hw j Hwj) as [[c Hc] Hn]. split.
    + exists c. updcase; [by rewrite Hun in Hc|done].
    + intros c'. updcase; simpl; [done|]. auto.
  - intros j. pose proof (Hpid j) as [Hj Hj']. destruct (Hpid ini) as [_ Hi']. unfold live in Hini.
    assert (p_state (P ini) <> UNUSED) by intuition congruence. destruct (Hpid ini). updcase; simpl; split; auto; lia.
  - intros j k. destruct (Hpid j) as [? _], (Hpid k) as [? _]. updcase; simpl; intros; try done; try lia. auto.
Qed.

Lemma embryo_facts i : p_state (P i) = EMBRYO -> i <> ini /\ ~ live (P i) /\ forall j, p_parent (P j) <> Some i.
Proof.
  intros Hi. destruct I as [Hini _ _ Hpar _ _ _ _ _ _]. assert (Hnl : ~ live (P i)) by (unfold live; rewrite Hi; intuition congruence).
  split; [by intros ->|]. split; [done|]. intros j Hj. by destruct (Hpar _ _ Hj).
Qed.

(** [fork] gives up its entry. *)
Lemma inv_fork_fail i : p_state (P i) = EMBRYO -> p_parent (P i) = None -> pinv (upd i (set_state UNUSED (P i)) P) ini np.
Proof.
  intros Hi Hp. destruct (embryo_facts i Hi) as (Hne & Hnl & Hnp). pose proof I as [Hini Hroot Hun Hpar Horph Hch Hself Hw Hpid Huniq].
  split; try (intros; updcase; simpl in *; auto; congruence).
  - intros j Hj. updcase; simpl; [|by auto]. unfold live. simpl. intuition congruence.
  - intros j. updcase; simpl; [|by auto]. intros _ _. apply Hch; congruence.
  - intros j. updcase; simpl; [by intros [? _]|]. intros Hwj. destruct (Hw j Hwj) as [[c Hc] Hn]. split.
    + exists c. updcase; [congruence|done].
    + intros c'. updcase; simpl; [done|]. auto.
  - intros j. destruct (Hpid j) as [? _]. updcase; simpl; try tauto; auto.
Qed.

(** [fork] sets the parent of its entry. *)
Lemma inv_fork_parent i cur :
  p_state (P cur) = RUNNING -> p_state (P i) = EMBRYO -> p_parent (P i) = None ->
  pinv (upd i (set_parent (Some cur) (P i)) P) ini np.
Proof.
  intros Hc Hi Hp. destruct (embryo_facts i Hi) as (Hne & Hnl & Hnp). pose proof I as [Hini Hroot Hun Hpar Horph Hch Hself Hw Hpid Huniq].
  assert (Hlc : live (P cur)) by (unfold live; auto). assert (Hic : cur <> i) by (intros ->; congruence).
  split; try (intros; updcase; simpl in *; auto; congruence).
  - intros j q. destruct (decide (j = i)) as [->|].
    + rewrite upd_eq. simpl. intros [= <-]. by rewrite upd_ne.
    + rewrite (upd_ne _ _ _ j) by done. intros Hq. rewrite upd_ne; [by apply Hpar|]. intros ->. by apply (Hnp j).
  - intros j. updcase; simpl; [by intros [Hs _]; simpl in Hs; congruence|]. intros Hwj. destruct (Hw j Hwj) as [[c Hc'] Hn].
    split; [by exists c; updcase; [congruence|]|]. intros k. updcase; simpl; [congruence|]. auto.
Qed.

(** The new process becomes runnable. *)
Lemma inv_fork_ready i :
  p_state (P i) = EMBRYO -> p_parent (P i) <> None -> pinv (upd i (set_state RUNNABLE (P i)) P) ini np.
Proof.
  intros Hi Hp. destruct (embryo_facts i Hi) as (Hne & Hnl & Hnp). pose proof I as [Hini Hroot Hun Hpar Horph Hch Hself Hw Hpid Huniq].
  split; try (intros; updcase; simpl in *; auto; congruence).
  - intros j. updcase; simpl; [by intros [Hs _]|]. intros Hwj. destruct (Hw j Hwj) as [[c Hc'] Hn].
    split; [exists c; by updcase|]. intros k. updcase; simpl; [done|]. auto.
  - intros j. destruct (Hpid j) as [? Hj]. updcase; simpl; [|auto]. split; [done|]. intros _. apply Hj. congruence.
Qed.

(** [wait] frees a zombie child. *)
Lemma inv_reap cur i :
  p_state (P cur) = RUNNING -> p_parent (P i) = Some cur -> p_state (P i) = ZOMBIE -> pinv (upd i (reap (P i)) P) ini np.
Proof.
  intros Hc Hp Hi. pose proof I as [Hini Hroot Hun Hpar Horph Hch Hself Hw Hpid Huniq].
  assert (Hnl : ~ live (P i)) by (unfold live; rewrite Hi; intuition congruence).
  assert (Hne : ini <> i) by (intros ->; done). assert (Hnp : forall j, p_parent (P j) <> Some i) by (intros j Hj; by destruct (Hpar _ _ Hj)).
  split; try (intros; updcase; simpl in *; auto; congruence).
  - intros j Hj. updcase; simpl; [|by auto]. unfold live. simpl. intuition congruence.
  - intros j. updcase; simpl; [|by auto]. intros _ _. apply Hch; congruence.
  - intros j. updcase; simpl; [by intros [Hs _]|]. intros Hwj. destruct (Hw j Hwj) as [[c Hc'] Hn]. split.
    + exists c. updcase; [|done]. exfalso. apply (Hn i); [done|congruence].
    + intros k. updcase; simpl; [done|]. auto.
  - intros j. destruct (Hpid j) as [? Hj]. updcase; simpl; [|auto]. split; [lia|done].
Qed.

(** [wait] goes to sleep. *)
Lemma inv_wait_sleep cur :
  p_state (P cur) = RUNNING -> (exists j, p_parent (P j) = Some cur) ->
  (forall j, p_parent (P j) = Some cur -> p_state (P j) <> ZOMBIE) ->
  pinv (upd cur (set_state SLEEPING (set_chan (Some (CProc cur)) (P cur))) P) ini np.
Proof.
  intros Hc [c Hkid] Hnz. pose proof I as [Hini Hroot Hun Hpar Horph Hch Hself Hw Hpid Huniq].
  assert (Hst : forall j, p_parent (upd cur (set_state SLEEPING (set_chan (Some (CProc cur)) (P cur))) P j) = p_parent (P j))
    by (intros j; by updcase).
  assert (Hlive : forall j, live (upd cur (set_state SLEEPING (set_chan (Some (CProc cur)) (P cur))) P j) <-> live (P j))
    by (intros j; updcase; [unfold live; simpl; rewrite Hc; tauto|done]).
  split.
  - by apply Hlive.
  - by rewrite Hst.
  - intros j. rewrite Hst. updcase; simpl; [done|auto].
  - intros j q. rewrite Hst, Hlive. auto.
  - intros j. rewrite Hst, Hlive. updcase; simpl; [|auto]. intros Hj [?|?]; [by apply Horph; auto|done].
  - intros j. updcase; simpl; [done|auto].
  - intros j q. updcase; simpl; [congruence|auto].
  - intros j Hj. assert (Hjw : j = cur \/ waiting j (P j)) by (revert Hj; updcase; auto).
    assert (Hk : (exists k, p_parent (P k) = Some j) /\ forall k, p_parent (P k) = Some j -> p_state (P k) <> ZOMBIE).
    { destruct Hjw as [-> |]; [split; [by exists c|done]|by apply Hw]. }
    destruct Hk as [[k Hk] Hn]. split; [exists k; by rewrite Hst|]. intros k'. rewrite Hst. updcase; simpl; auto.
  - intros j. destruct (Hpid j) as [? Hj]. updcase; simpl; [|auto]. split; [done|]. intros _. apply Hj. congruence.
  - intros j k. updcase; simpl; intros; try done; apply Huniq; congruence.
Qed.

(** The table after the loop of [exit], before the process becomes a zombie. *)
Section exit.
Context (cur : nat) (b : bool).
Hypothesis Hc : p_state (P cur) = RUNNING.
Hypothesis Hne : cur <> ini.
Hypothesis Hq : forall q, p_parent (P cur) = Some q -> ~ waiting q (P q).
Hypothesis Hb : forall j, p_parent (P j) = Some cur -> p_state (P j) = ZOMBIE -> b = true.

Definition adopted (j : nat) : proc := wake_if b (CProc ini) (adopt cur ini (P j)).

Lemma adopted_parent j : p_parent (adopted j) = if decide (p_parent (P j) = Some cur) then Some ini else p_parent (P j).
Proof.
  unfold adopted, wake_if. destruct b; [rewrite (proj1 (wake_fields _ _))|]; unfold adopt; by case_decide.
Qed.

Lemma adopt_state j : p_state (adopt cur ini (P j)) = p_state (P j) /\ p_chan (adopt cur ini (P j)) = p_chan (P j).
Proof. unfold adopt. by case_decide. Qed.

Lemma adopted_chan j : p_chan (adopted j) = p_chan (P j) /\ p_pid (adopted j) = p_pid (P j).
Proof.
  unfold adopted, wake_if. destruct b.
  - destruct (wake_fields (CProc ini) (adopt cur ini (P j))) as (_ & -> & -> & _). unfold adopt. by case_decide.
  - unfold adopt. by case_decide.
Qed.

Lemma adopted_state j s : s <> SLEEPING -> s <> RUNNABLE -> p_state (adopted j) = s <-> p_state (P j) = s.
Proof.
  intros H1 H2. unfold adopted, wake_if. destruct (adopt_state j) as [E _].
  destruct b; [rewrite wake_state by done|]; by rewrite E.
Qed.

Lemma adopted_live j : live (adopted j) <-> live (P j).
Proof.
  unfold adopted, wake_if, live. destruct (adopt_state j) as [E _]. destruct b; [|by rewrite E].
  unfold wake. case_decide as H; rewrite ?E in *; simpl; [|done]. destruct H as [-> _]. intuition congruence.
Qed.

Lemma adopted_waiting j : waiting j (adopted j) -> waiting j (P j) /\ (j = ini -> b = false).
Proof.
  unfold waiting, adopted, wake_if. destruct (adopt_state j) as [E1 E2]. destruct b; [|rewrite E1, E2; auto].
  unfold wake. case_decide as H; simpl; [by intros [? _]|]. rewrite E1, E2 in *. intros Hw. split; [done|]. intros ->. by destruct H.
Qed.

Lemma inv_exit : pinv (upd cur (set_state ZOMBIE (adopted cur)) adopted) ini np.
Proof.
  pose proof I as [Hini Hroot Hun Hpar Horph Hch Hself Hw Hpid Huniq].
  set (P' := upd cur (set_state ZOMBIE (adopted cur)) adopted).
  assert (Ep : forall j, p_parent (P' j) = if decide (p_parent (P j) = Some cur) then Some ini else p_parent (P j)).
  { intros j. rewrite <- adopted_parent. unfold P'. by updcase. }
  assert (El : forall j, j <> cur -> live (P' j) <-> live (P j)).
  { intros j Hj. unfold P'. rewrite upd_ne by done. apply adopted_live. }
  assert (Es : forall j s, j <> cur -> s <> SLEEPING -> s <> RUNNABLE -> p_state (P' j) = s <-> p_state (P j) = s).
  { intros j s Hj. unfold P'. rewrite upd_ne by done. apply adopted_state. }
  assert (Ez : p_state (P' cur) = ZOMBIE) by (unfold P'; by rewrite upd_eq).
  assert (Ei : forall j, p_chan (P' j) = p_chan (P j) /\ p_pid (P' j) = p_pid (P j)).
  { intros j. destruct (adopted_chan j) as [<- <-]. unfold P'. by updcase. }
  assert (Hnu : forall j, p_state (P' j) <> UNUSED <-> p_state (P j) <> UNUSED).
  { intros j. destruct (decide (j = cur)) as [->|Hj]; [rewrite Ez, Hc; done|]. by rewrite Es. }
  split.
  - by apply El.
  - rewrite Ep, Hroot. done.
  - intros j Hj. destruct (decide (j = cur)) as [->|Hjc]; [congruence|]. apply Es in Hj; [|done..]. rewrite Ep, (Hun j Hj). done.
  - intros j q. rewrite Ep. case_decide as Hp.
    + intros [= <-]. split; [by apply El|]. intros ->. congruence.
    + intros Hjq. destruct (Hpar _ _ Hjq) as [Hl Hqj]. split; [|done]. apply El; [|done]. intros ->. done.
  - intros j Hj Hlz. rewrite Ep. case_decide; [done|]. apply Horph; [done|].
    destruct (decide (j = cur)) as [->|Hjc]; [left; unfold live; auto|]. rewrite El in Hlz by done. by rewrite Es in Hlz.
  - intros j H1 H2. rewrite (proj1 (Ei j)). destruct (decide (j = cur)) as [->|Hjc]; [apply Hch; congruence|].
    destruct (p_state (P' j)) eqn:E; try done; apply Es in E; try done; apply Hch; congruence.
  - intros j q. rewrite (proj1 (Ei j)). apply Hself.
  - intros j Hj. assert (Hjc : j <> cur) by (intros ->; destruct Hj; congruence).
    unfold P' in Hj. rewrite upd_ne in Hj by done. apply adopted_waiting in Hj as [Hj Hjb]. destruct (Hw j Hj) as [[c Hkid] Hnz]. split.
    + exists c. rewrite Ep, decide_False by congruence. done.
    + intros k Hk Hz. rewrite Ep in Hk. case_decide as Hkc.
      * injection Hk as <-. rewrite Hjb in Hb by done. destruct (decide (k = cur)) as [->|]; [by destruct (Hpar _ _ Hkc)|].
        apply Es in Hz; [|done..]. by specialize (Hb k Hkc Hz).
      * destruct (decide (k = cur)) as [->|]; [by destruct (Hq j Hk)|]. apply Es in Hz; [|done..]. by apply (Hnz k).
  - intros j. rewrite Hnu, (proj2 (Ei j)). auto.
  - intros j k. rewrite (proj2 (Ei j)), (proj2 (Ei k)). auto.
Qed.
End exit.
End steps.

(** ** Every step keeps the invariant *)

Lemma pinv_ext P P' ini np : pinv P ini np -> (forall j, P' j = P j) -> pinv P' ini np.
Proof. intros I E. eapply quiet_inv; [exact I|]. intros i. rewrite E. by eapply quiet_refl. Qed.

Definition tinv (t : ptable) : Prop := pinv (proc_at t) (initproc t) (nextpid t) /\ 1 <= nextpid t <= 2147483647.

Lemma pinv_upd t i f :
  (i < length (procs t))%nat -> pinv (upd i (f (proc_at t i)) (proc_at t)) (initproc t) (nextpid t) ->
  pinv (proc_at (upd_proc i f t)) (initproc (upd_proc i f t)) (nextpid (upd_proc i f t)).
Proof. intros Hi I. eapply pinv_ext; [exact I|]. intros j. by rewrite proc_at_upd. Qed.

Lemma find_unused_spec l : forall i, match find_unused l i with
  | Some r => exists j p, r = (i + j)%nat /\ l !! j = Some p /\ p_state p = UNUSED
  | None => Forall (fun p => p_state p <> UNUSED) l end.
Proof.
  induction l as [|p l IH]; intros i; cbn [find_unused]; [done|]. case_decide as E; [by exists 0%nat, p; rewrite Nat.add_0_r|].
  specialize (IH (S i)). destruct (find_unused l (S i)); [|by constructor].
  destruct IH as (j & q & -> & Hj & Hq). exists (S j), q. split; [lia|done].
Qed.

Lemma find_pid_spec pid l : forall i, match find_pid l i pid with
  | Some r => exists j p, r = (i + j)%nat /\ l !! j = Some p /\ p_pid p = pid
  | None => Forall (fun p => p_pid p <> pid) l end.
Proof.
  induction l as [|p l IH]; intros i; cbn [find_pid]; [done|].
  destruct (Z.eqb_spec (p_pid p) pid); [by exists 0%nat, p; rewrite Nat.add_0_r|].
  specialize (IH (S i)). destruct (find_pid l (S i) pid); [|by constructor].
  destruct IH as (j & q & -> & Hj & Hq). exists (S j), q. split; [lia|done].
Qed.

Lemma wait_scan_spec cur l : forall i hk, match wait_scan l i cur hk with
  | (Some r, _) => exists j p, r = (i + j)%nat /\ l !! j = Some p /\ p_parent p = Some cur /\ p_state p = ZOMBIE
  | (None, b) => Forall (fun p => p_parent p = Some cur -> p_state p <> ZOMBIE) l /\
      (b = true <-> hk = true \/ Exists (fun p => p_parent p = Some cur) l) end.
Proof.
  induction l as [|p l IH]; intros i hk; cbn [wait_scan].
  - split; [done|]. rewrite Exists_nil. tauto.
  - case_decide as Hp; [case_decide as Hz; [by exists 0%nat, p; rewrite Nat.add_0_r|]|].
    + specialize (IH (S i) true). destruct (wait_scan l (S i) cur true) as [[r|] b].
      * destruct IH as (j & q & -> & Hj & Hq). exists (S j), q. split; [lia|done].
      * destruct IH as [Hf Hb]. split; [by constructor|]. rewrite Exists_cons. tauto.
    + specialize (IH (S i) hk). destruct (wait_scan l (S i) cur hk) as [[r|] b].
      * destruct IH as (j & q & -> & Hj & Hq). exists (S j), q. split; [lia|done].
      * destruct IH as [Hf Hb]. split; [by constructor|]. rewrite Exists_cons. tauto.
Qed.

Lemma proc_at_lookup t j p : procs t !! j = Some p -> proc_at t j = p /\ (j < length (procs t))%nat.
Proof. intros H. split; [by apply list_lookup_total_correct|by eapply lookup_lt_Some]. Qed.

Lemma Forall_procs (Q : proc -> Prop) t : Forall Q (procs t) -> Q proc0 -> forall j, Q (proc_at t j).
Proof.
  intros HF H0 j. destruct (decide (j < length (procs t))%nat) as [Hj|Hj]; [|by rewrite proc_at_none by lia].
  destruct (lookup_lt_is_Some_2 _ _ Hj) as [p Hp]. destruct (proc_at_lookup _ _ _ Hp) as [-> _]. by eapply Forall_lookup_1 in HF.
Qed.

Lemma step_quiet t t' :
  tinv t -> initproc t' = initproc t -> nextpid t' = nextpid t ->
  (forall i, quiet i (proc_at t i) (proc_at t' i)) -> tinv t'.
Proof. intros [I Hn] E1 E2 HQ. split; [|lia]. rewrite E1, E2. by eapply quiet_inv. Qed.

(** A step that changes one live entry. *)
Lemma step_one t i f :
  tinv t -> live (proc_at t i) -> quiet i (proc_at t i) (f (proc_at t i)) -> tinv (upd_proc i f t).
Proof.
  intros T Hl HQ. assert (Hi : (i < length (procs t))%nat) by (apply used_in_range; unfold live in Hl; intuition congruence).
  eapply step_quiet; [exact T|done|done|]. intros j. rewrite proc_at_upd by done. case_decide as E; [by subst|].
  eapply quiet_refl. apply T.
Qed.

Lemma tinv_exit cur t :
  tinv t -> p_state (proc_at t cur) = RUNNING -> cur <> initproc t -> tinv (exit_locked cur t).
Proof.
  intros T Hc Hne. destruct (p_parent (proc_at t cur)) as [q|] eqn:Eq.
  2:{ destruct T as [I _]. exfalso. eapply (pi_orphan _ _ _ I cur); [done|left; unfold live; auto|done]. }
  set (t0 := with_procs (wakeup1 (CProc q)) t).
  assert (E0 : forall j, proc_at t0 j = wake (CProc q) (proc_at t j)) by (intros; apply proc_at_wakeup).
  assert (T0 : tinv t0).
  { eapply step_quiet; [exact T|done|done|]. intros i. rewrite E0. eapply quiet_wake. apply T. }
  destruct (reparent_spec (length (procs t0)) cur 0 t0) as (L1 & I1 & N1 & b & B & S1).
  unfold exit_locked. rewrite Eq. fold t0. set (t1 := reparent _ _ _ _) in *.
  assert (Hc0 : p_state (proc_at t0 cur) = RUNNING) by (rewrite E0; by apply wake_state).
  assert (Hlen : (cur < length (procs t1))%nat) by (rewrite L1; apply used_in_range; congruence).
  assert (E1 : forall j, proc_at t1 j = adopted (proc_at t0) (initproc t0) cur b j).
  { intros j. rewrite S1. unfold adopted. f_equal. case_decide as Hj; [done|]. rewrite proc_at_none by lia. done. }
  destruct T0 as [I0 Hn0]. split; [|cbn [upd_proc nextpid]; rewrite N1; lia]. apply pinv_upd; [done|]. rewrite I1, N1. eapply pinv_ext.
  - eapply (inv_exit _ _ _ I0 cur b Hc0 Hne).
    + intros q'. rewrite !E0, (proj1 (wake_fields _ _)), Eq. intros [= <-] [Hs Hch].
      destruct (wake_fields (CProc q) (proc_at t q)) as (_ & Hch' & _ & _). rewrite Hch' in Hch.
      unfold wake in Hs. case_decide as H; [done|]. by destruct H.
    + intros j Hp Hz. apply (B j); [|done|done]. split; [lia|]. apply used_in_range. congruence.
  - intros j. unfold upd. case_decide as E; [by rewrite E1|]. by rewrite E1.
Qed.

Lemma tinv_wait cur t : tinv t -> p_state (proc_at t cur) = RUNNING -> tinv (wait_locked cur t).2.
Proof.
  intros [I Hn] Hc. unfold wait_locked. pose proof (wait_scan_spec cur (procs t) 0 false) as H.
  destruct (wait_scan (procs t) 0 cur false) as [[r|] b].
  - destruct H as (j & p & -> & Hj & Hp & Hz). destruct (proc_at_lookup _ _ _ Hj) as [E Hlt]. cbn [snd Nat.add].
    split; [|done]. apply pinv_upd; [done|]. eapply inv_reap; [exact I|exact Hc|by rewrite E|by rewrite E].
  - destruct H as [Hf Hb]. destruct b; cbn [negb orb]; [|done]. destruct (p_killed (proc_at t cur)); [done|]. cbn [snd].
    split; [|done]. apply (pinv_upd t cur (fun p => set_state SLEEPING (set_chan (Some (CProc cur)) p))).
    + apply used_in_range. congruence.
    + apply inv_wait_sleep; [done|done| |].
      * destruct Hb as [[?|Hex] _]; [done|done|]. apply Exists_exists in Hex as (p & Hin & Hp).
        apply list_elem_of_lookup in Hin as [j Hj]. exists j. by destruct (proc_at_lookup _ _ _ Hj) as [-> _].
      * intros j. apply (Forall_procs (fun p => p_parent p = Some cur -> p_state p <> ZOMBIE)); [done|done].
Qed.

Lemma tinv_kill pid t : tinv t -> tinv (kill pid t).2.
Proof.
  intros T. unfold kill. pose proof (find_pid_spec pid (procs t) 0) as H.
  destruct (find_pid (procs t) 0 pid) as [r|]; [|done]. destruct H as (j & p & -> & Hj & _).
  destruct (proc_at_lookup _ _ _ Hj) as [_ Hlt]. cbn [snd Nat.add]. eapply step_quiet; [exact T|done|done|].
  intros i. rewrite proc_at_upd by done. case_decide as E; [|eapply quiet_refl; apply T].
  subst i. eapply (quiet_kill (proc_at t)). apply T.
Qed.

Lemma tinv_alloc i t t' : tinv t -> nextpid t < 2147483647 -> alloc_locked t = (Some i, t') -> tinv t'.
Proof.
  intros [I Hn] Hlt. unfold alloc_locked. pose proof (find_unused_spec (procs t) 0) as H.
  destruct (find_unused (procs t) 0) as [r|]; [|done]. destruct H as (j & p & -> & Hj & Hp). intros [= _ <-].
  destruct (proc_at_lookup _ _ _ Hj) as [E Hjl]. cbn [nextpid upd_proc procs initproc]. rewrite s32_small by lia.
  split; [|cbn; lia]. eapply pinv_ext; [apply (inv_alloc _ _ _ I j); by rewrite E|].
  intros k. exact (proc_at_upd t j (fun p => set_pid (nextpid t) (set_state EMBRYO p)) k Hjl).
Qed.

Lemma tinv_one_embryo i f t :
  tinv t -> p_state (proc_at t i) = EMBRYO -> pinv (upd i (f (proc_at t i)) (proc_at t)) (initproc t) (nextpid t) ->
  tinv (upd_proc i f t).
Proof. intros [I Hn] Hi Hp. split; [|done]. apply pinv_upd; [apply used_in_range; congruence|done]. Qed.

Lemma step_inv t t' : tinv t -> step t t' -> tinv t'.
Proof.
  intros T Hs. destruct Hs as [i t Hi|i t Hi|i c t Hi Hc|c t Hc|pid t|i t t' Hn Ha|i t Hi Hp|i cur t Hc Hi Hp|i t Hi Hp|cur t Hc Hne|cur t Hc].
  - assert (Hr : (i < length (procs t))%nat) by (apply used_in_range; congruence).
    assert (E : forall j, proc_at (awake_locked i (run_locked i t)) j =
                 if decide (j = i) then set_state RUNNING (set_chan None (proc_at t i)) else proc_at t j).
    { intros j. unfold awake_locked, run_locked. rewrite !proc_at_upd by (rewrite ?length_upd_proc; done).
      repeat case_decide; done. }
    eapply step_quiet; [exact T|done|done|]. intros j. rewrite E. case_decide as Ej; [subst j|eapply quiet_refl; apply T].
    eapply quiet_set; [unfold live; auto|unfold live; auto|done|by left].
  - eapply step_one; [done|unfold live; auto|]. destruct T as [I _]. pose proof (pi_chan _ _ _ I i) as Hch. destruct I.
    assert (E : p_chan (proc_at t i) = None) by (apply Hch; congruence).
    split; unfold live, waiting; simpl; rewrite ?E; auto 10; try congruence. by intros [].
  - apply (step_one t i (fun p => set_state SLEEPING (set_chan (Some c) p))); [done|unfold live; auto|].
    eapply quiet_set; [unfold live; auto|unfold live; auto|done|right; by exists c].
  - eapply step_quiet; [exact T|done|done|]. intros i. unfold wakeup. rewrite proc_at_wakeup. eapply quiet_wake. apply T.
  - by apply tinv_kill.
  - by eapply tinv_alloc.
  - apply tinv_one_embryo; [done|done|]. by apply inv_fork_fail; [apply T|..].
  - apply tinv_one_embryo; [done|done|]. by apply inv_fork_parent; [apply T|..].
  - apply tinv_one_embryo; [done|done|]. by apply inv_fork_ready; [apply T|..].
  - by apply tinv_exit.
  - by apply tinv_wait.
Qed.

Lemma init_at i : proc_at init_table i = if decide (i = 0%nat) then init_proc else proc0.
Proof.
  unfold proc_at, init_table. cbn [procs]. case_decide as E; [subst; rewrite list_lookup_total_insert_eq; [done|rewrite length_replicate; unfold NPROC; lia]|].
  rewrite list_lookup_total_insert_ne by done. destruct (decide (i < Z.to_nat NPROC)%nat).
  - by rewrite lookup_total_replicate_2.
  - by rewrite list_lookup_total_alt, lookup_ge_None_2 by (rewrite length_replicate; lia).
Qed.

Lemma init_inv : tinv init_table.
Proof.
  split; [|cbn; lia]. cbn [initproc nextpid init_table].
  assert (H0 : proc_at init_table 0 = init_proc) by by rewrite init_at.
  assert (Hall : forall i, p_parent (proc_at init_table i) = None /\ p_chan (proc_at init_table i) = None /\
     (i <> 0%nat -> p_state (proc_at init_table i) = UNUSED /\ p_pid (proc_at init_table i) = 0)).
  { intros i. rewrite init_at. case_decide; by split_and!. }
  split.
  - rewrite H0. unfold live. cbn. auto.
  - apply Hall.
  - intros i _. apply Hall.
  - intros i q. rewrite (proj1 (Hall i)). done.
  - intros i Hi. destruct (Hall i) as (_ & _ & Hu). destruct (Hu Hi) as [E _]. unfold live. rewrite E. intuition congruence.
  - intros i _ _. apply Hall.
  - intros i q. destruct (Hall i) as (_ & -> & _). done.
  - intros i [_ H]. destruct (Hall i) as (_ & E & _). congruence.
  - intros i. destruct (Hall i) as (_ & _ & Hu). destruct (decide (i = 0%nat)) as [->|Hi]; [rewrite H0; cbn; split; [lia|by intros]|].
    destruct (Hu Hi) as [-> ->]. split; [lia|done].
  - intros i j Hi. destruct (Hall i) as (_ & _ & Hu), (Hall j) as (_ & _ & Hv).
    destruct (decide (i = 0%nat)) as [->|Hi0]; [|by destruct (Hu Hi0)]. destruct (decide (j = 0%nat)) as [->|Hj0]; [done|].
    destruct (Hv Hj0) as [_ ->]. done.
Qed.

Lemma reachable_inv t : rtc step init_table t -> tinv t.
Proof. intros H. eapply (rtc_ind_r tinv); [apply init_inv| |exact H]. intros x y _ Hs T. by eapply step_inv. Qed.

(** ** What the invariant gives *)

(** C26. No wakeup is lost between [exit] and [wait]: under every interleaving
    of [fork], [exit], [wait], [kill], [sleep], [wakeup], [yield] and
    scheduling, a process asleep in [wait] has a child, and none of its
    children is a zombie. *)
Theorem wait_no_lost_wakeup t i :
  rtc step init_table t -> p_state (proc_at t i) = SLEEPING -> p_chan (proc_at t i) = Some (CProc i) ->
  (exists j, p_parent (proc_at t j) = Some i) /\
  forall j, p_parent (proc_at t j) = Some i -> p_state (proc_at t j) <> ZOMBIE.
Proof. intros R Hs Hc. destruct (reachable_inv t R) as [I _]. by apply (pi_wait _ _ _ I i). Qed.

(** C31. No zombie is lost: whoever exits first, every zombie has a parent that
    is alive (its own or init) and not asleep in [wait], and when that parent
    calls [wait] the call returns at once with a zombie child's pid. *)
Theorem zombie_reapable t z :
  rtc step init_table t -> p_state (proc_at t z) = ZOMBIE ->
  exists q, p_parent (proc_at t z) = Some q /\ live (proc_at t q) /\ ~ waiting q (proc_at t q) /\
    exists c, (wait_locked q t).1 = Reaped c (p_pid (proc_at t c)) /\
      p_parent (proc_at t c) = Some q /\ p_state (proc_at t c) = ZOMBIE.
Proof.
  intros R Hz. destruct (reachable_inv t R) as [I _].
  assert (Hni : z <> initproc t) by (intros ->; pose proof (pi_init _ _ _ I) as Hl; unfold live in Hl; intuition congruence).
  destruct (p_parent (proc_at t z)) as [q|] eqn:Eq; [|exfalso; eapply (pi_orphan _ _ _ I z Hni); [by right|done]].
  exists q. split; [done|]. split; [apply (pi_parent _ _ _ I z q Eq)|]. split.
  { intros Hw. by apply (proj2 (pi_wait _ _ _ I q Hw) z). }
  unfold wait_locked. pose proof (wait_scan_spec q (procs t) 0 false) as H.
  destruct (wait_scan (procs t) 0 q false) as [[r|] b].
  - destruct H as (j & p & -> & Hj & Hp & Hzp). destruct (proc_at_lookup _ _ _ Hj) as [E _]. exists j. cbn [fst Nat.add].
    by rewrite E.
  - destruct H as [Hf _]. exfalso.
    by eapply (Forall_procs (fun p => p_parent p = Some q -> p_state p <> ZOMBIE) t Hf ltac:(done) z).
Qed.

(** Pids of processes in use are positive and distinct, and [kill] with the
    pid of such a process marks exactly that process, which is not asleep
    afterwards. *)
Theorem kill_exact t i :
  rtc step init_table t -> p_state (proc_at t i) <> UNUSED ->
  (forall j, p_pid (proc_at t j) = p_pid (proc_at t i) -> j = i) /\
  exists t', kill (p_pid (proc_at t i)) t = (0, t') /\
    p_killed (proc_at t' i) = true /\ p_state (proc_at t' i) <> SLEEPING /\
    forall j, j <> i -> proc_at t' j = proc_at t j.
Proof.
  intros R Hi. destruct (reachable_inv t R) as [I _]. destruct (pi_pid _ _ _ I i) as [_ Hpos]. specialize (Hpos Hi).
  assert (Hu : forall j, p_pid (proc_at t j) = p_pid (proc_at t i) -> j = i).
  { intros j Hj. apply (pi_uniq _ _ _ I j i); [lia|done]. }
  split; [done|]. unfold kill. pose proof (find_pid_spec (p_pid (proc_at t i)) (procs t) 0) as H.
  destruct (find_pid (procs t) 0 (p_pid (proc_at t i))) as [r|].
  - destruct H as (j & p & -> & Hj & Hp). destruct (proc_at_lookup _ _ _ Hj) as [E Hlt]. cbn [Nat.add].
    assert (j = i) as -> by (apply Hu; by rewrite E). eexists. split; [done|].
    split_and!; [| |intros j Hne; by rewrite proc_at_upd, decide_False by done]; rewrite proc_at_upd, decide_True by done;
      case_decide as Hs; done.
  - exfalso. apply used_in_range, lookup_lt_is_Some_2 in Hi as [p Hp]. destruct (proc_at_lookup _ _ _ Hp) as [E _].
    apply (Forall_lookup_1 _ _ _ _ H) in Hp. by rewrite E in Hp.
Qed.

(** A run: init forks a child and waits; the child exits. *)
Definition t_run : ptable := awake_locked 0 (run_locked 0 init_table).
Definition t_fork : ptable := upd_proc 1 (set_state RUNNABLE) (upd_proc 1 (set_parent (Some 0%nat)) (alloc_locked t_run).2).
Definition t_wait : ptable := (wait_locked 0 t_fork).2.
Definition t_exit : ptable := exit_locked 1 (awake_locked 1 (run_locked 1 t_wait)).

Lemma t_wait_reachable : rtc step init_table t_wait.
Proof.
  eapply rtc_l; [apply (step_run 0); reflexivity|]. fold t_run.
  eapply rtc_l; [eapply (step_alloc 1 t_run); [vm_compute; reflexivity|reflexivity]|].
  eapply rtc_l; [apply (step_fork_parent 1 0); reflexivity|].
  eapply rtc_l; [apply (step_fork_ready 1); [reflexivity|done]|]. fold t_fork.
  apply rtc_once. apply (step_wait 0). reflexivity.
Qed.

Lemma t_exit_reachable : rtc step init_table t_exit.
Proof.
  etransitivity; [apply t_wait_reachable|]. eapply rtc_l; [apply (step_run 1); reflexivity|].
  apply rtc_once. apply (step_exit 1); [reflexivity|done].
Qed.

Lemma wait_no_lost_wakeup_witness :
  (exists j, p_parent (proc_at t_wait j) = Some 0%nat) /\
  forall j, p_parent (proc_at t_wait j) = Some 0%nat -> p_state (proc_at t_wait j) <> ZOMBIE.
Proof. apply (wait_no_lost_wakeup t_wait 0 t_wait_reachable); reflexivity. Defined.

Lemma zombie_reapable_witness :
  exists q, p_parent (proc_at t_exit 1) = Some q /\ live (proc_at t_exit q) /\ ~ waiting q (proc_at t_exit q) /\
    exists c, (wait_locked q t_exit).1 = Reaped c (p_pid (proc_at t_exit c)) /\
      p_parent (proc_at t_exit c) = Some q /\ p_state (proc_at t_exit c) = ZOMBIE.
Proof. apply (zombie_reapable t_exit 1 t_exit_reachable). reflexivity. Defined.

Lemma kill_exact_witness :
  (forall j, p_pid (proc_at t_wait j) = 1 -> j = 0%nat) /\
  exists t', kill 1 t_wait = (0, t') /\ p_killed (proc_at t' 0) = true /\ p_state (proc_at t' 0) <> SLEEPING /\
    forall j, j <> 0%nat -> proc_at t' j = proc_at t_wait j.
Proof. apply (kill_exact t_wait 0 t_wait_reachable). done. Defined.

(** [kill(0)] succeeds and marks an entry that is not in use: [allocproc]
    does not reset [killed], so the next process born in that entry is killed
    before it ran. *)
Theorem kill_zero_kills_unborn :
  exists i t, kill 0 t_run = (0, t) /\ p_state (proc_at t i) = UNUSED /\
    (alloc_locked t).1 = Some i /\
    p_state (proc_at (alloc_locked t).2 i) = EMBRYO /\ p_killed (proc_at (alloc_locked t).2 i) = true.
Proof. exists 1%nat. eexists. split; [reflexivity|]. vm_compute. done. Qed.
