(* ===== verification/ProcMem.v ===== *)
(** * [growproc] of [proc.c] over the page tables of [vm.c]: what [sbrk] does
    to a process. *)

From stdpp Require Import gmap.
From S2P Require Import Prelude CString Params Mmu Bio Log Kalloc Vm Fs File Proc ProcInv.

Section growproc.
Context (end_ : Z).
Hypothesis Hend : KERNBASE < end_.
Context (s : sys) (cur : nat) (d : Z) (tabs U : gmap Z Z) (l : list Z).
Abbreviation p := (proc_at (pt s) cur).
Abbreviation km := (k_mem (kn s)).
Hypothesis Hcur : (cur < length (procs (pt s)))%nat.
Hypothesis As : as_rep end_ km d tabs U l.
Hypothesis Hd : p_pgdir p = d /\ d <> 0.
Hypothesis Hk : p_kstack p <> 0.

(** The process and the memory afterwards, all else unchanged. *)
Definition grown_to (sz : Z) (s' : sys) : Prop :=
  pt s' = upd_proc cur (set_sz sz) (pt s) /\ kn s' = set_k_mem (k_mem (kn s')) (kn s).
Definition kept (s' : sys) : Prop := pt s' = pt s /\ kn s' = set_k_mem (k_mem (kn s')) (kn s).

Lemma wp_vmop {B} (m : M kmem B) (Q : B -> sys -> Prop) :
  wp m (fun a x => Q a (mkSys (pt s) (set_k_mem x (kn s)))) km -> wp (vmop m) Q s.
Proof. intros W. apply wp_zoom. apply wp_zoom. exact W. Qed.

(** Storing the new size. *)
Lemma growproc_end sz x (Q : Z -> sys -> Prop) :
  Q 0 (mkSys (upd_proc cur (set_sz sz) (pt s)) x) ->
  wp (updp cur (set_sz sz) ;; q ← myproc cur; switchuvm q ;; mret 0) Q (mkSys (pt s) x).
Proof.
  intros HQ. apply wp_bind, wp_modify. apply wp_bind, wp_gets. cbn [pt kn]. rewrite proc_at_upd, decide_True by done.
  unfold switchuvm. destruct Hd as [Hd1 Hd2]. cbn [set_sz p_kstack p_pgdir].
  rewrite (proj2 (Z.eqb_neq _ _)) by done. rewrite Hd1, (proj2 (Z.eqb_neq _ _)) by done. apply wp_bind, wp_ret, wp_ret. exact HQ.
Qed.

Lemma growproc_shrink n :
  n < 0 -> 0 <= p_sz p + n -> p_sz p <= KERNBASE ->
  wp (growproc end_ cur n) (fun r s' =>
      dealloc_post end_ d tabs U l (PGROUNDUP (p_sz p + n)) (p_sz p) km (k_mem (kn s')) /\
      (if p_sz p + n =? 0 then r = -1 /\ kept s' else r = 0 /\ grown_to (p_sz p + n) s')) s.
Proof.
  intros Hn Hs Hs'. unfold growproc. apply wp_bind, wp_gets. rewrite (proj2 (Z.ltb_ge 0 n)), (proj2 (Z.ltb_lt n 0)) by lia.
  assert (E : u32 (p_sz p + n) = p_sz p + n) by (apply u32_small; unfold KERNBASE in *; lia). rewrite E, (proj1 Hd).
  apply wp_bind, wp_bind, wp_vmop. eapply wp_mono; [apply deallocuvm_ok; [done|exact As|lia|done]|].
  intros r x [-> P]. rewrite (proj2 (Z.leb_gt _ _)) by lia. apply wp_ret. cbv beta iota.
  destruct (Z.eqb_spec (p_sz p + n) 0); cbn [negb]; [by apply wp_ret|]. apply growproc_end. done.
Qed.
End growproc.

Section theorems.
Context (end_ : Z).
Hypothesis Hend : KERNBASE < end_.
Context (s : sys) (cur : nat) (d : Z) (tabs U : gmap Z Z) (l : list Z).
Abbreviation p := (proc_at (pt s) cur).
Abbreviation km := (k_mem (kn s)).

(** [growproc(n)] for [n > 0] below the kernel: either it returns 0, the
    size is [n] larger and the new pages are mapped and zero, or it returns -1
    and neither the size nor any user mapping has changed. For [n < 0] that
    leaves a positive size it returns 0, the size is smaller and exactly the
    pages beyond it are unmapped and free. Other processes and the rest of the
    kernel are untouched. *)
Theorem growproc_spec n :
  (cur < length (procs (pt s)))%nat -> as_rep end_ km d tabs U l -> p_pgdir p = d /\ d <> 0 -> p_kstack p <> 0 ->
  0 < p_sz p + n < KERNBASE -> 0 <= p_sz p <= KERNBASE ->
  (forall v, PGROUNDUP (p_sz p) <= PGSIZE * v < p_sz p + n -> U !! v = None) ->
  wp (growproc end_ cur n) (fun r s' =>
      (r = 0 /\ grown_to s cur (p_sz p + n) s' \/ r = -1 /\ 0 < n /\ kept s s') /\
      (0 < n -> exists a, (a = 0 <-> r = -1) /\
         alloc_post end_ km d tabs U l (PGROUNDUP (p_sz p)) (p_sz p + n) a (k_mem (kn s'))) /\
      (n < 0 -> dealloc_post end_ d tabs U l (PGROUNDUP (p_sz p + n)) (p_sz p) km (k_mem (kn s')))) s.
Proof.
  intros Hcur As Hd Hk Hn Hs HU. destruct (Z.lt_trichotomy n 0) as [Hneg|[->|Hpos]].
  - eapply wp_mono; [by apply (growproc_shrink end_ Hend s cur d tabs U l); [..|lia|lia]|].
    intros r s' [P H]. rewrite (proj2 (Z.eqb_neq _ _)) in H by lia. split; [by left|]. split; [lia|done].
  - unfold growproc. apply wp_bind, wp_gets. cbn [Z.ltb Z.compare]. apply wp_bind, wp_ret. cbv beta iota. cbn [negb].
    replace s with (mkSys (pt s) (kn s)) at 2 by (by destruct s). apply (growproc_end s cur d Hcur Hd Hk).
    split; [left; split; [done|split; [by rewrite Z.add_0_r|cbn; by destruct (kn s)]]|lia].
  - unfold growproc. apply wp_bind, wp_gets. rewrite (proj2 (Z.ltb_lt 0 n)) by lia.
    assert (E : u32 (p_sz p + n) = p_sz p + n) by (apply u32_small; unfold KERNBASE in *; lia). rewrite E, (proj1 Hd).
    apply wp_bind, wp_bind, wp_vmop. eapply wp_mono; [apply allocuvm_ok; [done|exact As|lia|lia|done]|].
    intros r x P. apply wp_ret. cbv beta iota. destruct (Z.eqb_spec r 0) as [->|Hr]; cbn [negb].
    + apply wp_ret. split; [by right|]. split; [by exists 0|lia].
    + assert (r = p_sz p + n) as -> by (destruct P as (? & ? & ? & [[? _]|[? _]]); done).
      apply (growproc_end s cur d Hcur Hd Hk). split; [by left|]. split; [|lia]. intros _. exists (p_sz p + n). split; [lia|exact P].
Qed.

(** Shrinking a process to size 0 frees all its pages and then reports
    failure: [deallocuvm] returns the new size 0, which [growproc] takes for an
    error, so it returns -1 and leaves the old size in place although no page
    below it is mapped any more. *)
Theorem growproc_to_zero_fails :
  (cur < length (procs (pt s)))%nat -> as_rep end_ km d tabs U l -> p_pgdir p = d /\ d <> 0 -> p_kstack p <> 0 ->
  0 < p_sz p <= KERNBASE ->
  wp (growproc end_ cur (- p_sz p)) (fun r s' => r = -1 /\ kept s s' /\
      exists U' l', as_rep end_ (k_mem (kn s')) d tabs U' l' /\ forall v, 0 <= PGSIZE * v < p_sz p -> U' !! v = None) s.
Proof.
  intros Hcur As Hd Hk Hs. eapply wp_mono; [apply (growproc_shrink end_ Hend s cur d tabs U l Hcur As Hd Hk); lia|].
  intros r s' [P H]. rewrite Z.add_opp_diag_r in *. destruct H as [-> Hk']. split; [done|]. split; [done|].
  destruct P as (U' & fr & A' & _ & _ & [Hrem _]). exists U', (fr ++ l). split; [done|].
  intros v Hv. rewrite Hrem. by rewrite decide_True.
Qed.
End theorems.

(** A process with an empty address space, of size [sz]. *)
Definition demo_proc (sz : Z) : proc := set_sz sz (set_pgdir demo_dir (set_kstack 0x80404000 (set_state RUNNING proc0))).
Definition demo_sys (sz : Z) : sys :=
  mkSys (mkPt [demo_proc sz] 2 0) (mkKern demo_vm (mkFs (boot [] 1) [] (mkSuperblock 0 0 0 0 0 0 0)) [] ∅).

Lemma growproc_spec_witness :
  wp (growproc demo_end 0 4096) (fun r s' => r = 0 \/ r = -1) (demo_sys 0).
Proof.
  eapply wp_mono; [apply (growproc_spec demo_end ltac:(unfold KERNBASE, demo_end; lia) (demo_sys 0) 0 demo_dir ∅ ∅ demo_free 4096)|].
  - cbn. lia.
  - exact demo_as.
  - split; done.
  - done.
  - cbn. unfold KERNBASE. lia.
  - cbn. unfold KERNBASE. lia.
  - intros v _. apply lookup_empty.
  - intros r s' [[[-> _]|[-> _]] _]; auto.
Defined.

Lemma growproc_to_zero_fails_witness : wp (growproc demo_end 0 (-4096)) (fun r s' => r = -1) (demo_sys 4096).
Proof.
  eapply wp_mono; [apply (growproc_to_zero_fails demo_end ltac:(unfold KERNBASE, demo_end; lia) (demo_sys 4096) 0 demo_dir ∅ ∅ demo_free)|].
  - cbn. lia.
  - exact demo_as.
  - split; done.
  - done.
  - cbn. unfold KERNBASE. lia.
  - by intros r s' [-> _].
Defined.
