(* ===== verification/Ulib.v ===== *)
(** * [ulib.c] and [printf.c]: the C library of user programs, and the number
    printing that [console.c] shares with it.

    Output goes to the list of characters passed to [putc]. *)

From stdpp Require Import list.
From S2P Require Import Prelude CString.

(** ** [ulib.c] *)

(** Strings are lists that stand for the bytes up to their NUL. *)
Fixpoint strcmp (p q : list Z) : Z :=
  match p, q with
  | c :: p', d :: q' => if negb (c =? 0) && (c =? d) then strcmp p' q' else u8 c - u8 d
  | [], d :: _ => 0 - u8 d
  | c :: _, [] => u8 c
  | [], [] => 0
  end.

(** The copy includes the NUL. *)
Fixpoint strcpy (fuel : nat) (m : mem) (s t : Z) : option mem :=
  match fuel with
  | O => None
  | S fuel' => let m' := store m s (m t) in if m t =? 0 then Some m' else strcpy fuel' m' (s + 1) (t + 1)
  end.

Definition memset (m : mem) (dst c : Z) (n : nat) : mem := stosb m dst c n.

(** [while(n-- > 0) *dst++ = *src++;] *)
Definition memmove (m : mem) (dst src n : Z) : mem := copy_up m dst src (Z.to_nat n).

(** [gets]: [input] are the bytes that [read] delivers; the bytes stored and
    the rest of the input. *)
Fixpoint gets_loop (n : nat) (input : list Z) : list Z * list Z :=
  match n, input with
  | O, _ => ([], input)
  | _, [] => ([], [])
  | S n', c :: input' =>
      if (c =? 10) || (c =? 13) then ([c], input')
      else let '(l, rest) := gets_loop n' input' in (c :: l, rest)
  end.
Definition gets (max : Z) (input : list Z) : list Z * list Z :=
  let '(l, rest) := gets_loop (Z.to_nat (max - 1)) input in (l ++ [0], rest).

Fixpoint atoi_loop (n : Z) (s : list Z) : Z :=
  match s with
  | c :: s' => if (48 <=? c) && (c <=? 57) then atoi_loop (s32 (n * 10 + c - 48)) s' else n
  | [] => n
  end.
Definition atoi (s : list Z) : Z := atoi_loop 0 s.

(** ** Printing numbers *)

(** The [do ... while] of [printint], storing at [buf[i++]]; [None] is a store
    outside [buf]. *)
Fixpoint digit_loop (fuel : nat) (digits : list Z) (x base : Z) (buf : list Z) (i : nat) : option (list Z * nat) :=
  match fuel with
  | O => None
  | S fuel' =>
      if negb (i <? length buf)%nat then None else
      let buf := <[i := digits !!! Z.to_nat (x mod base)]> buf in
      let x := x / base in
      if x =? 0 then Some (buf, S i) else digit_loop fuel' digits x base buf (S i)
  end.

(** [printint] of [printf.c] and of [console.c]: they differ in the case of
    the digits. The characters passed to [putc]. *)
Definition printint_with (digits : list Z) (xx base : Z) (sgn : bool) : option (list Z) :=
  let neg := sgn && (xx <? 0) in
  let x := if neg then u32 (- xx) else u32 xx in
  match digit_loop 17 digits x base (replicate 16 0) 0 with
  | None => None
  | Some (buf, i) =>
      if neg then if (i <? length buf)%nat then Some (reverse (take (S i) (<[i := 45]> buf))) else None
      else Some (reverse (take i buf))
  end.

Definition DIGITS : list Z := str "0123456789ABCDEF".
Definition digits : list Z := str "0123456789abcdef".
Definition printint (xx base : Z) (sgn : bool) : option (list Z) := printint_with DIGITS xx base sgn.
Definition cons_printint (xx base : Z) (sgn : bool) : option (list Z) := printint_with digits xx base sgn.

(** ** [printf] and [cprintf]

    [ap i] is the i-th word after the format on the stack, [strs a] the string
    at address [a]. *)
Section printf.
Context (ap : nat -> Z) (strs : Z -> list Z).

Definition string_arg (a : Z) : list Z := if a =? 0 then str "(null)" else cstr (strs a).

(** [percent] is [state == '%'], [k] counts the arguments used. *)
Fixpoint printf (fmt : list Z) (percent : bool) (k : nat) : option (list Z) :=
  match fmt with
  | [] => Some []
  | c :: fmt' =>
      if c =? 0 then Some [] else
      let c := u8 c in
      if negb percent then
        if c =? 37 then printf fmt' true k
        else out ← printf fmt' false k; Some (c :: out)
      else if c =? 100 then
        d ← printint (s32 (ap k)) 10 true; out ← printf fmt' false (S k); Some (d ++ out)
      else if (c =? 120) || (c =? 112) then
        d ← printint (s32 (ap k)) 16 false; out ← printf fmt' false (S k); Some (d ++ out)
      else if c =? 115 then out ← printf fmt' false (S k); Some (string_arg (ap k) ++ out)
      else if c =? 99 then out ← printf fmt' false (S k); Some (u8 (ap k) :: out)
      else if c =? 37 then out ← printf fmt' false k; Some (c :: out)
      else out ← printf fmt' false k; Some (37 :: c :: out)
  end.

(** [cprintf]: as [printf], without [%c]. *)
Fixpoint cprintf (fmt : list Z) (k : nat) : option (list Z) :=
  match fmt with
  | [] => Some []
  | c :: fmt' =>
      let c := u8 c in
      if c =? 0 then Some [] else
      if negb (c =? 37) then out ← cprintf fmt' k; Some (c :: out)
      else match fmt' with
        | [] => Some []
        | c :: fmt' =>
            let c := u8 c in
            if c =? 0 then Some []
            else if c =? 100 then
              d ← cons_printint (s32 (ap k)) 10 true; out ← cprintf fmt' (S k); Some (d ++ out)
            else if (c =? 120) || (c =? 112) then
              d ← cons_printint (s32 (ap k)) 16 false; out ← cprintf fmt' (S k); Some (d ++ out)
            else if c =? 115 then out ← cprintf fmt' (S k); Some (string_arg (ap k) ++ out)
            else if c =? 37 then out ← cprintf fmt' k; Some (37 :: out)
            else out ← cprintf fmt' k; Some (37 :: c :: out)
        end
  end.
End printf.

(** ** What [printint] prints *)

(** Digits, the least significant first. *)
Definition digit_sum (base : Z) (ds : list Z) : Z := foldr (fun d acc => d + base * acc) 0 ds.

(** [ds] is the numeral of [x]: its digits, without a leading zero. *)
Record numeral (base x : Z) (ds : list Z) : Prop := {
  nu_digits : Forall (fun d => 0 <= d < base) ds;
  nu_value : digit_sum base ds = x;
  nu_lead : ds = [0] \/ exists d ds', ds = ds' ++ [d] /\ d <> 0;
}.

Definition glyphs (dg ds : list Z) : list Z := map (fun d => dg !!! Z.to_nat d) ds.

Lemma length_glyphs dg ds : length (glyphs dg ds) = length ds.
Proof. apply length_map. Qed.

Lemma numeral_cons base x d ds :
  0 <= d < base -> numeral base x ds -> x <> 0 -> numeral base (d + base * x) (d :: ds).
Proof.
  intros Hd [F V L] Hx. constructor; [by constructor|by cbn; rewrite <- V|].
  right. destruct L as [->|(e & ds' & -> & He)].
  - cbn in V. lia.
  - by exists e, (d :: ds').
Qed.

Lemma numeral_one base d : 0 <= d < base -> numeral base d [d].
Proof.
  intros H. constructor; [by apply Forall_singleton|cbn; lia|].
  destruct (decide (d = 0)) as [->|]; [by left|by right; exists d, []].
Qed.

Lemma take_S_insert {A} (l : list A) i x : (i < length l)%nat -> take (S i) (<[i := x]> l) = take i l ++ [x].
Proof.
  intros H. rewrite (take_S_r _ i x); [|by rewrite list_lookup_insert_eq].
  by rewrite take_insert_ge.
Qed.

(** The loop leaves the numeral of [x] in [buf] from [i] on, and stays inside
    it when [x] has at most [n] digits. *)
Lemma digit_loop_spec base n : 2 <= base -> forall x, 0 <= x < base ^ Z.of_nat (S n) ->
  exists ds, numeral base x ds /\ (length ds <= S n)%nat /\
    forall dg fuel buf i, (i + S n <= length buf)%nat -> (S n <= fuel)%nat ->
    exists buf', digit_loop fuel dg x base buf i = Some (buf', (i + length ds)%nat) /\
      length buf' = length buf /\ take (i + length ds) buf' = take i buf ++ glyphs dg ds.
Proof.
  intros Hb. induction n as [|n IH]; intros x Hx;
    pose proof (Z.mod_pos_bound x base ltac:(lia)) as Hm; pose proof (Z.div_mod x base ltac:(lia)) as Hdm;
    (destruct (Z.eqb_spec (x / base) 0) as [E|E]; [|]).
  1,3: exists [x mod base]; split_and!; [replace x with (x mod base) at 1 by lia; by apply numeral_one|cbn; lia|];
    intros dg [|fuel] buf i Hi Hf; [lia|]; cbn [digit_loop]; rewrite (proj2 (Nat.ltb_lt _ _)) by lia;
    cbn [negb]; rewrite (proj2 (Z.eqb_eq _ _) E); eexists; cbn [length glyphs map];
    rewrite Nat.add_1_r; split; [done|]; rewrite length_insert, take_S_insert by lia; done.
  - exfalso. apply E, Z.div_small. rewrite Z.pow_1_r in Hx. lia.
  - destruct (IH (x / base)) as (ds & N & Hn & Hrun).
    { split; [apply Z.div_pos; lia|]. apply Z.div_lt_upper_bound; [lia|].
      rewrite <- Z.pow_succ_r by lia. replace (Z.succ (Z.of_nat (S n))) with (Z.of_nat (S (S n))) by lia. lia. }
    exists (x mod base :: ds). split_and!; [|cbn; lia|].
    { replace x with (x mod base + base * (x / base)) at 1 by lia. by apply numeral_cons. }
    intros dg [|fuel] buf i Hi Hf; [lia|]. cbn [digit_loop]. rewrite (proj2 (Nat.ltb_lt _ _)) by lia. cbn [negb].
    rewrite (proj2 (Z.eqb_neq _ _) E).
    destruct (Hrun dg fuel (<[i := dg !!! Z.to_nat (x mod base)]> buf) (S i)) as (buf' & Ed & Hl & Ht);
      [by rewrite length_insert; lia|lia|].
    exists buf'. cbn [length glyphs map]. rewrite Nat.add_succ_r. rewrite length_insert in Hl.
    cbn [Nat.add] in *. rewrite take_S_insert in Ht by lia. by rewrite Ht, <- app_assoc.
Qed.

Lemma printint_with_spec xx base (sgn : bool) :
  -2147483648 <= xx < 2147483648 -> 10 <= base ->
  exists ds, numeral base (if sgn then Z.abs xx else u32 xx) ds /\ (length ds <= 10)%nat /\
    forall dg, printint_with dg xx base sgn =
      Some ((if sgn && (xx <? 0) then [45] else []) ++ reverse (glyphs dg ds)).
Proof.
  intros Hx Hb. unfold printint_with.
  set (x := if sgn && (xx <? 0) then u32 (- xx) else u32 xx).
  assert (x = if sgn then Z.abs xx else u32 xx) as Ex.
  { unfold x. destruct sgn; cbn [andb]; [|done]. destruct (Z.ltb_spec xx 0); rewrite u32_small; lia. }
  assert (0 <= x < 4294967296) as Hr by (subst x; destruct (sgn && (xx <? 0)); apply u32_range).
  rewrite <- Ex. assert (10 ^ 10 <= base ^ Z.of_nat 10) by (apply Z.pow_le_mono_l; lia).
  destruct (digit_loop_spec base 9 ltac:(lia) x) as (ds & N & Hn & Hrun); [lia|].
  exists ds. split_and!; [done..|]. intros dg.
  destruct (Hrun dg 17%nat (replicate 16 0) 0%nat) as (buf & E & Hl & Ht); [by cbn; lia|lia|].
  rewrite E. rewrite length_replicate in Hl.
  cbn [take app Nat.add] in *. destruct (sgn && (xx <? 0)); cbn [app]; [|by rewrite Ht].
  rewrite (proj2 (Nat.ltb_lt _ _)) by lia. by rewrite take_S_insert, Ht, reverse_snoc by lia.
Qed.

(** C38 [printint], in [printf.c] and in [console.c]: for every 32-bit value in
    base 10 or 16, its 16-byte buffer is never overrun, and what it prints is a
    minus sign exactly for a signed negative value, followed by the numeral of
    its magnitude: at most ten digits, no leading zero. *)
Theorem printint_spec xx base (sgn : bool) :
  -2147483648 <= xx < 2147483648 -> base = 10 \/ base = 16 ->
  exists ds, numeral base (if sgn then Z.abs xx else u32 xx) ds /\ (length ds <= 10)%nat /\
    let sign := if sgn && (xx <? 0) then [45] else [] in
    printint xx base sgn = Some (sign ++ reverse (glyphs DIGITS ds)) /\
    cons_printint xx base sgn = Some (sign ++ reverse (glyphs digits ds)).
Proof.
  intros Hx Hb. destruct (printint_with_spec xx base sgn Hx) as (ds & N & Hl & E); [lia|].
  exists ds. split_and!; [done..|]. cbv zeta. split; apply E.
Qed.

Lemma printint_spec_witness : exists ds, numeral 10 2147483648 ds /\
  printint (-2147483648) 10 true = Some (45 :: reverse (glyphs DIGITS ds)).
Proof.
  destruct (printint_spec (-2147483648) 10 true ltac:(lia) ltac:(by left)) as (ds & N & _ & E & _).
  exists ds. split; [exact N|exact E].
Defined.

(** ** [atoi] reads what [printint] prints *)

Lemma atoi_loop_digits ds n rest :
  Forall (fun d => 0 <= d < 10) ds -> 0 <= n ->
  foldr (fun d acc => acc * 10 + d) n ds < 2147483648 ->
  atoi_loop n (reverse (glyphs DIGITS ds) ++ rest) = atoi_loop (foldr (fun d acc => acc * 10 + d) n ds) rest.
Proof.
  intros F Hn. revert rest. induction F as [|d ds Hd F IH]; intros rest Hlt; [done|].
  cbn [foldr glyphs map] in *. rewrite reverse_cons, <- app_assoc.
  assert (0 <= foldr (fun d acc => acc * 10 + d) n ds) as H0
    by (clear -F Hn; induction F; cbn; lia).
  rewrite IH by lia. cbn [app atoi_loop].
  assert (DIGITS !!! Z.to_nat d = 48 + d) as ->.
  { assert (d = 0 \/ d = 1 \/ d = 2 \/ d = 3 \/ d = 4 \/ d = 5 \/ d = 6 \/ d = 7 \/ d = 8 \/ d = 9) as H by lia.
    by destruct_or! H; subst d. }
  rewrite (proj2 (Z.leb_le _ _)), (proj2 (Z.leb_le (48 + d) _)) by lia. cbn [andb].
  rewrite s32_small by lia. f_equal. lia.
Qed.

Lemma digit_sum_horner ds : digit_sum 10 ds = foldr (fun d acc => acc * 10 + d) 0 ds.
Proof. induction ds as [|d ds IH]; [done|]. unfold digit_sum in *. cbn [foldr]. rewrite IH. lia. Qed.

(** [atoi] inverts [printint]: the decimal form of a nonnegative [int],
    followed by anything that does not start with a digit, reads back as the
    number. *)
Theorem atoi_printint x rest :
  0 <= x < 2147483648 -> (forall c r, rest = c :: r -> ~ 48 <= c <= 57) ->
  exists out, printint x 10 true = Some out /\ atoi (out ++ rest) = x.
Proof.
  intros Hx Hr. destruct (printint_with_spec x 10 true) as (ds & N & Hl & E); [lia..|].
  eexists. split; [apply E|]. destruct N as [F V _]. rewrite Z.abs_eq, digit_sum_horner in V by lia.
  rewrite (proj2 (Z.ltb_ge _ _)) by lia. cbn [andb app]. unfold atoi.
  rewrite atoi_loop_digits, V by (done || lia). destruct rest as [|c r]; [done|]. cbn [atoi_loop].
  specialize (Hr c r eq_refl). by destruct (Z.leb_spec 48 c), (Z.leb_spec c 57); try lia.
Qed.

Lemma atoi_printint_witness : exists out, printint 2023 10 true = Some out /\ atoi (out ++ str " km") = 2023.
Proof. apply (atoi_printint 2023 (str " km")); [lia|]. intros c r [= <- _]. lia. Defined.

(** ** The other routines *)

Lemma printint_some xx base (sgn : bool) :
  base = 10 \/ base = 16 -> is_Some (printint (s32 xx) base sgn) /\ is_Some (cons_printint (s32 xx) base sgn).
Proof.
  intros Hb. destruct (printint_with_spec (s32 xx) base sgn) as (ds & _ & _ & E); [apply s32_range|lia|].
  unfold printint, cons_printint. rewrite !E. by split; eexists.
Qed.

(** Neither formatter ever overruns [printint]'s buffer, whatever the format
    and the words on the stack. *)
Lemma printf_total ap strs fmt percent k : is_Some (printf ap strs fmt percent k).
Proof.
  revert percent k. induction fmt as [|c fmt IH]; intros percent k; [by eexists|].
  assert (forall p j (f : list Z -> list Z), is_Some (out ← printf ap strs fmt p j; Some (f out))) as K.
  { intros p j f. destruct (IH p j) as [out ->]. by eexists. }
  destruct (proj1 (printint_some (ap k) 10 true ltac:(by left))) as [d10 E10].
  destruct (proj1 (printint_some (ap k) 16 false ltac:(by right))) as [d16 E16].
  cbn [printf]. rewrite E10, E16. cbn -[printf].
  destruct (c =? 0); [by eexists|]. destruct percent; cbn [negb];
    repeat match goal with |- context [if ?b then _ else _] => destruct b end; first [apply IH | apply K].
Qed.

Lemma cprintf_total ap strs fmt k : is_Some (cprintf ap strs fmt k).
Proof.
  assert (forall n fmt k, (length fmt <= n)%nat -> is_Some (cprintf ap strs fmt k)) as H; [|by eapply H].
  intros n. induction n as [|n IH]; intros l j Hl; (destruct l as [|c l]; [by eexists|]); cbn [length] in Hl; [lia|].
  assert (forall l' j (f : list Z -> list Z), (length l' <= n)%nat ->
    is_Some (out ← cprintf ap strs l' j; Some (f out))) as K.
  { intros l' i f Hl'. destruct (IH l' i Hl') as [out ->]. by eexists. }
  destruct (proj2 (printint_some (ap j) 10 true ltac:(by left))) as [d10 E10].
  destruct (proj2 (printint_some (ap j) 16 false ltac:(by right))) as [d16 E16].
  cbn [cprintf]. destruct (u8 c =? 0); [by eexists|]. destruct (u8 c =? 37); cbn [negb]; [|apply K; lia].
  destruct l as [|e l]; [by eexists|]. cbn [length] in Hl. rewrite E10, E16. cbn -[cprintf].
  repeat match goal with |- context [if ?b then _ else _] => destruct b end; first [by eexists | apply K; lia].
Qed.

Lemma strcmp_zero p q : Forall is_byte p -> Forall is_byte q -> strcmp p q = 0 <-> cstr p = cstr q.
Proof.
  intros Fp. revert q. induction Fp as [|c p Hc Fp IH]; intros q Fq; destruct Fq as [|d q Hd Fq]; cbn [strcmp cstr]; [done|..].
  - unfold is_byte in *. rewrite u8_small by lia. destruct (Z.eqb_spec d 0); split; intros H; try done; lia.
  - unfold is_byte in *. rewrite u8_small by lia. destruct (Z.eqb_spec c 0); split; intros H; try done; lia.
  - unfold is_byte in Hc, Hd. rewrite !u8_small by lia.
    destruct (Z.eqb_spec c 0) as [->|Hc0], (Z.eqb_spec d 0) as [->|Hd0]; cbn [negb andb];
      [done|split; [lia|done]|..].
    + rewrite (proj2 (Z.eqb_neq c 0)) by done. split; [lia|done].
    + destruct (Z.eqb_spec c d) as [->|Hcd]; [|split; [lia|by intros [=]]].
      rewrite IH by done. split; [by intros ->|by intros [=]].
Qed.

(** [gets] stores at most [max] bytes, NUL included, and they are the input
    up to the first end of line. *)
Lemma gets_loop_spec n input l rest :
  gets_loop n input = (l, rest) -> input = l ++ rest /\ (length l <= n)%nat.
Proof.
  revert input l rest. induction n as [|n IH]; intros [|c input] l rest; cbn [gets_loop];
    [by intros [= <- <-]; cbn; split; [|lia]..|].
  destruct (_ || _); [intros [= <- <-]; cbn; split; [done|lia]|].
  destruct (gets_loop n input) as [l' r'] eqn:E. intros [= <- <-]. destruct (IH _ _ _ E) as [-> Hl].
  cbn. split; [done|lia].
Qed.

Lemma gets_bound max input : 1 <= max -> Z.of_nat (length (gets max input).1) <= max.
Proof.
  intros Hm. unfold gets. destruct (gets_loop _ _) as [l rest] eqn:E.
  apply gets_loop_spec in E as [_ Hl]. cbn [fst]. rewrite length_app. cbn. lia.
Qed.

(** The copy loop of [ulib.c] goes upwards only: it is a move unless the
    destination starts inside the source. *)
Lemma ulib_memmove_spec m dst src n x : dst <= src \/ src + n <= dst ->
  memmove m dst src n x = if (dst <=? x) && (x <? dst + n) then m (src + (x - dst)) else m x.
Proof.
  intros H. unfold memmove. destruct (Z.le_gt_cases n 0) as [Hn|Hn].
  - rewrite Z2Nat.nonpos by done. cbn [copy_up]. destruct (Z.leb_spec dst x), (Z.ltb_spec x (dst + n)); try done; lia.
  - rewrite copy_up_spec by lia. rewrite Z2Nat.id by lia. done.
Qed.
