(* ===== verification/Umalloc.v ===== *)
(** * [umalloc.c]: the memory allocator of user programs.

    The free list lives in the memory it manages, as the code has it: a block
    starts with a [Header], the address of the next free block and the size of the
    block in units of a header. The theorems show that [malloc] and [free]
    keep the list sorted, circular and coalesced, that blocks handed out never overlap, and that no unit
    is lost. *)

From Stdlib Require Import String.
From stdpp Require Import gmap.
From S2P Require Import Prelude CString Mmu.
Local Open Scope Z_scope.

(** ** The program *)

(** The memory of the process, the variable [freep], and the break. *)
Record heap := mkHeap { u_mem : mem; u_freep : Z; u_brk : Z }.

Definition set_umem (m : mem) (s : heap) : heap := mkHeap m (u_freep s) (u_brk s).

(** [sbrk]: what user programs rely on. It fails, or it moves the break of the
    process up and returns the old one; memory below is not touched. *)
Class Sbrk := {
  sbrk : Z -> M heap Z;
  sbrk_law : forall n s, 0 <= n < 2147483648 ->
    sbrk n s = Ok 4294967295 s \/
    exists m, sbrk n s = Ok (u_brk s) (mkHeap m (u_freep s) (u_brk s + n)) /\ u_brk s + n <= KERNBASE /\
      (bytes_mem (u_mem s) -> bytes_mem m) /\ forall x, x < u_brk s -> m x = u_mem s x;
}.

(** [sizeof(Header)]. *)
Definition HDR : Z := 8.

Section program.
Context `{!Sbrk}.
(** The address of the variable [base]. *)
Context (base : Z).

(** [p->s.ptr] and [p->s.size]. *)
Definition hptr (p : Z) : M heap Z := gets (fun s => load32 (u_mem s) p).
Definition hsize (p : Z) : M heap Z := gets (fun s => load32 (u_mem s) (p + 4)).
Definition set_hptr (p q : Z) : M heap unit := modify (fun s => set_umem (store32 (u_mem s) p q) s).
Definition set_hsize (p n : Z) : M heap unit := modify (fun s => set_umem (store32 (u_mem s) (p + 4) n) s).
Definition set_freep (p : Z) : M heap unit := modify (fun s => mkHeap (u_mem s) p (u_brk s)).

(** [p + n] on a [Header *]. *)
Definition hadd (p n : Z) : Z := u32 (p + HDR * n).

(** A list whose blocks do not overlap has at most one node for each header that fits. *)
Definition list_fuel (s : heap) : nat := S (Z.to_nat (u_brk s)).

Fixpoint free_find (fuel : nat) (bp p : Z) : M heap Z :=
  q ← hptr p;
  if (p <? bp) && (bp <? q) then mret p else
  if (q <=? p) && ((p <? bp) || (bp <? q)) then mret p else
  match fuel with
  | O => outOfFuel
  | S fuel' => free_find fuel' bp q
  end.

Definition free (ap : Z) : M heap unit :=
  let bp := hadd ap (-1) in
  s ← get;
  p ← free_find (list_fuel s) bp (u_freep s);
  bs ← hsize bp;
  q ← hptr p;
  (if hadd bp bs =? q then
     qs ← hsize q; set_hsize bp (u32 (bs + qs)) ;;
     qp ← hptr q; set_hptr bp qp
   else set_hptr bp q) ;;
  ps ← hsize p;
  (if hadd p ps =? bp then
     bs ← hsize bp; set_hsize p (u32 (ps + bs)) ;;
     bq ← hptr bp; set_hptr p bq
   else set_hptr p bp) ;;
  set_freep p.

Definition morecore (nu : Z) : M heap Z :=
  let nu := if nu <? 4096 then 4096 else nu in
  p ← sbrk (s32 (u32 (nu * HDR)));
  if p =? 4294967295 then mret 0 else
  set_hsize p nu ;;
  free (hadd p 1) ;;
  gets u_freep.

Definition nunits (nbytes : Z) : Z := u32 (u32 (nbytes + HDR - 1) / HDR + 1).

(** The block found is cut, or taken off the list whole. *)
Definition malloc_take (n prevp p ps : Z) : M heap Z :=
  p ← (if ps =? n then
         q ← hptr p; set_hptr prevp q ;; mret p
       else
         set_hsize p (u32 (ps - n)) ;;
         ps ← hsize p;
         let p := hadd p ps in
         set_hsize p n ;; mret p);
  set_freep prevp ;;
  mret (hadd p 1).

Fixpoint malloc_loop (fuel : nat) (n prevp p : Z) : M heap Z :=
  ps ← hsize p;
  if n <=? ps then malloc_take n prevp p ps else
  match fuel with
  | O => outOfFuel
  | S fuel' =>
      s ← get;
      if p =? u_freep s then
        p ← morecore n;
        if p =? 0 then mret 0 else
        q ← hptr p; malloc_loop fuel' n p q
      else
        q ← hptr p; malloc_loop fuel' n p q
  end.

Definition malloc (nbytes : Z) : M heap Z :=
  let n := nunits nbytes in
  s ← get;
  prevp ← (if u_freep s =? 0 then
             set_freep base ;; set_hptr base base ;; set_hsize base 0 ;; mret base
           else mret (u_freep s));
  p ← hptr prevp;
  s ← get;
  malloc_loop (S (2 * list_fuel s)) n prevp p.
End program.

(** ** The free list *)

#[local] Abbreviation blk := (Z * Z)%type.

Definition hd_addr (F : list blk) (next : Z) : Z := match F with [] => next | (a, _) :: _ => a end.

(** Headers linked in the order of the list, the last to [next]. *)
Fixpoint chain (m : mem) (F : list blk) (next : Z) : Prop :=
  match F with
  | [] => True
  | (a, n) :: F' => load32 m a = hd_addr F' next /\ load32 m (a + 4) = n /\ chain m F' next
  end.

Lemma hd_addr_app F1 F2 next : hd_addr (F1 ++ F2) next = hd_addr F1 (hd_addr F2 next).
Proof. by destruct F1 as [|[]]. Qed.

Lemma chain_app m F1 F2 next : chain m (F1 ++ F2) next <-> chain m F1 (hd_addr F2 next) /\ chain m F2 next.
Proof. induction F1 as [|[a n] F1 IH]; cbn; [tauto|]. rewrite hd_addr_app, IH. tauto. Qed.

(** Only headers matter. *)
Lemma ring_ext m m' F next : (forall a n x, (a, n) ∈ F -> a <= x < a + 8 -> m' x = m x) -> chain m F next -> chain m' F next.
Proof.
  induction F as [|[a n] F IH]; intros Hx; cbn; [done|]. intros (H1 & H2 & H3).
  assert (forall o, 0 <= o <= 4 -> load32 m' (a + o) = load32 m (a + o)) as Hl.
  { intros o Ho. apply load32_ext. intros i Hi. eapply Hx; [by left|]. lia. }
  split; [pose proof (Hl 0 ltac:(lia)) as H0; by rewrite Z.add_0_r, H1 in H0|]. split; [by rewrite Hl|]. apply IH; [|done]. intros b k x Hb. eapply Hx. by right.
Qed.

(** Sorted, and no two blocks touch: [e] is the end of the block before. *)
Fixpoint gaps (e : Z) (F : list blk) : Prop :=
  match F with
  | [] => True
  | (a, n) :: F' => e < a /\ 1 <= n /\ gaps (a + 8 * n) F'
  end.
Fixpoint fin (e : Z) (F : list blk) : Z := match F with [] => e | (a, n) :: F' => fin (a + 8 * n) F' end.

Lemma gaps_app e F1 F2 : gaps e (F1 ++ F2) <-> gaps e F1 /\ gaps (fin e F1) F2.
Proof. revert e. induction F1 as [|[a n] F1 IH]; intros e; cbn; [tauto|]. rewrite IH. tauto. Qed.
Lemma fin_app e F1 F2 : fin e (F1 ++ F2) = fin (fin e F1) F2.
Proof. revert e. induction F1 as [|[a n] F1 IH]; intros e; cbn; [done|]. apply IH. Qed.

Lemma gaps_fin e F : gaps e F -> e + 8 * Z.of_nat (length F) <= fin e F.
Proof. revert e. induction F as [|[a n] F IH]; intros e; cbn [gaps fin length]; [lia|]. intros (H1 & H2 & H3%IH). lia. Qed.

Lemma gaps_weaken e e' F : e' <= e -> gaps e F -> gaps e' F.
Proof. destruct F as [|[a n] F]; cbn; [done|]. intros ? (? & ? & ?). split_and!; [lia|done..]. Qed.

Lemma gaps_in e F a n : gaps e F -> (a, n) ∈ F -> e < a /\ 1 <= n /\ a + 8 * n <= fin e F.
Proof.
  revert e. induction F as [|[b k] F IH]; intros e; cbn [gaps fin]; [by intros _ ?%elem_of_nil|]. intros (H1 & H2 & H3) [[= -> ->]|Hi]%elem_of_cons.
  - apply gaps_fin in H3. lia.
  - destruct (IH _ H3 Hi) as (? & ? & ?). split_and!; lia.
Qed.

Definition total (F : list blk) : Z := foldr (fun b t => b.2 + t) 0 F.
Lemma total_app F1 F2 : total (F1 ++ F2) = total F1 + total F2.
Proof. unfold total. induction F1 as [|b F1 IH]; cbn [app foldr]; [done|]. rewrite IH. lia. Qed.

(** Two blocks that do not overlap. *)
Definition disj (a n b m : Z) : Prop := a + 8 * n <= b \/ b + 8 * m <= a.

(** ** Putting a block back *)

Definition join_right (b n : Z) (F : list blk) : Z * list blk :=
  match F with
  | (q, nq) :: F' => if b + 8 * n =? q then (n + nq, F') else (n, F)
  | [] => (n, [])
  end.
Definition join_left (p np b n : Z) (F : list blk) : list blk :=
  if p + 8 * np =? b then (p, np + n) :: F else (p, np) :: (b, n) :: F.

Lemma join_right_gaps e b n F : e < b -> 1 <= n -> gaps (b + 8 * n - 1) F ->
  gaps (b + 8 * (join_right b n F).1) (join_right b n F).2 /\ n <= (join_right b n F).1 /\
  fin (b + 8 * (join_right b n F).1) (join_right b n F).2 = fin (b + 8 * n) F /\
  (join_right b n F).1 + total (join_right b n F).2 = n + total F /\ (length (join_right b n F).2 <= length F)%nat.
Proof.
  intros He Hn. unfold join_right. destruct F as [|[q nq] F]; cbn [gaps fin fst snd total foldr length]; [done|]. intros (H1 & H2 & H3).
  destruct (Z.eqb_spec (b + 8 * n) q) as [<-|Hne]; cbn [gaps fin fst snd total foldr length].
  - replace (b + 8 * (n + nq)) with (b + 8 * n + 8 * nq) by lia. split_and!; [done|lia|done|unfold total; lia|lia].
  - split_and!; [lia|done|done|lia|done|done|lia].
Qed.

Section proofs.
Context `{SB : !Sbrk}.
Context (base : Z).

(** The free list [R] (after [base]) and the blocks [A] handed out: address of the header, units. *)
Record heap_ok (s : heap) (R : list blk) (A : gmap Z Z) : Prop := {
  hk_bytes : bytes_mem (u_mem s);
  hk_base : 0 < base /\ base + 8 <= u_brk s <= KERNBASE;
  hk_chain : chain (u_mem s) ((base, 0) :: R) base;
  hk_gaps : gaps (base + 7) R;
  hk_fin : fin (base + 7) R <= u_brk s;
  hk_freep : exists n, (u_freep s, n) ∈ (base, 0) :: R;
  hk_alloc : forall a n, A !! a = Some n -> 1 <= n /\ base + 8 <= a /\ a + 8 * n <= u_brk s /\ load32 (u_mem s) (a + 4) = n;
  hk_apart : forall a n b m, A !! a = Some n -> (b, m) ∈ R -> disj a n b m;
  hk_disj : forall a n a' n', A !! a = Some n -> A !! a' = Some n' -> a <> a' -> disj a n a' n';
}.

(** A node of the list: what lies before and after it. *)
Lemma node_split R p n : (p, n) ∈ (base, 0) :: R -> exists F1 F2, (base, 0) :: R = F1 ++ (p, n) :: F2.
Proof. apply list_elem_of_split. Qed.

(** Nodes before [p] lie below it, nodes after [p] above. *)
Lemma node_order R F1 p n F2 : gaps (base + 7) R -> (base, 0) :: R = F1 ++ (p, n) :: F2 ->
  base <= p /\ 0 <= n /\ gaps (Z.max (p + 8 * n) (base + 7)) F2 /\ fin (base + 7) R = fin (Z.max (p + 8 * n) (base + 7)) F2 /\
  (forall a k, (a, k) ∈ F1 -> a + 8 <= p) /\ (forall a k, (a, k) ∈ F2 -> p + 8 <= a).
Proof.
  intros G E. destruct F1 as [|x F1]; cbn in E.
  - injection E as <- <- <-. replace (base + 8 * 0) with base by lia. rewrite Z.max_r by lia.
    split_and!; [lia|lia|done|done|by intros ?? ?%elem_of_nil|]. intros a k Ha. destruct (gaps_in _ _ _ _ G Ha) as (? & ? & ?). lia.
  - injection E as <- ->. apply gaps_app in G as [G1 G2]. cbn in G2. destruct G2 as (H1 & H2 & H3). pose proof (gaps_fin _ _ G1).
    rewrite Z.max_l by lia. rewrite fin_app. split_and!; [lia|lia|done|done|..].
    + intros a k [[= -> ->]|Ha]%elem_of_cons; [lia|]. destruct (gaps_in _ _ _ _ G1 Ha) as (? & ? & ?). lia.
    + intros a k Ha. destruct (gaps_in _ _ _ _ H3 Ha) as (? & ? & ?). lia.
Qed.

Lemma hk_length s R A : heap_ok s R A -> 8 * Z.of_nat (length R) <= u_brk s.
Proof. intros H. pose proof (gaps_fin _ _ (hk_gaps _ _ _ H)). pose proof (hk_fin _ _ _ H). pose proof (hk_base _ _ _ H). lia. Qed.

(** [bp] belongs after [p]. *)
Definition place (R : list blk) (bp p : Z) : Prop :=
  exists F1 n F2, (base, 0) :: R = F1 ++ (p, n) :: F2 /\ p < bp /\ match F2 with [] => True | (q, _) :: _ => bp < q end.

Lemma chain_next m R F1 p n F2 : chain m ((base, 0) :: R) base -> (base, 0) :: R = F1 ++ (p, n) :: F2 ->
  load32 m p = hd_addr F2 base /\ load32 m (p + 4) = n.
Proof. intros C E. rewrite E in C. apply chain_app in C as [_ C]. cbn in C. tauto. Qed.

Section find.
Context (s : heap) (R : list blk) (bp : Z).
Context (C : chain (u_mem s) ((base, 0) :: R) base) (G : gaps (base + 7) R) (Hb : base < bp).
Context (Hne : forall a n, (a, n) ∈ R -> a <> bp).

(** From below, the search goes up. *)
Lemma free_find_up F2 : forall F1 p n fuel (Q : Z -> heap -> Prop), (base, 0) :: R = F1 ++ (p, n) :: F2 -> p < bp -> (length F2 <= fuel)%nat ->
  (forall p', place R bp p' -> Q p' s) -> wp (free_find fuel bp p) Q s.
Proof using C G Hb Hne.
  induction F2 as [|[q m] F2 IH]; intros F1 p n fuel Q E Hp Hf HQ; destruct (chain_next _ _ _ _ _ _ C E) as [Hq _]; cbn in Hq;
    destruct (node_order R F1 p n _ G E) as (O1 & O2 & O3 & _ & O5 & O6).
  - destruct fuel; cbn [free_find]; apply wp_bind, wp_gets; rewrite Hq; rewrite (proj2 (Z.ltb_ge bp base)) by lia;
      rewrite (proj2 (Z.ltb_lt p bp)), (proj2 (Z.leb_le base p)) by lia; apply wp_ret, HQ; exists F1, n, []; done.
  - destruct fuel as [|fuel]; [cbn [length] in Hf; lia|]. cbn [free_find]. apply wp_bind, wp_gets. rewrite Hq. rewrite (proj2 (Z.ltb_lt p bp)) by lia.
    pose proof (O6 q m ltac:(left)) as Hpq. destruct (Z.ltb_spec bp q); cbn [andb].
    + apply wp_ret, HQ. by exists F1, n, ((q, m) :: F2).
    + rewrite (proj2 (Z.leb_gt q p)) by lia. cbn [andb]. assert ((q, m) ∈ R) as Hin.
      { assert ((q, m) ∈ (base, 0) :: R) as Hin by (rewrite E; apply elem_of_app; right; right; left).
        apply elem_of_cons in Hin as [[= -> ->]|Hin]; [lia|done]. }
      apply (IH (F1 ++ [(p, n)]) q m); [by rewrite <- app_assoc|pose proof (Hne _ _ Hin); lia|cbn [length] in Hf; lia|done].
Qed.

(** From above, it goes on to [base] first. *)
Lemma free_find_ok F2 : forall F1 p n fuel (Q : Z -> heap -> Prop), (base, 0) :: R = F1 ++ (p, n) :: F2 -> (length F2 + 1 + length R <= fuel)%nat ->
  (forall p', place R bp p' -> Q p' s) -> wp (free_find fuel bp p) Q s.
Proof using C G Hb Hne.
  induction F2 as [|[q m] F2 IH]; intros F1 p n fuel Q E Hf HQ; destruct (chain_next _ _ _ _ _ _ C E) as [Hq _]; cbn in Hq;
    (destruct (Z.ltb_spec p bp) as [Hp|Hp]; [eapply free_find_up; [done..|cbn [length] in *; lia|done]|]);
    destruct (node_order R F1 p n _ G E) as (O1 & O2 & O3 & _ & O5 & O6); (destruct fuel as [|fuel]; [lia|]);
    cbn [free_find]; apply wp_bind, wp_gets; rewrite Hq, (proj2 (Z.ltb_ge p bp)) by lia; cbn [andb orb].
  - rewrite (proj2 (Z.ltb_ge bp base)), andb_false_r by lia. eapply (free_find_up R []); [done|lia|cbn [length] in Hf; lia|done].
  - pose proof (O6 q m ltac:(left)). rewrite (proj2 (Z.leb_gt q p)) by lia. cbn [andb].
    apply (IH (F1 ++ [(p, n)]) q m); [by rewrite <- app_assoc|cbn [length] in Hf; lia|done].
Qed.
End find.

Lemma u32_id x : 0 <= x < 4294967296 -> u32 x = x.
Proof. intros. by apply Z.mod_small. Qed.

Lemma hadd_id p n : 0 <= p + 8 * n < 4294967296 -> hadd p n = p + 8 * n.
Proof. intros. by apply u32_id. Qed.

(** Memory changed at one header only, which now holds [q] and [n]. *)
Definition header_set (m m' : mem) (p q n : Z) : Prop :=
  bytes_mem m' /\ load32 m' p = q /\ load32 m' (p + 4) = n /\ forall x, ~ (p <= x < p + 8) -> m' x = m x.

Lemma header_both m p q n : bytes_mem m -> 0 <= q < 4294967296 -> 0 <= n < 4294967296 ->
  header_set m (store32 (store32 m (p + 4) n) p q) p q n.
Proof.
  intros Hm Hq Hn. split; [by do 2 apply bytes_store32|]. split; [by apply load32_store32_eq|].
  split; [rewrite load32_store32_ne by lia; by apply load32_store32_eq|]. intros x Hx. rewrite !store32_frame by lia. done.
Qed.

Lemma header_ptr m p q : bytes_mem m -> 0 <= q < 4294967296 -> header_set m (store32 m p q) p q (load32 m (p + 4)).
Proof.
  intros Hm Hq. split; [by apply bytes_store32|]. split; [by apply load32_store32_eq|].
  split; [by rewrite load32_store32_ne by lia|]. intros x Hx. by rewrite store32_frame by lia.
Qed.

(** The first half of [free]: the block takes over its right neighbour, or points to it. *)
Lemma free_right s bp n F2 (Q : unit -> heap -> Prop) :
  let q := hd_addr F2 base in
  bytes_mem (u_mem s) -> load32 (u_mem s) (bp + 4) = n -> chain (u_mem s) F2 base -> gaps (bp + 8 * n - 1) F2 -> 0 < base < bp -> 1 <= n ->
  fin (bp + 8 * n) F2 <= KERNBASE ->
  (forall m1, header_set (u_mem s) m1 bp (hd_addr (join_right bp n F2).2 base) (join_right bp n F2).1 -> Q tt (set_umem m1 s)) ->
  wp (if hadd bp n =? q then
        qs ← hsize q; set_hsize bp (u32 (n + qs)) ;;
        qp ← hptr q; set_hptr bp qp
      else set_hptr bp q) Q s.
Proof.
  cbv zeta. intros Hm Hn C G Hb H1 Hf HQ. unfold KERNBASE in Hf.
  destruct F2 as [|[q nq] F2]; cbn [hd_addr fin gaps chain join_right fst snd] in *.
  - rewrite hadd_id, (proj2 (Z.eqb_neq _ _)) by lia. apply wp_modify, HQ. rewrite <- Hn. apply header_ptr; [done|lia].
  - destruct C as (C1 & C2 & C3), G as (G1 & G2 & G3). pose proof (gaps_fin _ _ G3). rewrite hadd_id by lia.
    destruct (Z.eqb_spec (bp + 8 * n) q) as [<-|Hne]; cbn [fst snd hd_addr] in *.
    + apply wp_bind, wp_gets. rewrite C2. apply wp_bind, wp_modify. apply wp_bind, wp_gets. unfold set_hptr, set_umem. cbn [u_mem u_freep u_brk].
      rewrite load32_store32_ne, C1, u32_id by lia. apply wp_modify. cbn [u_mem u_freep u_brk]. apply HQ. apply header_both; [done| |lia].
      destruct F2 as [|[r nr] F2]; cbn [hd_addr gaps fin] in *; [lia|]. pose proof (gaps_fin _ _ (proj2 (proj2 G3))). lia.
    + apply wp_modify, HQ. rewrite <- Hn. apply header_ptr; [done|lia].
Qed.

(** The second half: the node before takes over the block, or points to it. *)
Lemma free_left s p np bp n F (Q : unit -> heap -> Prop) :
  bytes_mem (u_mem s) -> load32 (u_mem s) (p + 4) = np -> load32 (u_mem s) bp = hd_addr F base -> load32 (u_mem s) (bp + 4) = n ->
  0 <= p -> 0 <= np -> 0 <= n -> p + 8 * np <= bp -> p + 8 <= bp -> bp + 8 * n <= KERNBASE -> 0 <= hd_addr F base < 4294967296 ->
  (forall m1, (if p + 8 * np =? bp then header_set (u_mem s) m1 p (hd_addr F base) (np + n) else header_set (u_mem s) m1 p bp np) -> Q tt (set_umem m1 s)) ->
  wp (if hadd p np =? bp then
        bs ← hsize bp; set_hsize p (u32 (np + bs)) ;;
        bq ← hptr bp; set_hptr p bq
      else set_hptr p bp) Q s.
Proof.
  intros Hm Hnp Hq Hn Hp Hnp0 Hn0 Hle Hle' Hk Hh HQ. unfold KERNBASE in Hk. rewrite hadd_id by lia.
  destruct (Z.eqb_spec (p + 8 * np) bp) as [E|Hne].
  - apply wp_bind, wp_gets. rewrite Hn. apply wp_bind, wp_modify. apply wp_bind, wp_gets. unfold set_hptr, set_umem. cbn [u_mem u_freep u_brk].
    rewrite load32_store32_ne, Hq, u32_id by lia. apply wp_modify, HQ. cbn [u_mem]. apply header_both; [done|done|lia].
  - apply wp_modify, HQ. rewrite <- Hnp. apply header_ptr; [done|lia].
Qed.

(** *** The list with the block in it *)

Definition inside (x a n : Z) : Prop := a <= x < a + 8 * n.

Lemma disj_inside a n b m : disj a n b m -> forall x, inside x a n -> inside x b m -> False.
Proof. unfold disj, inside. intros. lia. Qed.
Lemma inside_disj a n b m : 1 <= n -> 1 <= m -> (forall x, inside x a n -> inside x b m -> False) -> disj a n b m.
Proof. unfold disj, inside. intros Hn Hm H. pose proof (H (Z.max a b)). lia. Qed.

Lemma insert_free R F1 p np F2 bp n : gaps (base + 7) R -> (base, 0) :: R = F1 ++ (p, np) :: F2 -> base + 8 <= bp -> 1 <= n ->
  p + 8 * np <= bp -> gaps (bp + 8 * n - 1) F2 ->
  let j := join_right bp n F2 in
  exists R', (base, 0) :: R' = F1 ++ join_left p np bp j.1 j.2 /\ gaps (base + 7) R' /\
    fin (base + 7) R' = fin (bp + 8 * n) F2 /\ total R' = total R + n /\ (length R' <= S (length R))%nat /\
    (exists b m, (b, m) ∈ R' /\ n <= m) /\
    forall b m x, (b, m) ∈ R' -> inside x b m -> inside x bp n \/ exists c k, (c, k) ∈ R /\ inside x c k.
Proof.
  intros G E Hb Hn Hp G2 j. destruct (join_right_gaps (bp - 1) bp n F2 ltac:(lia) Hn G2) as (J1 & J2 & J3 & J4 & J5). fold j in J1, J2, J3, J4, J5.
  assert (forall b m x, (b, m) ∈ (bp, j.1) :: j.2 -> inside x b m -> inside x bp n \/ exists c k, (c, k) ∈ F2 /\ inside x c k) as Hj.
  { intros b m x. unfold j, join_right. destruct F2 as [|[q nq] F2]; cbn [fst snd].
    - intros [[= -> ->]|?%elem_of_nil]%elem_of_cons; [by left|done].
    - destruct (Z.eqb_spec (bp + 8 * n) q) as [<-|]; cbn [fst snd]; intros [[= -> ->]|Hi]%elem_of_cons Hx; unfold inside in *.
      + destruct (decide (x < bp + 8 * n)); [left; lia|]. right. exists (bp + 8 * n), nq. split; [left|lia].
      + right. exists b, m. split; [by right|done].
      + by left.
      + right. by exists b, m. }
  destruct F1 as [|y R1]; cbn [app] in E.
  - injection E as <- <- <-. unfold join_left. rewrite (proj2 (Z.eqb_neq _ _)) by lia. exists ((bp, j.1) :: j.2). split; [done|].
    cbn [gaps fin total foldr length fst snd]. unfold total in *. split_and!; [lia|lia|done|done|lia|lia|exists bp, j.1; split; [left|lia]|]. apply Hj.
  - injection E as <- ->. apply gaps_app in G as [G1 (H1 & H2 & H3)]. unfold join_left. pose proof (gaps_fin _ _ G1).
    destruct (Z.eqb_spec (p + 8 * np) bp) as [Ep|Hne].
    + exists (R1 ++ (p, np + j.1) :: j.2). split; [done|]. rewrite gaps_app, fin_app, !total_app, !length_app. cbn [gaps fin total foldr length fst snd].
      unfold total in *. replace (p + 8 * (np + j.1)) with (bp + 8 * j.1) by lia.
      split_and!; [done|lia|lia|done|done|lia|lia|exists p, (np + j.1); split; [apply elem_of_app; right; left|lia]|].
      intros b m x Hi Hx. rewrite elem_of_app, elem_of_cons in Hi. destruct Hi as [Hi|[[= -> ->]|Hi]].
      * right. exists b, m. split; [apply elem_of_app; by left|done].
      * destruct (decide (x < bp)); [right; exists p, np; split; [apply elem_of_app; right; left|unfold inside in *; lia]|].
        destruct (Hj bp j.1 x ltac:(left)) as [?|(c & k & Hc & ?)]; [unfold inside in *; lia|by left|]. right. exists c, k. split; [apply elem_of_app; right; by right|done].
      * destruct (Hj b m x ltac:(by right) Hx) as [?|(c & k & Hc & ?)]; [by left|]. right. exists c, k. split; [apply elem_of_app; right; by right|done].
    + exists (R1 ++ (p, np) :: (bp, j.1) :: j.2). split; [done|]. rewrite gaps_app, fin_app, !total_app, !length_app. cbn [gaps fin total foldr length fst snd].
      unfold total in *.
      split_and!; [done|lia|lia|lia|lia|done|done|lia|lia|exists bp, j.1; split; [apply elem_of_app; right; right; left|lia]|].
      intros b m x Hi Hx. rewrite elem_of_app, elem_of_cons in Hi. destruct Hi as [Hi|[[= -> ->]|Hi]].
      * right. exists b, m. split; [apply elem_of_app; by left|done].
      * right. exists p, np. split; [apply elem_of_app; right; left|done].
      * destruct (Hj b m x Hi Hx) as [?|(c & k & Hc & ?)]; [by left|]. right. exists c, k. split; [apply elem_of_app; right; by right|done].
Qed.

(** The header of a node does not meet a block handed out. *)
Lemma node_apart s R A p np b m : heap_ok s R A -> (p, np) ∈ (base, 0) :: R -> A !! b = Some m -> p + 8 <= b \/ b + 8 * m <= p.
Proof.
  intros H Hp Hb. destruct (hk_alloc _ _ _ H _ _ Hb) as (? & ? & ? & _). apply elem_of_cons in Hp as [[= -> ->]|Hp]; [lia|].
  destruct (hk_apart _ _ _ H _ _ _ _ Hb Hp); [lia|]. destruct (gaps_in _ _ _ _ (hk_gaps _ _ _ H) Hp). lia.
Qed.

(** What [free] leaves: the block is on the list, and the others are as they were. *)
Definition freed (s : heap) (R : list blk) (A : gmap Z Z) (a n : Z) (s' : heap) (R' : list blk) : Prop :=
  heap_ok s' R' (delete a A) /\ total R' = total R + n /\ (length R' <= S (length R))%nat /\ u_brk s' = u_brk s /\
  (exists b m, (b, m) ∈ R' /\ n <= m) /\
  forall b m x, b <> a -> A !! b = Some m -> inside x b m -> u_mem s' x = u_mem s x.

Lemma join_right_sub a n F c k : (c, k) ∈ (join_right a n F).2 -> (c, k) ∈ F.
Proof. unfold join_right. destruct F as [|[q nq] F]; [done|]. destruct (_ =? _); [intros Hc; by right|done]. Qed.

Section freed.
Context (s : heap) (R : list blk) (A : gmap Z Z) (a n : Z) (F1 : list blk) (p np : Z) (F2 : list blk) (m1 m2 : mem).
Context (H : heap_ok s R A) (Ha : A !! a = Some n) (E : (base, 0) :: R = F1 ++ (p, np) :: F2) (Hp : p < a).
Context (Hq : match F2 with [] => True | (q, _) :: _ => a < q end).
Let j := join_right a n F2.

Lemma freed_pos : 1 <= n /\ base + 8 <= a /\ a + 8 * n <= u_brk s /\ (p, np) ∈ (base, 0) :: R /\ p + 8 * np <= a /\ p + 8 <= a /\ gaps (a + 8 * n - 1) F2.
Proof using H Ha E Hp Hq.
  destruct (hk_alloc _ _ _ H _ _ Ha) as (H1 & H2 & H3 & _). assert ((p, np) ∈ (base, 0) :: R) as Hin by (rewrite E; apply elem_of_app; right; left).
  destruct (node_order R F1 p np F2 (hk_gaps _ _ _ H) E) as (O1 & O2 & O3 & _ & _ & O6). pose proof (node_apart s R A p np a n H Hin Ha).
  split_and!; [done..| |lia|].
  - apply elem_of_cons in Hin as [[= -> ->]|Hin]; [lia|]. destruct (hk_apart _ _ _ H _ _ _ _ Ha Hin); lia.
  - destruct F2 as [|[q nq] F3]; [done|]. cbn in O3 |- *. destruct O3 as (? & ? & ?). split_and!; [|done..].
    assert ((q, nq) ∈ (base, 0) :: R) as Hin' by (rewrite E; apply elem_of_app; right; right; left).
    apply elem_of_cons in Hin' as [[= -> ->]|Hin']; [lia|]. destruct (hk_apart _ _ _ H _ _ _ _ Ha Hin'); lia.
Qed.

Context (M1 : header_set (u_mem s) m1 a (hd_addr j.2 base) j.1).
Context (M2 : if p + 8 * np =? a then header_set m1 m2 p (hd_addr j.2 base) (np + j.1) else header_set m1 m2 p a np).

Lemma freed_frame x : ~ (a <= x < a + 8) -> ~ (p <= x < p + 8) -> m2 x = u_mem s x.
Proof using M1 M2. intros X1 X2. destruct M1 as (_ & _ & _ & K1). rewrite <- K1 by done. destruct (_ =? _); destruct M2 as (_ & _ & _ & K2); by apply K2. Qed.

Lemma freed_chain : chain m2 (F1 ++ join_left p np a j.1 j.2) base.
Proof using H Ha E Hp Hq M1 M2.
  destruct freed_pos as (P1 & P2 & P3 & P4 & P5 & P6 & P7). pose proof (hk_chain _ _ _ H) as C. rewrite E in C. apply chain_app in C as [C1 [_ [_ C2]]].
  destruct (node_order R F1 p np F2 (hk_gaps _ _ _ H) E) as (O1 & O2 & O3 & _ & O5 & O6).
  assert (hd_addr (join_left p np a j.1 j.2) base = p) as Eh by (unfold join_left; by destruct (_ =? _)).
  apply chain_app. rewrite Eh. split.
  - eapply ring_ext; [|exact C1]. intros c k x Hc Hx. pose proof (O5 _ _ Hc). apply freed_frame; lia.
  - assert (chain m2 j.2 base) as Cj.
    { eapply (ring_ext (u_mem s)); [|unfold j, join_right; destruct F2 as [|[q nq] F3]; [done|]; destruct (a + 8 * n =? q); [apply C2|done]].
      intros c k x Hc%join_right_sub Hx. pose proof (O6 _ _ Hc). destruct (gaps_in _ _ _ _ P7 Hc) as (? & _). apply freed_frame; lia. }
    destruct M1 as (_ & L1 & L2 & _). unfold join_left in *. destruct (p + 8 * np =? a); destruct M2 as (_ & L3 & L4 & L5); cbn [chain hd_addr].
    + done.
    + split_and!; [done|done|..|done].
      * rewrite <- L1. apply load32_ext. intros i Hi. apply L5. lia.
      * rewrite <- L2. apply load32_ext. intros i Hi. apply L5. lia.
Qed.

Lemma free_heap : exists R', freed s R A a n (mkHeap m2 p (u_brk s)) R'.
Proof using H Ha E Hp Hq M1 M2.
  destruct freed_pos as (P1 & P2 & P3 & P4 & P5 & P6 & P7). pose proof (hk_base _ _ _ H) as Hb.
  destruct (insert_free R F1 p np F2 a n (hk_gaps _ _ _ H) E P2 P1 P5 P7) as (R' & E' & G' & Ef & Et & El & Hbig & Hin). fold j in E'. exists R'.
  assert (forall b m, delete a A !! b = Some m -> b <> a /\ A !! b = Some m) as Hdel by (intros b m [? ?]%lookup_delete_Some; done).
  assert (forall b m x, b <> a -> A !! b = Some m -> inside x b m -> m2 x = u_mem s x) as Hframe.
  { intros b m x Hne Hbm Hx. pose proof (hk_disj _ _ _ H _ _ _ _ Ha Hbm ltac:(done)) as D. pose proof (node_apart _ _ _ _ _ _ _ H P4 Hbm).
    unfold disj, inside in *. apply freed_frame; lia. }
  split; [|by split_and!]. split; cbn [u_mem u_freep u_brk].
  - destruct (_ =? _); apply M2.
  - done.
  - rewrite E'. apply freed_chain.
  - done.
  - rewrite Ef. pose proof (hk_fin _ _ _ H) as Hf. destruct (node_order R F1 p np F2 (hk_gaps _ _ _ H) E) as (_ & _ & _ & O4 & _ & _).
    destruct F2 as [|[q nq] F3]; cbn [fin] in *; lia.
  - rewrite E'. unfold join_left. destruct (_ =? _); eexists; apply elem_of_app; right; left.
  - intros b m [Hne Hbm]%Hdel. destruct (hk_alloc _ _ _ H _ _ Hbm) as (B1 & B2 & B3 & B4). split_and!; [done..|]. rewrite <- B4.
    apply load32_ext. intros i Hi. apply (Hframe b m); [done..|unfold inside; lia].
  - intros b m c k [Hne Hbm]%Hdel Hc. destruct (hk_alloc _ _ _ H _ _ Hbm) as (B1 & _). destruct (gaps_in _ _ _ _ G' Hc) as (_ & C1 & _).
    apply inside_disj; [done..|]. intros x Hx Hx'. destruct (Hin c k x Hc Hx') as [Hx2|(c' & k' & Hc' & Hx2)].
    + by eapply (disj_inside a n b m); [eapply (hk_disj _ _ _ H)|..].
    + by eapply (disj_inside b m c' k'); [eapply (hk_apart _ _ _ H)|..].
  - intros b m b' m' [_ ?]%Hdel [_ ?]%Hdel. by apply (hk_disj _ _ _ H).
Qed.
End freed.

Lemma free_ok s R A a n (Q : unit -> heap -> Prop) : heap_ok s R A -> A !! a = Some n ->
  (forall s' R', freed s R A a n s' R' -> Q tt s') -> wp (free (a + 8)) Q s.
Proof.
  intros H Ha HQ. destruct (hk_alloc _ _ _ H _ _ Ha) as (A1 & A2 & A3 & A4). pose proof (hk_base _ _ _ H) as Hb. unfold KERNBASE in Hb.
  unfold free. rewrite hadd_id by lia. replace (a + 8 + 8 * -1) with a by lia. apply wp_bind, wp_get, wp_bind.
  destruct (hk_freep _ _ _ H) as [fn Hfp]. destruct (node_split R _ _ Hfp) as (G1 & G2 & EG).
  eapply free_find_ok; [apply (hk_chain _ _ _ H)|apply (hk_gaps _ _ _ H)|lia| |exact EG| |].
  { intros b m Hbm ->. destruct (hk_apart _ _ _ H _ _ _ _ Ha Hbm); [lia|]. destruct (gaps_in _ _ _ _ (hk_gaps _ _ _ H) Hbm) as (? & ? & ?). lia. }
  { pose proof (hk_length _ _ _ H). apply (f_equal length) in EG. rewrite length_app in EG. cbn [length] in EG. unfold list_fuel. lia. }
  intros p (F1 & np & F2 & E & Hp & Hq). destruct (freed_pos s R A a n F1 p np F2 H Ha E Hp Hq) as (P1 & P2 & P3 & P4 & P5 & P6 & P7).
  destruct (chain_next _ _ _ _ _ _ (hk_chain _ _ _ H) E) as [N1 N2]. pose proof (hk_chain _ _ _ H) as C. rewrite E in C. apply chain_app in C as [_ [_ [_ C2]]].
  destruct (node_order R F1 p np F2 (hk_gaps _ _ _ H) E) as (O1 & O2 & O3 & O4 & _ & _). pose proof (hk_fin _ _ _ H) as Hf.
  apply wp_bind, wp_gets. rewrite A4. apply wp_bind, wp_gets. rewrite N1. apply wp_bind.
  assert (fin (a + 8 * n) F2 <= KERNBASE) as Hfin by (unfold KERNBASE; destruct F2 as [|[q nq] F3]; cbn [fin] in *; lia).
  destruct (join_right_gaps (a - 1) a n F2 ltac:(lia) P1 P7) as (J1 & J2 & J3 & _ & _). pose proof (gaps_fin _ _ J1) as Jf. unfold KERNBASE in *.
  eapply (free_right s a n F2); [apply (hk_bytes _ _ _ H)|done|done|done|lia|lia|unfold KERNBASE; lia|]. intros m1 M1.
  apply wp_bind, wp_gets. cbn [u_mem set_umem]. pose proof M1 as (B1 & L1 & L2 & L3).
  assert (load32 m1 (p + 4) = np) as -> by (rewrite <- N2; apply load32_ext; intros i Hi; apply L3; lia).
  apply wp_bind. eapply (free_left (set_umem m1 s) p np a (join_right a n F2).1 (join_right a n F2).2); cbn [u_mem set_umem]; [done| |done|done|unfold KERNBASE; lia..| |].
  { rewrite <- N2; apply load32_ext; intros i Hi; apply L3; lia. }
  { destruct (join_right a n F2).2 as [|[r nr] F3] eqn:Ej; cbn [hd_addr]; [lia|]. cbn in J1, J3. pose proof (gaps_fin _ _ (proj2 (proj2 J1))). lia. }
  intros m2 M2. apply wp_modify. cbn [set_umem u_mem u_brk].
  destruct (free_heap s R A a n F1 p np F2 m1 m2 H Ha E Hp Hq M1 M2) as [R' Fr]. by eapply HQ.
Qed.

(** ** More memory *)

Lemma chain_below s R A m : heap_ok s R A -> (forall x, x < u_brk s -> m x = u_mem s x) -> chain m ((base, 0) :: R) base.
Proof.
  intros H Hm. eapply ring_ext; [|apply (hk_chain _ _ _ H)]. intros a n x Ha Hx. apply Hm. pose proof (hk_base _ _ _ H). pose proof (hk_fin _ _ _ H).
  apply elem_of_cons in Ha as [[= -> ->]|Ha]; [lia|]. destruct (gaps_in _ _ _ _ (hk_gaps _ _ _ H) Ha) as (? & ? & ?). lia.
Qed.

(** The new memory, as a block handed out. *)
Lemma heap_grow s R A m n : heap_ok s R A -> 1 <= n -> u_brk s + 8 * n <= KERNBASE -> bytes_mem m -> (forall x, x < u_brk s -> m x = u_mem s x) ->
  heap_ok (mkHeap (store32 m (u_brk s + 4) n) (u_freep s) (u_brk s + 8 * n)) R (<[u_brk s := n]> A) /\ A !! u_brk s = None.
Proof.
  intros H Hn Hk Hb Hm. set (m' := store32 m (u_brk s + 4) n). assert (forall x, x < u_brk s -> m' x = u_mem s x) as Hm'.
  { intros x Hx. unfold m'. rewrite store32_frame by lia. by apply Hm. }
  assert (forall a k, A !! a = Some k -> a < u_brk s /\ load32 m' (a + 4) = k) as HA.
  { intros a k Ha. destruct (hk_alloc _ _ _ H _ _ Ha) as (? & ? & ? & E). split; [lia|]. rewrite <- E. apply load32_ext. intros i Hi. apply Hm'. lia. }
  assert (forall a k b l, A !! a = Some k -> (b, l) ∈ R \/ b = u_brk s /\ l = n -> disj a k b l) as HD.
  { intros a k b l Ha [Hbl|[-> ->]]; [by apply (hk_apart _ _ _ H)|]. destruct (hk_alloc _ _ _ H _ _ Ha) as (? & ? & ? & _). left. lia. }
  split. 2: { destruct (A !! u_brk s) as [k|] eqn:E; [|done]. destruct (HA _ _ E). lia. }
  pose proof (hk_base _ _ _ H) as B. unfold KERNBASE in *. pose proof (hk_fin _ _ _ H).
  split; cbn [u_mem u_freep u_brk].
  - by apply bytes_store32.
  - unfold KERNBASE. lia.
  - by eapply chain_below.
  - apply (hk_gaps _ _ _ H).
  - lia.
  - apply (hk_freep _ _ _ H).
  - intros a k [[<- <-]|[Hne Ha]]%lookup_insert_Some.
    + split_and!; [done|lia|lia|]. apply load32_store32_eq. lia.
    + destruct (hk_alloc _ _ _ H _ _ Ha) as (? & ? & ? & _). split_and!; [done|lia|lia|]. by apply HA.
  - intros a k b l [[<- <-]|[Hne Ha]]%lookup_insert_Some Hbl; [|by apply HD; [|left]].
    right. destruct (gaps_in _ _ _ _ (hk_gaps _ _ _ H) Hbl) as (? & ? & ?). lia.
  - intros a k b l [[<- <-]|[Hne Ha]]%lookup_insert_Some [[<- <-]|[Hne' Hbl]]%lookup_insert_Some Hab; [done|..].
    + destruct (HD b l (u_brk s) n Hbl ltac:(by right)); [by right|by left].
    + by apply HD; [|right].
    + by apply (hk_disj _ _ _ H).
Qed.

(** What [morecore] leaves: a block of at least [nu] units on the list. *)
Definition chunk (nu : Z) : Z := Z.max nu 4096.
Definition grown (s : heap) (R : list blk) (A : gmap Z Z) (nu : Z) (s' : heap) (R' : list blk) : Prop :=
  heap_ok s' R' A /\ total R' = total R + chunk nu /\ (length R' <= S (length R))%nat /\ u_brk s' = u_brk s + 8 * chunk nu /\
  (exists b m, (b, m) ∈ R' /\ nu <= m) /\
  forall b m x, A !! b = Some m -> inside x b m -> u_mem s' x = u_mem s x.

Lemma morecore_ok s R A nu (Q : Z -> heap -> Prop) : heap_ok s R A -> 1 <= nu -> 8 * chunk nu < 2147483648 ->
  (sbrk (8 * chunk nu) s = Ok 4294967295 s -> Q 0 s) ->
  (forall s' R', grown s R A nu s' R' -> Q (u_freep s') s') -> wp (morecore nu) Q s.
Proof.
  intros H Hnu Hc H0 HQ. pose proof (hk_base _ _ _ H) as B. unfold morecore.
  replace (if nu <? 4096 then 4096 else nu) with (chunk nu) by (unfold chunk; destruct (Z.ltb_spec nu 4096); lia).
  assert (4096 <= chunk nu /\ nu <= chunk nu) as Hch by (unfold chunk; lia).
  assert (s32 (u32 (chunk nu * HDR)) = 8 * chunk nu) as ->.
  { unfold s32, HDR. rewrite u32_id, Z.mod_small by lia. lia. }
  apply wp_bind, wp_ok. destruct (sbrk_law (8 * chunk nu) s ltac:(lia)) as [E|(m & E & Hk & Hbm & Hm)]; rewrite E; eexists _, _; (split; [reflexivity|]).
  - by apply wp_ret, H0.
  - unfold KERNBASE in B. rewrite (proj2 (Z.eqb_neq _ _)) by lia. apply wp_bind, wp_modify. unfold set_umem. cbn [u_mem u_freep u_brk].
    destruct (heap_grow s R A m (chunk nu) H ltac:(lia) Hk (Hbm (hk_bytes _ _ _ H)) Hm) as [H2 Hn]. rewrite hadd_id by lia. replace (u_brk s + 8 * 1) with (u_brk s + 8) by lia.
    apply wp_bind. eapply free_ok; [exact H2|apply lookup_insert_eq|]. intros s' R' (F1 & F2 & F3 & F4 & (b & k & Hb & Hk') & F6). apply wp_gets, (HQ s' R').
    rewrite delete_insert_id in F1 by done. split_and!; [done|done|done|done|exists b, k; split; [done|lia]|].
    intros c l x Hc' Hx. destruct (hk_alloc _ _ _ H _ _ Hc') as (? & ? & ? & _). assert (x < u_brk s) by (unfold inside in Hx; lia).
    rewrite (F6 c l) by (done || lia || rewrite lookup_insert_ne by lia; done). cbn [u_mem]. rewrite store32_frame by lia. by apply Hm.
Qed.

(** ** Taking a block *)

(** The block [(b, m)] lies in a free block. *)
Definition within (R : list blk) (b m : Z) : Prop := exists c k, (c, k) ∈ R /\ c <= b /\ b + 8 * m <= c + 8 * k.

Definition taken (s : heap) (R : list blk) (A : gmap Z Z) (n a : Z) (s' : heap) (R' : list blk) : Prop :=
  heap_ok s' R' (<[a := n]> A) /\ A !! a = None /\ within R a n /\ total R = total R' + n /\ u_brk s' = u_brk s /\
  forall b m x, A !! b = Some m -> inside x b m -> u_mem s' x = u_mem s x.

Lemma heap_take s R A n a m' p R' :
  heap_ok s R A -> 1 <= n -> within R a n -> (forall b m, (b, m) ∈ R' -> within R b m /\ disj a n b m) ->
  bytes_mem m' -> chain m' ((base, 0) :: R') base -> gaps (base + 7) R' -> (exists k, (p, k) ∈ (base, 0) :: R') -> load32 m' (a + 4) = n ->
  total R = total R' + n -> (forall b m x, A !! b = Some m -> inside x b m -> m' x = u_mem s x) -> taken s R A n a (mkHeap m' p (u_brk s)) R'.
Proof.
  intros H Hn (c & k & Hck & W1 & W2) Hsub Hb C G Hp Ha Ht Hfr. pose proof (gaps_in _ _ _ _ (hk_gaps _ _ _ H) Hck) as (K1 & K2 & K3).
  pose proof (hk_fin _ _ _ H) as Hf. pose proof (hk_base _ _ _ H) as Hbase.
  assert (forall b m, A !! b = Some m -> disj b m a n) as HD.
  { intros b m Hbm. destruct (hk_apart _ _ _ H _ _ _ _ Hbm Hck); unfold disj; lia. }
  split_and!; [|destruct (A !! a) as [m|] eqn:E; [|done]; destruct (HD _ _ E), (hk_alloc _ _ _ H _ _ E) as (? & _); lia|by exists c, k|done|done|done].
  split; cbn [u_mem u_freep u_brk]; [done..| |done| | |].
  - destruct (decide (R' = [])) as [->|Hne]; [cbn; lia|]. destruct (exists_last Hne) as (R1 & [b m] & ->).
    destruct (Hsub b m) as [(c' & k' & Hc' & ? & ?) _]; [apply elem_of_app; right; left|]. rewrite fin_app. cbn [fin].
    pose proof (gaps_in _ _ _ _ (hk_gaps _ _ _ H) Hc') as (? & ? & ?). lia.
  - intros b m [[<- <-]|[Hne Hbm]]%lookup_insert_Some; [split_and!; [done|lia|lia|done]|].
    destruct (hk_alloc _ _ _ H _ _ Hbm) as (? & ? & ? & E). split_and!; [done..|]. rewrite <- E. apply load32_ext. intros i Hi.
    apply (Hfr b m); [done|unfold inside; lia].
  - intros b m d l [[<- <-]|[Hne Hbm]]%lookup_insert_Some Hd; destruct (Hsub _ _ Hd) as [(c' & k' & Hc' & ? & ?) D]; [done|].
    destruct (hk_apart _ _ _ H _ _ _ _ Hbm Hc'); unfold disj; lia.
  - intros b m d l [[<- <-]|[Hne Hbm]]%lookup_insert_Some [[<- <-]|[Hne' Hdl]]%lookup_insert_Some Hbd; [done|..].
    + destruct (HD d l Hdl); [by right|by left].
    + by apply HD.
    + by apply (hk_disj _ _ _ H).
Qed.

Lemma within_self R b m : (b, m) ∈ R -> within R b m.
Proof. intros Hb. exists b, m. split; [done|lia]. Qed.

Section take.
Context (s : heap) (R : list blk) (A : gmap Z Z) (n : Z) (F1 : list blk) (prevp np p ps : Z) (F2 : list blk).
Context (H : heap_ok s R A) (Hn : 1 <= n <= ps) (E : (base, 0) :: R = F1 ++ (prevp, np) :: (p, ps) :: F2).

(** The nodes before [p], without [base]. *)
Lemma take_split : exists R1, F1 ++ [(prevp, np)] = (base, 0) :: R1 /\ R = R1 ++ (p, ps) :: F2 /\ gaps (base + 7) R1 /\ fin (base + 7) R1 < p /\
  gaps (p + 8 * ps) F2 /\ (p, ps) ∈ R /\ (prevp, np) ∈ (base, 0) :: R /\ base + 8 <= p /\ p + 8 * ps <= u_brk s /\
  (forall c k, (c, k) ∈ (base, 0) :: R1 -> c + 8 <= p) /\ (forall c k, (c, k) ∈ F2 -> p + 8 * ps < c /\ 1 <= k).
Proof using H Hn E.
  assert (exists R1, F1 ++ [(prevp, np)] = (base, 0) :: R1 /\ R = R1 ++ (p, ps) :: F2) as (R1 & E1 & ->).
  { destruct F1 as [|y F1']; cbn in E |- *; injection E as <- ->.
    - by exists [].
    - exists (F1' ++ [(prevp, np)]). split; [done|]. by rewrite <- app_assoc. }
  pose proof (hk_gaps _ _ _ H) as G. pose proof G as G0. apply gaps_app in G as [G1 (G2 & G3 & G4)]. pose proof (gaps_fin _ _ G1).
  assert ((p, ps) ∈ R1 ++ (p, ps) :: F2) as Hp by (apply elem_of_app; right; left).
  destruct (gaps_in _ _ _ _ G0 Hp) as (? & ? & ?). pose proof (hk_fin _ _ _ H). exists R1. split_and!; [done|done|done|done|done|done| |lia|lia|..].
  - rewrite E. apply elem_of_app. right. left.
  - intros c k [[= -> ->]|Hc]%elem_of_cons; [lia|]. destruct (gaps_in _ _ _ _ G1 Hc) as (? & ? & ?). lia.
  - intros c k Hc. destruct (gaps_in _ _ _ _ G4 Hc) as (? & ? & ?). lia.
Qed.

(** A block of the size wanted leaves the list. *)
Lemma take_whole : n = ps -> exists R', taken s R A n p (mkHeap (store32 (u_mem s) prevp (hd_addr F2 base)) prevp (u_brk s)) R'.
Proof using H Hn E.
  intros En. destruct take_split as (R1 & E1 & ER & G1 & G2 & G3 & Hp & Hpp & P1 & P2 & O1 & O2). exists (R1 ++ F2).
  pose proof (hk_base _ _ _ H) as B. unfold KERNBASE in B. pose proof (hk_chain _ _ _ H) as C. rewrite E in C. apply chain_app in C as [C1 (C2 & C3 & C4 & C5 & C6)].
  assert ((prevp, np) ∈ (base, 0) :: R1) as Hpp1 by (rewrite <- E1; apply elem_of_app; right; left). pose proof (O1 _ _ Hpp1) as O3.
  assert (bytes_mem (u_mem s)) as Hb by apply (hk_bytes _ _ _ H). pose proof (gaps_fin _ _ G1) as Gf.
  assert (0 <= hd_addr F2 base < 4294967296) as Hh.
  { destruct F2 as [|[q nq] F3]; cbn [hd_addr]; [lia|]. assert ((q, nq) ∈ R) as Hq by (rewrite ER; apply elem_of_app; right; right; left).
    destruct (gaps_in _ _ _ _ (hk_gaps _ _ _ H) Hq) as (? & ? & ?). pose proof (hk_fin _ _ _ H). lia. }
  destruct (header_ptr (u_mem s) prevp (hd_addr F2 base) Hb Hh) as (M1 & M2 & M3 & M4).
  assert (gaps (base + 7) (R1 ++ F2)) as G' by (apply gaps_app; split; [done|]; eapply gaps_weaken; [|exact G3]; lia).
  apply (heap_take s R A); try done.
  - lia.
  - apply within_self. by rewrite En.
  - intros b m Hbm. rewrite elem_of_app in Hbm. split; [apply within_self; rewrite ER; apply elem_of_app; destruct Hbm; [by left|right; by right]|].
    destruct Hbm as [Hbm|Hbm]; [|pose proof (O2 _ _ Hbm); left; lia]. destruct (gaps_in _ _ _ _ G1 Hbm) as (? & ? & ?). right. lia.
  - replace ((base, 0) :: R1 ++ F2) with (F1 ++ (prevp, np) :: F2) by (change ((base, 0) :: R1 ++ F2) with (((base, 0) :: R1) ++ F2); rewrite <- E1; by rewrite <- app_assoc).
    destruct (node_order R F1 prevp np _ (hk_gaps _ _ _ H) E) as (_ & _ & _ & _ & O5 & O6). apply chain_app. split; [|split_and!; [done|by rewrite M3|]].
    + eapply ring_ext; [|exact C1]. intros c k x Hc Hx. pose proof (O5 _ _ Hc). apply M4. lia.
    + eapply ring_ext; [|exact C6]. intros c k x Hc Hx. pose proof (O2 _ _ Hc). apply M4. lia.
  - exists np. change ((prevp, np) ∈ ((base, 0) :: R1) ++ F2). apply elem_of_app. by left.
  - rewrite En, <- C5. apply load32_ext. intros i Hi. apply M4. lia.
  - rewrite ER, !total_app. unfold total. cbn [foldr snd]. lia.
  - intros b m x Hbm Hx. pose proof (node_apart _ _ _ _ _ _ _ H Hpp Hbm). unfold inside in Hx. apply M4. lia.
Qed.

(** A larger block gives its tail. *)
Lemma take_tail : n < ps -> exists R', taken s R A n (p + 8 * (ps - n))
  (mkHeap (store32 (store32 (u_mem s) (p + 4) (ps - n)) (p + 8 * (ps - n) + 4) n) prevp (u_brk s)) R'.
Proof using H Hn E.
  intros En. destruct take_split as (R1 & E1 & ER & G1 & G2 & G3 & Hp & Hpp & P1 & P2 & O1 & O2). exists (R1 ++ (p, ps - n) :: F2).
  pose proof (hk_base _ _ _ H) as B. unfold KERNBASE in B. pose proof (hk_chain _ _ _ H) as C.
  replace ((base, 0) :: R) with (((base, 0) :: R1) ++ (p, ps) :: F2) in C by (by rewrite ER). apply chain_app in C as [C1 (C2 & C3 & C4)].
  assert ((prevp, np) ∈ (base, 0) :: R1) as Hpp1 by (rewrite <- E1; apply elem_of_app; right; left).
  assert (bytes_mem (u_mem s)) as Hb by apply (hk_bytes _ _ _ H). pose proof (gaps_fin _ _ G1) as Gf. set (a := p + 8 * (ps - n)).
  set (m' := store32 (store32 (u_mem s) (p + 4) (ps - n)) (a + 4) n).
  assert (forall x, ~ (p + 4 <= x < p + 8) -> ~ (a + 4 <= x < a + 8) -> m' x = u_mem s x) as M.
  { intros x X1 X2. unfold m'. rewrite !store32_frame by lia. done. }
  apply (heap_take s R A).
  - done.
  - lia.
  - exists p, ps. split; [done|]. unfold a. lia.
  - intros b m Hbm. rewrite elem_of_app, elem_of_cons in Hbm. destruct Hbm as [Hbm|[[= -> ->]|Hbm]].
    + split; [apply within_self; rewrite ER; apply elem_of_app; by left|]. destruct (gaps_in _ _ _ _ G1 Hbm) as (? & ? & ?). right. unfold a. lia.
    + split; [exists p, ps; split; [done|]; lia|]. right. unfold a. lia.
    + split; [apply within_self; rewrite ER; apply elem_of_app; right; by right|]. pose proof (O2 _ _ Hbm). left. unfold a. lia.
  - by do 2 apply bytes_store32.
  - change (chain m' (((base, 0) :: R1) ++ (p, ps - n) :: F2) base). apply chain_app. split; [|split_and!].
    + eapply ring_ext; [|exact C1]. intros c k x Hc Hx. pose proof (O1 _ _ Hc). apply M; unfold a; lia.
    + rewrite <- C2. apply load32_ext. intros i Hi. apply M; unfold a; lia.
    + unfold m'. rewrite load32_store32_ne by (unfold a; lia). apply load32_store32_eq. lia.
    + eapply ring_ext; [|exact C4]. intros c k x Hc Hx. pose proof (O2 _ _ Hc). apply M; unfold a; lia.
  - apply gaps_app. split; [done|]. cbn [gaps]. split_and!; [done|lia|]. eapply gaps_weaken; [|exact G3]. lia.
  - exists np. change ((prevp, np) ∈ ((base, 0) :: R1) ++ (p, ps - n) :: F2). apply elem_of_app. by left.
  - apply load32_store32_eq. lia.
  - rewrite ER, !total_app. unfold total. cbn [foldr snd]. lia.
  - intros b m x Hbm Hx. destruct (hk_apart _ _ _ H _ _ _ _ Hbm Hp); unfold inside in Hx; apply M; unfold a; lia.
Qed.

Lemma malloc_take_ok (Q : Z -> heap -> Prop) : (forall a s' R', taken s R A n a s' R' -> Q (a + 8) s') -> wp (malloc_take n prevp p ps) Q s.
Proof using H Hn E.
  intros HQ. destruct take_split as (R1 & E1 & ER & G1 & G2 & G3 & Hp & Hpp & P1 & P2 & O1 & O2). pose proof (hk_base _ _ _ H) as B. unfold KERNBASE in B.
  pose proof (hk_chain _ _ _ H) as C. rewrite E in C. apply chain_app in C as [_ (_ & _ & C4 & C5 & _)]. unfold malloc_take. apply wp_bind.
  destruct (Z.eqb_spec ps n) as [En|En].
  - apply wp_bind, wp_gets. rewrite C4. apply wp_bind, wp_modify, wp_ret. apply wp_bind, wp_modify, wp_ret. unfold set_umem. cbn [u_mem u_brk].
    rewrite hadd_id by lia. replace (p + 8 * 1) with (p + 8) by lia. destruct take_whole as [R' T]; [done|]. by eapply HQ.
  - apply wp_bind, wp_modify. apply wp_bind, wp_gets. unfold set_umem. cbn [u_mem u_brk u_freep]. rewrite u32_id, load32_store32_eq by lia.
    cbv zeta. apply wp_bind, wp_modify, wp_ret. apply wp_bind, wp_modify, wp_ret. unfold set_umem. cbn [u_mem u_brk u_freep].
    rewrite (hadd_id p) by lia. rewrite hadd_id by lia. replace (p + 8 * (ps - n) + 8 * 1) with (p + 8 * (ps - n) + 8) by lia.
    destruct take_tail as [R' T]; [lia|]. by eapply HQ.
Qed.
End take.

(** ** The search *)

Section scan.
Context (s : heap) (R : list blk) (A : gmap Z Z) (n : Z) (H : heap_ok s R A) (Hn : 1 <= n).
#[local] Abbreviation F := ((base, 0) :: R).

Lemma lookup_split i p ps : F !! i = Some (p, ps) -> F = take i F ++ (p, ps) :: drop (S i) F.
Proof using. intros Hi. by rewrite (take_drop_middle _ _ _ Hi). Qed.

Lemma next_of i p ps : F !! i = Some (p, ps) ->
  load32 (u_mem s) (p + 4) = ps /\ load32 (u_mem s) p = match F !! S i with Some b => b.1 | None => base end.
Proof using H.
  intros Hi. destruct (chain_next _ _ _ _ _ _ (hk_chain _ _ _ H) (lookup_split _ _ _ Hi)) as [E1 E2]. split; [done|]. rewrite E1.
  pose proof (lookup_drop F (S i) 0) as Hd. rewrite Nat.add_0_r in Hd. rewrite <- Hd. by destruct (drop (S i) F) as [|[q nq] ?].
Qed.

Lemma addr_inj i j p a b : F !! i = Some (p, a) -> F !! j = Some (p, b) -> i = j.
Proof using H.
  assert (forall i j p a b, (i < j)%nat -> F !! i = Some (p, a) -> F !! j = Some (p, b) -> False) as Hlt.
  { intros i' j' p' a' b' Hij Hi Hj. destruct (node_order R _ _ _ _ (hk_gaps _ _ _ H) (lookup_split _ _ _ Hi)) as (_ & _ & _ & _ & _ & O).
    assert ((p', b') ∈ drop (S i') F) as Hin; [|specialize (O _ _ Hin); lia]. apply list_elem_of_lookup_2 with (i := (j' - S i')%nat).
    rewrite lookup_drop. by replace (S i' + (j' - S i'))%nat with j' by lia. }
  intros Hi Hj. destruct (lt_eq_lt_dec i j) as [[?|?]|?]; [exfalso; by eapply Hlt|done|exfalso; by eapply Hlt].
Qed.

Context (i0 : nat) (nf : Z) (Hi0 : F !! i0 = Some (u_freep s, nf)) (Q : Z -> heap -> Prop).

(** What the search comes to: a block that is large enough, with the node before it, or none is. *)
Context (HT : forall F1 prevp np p ps F2, F = F1 ++ (prevp, np) :: (p, ps) :: F2 -> n <= ps -> wp (malloc_take n prevp p ps) Q s).
Definition none_fits : Prop := forall j p ps, F !! j = Some (p, ps) -> ps < n.

(** [p] is node [j], and [prevp] the one before. *)
Definition at_node (j : nat) (prevp p ps : Z) : Prop :=
  F !! j = Some (p, ps) /\ (j = 0%nat \/ exists np i, j = S i /\ F !! i = Some (prevp, np)).

Lemma scan_fit j prevp p ps : at_node j prevp p ps -> n <= ps -> wp (malloc_take n prevp p ps) Q s.
Proof using Hn HT.
  intros [Hj [->|(np & i & -> & Hi)]] Hfit; [injection Hj as <- <-; lia|].
  pose proof (lookup_split i prevp np Hi) as E. eapply (HT (take i F) prevp np p ps (drop (S (S i)) F)); [|done]. rewrite E at 1. by rewrite (drop_S _ _ _ Hj).
Qed.

Section rest.
Context (g : nat) (HM : none_fits -> forall fuel', (g <= fuel')%nat ->
  wp (p ← morecore n; if p =? 0 then mret 0 else q ← hptr p; malloc_loop fuel' n p q) Q s).

Lemma scan_low d : forall j prevp p ps fuel, at_node j prevp p ps -> (j + d = i0)%nat -> (d + S g <= fuel)%nat ->
  (forall i a k, (i < j)%nat \/ (i0 < i)%nat -> F !! i = Some (a, k) -> k < n) -> wp (malloc_loop fuel n prevp p) Q s.
Proof using H Hn Hi0 HT HM.
  induction d as [|d IH]; intros j prevp p ps fuel Hat Hd Hf Hsmall; (destruct fuel as [|fuel]; [lia|]); pose proof Hat as [Hj _];
    destruct (next_of j p ps Hj) as [N1 N2]; cbn [malloc_loop]; apply wp_bind, wp_gets; rewrite N1;
    (destruct (Z.leb_spec n ps) as [Hfit|Hno]; [by eapply scan_fit|]); apply wp_bind, wp_get.
  - assert (j = i0) as -> by lia. rewrite Hi0 in Hj. injection Hj as Ep Enf. subst p nf. rewrite Z.eqb_refl. apply HM; [|lia]. intros i a k Hi.
    destruct (lt_eq_lt_dec i i0) as [[?| ->]|?]; [eapply Hsmall; [|exact Hi]; lia| |eapply Hsmall; [|exact Hi]; lia]. rewrite Hi0 in Hi. by injection Hi as <- <-.
  - destruct (Z.eqb_spec p (u_freep s)) as [->|Hne]; [pose proof (addr_inj _ _ _ _ _ Hj Hi0); lia|]. apply wp_bind, wp_gets. rewrite N2.
    destruct (lookup_lt_is_Some_2 F (S j)) as [[q nq] Hq]; [apply lookup_lt_Some in Hi0; lia|]. rewrite Hq. cbn [fst].
    apply (IH (S j) p q nq fuel); [split; [done|]; right; by exists ps, j|lia|lia|]. intros i a k Hi Hk.
    destruct (decide (i = j)) as [->|]; [rewrite Hj in Hk; injection Hk as <- <-; lia|]. eapply Hsmall; [|exact Hk]. lia.
Qed.

Lemma scan_up d : forall j prevp p ps fuel, at_node j prevp p ps -> (i0 < j)%nat -> (j + d = length R)%nat -> (d + 2 + i0 + g <= fuel)%nat ->
  (forall i a k, (i0 < i < j)%nat -> F !! i = Some (a, k) -> k < n) -> wp (malloc_loop fuel n prevp p) Q s.
Proof using H Hn Hi0 HT HM.
  induction d as [|d IH]; intros j prevp p ps fuel Hat Hlt Hd Hf Hsmall; (destruct fuel as [|fuel]; [lia|]); pose proof Hat as [Hj _];
    destruct (next_of j p ps Hj) as [N1 N2]; cbn [malloc_loop]; apply wp_bind, wp_gets; rewrite N1;
    (destruct (Z.leb_spec n ps) as [Hfit|Hno]; [by eapply scan_fit|]); apply wp_bind, wp_get;
    (destruct (Z.eqb_spec p (u_freep s)) as [->|Hne]; [pose proof (addr_inj _ _ _ _ _ Hj Hi0); lia|]); apply wp_bind, wp_gets; rewrite N2.
  - rewrite lookup_ge_None_2 by (cbn [length]; lia). apply (scan_low i0 0 p base 0 fuel); [split; [done|by left]|lia|lia|].
    intros i a k [?|Hi] Hk; [lia|]. destruct (decide (i = j)) as [->|]; [rewrite Hj in Hk; injection Hk as <- <-; lia|]. eapply Hsmall; [|exact Hk].
    apply lookup_lt_Some in Hk. cbn [length] in Hk. lia.
  - destruct (lookup_lt_is_Some_2 F (S j)) as [[q nq] Hq]; [cbn [length]; lia|]. rewrite Hq. cbn [fst].
    apply (IH (S j) p q nq fuel); [split; [done|]; right; by exists ps, j|lia|lia|lia|]. intros i a k Hi Hk.
    destruct (decide (i = j)) as [->|]; [rewrite Hj in Hk; injection Hk as <- <-; lia|]. eapply Hsmall; [|exact Hk]. lia.
Qed.

(** One round from [freep]. *)
Lemma scan fuel : (length R + 2 + g <= fuel)%nat -> wp (q ← hptr (u_freep s); malloc_loop fuel n (u_freep s) q) Q s.
Proof using H Hn Hi0 HT HM.
  intros Hf. apply wp_bind, wp_gets. destruct (next_of i0 _ _ Hi0) as [_ ->]. pose proof (lookup_lt_Some _ _ _ Hi0) as Hlt. cbn [length] in Hlt.
  destruct (F !! S i0) as [[q nq]|] eqn:Eq; cbn [fst].
  - apply (scan_up (length R - S i0) (S i0) (u_freep s) q nq); [split; [done|]; right; by exists nf, i0|lia| |lia|intros; lia].
    apply lookup_lt_Some in Eq. cbn [length] in Eq. lia.
  - apply lookup_ge_None_1 in Eq. cbn [length] in Eq. apply (scan_low i0 0 (u_freep s) base 0 fuel); [split; [done|by left]|lia|lia|].
    intros i a k Hi Hk%lookup_lt_Some. cbn [length] in Hk. lia.
Qed.
End rest.
End scan.

(** ** [malloc] *)

(** Before the first call there is no list. *)
Definition heap_inv (s : heap) (R : list blk) (A : gmap Z Z) : Prop :=
  heap_ok s R A \/
  u_freep s = 0 /\ R = [] /\ A = ∅ /\ bytes_mem (u_mem s) /\ 0 < base /\ base + 8 <= u_brk s <= KERNBASE.

Lemma heap_init s : bytes_mem (u_mem s) -> 0 < base -> base + 8 <= u_brk s <= KERNBASE ->
  heap_ok (mkHeap (store32 (store32 (u_mem s) base base) (base + 4) 0) base (u_brk s)) [] ∅.
Proof.
  intros Hb H0 Hk. split; cbn [u_mem u_freep u_brk chain gaps fin hd_addr]; unfold KERNBASE in *.
  - by do 2 apply bytes_store32.
  - done.
  - split_and!; [|by apply load32_store32_eq|done]. rewrite load32_store32_ne by lia. apply load32_store32_eq. lia.
  - done.
  - lia.
  - exists 0. left.
  - intros a n. by rewrite lookup_empty.
  - intros a n b m. by rewrite lookup_empty.
  - intros a n a' n'. by rewrite lookup_empty.
Qed.

(** No memory: nothing on the list is large enough, and the kernel gives no more. *)
Definition no_memory (R : list blk) (n : Z) (s' : heap) : Prop :=
  (forall b m, (b, m) ∈ R -> m < n) /\ sbrk (8 * chunk n) s' = Ok 4294967295 s'.

(** What a call of [malloc] for [n] units leaves. *)
Definition malloced (s : heap) (R : list blk) (A : gmap Z Z) (n r : Z) (s' : heap) (R' : list blk) : Prop :=
  (forall b m x, A !! b = Some m -> inside x b m -> u_mem s' x = u_mem s x) /\
  if r =? 0 then heap_ok s' R' A /\ R' = R /\ u_brk s' = u_brk s /\ no_memory R n s'
  else A !! (r - 8) = None /\ heap_ok s' R' (<[r - 8 := n]> A) /\ u_brk s' - u_brk s = 8 * (total R' + n - total R).

Lemma malloced_take s R A n a s' R' : heap_ok s R A -> taken s R A n a s' R' -> malloced s R A n (a + 8) s' R'.
Proof.
  intros H (T1 & T2 & T3 & T4 & T5 & T6). split; [done|]. destruct (hk_alloc _ _ _ T1 a n) as (? & ? & _); [apply lookup_insert_eq|].
  pose proof (hk_base _ _ _ H). rewrite (proj2 (Z.eqb_neq _ _)) by lia. replace (a + 8 - 8) with a by lia. split_and!; [done..|lia].
Qed.

Lemma none_fits_in R n : none_fits R n -> forall b m, (b, m) ∈ R -> m < n.
Proof. intros Hno b m [i Hi]%list_elem_of_lookup_1. by apply (Hno (S i) b m). Qed.

Lemma malloc_search s R A n fuel (Q : Z -> heap -> Prop) : heap_ok s R A -> 1 <= n -> 8 * chunk n < 2147483648 -> (2 * length R + 5 <= fuel)%nat ->
  (forall r s' R', malloced s R A n r s' R' -> Q r s') -> wp (q ← hptr (u_freep s); malloc_loop fuel n (u_freep s) q) Q s.
Proof.
  intros H Hn Hc Hf HQ. destruct (hk_freep _ _ _ H) as [nf [i0 Hi0]%list_elem_of_lookup_1].
  eapply (scan s R A n H Hn i0 nf Hi0 Q) with (g := (length R + 3)%nat); [| |lia].
  { intros F1 prevp np p ps F2 E Hfit. eapply malloc_take_ok; [exact H|lia|exact E|]. intros a s' R' T. eapply HQ. by apply malloced_take. }
  intros Hno fuel' Hf'. apply wp_bind. eapply morecore_ok; [exact H|done|done|..].
  - intros Hs. apply wp_ret, (HQ 0 s R). split; [done|]. cbn [Z.eqb]. split_and!; [done..|]. split; [by apply none_fits_in|done].
  - intros s1 R1 (G1 & G2 & G3 & G4 & (b & m & Hb & Hm) & G6). destruct (hk_freep _ _ _ G1) as [nf1 Hfp1]. pose proof (hk_base _ _ _ G1) as B1.
    assert (u_freep s1 <> 0) as Hne.
    { apply elem_of_cons in Hfp1 as [[= -> ->]|Hin]; [lia|]. destruct (gaps_in _ _ _ _ (hk_gaps _ _ _ G1) Hin). lia. }
    rewrite (proj2 (Z.eqb_neq _ _)) by done. apply list_elem_of_lookup_1 in Hfp1 as [i1 Hi1].
    eapply (scan s1 R1 A n G1 Hn i1 nf1 Hi1 Q) with (g := 0%nat); [| |lia].
    + intros F1 prevp np p ps F2 E Hfit. eapply malloc_take_ok; [exact G1|lia|exact E|]. intros a s' R' T. apply (HQ _ s' R').
      destruct (malloced_take _ _ _ _ _ _ _ G1 T) as [M1 M2]. destruct T as (T1 & _ & _ & T4 & T5 & _).
      destruct (hk_alloc _ _ _ T1 a n) as (? & ? & _); [apply lookup_insert_eq|]. rewrite (proj2 (Z.eqb_neq _ _)) in M2 by lia.
      split; [intros c l x Hcl Hx; by rewrite (M1 c l), (G6 c l)|]. rewrite (proj2 (Z.eqb_neq _ _)) by lia.
      destruct M2 as (M2 & M3 & M4). split_and!; [done..|lia].
    + intros Hno1. pose proof (none_fits_in R1 n Hno1 b m Hb). lia.
Qed.

Lemma malloc_ok s R A nbytes (Q : Z -> heap -> Prop) : heap_inv s R A -> 0 <= nbytes <= 2147483632 - 8 ->
  (forall r s' R', malloced s R A (nunits nbytes) r s' R' -> Q r s') -> wp (malloc base nbytes) Q s.
Proof.
  intros Hinv Hnb HQ. set (n := nunits nbytes) in *. pose proof (Z.div_mod (nbytes + 7) 8 ltac:(done)) as Hdm. pose proof (Z.mod_pos_bound (nbytes + 7) 8 eq_refl) as Hmb.
  assert (n = (nbytes + 7) / 8 + 1) as En.
  { unfold n, nunits, HDR. rewrite (u32_id (nbytes + 8 - 1)) by lia. replace (nbytes + 8 - 1) with (nbytes + 7) by lia. rewrite u32_id; lia. }
  assert (1 <= n /\ 8 * chunk n < 2147483648) as [Hn Hc] by (unfold chunk; lia). unfold malloc. fold n. apply wp_bind, wp_get, wp_bind.
  assert (forall s0 R0 A0, heap_ok s0 R0 A0 -> (forall r s' R', malloced s0 R0 A0 n r s' R' -> Q r s') ->
    wp (p ← hptr (u_freep s0); s ← get; malloc_loop (S (2 * list_fuel s)) n (u_freep s0) p) Q s0) as Hgo.
  { intros s0 R0 A0 H HQ0. pose proof (hk_length _ _ _ H). pose proof (hk_base _ _ _ H).
    apply (malloc_search s0 R0 A0 n (S (2 * list_fuel s0))); [done..| |done]. unfold list_fuel. lia. }
  destruct Hinv as [H|(H1 & -> & -> & H2 & H3 & H4)].
  - pose proof (hk_base _ _ _ H). destruct (hk_freep _ _ _ H) as [nf Hf]. assert (u_freep s <> 0) as Hne.
    { apply elem_of_cons in Hf as [[= -> ->]|Hin]; [lia|]. destruct (gaps_in _ _ _ _ (hk_gaps _ _ _ H) Hin). lia. }
    rewrite (proj2 (Z.eqb_neq _ _)) by done. apply wp_ret. by apply (Hgo s R A).
  - rewrite H1. cbn [Z.eqb]. apply wp_bind, wp_modify. apply wp_bind, wp_modify. apply wp_bind, wp_modify, wp_ret. unfold set_umem. cbn [u_mem u_brk u_freep].
    apply (Hgo (mkHeap (store32 (store32 (u_mem s) base base) (base + 4) 0) base (u_brk s)) [] ∅); [by apply heap_init|]. intros r s' R' [M1 M2]. eapply HQ. split; [intros b m x; by rewrite lookup_empty|exact M2].
Qed.
End proofs.

(** ** Clients *)

Section clients.
Context `{SB : !Sbrk}.
Context (base : Z).

(** A program and its memory: the blocks [A] it holds, and what it last wrote into them, [W]. *)
Record program := mkProg { p_heap : heap; p_held : gmap Z Z; p_wrote : gmap Z Z }.

(** The payload of a block. *)
Definition payload (a n x : Z) : Prop := a + 8 <= x < a + 8 * n.

(** What a program may do: call [malloc], [free] a block it holds (and lose what it wrote there), store into a block it holds. *)
Inductive client : program -> program -> Prop :=
  | client_malloc s A W nbytes r s' : 0 <= nbytes <= 2147483632 - 8 -> malloc base nbytes s = Ok r s' -> r <> 0 ->
      client (mkProg s A W) (mkProg s' (<[r - 8 := nunits nbytes]> A) W)
  | client_no_memory s A W nbytes s' : 0 <= nbytes <= 2147483632 - 8 -> malloc base nbytes s = Ok 0 s' -> client (mkProg s A W) (mkProg s' A W)
  | client_free s A W p n s' : A !! (p - 8) = Some n -> free p s = Ok tt s' ->
      client (mkProg s A W) (mkProg s' (delete (p - 8) A) (filter (fun w => ~ payload (p - 8) n w.1) W))
  | client_store s A W a n x b : A !! a = Some n -> payload a n x -> is_byte b ->
      client (mkProg s A W) (mkProg (set_umem (store (u_mem s) x b) s) A (<[x := b]> W)).

Lemma malloc_post s R A nbytes : heap_inv base s R A -> 0 <= nbytes <= 2147483632 - 8 ->
  wp (malloc base nbytes) (fun r s' => exists R', malloced base s R A (nunits nbytes) r s' R') s.
Proof. intros Hi Hn. eapply malloc_ok; [done..|]. intros r s' R' M. by exists R'. Qed.

Lemma free_post s R A p n : heap_inv base s R A -> A !! (p - 8) = Some n ->
  wp (free p) (fun _ s' => exists R', freed base s R A (p - 8) n s' R') s.
Proof.
  intros [H|(_ & _ & -> & _)] Hp; [|by rewrite lookup_empty in Hp]. replace p with (p - 8 + 8) at 1 by lia.
  eapply free_ok; [done..|]. intros s' R' F. by exists R'.
Qed.

Definition held_units (A : gmap Z Z) : Z := total (map_to_list A).

Lemma total_perm F F' : F ≡ₚ F' -> total F = total F'.
Proof. unfold total. induction 1; cbn; lia. Qed.

Lemma held_insert A a n : A !! a = None -> held_units (<[a := n]> A) = n + held_units A.
Proof. intros Ha. unfold held_units. by rewrite (total_perm _ _ (map_to_list_insert A a n Ha)). Qed.

Lemma held_delete A a n : A !! a = Some n -> held_units A = n + held_units (delete a A).
Proof. intros Ha. rewrite <- (insert_delete_id A a n) at 1 by done. apply held_insert, lookup_delete_eq. Qed.

(** Storing into the payload of a block. *)
Lemma heap_store s R A a n x b : heap_ok base s R A -> A !! a = Some n -> a + 8 <= x < a + 8 * n -> is_byte b ->
  heap_ok base (set_umem (store (u_mem s) x b) s) R A.
Proof.
  intros H Ha Hx Hb. pose proof (hk_alloc _ _ _ _ H _ _ Ha) as (A1 & A2 & A3 & A4).
  assert (forall a' n', A !! a' = Some n' -> load32 (store (u_mem s) x b) (a' + 4) = n') as HA.
  { intros a' n' Ha'. destruct (hk_alloc _ _ _ _ H _ _ Ha') as (B1 & B2 & B3 & <-). apply load32_ext. intros i Hi. apply store_ne.
    destruct (decide (a' = a)) as [->|Hne]; [lia|]. destruct (hk_disj _ _ _ _ H _ _ _ _ Ha Ha' ltac:(done)); lia. }
  pose proof H as [H1 H2 H3 H4 H5 H6 H7 H8 H9]. split; cbn [set_umem u_mem u_freep u_brk]; try done.
  - intros y. unfold store. destruct (y =? x); [done|apply H1].
  - eapply ring_ext; [|exact H3]. intros c k y Hc Hy. apply store_ne. pose proof (node_apart base s R A c k a n H Hc Ha). lia.
  - intros a' n' Ha'. destruct (H7 _ _ Ha') as (? & ? & ? & _). split_and!; [done..|by apply HA].
Qed.

(** Everything written is still there, in a block that is held. *)
Definition wrote_ok (m : mem) (A W : gmap Z Z) : Prop := forall x b, W !! x = Some b -> m x = b /\ exists a n, A !! a = Some n /\ payload a n x.

(** The invariant of a run, with the units accounted for from the break [b0] on. *)
Definition run_inv (b0 : Z) (st : program) : Prop :=
  (exists R, heap_inv base (p_heap st) R (p_held st) /\ u_brk (p_heap st) - b0 = 8 * (total R + held_units (p_held st))) /\
  wrote_ok (u_mem (p_heap st)) (p_held st) (p_wrote st).

Lemma wrote_malloc m m' A W a n : (forall b k x, A !! b = Some k -> inside x b k -> m' x = m x) -> A !! a = None -> wrote_ok m A W -> wrote_ok m' (<[a := n]> A) W.
Proof.
  intros Hm Ha H x b Hx. destruct (H x b Hx) as (<- & c & k & Hc & Hin). split; [apply (Hm c k); [done|unfold inside, payload in *; lia]|].
  exists c, k. split; [|done]. rewrite lookup_insert_ne; [done|congruence].
Qed.

Lemma wrote_kept m m' A W : (forall b k x, A !! b = Some k -> inside x b k -> m' x = m x) -> wrote_ok m A W -> wrote_ok m' A W.
Proof. intros Hm H x b Hx. destruct (H x b Hx) as (<- & c & k & Hc & Hin). split; [apply (Hm c k); [done|unfold inside, payload in *; lia]|eauto]. Qed.

Lemma wrote_free m m' A W a n : (forall b k x, b <> a -> A !! b = Some k -> inside x b k -> m' x = m x) -> A !! a = Some n -> wrote_ok m A W ->
  wrote_ok m' (delete a A) (filter (fun w => ~ payload a n w.1) W).
Proof.
  intros Hm Ha H x b [Hx Hn]%map_lookup_filter_Some. destruct (H x b Hx) as (<- & c & k & Hc & Hin). cbn [fst] in Hn. assert (c <> a) as Hne by (intros ->; congruence).
  split; [apply (Hm c k); [done..|unfold inside, payload in *; lia]|]. exists c, k. by rewrite lookup_delete_ne.
Qed.

Lemma wrote_store m A W a n x b : A !! a = Some n -> payload a n x -> wrote_ok m A W -> wrote_ok (store m x b) A (<[x := b]> W).
Proof.
  intros Ha Hx H y c. rewrite lookup_insert_Some. intros [[-> ->]|[Hne Hy]].
  - split; [apply store_eq|eauto].
  - rewrite store_ne by done. by apply H.
Qed.

Lemma client_inv b0 st st' : client st st' -> run_inv b0 st -> run_inv b0 st'.
Proof.
  intros Hst ((R & Hi & Hc) & Hw). destruct Hst as [s A W nbytes r s' Hnb E Hr|s A W nbytes s' Hnb E|s A W p n s' Hp E|s A W a n x b Ha Hx Hb]; unfold run_inv; cbn [p_heap p_held p_wrote] in *.
  - destruct (wp_run _ _ _ _ _ (malloc_post s R A nbytes Hi Hnb) E) as (R' & M0 & M).
    rewrite (proj2 (Z.eqb_neq _ _)) in M by done. destruct M as (M1 & M2 & M3). split; [|by eapply wrote_malloc]. exists R'. split; [by left|]. rewrite held_insert by done. lia.
  - destruct (wp_run _ _ _ _ _ (malloc_post s R A nbytes Hi Hnb) E) as (R' & M0 & M).
    cbn [Z.eqb] in M. destruct M as (M1 & -> & M3 & _). split; [|by eapply wrote_kept]. exists R. split; [by left|]. lia.
  - destruct (wp_run _ _ _ _ _ (free_post s R A p n Hi Hp) E) as (R' & F1 & F2 & _ & F4 & _ & F6). split; [|by eapply wrote_free]. exists R'. split; [by left|]. rewrite (held_delete A _ _ Hp) in Hc. lia.
  - destruct Hi as [H|(_ & _ & -> & _)]; [|by rewrite lookup_empty in Ha]. split; [|by eapply wrote_store]. exists R. split; [left; by eapply heap_store|done].
Qed.

Lemma client_run b0 st st' : rtc client st st' -> run_inv b0 st -> run_inv b0 st'.
Proof. induction 1; [done|]. intros Hi. eauto using client_inv. Qed.

(** C13 [malloc] always returns. It returns 0 only when no free block is large enough
    and [sbrk] gives no memory, and then nothing has changed; otherwise it returns a
    block that nobody holds, of at least the size asked for, apart from
    every block held; the list stays sorted, circular and coalesced, and no unit is lost: what the
    free list and the new block gained is what the break moved by. No block
    that is held changes. *)
Theorem malloc_spec s R A nbytes : heap_inv base s R A -> 0 <= nbytes <= 2147483632 - 8 ->
  wp (malloc base nbytes) (fun r s' => exists R',
    (forall b m x, A !! b = Some m -> inside x b m -> u_mem s' x = u_mem s x) /\
    if r =? 0 then heap_ok base s' R' A /\ R' = R /\ u_brk s' = u_brk s /\ no_memory R (nunits nbytes) s'
    else nbytes <= 8 * (nunits nbytes - 1) /\ A !! (r - 8) = None /\ heap_ok base s' R' (<[r - 8 := nunits nbytes]> A) /\
      u_brk s' - u_brk s = 8 * (total R' + nunits nbytes - total R)) s.
Proof.
  intros Hi Hn. eapply malloc_ok; [done..|]. intros r s' R' [M1 M2]. exists R'. split; [done|]. destruct (r =? 0); [done|]. split; [|done].
  unfold nunits, HDR. rewrite (u32_id (nbytes + 8 - 1)) by lia. pose proof (Z.div_mod (nbytes + 8 - 1) 8 ltac:(done)).
  pose proof (Z.mod_pos_bound (nbytes + 8 - 1) 8 eq_refl). rewrite u32_id; lia.
Qed.

(** C16 A program that starts with no memory and then calls [malloc], frees blocks
    it holds and stores into them, in any order and number, never makes the allocator hang or
    panic, and holds blocks that lie in its memory, never overlap each other or
    a free block, and keep what it wrote into them; everything obtained from [sbrk] is either held or on the free list, the one that
    [freep] and the headers in memory make up. *)
Theorem umalloc_safe s0 s A W :
  u_freep s0 = 0 -> bytes_mem (u_mem s0) -> 0 < base -> base + 8 <= u_brk s0 <= KERNBASE -> rtc client (mkProg s0 ∅ ∅) (mkProg s A W) ->
  (forall nbytes, 0 <= nbytes <= 2147483632 - 8 -> exists r s', malloc base nbytes s = Ok r s') /\
  (forall p n, A !! (p - 8) = Some n -> exists s', free p s = Ok tt s') /\
  (forall a n, A !! a = Some n -> 1 <= n /\ base + 8 <= a /\ a + 8 * n <= u_brk s) /\
  (forall a n b m, A !! a = Some n -> A !! b = Some m -> a <> b -> disj a n b m) /\
  (forall x b, W !! x = Some b -> u_mem s x = b) /\
  exists R, (if u_freep s =? 0 then R = [] else chain (u_mem s) ((base, 0) :: R) base /\ exists n, (u_freep s, n) ∈ (base, 0) :: R) /\
    u_brk s - u_brk s0 = 8 * (total R + held_units A) /\ forall a n b m, A !! a = Some n -> (b, m) ∈ R -> disj a n b m.
Proof.
  intros H1 H2 H3 H4 Hrun. destruct (client_run (u_brk s0) _ _ Hrun) as ((R & Hi & Hc) & Hw).
  { split; [|done]. exists []. split; [by right|]. cbn [p_heap p_held]. unfold held_units. rewrite map_to_list_empty. cbn. lia. }
  cbn [p_heap p_held p_wrote] in *. split_and!.
  - intros nbytes Hn. destruct (wp_returns _ _ _ (malloc_post s R A nbytes Hi Hn)) as (r & s' & E & _). by exists r, s'.
  - intros p n Hp. destruct (wp_returns _ _ _ (free_post s R A p n Hi Hp)) as ([] & s' & E & _). by exists s'.
  - intros a n Ha. destruct Hi as [H|(_ & _ & -> & _)]; [|by rewrite lookup_empty in Ha]. destruct (hk_alloc _ _ _ _ H _ _ Ha) as (? & ? & ? & _). done.
  - intros a n b m Ha. destruct Hi as [H|(_ & _ & -> & _)]; [|by rewrite lookup_empty in Ha]. by apply (hk_disj _ _ _ _ H).
  - intros x b Hx. by apply (Hw x b).
  - exists R. destruct Hi as [H|(E0 & E1 & -> & _)]; [|rewrite E0; split_and!; [done..|by intros a n b m; rewrite lookup_empty]].
    split_and!; [|done|by apply (hk_apart _ _ _ _ H)]. destruct (hk_freep _ _ _ _ H) as [n Hn]. rewrite (proj2 (Z.eqb_neq _ _)); [split; [apply (hk_chain _ _ _ _ H)|by exists n]|].
    apply elem_of_cons in Hn as [[= -> _]|Hn]; [lia|]. pose proof (gaps_in _ _ _ _ (hk_gaps _ _ _ _ H) Hn). lia.
Qed.
End clients.

(** A kernel that always has memory, up to [KERNBASE]. *)
Definition sbrk_plenty (n : Z) : M heap Z := fun s =>
  if u_brk s + n <=? KERNBASE then Ok (u_brk s) (mkHeap (fun x => if x <? u_brk s then u_mem s x else 0) (u_freep s) (u_brk s + n))
  else Ok 4294967295 s.

Lemma sbrk_plenty_law n s : 0 <= n < 2147483648 ->
  sbrk_plenty n s = Ok 4294967295 s \/
  exists m, sbrk_plenty n s = Ok (u_brk s) (mkHeap m (u_freep s) (u_brk s + n)) /\ u_brk s + n <= KERNBASE /\
    (bytes_mem (u_mem s) -> bytes_mem m) /\ forall x, x < u_brk s -> m x = u_mem s x.
Proof.
  intros Hn. unfold sbrk_plenty. destruct (Z.leb_spec (u_brk s + n) KERNBASE) as [Hle|]; [|by left]. right.
  exists (fun x => if x <? u_brk s then u_mem s x else 0). split; [done|]. split; [done|]. split.
  - intros Hb x. destruct (x <? u_brk s); [apply Hb|lia].
  - intros x Hx. by rewrite (proj2 (Z.ltb_lt _ _)).
Qed.
#[export] Instance plenty : Sbrk := {| sbrk := sbrk_plenty; sbrk_law := sbrk_plenty_law |}.

(** A program with its data at 4096 and its break at 8192. *)
Definition heap0 : heap := mkHeap (fun _ => 0) 0 8192.

Lemma heap0_inv : heap_inv 4096 heap0 [] ∅.
Proof. right. unfold KERNBASE. cbn. split_and!; [done..| |lia|lia|lia]. intros x. cbn. lia. Qed.

Lemma malloc_spec_witness :
  wp (malloc 4096 100) (fun r s' => exists R', if r =? 0 then u_brk s' = 8192 else heap_ok 4096 s' R' {[r - 8 := 14]}) heap0.
Proof.
  eapply wp_mono; [apply (malloc_spec 4096 heap0 [] ∅ 100 heap0_inv); lia|].
  intros r s' (R' & _ & M). exists R'. destruct (r =? 0); [apply M|]. destruct M as (_ & _ & M & _). exact M.
Defined.

(** A program that holds two blocks, has written into the first, and frees the second. *)
Definition demo_run : option (heap * heap * heap) :=
  match malloc 4096 100 heap0 with
  | Ok p s => match malloc 4096 50 (set_umem (store (u_mem s) p 7) s) with Ok q s2 => match free q s2 with Ok _ s3 => if decide (p = 40856 /\ q = 40792) then Some (s, s2, s3) else None | _ => None end | _ => None end
  | _ => None
  end.

Lemma umalloc_safe_witness :
  match demo_run with Some (_, _, s3) => u_mem s3 40856 = 7 /\ (exists r s', malloc 4096 8 s3 = Ok r s') /\ exists s', free 40856 s3 = Ok tt s' | None => False end.
Proof.
  assert (match demo_run with Some _ => true | None => false end = true) as Hp by (vm_compute; reflexivity). unfold demo_run in *.
  destruct (malloc 4096 100 heap0) as [p s| | | |] eqn:E1; [|discriminate Hp..]. destruct (malloc 4096 50 _) as [q s2| | | |] eqn:E2; [|discriminate Hp..].
  destruct (free q s2) as [[] s3| | | |] eqn:E3; [|discriminate Hp..]. case_decide as Hpq; [|discriminate Hp]. destruct Hpq as [-> ->].
  destruct (umalloc_safe 4096 heap0 s3 {[40848 := 14]} {[40856 := 7]}) as (Hmalloc & Hfree & _ & _ & Hw & _).
  - done.
  - intros x. cbn. lia.
  - done.
  - unfold KERNBASE. cbn. lia.
  - eapply rtc_l; [apply (client_malloc 4096 heap0 ∅ ∅ 100 40856 s); [lia|exact E1|done]|].
    eapply rtc_l; [apply (client_store 4096 s _ ∅ 40848 14 40856 7); [apply lookup_insert_eq|unfold payload; lia|unfold is_byte; lia]|].
    eapply rtc_l; [apply (client_malloc 4096 _ _ _ 50 40792 s2); [lia|exact E2|done]|].
    apply rtc_once. assert ({[40848 := 14]} = delete (40792 - 8) (<[40792 - 8 := nunits 50]> (<[40856 - 8 := nunits 100]> ∅) : gmap Z Z)) as -> by (vm_compute; reflexivity).
    assert ({[40856 := 7]} = filter (fun w => ~ payload (40792 - 8) (nunits 50) w.1) (<[40856 := 7]> ∅ : gmap Z Z)) as ->.
    { rewrite map_filter_insert_True; [by rewrite map_filter_empty|]. unfold payload. vm_compute. intros [H1 H2]. by apply H1. }
    apply client_free; [apply lookup_insert_eq|exact E3].
  - split_and!; [by apply (Hw 40856)|apply Hmalloc; lia|by apply (Hfree 40856 14)].
Defined.

(** The count of units wraps around: a request for almost 4 GB is served with a
    block that has no room at all. *)
Example malloc_wraps : match malloc 4096 4294967289 heap0 with Ok p s => p <> 0 /\ load32 (u_mem s) (p - 4) = 1 | _ => False end.
Proof. vm_compute. split; [congruence|reflexivity]. Qed.
