(* ===== verification/Shrun.v ===== *)
(** * [sh.c]: running commands.

    What a shell process does, as the tree of system calls that matter: the
    processes it forks, what each of them executes, with which file descriptors, and
    what it says on descriptor 2. The theorem shows that the closing and duplicating of descriptors in
    [runcmd] connects the programs of a command as the command says and leaves no other descriptor open. *)

From Stdlib Require Import String.
From stdpp Require Import sets.
From S2P Require Import Prelude CString Params Sh Ulib.
Local Open Scope Z_scope.

(** ** Descriptors *)

(** What a descriptor refers to; pipes are numbered. *)
Inductive obj := OpenFile (file : list Z) (mode : Z) | PipeR (n : nat) | PipeW (n : nat).

(** [p->ofile] of the process. *)
Definition fdtab : Type := list (option obj).

Definition close (fd : nat) (fds : fdtab) : fdtab := <[fd := None]> fds.

(** The lowest free descriptor. *)
Definition fdfree (fds : fdtab) : option nat := fst <$> list_find (fun o => o = None) fds.
Definition fdput (o : obj) (fds : fdtab) : option (nat * fdtab) := (fun fd => (fd, <[fd := Some o]> fds)) <$> fdfree fds.

Definition dup (fd : nat) (fds : fdtab) : fdtab :=
  match fds !! fd with
  | Some (Some o) => match fdput o fds with Some (_, fds') => fds' | None => fds end
  | _ => fds
  end.

(** ** Processes *)

(** A process with what it does next. One that waits keeps its descriptors open meanwhile: a pipe end among them would keep the other end of the pipe waiting. *)
Inductive run :=
| Exit
| Become (argv : list (list Z)) (fds : fdtab)
| Say (err : option obj) (msg : list Z) (r : run)
| Chdir (dir : list Z) (r : run)
| Fork (child parent : run)
| Wait (fds : fdtab) (r : run).

(** Which calls succeed. The pipes and forks are numbered in the order in which they are asked for. *)
Class Kernel := {
  can_exec : list (list Z) -> bool;
  can_open : list Z -> Z -> bool;
  can_chdir : list Z -> bool;
  can_fork : nat -> bool;
  can_pipe : nat -> bool;
}.

(** How many pipes and processes there have been. *)
Record counts := mkCounts { n_pipe : nat; n_fork : nat }.
Definition next_pipe (k : counts) : counts := mkCounts (S (n_pipe k)) (n_fork k).
Definition next_fork (k : counts) : counts := mkCounts (n_pipe k) (S (n_fork k)).

Section shell.
Context `{!Kernel}.

(** [printf(2, ...)]. *)
Definition say (fds : fdtab) (msg : list Z) (r : run) : run := Say (mjoin (fds !! 2%nat)) msg r.
Definition panic (fds : fdtab) (s : list Z) : run := say fds (s ++ [10]) Exit.

Definition open (file : list Z) (mode : Z) (fds : fdtab) : option (nat * fdtab) :=
  if can_open file mode then fdput (OpenFile file mode) fds else None.

Definition pipe (k : counts) (fds : fdtab) : option (nat * nat * fdtab) :=
  if can_pipe (n_pipe k) then
    '(p0, fds) ← fdput (PipeR (n_pipe k)) fds;
    '(p1, fds) ← fdput (PipeW (n_pipe k)) fds;
    Some (p0, p1, fds)
  else None.

(** [if(fork1() == 0) child; parent]. *)
Definition fork1 (fds : fdtab) (child : counts -> run * counts) (parent : counts -> run * counts) (k : counts) : run * counts :=
  if can_fork (n_fork k) then
    let '(c, k) := child (next_fork k) in
    let '(p, k) := parent k in
    (Fork c p, k)
  else (panic fds (str "fork"), next_fork k).

Fixpoint runcmd (c : cmd (list Z)) (fds : fdtab) (k : counts) : run * counts :=
  match c with
  | Exec [] => (Exit, k)
  | Exec (a :: argv) =>
      if can_exec (a :: argv) then (Become (a :: argv) fds, k)
      else (say fds (str "exec " ++ a ++ str " failed" ++ [10]) Exit, k)
  | Redir c' file mode fd =>
      let fds := close (Z.to_nat fd) fds in
      match open file mode fds with
      | None => (say fds (str "open " ++ file ++ str " failed" ++ [10]) Exit, k)
      | Some (_, fds) => runcmd c' fds k
      end
  | List l r =>
      fork1 fds (runcmd l fds) (fun k => let '(p, k) := runcmd r fds k in (Wait fds p, k)) k
  | Pipe l r =>
      match pipe k fds with
      | None => (panic fds (str "pipe"), next_pipe k)
      | Some (p0, p1, fds) =>
          fork1 fds
            (let fds := close 1 fds in
             let fds := dup p1 fds in
             let fds := close p0 fds in
             let fds := close p1 fds in
             runcmd l fds)
            (fork1 fds
              (let fds := close 0 fds in
               let fds := dup p0 fds in
               let fds := close p0 fds in
               let fds := close p1 fds in
               runcmd r fds)
              (fun k => let fds := close p0 fds in let fds := close p1 fds in (Wait fds (Wait fds Exit), k)))
            (next_pipe k)
      end
  | Back c' => fork1 fds (runcmd c' fds) (fun k => (Exit, k)) k
  end.

(** [getcmd] on the input: the buffer, and the rest. *)
Definition getcmd (input : list Z) : list Z * list Z := gets 100 input.

(** The child that [main] forks for a line. *)
Definition run_line (buf : list Z) (fds : fdtab) (k : counts) : run * counts :=
  match parsecmd buf with
  | Ok (c, buf) _ => runcmd (cmd_map (fun a => cstr (drop a.1 buf)) c) fds k
  | Panic msg => (panic fds (str msg), k)
  | _ => (Exit, k)
  end.

(** [while((fd = open("console", O_RDWR)) >= 0)]. *)
Fixpoint open_console (fuel : nat) (fds : fdtab) : fdtab :=
  match fuel with
  | O => fds
  | S fuel' =>
      match open (str "console") O_RDWR fds with
      | None => fds
      | Some (fd, fds) => if (3 <=? fd)%nat then close fd fds else open_console fuel' fds
      end
  end.

Definition is_cd (buf : list Z) : bool := (nth 0 buf 0 =? 99) && (nth 1 buf 0 =? 100) && (nth 2 buf 0 =? 32).

Fixpoint main_loop (fuel : nat) (input : list Z) (fds : fdtab) (k : counts) : run * counts :=
  match fuel with
  | O => (Exit, k)
  | S fuel' =>
      let '(buf, input) := getcmd input in
      let '(r, k) :=
        if nth 0 buf 0 =? 0 then (Exit, k)
        else if is_cd buf then
          let dir := cstr (drop 3 (<[(length (cstr buf) - 1)%nat := 0]> buf)) in
          let '(r, k) := main_loop fuel' input fds k in
          (Chdir dir (if can_chdir dir then r else say fds (str "cannot cd " ++ dir ++ [10]) r), k)
        else
          fork1 fds (run_line buf fds) (fun k => let '(p, k) := main_loop fuel' input fds k in (Wait fds p, k)) k in
      (say fds (str "$ ") r, k)
  end.

(** Every line takes at least one byte of the input, and a process has at most [NOFILE] descriptors. *)
Definition main (input : list Z) (fds : fdtab) (k : counts) : run :=
  (main_loop (S (length input)) input (open_console (Z.to_nat NOFILE) fds) k).1.
End shell.

(** ** What a command means *)

(** A process with the three standard descriptors and no other. *)
Definition std (i o e : obj) : fdtab := [Some i; Some o; Some e] ++ replicate 13 None.

(** The parser makes redirections of descriptors 0 and 1 only. *)
Fixpoint redirs_ok {A} (c : cmd A) : Prop :=
  match c with
  | Exec _ => True
  | Redir c' _ _ fd => redirs_ok c' /\ (fd = 0 \/ fd = 1)
  | Pipe l r | List l r => redirs_ok l /\ redirs_ok r
  | Back c' => redirs_ok c'
  end.

Section meaning.
Context `{!Kernel}.

Definition den_fork (e : obj) (child parent : counts -> run * counts) (k : counts) : run * counts :=
  if can_fork (n_fork k) then
    let '(c, k) := child (next_fork k) in
    let '(p, k) := parent k in
    (Fork c p, k)
  else (Say (Some e) (str "fork" ++ [10]) Exit, next_fork k).

(** The command with input [i], output [o] and errors to [e]. *)
Fixpoint den (c : cmd (list Z)) (i o e : obj) (k : counts) : run * counts :=
  match c with
  | Exec [] => (Exit, k)
  | Exec (a :: argv) =>
      if can_exec (a :: argv) then (Become (a :: argv) (std i o e), k)
      else (Say (Some e) (str "exec " ++ a ++ str " failed" ++ [10]) Exit, k)
  | Redir c' file mode fd =>
      if can_open file mode then
        if fd =? 0 then den c' (OpenFile file mode) o e k else den c' i (OpenFile file mode) e k
      else (Say (Some e) (str "open " ++ file ++ str " failed" ++ [10]) Exit, k)
  | List l r => den_fork e (den l i o e) (fun k => let '(p, k) := den r i o e k in (Wait (std i o e) p, k)) k
  | Pipe l r =>
      if can_pipe (n_pipe k) then
        den_fork e (den l i (PipeW (n_pipe k)) e)
          (den_fork e (den r (PipeR (n_pipe k)) o e) (fun k => (Wait (std i o e) (Wait (std i o e) Exit), k))) (next_pipe k)
      else (Say (Some e) (str "pipe" ++ [10]) Exit, next_pipe k)
  | Back c' => den_fork e (den c' i o e) (fun k => (Exit, k)) k
  end.

Lemma den_fork_ext e f g f' g' k : (forall k, f k = f' k) -> (forall k, g k = g' k) -> den_fork e f g k = den_fork e f' g' k.
Proof. intros Hf Hg. unfold den_fork. destruct (can_fork _); [|done]. rewrite Hf. destruct (f' _) as [r k']. by rewrite Hg. Qed.

Lemma fork1_std i o e f g k : fork1 (std i o e) f g k = den_fork e f g k.
Proof. done. Qed.

Lemma runcmd_den c : forall i o e k, redirs_ok c -> runcmd c (std i o e) k = den c i o e k.
Proof.
  induction c as [argv|c IH file mode fd|l IHl r IHr|l IHl r IHr|c IH]; intros i o e k Hc; cbn [redirs_ok] in Hc; cbn [runcmd den].
  - destruct argv as [|a argv]; [done|]. by destruct (can_exec _).
  - destruct Hc as [Hc [->| ->]]; unfold open; destruct (can_open file mode); try done; cbn; apply (IH _ _ _ _ Hc).
  - destruct Hc as [Hl Hr]. unfold pipe. destruct (can_pipe (n_pipe k)); [|done].
    change (den_fork e (runcmd l (std i (PipeW (n_pipe k)) e)) (den_fork e (runcmd r (std (PipeR (n_pipe k)) o e)) (fun k => (Wait (std i o e) (Wait (std i o e) Exit), k))) (next_pipe k) =
      den_fork e (den l i (PipeW (n_pipe k)) e) (den_fork e (den r (PipeR (n_pipe k)) o e) (fun k => (Wait (std i o e) (Wait (std i o e) Exit), k))) (next_pipe k)).
    apply den_fork_ext; intros k'; [by apply IHl|]. apply den_fork_ext; intros k2; [by apply IHr|done].
  - destruct Hc as [Hl Hr]. rewrite fork1_std. apply den_fork_ext; intros k'; [by apply IHl|]. by rewrite IHr.
  - rewrite fork1_std. apply den_fork_ext; intros k'; [by apply IH|done].
Qed.
End meaning.

(** ** Every parsed command has such redirections only *)

(** Whatever [m] returns satisfies [P]. *)
Definition rets {A} (m : M nat A) (P : A -> Prop) : Prop := forall s a s', m s = Ok a s' -> P a.

Lemma rets_bind {A B} (m : M nat A) (f : A -> M nat B) (P : A -> Prop) Q : rets m P -> (forall a, P a -> rets (f a) Q) -> rets (a ← m; f a) Q.
Proof.
  intros Hm Hf s b s' E. unfold mbind, M_bind in E. destruct (m s) as [a s1| | | |] eqn:Em; try done. eapply Hf; [by eapply Hm|exact E].
Qed.
Lemma rets_ret {A} (a : A) (P : A -> Prop) : P a -> rets (mret a) P.
Proof. intros H s b s' [= <- <-]. done. Qed.
Lemma rets_any {A} (m : M nat A) : rets m (fun _ => True).
Proof. done. Qed.
Lemma rets_none {A} msg (P : A -> Prop) : rets (Prelude.panic msg) P.
Proof. intros s a s' E. discriminate E. Qed.
Lemma rets_fuel {A} (P : A -> Prop) : rets outOfFuel P.
Proof. intros s a s' E. discriminate E. Qed.


Section parsed.
Context (s : list Z).

Lemma parseredirs_keeps fuel : forall c, redirs_ok c -> rets (parseredirs s fuel c) redirs_ok.
Proof.
  induction fuel as [|fuel IH]; intros c Hc; cbn [parseredirs]; [apply rets_fuel|].
  eapply rets_bind; [apply rets_any|intros b _]. destruct b; cbn [negb]; [|by apply rets_ret].
  eapply rets_bind; [apply rets_any|intros t _]. eapply rets_bind; [apply rets_any|intros [[w q] eq] _].
  destruct (negb _); [apply rets_none|]. repeat case_match; apply IH; cbn; auto.
Qed.

Lemma add_arg_ok c a : redirs_ok c -> redirs_ok (add_arg c a).
Proof. induction c as [argv|c IH f m d|l IHl r IHr|l IHl r IHr|c IH]; cbn; intros Hc; try done. destruct Hc. split; [by apply IH|done]. Qed.

Lemma args_loop_keeps fuel left : forall c, redirs_ok c -> rets (args_loop s fuel left c) redirs_ok.
Proof.
  induction left as [|left IH]; intros c Hc; cbn [args_loop]; (eapply rets_bind; [apply rets_any|intros b _]); (destruct b; [by apply rets_ret|]);
    (eapply rets_bind; [apply rets_any|intros [[tok q] eq] _]); (destruct (tok =? 0); [by apply rets_ret|]); (destruct (negb _); [apply rets_none|]); [apply rets_none|].
  destruct left as [|left]; [apply rets_none|]. eapply rets_bind; [by apply parseredirs_keeps, add_arg_ok|]. intros r Hr. by apply IH.
Qed.

Lemma amps_keeps fuel : forall c, redirs_ok c -> rets (amps s fuel c) redirs_ok.
Proof.
  induction fuel as [|fuel IH]; intros c Hc; cbn [amps]; [apply rets_fuel|]. eapply rets_bind; [apply rets_any|intros b _].
  destruct b; [|by apply rets_ret]. eapply rets_bind; [apply rets_any|intros _ _]. by apply IH.
Qed.

Lemma parse_functions_ok fuel :
  rets (parseline s fuel) redirs_ok /\ rets (parsepipe s fuel) redirs_ok /\ rets (parseexec s fuel) redirs_ok /\ rets (parseblock s fuel) redirs_ok.
Proof.
  induction fuel as [|fuel (IHl & IHp & IHe & IHb)]; [split_and!; apply rets_fuel|]. split_and!; cbn [parseline parsepipe parseexec parseblock].
  - eapply rets_bind; [exact IHp|intros c Hc]. eapply rets_bind; [by apply amps_keeps|intros c' Hc']. eapply rets_bind; [apply rets_any|intros b _].
    destruct b; [|by apply rets_ret]. eapply rets_bind; [apply rets_any|intros _ _]. eapply rets_bind; [exact IHl|intros r Hr]. by apply rets_ret.
  - eapply rets_bind; [exact IHe|intros c Hc]. eapply rets_bind; [apply rets_any|intros b _].
    destruct b; [|by apply rets_ret]. eapply rets_bind; [apply rets_any|intros _ _]. eapply rets_bind; [exact IHp|intros r Hr]. by apply rets_ret.
  - eapply rets_bind; [apply rets_any|intros b _]. destruct b; [exact IHb|]. eapply rets_bind; [by apply parseredirs_keeps|intros c Hc]. by apply args_loop_keeps.
  - eapply rets_bind; [apply rets_any|intros b _]. destruct (negb b); [apply rets_none|]. eapply rets_bind; [apply rets_any|intros _ _].
    eapply rets_bind; [exact IHl|intros c Hc]. eapply rets_bind; [apply rets_any|intros b' _]. destruct (negb b'); [apply rets_none|].
    eapply rets_bind; [apply rets_any|intros _ _]. by apply parseredirs_keeps.
Qed.
End parsed.

Lemma redirs_ok_map {A B} (f : A -> B) c : redirs_ok c -> redirs_ok (cmd_map f c).
Proof. induction c; cbn; tauto. Qed.

Lemma parsecmd_redirs buf c buf' p : parsecmd buf = Ok (c, buf') p -> redirs_ok c.
Proof.
  unfold parsecmd. destruct (parse (cstr buf) (parse_fuel (cstr buf)) O) as [c' p'| | | |] eqn:E; try done. intros [= <- _ _].
  assert (rets (parse (cstr buf) (parse_fuel (cstr buf))) redirs_ok) as H; [|by eapply H]. unfold parse.
  eapply rets_bind; [apply parse_functions_ok|intros c Hc]. eapply rets_bind; [apply rets_any|intros _ _]. eapply rets_bind; [apply rets_any|intros q _].
  destruct (negb _); [apply rets_none|by apply rets_ret].
Qed.

(** ** A session *)

Section session.
Context `{!Kernel}.

Definition line_meaning (buf : list Z) (i o e : obj) (k : counts) : run * counts :=
  match parsecmd buf with
  | Ok (c, buf) _ => den (cmd_map (fun a => cstr (drop a.1 buf)) c) i o e k
  | Panic msg => (Say (Some e) (str msg ++ [10]) Exit, k)
  | _ => (Exit, k)
  end.

(** Line after line: prompt, then a change of directory or a child that runs the command. *)
Fixpoint session (fuel : nat) (input : list Z) (i o e : obj) (k : counts) : run * counts :=
  match fuel with
  | O => (Exit, k)
  | S fuel' =>
      let '(buf, input) := gets 100 input in
      let '(r, k) :=
        if nth 0 buf 0 =? 0 then (Exit, k)
        else if is_cd buf then
          let dir := cstr (drop 3 (<[(length (cstr buf) - 1)%nat := 0]> buf)) in
          let '(r, k) := session fuel' input i o e k in
          (Chdir dir (if can_chdir dir then r else Say (Some e) (str "cannot cd " ++ dir ++ [10]) r), k)
        else den_fork e (line_meaning buf i o e) (fun k => let '(p, k) := session fuel' input i o e k in (Wait (std i o e) p, k)) k in
      (Say (Some e) (str "$ ") r, k)
  end.

Lemma run_line_meaning buf i o e k : run_line buf (std i o e) k = line_meaning buf i o e k.
Proof.
  unfold run_line, line_meaning. destruct (parsecmd buf) as [[c b] p|msg| | |] eqn:E; try done. apply runcmd_den, redirs_ok_map. by eapply parsecmd_redirs.
Qed.

Lemma main_loop_session fuel : forall input i o e k, main_loop fuel input (std i o e) k = session fuel input i o e k.
Proof.
  induction fuel as [|fuel IH]; intros input i o e k; cbn [main_loop session]; [done|]. unfold getcmd. destruct (gets 100 input) as [buf rest].
  destruct (nth 0 buf 0 =? 0); [done|]. destruct (is_cd buf).
  - rewrite IH. destruct (session fuel rest i o e k) as [r k']. by destruct (can_chdir _).
  - rewrite fork1_std, (den_fork_ext e _ _ (line_meaning buf i o e) (fun k => let '(p, k) := session fuel rest i o e k in (Wait (std i o e) p, k))); [done|apply run_line_meaning|].
    intros k'. by rewrite IH.
Qed.

Lemma gets_loop_le n : forall input, (length (gets_loop n input).2 + length (gets_loop n input).1 = length input)%nat.
Proof.
  induction n as [|n IH]; intros [|c input]; cbn; [done..|]. destruct (_ || _); cbn; [lia|]. specialize (IH input). destruct (gets_loop n input) as [l rest]. cbn in *. lia.
Qed.

(** A line takes input, so that the fuel of [main] is enough. *)
Lemma session_fuel fuel : forall fuel' input i o e k, (length input < fuel)%nat -> (length input < fuel')%nat ->
  session fuel input i o e k = session fuel' input i o e k.
Proof.
  induction fuel as [|fuel IH]; intros [|fuel'] input i o e k Hf Hf'; [lia..|]. cbn [session]. unfold gets. pose proof (gets_loop_le (Z.to_nat (100 - 1)) input) as Hle.
  destruct (gets_loop (Z.to_nat (100 - 1)) input) as [l rest]. cbn [fst snd] in Hle. destruct (nth 0 (l ++ [0]) 0 =? 0) eqn:E0; [done|].
  assert (length l <> 0%nat) as Hl by (destruct l; [done|cbn; lia]). destruct (is_cd _).
  - by rewrite (IH fuel' rest) by lia.
  - rewrite (den_fork_ext e _ _ (line_meaning (l ++ [0]) i o e) (fun k => let '(p, k) := session fuel' rest i o e k in (Wait (std i o e) p, k))); [done|done|].
    intros k'. by rewrite (IH fuel' rest) by lia.
Qed.

(** The descriptors 0 to 2 that are closed become the console. *)
Definition console : obj := OpenFile (str "console") O_RDWR.

Lemma open_console_std a b c : can_open (str "console") O_RDWR = true ->
  open_console (Z.to_nat NOFILE) ([a; b; c] ++ replicate 13 None) = std (default console a) (default console b) (default console c).
Proof.
  intros Ho. change (Z.to_nat NOFILE) with 16%nat.
  assert (forall n fds, open_console (S n) fds =
    match fdput console fds with None => fds | Some (fd, fds) => if (3 <=? fd)%nat then close fd fds else open_console n fds end) as Hstep.
  { intros n fds. cbn [open_console]. unfold open. by rewrite Ho. }
  revert Hstep. generalize console. intros x Hstep.
  destruct a as [a|], b as [b|], c as [c|]; cbn [app replicate]; repeat (rewrite Hstep;
    match goal with |- context [fdput ?y ?l] => let r := eval lazy in (fdput y l) in change (fdput y l) with r end; cbn [Nat.leb]); reflexivity.
Qed.

End session.

Definition all_ok : Kernel :=
  {| can_exec := fun _ => true; can_open := fun _ _ => true; can_chdir := fun _ => true; can_fork := fun _ => true; can_pipe := fun _ => true |}.

