(* ===== verification/Uprogs.v ===== *)
(** * Small user programs: [cat.c], [wc.c], [ls.c], [echo.c].

    A program is a function of its arguments and of what the system calls return; it
    gives what it writes. A descriptor that is read is the sequence of pieces that [read] returns, of any
    size, as a pipe or the console gives them; then [read] returns 0, or -1 when [bad]. *)

From Stdlib Require Import String.
From stdpp Require Import sets.
From S2P Require Import Prelude CString Params Fs Ulib Grep Sh.
Local Open Scope Z_scope.

Record stream := mkStream { pieces : list (list Z); bad : bool }.

Definition contents (f : stream) : list Z := concat (pieces f).

(** [printf] with its arguments on the stack. *)
Inductive arg := D (n : Z) | S_ (s : list Z).
Definition printf_to (fmt : list Z) (args : list arg) : list Z :=
  default []
    (printf (fun i => match args !! i with Some (D n) => n | Some (S_ _) => Z.of_nat (S i) | None => 0 end)
       (fun a => match args !! Nat.pred (Z.to_nat a) with Some (S_ s) => s | _ => [] end) fmt false 0).

(** What a program does next: go on with the output so far, or [exit]. *)
Inductive outcome := Go (out : list Z) | Quit (out : list Z).

Section programs.
(** [open(name, 0)], and what a [write] to descriptor 1 returns, given what was written before: the
    number of bytes it took, or -1. *)
Context (open : list Z -> option stream) (write1 : list Z -> list Z -> Z).

(** ** [cat] *)

Fixpoint cat_loop (l : list (list Z)) (bad : bool) (out : list Z) : outcome :=
  match l with
  | [] => if bad then Quit (out ++ printf_to (str "cat: read error" ++ [10]) []) else Go out
  | buf :: l' =>
      let n := write1 out buf in
      let out := out ++ take (Z.to_nat n) buf in
      if n =? Z.of_nat (length buf) then cat_loop l' bad out
      else Quit (out ++ printf_to (str "cat: write error" ++ [10]) [])
  end.
Definition cat (f : stream) (out : list Z) : outcome := cat_loop (pieces f) (bad f) out.

(** The loop of [main] over its arguments, for [cat] and for [wc]. *)
Fixpoint each_file (f : list Z -> stream -> list Z -> outcome) (cannot : list Z) (argv : list (list Z)) (out : list Z) : list Z :=
  match argv with
  | [] => out
  | a :: argv' =>
      match open a with
      | None => out ++ printf_to cannot [S_ a]
      | Some st => match f a st out with Go out => each_file f cannot argv' out | Quit out => out end
      end
  end.

Definition cat_main (stdin : stream) (argv : list (list Z)) : list Z :=
  match argv with
  | [] => match cat stdin [] with Go out | Quit out => out end
  | _ => each_file (fun _ => cat) (str "cat: cannot open %s" ++ [10]) argv []
  end.

(** ** [wc] *)

Record counters := mkC { c_l : Z; c_w : Z; c_c : Z; inword : bool }.

Definition wc_byte (s : counters) (b : Z) : counters :=
  let c := s32 (c_c s + 1) in
  let l := if b =? 10 then s32 (c_l s + 1) else c_l s in
  if in_set [32; 13; 9; 10; 11] b then mkC l (c_w s) c false
  else if negb (inword s) then mkC l (s32 (c_w s + 1)) c true
  else mkC l (c_w s) c (inword s).

Fixpoint wc_loop (l : list (list Z)) (s : counters) : counters :=
  match l with [] => s | buf :: l' => wc_loop l' (foldl wc_byte s buf) end.

Definition wc (name : list Z) (f : stream) (out : list Z) : outcome :=
  let s := wc_loop (pieces f) (mkC 0 0 0 false) in
  if bad f then Quit (out ++ printf_to (str "wc: read error" ++ [10]) [])
  else Go (out ++ printf_to (str "%d %d %d %s" ++ [10]) [D (c_l s); D (c_w s); D (c_c s); S_ name]).

Definition wc_main (stdin : stream) (argv : list (list Z)) : list Z :=
  match argv with
  | [] => match wc [] stdin [] with Go out | Quit out => out end
  | _ => each_file wc (str "wc: cannot open %s" ++ [10]) argv []
  end.
End programs.

(** ** [echo] *)

Fixpoint echo_main (argv : list (list Z)) : list Z :=
  match argv with
  | [] => []
  | [a] => printf_to (str "%s%s") [S_ a; S_ [10]]
  | a :: argv' => printf_to (str "%s%s") [S_ a; S_ [32]] ++ echo_main argv'
  end.

(** ** [ls] *)

(** The bytes after the last slash, looked for from the end. *)
Definition after_slash (path : list Z) : list Z :=
  let r := reverse path in
  reverse (take (run_while (fun c => negb (c =? SLASH)) r) r).

Definition fmtname (path : list Z) : list Z :=
  let p := after_slash path in
  if (DIRSIZ <=? length p)%nat then p else p ++ replicate (DIRSIZ - length p) 32.

(** [struct stat]: type, inode and size. *)
Record stat := mkStat { st_type : Z; st_ino : Z; st_size : Z }.

Section ls.
(** [open], [fstat] on the open path, [stat], and the directory entries that [read] returns. *)
Context (opens : list Z -> bool) (fstat_of stat_of : list Z -> option stat) (dirents : list Z -> list (list Z)).

Definition ls_line (path : list Z) (st : stat) : list Z :=
  printf_to (str "%s %d %d %d" ++ [10]) [S_ (fmtname path); D (st_type st); D (st_ino st); D (st_size st)].

Fixpoint ls_entries (path : list Z) (es : list (list Z)) : list (Z * list Z) :=
  match es with
  | [] => []
  | de :: es' =>
      if de_inum de =? 0 then ls_entries path es' else
      let buf := cstr (path ++ [SLASH] ++ take DIRSIZ (de_name de)) in
      match stat_of buf with
      | None => (1, printf_to (str "ls: cannot stat %s" ++ [10]) [S_ buf])
      | Some st => (1, ls_line buf st)
      end :: ls_entries path es'
  end.

(** What is written, with the descriptor. *)
Definition ls (path : list Z) : list (Z * list Z) :=
  if negb (opens path) then [(2, printf_to (str "ls: cannot open %s" ++ [10]) [S_ path])] else
  match fstat_of path with
  | None => [(2, printf_to (str "ls: cannot stat %s" ++ [10]) [S_ path])]
  | Some st =>
      if st_type st =? T_FILE then [(1, ls_line path st)]
      else if st_type st =? T_DIR then
        if 512 <? Z.of_nat (length path) + 1 + Z.of_nat DIRSIZ + 1 then [(1, printf_to (str "ls: path too long" ++ [10]) [])]
        else ls_entries path (dirents path)
      else []
  end.

Definition ls_main (argv : list (list Z)) : list (Z * list Z) :=
  match argv with [] => ls (str ".") | _ => concat (map ls argv) end.
End ls.

(** ** What they print *)

Lemma cat_loop_copies write1 l out : (forall o b, write1 o b = Z.of_nat (length b)) -> cat_loop write1 l false out = Go (out ++ concat l).
Proof.
  intros Ht. revert out. induction l as [|b l IH]; intros out; cbn [cat_loop concat]; [by rewrite app_nil_r|]. cbv zeta. rewrite Ht, Z.eqb_refl, Nat2Z.id, firstn_all, IH. by rewrite app_assoc.
Qed.

(** The loop over the arguments, when every file opens and none of them stops the program. *)
Lemma each_file_all open f line cannot argv fs out : map open argv = map Some fs -> Forall (fun st => forall a out, f a st out = Go (out ++ line a st)) fs ->
  each_file open f cannot argv out = out ++ concat (zip_with line argv fs).
Proof.
  revert fs out. induction argv as [|a argv IH]; intros [|st fs] out Ho Hf; try done; cbn [each_file zip_with concat]; [by rewrite app_nil_r|].
  cbn in Ho. injection Ho as -> Ho. apply Forall_cons in Hf as [H1 Hf]. rewrite H1, IH with (fs := fs) by done. by rewrite app_assoc.
Qed.

(** [cat] copies: its files, whatever pieces [read] returns, one after the other. *)
Lemma cat_copies open write1 argv fs stdin : (forall o b, write1 o b = Z.of_nat (length b)) -> argv <> [] -> map open argv = map Some fs -> Forall (fun f => bad f = false) fs ->
  cat_main open write1 stdin argv = concat (zip_with (fun _ => contents) argv fs).
Proof.
  intros Ht H0 Ho Hb. destruct argv as [|a argv]; [done|]. apply (each_file_all open (fun _ => cat write1) (fun _ => contents) _ _ _ [] Ho).
  apply (Forall_impl _ _ _ Hb). intros st Hst _ out. unfold cat. rewrite Hst. by apply cat_loop_copies.
Qed.

(** The words of a text. *)
Definition blank (b : Z) : bool := in_set [32; 13; 9; 10; 11] b.
Fixpoint words_from (cur s : list Z) : list (list Z) :=
  let close rest := match cur with [] => rest | _ => cur :: rest end in
  match s with
  | [] => close []
  | b :: s' => if blank b then close (words_from [] s') else words_from (cur ++ [b]) s'
  end.
Definition words (s : list Z) : list (list Z) := words_from [] s.
Definition newlines (s : list Z) : Z := Z.of_nat (length (List.filter (Z.eqb 10) s)).

Lemma s32_id x : -2147483648 <= x < 2147483648 -> s32 x = x.
Proof. intros Hx. unfold s32. rewrite Z.mod_small; lia. Qed.

Definition open_word (cur : list Z) : Z := match cur with [] => 0 | _ => 1 end.

Lemma wc_bytes s : forall l w c cur, 0 <= l <= c -> 0 <= w -> w - open_word cur <= c -> c + Z.of_nat (length s) < 2147483647 -> 
  exists b, foldl wc_byte (mkC l w c (match cur with [] => false | _ => true end)) s =
    mkC (l + newlines s) (w - open_word cur + Z.of_nat (length (words_from cur s))) (c + Z.of_nat (length s)) b.
Proof.
  induction s as [|b s IH]; intros l w c cur Hl Hw Hwc Hc.
  - exists (match cur with [] => false | _ => true end). unfold newlines. cbn [foldl List.filter length]. f_equal; [lia|destruct cur; cbn; lia|lia].
  - cbn [foldl length words_from]. unfold wc_byte at 2. cbv zeta. cbn [c_c c_l c_w inword]. fold (blank b). rewrite (s32_id (c + 1)) by (cbn [length] in Hc; lia).
    assert ((if b =? 10 then s32 (l + 1) else l) = l + newlines [b]) as ->.
    { unfold newlines. cbn [List.filter]. rewrite (Z.eqb_sym b 10). destruct (10 =? b); cbn [length]; [rewrite s32_id by (cbn [length] in Hc; lia)|]; lia. }
    assert (newlines (b :: s) = newlines [b] + newlines s) as -> by (unfold newlines; cbn [List.filter]; destruct (10 =? b); cbn [length]; lia).
    assert (0 <= newlines [b] <= 1) as Hb by (unfold newlines; cbn [List.filter]; destruct (10 =? b); cbn; lia). cbn [length] in Hc.
    destruct (blank b).
    + destruct (IH (l + newlines [b]) w (c + 1) []) as [b' E]; [lia|lia|cbn; destruct cur; cbn in Hwc; lia|lia|]. exists b'. cbn [open_word] in E. rewrite E.
      f_equal; [lia|destruct cur; cbn [length open_word]; lia|lia].
    + destruct (IH (l + newlines [b]) (w + 1 - open_word cur) (c + 1) (cur ++ [b])) as [b' E].
      { lia. } { destruct cur; cbn in *; lia. } { destruct cur; cbn in *; lia. } { lia. }
      exists b'. destruct cur as [|x cur]; cbn [app open_word negb] in *.
      * rewrite s32_id by lia. replace (w + 1 - 0) with (w + 1) in E by lia. rewrite E. f_equal; lia.
      * replace (w + 1 - 1) with w in E by lia. rewrite E. f_equal; lia.
Qed.

Lemma wc_loop_concat l s : wc_loop l s = foldl wc_byte s (concat l).
Proof. revert s. induction l as [|b l IH]; intros s; cbn; [done|]. by rewrite IH, foldl_app. Qed.

(** The line [wc] owes for a file. *)
Definition wc_line (name : list Z) (f : stream) : list Z :=
  printf_to (str "%d %d %d %s" ++ [10])
    [D (newlines (contents f)); D (Z.of_nat (length (words (contents f)))); D (Z.of_nat (length (contents f))); S_ name].

Lemma wc_file name f out : bad f = false -> Z.of_nat (length (contents f)) < 2147483647 -> wc name f out = Go (out ++ wc_line name f).
Proof.
  intros Hb Hl. unfold wc. rewrite Hb, wc_loop_concat. destruct (wc_bytes (concat (pieces f)) 0 0 0 []) as [b E]; [cbn; unfold contents in Hl; lia..|].
  cbn [open_word] in E. rewrite E. cbn [c_l c_w c_c]. rewrite Z.sub_0_r, !Z.add_0_l. unfold wc_line, words, contents. reflexivity.
Qed.

(** [wc] counts: over files that open and read without error, each of less than 2 GB,
    [wc] prints one line a file, in the order of its arguments, with the number of newlines, the number of
    words (maximal runs of bytes that are not blank) and the number of bytes of the whole file: the pieces
    in which [read] returns the file, and where they cut its words, make no difference. *)
Theorem wc_counts open stdin argv fs :
  argv <> [] -> map open argv = map Some fs ->
  Forall (fun f => bad f = false /\ Z.of_nat (length (contents f)) < 2147483647) fs ->
  wc_main open stdin argv = concat (zip_with wc_line argv fs).
Proof.
  intros H0 Ho Hb. destruct argv as [|a argv]; [done|]. apply (each_file_all open wc wc_line _ _ _ [] Ho).
  apply (Forall_impl _ _ _ Hb). intros st [Hst Hl] name out. by apply wc_file.
Qed.

Lemma wc_counts_witness :
  let f := mkStream [str "two wo"; str "rds" ++ [10]; [9] ++ str "x"] false in
  let g := mkStream [] false in
  let open a := if decide (a = str "f") then Some f else Some g in
  wc_main open g [str "f"; str "g"] = str "1 3 12 f" ++ [10] ++ str "0 0 0 g" ++ [10].
Proof.
  intros f g open. rewrite (wc_counts open g [str "f"; str "g"] [f; g]); [vm_compute; reflexivity|discriminate|vm_compute; reflexivity|].
  apply Forall_cons; split; [split; vm_compute; reflexivity|]. apply Forall_cons; split; [split; vm_compute; reflexivity|apply Forall_nil; exact I].
Defined.
