(* ===== verification/Kbd.v ===== *)
(** * [kbd.c] and [kbd.h]: scan codes to characters. *)

From stdpp Require Import list.
From S2P Require Import Prelude CString.

Definition NO : Z := 0.
Definition SHIFT : Z := 1.
Definition CTL : Z := 2.
Definition ALT : Z := 4.
Definition CAPSLOCK : Z := 8.
Definition NUMLOCK : Z := 16.
Definition SCROLLLOCK : Z := 32.
Definition E0ESC : Z := 64.
Definition KBS_DIB : Z := 1.

Definition KEY_HOME : Z := 224.
Definition KEY_END : Z := 225.
Definition KEY_UP : Z := 226.
Definition KEY_DN : Z := 227.
Definition KEY_LF : Z := 228.
Definition KEY_RT : Z := 229.
Definition KEY_PGUP : Z := 230.
Definition KEY_PGDN : Z := 231.
Definition KEY_INS : Z := 232.
Definition KEY_DEL : Z := 233.

(** A 256-entry initialiser: the leading entries, then [[i] v] ones. *)
Definition table (first : list Z) (designated : list (nat * Z)) : list Z :=
  foldl (fun t '(i, v) => <[i := v]> t) (first ++ replicate (256 - length first) NO) designated.

Definition shiftcode : list Z :=
  table [] [(29, CTL); (42, SHIFT); (54, SHIFT); (56, ALT); (157, CTL); (184, ALT)]%nat.
Definition togglecode : list Z := table [] [(58, CAPSLOCK); (69, NUMLOCK); (70, SCROLLLOCK)]%nat.

(** The keypad and cursor keys that follow an E0 escape, but for KP_Enter and KP_Div. *)
Definition cursor_keys : list (nat * Z) :=
  [(200, KEY_UP); (208, KEY_DN); (201, KEY_PGUP); (209, KEY_PGDN); (203, KEY_LF); (205, KEY_RT);
   (151, KEY_HOME); (207, KEY_END); (210, KEY_INS); (211, KEY_DEL)]%nat.

(** From 0x37 on the plain and the shifted map agree. *)
Definition keypad : list Z :=
  [42; NO; 32; NO; NO; NO; NO; NO; NO; NO; NO; NO; NO; NO; NO; NO] ++ str "789-456+1230.".

Definition normalmap : list Z :=
  table ([NO; 27] ++ str "1234567890-=" ++ [8; 9] ++ str "qwertyuiop[]" ++ [10; NO] ++ str "asdfghjkl;'`" ++ [NO; 92] ++
         str "zxcvbnm,./" ++ [NO] ++ keypad)
    ([(156%nat, 10); (181%nat, 47)] ++ cursor_keys).

Definition shiftmap : list Z :=
  table ([NO; 27] ++ str "!@#$%^&*()_+" ++ [8; 9] ++ str "QWERTYUIOP{}" ++ [10; NO] ++ str "ASDFGHJKL:" ++ [34; 126] ++ [NO] ++
         str "|ZXCVBNM<>?" ++ [NO] ++ keypad)
    ([(156%nat, 10); (181%nat, 47)] ++ cursor_keys).

(** [C(x)] of each character. *)
Definition ctl (s : string) : list Z := map (fun c => u8 (c - 64)) (str s).

Definition ctlmap : list Z :=
  table (replicate 16 NO ++ ctl "QWERTYUIOP" ++ [NO; NO; 13; NO] ++ ctl "ASDFGHJKL" ++ [NO; NO; NO; NO] ++ ctl "\ZXCVBNM" ++
         [NO; NO] ++ ctl "/" ++ [NO; NO])
    ([(156%nat, 13); (181%nat, u8 (47 - 64))] ++ cursor_keys).

Definition charcode (k : Z) : list Z :=
  if k =? 0 then normalmap else if k =? SHIFT then shiftmap else ctlmap.

(** A call of [kbdgetc]: [shift] is its static variable, [st] and [data] what
    the two ports read. *)
Definition kbdgetc (shift st data : Z) : Z * Z :=
  if Z.land st KBS_DIB =? 0 then (-1, shift) else
  if data =? 224 then (0, Z.lor shift E0ESC)
  else if negb (Z.land data 128 =? 0) then
    let data := if negb (Z.land shift E0ESC =? 0) then data else Z.land data 127 in
    (0, Z.land shift (Z.lxor 4294967295 (Z.lor (shiftcode !!! Z.to_nat data) E0ESC)))
  else
    let esc := negb (Z.land shift E0ESC =? 0) in
    let data := if esc then Z.lor data 128 else data in
    let shift := if esc then Z.land shift (Z.lxor 4294967295 E0ESC) else shift in
    let shift := Z.lor shift (shiftcode !!! Z.to_nat data) in
    let shift := Z.lxor shift (togglecode !!! Z.to_nat data) in
    let c := charcode (Z.land shift (Z.lor CTL SHIFT)) !!! Z.to_nat data in
    let c := if negb (Z.land shift CAPSLOCK =? 0) then
               if (97 <=? c) && (c <=? 122) then c + (65 - 97)
               else if (65 <=? c) && (c <=? 90) then c + (97 - 65) else c
             else c in
    (c, shift).

(** The characters of a run of scan codes. *)
Fixpoint kbd_run (shift : Z) (codes : list Z) : list Z :=
  match codes with
  | [] => []
  | d :: codes' => let '(c, shift') := kbdgetc shift 1 d in c :: kbd_run shift' codes'
  end.

Lemma kbd_maps_length : length normalmap = 256%nat /\ length shiftmap = 256%nat /\ length ctlmap = 256%nat.
Proof. done. Qed.

(** Every state and scan code: the result is a byte and the state keeps its
    seven bits. *)
Definition kbd_typed (shift data : Z) : bool :=
  let '(c, shift') := kbdgetc shift 1 data in
  (0 <=? c) && (c <? 256) && (0 <=? shift') && (shift' <? 128).

Lemma kbd_typed_all :
  forallb (fun a => forallb (fun b => kbd_typed (Z.of_nat a) (Z.of_nat b)) (seq 0 256)) (seq 0 128) = true.
Proof. vm_compute. reflexivity. Qed.

Lemma kbd_typed_ok shift data : 0 <= shift < 128 -> 0 <= data < 256 -> kbd_typed shift data = true.
Proof.
  intros Hs Hd. pose proof kbd_typed_all as H. rewrite forallb_forall in H.
  specialize (H (Z.to_nat shift) ltac:(apply in_seq; lia)). cbn beta in H. rewrite forallb_forall in H.
  specialize (H (Z.to_nat data) ltac:(apply in_seq; lia)). cbn beta in H. by rewrite !Z2Nat.id in H by lia.
Qed.

(** [kbdgetc] keeps its types: whatever the status port reads, on a byte
    from the data port the result is -1 or a byte, as [consoleintr] expects of
    its [getc], and the modifier word keeps to its seven bits. *)
Theorem kbdgetc_typed shift st data :
  0 <= shift < 128 -> is_byte data ->
  let '(c, shift') := kbdgetc shift st data in (c = -1 \/ is_byte c) /\ 0 <= shift' < 128.
Proof.
  intros Hs Hd. destruct (Z.land st KBS_DIB =? 0) eqn:E.
  - unfold kbdgetc. rewrite E. by split; [left|].
  - assert (kbdgetc shift st data = kbdgetc shift 1 data) as -> by (unfold kbdgetc; by rewrite E).
    pose proof (kbd_typed_ok shift data Hs Hd) as H. unfold kbd_typed in H.
    destruct (kbdgetc shift 1 data) as [c shift']. zcase. by split; [right|lia].
Qed.

Lemma kbdgetc_typed_witness : let '(c, shift') := kbdgetc 8 1 30 in (c = -1 \/ is_byte c) /\ 0 <= shift' < 128.
Proof. apply (kbdgetc_typed 8 1 30); [lia|unfold is_byte; lia]. Defined.

(** Typing "aA" with the shift key, and a Control-C. *)
Lemma kbd_demo : kbd_run 0 [30; 158; 42; 30; 158; 170; 29; 46] = [97; 0; 0; 65; 0; 0; 0; 3].
Proof. vm_compute. reflexivity. Qed.
