(* ===== verification/Console.v ===== *)
(** * [console.c], with [kbd.c] and the output side of [uart.c].

    The screen is the CGA text memory with its cursor register, the serial
    line the list of bytes sent. Keyboard input goes through [kbdgetc] to
    [consoleintr], which edits the line in the circular buffer [input], and
    from there to [consoleread]. *)

From stdpp Require Import gmap.
From S2P Require Import Prelude CString Params Mmu Bio Log Pipe Kalloc Vm Fs File Proc ProcMem.

(** ** The screen *)

Definition BACKSPACE : Z := 256.

(** [crt]: 25 lines of 80 cells; [pos]: the cursor register. *)
Record screen := mkScreen { crt : list Z; pos : Z }.

Definition crt_set (i v : Z) (s : screen) : res screen unit :=
  if (0 <=? i) && (i <? Z.of_nat (length (crt s)))
  then Ok tt (mkScreen (<[Z.to_nat i := v]> (crt s)) (pos s)) else Fault.

(** The [memmove] and the [memset] of the scroll, on cells. *)
Definition scroll_cells (p : Z) (l : list Z) : list Z :=
  let l := splice 0 (slice 80 (23 * 80) l) l in
  splice (Z.to_nat p) (replicate (Z.to_nat (24 * 80 - p)) 0) l.

Definition cgaputc (c : Z) : M screen unit :=
  s ← get;
  let p := pos s in
  p ← (if c =? 10 then mret (p + (80 - p mod 80))
       else if c =? BACKSPACE then mret (if 0 <? p then p - 1 else p)
       else crt_set p (Z.lor (Z.land c 255) 1792) ;; mret (p + 1));
  if (p <? 0) || (25 * 80 <? p) then panic "pos under/overflow" else
  p ← (if 24 <=? p / 80 then
         modify (fun s => mkScreen (scroll_cells (p - 80) (crt s)) (pos s)) ;; mret (p - 80)
       else mret p);
  modify (fun s => mkScreen (crt s) (u16 p)) ;;
  crt_set p (Z.lor 32 1792).

(** ** The console *)

Definition INPUT_BUF : Z := 128.

(** [input]: the circular buffer with its read, write and edit index. *)
Record input := mkInput { in_buf : list Z; in_r : Z; in_w : Z; in_e : Z }.

Record cons := mkCons {
  c_in : input;
  c_scr : screen;
  c_uart : bool;
  c_ser : list Z;
  c_panicked : bool;
  c_sys : sys;
}.

Definition set_in (x : input) (s : cons) : cons := mkCons x (c_scr s) (c_uart s) (c_ser s) (c_panicked s) (c_sys s).
Definition set_scr (x : screen) (s : cons) : cons := mkCons (c_in s) x (c_uart s) (c_ser s) (c_panicked s) (c_sys s).
Definition set_ser (x : list Z) (s : cons) : cons := mkCons (c_in s) (c_scr s) (c_uart s) x (c_panicked s) (c_sys s).
Definition set_sys (x : sys) (s : cons) : cons := mkCons (c_in s) (c_scr s) (c_uart s) (c_ser s) (c_panicked s) x.

(** The bounded wait for the transmitter only takes time. *)
Definition uartputc (c : Z) : M cons unit :=
  s ← get;
  if c_uart s then modify (set_ser (c_ser s ++ [u8 c])) else mret tt.

(** After a panic on another CPU the call never returns. *)
Definition consputc (c : Z) : M cons unit :=
  s ← get;
  if c_panicked s then sleep else
  (if c =? BACKSPACE then uartputc 8 ;; uartputc 32 ;; uartputc 8 else uartputc c) ;;
  zoom c_scr set_scr (cgaputc c).

Definition with_in (f : input -> input) : M cons unit := modify (fun s => set_in (f (c_in s)) s).

(** [C(x)]. *)
Definition C (x : Z) : Z := x - 64.
Definition CP : Z := C 80.
Definition CU : Z := C 85.
Definition CH : Z := C 72.
Definition CD : Z := C 68.

Definition cell (i : input) (k : Z) : Z := in_buf i !!! Z.to_nat (k mod INPUT_BUF).
Definition set_e (e : Z) (i : input) : input := mkInput (in_buf i) (in_r i) (in_w i) e.

(** [input.buf[input.e++ % INPUT_BUF] = c] *)
Definition append (c : Z) (i : input) : input :=
  mkInput (<[Z.to_nat (in_e i mod INPUT_BUF) := u8 c]> (in_buf i)) (in_r i) (in_w i) (u32 (in_e i + 1)).
Definition commit_line (i : input) : input := mkInput (in_buf i) (in_r i) (in_e i) (in_e i).

(** The loop of Control-U. *)
Fixpoint kill_line (fuel : nat) : M cons unit :=
  s ← get;
  let i := c_in s in
  if negb (in_e i =? in_w i) && negb (cell i (u32 (in_e i - 1)) =? 10) then
    match fuel with
    | O => outOfFuel
    | S fuel' => with_in (set_e (u32 (in_e i - 1))) ;; consputc BACKSPACE ;; kill_line fuel'
    end
  else mret tt.

(** [&input.r], the channel that readers sleep on. *)
Definition chan_input_r : chan := CObj 0.

(** The [switch] of [consoleintr]: whether a process listing was asked for. *)
Definition consoleintr_char (c : Z) : M cons bool :=
  s ← get;
  let i := c_in s in
  if c =? CP then mret true
  else if c =? CU then kill_line (Z.to_nat (u32 (in_e i - in_w i))) ;; mret false
  else if (c =? CH) || (c =? 127) then
    (if negb (in_e i =? in_w i) then with_in (set_e (u32 (in_e i - 1))) ;; consputc BACKSPACE else mret tt) ;;
    mret false
  else
    if negb (c =? 0) && (u32 (in_e i - in_r i) <? INPUT_BUF) then
      let c := if c =? 13 then 10 else c in
      with_in (append c) ;;
      consputc c ;;
      s ← get;
      let i := c_in s in
      if (c =? 10) || (c =? CD) || (in_e i =? u32 (in_r i + INPUT_BUF)) then
        with_in commit_line ;;
        modify (fun s => set_sys (mkSys (wakeup chan_input_r (pt (c_sys s))) (kn (c_sys s))) s) ;;
        mret false
      else mret false
    else mret false.

(** [cs]: what [getc] returns, up to its first negative value. *)
Fixpoint consoleintr_loop (cs : list Z) (doprocdump : bool) : M cons bool :=
  match cs with
  | [] => mret doprocdump
  | c :: cs' =>
      if c <? 0 then mret doprocdump else
      d ← consoleintr_char c;
      consoleintr_loop cs' (doprocdump || d)
  end.

(** The listing [procdump] prints is the result. *)
Definition consoleintr (cs : list Z) : M cons (list (Z * string * list Z)) :=
  d ← consoleintr_loop cs false;
  if (d : bool) then gets (fun s => procdump (pt (c_sys s))) else mret [].

(** [consoleread] from the top of its [while(n > 0)], up to a [sleep] or the
    end: the bytes stored at [dst]; [Sleep n] has [n] left to read. *)
Fixpoint consoleread_run (killed : bool) (n : nat) (target : Z) (i : input) : input * list Z * outcome nat :=
  match n with
  | O => (i, [], Ret target)
  | S n' =>
      if in_r i =? in_w i then
        if killed then (i, [], Err) else (i, [], Sleep n)
      else
        let c := cell i (in_r i) in
        let i' := mkInput (in_buf i) (u32 (in_r i + 1)) (in_w i) (in_e i) in
        if c =? CD then
          ((if Z.of_nat n <? target then i else i'), [], Ret (target - Z.of_nat n))
        else if c =? 10 then (i', [c], Ret (target - Z.of_nat n'))
        else let '(i', l, o) := consoleread_run killed n' target i' in (i', c :: l, o)
  end.

Section inode_ops.
Context `{!BlockDevice} `{!Devsw}.

Definition inodeop {A} (m : M fs A) : M cons A := zoom c_sys set_sys (knop (fsop m)).

(** [killed]: [myproc()->killed]. *)
Definition consoleread (ip : nat) (killed : bool) (n : Z) : M cons (Z * list Z) :=
  inodeop (iunlock ip) ;;
  s ← get;
  let '(i', l, o) := consoleread_run killed (Z.to_nat n) (Z.max 0 n) (c_in s) in
  with_in (fun _ => i') ;;
  match o with
  | Ret r => inodeop (ilock ip) ;; mret (r, l)
  | Err => inodeop (ilock ip) ;; mret (-1, l)
  | Sleep _ => sleep
  end.

Fixpoint consolewrite_loop (buf : list Z) : M cons unit :=
  match buf with [] => mret tt | c :: buf' => consputc (Z.land c 255) ;; consolewrite_loop buf' end.

Definition consolewrite (ip : nat) (buf : list Z) : M cons Z :=
  inodeop (iunlock ip) ;;
  consolewrite_loop buf ;;
  inodeop (ilock ip) ;;
  mret (Z.of_nat (length buf)).
End inode_ops.

(** ** The screen never overflows *)

Definition screen_ok (s : screen) : Prop := length (crt s) = 2000%nat /\ 0 <= pos s < 2000.

(** The cursor after [c], before any scroll, and the cells with [c] written. *)
Definition advance (c p : Z) : Z :=
  if c =? 10 then p + (80 - p mod 80) else if c =? BACKSPACE then Z.max 0 (p - 1) else p + 1.
Definition written (c : Z) (s : screen) : list Z :=
  if (c =? 10) || (c =? BACKSPACE) then crt s
  else <[Z.to_nat (pos s) := Z.lor (Z.land c 255) 1792]> (crt s).

Lemma length_written c s : length (written c s) = length (crt s).
Proof. unfold written. destruct (_ || _); [done|apply length_insert]. Qed.

Lemma advance_range c p : 0 <= p < 2000 -> 0 <= advance c p <= 2000.
Proof.
  intros Hp. unfold advance. pose proof (Z.mod_pos_bound p 80). pose proof (Z.div_mod p 80).
  assert (p / 80 < 25) by (apply Z.div_lt_upper_bound; lia). zdec.
Qed.

Lemma scroll_cells_spec p l i : length l = 2000%nat -> 1840 <= p <= 1920 -> 0 <= i ->
  length (scroll_cells p l) = 2000%nat /\
  scroll_cells p l !!! Z.to_nat i =
    (if i <? p then if i <? 1840 then l !!! Z.to_nat (i + 80) else l !!! Z.to_nat i
     else if i <? 1920 then 0 else l !!! Z.to_nat i).
Proof.
  intros Hl Hp Hi. unfold scroll_cells.
  assert (length (slice 80 (23 * 80) l) = 1840%nat) as Hs by (rewrite length_slice; lia).
  assert (length (splice 0 (slice 80 (23 * 80) l) l) = 2000%nat) as Hm by (rewrite length_splice; lia).
  split; [rewrite length_splice; rewrite ?length_replicate; lia|].
  rewrite !list_lookup_total_alt, lookup_splice by (rewrite length_replicate; lia).
  rewrite lookup_splice, length_replicate, Hs by lia.
  case_decide.
  - rewrite lookup_replicate_2 by lia. zdec.
  - case_decide.
    + rewrite lookup_slice, decide_True by lia. zdec; repeat f_equal; lia.
    + zdec.
Qed.

Definition scrolled (c : Z) (s : screen) : list Z :=
  let p := advance c (pos s) in
  if 1920 <=? p then scroll_cells (p - 80) (written c s) else written c s.
Definition cursor (c p : Z) : Z := let q := advance c p in if 1920 <=? q then q - 80 else q.

Lemma cursor_range c p : 0 <= p < 2000 -> 0 <= cursor c p <= 1920.
Proof. intros Hp. pose proof (advance_range c p Hp). unfold cursor. zdec. Qed.

Lemma length_scrolled c s : length (crt s) = 2000%nat -> 0 <= pos s < 2000 -> length (scrolled c s) = 2000%nat.
Proof.
  intros Hl Hp. pose proof (advance_range c (pos s) Hp). unfold scrolled.
  destruct (Z.leb_spec 1920 (advance c (pos s))); [|by rewrite length_written].
  eapply (scroll_cells_spec _ _ 0); [by rewrite length_written|lia..].
Qed.

Lemma cgaputc_ok c s : screen_ok s ->
  cgaputc c s = Ok tt (mkScreen (<[Z.to_nat (cursor c (pos s)) := Z.lor 32 1792]> (scrolled c s)) (cursor c (pos s))).
Proof.
  intros [Hl Hp]. pose proof (advance_range c (pos s) Hp) as Ha. pose proof (cursor_range c (pos s) Hp) as Hc.
  assert (length (scrolled c s) = 2000%nat) as Hlen by by apply length_scrolled.
  transitivity (let p := advance c (pos s) in
    (if (p <? 0) || (25 * 80 <? p) then panic "pos under/overflow" else
     p ← (if 24 <=? p / 80 then
         modify (fun s => mkScreen (scroll_cells (p - 80) (crt s)) (pos s)) ;; mret (p - 80)
       else mret p);
     modify (fun s => mkScreen (crt s) (u16 p)) ;; crt_set p (Z.lor 32 1792)) (mkScreen (written c s) (pos s))).
  { unfold cgaputc, written, advance, mbind, M_bind, get. cbn [orb].
    destruct (c =? 10); cbn [orb]; [by destruct s|]. destruct (c =? BACKSPACE).
    - replace (if 0 <? pos s then pos s - 1 else pos s) with (Z.max 0 (pos s - 1)) by zdec. by destruct s.
    - unfold crt_set. rewrite Hl, (proj2 (Z.leb_le 0 (pos s))), (proj2 (Z.ltb_lt (pos s) _)) by lia. done. }
  cbv zeta. rewrite (proj2 (Z.ltb_ge _ 0)), (proj2 (Z.ltb_ge (25 * 80) _)) by lia. cbn [orb].
  replace (24 <=? advance c (pos s) / 80) with (1920 <=? advance c (pos s)).
  2: { pose proof (Z.div_mod (advance c (pos s)) 80). pose proof (Z.mod_pos_bound (advance c (pos s)) 80). zdec. }
  unfold scrolled, cursor in *. unfold mbind, M_bind, modify, mret, M_ret.
  destruct (1920 <=? advance c (pos s)); cbn [crt pos]; unfold crt_set; cbn [crt pos]; rewrite Hlen;
    rewrite (proj2 (Z.leb_le 0 _)), (proj2 (Z.ltb_lt _ (Z.of_nat 2000))) by lia; cbn [andb];
    (rewrite u16_small by lia; reflexivity).
Qed.

(** [cgaputc] on every screen with its cursor inside: it never panics and
    never stores outside the 25 lines of 80 cells; the cursor stays in the
    first 24 lines once it is there, on a blank; and every cell before it
    shows what was written there, one line higher when the screen scrolled. *)
Theorem cgaputc_spec c s : length (crt s) = 2000%nat -> 0 <= pos s < 2000 ->
  exists s', cgaputc c s = Ok tt s' /\ length (crt s') = 2000%nat /\ 0 <= pos s' <= 1920 /\
    (pos s < 1920 -> pos s' < 1920) /\
    let up := if 1920 <=? advance c (pos s) then 80 else 0 in
    pos s' = advance c (pos s) - up /\ crt s' !!! Z.to_nat (pos s') = Z.lor 32 1792 /\
    (forall i, 0 <= i < pos s' -> i < 1840 -> crt s' !!! Z.to_nat i = written c s !!! Z.to_nat (i + up)).
Proof.
  intros Hl Hp. eexists. split; [by apply cgaputc_ok|]. cbn [crt pos].
  pose proof (cursor_range c (pos s) Hp) as Hc. pose proof (advance_range c (pos s) Hp) as Ha.
  assert (length (scrolled c s) = 2000%nat) as Hlen by by apply length_scrolled.
  rewrite length_insert. split_and!; [done|lia|lia|..].
  - intros Hq. unfold cursor, advance. pose proof (Z.mod_pos_bound (pos s) 80). pose proof (Z.div_mod (pos s) 80). zdec.
  - unfold cursor. zdec.
  - rewrite list_lookup_total_insert_eq by lia. done.
  - intros i Hi Hi'. rewrite list_lookup_total_insert_ne by lia. unfold scrolled, cursor in *.
    destruct (Z.leb_spec 1920 (advance c (pos s))); [|by rewrite Z.add_0_r].
    destruct (scroll_cells_spec (advance c (pos s) - 80) (written c s) i) as [_ ->];
      [by rewrite length_written|lia..|].
    by rewrite (proj2 (Z.ltb_lt i _)), (proj2 (Z.ltb_lt i _)) by lia.
Qed.

Lemma cgaputc_spec_witness : let s := mkScreen (replicate 2000 65) 1919 in
  exists s', cgaputc 66 s = Ok tt s' /\ length (crt s') = 2000%nat /\ 0 <= pos s' <= 1920.
Proof.
  cbv zeta. destruct (cgaputc_spec 66 (mkScreen (replicate 2000 65) 1919)) as (s' & E & Hl & Hp & _);
    [apply length_replicate|cbn [pos]; lia|]. exists s'. split; [exact E|split; [exact Hl|exact Hp]].
Defined.

(** ** The line editor

    What the circular buffer implements: the bytes committed and not yet read,
    and the line being edited. *)
Record line := mkLine { avail : list Z; edit : list Z }.

Definition key (c : Z) (a : line) : line :=
  if c =? CP then a
  else if c =? CU then mkLine (avail a) []
  else if (c =? CH) || (c =? 127) then mkLine (avail a) (removelast (edit a))
  else if negb (c =? 0) && (length (avail a) + length (edit a) <? 128)%nat then
    let c := if c =? 13 then 10 else c in
    let e := edit a ++ [c] in
    if (c =? 10) || (c =? CD) || (length (avail a) + length e =? 128)%nat then mkLine (avail a ++ e) []
    else mkLine (avail a) e
  else a.

(** The arguments of [consputc]. *)
Definition key_echo (c : Z) (a : line) : list Z :=
  if c =? CP then []
  else if c =? CU then replicate (length (edit a)) BACKSPACE
  else if (c =? CH) || (c =? 127) then match edit a with [] => [] | _ => [BACKSPACE] end
  else if negb (c =? 0) && (length (avail a) + length (edit a) <? 128)%nat then [if c =? 13 then 10 else c]
  else [].

Fixpoint aread (killed : bool) (n : nat) (target : Z) (l : list Z) : list Z * list Z * outcome nat :=
  match n with
  | O => (l, [], Ret target)
  | S n' =>
      match l with
      | [] => (l, [], if killed then Err else Sleep n)
      | c :: l' =>
          if c =? CD then ((if Z.of_nat n <? target then l else l'), [], Ret (target - Z.of_nat n))
          else if c =? 10 then (l', [c], Ret (target - Z.of_nat n'))
          else let '(l', r, o) := aread killed n' target l' in (l', c :: r, o)
      end
  end.

(** Interrupts and sections of readers, in any order. *)
Inductive event := EIntr (cs : list Z) | ERead (killed : bool) (n : nat) (target : Z).

Definition read_section (killed : bool) (n : nat) (target : Z) : M cons (list Z * outcome nat) :=
  s ← get;
  let '(i', l, o) := consoleread_run killed n target (c_in s) in
  with_in (fun _ => i') ;; mret (l, o).

Fixpoint run (evs : list event) : M cons (list (list Z * outcome nat)) :=
  match evs with
  | [] => mret []
  | EIntr cs :: evs' => consoleintr cs ;; run evs'
  | ERead killed n target :: evs' =>
      x ← read_section killed n target; out ← run evs'; mret (x :: out)
  end.

Fixpoint keys (cs : list Z) (a : line) : line * list Z :=
  match cs with
  | [] => (a, [])
  | c :: cs' =>
      if c <? 0 then (a, []) else
      let '(a', e) := keys cs' (key c a) in (a', key_echo c a ++ e)
  end.

(** The same events on the abstract line: what readers get, and the echo. *)
Fixpoint arun (evs : list event) (a : line) : list (list Z * outcome nat) * list Z :=
  match evs with
  | [] => ([], [])
  | EIntr cs :: evs' =>
      let '(a', e) := keys cs a in let '(out, e') := arun evs' a' in (out, e ++ e')
  | ERead killed n target :: evs' =>
      let '(l, r, o) := aread killed n target (avail a) in
      let '(out, e) := arun evs' (mkLine l (edit a)) in ((r, o) :: out, e)
  end.

(** ** The simulation *)

Record reps (i : input) (a : line) : Prop := {
  rp_buf : length (in_buf i) = 128%nat;
  rp_r : 0 <= in_r i < 4294967296;
  rp_w : in_w i = u32 (in_r i + Z.of_nat (length (avail a)));
  rp_e : in_e i = u32 (in_r i + Z.of_nat (length (avail a ++ edit a)));
  rp_len : (length (avail a ++ edit a) <= 128)%nat;
  rp_full : edit a <> [] -> (length (avail a ++ edit a) < 128)%nat;
  rp_cells : forall k x, (avail a ++ edit a) !! k = Some x -> cell i (in_r i + Z.of_nat k) = x;
  rp_edit : Forall (fun c => c <> 10) (edit a);
}.

Lemma cell_u32 i k : cell i (u32 k) = cell i k.
Proof.
  unfold cell, u32, INPUT_BUF. do 2 f_equal.
  apply Z.mod_mod_divide. by exists 33554432.
Qed.

Lemma u32_sub a b : u32 (u32 a - u32 b) = u32 (a - b).
Proof. unfold u32. by rewrite <- Zminus_mod. Qed.
Lemma u32_add a b : u32 (u32 a + b) = u32 (a + b).
Proof. unfold u32. by rewrite Zplus_mod_idemp_l. Qed.
Lemma u32_subl a b : u32 (u32 a - b) = u32 (a - b).
Proof. unfold u32. by rewrite Zminus_mod_idemp_l. Qed.

Lemma reps_ew i a : reps i a -> u32 (in_e i - in_w i) = Z.of_nat (length (edit a)).
Proof.
  intros [? ? Hw He Hl ? ? ?]. rewrite length_app in *. rewrite Hw, He, u32_sub, u32_small; lia.
Qed.
Lemma reps_er i a : reps i a -> u32 (in_e i - in_r i) = Z.of_nat (length (avail a) + length (edit a)).
Proof.
  intros [? ? Hw He Hl ? ? ?]. rewrite length_app in *. rewrite He, u32_subl, u32_small; lia.
Qed.
Lemma reps_eq_ew i a : reps i a -> (in_e i =? in_w i) = bool_decide (edit a = []).
Proof.
  intros H. pose proof (reps_ew i a H) as E. destruct H as [? ? Hw He Hl ? ? ?]. rewrite length_app in *.
  assert (0 <= in_w i < 4294967296) by (rewrite Hw; apply u32_range).
  assert (0 <= in_e i < 4294967296) by (rewrite He; apply u32_range).
  case_bool_decide as Hd.
  - apply Z.eqb_eq. rewrite Hw, He, Hd. cbn. do 2 f_equal. lia.
  - apply Z.eqb_neq. intros Eq. rewrite Eq, Z.sub_diag, u32_small in E by lia. destruct (edit a); [done|cbn in E; lia].
Qed.

Lemma reps_last i av l x : reps i (mkLine av (l ++ [x])) -> cell i (u32 (in_e i - 1)) = x /\ x <> 10 /\
  reps (set_e (u32 (in_e i - 1)) i) (mkLine av l).
Proof.
  intros [Hb Hr Hw He Hl Hf Hc Hn]. cbn [avail edit] in *. rewrite !length_app in *. cbn [length] in *.
  apply Forall_app in Hn as [Hn Hx]. apply Forall_cons in Hx as [Hx _].
  rewrite He, u32_subl, cell_u32. split; [|split; [exact Hx|]].
  - rewrite <- (Hc (length (av ++ l)) x); [f_equal; rewrite length_app; lia|].
    rewrite app_assoc. by apply list_lookup_middle.
  - constructor; cbn [set_e in_buf in_r in_w in_e avail edit]; rewrite ?length_app; try done; try lia.
    + f_equal. lia.
    + intros k y Hk. unfold cell in *. cbn [in_buf]. apply Hc. rewrite app_assoc. by apply lookup_app_l_Some.
Qed.

Lemma reps_append i a c : reps i a -> (length (avail a) + length (edit a) < 128)%nat -> is_byte c ->
  let i' := append c i in
  length (in_buf i') = 128%nat /\ in_r i' = in_r i /\ in_w i' = in_w i /\
  in_e i' = u32 (in_r i + Z.of_nat (length (avail a ++ edit a ++ [c]))) /\
  (forall k x, (avail a ++ edit a ++ [c]) !! k = Some x -> cell i' (in_r i + Z.of_nat k) = x).
Proof.
  intros [Hb Hr Hw He Hl Hf Hc Hn] Hlt Hbc. cbn [append in_buf in_r in_w in_e].
  rewrite !length_app in *. cbn [length]. split_and!; try done.
  - by rewrite length_insert.
  - rewrite He, u32_add. f_equal. lia.
  - intros k x. rewrite app_assoc. intros Hk. unfold cell. cbn [in_buf append].
    assert (in_e i mod INPUT_BUF = (in_r i + Z.of_nat (length (avail a ++ edit a))) mod INPUT_BUF) as Em.
    { rewrite He, length_app. unfold u32, INPUT_BUF. apply Z.mod_mod_divide. by exists 33554432. }
    rewrite Em. apply lookup_app_Some in Hk as [Hk|[Hk1 Hk2]].
    + pose proof (lookup_lt_Some _ _ _ Hk) as Hkl. rewrite length_app in Hkl.
      rewrite list_lookup_total_insert_ne; [by apply Hc|].
      unfold INPUT_BUF in *. intros E. apply Z2Nat.inj in E; [|apply Z.mod_pos_bound; lia..].
      rewrite length_app in E. assert (Z.of_nat (length (avail a) + length (edit a)) - Z.of_nat k = 0 mod 128).
      { rewrite <- (Z.mod_small (_ - _) 128) by lia.
        replace (_ - _) with ((in_r i + Z.of_nat (length (avail a) + length (edit a))) - (in_r i + Z.of_nat k)) by lia.
        by rewrite Zminus_mod, E, Z.sub_diag. }
      rewrite Z.mod_0_l in H by lia. lia.
    + apply list_lookup_singleton_Some in Hk2 as [Hk0 <-]. assert (k = length (avail a ++ edit a)) as -> by lia.
      rewrite list_lookup_total_insert_eq; [by apply u8_small|].
      rewrite Hb. unfold INPUT_BUF. pose proof (Z.mod_pos_bound (in_r i + Z.of_nat (length (avail a ++ edit a))) 128). lia.
Qed.

(** What [consputc] sends down the serial line. *)
Definition serial (uart : bool) (c : Z) : list Z :=
  if uart then if c =? BACKSPACE then [8; 32; 8] else [u8 c] else [].

(** The console implements the line [a], having sent [out] since [u] was set up. *)
Record con_ok (u : bool) (a : line) (out : list Z) (s : cons) : Prop := {
  co_reps : reps (c_in s) a;
  co_screen : screen_ok (c_scr s);
  co_panicked : c_panicked s = false;
  co_uart : c_uart s = u;
  co_ser : c_ser s = out;
}.

Lemma uartputc_ok c s (Q : unit -> cons -> Prop) :
  Q tt (set_ser (c_ser s ++ (if c_uart s then [u8 c] else [])) s) -> wp (uartputc c) Q s.
Proof.
  intros H. unfold uartputc. wp_steps. destruct (c_uart s) eqn:E; wp_steps; [done|].
  rewrite app_nil_r in H. by destruct s.
Qed.

Lemma consputc_ok c s (Q : unit -> cons -> Prop) :
  c_panicked s = false -> screen_ok (c_scr s) ->
  (forall scr, screen_ok scr -> Q tt (set_scr scr (set_ser (c_ser s ++ serial (c_uart s) c) s))) ->
  wp (consputc c) Q s.
Proof.
  intros Hp Hs HQ. unfold consputc. wp_steps. rewrite Hp.
  assert (forall R, (forall scr, screen_ok scr -> R tt scr) -> wp (cgaputc c) R (c_scr s)) as G.
  { intros R HR. unfold wp. rewrite cgaputc_ok by done. apply HR. destruct Hs as [Hl Hr]. split; cbn [crt pos].
    - rewrite length_insert. by apply length_scrolled.
    - pose proof (cursor_range c (pos (c_scr s)) Hr). lia. }
  apply wp_bind. unfold serial in HQ. destruct (c =? BACKSPACE).
  - wp_steps. do 3 (apply uartputc_ok; wp_steps). cbn [set_ser c_scr c_uart c_ser]. apply G. intros scr Hscr.
    specialize (HQ scr Hscr). destruct (c_uart s); unfold set_ser, set_scr in *; cbn in *;
      by rewrite <- !app_assoc || by rewrite !app_nil_r in *.
  - apply uartputc_ok. wp_steps. cbn [set_ser c_scr]. apply G, HQ.
Qed.

Lemma kill_line_ok u av l out s fuel :
  con_ok u (mkLine av l) out s -> (length l <= fuel)%nat ->
  wp (kill_line fuel)
    (fun _ s' => con_ok u (mkLine av []) (out ++ flat_map (serial u) (replicate (length l) BACKSPACE)) s' /\
       c_sys s' = c_sys s) s.
Proof.
  revert out s fuel. induction l as [|x l IH] using rev_ind; intros out s fuel H Hf.
  - destruct fuel; cbn [kill_line]; apply wp_bind, wp_get; rewrite (reps_eq_ew _ _ (co_reps _ _ _ _ H));
      cbn [edit bool_decide negb andb]; apply wp_ret; rewrite app_nil_r; done.
  - rewrite length_app in *. cbn [length] in *. destruct fuel as [|fuel]; [lia|]. cbn [kill_line].
    destruct H as [Hr Hs Hp Hu Ho]. apply wp_bind, wp_get. rewrite (reps_eq_ew _ _ Hr). cbn [edit].
    rewrite bool_decide_false by (by destruct l). destruct (reps_last _ _ _ _ Hr) as (-> & Hx & Hr').
    rewrite (proj2 (Z.eqb_neq _ _) Hx). cbn [negb andb]. wp_steps. apply wp_modify. wp_steps. apply consputc_ok; [done..|].
    intros scr Hscr. cbn [set_in c_in c_ser c_uart]. eapply wp_mono; [apply IH; [constructor|lia]|]; try done.
    intros _ s' [H' E']. split; [|done]. cbn in H'. rewrite Nat.add_1_r. cbn [replicate flat_map].
    by rewrite Hu, Ho, <- app_assoc in H'.
Qed.

Lemma reps_commit i a : reps i a -> reps (commit_line i) (mkLine (avail a ++ edit a) []).
Proof.
  intros [Hb Hr Hw He Hl Hf Hc Hn].
  constructor; cbn [commit_line in_buf in_r in_w in_e avail edit]; rewrite ?app_nil_r; done.
Qed.

Lemma removelast_snoc {A} (l : list A) x : removelast (l ++ [x]) = l.
Proof. rewrite removelast_app by done. apply app_nil_r. Qed.

(** The [default] case. *)
Lemma type_char_ok u a out s c0 : let c := if c0 =? 13 then 10 else c0 in
  con_ok u a out s -> is_byte c -> (length (avail a) + length (edit a) < 128)%nat ->
  let e := edit a ++ [c] in
  let a' := if (c =? 10) || (c =? CD) || (length (avail a) + length e =? 128)%nat then mkLine (avail a ++ e) []
            else mkLine (avail a) e in
  wp (with_in (append c) ;; consputc c ;;
      s ← get;
      let i := c_in s in
      if (c =? 10) || (c =? CD) || (in_e i =? u32 (in_r i + INPUT_BUF)) then
        with_in commit_line ;;
        modify (fun s => set_sys (mkSys (wakeup chan_input_r (pt (c_sys s))) (kn (c_sys s))) s) ;;
        mret false
      else mret false)
    (fun d s' => con_ok u a' (out ++ serial u c) s' /\ d = false) s.
Proof.
  intros c [Hr Hs Hp Hu Ho] Hc Hlt. cbv zeta. clearbody c.
  destruct (reps_append (c_in s) a c Hr Hlt Hc) as (Hb & Er & Ew & Ee & Hcell).
  apply wp_bind. unfold with_in at 1. apply wp_modify. apply wp_bind, consputc_ok; [done..|].
  intros scr Hscr. apply wp_bind, wp_get. cbn [set_scr set_ser set_in c_in]. cbv zeta.
  assert ((in_e (append c (c_in s)) =? u32 (in_r (append c (c_in s)) + INPUT_BUF)) =
    (length (avail a) + length (edit a ++ [c]) =? 128)%nat) as ->.
  { rewrite Ee, Er. rewrite !length_app. cbn [length].
    assert (0 <= in_r (c_in s) < 4294967296) as Hir by apply (rp_r _ _ Hr).
    unfold INPUT_BUF. destruct (Nat.eqb_spec (length (avail a) + (length (edit a) + 1)) 128) as [E|E].
    - apply Z.eqb_eq. do 2 f_equal. lia.
    - apply Z.eqb_neq. unfold u32. intros E'. apply E.
      pose proof (Z.div_mod (in_r (c_in s) + 128) 4294967296). 
      pose proof (Z.div_mod (in_r (c_in s) + Z.of_nat (length (avail a) + (length (edit a) + 1))) 4294967296).
      pose proof (Z.mod_pos_bound (in_r (c_in s) + 128) 4294967296). lia. }
  destruct Hr as [Hb0 Hr0 Hw0 He0 Hl0 Hf0 Hc0 Hn0].
  destruct (_ || _) eqn:E.
  - wp_steps. unfold with_in. wp_steps. split; [|done].
    constructor; cbn; try done; [|by rewrite Hu, Ho].
    constructor; cbn [commit_line in_buf in_r in_w in_e avail edit]; rewrite ?app_nil_r; rewrite ?Er; try done.
    rewrite !length_app. cbn [length]. lia.
  - wp_steps. split; [|done]. constructor; cbn; try done; [|by rewrite Hu, Ho].
    apply orb_false_iff in E as [E E3]. apply orb_false_iff in E as [E1 E2]. apply Nat.eqb_neq in E3. zcase.
    rewrite length_app in E3. cbn [length] in E3.
    constructor; cbn [avail edit]; rewrite ?Er, ?Ew; try done.
    + rewrite !length_app. cbn [length]. lia.
    + intros _. rewrite !length_app. cbn [length]. lia.
    + apply Forall_app. split; [done|]. by constructor.
Qed.

Lemma consoleintr_char_ok u a out s c : con_ok u a out s -> is_byte c ->
  wp (consoleintr_char c) (fun d s' => con_ok u (key c a) (out ++ flat_map (serial u) (key_echo c a)) s' /\
    d = (c =? CP)) s.
Proof.
  intros H Hc. pose proof H as [Hr Hs Hp Hu Ho]. unfold consoleintr_char, key, key_echo.
  apply wp_bind, wp_get. cbv zeta. destruct (Z.eqb_spec c CP) as [E|_].
  { apply wp_ret. cbn. by rewrite app_nil_r. }
  destruct (Z.eqb_spec c CU) as [E|_].
  { apply wp_bind. destruct a as [av l].
    eapply wp_mono; [apply (kill_line_ok u av l out); [done|by rewrite (reps_ew _ _ Hr), Nat2Z.id]|].
    intros _ s' [H' _]. apply wp_ret. done. }
  destruct (_ || _).
  { rewrite (reps_eq_ew _ _ Hr). destruct a as [av l]. cbn [avail edit]. apply wp_bind.
    destruct l as [|x l _] using rev_ind.
    - cbn [bool_decide negb]. wp_steps. cbn. by rewrite app_nil_r.
    - rewrite bool_decide_false by (by destruct l). cbn [negb]. destruct (reps_last _ _ _ _ Hr) as (_ & _ & Hr').
      unfold with_in. wp_steps. apply consputc_ok; [done..|]. intros scr Hscr. apply wp_ret.
      rewrite removelast_snoc. split; [|done]. destruct (l ++ [x]) as [|y l'] eqn:El; [by destruct l|].
      cbn [flat_map]. rewrite app_nil_r. constructor; try done. cbn. by rewrite Hu, Ho. }
  rewrite (reps_er _ _ Hr).
  replace (Z.of_nat _ <? INPUT_BUF) with (length (avail a) + length (edit a) <? 128)%nat
    by (unfold INPUT_BUF; destruct (Nat.ltb_spec (length (avail a) + length (edit a)) 128); symmetry;
        [apply Z.ltb_lt|apply Z.ltb_ge]; lia).
  destruct (negb (c =? 0)); cbn [andb]; [|by apply wp_ret; cbn; rewrite app_nil_r].
  destruct (Nat.ltb_spec (length (avail a) + length (edit a)) 128) as [Hlt|];
    [|by apply wp_ret; cbn; rewrite app_nil_r].
  cbn [flat_map]. rewrite app_nil_r. apply type_char_ok; [done| |done].
  unfold is_byte in *. zdec.
Qed.

Lemma reps_empty i a : reps i a -> (in_r i =? in_w i) = bool_decide (avail a = []).
Proof.
  intros [? Hr Hw ? Hl ? ? ?]. rewrite length_app in *. case_bool_decide as E.
  - apply Z.eqb_eq. rewrite Hw, E. cbn. rewrite Z.add_0_r, u32_small; lia.
  - apply Z.eqb_neq. intros E'. apply E. assert (u32 (in_w i - in_r i) = Z.of_nat (length (avail a))) as Ed
      by (rewrite Hw, u32_subl, u32_small; lia).
    rewrite E', Z.sub_diag, u32_small in Ed by lia. destruct (avail a); [done|cbn in Ed; lia].
Qed.

Lemma reps_head i c av ed : reps i (mkLine (c :: av) ed) -> cell i (in_r i) = c /\
  reps (mkInput (in_buf i) (u32 (in_r i + 1)) (in_w i) (in_e i)) (mkLine av ed).
Proof.
  intros [Hb Hr Hw He Hl Hf Hc Hn]. cbn [avail edit app length] in *. rewrite length_app in *. split.
  - rewrite <- (Hc 0%nat c eq_refl). f_equal. lia.
  - constructor; cbn [in_buf in_r in_w in_e avail edit]; rewrite ?length_app; try done; try lia.
    + apply u32_range.
    + rewrite Hw, u32_add. f_equal. lia.
    + rewrite He, u32_add. f_equal. lia.
    + intros k x Hk. rewrite <- (Hc (S k) x Hk).
      rewrite <- (cell_u32 _ (u32 (in_r i + 1) + Z.of_nat k)), u32_add, cell_u32. unfold cell. cbn [in_buf].
      do 3 f_equal. lia.
Qed.

Lemma consoleread_run_ok killed n target i a : reps i a ->
  let '(i', l, o) := consoleread_run killed n target i in
  let '(av', l', o') := aread killed n target (avail a) in
  reps i' (mkLine av' (edit a)) /\ l = l' /\ o = o'.
Proof.
  destruct a as [av ed]. cbn [avail edit]. revert i av. induction n as [|n IH]; intros i av H; [done|].
  cbn [consoleread_run aread]. rewrite (reps_empty _ _ H). cbn [avail]. destruct av as [|c av].
  - rewrite bool_decide_true by done. by destruct killed.
  - rewrite bool_decide_false by done. destruct (reps_head _ _ _ _ H) as [-> H'].
    destruct (c =? CD); [by destruct (_ <? _)|]. destruct (c =? 10); [done|].
    specialize (IH _ _ H'). destruct (consoleread_run _ _ _ _) as [[i' l] o], (aread _ _ _ _) as [[av' l'] o'].
    by destruct IH as (? & -> & ->).
Qed.

Lemma consoleintr_loop_ok u cs d a out s : con_ok u a out s -> Forall (fun c => c < 256) cs ->
  let '(a', e) := keys cs a in
  wp (consoleintr_loop cs d) (fun _ s' => con_ok u a' (out ++ flat_map (serial u) e) s') s.
Proof.
  intros H F. revert d a out s H. induction F as [|c cs Hc F IH]; intros d a out s H; cbn [keys consoleintr_loop].
  { apply wp_ret. cbn. by rewrite app_nil_r. }
  destruct (Z.ltb_spec c 0); [by apply wp_ret; cbn; rewrite app_nil_r|].
  destruct (keys cs (key c a)) as [a' e] eqn:E. apply wp_bind.
  eapply wp_mono; [apply (consoleintr_char_ok u a out); [done|unfold is_byte; lia]|].
  intros d' s' [H' _]. specialize (IH (d || d') _ _ _ H'). rewrite E in IH.
  by rewrite flat_map_app, app_assoc.
Qed.

Lemma consoleintr_ok u cs a out s : con_ok u a out s -> Forall (fun c => c < 256) cs ->
  let '(a', e) := keys cs a in
  wp (consoleintr cs) (fun _ s' => con_ok u a' (out ++ flat_map (serial u) e) s') s.
Proof.
  intros H F. pose proof (consoleintr_loop_ok u cs false a out s H F) as K. destruct (keys cs a) as [a' e].
  unfold consoleintr. apply wp_bind. eapply wp_mono; [exact K|]. intros d s' H'.
  destruct d; [by apply wp_gets|by apply wp_ret].
Qed.

Definition event_ok (ev : event) : Prop := match ev with EIntr cs => Forall (fun c => c < 256) cs | ERead _ _ _ => True end.

Lemma run_ok u evs a out s : con_ok u a out s -> Forall event_ok evs ->
  let '(outs, e) := arun evs a in
  wp (run evs) (fun r s' => r = outs /\ screen_ok (c_scr s') /\ c_ser s' = out ++ flat_map (serial u) e) s.
Proof.
  intros H F. revert a out s H. induction F as [|ev evs He F IH]; intros a out s H; cbn [arun run].
  { apply wp_ret. destruct H. cbn. by rewrite app_nil_r. }
  destruct ev as [cs|killed n target].
  - pose proof (consoleintr_ok u cs a out s H He) as K. destruct (keys cs a) as [a' e1].
    destruct (arun evs a') as [outs e2] eqn:E. apply wp_bind. eapply wp_mono; [exact K|]. intros x s' H'.
    specialize (IH _ _ _ H'). rewrite E in IH. by rewrite flat_map_app, app_assoc.
  - pose proof (consoleread_run_ok killed n target (c_in s) a (co_reps _ _ _ _ H)) as K.
    destruct (aread _ _ _ _) as [[av' l'] o']. destruct (arun evs _) as [outs e] eqn:E.
    unfold read_section. apply wp_bind, wp_bind, wp_get.
    destruct (consoleread_run _ _ _ _) as [[i' l] o]. destruct K as (Hr & -> & ->). unfold with_in. wp_steps.
    assert (con_ok u (mkLine av' (edit a)) out (set_in i' s)) as H' by (destruct H; by constructor).
    specialize (IH _ _ _ H'). rewrite E in IH. eapply wp_mono; [exact IH|].
    intros r s' (-> & Hs & Hser). by apply wp_ret.
Qed.

(** [input] starts zeroed. *)
Definition input0 : input := mkInput (replicate 128 0) 0 0 0.

Lemma reps_input0 : reps input0 (mkLine [] []).
Proof. constructor; cbn; try done; lia. Qed.

(** C27 The console input path implements a line editor, whatever the order of
    interrupts and of readers' sections, with the 32-bit indices wrapping
    around: every call returns, readers get the bytes, the end-of-file
    results and the sleeps of the abstract line, which hands out
    committed input only, and the serial line carries exactly the abstract echo. *)
Theorem console_refines s evs :
  c_in s = input0 -> c_panicked s = false -> length (crt (c_scr s)) = 2000%nat -> 0 <= pos (c_scr s) < 2000 ->
  Forall event_ok evs ->
  exists s', run evs s = Ok (arun evs (mkLine [] [])).1 s' /\
    c_ser s' = c_ser s ++ flat_map (serial (c_uart s)) (arun evs (mkLine [] [])).2.
Proof.
  intros Hi Hp Hl Hpos F.
  assert (con_ok (c_uart s) (mkLine [] []) (c_ser s) s) as H.
  { constructor; try done. rewrite Hi. apply reps_input0. }
  pose proof (run_ok _ evs _ _ _ H F) as K. destruct (arun evs _) as [outs e]. cbn [fst snd].
  apply wp_returns in K as (r & s' & E & -> & _ & Hser). eauto.
Qed.

(** A typo corrected, two lines typed ahead, an end of file. *)
Definition demo_events : list event :=
  [EIntr (str "lx" ++ [127] ++ str "s" ++ [13]); ERead false 10 10; EIntr (str "cat");
   ERead false 4 4; EIntr [10; CD]; ERead false 2 4; ERead false 2 4; ERead false 8 8].
Definition demo_cons : cons := mkCons input0 (mkScreen (replicate 2000 0) 0) true [] false (demo_sys 0).

Lemma console_refines_witness : exists s', run demo_events demo_cons =
  Ok [(str "ls" ++ [10], Ret 3); ([], Sleep 4%nat); (str "ca", Ret 4); (str "t" ++ [10], Ret 4); ([], Ret 0)] s'.
Proof.
  destruct (console_refines demo_cons demo_events) as (s' & E & _);
    [reflexivity|reflexivity|apply length_replicate|cbn [demo_cons c_scr pos]; lia|repeat constructor; reflexivity|].
  exists s'. exact E.
Defined.
