(* ===== verification/Syscall.v ===== *)
(** * [syscall.c]: fetching the arguments of system calls.

    The kernel reads user memory through the page table of the process; an
    access to a page that is not mapped would be a trap in kernel mode, a
    [Fault] here. *)

From stdpp Require Import gmap.
From S2P Require Import Prelude CString Params Mmu Bio Log Kalloc Vm Fs File Proc ProcMem.

(** ** User memory *)

(** The translation of the hardware. *)
Definition uaddr (pgdir va : Z) : M kmem Z :=
  pte ← walkpgdir pgdir va false;
  if pte =? 0 then fault else
  e ← ld pte;
  if present e then mret (P2V (PTE_ADDR e) + va mod PGSIZE) else fault.

Definition uload (pgdir va : Z) : M kmem Z := a ← uaddr pgdir va; gets (fun s => kmem_mem s a).
Definition ustore (pgdir va v : Z) : M kmem unit :=
  a ← uaddr pgdir va; modify (fun s => set_mem (store (kmem_mem s) a v) s).

Fixpoint uload_n (pgdir va : Z) (n : nat) : M kmem (list Z) :=
  match n with
  | O => mret []
  | S n' => b ← uload pgdir va; l ← uload_n pgdir (va + 1) n'; mret (b :: l)
  end.
Fixpoint ustore_n (pgdir va : Z) (l : list Z) : M kmem unit :=
  match l with [] => mret tt | b :: l' => ustore pgdir va b ;; ustore_n pgdir (va + 1) l' end.

(** ** Arguments

    A call that returns -1 is [None]; the others give what they store through
    their pointer argument. *)
Section args.
Context (cur : nat).

Definition fetchint (addr : Z) : M sys (option Z) :=
  p ← myproc cur;
  if (p_sz p <=? addr) || (p_sz p <? u32 (addr + 4)) then mret None else
  l ← vmop (uload_n (p_pgdir p) addr 4);
  mret (Some (s32 (le_val l))).

(** The [for] loop: the string at [s], looked for in [n] bytes. *)
Fixpoint fetchstr_loop (n : nat) (pgdir s : Z) : M kmem (option (list Z)) :=
  match n with
  | O => mret None
  | S n' =>
      c ← uload pgdir s;
      if c =? 0 then mret (Some []) else
      r ← fetchstr_loop n' pgdir (s + 1);
      mret (match r with Some l => Some (c :: l) | None => None end)
  end.

(** The string stands for the pointer to it. *)
Definition fetchstr (addr : Z) : M sys (option (list Z)) :=
  p ← myproc cur;
  if p_sz p <=? addr then mret None else
  vmop (fetchstr_loop (Z.to_nat (p_sz p - addr)) (p_pgdir p) addr).

Definition argint (n : Z) : M sys (option Z) :=
  p ← myproc cur;
  fetchint (u32 (tf_esp (p_tf p) + 4 + 4 * n)).

Definition argptr (n size : Z) : M sys (option Z) :=
  p ← myproc cur;
  i ← argint n;
  match i with
  | None => mret None
  | Some i =>
      if (size <? 0) || (p_sz p <=? u32 i) || (p_sz p <? u32 (u32 i + size)) then mret None
      else mret (Some (u32 i))
  end.

Definition argstr (n : Z) : M sys (option (list Z)) :=
  addr ← argint n;
  match addr with None => mret None | Some a => fetchstr (u32 a) end.
End args.

(** ** [sysproc.c] *)

(** [ticks], the clock of [trap.c]. *)
Record machine := mkMachine { sy : sys; ticks : Z }.
Definition syop {A} (m : M sys A) : M machine A := zoom sy (fun x s => mkMachine x (ticks s)) m.

Section sysproc.
Context `{!BlockDevice} `{!Devsw}.
Context (end_ data : Z) (cur : nat).

Definition sys_fork : M sys Z := fork end_ data cur.
Definition sys_exit : M sys Z := exit end_ cur ;; mret 0.
Definition sys_wait : M sys Z := wait end_ cur.

Definition sys_kill : M sys Z :=
  pid ← argint cur 0;
  match pid with
  | None => mret (-1)
  | Some pid => s ← get; let '(r, t) := kill pid (pt s) in ptop (fun _ => t) ;; mret r
  end.

Definition sys_getpid : M sys Z := p ← myproc cur; mret (p_pid p).

Definition sys_sbrk : M sys Z :=
  n ← argint cur 0;
  match n with
  | None => mret (-1)
  | Some n =>
      p ← myproc cur;
      r ← growproc end_ cur n;
      if r <? 0 then mret (-1) else mret (s32 (p_sz p))
  end.

(** One round of the loop of [sys_sleep] that began at [ticks0]: it returns or
    sleeps until the next tick. *)
Definition sys_sleep_turn (n ticks0 : Z) : M machine Z :=
  s ← get;
  if u32 (ticks s - ticks0) <? u32 n then
    p ← syop (myproc cur);
    if p_killed p then mret (-1) else sleep
  else mret 0.

Definition sys_sleep : M machine Z :=
  n ← syop (argint cur 0);
  match n with
  | None => mret (-1)
  | Some n => t0 ← gets ticks; sys_sleep_turn n t0
  end.

Definition sys_uptime : M machine Z := t ← gets ticks; mret (s32 t).
End sysproc.

(** ** The checks keep the kernel inside the process *)

Section safety.
Context (end_ : Z).
Hypothesis Hend : KERNBASE < end_.
Context (s : sys) (cur : nat) (tabs U : gmap Z Z) (l : list Z).
Abbreviation p := (proc_at (pt s) cur).
Abbreviation km := (k_mem (kn s)).

(** The process has every page below its size. *)
Record user_ok : Prop := {
  uo_as : as_rep end_ km (p_pgdir p) tabs U l;
  uo_sz : 0 <= p_sz p <= KERNBASE;
  uo_pages : forall v, 0 <= PGSIZE * v < p_sz p -> is_Some (U !! v);
}.

(** The byte at a user address, and [n] of them. *)
Definition umem (va : Z) : Z :=
  match U !! (va / PGSIZE) with Some q => kmem_mem km (q + va mod PGSIZE) | None => 0 end.
Fixpoint umem_n (va : Z) (n : nat) : list Z :=
  match n with O => [] | S n' => umem va :: umem_n (va + 1) n' end.

Lemma uaddr_ok va : user_ok -> 0 <= va < p_sz p ->
  exists q, U !! (va / PGSIZE) = Some q /\ uaddr (p_pgdir p) va km = Ok (q + va mod PGSIZE) km.
Proof.
  intros [As Hsz Hpg] Hva. assert (0 <= PGSIZE * (va / PGSIZE) <= va) as Hv by (unfold PGSIZE; Z.to_euclidean_division_equations; lia).
  destruct (Hpg (va / PGSIZE)) as [q Hq]; [lia|]. exists q. split; [done|].
  destruct (user_table _ _ _ _ _ _ _ _ As Hq) as [t Ht]. destruct (as_pages _ _ _ _ _ _ As _ _ Hq) as (Hr & Hok & _).
  pose proof (as_map _ _ _ _ _ _ As _ Hr) as Hm. rewrite Hq in Hm. destruct Hm as [Hp Ha]. unfold pte_of in *.
  assert (0 <= va < 4294967296) as Hva32 by (unfold KERNBASE in *; lia).
  destruct (proj2 (same_page_entry (PGSIZE * (va / PGSIZE)) va ltac:(unfold KERNBASE in *; lia) Hva32)) as [Ed Et].
  { rewrite Z.mul_comm, Z.div_mul; [done|]. unfold PGSIZE. lia. }
  rewrite <- Ed in Ht. rewrite <- Ed, <- Et, Ht in Hp, Ha.
  unfold uaddr. unfold mbind, M_bind. rewrite (walk_found end_ Hend km (p_pgdir p) tabs l va t false (as_vm _ _ _ _ _ _ As) Hva32 Ht).
  assert (t + 4 * PTX va <> 0) as Ht0.
  { destruct (pt_tabs _ _ _ _ (vr_tree _ _ _ _ _ (as_vm _ _ _ _ _ _ As)) _ _ Ht) as (_ & [_ Hto] & _).
    pose proof (PTX_range va Hva32). unfold KERNBASE in *. lia. }
  rewrite (proj2 (Z.eqb_neq _ _)) by done. unfold ld, gets. rewrite Hp, Ha. unfold mret, M_ret.
  by destruct (V2P_page _ Hend _ Hok) as (_ & -> & _).
Qed.

Lemma uload_ok va : user_ok -> 0 <= va < p_sz p -> uload (p_pgdir p) va km = Ok (umem va) km.
Proof.
  intros H Hva. destruct (uaddr_ok va H Hva) as (q & Hq & E). unfold uload, mbind, M_bind. rewrite E. unfold gets, umem.
  by rewrite Hq.
Qed.

Lemma uload_n_ok n va : user_ok -> 0 <= va -> va + Z.of_nat n <= p_sz p ->
  uload_n (p_pgdir p) va n km = Ok (umem_n va n) km.
Proof.
  intros H. revert va. induction n as [|n IH]; intros va H0 Hle; [done|]. cbn [uload_n umem_n].
  unfold mbind, M_bind. rewrite uload_ok by (done || lia). rewrite IH by lia. done.
Qed.

(** The NUL-terminated string at the start of [l], if there is one. *)
Definition terminated (l : list Z) : option (list Z) := if decide (0 ∈ l) then Some (cstr l) else None.

Lemma fetchstr_loop_ok n va : user_ok -> 0 <= va -> va + Z.of_nat n <= p_sz p ->
  fetchstr_loop n (p_pgdir p) va km = Ok (terminated (umem_n va n)) km.
Proof.
  intros H. revert va. induction n as [|n IH]; intros va H0 Hle.
  { unfold terminated. rewrite decide_False; [done|]. apply not_elem_of_nil. }
  cbn [fetchstr_loop umem_n]. unfold mbind, M_bind. rewrite uload_ok by (done || lia). unfold terminated in *. cbn [cstr].
  destruct (Z.eqb_spec (umem va) 0) as [E|E].
  - rewrite decide_True; [done|]. rewrite E. apply list_elem_of_here.
  - rewrite IH by lia. unfold mret, M_ret. f_equal. destruct (decide (0 ∈ umem_n (va + 1) n)) as [Hi|Hi].
    + rewrite decide_True; [done|by apply list_elem_of_further].
    + rewrite decide_False; [done|]. rewrite elem_of_cons. naive_solver.
Qed.

Lemma vmop_ok {A} (m : M kmem A) a : m km = Ok a km -> vmop m s = Ok a s.
Proof.
  intros E. unfold vmop, knop, memop, zoom. rewrite E. destruct s as [pt0 [km0 fs0 ft0 pp0]]. done.
Qed.

Lemma fetchint_ok addr : user_ok -> 0 <= addr < 4294967296 ->
  fetchint cur addr s = Ok (if addr + 4 <=? p_sz p then Some (s32 (le_val (umem_n addr 4))) else None) s.
Proof.
  intros H Ha. pose proof (uo_sz H) as Hsz. unfold fetchint, myproc, gets, mbind, M_bind. unfold KERNBASE in Hsz.
  destruct (Z.leb_spec (p_sz p) addr); cbn [orb].
  { rewrite (proj2 (Z.leb_gt _ _)) by lia. done. }
  rewrite u32_small by lia. destruct (Z.ltb_spec (p_sz p) (addr + 4)).
  { rewrite (proj2 (Z.leb_gt _ _)) by lia. done. }
  rewrite (proj2 (Z.leb_le _ _)) by lia. rewrite (vmop_ok _ (umem_n addr 4)); [done|].
  apply uload_n_ok; [done|lia..].
Qed.

Lemma argint_ok n : user_ok -> exists r, argint cur n s = Ok r s /\
  forall i, r = Some i -> -2147483648 <= i < 2147483648.
Proof.
  intros H. unfold argint, mbind, M_bind, myproc, gets. rewrite fetchint_ok by (done || apply u32_range).
  eexists. split; [done|]. intros i. destruct (_ <=? _); [|done]. intros [= <-]. apply s32_range.
Qed.
End safety.

Section theorems.
Context (end_ : Z).
Hypothesis Hend : KERNBASE < end_.

(** C17 The argument checks of system calls are sound and complete for a
    process that has every page below its size: whatever address user code
    passes, fetching never leaves the process. [fetchint] succeeds exactly
    when the four bytes lie below the size, and gives their value; [fetchstr]
    exactly when a NUL follows below the size, and gives the bytes up to it;
    a pointer accepted by [argptr] spans [size] bytes of the process, also
    when the sums wrap around. *)
Theorem syscall_args_safe s cur tabs U l addr :
  user_ok end_ s cur tabs U l -> 0 <= addr < 4294967296 ->
  let sz := p_sz (proc_at (pt s) cur) in
  fetchint cur addr s = Ok (if addr + 4 <=? sz then Some (s32 (le_val (umem_n s U addr 4))) else None) s /\
  fetchstr cur addr s = Ok (terminated (umem_n s U addr (Z.to_nat (sz - addr)))) s /\
  forall n size, -2147483648 <= size < 2147483648 ->
    exists r, argptr cur n size s = Ok r s /\ forall a, r = Some a -> 0 <= a < sz /\ 0 <= size /\ a + size <= sz.
Proof.
  intros H Ha sz. pose proof (uo_sz _ _ _ _ _ _ H) as Hsz. fold sz in Hsz. unfold KERNBASE in Hsz. split_and!.
  - by apply (fetchint_ok end_ Hend s cur tabs U l).
  - unfold fetchstr, mbind, M_bind, myproc, gets. fold sz. destruct (Z.leb_spec sz addr) as [Hle|Hlt].
    + rewrite Z2Nat.nonpos by lia. cbn [umem_n]. unfold terminated. rewrite decide_False; [done|]. apply not_elem_of_nil.
    + apply vmop_ok. apply (fetchstr_loop_ok end_ Hend s cur tabs U l); [done|lia|fold sz; lia].
  - intros n size Hs. destruct (argint_ok end_ Hend s cur tabs U l n H) as (r & E & Hr).
    unfold argptr, mbind, M_bind, myproc, gets. rewrite E. fold sz. destruct r as [i|]; [|by eexists].
    pose proof (u32_range i) as Hi. destruct (_ || _) eqn:Eg; [by eexists|]. zcase.
    eexists. split; [done|]. intros a [= <-]. rewrite u32_small in * by lia. lia.
Qed.
End theorems.

(** ** A process of one page, with a string and a word in it *)

Definition demo1_mem : mem :=
  store32 (store32 (store32 (store32 (fun _ => 0) 0x80400000 0x401007) 0x80401000 0x402007) 0x80402010 0x696e69) 0x80402020 77.
Definition demo1_vm : kmem := mkKmem demo1_mem 0x80403000 true.

Lemma demo1_load a : (a < 0x80400000 \/ 0x80400004 <= a) -> (a + 4 <= 0x80401000 \/ 0x80401004 <= a) -> a + 4 <= 0x80402010 \/ 0x80403000 <= a ->
  0x80400000 + 4 <= a -> load32 demo1_mem a = 0.
Proof. intros H1 H2 H3 H4. unfold demo1_mem. rewrite !load32_store32_ne by lia. reflexivity. Qed.

Lemma demo1_as : as_rep demo_end demo1_vm demo_dir {[0 := 0x80401000]} {[0 := 0x80402000]} [0x80403000].
Proof.
  assert (Hdir : page_ok demo_end demo_dir) by (vm_compute; done).
  assert (forall i, 0 < i < 1024 -> load32 demo1_mem (demo_dir + 4 * i) = 0) as Hd.
  { intros i Hi. unfold demo_dir. apply demo1_load; lia. }
  assert (forall i, 0 < i < 1024 -> load32 demo1_mem (0x80401000 + 4 * i) = 0) as Ht.
  { intros i Hi. apply demo1_load; lia. }
  split; [split| | |].
  - split.
    + vm_compute. auto.
    + apply NoDup_singleton.
    + apply Forall_singleton. vm_compute. done.
  - split; [done| | |].
    + intros i t Hi. apply lookup_singleton_Some in Hi as [<- <-]. split; [lia|]. split; [vm_compute; done|]. unfold demo_dir. lia.
    + intros i j t Hi Hj. apply lookup_singleton_Some in Hi as [<- <-], Hj as [<- _]. done.
    + intros i Hi. cbn [demo1_vm kmem_mem]. destruct (decide (i = 0)) as [->|Hne].
      * rewrite lookup_singleton_eq. vm_compute. done.
      * rewrite lookup_singleton_ne by done. rewrite Hd by lia. done.
  - intros p [->|[i Hi]]; rewrite list_elem_of_singleton; unfold demo_dir; [lia|].
    apply lookup_singleton_Some in Hi as [_ <-]. lia.
  - cbn [demo1_vm kmem_mem]. unfold demo1_mem. do 4 apply bytes_store32. intros x. lia.
  - intros v Hv. cbn [demo1_vm kmem_mem]. destruct (decide (v = 0)) as [->|Hne].
    + rewrite lookup_singleton_eq. vm_compute. done.
    + rewrite lookup_singleton_ne by done. unfold pte_of.
      assert (0 <= PGSIZE * v < 4294967296) as Hr by (unfold NUSER, KERNBASE, PGSIZE in *; Z.to_euclidean_division_equations; lia).
      destruct (decide (PDX (PGSIZE * v) = 0)) as [E|E]; [|by rewrite lookup_singleton_ne].
      rewrite E, lookup_singleton_eq, Ht; [done|]. rewrite PDX_spec, PTX_spec in * by done.
      unfold PGSIZE in *. Z.to_euclidean_division_equations. lia.
  - intros v p Hv. apply lookup_singleton_Some in Hv as [<- <-]. split; [vm_compute; done|]. split; [vm_compute; done|].
    rewrite list_elem_of_singleton. split; [lia|]. intros [E|[i Hi]]; [unfold demo_dir in E; lia|].
    apply lookup_singleton_Some in Hi as [_ E]. lia.
  - intros v w p Hv Hw. apply lookup_singleton_Some in Hv as [<- <-], Hw as [<- _]. done.
Qed.

Definition demo1_sys : sys :=
  mkSys (mkPt [demo_proc 4096] 2 0) (set_k_mem demo1_vm (kn (demo_sys 0))).

Lemma syscall_args_safe_witness :
  fetchint 0 0x20 demo1_sys = Ok (Some 77) demo1_sys /\ fetchstr 0 0x10 demo1_sys = Ok (Some (str "ini")) demo1_sys /\
  fetchint 0 0xfffffffe demo1_sys = Ok None demo1_sys.
Proof.
  assert (user_ok demo_end demo1_sys 0 {[0 := 0x80401000]} {[0 := 0x80402000]} [0x80403000]) as H.
  { split; [exact demo1_as|cbn; unfold KERNBASE; lia|]. cbn. intros v Hv. assert (v = 0) as -> by (unfold PGSIZE in Hv; lia).
    rewrite lookup_singleton_eq. by eexists. }
  assert (KERNBASE < demo_end) as He by (unfold KERNBASE, demo_end; lia).
  split; [|split].
  - destruct (syscall_args_safe demo_end He demo1_sys 0 _ _ _ 0x20 H ltac:(lia)) as [-> _]. vm_compute. reflexivity.
  - destruct (syscall_args_safe demo_end He demo1_sys 0 _ _ _ 0x10 H ltac:(lia)) as (_ & -> & _). vm_compute. reflexivity.
  - destruct (syscall_args_safe demo_end He demo1_sys 0 _ _ _ 0xfffffffe H ltac:(lia)) as [-> _]. vm_compute. reflexivity.
Defined.
