(* ===== verification/Exec.v ===== *)
(** * [exec.c], with [loaduvm] of [vm.c] and the headers of [elf.h]. *)

From stdpp Require Import gmap.
From S2P Require Import Prelude CString Params Mmu Bio Log Kalloc Vm Fs File Proc ProcMem Syscall.

(** ** ELF headers *)

Definition ELF_MAGIC : Z := 0x464C457F.
Definition ELF_PROG_LOAD : Z := 1.

(** The fields that [exec] uses, and the sizes of the structures. *)
Record elfhdr := mkElf { e_magic : Z; e_entry : Z; e_phoff : Z; e_phnum : Z }.
Definition ELF_SIZE : Z := 52.
Definition get_elf (d : list Z) : elfhdr := mkElf (get_u32 0 d) (get_u32 24 d) (get_u32 28 d) (get_u16 44 d).

Record proghdr := mkPh { ph_type : Z; ph_off : Z; ph_vaddr : Z; ph_filesz : Z; ph_memsz : Z }.
Definition PH_SIZE : Z := 32.
Definition get_ph (d : list Z) : proghdr :=
  mkPh (get_u32 0 d) (get_u32 4 d) (get_u32 8 d) (get_u32 16 d) (get_u32 20 d).

Definition set_entry (eip esp : Z) (t : trapframe) : trapframe :=
  mkTf (tf_edi t) (tf_esi t) (tf_ebp t) (tf_oesp t) (tf_ebx t) (tf_edx t) (tf_ecx t) (tf_eax t)
    (tf_gs t) (tf_fs t) (tf_es t) (tf_ds t) (tf_trapno t) (tf_err t)
    eip (tf_cs t) (tf_eflags t) esp (tf_ss t).

(** The name after the last slash. *)
Fixpoint last_elem (last path : list Z) : list Z :=
  match path with
  | [] => last
  | c :: path' => if c =? SLASH then last_elem path' path' else last_elem last path'
  end.

Section exec.
Context `{!BlockDevice} `{!Devsw}.
Context (end_ data : Z) (cur : nat).

Definition fsys {A} (m : M fs A) : M sys A := knop (fsop m).

(** [readi] into kernel memory. *)
Definition readi_to (ip : nat) (dst off n : Z) : M sys Z :=
  r ← fsys (readi ip off n);
  vmop (kstore dst r.2) ;;
  mret r.1.

Fixpoint loaduvm_loop (fuel : nat) (pgdir addr : Z) (ip : nat) (i offset sz : Z) : M sys Z :=
  if i <? sz then
    match fuel with
    | O => outOfFuel
    | S fuel' =>
        pte ← vmop (walkpgdir pgdir (u32 (addr + i)) false);
        if pte =? 0 then panic "loaduvm: address should exist" else
        e ← vmop (ld pte);
        let n := if u32 (sz - i) <? PGSIZE then u32 (sz - i) else PGSIZE in
        r ← readi_to ip (P2V (PTE_ADDR e)) (u32 (offset + i)) n;
        if negb (r =? n) then mret (-1)
        else loaduvm_loop fuel' pgdir addr ip (u32 (i + PGSIZE)) offset sz
    end
  else mret 0.

Definition loaduvm (pgdir addr : Z) (ip : nat) (offset sz : Z) : M sys Z :=
  if negb (addr mod PGSIZE =? 0) then panic "loaduvm: addr must be page aligned" else
  loaduvm_loop (Z.to_nat (sz / PGSIZE + 1)) pgdir addr ip 0 offset sz.

(** The loop over [n] program headers: the size, or [goto bad]. *)
Fixpoint exec_load (n : nat) (ip : nat) (pgdir off sz : Z) : M sys (option Z) :=
  match n with
  | O => mret (Some sz)
  | S n' =>
      r ← fsys (readi ip off PH_SIZE);
      if negb (r.1 =? PH_SIZE) then mret None else
      let ph := get_ph r.2 in
      if negb (ph_type ph =? ELF_PROG_LOAD) then exec_load n' ip pgdir (u32 (off + PH_SIZE)) sz else
      if ph_memsz ph <? ph_filesz ph then mret None else
      if u32 (ph_vaddr ph + ph_memsz ph) <? ph_vaddr ph then mret None else
      sz ← vmop (allocuvm end_ pgdir sz (u32 (ph_vaddr ph + ph_memsz ph)));
      if sz =? 0 then mret None else
      if negb (ph_vaddr ph mod PGSIZE =? 0) then mret None else
      r ← loaduvm pgdir (ph_vaddr ph) ip (ph_off ph) (ph_filesz ph);
      if r <? 0 then mret None else
      exec_load n' ip pgdir (u32 (off + PH_SIZE)) sz
  end.

(** The argument strings below [sp]: the new [sp] and the pointers
    [ustack[3..]], or [goto bad]. *)
Fixpoint push_args (argv : list (list Z)) (argc pgdir sp : Z) : M sys (option (Z * list Z)) :=
  match argv with
  | [] => mret (Some (sp, []))
  | a :: argv' =>
      if MAXARG <=? argc then mret None else
      let sp := Z.land (u32 (sp - (Z.of_nat (length a) + 1))) 0xfffffffc in
      r ← vmop (copyout pgdir sp (a ++ [0]));
      if r <? 0 then mret None else
      rest ← push_args argv' (argc + 1) pgdir sp;
      mret (match rest with Some (sp', ptrs) => Some (sp', sp :: ptrs) | None => None end)
  end.

(** The words of [ustack], as bytes. *)
Definition ustack_bytes (argc sp : Z) (ptrs : list Z) : list Z :=
  flat_map (le_bytes 4) ([0xffffffff; argc; u32 (sp - (argc + 1) * 4)] ++ ptrs ++ [0]).

(** [bad:], with [pgdir] and [ip] as they are there. *)
Definition exec_bad (pgdir : Z) (ip : option nat) : M sys Z :=
  (if pgdir =? 0 then mret tt else vmop (freevm end_ pgdir)) ;;
  (match ip with Some ip => fsys (iunlockput ip ;; lop end_op) | None => mret tt end) ;;
  mret (-1).

(** From the commit to the user image on. *)
Definition exec_commit (path : list Z) (pgdir sz entry sp : Z) : M sys Z :=
  updp cur (fun p => set_name (safestrcpy (p_name p) (last_elem path path ++ [0]) 16) p) ;;
  p ← myproc cur;
  let oldpgdir := p_pgdir p in
  updp cur (fun p => set_tf (set_entry entry sp (p_tf p)) (set_sz sz (set_pgdir pgdir p))) ;;
  p ← myproc cur;
  switchuvm p ;;
  vmop (freevm end_ oldpgdir) ;;
  mret 0.

(** From the stack pages on; [ip] is released. *)
Definition exec_stack (path : list Z) (argv : list (list Z)) (pgdir sz entry : Z) : M sys Z :=
  let sz := PGROUNDUP sz in
  sz ← vmop (allocuvm end_ pgdir sz (u32 (sz + 2 * PGSIZE)));
  if sz =? 0 then exec_bad pgdir None else
  vmop (clearpteu pgdir (u32 (sz - 2 * PGSIZE))) ;;
  pushed ← push_args argv 0 pgdir sz;
  match pushed with
  | None => exec_bad pgdir None
  | Some (sp, ptrs) =>
      let argc := Z.of_nat (length argv) in
      let sp' := u32 (sp - (3 + argc + 1) * 4) in
      r ← vmop (copyout pgdir sp' (ustack_bytes argc sp ptrs));
      if r <? 0 then exec_bad pgdir None else
      exec_commit path pgdir sz entry sp'
  end.

(** [path] and [argv] are strings without their NUL. A process that runs has a
    current directory. *)
Definition exec (path : list Z) (argv : list (list Z)) : M sys Z :=
  p ← myproc cur;
  match p_cwd p with
  | None => fault
  | Some cwd =>
  fsys (lop begin_op) ;;
  ip ← fsys (namei cwd path);
  match ip with
  | None => fsys (lop end_op) ;; mret (-1)
  | Some ip =>
      fsys (ilock ip) ;;
      r ← fsys (readi ip 0 ELF_SIZE);
      let elf := get_elf r.2 in
      if negb (r.1 =? ELF_SIZE) then exec_bad 0 (Some ip) else
      if negb (e_magic elf =? ELF_MAGIC) then exec_bad 0 (Some ip) else
      pgdir ← vmop (setupkvm end_ data);
      if pgdir =? 0 then exec_bad 0 (Some ip) else
      loaded ← exec_load (Z.to_nat (e_phnum elf)) ip pgdir (e_phoff elf) 0;
      match loaded with
      | None => exec_bad pgdir (Some ip)
      | Some sz =>
          fsys (iunlockput ip) ;;
          fsys (lop end_op) ;;
          exec_stack path argv pgdir sz (e_entry elf)
      end
  end
  end.
End exec.
