(* ===== verification/Boot.v ===== *)
(** * [bootmain.c]: the boot loader.

    It polls the disk controller, reads sectors of drive 0 into memory, and loads the segments of the ELF kernel that starts at
    sector 1. The controller is hardware: a class states what its ports do. *)

From stdpp Require Import gmap.
From S2P Require Import Prelude CString Mmu X86 Bio Vm Exec.

Definition SECTSIZE : Z := 512.

(** ** The controller *)

(** The sector number in the task-file registers. *)
Definition lba28 (r : Z -> Z) : Z := r 0x1f3 + 2 ^ 8 * r 0x1f4 + 2 ^ 16 * r 0x1f5 + 2 ^ 24 * Z.land (r 0x1f6) 0x0f.

(** Programmed input of one sector of drive 0: the read command is written to 0x1f7, and when the status shows ready the data is
    there, at 0x1f0. The status shows busy for [pio_lag] more reads of it, fewer than [polls]. *)
Class Pio := {
  pio : Type;
  pin : Z -> M pio Z;
  pout : Z -> Z -> M pio unit;
  pinsl : Z -> nat -> M pio (list Z);
  pio_reg : pio -> Z -> Z;
  pio_work : pio -> option Z;
  pio_disk : pio -> list (list Z);
  pio_lag : pio -> nat;
  pio_polls : nat;
  pio_lag_polls : forall a, (pio_lag a < pio_polls)%nat;
  pio_status : forall a, exists r a', pin 0x1f7 a = Ok r a' /\ pio_work a' = pio_work a /\ pio_disk a' = pio_disk a /\ (forall p, pio_reg a' p = pio_reg a p) /\
    if decide (pio_lag a = 0%nat) then Z.land r 0xc0 = 0x40 /\ pio_lag a' = 0%nat else Z.land r 0xc0 <> 0x40 /\ pio_lag a = S (pio_lag a');
  pio_set : forall a p x, 0x1f2 <= p <= 0x1f6 -> 0 <= x < 256 -> pio_lag a = 0%nat ->
    exists a', pout p x a = Ok tt a' /\ pio_work a' = pio_work a /\ pio_disk a' = pio_disk a /\ pio_lag a' = 0%nat /\
      forall q, pio_reg a' q = if decide (q = p) then x else pio_reg a q;
  pio_read : forall a, pio_work a = None -> pio_lag a = 0%nat -> pio_reg a 0x1f2 = 1 -> Z.testbit (pio_reg a 0x1f6) 4 = false ->
    0 <= lba28 (pio_reg a) < Z.of_nat (length (pio_disk a)) ->
    exists a', pout 0x1f7 0x20 a = Ok tt a' /\ pio_work a' = Some (lba28 (pio_reg a)) /\ pio_disk a' = pio_disk a;
  pio_data : forall a n d, pio_work a = Some n -> pio_lag a = 0%nat -> pio_disk a !! Z.to_nat n = Some d ->
    exists a', pinsl 0x1f0 128 a = Ok d a' /\ pio_work a' = None /\ pio_disk a' = pio_disk a;
}.

(** ** The code *)

Section boot.
Context `{PI : !Pio}.

Record bst := mkBst { b_mem : mem; b_pio : pio }.
Definition io {A} (m : M pio A) : M bst A := zoom b_pio (fun p s => mkBst (b_mem s) p) m.

Fixpoint waitdisk_loop (fuel : nat) : M pio unit :=
  r ← pin 0x1f7;
  if Z.land r 0xc0 =? 0x40 then mret tt else
  match fuel with O => outOfFuel | S fuel' => waitdisk_loop fuel' end.
Definition waitdisk : M pio unit := waitdisk_loop pio_polls.

Definition readsect (dst offset : Z) : M bst unit :=
  io waitdisk ;;
  io (pout 0x1f2 1) ;;
  io (pout 0x1f3 (u8 offset)) ;;
  io (pout 0x1f4 (u8 (Z.shiftr offset 8))) ;;
  io (pout 0x1f5 (u8 (Z.shiftr offset 16))) ;;
  io (pout 0x1f6 (u8 (Z.lor (Z.shiftr offset 24) 0xe0))) ;;
  io (pout 0x1f7 0x20) ;;
  io waitdisk ;;
  d ← io (pinsl 0x1f0 (Z.to_nat (SECTSIZE / 4)));
  modify (fun s => mkBst (store_bytes (b_mem s) dst d) (b_pio s)).

Fixpoint readseg_loop (fuel : nat) (pa epa offset : Z) : M bst unit :=
  if pa <? epa then
    match fuel with
    | O => outOfFuel
    | S fuel' => readsect pa offset ;; readseg_loop fuel' (u32 (pa + SECTSIZE)) epa (u32 (offset + 1))
    end
  else mret tt.
Definition readseg (pa count offset : Z) : M bst unit :=
  readseg_loop (Z.to_nat (count / SECTSIZE + 2)) (u32 (pa - offset mod SECTSIZE)) (u32 (pa + count)) (offset / SECTSIZE + 1).

(** The scratch space for the headers, and the fields of [struct elfhdr] and [struct proghdr] there. *)
Definition ELF : Z := 0x10000.

Fixpoint load_segments (fuel : nat) (ph eph : Z) : M bst unit :=
  if ph <? eph then
    match fuel with
    | O => outOfFuel
    | S fuel' =>
        m ← gets b_mem;
        let pa := load32 m (ph + 12) in
        readseg pa (load32 m (ph + 16)) (load32 m (ph + 4)) ;;
        m ← gets b_mem;
        (let filesz := load32 m (ph + 16) in let memsz := load32 m (ph + 20) in
         if filesz <? memsz then modify (fun s => mkBst (stosb (b_mem s) (u32 (pa + filesz)) 0 (Z.to_nat (memsz - filesz))) (b_pio s)) else mret tt) ;;
        load_segments fuel' (u32 (ph + PH_SIZE)) eph
    end
  else mret tt.

(** The entry point that is called, or [None] when it returns to [bootasm.S]. *)
Definition bootmain : M bst (option Z) :=
  readseg ELF 4096 0 ;;
  m ← gets b_mem;
  if negb (load32 m ELF =? ELF_MAGIC) then mret None else
  let ph := u32 (ELF + load32 m (ELF + 28)) in
  let n := load16 m (ELF + 44) in
  load_segments (Z.to_nat n) ph (u32 (ph + n * PH_SIZE)) ;;
  m ← gets b_mem;
  mret (Some (load32 m (ELF + 24))).
End boot.

(** ** Reading sectors *)

Lemma lba28_sector n : 0 <= n < 2 ^ 28 ->
  u8 n + 2 ^ 8 * u8 (Z.shiftr n 8) + 2 ^ 16 * u8 (Z.shiftr n 16) + 2 ^ 24 * Z.land (u8 (Z.lor (Z.shiftr n 24) 0xe0)) 0x0f = n /\
  Z.testbit (u8 (Z.lor (Z.shiftr n 24) 0xe0)) 4 = false.
Proof.
  intros Hn. rewrite !Z.shiftr_div_pow2 by lia. assert (0 <= n / 2 ^ 24 < 16) as Hh by (Z.to_euclidean_division_equations; lia).
  assert (Z.land (u8 (Z.lor (n / 2 ^ 24) 0xe0)) 0x0f = n / 2 ^ 24 /\ Z.testbit (u8 (Z.lor (n / 2 ^ 24) 0xe0)) 4 = false) as [-> ->].
  { set (h := n / 2 ^ 24) in *. clearbody h. assert (h = 0 \/ h = 1 \/ h = 2 \/ h = 3 \/ h = 4 \/ h = 5 \/ h = 6 \/ h = 7 \/ h = 8 \/ h = 9 \/ h = 10 \/ h = 11 \/ h = 12 \/ h = 13 \/ h = 14 \/ h = 15) as H by lia.
    repeat (destruct H as [->|H]; [by vm_compute|]). subst h. by vm_compute. }
  split; [|done]. unfold u8. Z.to_euclidean_division_equations. lia.
Qed.

Section proofs.
Context `{PI : !Pio}.

Lemma waitdisk_loop_ok fuel : forall a (Q : unit -> pio -> Prop), (pio_lag a <= fuel)%nat ->
  (forall a', pio_work a' = pio_work a -> pio_disk a' = pio_disk a -> (forall p, pio_reg a' p = pio_reg a p) -> pio_lag a' = 0%nat -> Q tt a') -> wp (waitdisk_loop fuel) Q a.
Proof.
  induction fuel as [|fuel IH]; intros a Q Hf HQ; cbn [waitdisk_loop]; apply wp_bind, wp_ok; destruct (pio_status a) as (r & a' & E & Ew & Ed & Er & Hc);
    exists r, a'; (split; [done|]); case_decide as Hl; destruct Hc as [Hr Hl'].
  - rewrite (proj2 (Z.eqb_eq _ _)) by done. apply wp_ret. by apply HQ.
  - lia.
  - rewrite (proj2 (Z.eqb_eq _ _)) by done. apply wp_ret. by apply HQ.
  - rewrite (proj2 (Z.eqb_neq _ _)) by done. apply IH; [lia|]. intros a2 W2 D2 R2 L2. apply HQ; [congruence|congruence| |done]. intros p. by rewrite R2.
Qed.

Lemma waitdisk_ok a (Q : unit -> pio -> Prop) :
  (forall a', pio_work a' = pio_work a -> pio_disk a' = pio_disk a -> (forall p, pio_reg a' p = pio_reg a p) -> pio_lag a' = 0%nat -> Q tt a') -> wp waitdisk Q a.
Proof. apply waitdisk_loop_ok. apply Nat.lt_le_incl, pio_lag_polls. Qed.

Lemma wp_pout {A} s p x (m : M bst A) Q : 0x1f2 <= p <= 0x1f6 -> 0 <= x < 256 -> pio_lag (b_pio s) = 0%nat ->
  (forall a', pio_work a' = pio_work (b_pio s) -> pio_disk a' = pio_disk (b_pio s) -> pio_lag a' = 0%nat ->
     (forall q, pio_reg a' q = if decide (q = p) then x else pio_reg (b_pio s) q) -> wp m Q (mkBst (b_mem s) a')) -> wp (io (pout p x) ;; m) Q s.
Proof.
  intros Hp Hx Hl HQ. destruct (pio_set (b_pio s) p x Hp Hx Hl) as (a' & E & Ew & Ed & El & Er). apply wp_bind, wp_zoom, wp_ok. exists tt, a'. split; [done|]. by apply HQ.
Qed.

(** The drive is idle and holds [D]. *)
Definition idle (D : list (list Z)) (s : bst) : Prop := pio_work (b_pio s) = None /\ pio_disk (b_pio s) = D.

Lemma readsect_ok D s dst n d (Q : unit -> bst -> Prop) : idle D s -> 0 <= n < 2 ^ 28 -> D !! Z.to_nat n = Some d ->
  (forall s', idle D s' -> b_mem s' = store_bytes (b_mem s) dst d -> Q tt s') -> wp (readsect dst n) Q s.
Proof.
  intros [Hw HD] Hn Hd HQ. unfold readsect. apply wp_bind, wp_zoom, waitdisk_ok. intros a0 W0 D0 _ L0. pose proof (fun z => Z.mod_pos_bound z 256 eq_refl) as H8.
  apply wp_pout; [lia|lia|done|]. intros a1 W1 D1 L1 R1. apply wp_pout; [lia|apply H8|done|]. intros a2 W2 D2 L2 R2. apply wp_pout; [lia|apply H8|done|]. intros a3 W3 D3 L3 R3.
  apply wp_pout; [lia|apply H8|done|]. intros a4 W4 D4 L4 R4. apply wp_pout; [lia|apply H8|done|]. intros a5 W5 D5 L5 R5. cbn [b_pio b_mem] in *.
  destruct (lba28_sector n Hn) as [Hlba Hbit].
  assert (pio_reg a5 0x1f6 = u8 (Z.lor (Z.shiftr n 24) 0xe0)) as E6 by (by rewrite R5).
  assert (lba28 (pio_reg a5) = n) as El. { unfold lba28. rewrite E6, !R5, !R4, !R3, !R2. cbn [decide]. repeat (rewrite decide_False by lia || rewrite decide_True by lia). exact Hlba. }
  assert (pio_disk a5 = D) as HD5 by congruence. assert (pio_reg a5 0x1f2 = 1) as E2 by (by rewrite R5, R4, R3, R2, R1).
  destruct (pio_read a5) as (a6 & E & W6 & D6); [congruence|done|done|by rewrite E6|rewrite El, HD5; apply lookup_lt_Some in Hd; lia|].
  apply wp_bind, wp_zoom, wp_ok. exists tt, a6. split; [done|]. apply wp_bind, wp_zoom, waitdisk_ok. intros a7 W7 D7 _ L7. cbn [b_pio b_mem] in *. rewrite W6, El in W7.
  destruct (pio_data a7 n d W7 L7) as (a8 & E8 & W8 & D8); [congruence|]. apply wp_bind, wp_zoom, wp_ok. exists d, a8. split; [done|]. apply wp_modify, HQ; [|done]. split; cbn; congruence.
Qed.

(** ** Reading segments *)

(** Byte [i] of the kernel file: it starts at sector 1. *)
Definition kbyte (D : list (list Z)) (i : Z) : Z := (D !!! Z.to_nat (i / SECTSIZE + 1)) !!! Z.to_nat (i mod SECTSIZE).

Definition whole_sectors (D : list (list Z)) : Prop := Forall (fun d => length d = 512%nat) D /\ Z.of_nat (length D) <= 2 ^ 28.

(** A word and a half word of the file. *)
Definition kword (D : list (list Z)) (i : Z) : Z := kbyte D i + 256 * (kbyte D (i + 1) + 256 * (kbyte D (i + 2) + 256 * kbyte D (i + 3))).
Definition khalf (D : list (list Z)) (i : Z) : Z := kbyte D i + 256 * kbyte D (i + 1).

Lemma store_bytes_at m l : forall a x, store_bytes m a l x = if decide (a <= x < a + Z.of_nat (length l)) then l !!! Z.to_nat (x - a) else m x.
Proof.
  revert m. induction l as [|b l IH]; intros m a x; cbn [store_bytes length]; [by rewrite decide_False by lia|]. rewrite IH. unfold store.
  destruct (Z.eqb_spec x a) as [->|Hne].
  - rewrite decide_False, decide_True by lia. by rewrite Z.sub_diag.
  - repeat case_decide; try lia. replace (Z.to_nat (x - a)) with (S (Z.to_nat (x - (a + 1)))) by lia. done.
Qed.

(** The memory [m'] is [m] with the file from [off] on at [lo] up to [hi]. *)
Definition loaded (D : list (list Z)) (m m' : mem) (lo hi off : Z) : Prop := forall x, m' x = if decide (lo <= x < hi) then kbyte D (off + (x - lo)) else m x.

(** The number of sectors that cover [count] bytes from [offset] on. *)
Definition nsect (count offset : Z) : Z := (offset mod SECTSIZE + count + (SECTSIZE - 1)) / SECTSIZE.

Lemma readseg_loop_ok D fuel : forall s pa epa n (Q : unit -> bst -> Prop), idle D s -> whole_sectors D -> 0 <= pa -> 0 <= epa -> epa + SECTSIZE <= 2 ^ 32 -> 0 <= n ->
  (epa - pa + (SECTSIZE - 1)) / SECTSIZE <= Z.of_nat fuel -> n + (epa - pa + (SECTSIZE - 1)) / SECTSIZE <= Z.of_nat (length D) -> 1 <= n ->
  (forall s', idle D s' -> loaded D (b_mem s) (b_mem s') pa (pa + SECTSIZE * ((epa - pa + (SECTSIZE - 1)) / SECTSIZE)) (SECTSIZE * (n - 1)) -> Q tt s') ->
  wp (readseg_loop fuel pa epa n) Q s.
Proof.
  unfold SECTSIZE. induction fuel as [|fuel IH]; intros s pa epa n Q Hi Hws Hpa Hepa Hmax Hn Hf Hl Hn1 HQ; cbn [readseg_loop].
  - rewrite (proj2 (Z.ltb_ge _ _)) by (Z.to_euclidean_division_equations; lia). apply wp_ret, HQ; [done|]. intros x. rewrite decide_False; [done|]. Z.to_euclidean_division_equations; lia.
  - destruct (Z.ltb_spec pa epa) as [Hlt|Hge].
    2: { apply wp_ret, HQ; [done|]. intros x. rewrite decide_False; [done|]. Z.to_euclidean_division_equations; lia. }
    assert ((epa - pa + (512 - 1)) / 512 = (epa - (pa + 512) + (512 - 1)) / 512 + 1) as Ek by (Z.to_euclidean_division_equations; lia). set (q := (epa - (pa + 512) + (512 - 1)) / 512) in *.
    assert (0 <= q) as Hq by (unfold q; Z.to_euclidean_division_equations; lia). destruct Hws as [Hws Hmx].
    destruct (lookup_lt_is_Some_2 D (Z.to_nat n) ltac:(lia)) as [d Hd]. pose proof (Forall_lookup_1 _ _ _ _ Hws Hd) as Hdl. cbn beta in Hdl.
    apply wp_bind. eapply readsect_ok; [exact Hi|lia|exact Hd|]. intros s1 Hi1 Em. unfold SECTSIZE. rewrite !u32_small by lia. apply IH; [done|done|lia|lia|lia|lia|fold q; lia|fold q; lia|lia|].
    intros s2 Hi2 Hld. apply HQ; [done|]. intros x. rewrite (Hld x). fold q. rewrite Em, store_bytes_at, Hdl. rewrite Ek. repeat case_decide; try lia; [f_equal; lia|].
    unfold kbyte, SECTSIZE. replace ((512 * (n - 1) + (x - pa)) / 512 + 1) with n by (Z.to_euclidean_division_equations; lia).
    rewrite (list_lookup_total_correct _ _ _ Hd). f_equal. f_equal. Z.to_euclidean_division_equations; lia.
Qed.

Lemma readseg_ok D s pa count offset (Q : unit -> bst -> Prop) : idle D s -> whole_sectors D -> offset mod SECTSIZE <= pa -> 0 <= count -> 0 <= offset -> pa + count + SECTSIZE <= 2 ^ 32 ->
  offset / SECTSIZE + 1 + nsect count offset <= Z.of_nat (length D) ->
  (forall s', idle D s' -> loaded D (b_mem s) (b_mem s') (pa - offset mod SECTSIZE) (pa - offset mod SECTSIZE + SECTSIZE * nsect count offset) (SECTSIZE * (offset / SECTSIZE)) -> Q tt s') ->
  wp (readseg pa count offset) Q s.
Proof.
  intros Hi Hws Hpa Hc Ho Hmax Hl HQ. pose proof (Z.mod_pos_bound offset SECTSIZE eq_refl) as Hm. unfold readseg. rewrite !u32_small by (unfold SECTSIZE in *; lia). unfold nsect in *.
  assert (pa + count - (pa - offset mod SECTSIZE) + (SECTSIZE - 1) = offset mod SECTSIZE + count + (SECTSIZE - 1)) as E by lia.
  apply (readseg_loop_ok D); rewrite ?E; [done|done|lia|unfold SECTSIZE in *; lia|done|apply Z.add_nonneg_nonneg; [by apply Z.div_pos|lia]| |lia| |].
  - unfold SECTSIZE in *. Z.to_euclidean_division_equations; lia.
  - assert (0 <= offset / SECTSIZE) by (by apply Z.div_pos). lia.
  - intros s' Hi' Hld. apply HQ; [done|]. replace (offset / SECTSIZE + 1 - 1) with (offset / SECTSIZE) in Hld by lia. exact Hld.
Qed.

(** ** Kernels that can be loaded *)

Section kernel.
Context (D : list (list Z)).

(** The program headers. *)
Definition kphoff : Z := kword D 28.
Definition kphnum : Z := khalf D 44.
Definition s_off (i : Z) : Z := kword D (kphoff + 32 * i + 4).
Definition s_pa (i : Z) : Z := kword D (kphoff + 32 * i + 12).
Definition s_filesz (i : Z) : Z := kword D (kphoff + 32 * i + 16).
Definition s_memsz (i : Z) : Z := kword D (kphoff + 32 * i + 20).

(** The memory that loading segment [i] writes: from the start of a sector to the end of one, or of the segment. *)
Definition s_lo (i : Z) : Z := s_pa i - s_off i mod SECTSIZE.
Definition s_read (i : Z) : Z := s_lo i + SECTSIZE * nsect (s_filesz i) (s_off i).
Definition s_hi (i : Z) : Z := Z.max (s_read i) (s_pa i + s_memsz i).

Definition disjoint (lo hi lo' hi' : Z) : Prop := hi <= lo' \/ hi' <= lo.

(** The segment is in the file and in memory, and away from the headers. *)
Record seg_fits (i : Z) : Prop := {
  sf_lo : s_off i mod SECTSIZE <= s_pa i;
  sf_mem : s_pa i + Z.max (s_filesz i) (s_memsz i) + SECTSIZE <= 2 ^ 32;
  sf_disk : s_off i / SECTSIZE + 1 + nsect (s_filesz i) (s_off i) <= Z.of_nat (length D);
  sf_head : disjoint (s_lo i) (s_hi i) ELF (ELF + 4096);
}.

(** The headers are in the first page; loading a segment does not touch those before it. *)
Record kernel_ok : Prop := {
  ko_sectors : whole_sectors D;
  ko_bytes : Forall (Forall is_byte) D;
  ko_page : 9 <= Z.of_nat (length D);
  ko_phdrs : kphoff + 32 * kphnum <= 4096;
  ko_fits : forall i, 0 <= i < kphnum -> seg_fits i;
  ko_order : forall i j, 0 <= i < j -> j < kphnum -> disjoint (s_pa i) (s_pa i + Z.max (s_filesz i) (s_memsz i)) (s_lo j) (s_hi j);
}.

(** The segment [i] is in memory: its bytes of the file, and zeros. *)
Definition placed (m : mem) (i : Z) : Prop :=
  (forall k, 0 <= k < s_filesz i -> m (s_pa i + k) = kbyte D (s_off i + k)) /\ (forall k, s_filesz i <= k < s_memsz i -> m (s_pa i + k) = 0).

Definition headers (m : mem) : Prop := forall k, 0 <= k < 4096 -> m (ELF + k) = kbyte D k.

Lemma headers_word m k : headers m -> 0 <= k <= 4092 -> load32 m (ELF + k) = kword D k.
Proof. intros H Hk. unfold load32, kword. rewrite <- !Z.add_assoc. by rewrite !H by lia. Qed.

Context (K : kernel_ok).

Lemma kbyte_range i : 0 <= kbyte D i < 256.
Proof using K.
  unfold kbyte. destruct (D !! Z.to_nat (i / SECTSIZE + 1)) as [d|] eqn:E.
  - rewrite (list_lookup_total_correct _ _ _ E). pose proof (Forall_lookup_1 _ _ _ _ (ko_bytes K) E) as Hb. cbn beta in Hb. rewrite list_lookup_total_alt.
    destruct (d !! Z.to_nat (i mod SECTSIZE)) as [b|] eqn:Eb; [exact (Forall_lookup_1 _ _ _ _ Hb Eb)|cbn; lia].
  - rewrite (list_lookup_total_alt D), E. change (default inhabitant (@None (list Z))) with (@nil Z). rewrite list_lookup_total_alt, lookup_nil. cbn. lia.
Qed.

Lemma kword_range i : 0 <= kword D i < 2 ^ 32.
Proof using K. unfold kword. pose proof (kbyte_range i). pose proof (kbyte_range (i + 1)). pose proof (kbyte_range (i + 2)). pose proof (kbyte_range (i + 3)). lia. Qed.

Lemma khalf_range i : 0 <= khalf D i < 65536.
Proof using K. unfold khalf. pose proof (kbyte_range i). pose proof (kbyte_range (i + 1)). lia. Qed.

(** Loading segment [i]. *)
Lemma segment_placed i m m1 : 0 <= i < kphnum -> headers m -> (forall j, 0 <= j < i -> placed m j) ->
  loaded D m m1 (s_lo i) (s_read i) (SECTSIZE * (s_off i / SECTSIZE)) ->
  let m2 := if s_filesz i <? s_memsz i then stosb m1 (s_pa i + s_filesz i) 0 (Z.to_nat (s_memsz i - s_filesz i)) else m1 in
  headers m1 /\ headers m2 /\ forall j, 0 <= j < i + 1 -> placed m2 j.
Proof using K.
  intros Hi Hh Hp Hld m2. pose proof (ko_fits K i Hi) as [F1 F2 F3 F4]. pose proof (kword_range (kphoff + 32 * i + 16)) as Hfs. fold (s_filesz i) in Hfs. pose proof (kword_range (kphoff + 32 * i + 20)) as Hms. fold (s_memsz i) in Hms.
  pose proof (Z.div_mod (s_off i) SECTSIZE ltac:(done)) as Hdm. pose proof (Z.mod_pos_bound (s_off i) SECTSIZE eq_refl) as Hmb.
  assert (s_pa i + s_filesz i <= s_read i) as Hrd by (unfold s_read, s_lo, nsect, SECTSIZE in *; Z.to_euclidean_division_equations; lia).
  assert (forall x, m2 x = if decide (s_pa i + s_filesz i <= x < s_pa i + s_memsz i) then 0 else m1 x) as H2.
  { intros x. unfold m2. destruct (Z.ltb_spec (s_filesz i) (s_memsz i)); [|by rewrite decide_False by lia]. rewrite stosb_spec. case_decide.
    - rewrite (proj2 (Z.leb_le _ _)), (proj2 (Z.ltb_lt _ _)) by lia. done.
    - destruct (Z.leb_spec (s_pa i + s_filesz i) x); [rewrite (proj2 (Z.ltb_ge _ _)) by lia|]; done. }
  assert (forall x, x < s_lo i \/ s_hi i <= x -> m1 x = m x /\ m2 x = m x) as Hout.
  { intros x Hx. assert (m1 x = m x) as E1 by (rewrite (Hld x), decide_False; [done|unfold s_hi in Hx; lia]). split; [done|]. rewrite H2, decide_False; [done|]. unfold s_hi, s_lo in *. lia. }
  split; [|split]; [intros k Hk; rewrite <- (Hh k Hk); apply Hout; unfold disjoint in F4; lia..|].
  intros j Hj. destruct (decide (j = i)) as [->|Hne].
  - split; intros k Hk; rewrite H2; [rewrite decide_False by lia|by rewrite decide_True by lia]. rewrite (Hld _), decide_True by (unfold s_lo in *; lia). f_equal. unfold s_lo. lia.
  - destruct (Hp j ltac:(lia)) as [P1 P2]. pose proof (ko_order K j i ltac:(lia) ltac:(lia)) as Hd. unfold disjoint in Hd. pose proof (kword_range (kphoff + 32 * j + 16)) as Hfj. fold (s_filesz j) in Hfj.
    split; intros k Hk; [rewrite <- (P1 k Hk)|rewrite <- (P2 k Hk)]; apply Hout; lia.
Qed.

Lemma load_segments_ok fuel : forall s i (Q : unit -> bst -> Prop), idle D s -> 0 <= i <= kphnum -> (Z.to_nat (kphnum - i) <= fuel)%nat -> headers (b_mem s) -> (forall j, 0 <= j < i -> placed (b_mem s) j) ->
  (forall s', idle D s' -> headers (b_mem s') -> (forall j, 0 <= j < kphnum -> placed (b_mem s') j) -> Q tt s') ->
  wp (load_segments fuel (ELF + (kphoff + 32 * i)) (ELF + (kphoff + 32 * kphnum))) Q s.
Proof using K.
  pose proof (ko_phdrs K) as Hph. pose proof (kword_range 28) as Ho. fold kphoff in Ho.
  induction fuel as [|fuel IH]; intros s i Q Hi Hr Hf Hh Hp HQ; cbn [load_segments].
  { rewrite (proj2 (Z.ltb_ge _ _)) by lia. apply wp_ret, HQ; [done|done|]. intros j Hj. apply Hp. lia. }
  destruct (Z.ltb_spec (ELF + (kphoff + 32 * i)) (ELF + (kphoff + 32 * kphnum))) as [Hlt|Hge].
  2: { apply wp_ret, HQ; [done|done|]. intros j Hj. apply Hp. lia. }
  assert (0 <= i < kphnum) as Hin by lia. pose proof (ko_fits K i Hin) as [F1 F2 F3 F4].
  apply wp_bind, wp_gets. rewrite <- !Z.add_assoc. rewrite !headers_word by (done || lia). rewrite !Z.add_assoc. fold (s_pa i) (s_filesz i) (s_off i).
  pose proof (kword_range (kphoff + 32 * i + 16)) as Hfs. fold (s_filesz i) in Hfs. pose proof (kword_range (kphoff + 32 * i + 4)) as Hof. fold (s_off i) in Hof.
  apply wp_bind. apply (readseg_ok D s); [done|apply K|done|lia|lia|lia|done|]. fold (s_lo i) (s_read i). intros s1 Hi1 Hld.
  destruct (segment_placed i (b_mem s) (b_mem s1) Hin Hh Hp Hld) as (Hh1 & Hh2 & Hp2).
  apply wp_bind, wp_gets, wp_bind. rewrite <- !Z.add_assoc. rewrite !headers_word by (done || lia). rewrite !Z.add_assoc. fold (s_filesz i) (s_memsz i).
  assert (u32 (ELF + kphoff + 32 * i + PH_SIZE) = ELF + (kphoff + 32 * (i + 1))) as En by (unfold PH_SIZE; rewrite u32_small by (unfold ELF; lia); lia).
  destruct (Z.ltb_spec (s_filesz i) (s_memsz i)) as [Hz|Hz].
  - apply wp_modify. rewrite En, u32_small by (pose proof (kword_range (kphoff + 32 * i + 12)) as Hpa; fold (s_pa i) in Hpa; unfold SECTSIZE in F2; lia). rewrite <- (Z.add_assoc ELF kphoff). apply IH; [exact Hi1|lia|lia|exact Hh2|exact Hp2|exact HQ].
  - apply wp_ret. rewrite En, <- (Z.add_assoc ELF kphoff). apply IH; [exact Hi1|lia|lia|exact Hh2|exact Hp2|exact HQ].
Qed.
End kernel.

(** The first page of the file is read to the scratch space. *)
Lemma read_headers D s (Q : unit -> bst -> Prop) : idle D s -> whole_sectors D -> 9 <= Z.of_nat (length D) ->
  (forall s', idle D s' -> headers D (b_mem s') -> Q tt s') -> wp (readseg ELF 4096 0) Q s.
Proof.
  intros Hi Hs Hl HQ. apply (readseg_ok D s); [done|done|by vm_compute|lia|lia|by vm_compute|exact Hl|]. intros s1 Hi1 Hld. apply HQ; [done|].
  change (ELF - 0 mod SECTSIZE) with ELF in Hld. change (SECTSIZE * nsect 4096 0) with 4096 in Hld. intros k Hk. rewrite (Hld _), decide_True by lia. f_equal. change (SECTSIZE * (0 / SECTSIZE)) with 0. lia.
Qed.

(** A file that is not an ELF file is left to [bootasm.S]. *)
Lemma bootmain_bad D s : idle D s -> whole_sectors D -> 9 <= Z.of_nat (length D) -> kword D 0 <> ELF_MAGIC -> wp bootmain (fun r _ => r = None) s.
Proof.
  intros Hi Hs Hl Hm. unfold bootmain. apply wp_bind. apply (read_headers D s); [done..|]. intros s1 Hi1 Hh. apply wp_bind, wp_gets.
  pose proof (headers_word D (b_mem s1) 0 Hh ltac:(lia)) as E0. rewrite Z.add_0_r in E0. rewrite E0, (proj2 (Z.eqb_neq _ _) Hm). by apply wp_ret.
Qed.

(** C23 The boot loader loads the kernel: from any memory, with a disk that holds a kernel whose headers are in the first page and whose segments fit and come in an order
    in which loading whole sectors does not touch the segments before, [bootmain] returns from every wait for the disk and every loop, and calls the entry point
    of the ELF header with each segment at its physical address: exactly its bytes of the file, then zeros up to its size in memory. *)
Theorem bootmain_loads D s : idle D s -> kernel_ok D -> kword D 0 = ELF_MAGIC ->
  wp bootmain (fun r s' => r = Some (kword D 24) /\ forall i, 0 <= i < kphnum D -> placed D (b_mem s') i) s.
Proof.
  intros Hi K Hm. pose proof (ko_phdrs D K) as Hph. pose proof (kword_range D K 28) as Ho. fold (kphoff D) in Ho. pose proof (khalf_range D K 44) as Hn. fold (kphnum D) in Hn.
  unfold bootmain. apply wp_bind. apply (read_headers D s); [done|apply K|exact (ko_page D K)|]. intros s1 Hi1 Hh.
  apply wp_bind, wp_gets. pose proof (headers_word D (b_mem s1) 0 Hh ltac:(lia)) as E0. rewrite Z.add_0_r, Hm in E0. rewrite E0, Z.eqb_refl. cbn [negb].
  assert (load16 (b_mem s1) (ELF + 44) = kphnum D) as En by (unfold load16, kphnum, khalf; rewrite <- Z.add_assoc, !Hh by lia; done).
  rewrite En, (headers_word D _ 28 Hh) by lia. fold (kphoff D). rewrite (u32_small (ELF + kphoff D)) by (unfold ELF; lia). rewrite u32_small by (unfold ELF, PH_SIZE; lia).
  replace (ELF + kphoff D + kphnum D * PH_SIZE) with (ELF + (kphoff D + 32 * kphnum D)) by (unfold PH_SIZE; lia). replace (ELF + kphoff D) with (ELF + (kphoff D + 32 * 0)) by lia.
  apply wp_bind. apply (load_segments_ok D K); [done|lia|lia|done|lia|]. intros s2 Hi2 Hh2 Hp2. apply wp_bind, wp_gets, wp_ret. split; [|done]. by rewrite (headers_word D _ 24 Hh2) by lia.
Qed.
End proofs.

(** A controller that is always ready, and a disk with a kernel of one segment: five bytes at offset 4096, loaded at 0x100000, with three bytes of zeros after them. *)
Record sim_pio := mkPio { sp_reg : Z -> Z; sp_work : option Z; sp_disk : list (list Z) }.
Definition sp_out (p x : Z) : M sim_pio unit := fun a =>
  if p =? 0x1f7 then Ok tt (mkPio (sp_reg a) (Some (lba28 (sp_reg a))) (sp_disk a))
  else Ok tt (mkPio (fun q => if decide (q = p) then x else sp_reg a q) (sp_work a) (sp_disk a)).
Definition sp_insl (p : Z) (n : nat) : M sim_pio (list Z) := fun a =>
  match sp_work a with Some n => Ok (sp_disk a !!! Z.to_nat n) (mkPio (sp_reg a) None (sp_disk a)) | None => Fault end.

#[local] Program Instance sim_controller : Pio := {|
  pio := sim_pio; pin := fun _ a => Ok 0x40 a; pout := sp_out; pinsl := sp_insl;
  pio_reg := sp_reg; pio_work := sp_work; pio_disk := sp_disk; pio_lag := fun _ => 0%nat; pio_polls := 1%nat |}.
Next Obligation. intros a. apply Nat.lt_0_1. Qed.
Next Obligation. intros a. by exists 0x40, a. Qed.
Next Obligation. intros a p x Hp _ _. unfold sp_out. rewrite (proj2 (Z.eqb_neq p 0x1f7)) by lia. by eexists. Qed.
Next Obligation. intros a _ _ _ _ _. by eexists. Qed.
Next Obligation. intros a n d Hw _ Hd. unfold sp_insl. rewrite Hw, (list_lookup_total_correct _ _ _ Hd). by eexists. Qed.

Definition demo_header : list Z :=
  [0x7f; 0x45; 0x4c; 0x46] ++ replicate 20 0 ++ [0x0c; 0; 0x10; 0] ++ [52; 0; 0; 0] ++ replicate 12 0 ++ [1; 0] ++ replicate 6 0 ++
  [1; 0; 0; 0] ++ [0; 16; 0; 0] ++ replicate 4 0 ++ [0; 0; 0x10; 0] ++ [5; 0; 0; 0] ++ [8; 0; 0; 0] ++ replicate 436 0.
Definition demo_kernel : list (list Z) := [replicate 512 0; demo_header] ++ replicate 7 (replicate 512 0) ++ [[1; 2; 3; 4; 5] ++ replicate 507 9].

Lemma bootmain_loads_witness :
  wp bootmain (fun r s' => r = Some 0x10000c /\ map (b_mem s') [0x100000; 0x100004; 0x100005; 0x100007] = [1; 5; 0; 0]) (mkBst (fun _ => 255) (mkPio (fun _ => 0) None demo_kernel)).
Proof.
  eapply wp_mono; [apply (bootmain_loads demo_kernel)|].
  - done.
  - assert (kphnum demo_kernel = 1) as En by (by vm_compute). split.
    + split; [apply Forall_forall; intros d Hd; repeat (apply elem_of_cons in Hd as [->|Hd]; [by vm_compute|]); by apply elem_of_nil in Hd|by vm_compute].
    + apply (bool_decide_unpack _). by vm_compute.
    + by vm_compute.
    + by vm_compute.
    + intros i Hi. assert (i = 0) as -> by lia. split; [by vm_compute..|]. right. by vm_compute.
    + intros i j Hij Hj. lia.
  - by vm_compute.
  - intros r s' [-> Hp]. split; [by vm_compute|]. destruct (Hp 0) as [P1 P2]; [by vm_compute|].
    pose proof (P1 0 ltac:(by vm_compute)) as E1. pose proof (P1 4 ltac:(by vm_compute)) as E2. pose proof (P2 5 ltac:(by vm_compute)) as E3. pose proof (P2 7 ltac:(by vm_compute)) as E4.
    change (s_pa demo_kernel 0) with 0x100000 in *. cbn [map]. by repeat f_equal.
Defined.
