(* ===== verification/Sysfile.v ===== *)
(** * [sysfile.c]: the system calls on files, and the dispatcher of
    [syscall.c]. *)

From stdpp Require Import gmap.
From S2P Require Import Prelude CString Params Mmu Bio Log Trans Pipe Kalloc Vm Fs File Proc ProcMem Syscall Exec.

Section files.
Context `{!BlockDevice} `{!Devsw}.
Context (end_ data : Z) (cur : nat).

(** Return -1 when an argument is not valid. *)
Definition need {A} (m : M sys (option A)) (k : A -> M sys Z) : M sys Z :=
  r ← m; match r with None => mret (-1) | Some a => k a end.

(** The descriptor and the file. *)
Definition argfd (n : Z) : M sys (option (Z * nat)) :=
  fd ← argint cur n;
  match fd with
  | None => mret None
  | Some fd =>
      p ← myproc cur;
      if (fd <? 0) || (NOFILE <=? fd) then mret None else
      mret (match p_ofile p !!! Z.to_nat fd with Some f => Some (fd, f) | None => None end)
  end.

Fixpoint find_fd (l : list (option nat)) (fd : nat) : option nat :=
  match l with [] => None | None :: _ => Some fd | Some _ :: l' => find_fd l' (S fd) end.

Definition set_fd (fd : nat) (f : option nat) : M sys unit :=
  updp cur (fun p => set_ofile (<[fd := f]> (p_ofile p)) p).

Definition fdalloc (f : nat) : M sys Z :=
  p ← myproc cur;
  match find_fd (p_ofile p) 0 with
  | None => mret (-1)
  | Some fd => set_fd fd (Some f) ;; mret (Z.of_nat fd)
  end.

Definition sys_dup : M sys Z :=
  need (argfd 0) (fun '(_, f) =>
  fd ← fdalloc f;
  if fd <? 0 then mret (-1) else
  knop (filedup f) ;; mret fd).

Definition sys_read : M sys Z :=
  need (argfd 0) (fun '(_, f) =>
  need (argint cur 2) (fun n =>
  need (argptr cur 1 n) (fun a =>
  p ← myproc cur;
  r ← knop (fileread f (p_killed p) n);
  vmop (ustore_n (p_pgdir p) a r.2) ;;
  mret r.1))).

Definition sys_write : M sys Z :=
  need (argfd 0) (fun '(_, f) =>
  need (argint cur 2) (fun n =>
  need (argptr cur 1 n) (fun a =>
  p ← myproc cur;
  src ← vmop (uload_n (p_pgdir p) a (Z.to_nat n));
  knop (filewrite f (p_killed p) src)))).

Definition sys_close : M sys Z :=
  need (argfd 0) (fun '(fd, f) =>
  set_fd (Z.to_nat fd) None ;;
  knop (fileclose end_ f) ;;
  mret 0).

(** The fields of [struct stat] in user memory. *)
Definition STAT_SIZE : Z := 20.
Definition store_stat (pgdir a : Z) (st : stat) : M kmem unit :=
  ustore_n pgdir a (le_bytes 2 (st_type st)) ;;
  ustore_n pgdir (a + 4) (le_bytes 4 (st_dev st)) ;;
  ustore_n pgdir (a + 8) (le_bytes 4 (st_ino st)) ;;
  ustore_n pgdir (a + 12) (le_bytes 2 (st_nlink st)) ;;
  ustore_n pgdir (a + 16) (le_bytes 4 (st_size st)).

Definition sys_fstat : M sys Z :=
  need (argfd 0) (fun '(_, f) =>
  need (argptr cur 1 STAT_SIZE) (fun a =>
  p ← myproc cur;
  r ← knop (filestat f);
  match r with
  | None => mret (-1)
  | Some st => vmop (store_stat (p_pgdir p) a st) ;; mret 0
  end)).

(** A process that runs has a current directory. *)
Definition mycwd : M sys nat := p ← myproc cur; match p_cwd p with Some c => mret c | None => fault end.

Definition nlink_add (ip : nat) (k : Z) : M fs unit :=
  upd_din ip (fun d => set_nlink (s16 (di_nlink d + k)) d).

(** [name] before a call of [nameiparent]; it is never read. *)
Definition name0 : list Z := replicate DIRSIZ 0.

Definition link_bad (ip : nat) : M fs Z :=
  ilock ip ;; nlink_add ip (-1) ;; iupdate ip ;; iunlockput ip ;; lop end_op ;; mret (-1).

Definition link (cwd : nat) (old new : list Z) : M fs Z :=
  lop begin_op ;;
  ip ← namei cwd old;
  match ip with
  | None => lop end_op ;; mret (-1)
  | Some ip =>
      ilock ip ;;
      s ← get;
      if di_type (din s ip) =? T_DIR then iunlockput ip ;; lop end_op ;; mret (-1) else
      nlink_add ip 1 ;;
      iupdate ip ;;
      iunlock ip ;;
      r ← nameiparent cwd new name0;
      match r with
      | (None, _) => link_bad ip
      | (Some dp, name) =>
          ilock dp ;;
          s ← get;
          d ← (if negb (i_dev (inode_at s dp) =? i_dev (inode_at s ip)) then mret (-1)
               else dirlink dp name (i_inum (inode_at s ip)));
          if d <? 0 then iunlockput dp ;; link_bad ip else
          iunlockput dp ;;
          iput ip ;;
          lop end_op ;;
          mret 0
      end
  end.

Definition sys_link : M sys Z :=
  need (argstr cur 0) (fun old => need (argstr cur 1) (fun new => cwd ← mycwd; fsys (link cwd old new))).

Fixpoint isdirempty_loop (fuel : nat) (dp : nat) (off : Z) : M fs bool :=
  s ← get;
  if negb (off <? di_size (din s dp)) then mret true else
  match fuel with
  | O => outOfFuel
  | S fuel' =>
      r ← readi dp off DIRENT_SIZE;
      if negb (r.1 =? DIRENT_SIZE) then panic "isdirempty: readi" else
      if negb (de_inum r.2 =? 0) then mret false else isdirempty_loop fuel' dp (off + DIRENT_SIZE)
  end.
Definition isdirempty (dp : nat) : M fs bool :=
  s ← get; isdirempty_loop (dir_fuel (di_size (din s dp))) dp (2 * DIRENT_SIZE).

Definition unlink_bad (dp : nat) : M fs Z := iunlockput dp ;; lop end_op ;; mret (-1).

Definition unlink (cwd : nat) (path : list Z) : M fs Z :=
  lop begin_op ;;
  r ← nameiparent cwd path name0;
  match r with
  | (None, _) => lop end_op ;; mret (-1)
  | (Some dp, name) =>
      ilock dp ;;
      if (namecmp name (str ".") =? 0) || (namecmp name (str "..") =? 0) then unlink_bad dp else
      found ← dirlookup dp name;
      match found with
      | None => unlink_bad dp
      | Some (ip, off) =>
          ilock ip ;;
          s ← get;
          if di_nlink (din s ip) <? 1 then panic "unlink: nlink < 1" else
          e ← (if di_type (din s ip) =? T_DIR then isdirempty ip else mret true);
          if negb e then iunlockput ip ;; unlink_bad dp else
          w ← writei dp (replicate (Z.to_nat DIRENT_SIZE) 0) off;
          if negb (w =? DIRENT_SIZE) then panic "unlink: writei" else
          s ← get;
          (if di_type (din s ip) =? T_DIR then nlink_add dp (-1) ;; iupdate dp else mret tt) ;;
          iunlockput dp ;;
          nlink_add ip (-1) ;;
          iupdate ip ;;
          iunlockput ip ;;
          lop end_op ;;
          mret 0
      end
  end.

Definition sys_unlink : M sys Z := need (argstr cur 0) (fun path => cwd ← mycwd; fsys (unlink cwd path)).

(** The inode, locked. *)
Definition create (cwd : nat) (path : list Z) (type major minor : Z) : M fs (option nat) :=
  r ← nameiparent cwd path name0;
  match r with
  | (None, _) => mret None
  | (Some dp, name) =>
      ilock dp ;;
      found ← dirlookup dp name;
      match found with
      | Some (ip, _) =>
          iunlockput dp ;;
          ilock ip ;;
          s ← get;
          if (type =? T_FILE) && (di_type (din s ip) =? T_FILE) then mret (Some ip)
          else iunlockput ip ;; mret None
      | None =>
          s ← get;
          ip ← ialloc (i_dev (inode_at s dp)) type;
          ilock ip ;;
          upd_din ip (fun d => set_nlink 1 (set_minor (s16 minor) (set_major (s16 major) d))) ;;
          iupdate ip ;;
          s ← get;
          (if type =? T_DIR then
             nlink_add dp 1 ;;
             iupdate dp ;;
             a ← dirlink ip (str ".") (i_inum (inode_at s ip));
             b ← (if a <? 0 then mret (-1) else dirlink ip (str "..") (i_inum (inode_at s dp)));
             if b <? 0 then panic "create dots" else mret tt
           else mret tt) ;;
          l ← dirlink dp name (i_inum (inode_at s ip));
          if l <? 0 then panic "create: dirlink" else
          iunlockput dp ;;
          mret (Some ip)
      end
  end.

(** The inode that [sys_open] opens, locked; [None] after the [end_op] of a
    failure. *)
Definition open_inode (cwd : nat) (path : list Z) (omode : Z) : M fs (option nat) :=
  if negb (Z.land omode O_CREATE =? 0) then
    ip ← create cwd path T_FILE 0 0;
    match ip with
    | None => lop end_op ;; mret None
    | Some ip => mret (Some ip)
    end
  else
    ip ← namei cwd path;
    match ip with
    | None => lop end_op ;; mret None
    | Some ip =>
        ilock ip ;;
        s ← get;
        if (di_type (din s ip) =? T_DIR) && negb (omode =? O_RDONLY) then
          iunlockput ip ;; lop end_op ;; mret None
        else mret (Some ip)
    end.

Definition sys_open : M sys Z :=
  need (argstr cur 0) (fun path =>
  need (argint cur 1) (fun omode =>
  cwd ← mycwd;
  fsys (lop begin_op) ;;
  need (fsys (open_inode cwd path omode)) (fun ip =>
  f ← knop filealloc;
  fd ← (match f with Some f => fdalloc f | None => mret (-1) end);
  match f with
  | Some f =>
      if fd <? 0 then
        knop (fileclose end_ f) ;; fsys (iunlockput ip) ;; fsys (lop end_op) ;; mret (-1)
      else
        fsys (iunlock ip) ;;
        fsys (lop end_op) ;;
        knop (upd_file f (fun x => mkFile FD_INODE (fl_ref x) (Z.land omode O_WRONLY =? 0)
          (negb (Z.land omode O_WRONLY =? 0) || negb (Z.land omode O_RDWR =? 0)) (fl_pipe x) ip 0)) ;;
        mret fd
  | None => fsys (iunlockput ip) ;; fsys (lop end_op) ;; mret (-1)
  end))).

(** [begin_op] comes before the checks of the arguments. *)
Definition need_op {A} (m : M sys (option A)) (k : A -> M sys Z) : M sys Z :=
  r ← m; match r with None => fsys (lop end_op) ;; mret (-1) | Some a => k a end.

Definition sys_mkdir : M sys Z :=
  fsys (lop begin_op) ;;
  need_op (argstr cur 0) (fun path =>
  cwd ← mycwd;
  need_op (fsys (create cwd path T_DIR 0 0)) (fun ip =>
  fsys (iunlockput ip) ;; fsys (lop end_op) ;; mret 0)).

Definition sys_mknod : M sys Z :=
  fsys (lop begin_op) ;;
  need_op (argstr cur 0) (fun path =>
  need_op (argint cur 1) (fun major =>
  need_op (argint cur 2) (fun minor =>
  cwd ← mycwd;
  need_op (fsys (create cwd path T_DEV major minor)) (fun ip =>
  fsys (iunlockput ip) ;; fsys (lop end_op) ;; mret 0)))).

Definition sys_chdir : M sys Z :=
  fsys (lop begin_op) ;;
  need_op (argstr cur 0) (fun path =>
  cwd ← mycwd;
  need_op (fsys (namei cwd path)) (fun ip =>
  fsys (ilock ip) ;;
  s ← get;
  if negb (di_type (din (k_fs (kn s)) ip) =? T_DIR) then
    fsys (iunlockput ip) ;; fsys (lop end_op) ;; mret (-1)
  else
    fsys (iunlock ip) ;;
    fsys (iput cwd) ;;
    fsys (lop end_op) ;;
    updp cur (set_cwd (Some ip)) ;;
    mret 0)).

(** The loop of [sys_exec] from [argv[i]] on: [n] is [MAXARG - i]. *)
Fixpoint fetch_argv (n : nat) (uargv i : Z) : M sys (option (list (list Z))) :=
  match n with
  | O => mret None
  | S n' =>
      uarg ← fetchint cur (u32 (uargv + 4 * i));
      match uarg with
      | None => mret None
      | Some uarg =>
          if uarg =? 0 then mret (Some []) else
          a ← fetchstr cur (u32 uarg);
          match a with
          | None => mret None
          | Some a =>
              rest ← fetch_argv n' uargv (i + 1);
              mret (match rest with Some l => Some (a :: l) | None => None end)
          end
      end
  end.

Definition sys_exec : M sys Z :=
  need (argstr cur 0) (fun path =>
  need (argint cur 1) (fun uargv =>
  need (fetch_argv (Z.to_nat MAXARG) (u32 uargv) 0) (fun argv =>
  exec end_ data cur path argv))).

(** [d]: the bytes of the page that holds the pipe. *)
Definition sys_pipe (d : list Z) : M sys Z :=
  need (argptr cur 0 8) (fun fd =>
  need (knop (pipealloc end_ d)) (fun '(rf, wf) =>
  fd0 ← fdalloc rf;
  fd1 ← (if fd0 <? 0 then mret (-1) else fdalloc wf);
  if fd1 <? 0 then
    (if 0 <=? fd0 then set_fd (Z.to_nat fd0) None else mret tt) ;;
    knop (fileclose end_ rf) ;;
    knop (fileclose end_ wf) ;;
    mret (-1)
  else
    p ← myproc cur;
    vmop (ustore_n (p_pgdir p) fd (le_bytes 4 fd0)) ;;
    vmop (ustore_n (p_pgdir p) (fd + 4) (le_bytes 4 fd1)) ;;
    mret 0)).

(** ** [syscall]

    [SYS_fork] to [SYS_close], numbered from 1 as in [syscall.h]. *)
Inductive sysno :=
  | SYS_fork | SYS_exit | SYS_wait | SYS_pipe | SYS_read | SYS_kill | SYS_exec | SYS_fstat | SYS_chdir | SYS_dup
  | SYS_getpid | SYS_sbrk | SYS_sleep | SYS_uptime | SYS_open | SYS_write | SYS_mknod | SYS_unlink | SYS_link
  | SYS_mkdir | SYS_close.

Definition sysnos : list sysno :=
  [SYS_fork; SYS_exit; SYS_wait; SYS_pipe; SYS_read; SYS_kill; SYS_exec; SYS_fstat; SYS_chdir; SYS_dup;
   SYS_getpid; SYS_sbrk; SYS_sleep; SYS_uptime; SYS_open; SYS_write; SYS_mknod; SYS_unlink; SYS_link;
   SYS_mkdir; SYS_close].

Definition syscalls (d : list Z) (n : sysno) : M machine Z :=
  match n with
  | SYS_fork => syop (sys_fork end_ data cur)
  | SYS_exit => syop (sys_exit end_ cur)
  | SYS_wait => syop (sys_wait end_ cur)
  | SYS_pipe => syop (sys_pipe d)
  | SYS_read => syop sys_read
  | SYS_kill => syop (sys_kill cur)
  | SYS_exec => syop sys_exec
  | SYS_fstat => syop sys_fstat
  | SYS_chdir => syop sys_chdir
  | SYS_dup => syop sys_dup
  | SYS_getpid => syop (sys_getpid cur)
  | SYS_sbrk => syop (sys_sbrk end_ cur)
  | SYS_sleep => sys_sleep cur
  | SYS_uptime => sys_uptime
  | SYS_open => syop sys_open
  | SYS_write => syop sys_write
  | SYS_mknod => syop sys_mknod
  | SYS_unlink => syop sys_unlink
  | SYS_link => syop sys_link
  | SYS_mkdir => syop sys_mkdir
  | SYS_close => syop sys_close
  end.

(** An unknown number is reported on the console. *)
Definition syscall (d : list Z) : M machine unit :=
  p ← syop (myproc cur);
  let num := s32 (tf_eax (p_tf p)) in
  let no := if (0 <? num) && (num <? Z.of_nat (length sysnos) + 1) then sysnos !! Z.to_nat (num - 1) else None in
  r ← (match no with Some n => syscalls d n | None => mret (-1) end);
  syop (updp cur (fun p => set_tf (set_eax (u32 r) (p_tf p)) p)).
End files.
