(* ===== verification/Create.v ===== *)
(** * Creating files ([create] of [sysfile.c]): the file system stays consistent.

    [create] resolves the parent directory, allocates and initialises
    an inode and enters it in the directory, inside one transaction. The theorem of
    this file composes those on [namex], [ialloc], [iupdate] and [dirlink]:
    the volume stays consistent, the path now names the new file, and every other
    name and file is as before. *)

From Stdlib Require Import String.
From stdpp Require Import gmap.
From S2P Require Import Prelude CString Params Bio Log Trans Fs Balloc Inode Content Blockmap Dir Writei Volume Sysfile.
Local Open Scope Z_scope.

Section create.
Context `{BD : !BlockDevice} `{DS : !Devsw}.
Context (sb : superblock) (k : disk) (pid w : Z).
#[local] Abbreviation fs_ok := (fs_ok sb k pid w).
#[local] Abbreviation dinode_at := (dinode_at sb).
#[local] Abbreviation is_inum := (is_inum sb).
#[local] Abbreviation linked := (linked sb).
#[local] Abbreviation in_use := (in_use sb).
#[local] Abbreviation vol_ok := (vol_ok sb).
#[local] Abbreviation resolve := (resolve sb).
#[local] Abbreviation refs_used := (refs_used sb).

(** ** Paths in a tree that has grown *)

(** Directory [n] has the new entry [e] for [m]; the others keep theirs. *)
Record grown (v v' : list block) (n : Z) (e : list Z) (m : Z) : Prop := {
  gr_linked : forall j, linked v j -> linked v' j;
  gr_type : forall j, linked v j -> di_type (dinode_at v' j) = di_type (dinode_at v j);
  gr_absent : dir_find v (dinode_at v n) e = None;
  gr_find : forall j q, linked v j -> snd <$> dir_find v' (dinode_at v' j) q =
    if decide (j = n /\ q = e) then Some m else snd <$> dir_find v (dinode_at v j) q;
}.

Lemma resolve_linked np v es : tree_ok sb v -> forall j t, linked v j -> resolve np v j es = Some t ->
  linked v t /\ (np = true -> di_type (dinode_at v t) = T_DIR).
Proof.
  intros T. induction es as [|e es IH]; intros j t Hj; cbn [Dir.resolve]; [by destruct np; intros [= <-]|].
  destruct (Z.eqb_spec (di_type (dinode_at v j)) T_DIR) as [Et|]; cbn [negb]; [|done]. destruct (np && _); [by intros [= <-]|].
  destruct (dir_find v (dinode_at v j) e) as [[i m]|] eqn:Ef; [|done]. apply IH. by eapply dir_find_linked.
Qed.

Section grown.
Context (v v' : list block) (n : Z) (e : list Z) (m : Z) (T : tree_ok sb v) (Gr : grown v v' n e m).

Lemma grown_find j q i t : linked v j -> dir_find v (dinode_at v j) q = Some (i, t) -> exists i', dir_find v' (dinode_at v' j) q = Some (i', t).
Proof using Gr.
  intros Hj E. pose proof (gr_find _ _ _ _ _ Gr j q Hj) as H. rewrite E in H. case_decide as Hd; [destruct Hd as [-> ->]; by rewrite (gr_absent _ _ _ _ _ Gr) in E|].
  destruct (dir_find v' _ q) as [[i' t']|]; [|done]. injection H as ->. by exists i'.
Qed.

(** A path that led somewhere leads there still. *)
Lemma grown_resolve np es : forall j t, linked v j -> resolve np v j es = Some t -> resolve np v' j es = Some t.
Proof using T Gr.
  induction es as [|q es IH]; intros j t Hj; cbn [Dir.resolve]; [done|]. rewrite (gr_type _ _ _ _ _ Gr j Hj).
  destruct (Z.eqb_spec (di_type (dinode_at v j)) T_DIR) as [Et|]; cbn [negb]; [|done]. destruct (np && _); [done|].
  destruct (dir_find v (dinode_at v j) q) as [[i s]|] eqn:Ef; [|done]. destruct (grown_find j q i s Hj Ef) as [i' ->]. apply IH. by eapply dir_find_linked.
Qed.

(** The path to the parent and the new name lead to the new inode. *)
Lemma grown_path es : forall j, linked v j -> resolve true v j es = Some n -> last es = Some e -> resolve false v' j es = Some m.
Proof using T Gr.
  induction es as [|q es IH]; intros j Hj; cbn [Dir.resolve]; [done|]. rewrite (gr_type _ _ _ _ _ Gr j Hj).
  destruct (Z.eqb_spec (di_type (dinode_at v j)) T_DIR) as [Et|]; cbn [negb]; [|done]. cbn [andb]. destruct es as [|q' es].
  - intros [= ->] [= ->]. pose proof (gr_find _ _ _ _ _ Gr n e Hj) as H. rewrite decide_True in H by done.
    destruct (dir_find v' _ e) as [[i t]|]; [|done]. by injection H as ->.
  - destruct (dir_find v (dinode_at v j) q) as [[i s]|] eqn:Ef; [|done]. destruct (grown_find j q i s Hj Ef) as [i' ->].
    rewrite last_cons_cons. apply IH. by eapply dir_find_linked.
Qed.
End grown.

(** ** A new inode in a directory *)

(** The blocks that [create] may need: one for a new directory, and what its entry in the parent [n] takes. *)
Definition create_cost (v : list block) (n type : Z) : Z := (if decide (type = T_DIR) then 1 else 0) + dir_cost (di_size (dinode_at v n)).

(** What [create] gives up on: fewer free blocks than it needs, no inode, or no room in the directory. *)
Definition disk_full (v : list block) (n type : Z) (e : string) : Prop :=
  e = "balloc: out of blocks"%string /\ Z.of_nat (nfree sb v) < create_cost v n type \/ dir_full sb v n e \/ e = "ialloc: no inodes"%string /\ forall j, 0 < j < sb_ninodes sb -> di_type (dinode_at v j) <> 0.

(** The blocks that [create] may log. *)
Definition create_room (type : Z) : nat := if decide (type = T_DIR) then 15 else 6.

Definition new_dinode (type major minor : Z) : dinode := mkDinode type (s16 major) (s16 minor) 1 0 (replicate 13 0).

(** The inode of a new file; a directory has its two entries. *)
Definition is_new (type major minor : Z) (d : dinode) : Prop :=
  di_type d = type /\ di_major d = s16 major /\ di_minor d = s16 minor /\ di_nlink d = 1 /\ (type <> T_DIR -> di_size d = 0).
Definition has_dots (v : list block) (n m : Z) : Prop := forall q, snd <$> dir_find v (dinode_at v m) q =
  if decide (q = str "..") then Some n else if decide (q = str ".") then Some m else None.

(** The inode of the parent: one link more for [..] of a new directory. *)
Definition parent_after (type : Z) (d d' : dinode) : Prop :=
  di_type d' = di_type d /\ di_major d' = di_major d /\ di_minor d' = di_minor d /\ di_nlink d' = di_nlink d + if decide (type = T_DIR) then 1 else 0.

(** The inode [m], free before, is entered in directory [n] as [name] and held in entry [ip]. *)
Record created (v : list block) (L : list Z) (refs : gmap Z Z) (n : Z) (name : list Z) (type major minor : Z) (m : Z) (ip : nat) (s' : fs) (v' : list block) (L' : list Z) : Prop := {
  cr_fs : fs_ok s' v' L' ∅;
  cr_vol : vol_ok v';
  cr_cached : icached sb v' [ip] (f_inodes s');
  cr_held : exists y, f_inodes s' !! ip = Some y /\ held sb pid v' m ip y;
  cr_refs : irefs (f_inodes s') = ref_get m refs;
  cr_free : is_inum m /\ di_type (dinode_at v m) = 0;
  cr_din : is_new type major minor (dinode_at v' m);
  cr_dots : type = T_DIR -> has_dots v' n m;
  cr_grown : grown v v' n name m;
  cr_parent : parent_after type (dinode_at v n) (dinode_at v' n);
  cr_same : forall j, in_use v j -> j <> n -> same_inode sb v v' j;
  cr_log : (length L' + 1 <= length L + create_room type)%nat;
}.

Lemma fresh_ok type : short type -> dinode_ok (fresh_dinode type).
Proof. intros Ht. split; cbn [fresh_dinode di_type di_major di_minor di_nlink di_size di_addrs]; try done. by apply Forall_replicate. Qed.

Lemma new_ok type major minor : short type -> dinode_ok (new_dinode type major minor).
Proof. intros Ht. split; cbn [new_dinode di_type di_major di_minor di_nlink di_size di_addrs]; try done; try apply s16_short. by apply Forall_replicate. Qed.

Section new.
Context (s : fs) (v : list block) (L : list Z) (m0 : gmap Z Z) (n : Z) (dp : nat) (x : inode) (name : list Z) (type major minor : Z).
Context (F : fs_ok s v L ∅) (V : vol_ok v) (Hw : 1 <= w) (Hroom : room sb L (create_room type) 2).
Context (C : icached sb v [dp] (f_inodes s)) (Hx : f_inodes s !! dp = Some x) (He : held sb pid v n dp x).
Context (Hl : linked v n) (Ht : di_type (dinode_at v n) = T_DIR) (Hname : Forall is_byte name).
Context (Hrefs : irefs (f_inodes s) = ref_get n m0) (Hpos : positive m0) (Hcap : (S (S (S (size m0))) <= NINODE)%nat).
Context (Hused : refs_used v (f_inodes s)) (Hnone : dir_find v (dinode_at v n) (dname name) = None).
Context (Hty : short type) (Hty0 : type <> 0) (Hnl : type = T_DIR -> 0 < di_nlink (dinode_at v n) < 32767).

(** The inode is initialised: the view is [v2]; the directory is held as before. *)
Record prepared (m : Z) (ip : nat) (s2 : fs) (v2 : list block) (L2 : list Z) (y : inode) : Prop := {
  pr_fs : fs_ok s2 v2 L2 ∅;
  pr_vol : vol_ok v2;
  pr_cached : icached sb v2 [ip; dp] (f_inodes s2);
  pr_ip : f_inodes s2 !! ip = Some y;
  pr_held : held sb pid v2 m ip y;
  pr_dp : f_inodes s2 !! dp = Some x;
  pr_ne : ip <> dp /\ m <> n;
  pr_m : is_inum m /\ 0 < m /\ di_type (dinode_at v m) = 0;
  pr_din : dinode_at v2 m = new_dinode type major minor;
  pr_same : forall j, in_use v j -> same_inode sb v v2 j;
  pr_refs : irefs (f_inodes s2) = ref_get m (ref_get n m0);
  pr_free : nfree sb v2 = nfree sb v;
  pr_log : Z.of_nat (length L2) <= Z.of_nat (length L) + 1;
}.

Lemma same_linked v1 v2 j : same_inode sb v1 v2 j -> linked v1 j -> linked v2 j.
Proof using. intros [E _ _] (? & ? & ?). split; [done|]. by rewrite E. Qed.

Lemma free_not_dir m : di_type (dinode_at v m) = 0 -> m <> n.
Proof using Hl. intros H0 ->. by destruct Hl as (_ & ? & _). Qed.

(** The new cache entry is not the directory's. *)
Lemma got_other v1 m ip l' : got sb v1 [dp] m (f_inodes s) ip l' -> m <> n -> ip <> dp /\ l' !! dp = Some x.
Proof using Hx He.
  clear Hroom Hcap. intros (_ & _ & a & y & Ha & -> & (_ & _ & Hn) & Hor) Hne. assert (ip <> dp) as Hip.
  { intros ->. simplify_eq. destruct He as [(Hr & _ & E) _ _ _]. destruct Hor as [->|[? _]]; [|lia]. cbn in *. congruence. }
  split; [done|]. by rewrite list_lookup_insert_ne.
Qed.

Lemma need_room : Z.of_nat (length L) + 6 <= sb_nlog sb - 1 /\ (length L + 8 <= NBUF)%nat.
Proof using Hroom. clear - Hroom. destruct Hroom as [R1 R2]. unfold create_room in *. case_decide; lia. Qed.

Lemma create_prepare (f : nat -> M fs (option nat)) Q (E : string -> Prop) :
  (forall e, disk_full v n type e -> E e) -> (forall m ip s2 v2 L2 y, prepared m ip s2 v2 L2 y -> wpe (f ip) Q E s2) ->
  wpe (ip ← ialloc ROOTDEV type; ilock ip ;; upd_din ip (fun d => set_nlink 1 (set_minor (s16 minor) (set_major (s16 major) d))) ;; iupdate ip ;; f ip) Q E s.
Proof using F V Hw Hroom C Hx He Hl Hrefs Hcap Hused Hty Hty0 Hnl.
  intros HE HQ. pose proof (vo_layout _ _ V) as Ly. pose proof (fs_geom _ _ _ _ _ _ _ _ F) as G. pose proof (fs_vok _ _ _ _ _ _ _ _ F) as Hok.
  pose proof need_room as [R1 R2]. pose proof (size_ref_get n m0) as Hsz. pose proof (fo_inodes _ _ _ _ _ _ _ _ F) as Hlen.
  eapply wpe_bind, wpe_mono; [eapply (ialloc_gives sb k pid w v L [dp] (f_inodes s) type Ly Hw)| |]; [split; lia|done|rewrite Hrefs; lia|done|done|done| |intros e He'; apply HE; by right; right].
  intros ip s1 (m & [A1 A2 A3 A4 A5]). pose proof (free_not_dir m A3) as Hmn. destruct (got_other _ m ip _ A5 Hmn) as [Hip Hdp].
  set (v1 := put_inode sb m (fresh_dinode type) v) in *. pose proof (put_new sb v m (fresh_dinode type) V G Hok A1 (fresh_ok _ Hty) Hty0 A2 A3 eq_refl eq_refl) as Ch1.
  pose proof (put_eq sb v m (fresh_dinode type) V G Hok A1 (fresh_ok _ Hty)) as Ed1. fold v1 in Ch1, Ed1. pose proof (vol_changed sb v v1 m V Ch1) as V1.
  pose proof (length_logged L (IBLOCK m sb)) as HL1. destruct A5 as (Gr & Gc & a & y & Ha & Gi & Gy & _).
  assert (f_inodes s1 !! ip = Some y) as Hy by (rewrite Gi; apply list_lookup_insert_eq; by eapply lookup_lt_Some).
  apply wpe_bind_wp. eapply ilock_cached; [exact A4|apply V1|lia|exact Gc|by intros ?%list_elem_of_singleton|exact Hy|exact Gy|by rewrite Ed1|].
  intros s2 y2 F2 C2 Ei2 Er2 He2. assert (f_inodes s2 !! ip = Some y2) as Hy2 by (rewrite Ei2; apply list_lookup_insert_eq; by eapply lookup_lt_Some).
  assert (in_use v1 m) as Hu1 by apply Ch1.
  eapply (update_meta sb k pid w s2 v1 _ [ip; dp] m ip y2 _ F2 V1 Hw); rewrite ?Ed1; [split; lia|exact C2|exact Hy2|exact He2|exact Hu1|by apply (new_ok type major minor)|done|unfold Volume.addrs; by rewrite Ed1|done|done|intros _ _; by apply empty_dir|].
  intros s3 F3 C3 Ei3 Er3 He3 Ed3 _ Ch3. eapply HQ. split.
  - exact F3.
  - exact (vol_changed sb v1 _ m V1 Ch3).
  - exact C3.
  - rewrite Ei3. apply list_lookup_insert_eq. by eapply lookup_lt_Some.
  - exact He3.
  - rewrite Ei3, Ei2, !list_lookup_insert_ne by done. exact Hdp.
  - done.
  - done.
  - exact Ed3.
  - intros j Hj. assert (j <> m) as Hjm by (intros ->; by destruct Hj). pose proof (changed_same sb v v1 m V Ch1 j Hj Hjm) as S1.
    eapply same_inode_trans; [exact S1|]. apply (changed_same sb v1 _ m V1 Ch3); [by eapply same_inode_use|done].
  - by rewrite Er3, Er2, Gr, Hrefs.
  - rewrite put_nfree; [|exact V1|exact (fs_geom _ _ _ _ _ _ _ _ F2)|exact A1]. by apply put_nfree.
  - assert (logged (logged L (IBLOCK m sb)) (IBLOCK m sb) = logged L (IBLOCK m sb)) as ->; [|lia]. unfold logged at 1. rewrite decide_True; [done|]. apply elem_logged. by right.
Qed.

(** [.] and [..] are in a new directory. *)
Record ready (m : Z) (ip : nat) (s2 : fs) (v2 : list block) (L2 : list Z) (y x2 : inode) : Prop := {
  rd_fs : fs_ok s2 v2 L2 ∅;
  rd_vol : vol_ok v2;
  rd_cached : icached sb v2 [ip; dp] (f_inodes s2);
  rd_ip : f_inodes s2 !! ip = Some y;
  rd_held : held sb pid v2 m ip y;
  rd_dp : f_inodes s2 !! dp = Some x2;
  rd_dir : held sb pid v2 n dp x2;
  rd_ne : ip <> dp /\ m <> n;
  rd_m : is_inum m /\ 0 < m /\ di_type (dinode_at v m) = 0;
  rd_din : is_new type major minor (dinode_at v2 m);
  rd_dots : type = T_DIR -> has_dots v2 n m;
  rd_n : linked v2 n /\ di_type (dinode_at v2 n) = T_DIR /\ di_size (dinode_at v2 n) = di_size (dinode_at v n);
  rd_find : forall q, dir_find v2 (dinode_at v2 n) q = dir_find v (dinode_at v n) q;
  rd_same : forall j, in_use v j -> j <> n -> same_inode sb v v2 j;
  rd_refs : irefs (f_inodes s2) = ref_get m (ref_get n m0);
  rd_parent : parent_after type (dinode_at v n) (dinode_at v2 n);
  rd_free : Z.of_nat (nfree sb v) <= Z.of_nat (nfree sb v2) + if decide (type = T_DIR) then 1 else 0;
  rd_log : (length L2 + 5 <= length L + create_room type)%nat;
}.

Lemma prepared_ready m ip s2 v2 L2 y : prepared m ip s2 v2 L2 y -> type <> T_DIR -> ready m ip s2 v2 L2 y x.
Proof using He Hl Ht.
  clear Hroom Hcap Hnl. intros [F2 V2 C2 Hy Hhe Hdp Hne Hm Ed2 S2 Er2 Nf2 HL2] Htd. pose proof (S2 n (linked_use sb v n Hl)) as Sn. pose proof (sm_din _ _ _ _ Sn) as Edn.
  split; try assumption.
  - destruct He as [H1 H2 H3 H4]. split; [done..|by rewrite Edn].
  - rewrite Ed2. split_and!; reflexivity.
  - intros Hd. by destruct Htd.
  - rewrite Edn. split; [exact (same_linked _ _ _ Sn Hl)|]. by split.
  - intros q. exact (same_inode_find sb v v2 n q Sn).
  - intros j Hj _. by apply S2.
  - rewrite Edn. unfold parent_after. rewrite decide_False by done. split_and!; [done..|lia].
  - rewrite decide_False by done. lia.
  - unfold create_room. rewrite decide_False by done. lia.
Qed.

(** A new directory: the link of [..], then the two entries. *)
Section dots.
Context (m : Z) (ip : nat) (s2 : fs) (v2 : list block) (L2 : list Z) (y : inode) (P : prepared m ip s2 v2 L2 y) (Htd : type = T_DIR).

Definition more_links (d : dinode) : dinode := set_nlink (s16 (di_nlink d + 1)) d.

(** The parent has one link more. *)
Record parent_linked (s3 : fs) (v3 : list block) (L3 : list Z) (x3 : inode) : Prop := {
  pl_fs : fs_ok s3 v3 L3 ∅;
  pl_vol : vol_ok v3;
  pl_cached : icached sb v3 [ip; dp] (f_inodes s3);
  pl_inodes : f_inodes s3 = <[dp := x3]> (f_inodes s2);
  pl_refs : irefs (f_inodes s3) = irefs (f_inodes s2);
  pl_held : held sb pid v3 n dp x3;
  pl_din : dinode_at v3 n = more_links (dinode_at v n);
  pl_entries : entries v3 (dinode_at v3 n) = entries v (dinode_at v n);
  pl_changed : changed sb v2 v3 n;
  pl_free : nfree sb v3 = nfree sb v;
  pl_log : (length L3 <= length L + 2)%nat;
}.

Lemma dots_parent {A} (f : M fs A) Q E : (forall s3 v3 L3 x3, parent_linked s3 v3 L3 x3 -> wpe f Q E s3) -> wpe (nlink_add dp 1 ;; iupdate dp ;; f) Q E s2.
Proof using F V Hw Hroom He Hl Ht Hnl P Htd.
  clear Hcap. intros HQ. destruct P as [F2 V2 C2 Hy Hhe Hdp Hne Hm Ed2 S2 Er2 Nf2 HL2]. pose proof (S2 n (linked_use sb v n Hl)) as Sn. pose proof (sm_din _ _ _ _ Sn) as Edn.
  pose proof (same_linked _ _ _ Sn Hl) as Hl2. specialize (Hnl Htd). pose proof need_room as [R1 R2].
  assert (held sb pid v2 n dp x) as He2 by (destruct He as [H1 H2 H3 H4]; split; [done..|by rewrite Edn]).
  assert (s16 (di_nlink (dinode_at v n) + 1) = di_nlink (dinode_at v n) + 1) as Es by (apply s16_small; lia).
  assert (dinode_ok (dinode_at v2 n)) as Hk by (apply dinode_at_ok; [apply V2|apply (fs_geom _ _ _ _ _ _ _ _ F2)|apply (fs_vok _ _ _ _ _ _ _ _ F2)|apply Hl2]).
  eapply (update_meta sb k pid w s2 v2 L2 [ip; dp] n dp x more_links F2 V2 Hw); [split; lia|exact C2|exact Hdp|exact He2|exact (linked_use sb v2 n Hl2)|..].
  - destruct Hk. split; try assumption. apply s16_short.
  - apply Hl2.
  - reflexivity.
  - reflexivity.
  - intros _. cbn [more_links set_nlink di_nlink]. rewrite Edn, Es. lia.
  - intros _ _. apply (tr_dir _ _ (vo_tree _ _ V2)); [exact Hl2|by rewrite Edn].
  - intros s3 F3 C3 Ei3 Er3 He3 Ed3 Ee3 Ch3. eapply HQ. split; [exact F3|exact (vol_changed sb v2 _ n V2 Ch3)|exact C3|exact Ei3|exact Er3|exact He3|by rewrite Ed3, Edn| |exact Ch3| |].
    + rewrite Ed3, Ee3. exact (sm_entries _ _ _ _ Sn).
    + rewrite <- Nf2. apply put_nfree; [exact V2|exact (fs_geom _ _ _ _ _ _ _ _ F2)|apply Hl2].
    + pose proof (length_logged L2 (IBLOCK n sb)). lia.
Qed.

Lemma empty_find v3 q : dinode_at v3 m = new_dinode type major minor -> dir_find v3 (dinode_at v3 m) q = None.
Proof using. intros ->. reflexivity. Qed.

(** The first entry takes a block, the second none. *)
Lemma dots_cost s3 v3 L3 x3 s4 v4 L4 y4 : parent_linked s3 v3 L3 x3 -> entry_added sb k pid w s3 v3 L3 [ip; dp] m ip (str ".") m s4 v4 L4 y4 ->
  dir_cost (di_size (dinode_at v3 m)) = 1 /\ dir_cost (di_size (dinode_at v4 m)) = 0 /\ Z.of_nat (nfree sb v) <= Z.of_nat (nfree sb v4) + 1.
Proof using P Htd Hty0.
  clear Hroom Hcap Hnl. intros PL A4. destruct P as [_ _ _ _ _ _ [_ Hmn] (Hm & _) Ed2 _ _ _ _]. destruct PL as [_ _ _ _ _ _ _ _ Ch3 Nf3 _]. destruct A4 as [_ V4 _ _ _ _ Ch4 _ (B1 & _ & _ & B4) Sz4 Nf4 Hlen4 _].
  assert (dinode_at v3 m = new_dinode type major minor) as Em3 by (rewrite (ch_other _ _ _ _ Ch3); [exact Ed2|exact Hm|done]). rewrite Em3 in *. change (dir_cost _) with 1 in Nf4 |- * at 1.
  split; [done|]. split; [|lia]. change (length (entries v3 (new_dinode type major minor))) with 0%nat in Hlen4. rewrite length_entries in Hlen4.
  assert (linked v4 m) as Hlm by (split; [exact Hm|]; rewrite B1, B4; by split). pose proof (tr_dir _ _ (vo_tree _ _ V4) m Hlm ltac:(by rewrite B1)) as D. pose proof (dk_whole _ _ _ D).
  assert (di_size (dinode_at v4 m) = 16) as -> by (unfold DIRENT_SIZE in *; Z.to_euclidean_division_equations; lia). done.
Qed.

(** What is known of the new directory between its two entries. *)
Lemma dots_ready s3 v3 L3 x3 s4 v4 L4 y4 s5 v5 L5 y5 : parent_linked s3 v3 L3 x3 ->
  entry_added sb k pid w s3 v3 L3 [ip; dp] m ip (str ".") m s4 v4 L4 y4 ->
  entry_added sb k pid w s4 v4 L4 [ip; dp] m ip (str "..") n s5 v5 L5 y5 -> ready m ip s5 v5 L5 y5 x3.
Proof using Hl Ht Hty0 Hnl P Htd.
  clear Hcap Hroom. intros PL A4 A5. destruct (dots_cost _ _ _ _ _ _ _ _ PL A4) as (_ & Cost & Nf). destruct P as [F2 V2 C2 Hy Hhe Hdp [Hne Hmn] Hm Ed2 S2 Er2 Nf2 HL2]. destruct PL as [F3 V3 C3 Ei3 Er3 He3 Ed3 Ee3 Ch3 Nf3 HL3].
  destruct A4 as [F4 V4 C4 Ei4 Er4 He4 Ch4 Hf4 (B1 & B2 & B3 & B4) Sz4 Nf4 Hlen4 HL4]. destruct A5 as [F5 V5 C5 Ei5 Er5 He5 Ch5 Hf5 (D1 & D2 & D3 & D4) _ Nf5 _ HL5].
  assert (dinode_at v3 m = new_dinode type major minor) as Em3 by (rewrite (ch_other _ _ _ _ Ch3); [exact Ed2|apply Hm|done]).
  assert (linked v3 n) as Hl3 by (apply (ch_linked_all sb v2 v3 n Ch3); exact (same_linked _ _ _ (S2 n (linked_use sb v n Hl)) Hl)).
  assert (same_inode sb v3 v5 n) as S5.
  { eapply same_inode_trans; [apply (changed_same sb v3 v4 m V3 Ch4)|apply (changed_same sb v4 v5 m V4 Ch5)]; [exact (linked_use sb v3 n Hl3)|congruence| |congruence].
    apply linked_use, (ch_linked_all sb v3 v4 m Ch4), Hl3. }
  pose proof (sm_din _ _ _ _ S5) as Ed5. rewrite B1, Em3 in D1. rewrite B2, Em3 in D2. rewrite B3, Em3 in D3. rewrite B4, Em3 in D4.
  pose proof (lookup_lt_Some _ _ _ Hy) as Hly. pose proof (lookup_lt_Some _ _ _ Hdp) as Hlx. split.
  - exact F5.
  - exact V5.
  - exact C5.
  - rewrite Ei5, Ei4, Ei3. apply list_lookup_insert_eq. by rewrite !length_insert.
  - exact He5.
  - rewrite Ei5, Ei4, Ei3, !list_lookup_insert_ne by done. by apply list_lookup_insert_eq.
  - destruct He3 as [H1 H2 H3 H4]. split; [done..|by rewrite Ed5].
  - done.
  - exact Hm.
  - split_and!; [exact D1|exact D2|exact D3|exact D4|]. intros H. by destruct H.
  - intros _ q. rewrite Hf5. change (dname (str "..")) with (str ".."). case_decide; [reflexivity|]. rewrite Hf4, (empty_find v3 q Em3). reflexivity.
  - split; [exact (same_linked _ _ _ S5 Hl3)|]. rewrite Ed5, Ed3. split; [exact Ht|reflexivity].
  - intros q. rewrite (same_inode_find sb v3 v5 n q S5). unfold dir_find. by rewrite Ee3.
  - intros j Hj Hjn. assert (j <> m) as Hjm by (intros ->; destruct Hj as [_ Hj]; by destruct Hm as (_ & _ & ?)).
    pose proof (S2 j Hj) as T2. pose proof (same_inode_use _ _ _ _ T2 Hj) as U2. pose proof (changed_same sb v2 v3 n V2 Ch3 j U2 Hjn) as T3. pose proof (same_inode_use _ _ _ _ T3 U2) as U3.
    pose proof (changed_same sb v3 v4 m V3 Ch4 j U3 Hjm) as T4. pose proof (same_inode_use _ _ _ _ T4 U3) as U4. pose proof (changed_same sb v4 v5 m V4 Ch5 j U4 Hjm) as T5.
    exact (same_inode_trans _ _ _ _ _ (same_inode_trans _ _ _ _ _ (same_inode_trans _ _ _ _ _ T2 T3) T4) T5).
  - by rewrite Er5, Er4, Er3.
  - rewrite Ed5, Ed3. unfold parent_after, more_links. cbn [set_nlink di_type di_major di_minor di_nlink]. rewrite decide_True by done. split_and!; [done..|]. apply s16_small. specialize (Hnl Htd). lia.
  - rewrite decide_True by done. lia.
  - unfold create_room. rewrite decide_True by done. lia.
Qed.

Lemma dots_ok (f : M fs (option nat)) Q (E : string -> Prop) :
  (forall e, disk_full v n type e -> E e) -> (forall s5 v5 L5 y5 x5, ready m ip s5 v5 L5 y5 x5 -> wpe f Q E s5) ->
  wpe ((nlink_add dp 1 ;; iupdate dp ;;
        a ← dirlink ip (str ".") m;
        b ← (if a <? 0 then mret (-1) else dirlink ip (str "..") n);
        if b <? 0 then panic "create dots" else mret tt) ;; f) Q E s2.
Proof using F V Hw Hroom He Hl Ht Hrefs Hcap Hty0 Hnl P Htd.
  intros HE HQ. apply wpe_bind. eapply dots_parent. intros s3 v3 L3 x3 PL. pose proof P as [F2 V2 C2 Hy Hhe Hdp [Hne Hmn] (Hm & Hm0 & _) Ed2 S2 Er2 Nf2 HL2].
  pose proof PL as [F3 V3 C3 Ei3 Er3 He3 Ed3 Ee3 Ch3 Nf3 HL3]. destruct Hroom as [R1 R2]. unfold create_room in R1, R2. rewrite decide_True in R1, R2 by done.
  assert (dinode_at v3 m = new_dinode type major minor) as Em3 by (rewrite (ch_other _ _ _ _ Ch3); [exact Ed2|exact Hm|done]).
  pose proof (size_ref_get n m0). pose proof (size_ref_get m (ref_get n m0)). assert (linked v3 m) as Hlm by (split; [exact Hm|]; rewrite Em3; by split).
  assert (linked v3 n) as Hln by (apply (ch_linked_all sb v2 v3 n Ch3); exact (same_linked _ _ _ (S2 n (linked_use sb v n Hl)) Hl)).
  eapply wpe_bind, wpe_mono; [eapply (dirlink_adds sb k pid w s3 v3 L3 [ip; dp] m ip y (str ".") m F3 V3 Hw)| |]; try assumption.
  - split; lia.
  - by rewrite Ei3, list_lookup_insert_ne.
  - destruct Hhe as [H1 H2 H3 H4]. split; [done..|]. rewrite Em3, H4. exact Ed2.
  - by rewrite Em3.
  - by repeat constructor.
  - rewrite Er3, Er2, (fo_inodes _ _ _ _ _ _ _ _ F3). lia.
  - exact (empty_find v3 _ Em3).
  - intros r s4 [-> (v4 & L4 & y4 & A4)]. change (0 <? 0) with false. cbv iota. pose proof A4 as [F4 V4 C4 Ei4 Er4 He4 Ch4 Hf4 (B1 & B2 & B3 & B4) Sz4 Nf4 Hlen HL4].
    rewrite Em3 in Hlen. change (length (entries v3 (new_dinode type major minor))) with 0%nat in Hlen. rewrite length_entries in Hlen.
    pose proof (lookup_lt_Some _ _ _ Hy). eapply wpe_bind, wpe_mono; [eapply (dirlink_adds sb k pid w s4 v4 L4 [ip; dp] m ip y4 (str "..") n F4 V4 Hw)| |]; try assumption.
    + split; lia.
    + rewrite Ei4. apply list_lookup_insert_eq. by rewrite Ei3, length_insert.
    + exact (ch_linked_all sb v3 v4 m Ch4 m Hlm).
    + by rewrite B1, Em3.
    + exact (ch_linked_all sb v3 v4 m Ch4 n Hln).
    + exact (use_pos sb v n V (linked_use sb v n Hl)).
    + by repeat constructor.
    + rewrite Er4, Er3, Er2, (fo_inodes _ _ _ _ _ _ _ _ F4). lia.
    + specialize (Hf4 (str "..")). rewrite decide_False in Hf4 by done. rewrite (empty_find v3 _ Em3) in Hf4. change (dname (str "..")) with (str ".."). by destruct (dir_find v4 _ _).
    + intros r s5 [-> (v5 & L5 & y5 & A5)]. change (0 <? 0) with false. cbv iota. apply wpe_wp, wp_ret. eapply HQ. by eapply dots_ready.
    + destruct (dots_cost _ _ _ _ _ _ _ _ PL A4) as (_ & Cost & _). intros e [[_ He']|[-> Hfull]]; [lia|]. exfalso. rewrite Hfull in Hlen. vm_compute in Hlen. lia.
  - intros e [[-> He']|[-> Hfull]].
    { apply HE. left. split; [done|]. rewrite Em3, Nf3 in He'. change (dir_cost _) with 1 in He'. unfold create_cost. rewrite decide_True by done. pose proof (dir_cost_pos (di_size (dinode_at v n))). lia. }
    exfalso. rewrite Em3 in Hfull. vm_compute in Hfull. congruence.
Qed.
End dots.

(** The entry is added and the directory released. *)
Lemma ready_grown m ip s2 v2 L2 y x2 s3 v3 L3 x3 : ready m ip s2 v2 L2 y x2 -> entry_added sb k pid w s2 v2 L2 [ip; dp] n dp name m s3 v3 L3 x3 ->
  grown v v3 n (dname name) m.
Proof using Hl Ht Hnone.
  clear Hroom Hcap Hnl. intros R A. pose proof (rd_n _ _ _ _ _ _ _ R) as (Ln & Tn & _). pose proof (rd_same _ _ _ _ _ _ _ R) as S2. pose proof (rd_find _ _ _ _ _ _ _ R) as Fn.
  destruct A as [F3 V3 C3 Ei3 Er3 He3 Ch Hf (B1 & _) _ _ _ HL3]. pose proof (rd_vol _ _ _ _ _ _ _ R) as V2. clear R.
  assert (forall j, linked v j -> j <> n -> same_inode sb v v3 j) as S3.
  { intros j Hj Hne. pose proof (S2 j (linked_use sb v j Hj) Hne) as T2. eapply same_inode_trans; [exact T2|].
    apply (changed_same sb v2 v3 n V2 Ch); [exact (same_inode_use _ _ _ _ T2 (linked_use sb v j Hj))|done]. }
  split.
  - intros j Hj. destruct (decide (j = n)) as [->|Hne]; [exact (ch_linked_all sb v2 v3 n Ch n Ln)|exact (same_linked _ _ _ (S3 j Hj Hne) Hj)].
  - intros j Hj. destruct (decide (j = n)) as [->|Hne]; [by rewrite B1, Tn, Ht|]. by rewrite (sm_din _ _ _ _ (S3 j Hj Hne)).
  - exact Hnone.
  - intros j q Hj. destruct (decide (j = n)) as [->|Hne].
    + rewrite Hf, Fn. destruct (decide (q = dname name)) as [->|Hq]; [by rewrite decide_True|]. by rewrite decide_False by naive_solver.
    + rewrite decide_False by naive_solver. by rewrite (same_inode_find sb v v3 j q (S3 j Hj Hne)).
Qed.

Lemma create_enter m ip s2 v2 L2 y x2 : ready m ip s2 v2 L2 y x2 ->
  wpe (l ← dirlink dp name m; if l <? 0 then panic "create: dirlink" else iunlockput dp ;; mret (Some ip))
    (fun r s' => r = Some ip /\ exists v' L', created v L m0 n (dname name) type major minor m ip s' v' L') (disk_full v n type) s2.
Proof using V Hw Hroom Hl Ht Hname Hpos Hcap Hnone Hty0.
  clear Hnl Hty C Hx He F Hrefs Hused. intros R. pose proof R as [F2 V2 C2 Hy Hhe Hdp Hed [Hip Hmn] (Hm & Hm0 & Hmf) (E1 & E2 & E3 & E4 & E5) Hdots (Ln & Tn & Sn) Fn S2 Er2 (P1 & P2 & P3 & P4) Nf2 HL2]. destruct Hroom as [R1 R2].
  assert (linked v2 m) as Hlm by (split; [done|]; rewrite E1, E4; by split).
  pose proof (size_ref_get n m0). pose proof (size_ref_get m (ref_get n m0)). pose proof (lookup_lt_Some _ _ _ Hdp) as Hlt.
  eapply wpe_bind, wpe_mono; [apply (dirlink_adds sb k pid w s2 v2 L2 [ip; dp] n dp x2 name m F2 V2 Hw)| |]; try assumption.
  - split; lia.
  - rewrite Er2, (fo_inodes _ _ _ _ _ _ _ _ F2). lia.
  - by rewrite Fn.
  - intros r s3 [-> (v3 & L3 & x3 & A)]. apply wpe_wp. pose proof (ready_grown _ _ _ _ _ _ _ _ _ _ _ R A) as Gr. destruct A as [F3 V3 C3 Ei3 Er3 He3 Ch Hf (B1 & B2 & B3 & B4) _ _ _ HL3].
    change (0 <? 0) with false. cbv iota. apply wp_bind. eapply (iunlockput_cached sb k pid w s3 v3 L3 [ip]).
    + exact F3.
    + eapply icached_lk; [|exact C3]. intros j Hj Hin. apply Hj. rewrite !elem_of_cons in Hin |- *. tauto.
    + intros E%list_elem_of_singleton. by apply Hip.
    + rewrite Ei3. by apply list_lookup_insert_eq.
    + exact He3.
    + rewrite B4. apply Ln.
    + intros s4 z F4 C4 Er4 Ei4 _. apply wp_ret. split; [done|]. exists v3, L3. assert (dinode_at v3 m = dinode_at v2 m) as Edm by (by apply (ch_other _ _ _ _ Ch)). split.
      * exact F4.
      * exact V3.
      * exact C4.
      * exists y. rewrite Ei4, Ei3, !list_lookup_insert_ne by done. split; [done|]. destruct Hhe as [H1 H2 H3 H4]. split; [done..|by rewrite Edm].
      * rewrite Er4, Er3, Er2, ref_get_comm. apply ref_put_get, ref_get_positive, Hpos.
      * done.
      * rewrite Edm. by split_and!.
      * intros Hd q. rewrite (same_inode_find sb v2 v3 m q); [exact (Hdots Hd q)|]. apply (changed_same sb v2 v3 n V2 Ch); [exact (linked_use sb v2 m Hlm)|done].
      * exact Gr.
      * unfold parent_after. rewrite B1, B2, B3, B4. done.
      * intros j Hj Hne. pose proof (S2 j Hj Hne) as Sj. eapply same_inode_trans; [exact Sj|]. apply (changed_same sb v2 v3 n V2 Ch); [exact (same_inode_use _ _ _ _ Sj Hj)|done].
      * lia.
  - intros e [[-> Hno]|[-> Hfull]]; [left; split; [done|]; unfold create_cost; rewrite Sn in Hno; lia|]. right. left. split; [done|]. by rewrite <- Sn.
Qed.

(** The code of [create] when the name is new. *)
Lemma create_fresh : wpe (s ← get; ip ← ialloc (i_dev (inode_at s dp)) type; ilock ip ;;
    upd_din ip (fun d => set_nlink 1 (set_minor (s16 minor) (set_major (s16 major) d))) ;; iupdate ip ;;
    s ← get;
    (if type =? T_DIR then
       nlink_add dp 1 ;; iupdate dp ;;
       a ← dirlink ip (str ".") (i_inum (inode_at s ip));
       b ← (if a <? 0 then mret (-1) else dirlink ip (str "..") (i_inum (inode_at s dp)));
       if b <? 0 then panic "create dots" else mret tt
     else mret tt) ;;
    l ← dirlink dp name (i_inum (inode_at s ip));
    if l <? 0 then panic "create: dirlink" else iunlockput dp ;; mret (Some ip))
  (fun r s' => exists m ip v' L', r = Some ip /\ created v L m0 n (dname name) type major minor m ip s' v' L') (disk_full v n type) s.
Proof using F V Hw Hroom C Hx He Hl Ht Hname Hrefs Hpos Hcap Hused Hnone Hty Hty0 Hnl.
  apply wpe_bind_wp, wp_get. assert (inode_at s dp = x) as -> by (by apply list_lookup_total_correct).
  assert (i_dev x = ROOTDEV) as -> by apply (he_caches _ _ _ _ _ _ He).
  eapply create_prepare; [done|]. intros m ip s2 v2 L2 y P. apply wpe_bind_wp, wp_get.
  assert (i_inum (inode_at s2 ip) = m) as ->.
  { unfold inode_at. rewrite (list_lookup_total_correct _ _ _ (pr_ip _ _ _ _ _ _ P)). apply (he_caches _ _ _ _ _ _ (pr_held _ _ _ _ _ _ P)). }
  assert (i_inum (inode_at s2 dp) = n) as ->.
  { unfold inode_at. rewrite (list_lookup_total_correct _ _ _ (pr_dp _ _ _ _ _ _ P)). apply (he_caches _ _ _ _ _ _ He). }
  assert (forall s5 v5 L5 y5 x5, ready m ip s5 v5 L5 y5 x5 ->
    wpe (l ← dirlink dp name m; if l <? 0 then panic "create: dirlink" else iunlockput dp ;; mret (Some ip))
      (fun r s' => exists m ip v' L', r = Some ip /\ created v L m0 n (dname name) type major minor m ip s' v' L') (disk_full v n type) s5) as Hend.
  { intros s5 v5 L5 y5 x5 R. eapply wpe_mono; [by eapply create_enter| |done]. intros r s' [-> (v' & L' & Hc)]. by exists m, ip, v', L'. }
  destruct (Z.eqb_spec type T_DIR) as [Htd|Htd].
  - by eapply dots_ok.
  - apply wpe_bind_wp, wp_ret. eapply Hend. by apply prepared_ready.
Qed.
End new.

(** ** The whole of [create] *)

(** The last element of a path names an inode that exists. *)
Definition opened (v : list block) (L : list Z) (refs : gmap Z Z) (type t : Z) (r : option nat) (s' : fs) : Prop :=
  fs_ok s' v L ∅ /\
  if decide (type = T_FILE /\ di_type (dinode_at v t) = T_FILE)
  then exists ip y, r = Some ip /\ f_inodes s' !! ip = Some y /\ held sb pid v t ip y /\ icached sb v [ip] (f_inodes s') /\ irefs (f_inodes s') = ref_get t refs
  else r = None /\ icached sb v [] (f_inodes s') /\ irefs (f_inodes s') = refs.

(** The path has no parent directory. *)
Definition no_parent (v : list block) (L : list Z) (refs : gmap Z Z) (r : option nat) (s' : fs) : Prop :=
  r = None /\ fs_ok s' v L ∅ /\ icached sb v [] (f_inodes s') /\ irefs (f_inodes s') = refs.

Section whole.
Context (s : fs) (v : list block) (L : list Z) (m0 : gmap Z Z) (type : Z).
Context (V : vol_ok v) (HL : (length L < NBUF)%nat) (Hpos : positive m0).

Lemma create_opened s1 n dp x l t next :
  fs_ok s1 v L ∅ -> l !! dp = Some x -> held sb pid v n dp x -> got sb v [dp] t l next (f_inodes s1) -> linked v n -> linked v t -> irefs l = ref_get n m0 ->
  wp (iunlockput dp ;; ilock next ;; s ← get;
      if (type =? T_FILE) && (di_type (din s next) =? T_FILE) then mret (Some next) else iunlockput next ;; mret None)
    (opened v L m0 type t) s1.
Proof using V HL Hpos.
  intros F Hx He Hg Hl Hlt Er. pose proof (vo_layout _ _ V) as Ly. apply wp_bind. eapply leave_dir; [exact F|exact Hx|exact He|exact Hg|apply Hl|exact Er|exact Hpos|].
  intros s2 z F2 C2 Hz Hc E2. apply wp_bind. eapply ilock_cached; [exact F2|done|done|exact C2|apply not_elem_of_nil|exact Hz|exact Hc|apply Hlt|].
  intros s3 y F3 C3 Ei3 Er3 He3. assert (f_inodes s3 !! next = Some y) as Hy by (rewrite Ei3; apply list_lookup_insert_eq; by eapply lookup_lt_Some).
  rewrite E2 in Er3. apply wp_bind, wp_get. destruct (din_held sb pid v t next y _ Hy He3 s3 eq_refl) as [-> _]. unfold opened.
  destruct (Z.eqb_spec type T_FILE) as [->|Hn1]; [destruct (Z.eqb_spec (di_type (dinode_at v t)) T_FILE) as [E|Hn2]|]; cbn [andb].
  - apply wp_ret. split; [done|]. rewrite decide_True by done. by exists next, y.
  - apply wp_bind. eapply iunlockput_cached; [exact F3|exact C3|apply not_elem_of_nil|exact Hy|exact He3|apply Hlt|]. intros s4 q F4 C4 Er4 _ _.
    apply wp_ret. split; [done|]. rewrite decide_False by naive_solver. by rewrite Er4, Er3, ref_put_get.
  - apply wp_bind. eapply iunlockput_cached; [exact F3|exact C3|apply not_elem_of_nil|exact Hy|exact He3|apply Hlt|]. intros s4 q F4 C4 Er4 _ _.
    apply wp_ret. split; [done|]. rewrite decide_False by naive_solver. by rewrite Er4, Er3, ref_put_get.
Qed.
End whole.

(** The outcome of [create], by what the path names on disk. *)
Definition create_result (v : list block) (L : list Z) (refs : gmap Z Z) (start : Z) (es : list (list Z)) (type major minor : Z) (r : option nat) (s' : fs) : Prop :=
  match resolve true v start es, last es with
  | Some n, Some e =>
      match dir_find v (dinode_at v n) e with
      | Some (_, t) => opened v L refs type t r s'
      | None => exists m ip v' L', r = Some ip /\ created v L refs n e type major minor m ip s' v' L' /\ resolve false v' start es = Some m /\
          forall j es' t, linked v j -> resolve false v j es' = Some t -> resolve false v' j es' = Some t
      end
  | _, _ => no_parent v L refs r s'
  end.

Lemma start_linked s v cwd path : tree_ok sb v -> has_cwd sb s v cwd path -> linked v (walk_start s cwd path).
Proof.
  intros T Hcwd. unfold walk_start. unfold has_cwd in Hcwd. destruct (cstr path) as [|c p]; [|destruct (Z.eqb_spec c SLASH); [apply (tr_root _ _ T)|]];
    (destruct Hcwd as (q & Hq & _ & Hlq); [done|]); unfold inode_at; by rewrite (list_lookup_total_correct _ _ _ Hq).
Qed.

Lemma create_ok s v L cwd path type major minor :
  fs_ok s v L ∅ -> vol_ok v -> 1 <= w -> room sb L (create_room type) 2 -> icached sb v [] (f_inodes s) -> refs_used v (f_inodes s) ->
  (S (S (S (size (irefs (f_inodes s))))) <= NINODE)%nat -> has_cwd sb s v cwd path -> Forall is_byte path -> short type -> type <> 0 ->
  (type = T_DIR -> forall n, linked v n -> di_type (dinode_at v n) = T_DIR -> 0 < di_nlink (dinode_at v n) < 32767) ->
  wpe (create cwd path type major minor)
    (create_result v L (irefs (f_inodes s)) (walk_start s cwd path) (path_elems (cstr path)) type major minor)
    (fun e => exists n, resolve true v (walk_start s cwd path) (path_elems (cstr path)) = Some n /\ disk_full v n type e) s.
Proof.
  intros F V Hw Hroom C Hused Hcap Hcwd Hp Hty Hty0 Hnl. pose proof (vo_layout _ _ V) as Ly. pose proof (vo_tree _ _ V) as T. pose proof Hroom as [R1 R2].
  pose proof (start_linked s v cwd path T Hcwd) as Hst.
  unfold create, nameiparent. apply wpe_bind_wp. eapply (namex_ok sb k pid w s v L); [done|done|lia|done|done|lia|done|done|done|by apply Forall_replicate|].
  intros [r name] s1 F1 C1 W. unfold walked in W. set (start := walk_start s cwd path) in *. set (es := path_elems (cstr path)) in *.
  destruct (resolve true v start es) as [n|] eqn:Er.
  2: { destruct W as [Hr Hi]. cbn in Hr. subst r. apply wpe_wp, wp_ret. unfold create_result. rewrite Er. by split_and!. }
  destruct W as (dp & x & Hr & Hx & Hc & Hi & Hnm). cbn [fst snd] in Hr, Hnm. subst r. destruct (Hnm eq_refl) as [El Hb].
  destruct (resolve_linked true v es T start n Hst Er) as [Hl Hd]. specialize (Hd eq_refl).
  apply wpe_bind_wp. eapply ilock_cached; [exact F1|done|lia|exact C1|apply not_elem_of_nil|exact Hx|exact Hc|apply Hl|].
  intros s2 y F2 C2 Ei2 Er2 He2. assert (f_inodes s2 !! dp = Some y) as Hy by (rewrite Ei2; apply list_lookup_insert_eq; by eapply lookup_lt_Some).
  rewrite Hi in Er2. pose proof (irefs_positive (f_inodes s)) as Hpos. pose proof (size_ref_get n (irefs (f_inodes s))).
  apply wpe_bind_wp. eapply (dirlookup_ok sb k pid w v L n dp y (f_inodes s2) [dp] Ly); [lia|done|done|done|by apply (tr_dir _ _ T)|done| |done|done|done|].
  { rewrite Er2, (fo_inodes _ _ _ _ _ _ _ _ F2). lia. }
  intros r s3 F3 Hf. unfold found in Hf. destruct (dir_find v (dinode_at v n) (dname name)) as [[i t]|] eqn:Ef.
  - destruct Hf as (next & -> & Hg). apply wpe_wp. eapply wp_mono; [eapply (create_opened v L (irefs (f_inodes s)) type V); [lia|exact Hpos|exact F3|exact Hy|exact He2|exact Hg|exact Hl| |exact Er2]; by eapply dir_find_linked|].
    intros r s' Ho. unfold create_result. rewrite Er, El. cbv beta iota. by rewrite Ef.
  - destruct Hf as [-> Ei3]. eapply wpe_mono; [eapply (create_fresh s3 v L (irefs (f_inodes s)) n dp y name type major minor); rewrite ?Ei3; done || idtac| |intros e He; by exists n].
    + intros j q. rewrite Er2. unfold ref_get. intros [[<- _]|[_ Hq]]%lookup_insert_Some; [apply Hl|by eapply Hused].
    + intros Htd. by apply Hnl.
    + intros r s' (m & ip & v' & L' & -> & Cr). unfold create_result. rewrite Er, El. cbv beta iota. rewrite Ef. exists m, ip, v', L'. split; [done|]. split; [done|]. split; [by eapply grown_path; [|apply Cr|..]|].
      intros j es' t Hj. by eapply grown_resolve; [|apply Cr|].
Qed.
End create.
