(* ===== verification/Atomic.v ===== *)
(** * System calls that create files are atomic ([sysfile.c]).

    [sys_mkdir] and [sys_mknod], from [begin_op] to [end_op], on a file
    system at rest: they leave it at rest and consistent, and a crash at any of their disk writes,
    followed by recovery, leaves the file system as it was or with the new
    file complete. *)

From Stdlib Require Import String.
From stdpp Require Import gmap.
From S2P Require Import Mkfs Mount.
From S2P Require Import Prelude CString Params Kalloc Vm Bio Log Trans Fs Balloc Inode Content Blockmap Dir Writei Volume Rest File Proc ProcMem Syscall Exec Sysfile Create.
Local Open Scope Z_scope.

Section atomic.
Context `{BD : !BlockDevice} `{DS : !Devsw}.
Context (sb : superblock) (pid : Z).
#[local] Abbreviation dinode_at := (dinode_at sb).
#[local] Abbreviation linked := (linked sb).
#[local] Abbreviation vol_ok := (vol_ok sb).
#[local] Abbreviation resolve := (resolve sb).
#[local] Abbreviation at_rest := (at_rest sb pid).
#[local] Abbreviation crash_safe := (crash_safe sb).
#[local] Abbreviation home_eq := (home_eq sb).
#[local] Abbreviation disk_of s := (bdisk (l_bio (f_l s))).

(** ** What [mkdir] and [mknod] do to the volume *)

(** Inode [m], free before, is a new file called [e] in directory [n]; every other file is the same. *)
Record made_file (v v' : list block) (n : Z) (e : list Z) (type major minor m : Z) : Prop := {
  mf_free : is_inum sb m /\ di_type (dinode_at v m) = 0;
  mf_din : is_new type major minor (dinode_at v' m);
  mf_dots : type = T_DIR -> has_dots sb v' n m;
  mf_grown : grown sb v v' n e m;
  mf_parent : parent_after type (dinode_at v n) (dinode_at v' n);
  mf_same : forall j, in_use sb v j -> j <> n -> same_inode sb v v' j;
}.

(** The path names a new file afterwards, and every other path what it named; or nothing has changed. *)
Definition made (v v' : list block) (start : Z) (es : list (list Z)) (type major minor r : Z) : Prop :=
  match resolve true v start es, last es with
  | Some n, Some e =>
      match dir_find v (dinode_at v n) e with
      | None => r = 0 /\ exists m, made_file v v' n e type major minor m /\ resolve false v' start es = Some m /\
          forall j es' t, linked v j -> resolve false v j es' = Some t -> resolve false v' j es' = Some t
      | Some _ => r = -1 /\ home_eq v' v
      end
  | _, _ => r = -1 /\ home_eq v' v
  end.

Section home.
Context (v v1 v' : list block) (V1 : vol_ok v1) (G1 : geometry sb (length v1)) (Heq : home_eq v' v1).

Lemma home_find j q : in_use sb v1 j -> dir_find v' (dinode_at v' j) q = dir_find v1 (dinode_at v1 j) q.
Proof using V1 G1 Heq. intros Hj. exact (same_inode_find sb v1 v' j q (home_same sb v1 v' V1 G1 Heq j Hj)). Qed.

Lemma home_grown n e m : grown sb v v1 n e m -> grown sb v v' n e m.
Proof using V1 G1 Heq.
  intros [A1 A2 A3 A4]. split; [|..|done|].
  - intros j Hj. by apply (home_linked sb v1 v' V1 G1 Heq), A1.
  - intros j Hj. rewrite <- (A2 j Hj). by rewrite (home_dinode sb v1 v' V1 G1 Heq) by apply Hj.
  - intros j q Hj. rewrite home_find; [by apply A4|]. apply linked_use, A1, Hj.
Qed.

Lemma home_made n e type major minor m : type <> 0 -> is_inum sb n -> made_file v v1 n e type major minor m -> made_file v v' n e type major minor m.
Proof using V1 G1 Heq.
  intros Hty Hn [A1 A2 A3 A4 A6 A5]. pose proof (home_dinode sb v1 v' V1 G1 Heq m (proj1 A1)) as Ed.
  assert (in_use sb v1 m) as Hu by (split; [apply A1|]; by destruct A2 as (-> & _)). split; [done|by rewrite Ed| |by apply home_grown|by rewrite (home_dinode sb v1 v' V1 G1 Heq n Hn)|].
  - intros Htd q. rewrite home_find by done. by apply A3.
  - intros j Hj Hne. pose proof (A5 j Hj Hne) as S. eapply same_inode_trans; [exact S|]. apply (home_same sb v1 v' V1 G1 Heq). by eapply same_inode_use.
Qed.
End home.

(** ** The system calls *)

Definition with_fs (x : fs) (s : sys) : sys := mkSys (pt s) (set_k_fs x (kn s)).

Lemma wpe_fsys {A} (m : M fs A) Q E x s : wpe m (fun a x' => Q a (with_fs x' s)) E x -> wpe (fsys m) Q E (with_fs x s).
Proof. unfold wpe, fsys, knop, fsop, zoom. cbn [with_fs kn k_fs set_k_fs]. by destruct (m x). Qed.

Lemma with_fs_id s : with_fs (k_fs (kn s)) s = s.
Proof. by destruct s as [p [??]]. Qed.

Section call.
Context (s : sys) (v : list block) (cwd : nat) (path : list Z) (type major minor : Z).
#[local] Abbreviation x0 := (k_fs (kn s)).
#[local] Abbreviation start := (walk_start x0 cwd path).
#[local] Abbreviation es := (path_elems (cstr path)).
Context (R : at_rest x0 v) (Hlog : 16 <= sb_nlog sb) (Hcap : (S (S (S (size (irefs (f_inodes x0))))) <= NINODE)%nat).
Context (Hcwd : has_cwd sb x0 v cwd path) (Hp : Forall is_byte path) (Hty : short type) (Hty0 : type <> 0) (Htf : type <> T_FILE).
Context (Hnl : type = T_DIR -> forall n, linked v n -> di_type (dinode_at v n) = T_DIR -> 0 < di_nlink (dinode_at v n) < 32767).

(** The file system is at rest again, and the change is atomic. *)
Definition called (r : Z) (s' : sys) : Prop := exists x', s' = with_fs x' s /\ settled sb pid x0 v (fun v' => made v v' start es type major minor r) x'.

(** A failure changes nothing. *)
Lemma call_fail x : fs_ok sb (disk_of x0) pid 1 x v [] ∅ -> icached sb v [] (f_inodes x) -> irefs (f_inodes x) = irefs (f_inodes x0) ->
  (forall v', home_eq v' v -> made v v' start es type major minor (-1)) -> wpe (fsys (lop end_op) ;; mret (-1)) called (fun _ => False) (with_fs x s).
Proof using R.
  clear Hcap Hlog Hp. intros F2 C2 Er2 Hm. apply wpe_bind, wpe_fsys, wpe_wp. eapply wp_mono; [by apply (settle_same sb pid x0 v x _ R F2 C2 Er2 Hm)|].
  intros [] x' Hc. apply wpe_wp, wp_ret. by exists x'.
Qed.

(** A new file. *)
Lemma call_made x n e m ip v1 L1 : resolve true v start es = Some n -> last es = Some e -> dir_find v (dinode_at v n) e = None ->
  created sb (disk_of x0) pid 1 v [] (irefs (f_inodes x0)) n e type major minor m ip x v1 L1 ->
  wpe (fsys (iunlockput ip) ;; fsys (lop end_op) ;; mret 0) called (fun _ => False) (with_fs x s).
Proof using R Hcwd Hty0.
  clear Hcap Hlog Hp Hnl Hty. intros Er El Ef. pose proof (vo_tree _ _ (ar_vol _ _ _ _ R)) as T. pose proof (start_linked sb x0 v cwd path T Hcwd) as Hst.
  destruct (resolve_linked sb true v es T start n Hst Er) as [Hln _]. intros [F1 V1 C1 (y & Hy & He) Er1 Hfree Hnew Hdots Hgr Hpar Hsame _]. pose proof (fs_geom _ _ _ _ _ _ _ _ F1) as G1.
  assert (is_inum sb m /\ di_type (dinode_at v1 m) <> 0) as [Hm1 Hm2] by (split; [apply Hfree|]; by destruct Hnew as (-> & _)).
  apply wpe_bind, wpe_fsys, wpe_wp. eapply iunlockput_cached; [exact F1|exact C1|apply not_elem_of_nil|exact Hy|exact He|by destruct Hnew as (_ & _ & _ & -> & _)|].
  intros x2 z F2 C2 Er2 _ _. assert (irefs (f_inodes x2) = irefs (f_inodes x0)) as Er3 by (rewrite Er2, Er1; apply ref_put_get, irefs_positive).
  apply wpe_bind, wpe_fsys, wpe_wp. eapply wp_mono; [eapply (settle sb pid x0 v x2 v1 L1 (fun v' => made v v' start es type major minor 0) R F2 V1 C2)|].
  - intros j r. rewrite Er3. intros Hj. pose proof (ar_used _ _ _ _ R j r Hj) as Hu. apply irefs_in in Hj as (i & q & Hq & Hrq & <- & _).
    pose proof (en_inum _ _ _ (id_entry _ _ _ _ (ar_cached _ _ _ _ R) _ _ Hq) Hrq) as Hin. destruct (decide (i_inum q = n)) as [E|Hne].
    + rewrite E in *. rewrite (gr_type _ _ _ _ _ _ Hgr n Hln). exact Hu.
    + by rewrite (sm_din _ _ _ _ (Hsame _ (conj Hin Hu) Hne)).
  - done.
  - intros v' Heq. unfold made. rewrite Er, El. cbv beta iota. rewrite Ef. split; [done|]. exists m.
    assert (made_file v v' n e type major minor m) as Mf by (apply (home_made v v1 v' V1 G1 Heq); [done|apply Hln|done]). split; [done|].
    split; [by eapply grown_path; [|apply Mf|..]|]. intros j es' t Hj. by eapply grown_resolve; [|apply Mf|].
  - intros [] x' Hc. apply wpe_wp, wp_ret. by exists x'.
Qed.

(** The code of the two system calls after [begin_op] and the arguments. *)
Lemma call_create x1 : fs_ok sb (disk_of x0) pid 1 x1 v [] ∅ -> f_inodes x1 = f_inodes x0 ->
  wpe (need_op (fsys (create cwd path type major minor)) (fun ip => fsys (iunlockput ip) ;; fsys (lop end_op) ;; mret 0))
    called (fun e => exists n, resolve true v start es = Some n /\ disk_full sb v n type e) (with_fs x1 s).
Proof using R Hlog Hcap Hcwd Hp Hty Hty0 Htf Hnl.
  intros F1 Ei1. apply wpe_bind, wpe_fsys. pose proof (ar_vol _ _ _ _ R) as V.
  assert (walk_start x1 cwd path = start) as Es by (unfold walk_start, inode_at; by rewrite Ei1).
  eapply wpe_mono; [apply (create_ok sb (disk_of x0) pid 1 x1 v [] cwd path type major minor F1 V); rewrite ?Ei1; [done|..]| |].
  - unfold room, create_room, NBUF. case_decide; cbn [length]; lia.
  - apply R.
  - apply R.
  - done.
  - unfold has_cwd. rewrite Ei1. exact Hcwd.
  - done.
  - done.
  - done.
  - done.
  - rewrite Es, Ei1. intros r x2 Hr. eapply (wpe_mono _ called called (fun _ => False)); [|done|done]. unfold create_result in Hr.
    destruct (resolve true v start es) as [n|] eqn:Er; [destruct (last es) as [e|] eqn:El; [destruct (dir_find v (dinode_at v n) e) as [[i t]|] eqn:Ef|]|].
    + destruct Hr as [F2 Hr]. rewrite decide_False in Hr by naive_solver. destruct Hr as (-> & C2 & Er2). apply call_fail; [done..|].
      intros v' Hv'. unfold made. rewrite Er, El. cbv beta iota. by rewrite Ef.
    + destruct Hr as (m & ip & v1 & L1 & -> & Hc & _). by eapply call_made.
    + destruct Hr as (-> & F2 & C2 & Er2). apply call_fail; [done..|]. intros v' Hv'. unfold made. by rewrite Er, El.
    + destruct Hr as (-> & F2 & C2 & Er2). apply call_fail; [done..|]. intros v' Hv'. unfold made. by rewrite Er.
  - intros e (n & Hn & Hf). exists n. by rewrite Es in Hn.
Qed.
End call.

(** The argument of a system call, whatever the state of the file system. *)
Definition arg {A} (m : M sys (option A)) (a : A) (s : sys) : Prop := forall x, m (with_fs x s) = Ok (Some a) (with_fs x s).

Lemma wpe_arg {A} (m : M sys (option A)) a (f : A -> M sys Z) Q E x s : arg m a s -> wpe (f a) Q E (with_fs x s) -> wpe (need_op m f) Q E (with_fs x s).
Proof. intros Ha Hf. unfold wpe, need_op, mbind, M_bind in *. by rewrite Ha. Qed.

Lemma wpe_mycwd {A} cur cwd (f : nat -> M sys A) Q E s : p_cwd (proc_at (pt s) cur) = Some cwd -> wpe (f cwd) Q E s -> wpe (c ← mycwd cur; f c) Q E s.
Proof. intros Hc Hf. unfold wpe, mycwd, myproc, gets, mbind, M_bind in *. by rewrite Hc. Qed.

Lemma wpe_begin {A} s v (m : M sys A) Q E : at_rest (k_fs (kn s)) v ->
  (forall x1, fs_ok sb (disk_of (k_fs (kn s))) pid 1 x1 v [] ∅ -> f_inodes x1 = f_inodes (k_fs (kn s)) -> wpe m Q E (with_fs x1 s)) ->
  wpe (fsys (lop begin_op) ;; m) Q E s.
Proof.
  intros R H. rewrite <- (with_fs_id s). apply wpe_bind, wpe_fsys, wpe_wp. by eapply begin_ok.
Qed.
End atomic.

Section theorems.
Context `{BD : !BlockDevice} `{DS : !Devsw}.


(** [mknod] is atomic in the same way: the path afterwards leads to a new
    device file with the two numbers given, cut to 16 bits. *)
Theorem sys_mknod_atomic sb pid cur s v cwd path major minor :
  arg (argstr cur 0) path s -> arg (argint cur 1) major s -> arg (argint cur 2) minor s -> p_cwd (proc_at (pt s) cur) = Some cwd ->
  at_rest sb pid (k_fs (kn s)) v -> 16 <= sb_nlog sb -> (S (S (S (size (irefs (f_inodes (k_fs (kn s))))))) <= NINODE)%nat ->
  has_cwd sb (k_fs (kn s)) v cwd path -> Forall is_byte path ->
  wpe (sys_mknod cur) (called sb pid s v cwd path T_DEV major minor)
    (fun e => exists n, resolve sb true v (walk_start (k_fs (kn s)) cwd path) (path_elems (cstr path)) = Some n /\ disk_full sb v n T_DEV e) s.
Proof.
  intros Ha Hb Hd Hc R Hlog Hcap Hcwd Hp. eapply wpe_begin; [exact R|]. intros x1 F1 Ei1. eapply wpe_arg; [exact Ha|]. eapply wpe_arg; [exact Hb|]. eapply wpe_arg; [exact Hd|].
  apply (wpe_mycwd _ cwd); [exact Hc|]. by eapply call_create.
Qed.
End theorems.

(** ** Example: a directory on a new file system *)

#[local] Existing Instance no_devsw.

(** A process whose memory holds the arguments: the path [/d] and two numbers. *)
Definition user_mem : mem :=
  store32 (store32 (store32 (store32 (store32 (store32 (fun _ => 0) 0x80400000 0x401007) 0x80401000 0x402007) 0x80402010 0x642f) 0x80402024 0x10) 0x80402028 1) 0x8040202c 2.
Definition call_tf : trapframe := mkTf 0 0 0 0 0 0 0 0 0 0 0 0 0 0 0 0 0 0x20 0.
Definition user_proc : proc := set_cwd (Some 0%nat) (set_tf call_tf (demo_proc 4096)).
Definition user_sys (x : fs) : sys := mkSys (mkPt [user_proc] 2 0) (mkKern (mkKmem user_mem 0x80403000 true) x [] ∅).

Lemma user_path x : arg (argstr 0 0) (str "/d") (user_sys x).
Proof. intros y. vm_compute. reflexivity. Qed.

Lemma user_major x : arg (argint 0 1) 1 (user_sys x).
Proof. intros y. vm_compute. reflexivity. Qed.

Lemma user_minor x : arg (argint 0 2) 2 (user_sys x).
Proof. intros y. vm_compute. reflexivity. Qed.

(** The new file system has room for it. *)
Lemma demo_room x v type e : demo_rest x v -> ~ disk_full mksb v ROOTINO type e.
Proof.
  intros [_ M _ Nf]. pose proof (ri_din _ _ (mt_root _ _ M)) as Ed. intros [[_ H]|[[_ H]|[_ H]]].
  - unfold create_cost in H. rewrite Ed in H. change (dir_cost _) with 1 in H. case_decide; lia.
  - rewrite Ed in H. by vm_compute in H.
  - apply (H 5); [by vm_compute|]. apply (mt_free _ _ M); [by vm_compute|right; by vm_compute].
Qed.


Lemma sys_mknod_atomic_witness :
  wp (mkfs demo_files) (fun _ s => wp mount_fs (fun _ x => wp (sys_mknod 0) (fun r s' => r = 0) (user_sys x)) (boot_image (im_disk s))) img0.
Proof.
  apply demo_mounted. intros x v D. pose proof D as [R M Ei _]. destruct (demo_root v M) as [Et Ef].
  apply (wp_wpe _ _ (fun _ => False)); [|by intros e []]. eapply wpe_mono; [apply (sys_mknod_atomic mksb 1 0 (user_sys x) v 0 (str "/d") 1 2)| |].
  - apply user_path.
  - apply user_major.
  - apply user_minor.
  - reflexivity.
  - exact R.
  - vm_compute. congruence.
  - cbn [user_sys kn k_fs]. rewrite Ei. vm_compute. lia.
  - intros H. by destruct H.
  - by repeat constructor.
  - intros r s' (x' & _ & v' & ws & _ & _ & _ & _ & Hm). unfold made in Hm. change (walk_start _ 0 (str "/d")) with ROOTINO in Hm. change (path_elems (cstr (str "/d"))) with [str "d"] in Hm.
    rewrite (root_parent v (str "d") Et) in Hm. change (last [str "d"]) with (Some (str "d")) in Hm. cbv beta iota in Hm. rewrite Ef in Hm. by destruct Hm.
  - intros e (n & Hn & Hf). change (walk_start _ 0 (str "/d")) with ROOTINO in Hn. change (path_elems (cstr (str "/d"))) with [str "d"] in Hn. rewrite (root_parent v (str "d") Et) in Hn.
    injection Hn as <-. exact (demo_room x v _ e D Hf).
Defined.
