(* ===== verification/Unlink.v ===== *)
(** * Removing a file name is atomic ([sys_unlink] of [sysfile.c]).

    From [begin_op] to [end_op]: the directory entry is cleared, the file has one link
    less, and with the last link and the last reference the inode and the blocks are freed. The volume
    stays consistent, and a crash leaves it as it was or without the name. *)

From Stdlib Require Import String.
From stdpp Require Import gmap.
From S2P Require Import Mkfs Mount.
From S2P Require Import Prelude CString Params Kalloc Vm Bio Log Trans Fs Balloc Inode Content Blockmap Dir Writei Volume Trunc Links Rest File Proc ProcMem Syscall Exec Sysfile Create Atomic.
Local Open Scope Z_scope.

(** ** The log area does not matter *)

Section home.
Context (sb : superblock) (v v1 v' : list block) (V1 : vol_ok sb v1) (G1 : geometry sb (length v1)) (Heq : home_eq sb v' v1).

Lemma home_listing j : is_inum sb j -> listing sb v' j = listing sb v1 j.
Proof using V1 G1 Heq.
  intros Hj. apply same_listing; [|intros _ _|done]; [|by apply (home_dinode sb v1 v' V1 G1 Heq)]. intros Hu. by apply (home_same sb v1 v' V1 G1 Heq).
Qed.

Lemma home_links : links_ok sb v1 -> links_ok sb v'.
Proof using V1 G1 Heq.
  intros [K1 K2]. split.
  - rewrite (home_dinode sb v1 v' V1 G1 Heq); [done|apply (tr_root _ _ (vo_tree _ _ V1))].
  - intros n Hn%(home_use sb v1 v' V1 G1 Heq). rewrite (home_dinode sb v1 v' V1 G1 Heq) by apply Hn. rewrite (nrefs_same sb v1 v') by apply home_listing. by apply K2.
Qed.

Lemma home_unlinked n i m gone : vol_ok sb v -> in_use sb v1 n -> in_use sb v m -> unlinked sb v v1 n i m gone -> unlinked sb v v' n i m gone.
Proof using V1 G1 Heq.
  intros V Hn Hm [A1 A2 A3 A4 A5]. pose proof (home_same sb v1 v' V1 G1 Heq n Hn) as [Sd _ Se]. pose proof (home_dinode sb v1 v' V1 G1 Heq m (proj1 Hm)) as Ed. split.
  - by rewrite Se.
  - by rewrite Sd.
  - intros j Hj Hjn Hjm. pose proof (A3 j Hj Hjn Hjm) as S. eapply same_inode_trans; [exact S|]. apply (home_same sb v1 v' V1 G1 Heq). by eapply same_inode_use.
  - intros Hg. destruct (A4 Hg) as [B1 B2]. rewrite Ed. split; [done|]. intros a Ha. pose proof (has_live sb v _ a (ig_file _ _ _ (vo_good _ _ V m Hm)) Ha) as [[Ha1 _] _].
    rewrite (home_used sb v1 v' V1 G1 Heq); [by apply B2|]. pose proof (meta_pos _ _ (vo_layout _ _ V1) G1). lia.
  - intros Hg. destruct (A5 Hg) as [B1 B2]. rewrite Ed. split; [done|]. rewrite <- B2. apply (sm_content _ _ _ _ (home_same sb v1 v' V1 G1 Heq m ltac:(split; [apply Hm|by rewrite B1; apply Hm]))).
Qed.
End home.

(** ** The directory entry *)

Section unlink.
Context `{BD : !BlockDevice} `{DS : !Devsw}.
Context (sb : superblock) (k : disk) (pid w : Z).
#[local] Abbreviation fs_ok := (fs_ok sb k pid w).
#[local] Abbreviation dinode_at := (dinode_at sb).
#[local] Abbreviation linked := (linked sb).
#[local] Abbreviation vol_ok := (vol_ok sb).
#[local] Abbreviation resolve := (resolve sb).

(** The parent [n] is locked in entry [dp], and the file [m], that its entry [i] lists, in entry [ip]. *)
Section target.
Context (s : fs) (v : list block) (L : list Z) (n : Z) (dp : nat) (x : inode) (i : nat) (de : list Z) (m : Z) (ip : nat) (y : inode) (m0 : gmap Z Z).
Context (F : fs_ok s v L ∅) (V : vol_ok v) (K : links_ok sb v) (Hw : 1 <= w) (Hroom : room sb L 9 2).
Context (C : icached sb v [ip; dp] (f_inodes s)) (Hx : f_inodes s !! dp = Some x) (He : held sb pid v n dp x) (Hy : f_inodes s !! ip = Some y) (Hey : held sb pid v m ip y).
Context (Hi : entries v (dinode_at v n) !! i = Some de) (Hde : de_inum de = m) (Hm0 : m <> 0).
Context (Hl : linked v n) (Ht : di_type (dinode_at v n) = T_DIR) (Hmt : di_type (dinode_at v m) <> T_DIR).
Context (Er : irefs (f_inodes s) = ref_get m (ref_get n m0)) (Hpos : positive m0).

(** The entry is cleared, and the directory released. *)
Record erased (s1 : fs) (v1 : list block) (L1 : list Z) : Prop := {
  es_fs : fs_ok s1 v1 L1 ∅;
  es_changed : changed sb v v1 n;
  es_attrs : same_attrs (dinode_at v n) (dinode_at v1 n);
  es_entries : forall j, entries v1 (dinode_at v1 n) !! j = if decide (j = i) then Some no_entry else entries v (dinode_at v n) !! j;
  es_cached : icached sb v1 [ip] (f_inodes s1);
  es_ip : f_inodes s1 !! ip = Some y;
  es_held : held sb pid v1 m ip y;
  es_refs : irefs (f_inodes s1) = ref_get m m0;
  es_log : Z.of_nat (length L1) <= Z.of_nat (length L) + 4;
}.

Lemma target_ne : ip <> dp.
Proof using C Hx He Hy Hey Ht Hmt.
  intros ->. rewrite Hx in Hy. injection Hy as <-. destruct (he_caches _ _ _ _ _ _ He) as (_ & _ & E1). destruct (he_caches _ _ _ _ _ _ Hey) as (_ & _ & E2). congruence.
Qed.

Lemma erase_ok {A} (f : M fs A) Q E : (forall s1 v1 L1, erased s1 v1 L1 -> wpe f Q E s1) ->
  wpe (w ← writei dp (replicate (Z.to_nat DIRENT_SIZE) 0) (DIRENT_SIZE * Z.of_nat i);
    if negb (w =? DIRENT_SIZE) then panic "unlink: writei" else
    s ← get;
    (if di_type (din s ip) =? T_DIR then nlink_add dp (-1) ;; iupdate dp else mret tt) ;;
    iunlockput dp ;; f) Q E s.
Proof using F V Hw Hroom C Hx He Hy Hey Hi Hl Ht Hmt Er Hpos.
  clear K Hde Hm0. intros HQ. pose proof (lookup_lt_Some _ _ _ Hi) as Hlt. pose proof target_ne as Hne. pose proof (tr_dir _ _ (vo_tree _ _ V) n Hl Ht) as D.
  assert (DIRENT_SIZE * Z.of_nat i + 16 <= MAXFILE * Z.of_nat BSIZE) as Hmax.
  { destruct (dk_size _ _ _ D) as [_ Hs]. rewrite length_entries in Hlt. pose proof (Z.mul_div_le (di_size (dinode_at v n)) DIRENT_SIZE eq_refl). unfold DIRENT_SIZE in *. lia. }
  assert (room sb L 5 2) as Hr5 by (destruct Hroom; split; lia). change (replicate (Z.to_nat DIRENT_SIZE) 0) with no_entry.
  apply wpe_bind_wp. eapply wp_wpe; [eapply wpe_mono; [apply (slot_write sb k pid w s v L n dp x i no_entry F V Hx He Hl Ht ltac:(lia) eq_refl ltac:(done) Hmax Hw Hr5)| |intros e H; exact H]|].
  { by apply Forall_replicate. }
  2: { intros e [_ H]. lia. }
  intros r s1 [-> (v1 & L1 & [F1 Ch E1 HE Hat _ _ HL])]. rewrite Z.eqb_refl. cbn [negb].
  destruct (icached_changed sb pid v v1 _ _ n dp x C (ch_other _ _ _ _ Ch) Hx He) as (C1 & Er1 & He1). rewrite <- E1 in C1, Er1. set (x1 := set_din _ x) in *.
  assert (f_inodes s1 !! ip = Some y) as Hy1 by (rewrite E1, list_lookup_insert_ne by congruence; exact Hy).
  assert (f_inodes s1 !! dp = Some x1) as Hx1 by (rewrite E1; apply list_lookup_insert_eq; by eapply lookup_lt_Some).
  destruct Hey as [Hc Hlk Hv Hd]. assert (is_inum sb m) as Hmn by (destruct Hc as (Hr & _ & <-); by apply (en_inum _ _ _ (id_entry _ _ _ _ C _ _ Hy))).
  assert (dinode_at v1 m = dinode_at v m) as Em by (apply (ch_other _ _ _ _ Ch); [done|congruence]). assert (inode_at s1 ip = y) as Ey by (by apply list_lookup_total_correct).
  apply wpe_bind_wp, wp_get. unfold din. rewrite Ey, Hd. rewrite (proj2 (Z.eqb_neq _ _)) by done. apply wpe_bind_wp, wp_ret.
  apply wpe_bind_wp. eapply (iunlockput_cached sb k pid w s1 v1 L1 [ip] n dp x1); [exact F1| |rewrite not_elem_of_cons; split; [congruence|apply not_elem_of_nil]|exact Hx1|exact He1|destruct Hat as (_ & _ & _ & ->); apply Hl|].
  { eapply icached_lk; [|exact C1]. intros j. rewrite !not_elem_of_cons. tauto. }
  intros s2 z F2 C2 Er2 E2 _. apply (HQ s2 v1 L1). split; [exact F2|exact Ch|exact Hat|exact HE|exact C2|..|exact HL].
  - rewrite E2, list_lookup_insert_ne by congruence. exact Hy1.
  - split; [exact Hc|exact Hlk|exact Hv|by rewrite Em].
  - rewrite Er2, Er1, Er, ref_get_comm. apply ref_put_get. by apply ref_get_positive.
Qed.

(** ** The last link *)

(** The link count is less, and the file released. *)
Definition gone : Prop := di_nlink (dinode_at v m) = 1 /\ m0 !! m = None.

Record dropped (s3 : fs) (v3 : list block) (L3 : list Z) : Prop := {
  dr_fs : fs_ok s3 v3 L3 ∅;
  dr_vol : vol_ok v3;
  dr_links : links_ok sb v3;
  dr_unlinked : unlinked sb v v3 n i m gone;
  dr_cached : icached sb v3 [] (f_inodes s3);
  dr_refs : irefs (f_inodes s3) = m0;
}.

(** The references to the file. *)
Lemma target_ref s1 v1 z : icached sb v1 [] (f_inodes s1) -> irefs (f_inodes s1) = ref_get m m0 -> f_inodes s1 !! ip = Some z -> caches ROOTDEV m z -> i_ref z = 1 <-> m0 !! m = None.
Proof using Hpos.
  intros C1 Er1 Hz (Hr & _ & Hn). pose proof (irefs_lookup _ (id_uniq _ _ _ _ C1) ip z Hz Hr) as E. rewrite Er1, Hn in E. unfold ref_get in E. rewrite lookup_insert_eq in E. injection E as E.
  destruct (m0 !! m) as [r|] eqn:Em; cbn in E; [|by split]. pose proof (Hpos m r Em). split; [lia|done].
Qed.

Lemma drop_ok {A} s1 v1 L1 (f : M fs A) Q E : erased s1 v1 L1 -> (forall s3 v3 L3, dropped s3 v3 L3 -> wpe f Q E s3) ->
  wpe (nlink_add ip (-1) ;; iupdate ip ;; iunlockput ip ;; f) Q E s1.
Proof using V K Hw Hroom Hi Hde Hm0 Hl Ht Hmt Hpos.
  intros [F1 Ch Hat HE C1 Hy1 He1 Er1 HL1] HQ. pose proof (fs_geom _ _ _ _ _ _ _ _ F1) as G1. pose proof (fs_vok _ _ _ _ _ _ _ _ F1) as Hok1.
  pose proof (name_vol sb v v1 n m i de V K Ch Hat Hi Hde Hm0 Hl Ht Hmt G1 Hok1) as (V1 & Hu1 & Hs & Ht1 & Hr1).
  pose proof (name_vol2 sb v v1 n m i de V K Ch Hat HE Hi Hde Hm0 Hl Ht Hmt G1 Hok1) as V2. pose proof (name_links2 sb v v1 n m i de V K Ch Hat HE Hi Hde Hm0 Hl Ht Hmt G1 Hok1) as K2.
  pose proof (name_kept sb v v1 n m i de V K Ch Hat HE Hi Hde Hm0 Hl Ht Hmt G1 Hok1) as U2. pose proof (name_same sb v v1 n m i de V Ch Hi Hde Hm0 Hl Ht Hmt) as [Em _ _].
  pose proof (name_gone sb v v1 n m i de V K Ch Hat HE Hi Hde Hm0 Hl Ht Hmt G1 Hok1) as Hgone. destruct (name_count sb v n m i de V K Hi Hde Hm0 Hl Ht Hmt) as [_ Hcnt].
  unfold nlink_add. eapply (update_din sb k pid w s1 v1 L1 m ip y); [exact F1|apply V1|exact Hw|destruct Hroom; split; lia|exact Hy1|exact He1|apply Hu1| |].
  { cbn [set_nlink di_addrs]. apply (dk_len _ (dinode_at_ok sb v1 (vo_layout _ _ V1) G1 Hok1 m (proj1 Hu1))). }
  assert (s16 (di_nlink (dinode_at v1 m) + -1) = di_nlink (dinode_at v m) - 1) as Es by (rewrite Em; apply s16_small; unfold short in Hs; lia).
  cbn beta. rewrite Es. set (v2 := put_inode sb m _ v1) in *. intros s2 F2 Ei2.
  pose proof (nlink_other sb v1 m _ V1 G1 Hok1 Hu1 Hs) as Hoth. fold v2 in Hoth. pose proof (nlink_eq sb v1 m _ V1 G1 Hok1 Hu1 Hs) as Ed2. fold v2 in Ed2.
  destruct (icached_changed sb pid v1 v2 _ _ m ip y C1 Hoth Hy1 He1) as (C2 & Er2 & He2). rewrite Ed2 in C2, Er2, He2. rewrite <- Ei2 in C2, Er2. rewrite Er1 in Er2.
  set (y2 := set_din _ y) in *. assert (f_inodes s2 !! ip = Some y2) as Hy2 by (rewrite Ei2; apply list_lookup_insert_eq; by eapply lookup_lt_Some).
  pose proof (length_logged L1 (IBLOCK m sb)) as Hlog. apply wpe_bind_wp. unfold iunlockput. apply wp_bind.
  eapply (iunlock_cached sb k pid w s2 v2 _ [] m ip y2); [exact F2|exact C2|exact Hy2|exact He2|]. intros s3 y3 F3 C3 Ei3 Hc3 [Hr3 Hv3] Er3. rewrite Er2 in Er3.
  assert (f_inodes s3 !! ip = Some y3) as Hy3 by (rewrite Ei3; apply list_lookup_insert_eq; by eapply lookup_lt_Some). pose proof (target_ref s3 v2 y3 C3 Er3 Hy3 Hc3) as Href.
  assert (ref_put m (ref_get m m0) = m0) as Erp by (by apply ref_put_get).
  destruct (decide (di_nlink (dinode_at v m) = 1 /\ m0 !! m = None)) as [[H1 H2]|Hno].
  - assert (di_nlink (dinode_at v m) - 1 = 0) as H0 by lia. eapply (iput_last sb k pid w Hw s3 v2 _ [] m ip y3); [exact F3|exact V2| |exact C3|apply not_elem_of_nil|exact Hy3|exact Hc3|exact Hv3|by apply Href| | |].
    + destruct Hroom. split; lia.
    + by apply (nlink_use sb v1 m).
    + rewrite Ed2. exact H0.
    + intros s4 v4 L4 F4 R4 C4 Er4. destruct (Hgone v4 H0 R4) as (V4 & K4 & U4). apply (HQ s4 v4 L4). split; [exact F4|exact V4|exact K4| |exact C4|by rewrite Er4, Er3].
      eapply unlinked_iff; [|exact U4]. unfold gone. tauto.
  - eapply (iput_kept sb k pid w s3 v2 _ [] m ip y3); [exact F3|exact C3|apply not_elem_of_nil|exact Hy3|exact Hc3| |].
    + rewrite Ed2. cbn [set_nlink di_nlink]. destruct (decide (di_nlink (dinode_at v m) = 1)) as [E1|E1]; [right; intros E2; apply Hno; split; [exact E1|by apply Href]|left; lia].
    + intros s4 z F4 C4 Er4 _ _. eapply (HQ s4 v2 _). split; [exact F4|exact V2|exact K2| |exact C4|by rewrite Er4, Er3]. eapply unlinked_iff; [|exact U2]. unfold gone. tauto.
Qed.
End target.

(** ** The whole of [unlink] *)

(** The name of the entry cannot be removed. *)
Definition is_dots (e : list Z) : Prop := e = dname (str ".") \/ e = dname (str "..").
#[local] Instance is_dots_dec e : Decision (is_dots e).
Proof. unfold is_dots. apply _. Defined.

(** What the call did, by what the path names. *)
Definition unlink_result (v : list block) (refs : gmap Z Z) (start : Z) (es : list (list Z)) (r : Z) (v' : list block) : Prop :=
  match resolve true v start es, last es with
  | Some n, Some e =>
      match dir_find v (dinode_at v n) e with
      | Some (i, m) => if decide (is_dots e) then r = -1 /\ home_eq sb v' v else r = 0 /\ links_ok sb v' /\ unlinked sb v v' n i m (gone v m refs)
      | None => r = -1 /\ home_eq sb v' v
      end
  | _, _ => r = -1 /\ home_eq sb v' v
  end.

Lemma namecmp_dots name d : Forall is_byte name -> Forall is_byte d -> (namecmp name d =? 0) = bool_decide (dname name = dname d).
Proof. intros Hn Hd. apply eq_true_iff_eq. rewrite Z.eqb_eq, bool_decide_eq_true. unfold namecmp, dname. by apply strncmp_zero. Qed.
End unlink.

Section whole.
Context `{BD : !BlockDevice} `{DS : !Devsw}.
Context (sb : superblock) (pid : Z) (x0 : fs) (v : list block) (cwd : nat) (path : list Z).
#[local] Abbreviation disk_of s := (bdisk (l_bio (f_l s))).
#[local] Abbreviation refs := (irefs (f_inodes x0)).
#[local] Abbreviation start := (walk_start x0 cwd path).
#[local] Abbreviation es := (path_elems (cstr path)).
#[local] Abbreviation fs_ok := (fs_ok sb (disk_of x0) pid 1).
#[local] Abbreviation result := (unlink_result sb v refs start es).
#[local] Abbreviation after := (fun r => settled sb pid x0 v (result r)).
Context (R : at_rest sb pid x0 v) (K : links_ok sb v) (Hlog : 16 <= sb_nlog sb) (Hcap : (S (S (S (size refs))) <= NINODE)%nat).
Context (Hcwd : has_cwd sb x0 v cwd path) (Hp : Forall is_byte path).

(** The name is not the name of a directory. *)
Definition names_file : Prop := forall n e i m, resolve sb true v start es = Some n -> last es = Some e ->
  dir_find v (dinode_at sb v n) e = Some (i, m) -> ~ is_dots e -> di_type (dinode_at sb v m) <> T_DIR.

Lemma bad_ok x n dp y : fs_ok x v [] ∅ -> icached sb v [dp] (f_inodes x) -> f_inodes x !! dp = Some y -> held sb pid v n dp y -> di_nlink (dinode_at sb v n) <> 0 ->
  irefs (f_inodes x) = ref_get n refs -> (forall v', home_eq sb v' v -> result (-1) v') -> wpe (unlink_bad dp) after (fun _ => False) x.
Proof using R.
  clear Hcap Hlog Hp. intros F C Hy He Hl Er HP. unfold unlink_bad. apply wpe_bind_wp. eapply iunlockput_cached; [exact F|exact C|apply not_elem_of_nil|exact Hy|exact He|exact Hl|].
  intros x1 z F1 C1 Er1 _ _. apply wpe_bind, wpe_wp. eapply wp_mono; [apply (settle_same sb pid x0 v x1 (result (-1)) R F1 C1); [|exact HP]|].
  - rewrite Er1, Er. apply ref_put_get, irefs_positive.
  - intros [] x2 H. by apply wpe_wp, wp_ret.
Qed.

(** [end_op] after the name was removed. *)
Lemma removed_ok x v3 L3 n i e m : resolve sb true v start es = Some n -> last es = Some e -> dir_find v (dinode_at sb v n) e = Some (i, m) -> ~ is_dots e ->
  linked sb v n -> linked sb v m -> m <> n -> dropped sb (disk_of x0) pid 1 v n i m refs x v3 L3 ->
  wpe (lop end_op ;; mret 0) after (fun _ => False) x.
Proof using R.
  clear Hcap Hlog Hp. intros Er El Ef Hd Hln Hlm Hmn [F3 V3 K3 U3 C3 Er3]. pose proof (ar_vol _ _ _ _ R) as V. pose proof (fs_geom _ _ _ _ _ _ _ _ F3) as G3.
  assert (in_use sb v3 n) as Hun by (split; [apply Hln|]; destruct (ul_attrs _ _ _ _ _ _ _ U3) as (-> & _); apply Hln).
  apply wpe_bind, wpe_wp. eapply wp_mono; [eapply (settle sb pid x0 v x v3 L3 (result 0) R F3 V3 C3)|].
  - intros j r. rewrite Er3. intros Hj. pose proof (ar_used _ _ _ _ R j r Hj) as Hu. pose proof Hj as (q & z & Hq & Hrq & Ez & _)%irefs_in.
    pose proof (en_inum _ _ _ (id_entry _ _ _ _ (ar_cached _ _ _ _ R) _ _ Hq) Hrq) as Hin. rewrite Ez in Hin. destruct (decide (j = n)) as [->|Hjn]; [apply Hun|]. destruct (decide (j = m)) as [->|Hjm].
    + destruct (ul_kept _ _ _ _ _ _ _ U3) as [-> _]; [intros [_ H]; by rewrite H in Hj|exact Hu].
    + by rewrite (sm_din _ _ _ _ (ul_same _ _ _ _ _ _ _ U3 j (conj Hin Hu) Hjn Hjm)).
  - exact Er3.
  - intros v' Heq. unfold unlink_result. rewrite Er, El. cbv beta iota. rewrite Ef, decide_False by done. split; [done|]. split; [exact (home_links sb v3 v' V3 G3 Heq K3)|].
    apply (home_unlinked sb v v3 v' V3 G3 Heq); [exact V|exact Hun|by apply linked_use|exact U3].
  - intros [] x' Hc. by apply wpe_wp, wp_ret.
Qed.

(** The entry that was found. *)
Lemma found_entry n e i m : dir_find v (dinode_at sb v n) e = Some (i, m) -> exists de, entries v (dinode_at sb v n) !! i = Some de /\ de_inum de = m /\ m <> 0.
Proof.
  unfold dir_find. destruct (list_find _ _) as [[j de]|] eqn:E; [|done]. cbn. intros [= <- <-]. apply list_find_Some in E as (Hj & [H0 _] & _). by exists de.
Qed.

(** The code after [dirlookup]. *)
Lemma unlink_found x n e i m dp y next l : names_file -> resolve sb true v start es = Some n -> last es = Some e -> dir_find v (dinode_at sb v n) e = Some (i, m) -> ~ is_dots e ->
  linked sb v n -> di_type (dinode_at sb v n) = T_DIR -> fs_ok x v [] ∅ -> l !! dp = Some y -> held sb pid v n dp y -> got sb v [dp] m l next (f_inodes x) -> irefs l = ref_get n refs ->
  wpe (ilock next ;;
      s ← get;
      if di_nlink (din s next) <? 1 then panic "unlink: nlink < 1" else
      e ← (if di_type (din s next) =? T_DIR then isdirempty next else mret true);
      if negb e then iunlockput next ;; unlink_bad dp else
      w ← writei dp (replicate (Z.to_nat DIRENT_SIZE) 0) (DIRENT_SIZE * Z.of_nat i);
      if negb (w =? DIRENT_SIZE) then panic "unlink: writei" else
      s ← get;
      (if di_type (din s next) =? T_DIR then nlink_add dp (-1) ;; iupdate dp else mret tt) ;;
      iunlockput dp ;; nlink_add next (-1) ;; iupdate next ;; iunlockput next ;; lop end_op ;; mret 0)
    after (fun _ => False) x.
Proof using R K Hlog.
  clear Hcap. intros Hfile Er El Ef Hd Hln Ht F Hy He Hg Erl. pose proof (ar_vol _ _ _ _ R) as V. destruct (found_entry n e i m Ef) as (de & Hi & Hde & Hm0).
  pose proof (dir_find_linked _ _ _ _ _ _ (vo_tree _ _ V) Hln Ht Ef) as Hlm. pose proof (Hfile n e i m Er El Ef Hd) as Hmt. assert (m <> n) as Hmn by congruence.
  destruct (got_held _ _ _ _ _ _ _ _ _ _ _ Hy He Hg) as (y2 & z & Hy2 & He2 & Hz & Hcz & _). pose proof (proj1 Hg) as Erx. rewrite Erl in Erx. pose proof (proj1 (proj2 Hg)) as C.
  assert (next <> dp) as Hne. { intros ->. rewrite Hy2 in Hz. injection Hz as <-. destruct (he_caches _ _ _ _ _ _ He2) as (_ & _ & E1). destruct Hcz as (_ & _ & E2). congruence. }
  apply wpe_bind_wp. eapply (ilock_cached sb _ _ _ x v [] [dp] m next z); [exact F|apply V|cbn; unfold NBUF; lia|exact C| |exact Hz|exact Hcz|apply Hlm|].
  { rewrite not_elem_of_cons. split; [exact Hne|apply not_elem_of_nil]. }
  intros x2 z2 F2 C2 Ei2 Er2 Hez. assert (f_inodes x2 !! next = Some z2) as Hz2 by (rewrite Ei2; apply list_lookup_insert_eq; by eapply lookup_lt_Some).
  assert (f_inodes x2 !! dp = Some y2) as Hy3 by (rewrite Ei2, list_lookup_insert_ne by congruence; exact Hy2). destruct (din_held sb pid v m next z2 _ Hz2 Hez x2 eq_refl) as [Ed _].
  destruct (name_count sb v n m i de V K Hi Hde Hm0 Hln Ht Hmt) as [_ Hcnt]. apply wpe_bind_wp, wp_get. rewrite Ed. rewrite (proj2 (Z.ltb_ge _ _)) by lia. rewrite (proj2 (Z.eqb_neq _ _)) by exact Hmt.
  apply wpe_bind_wp, wp_ret. cbn [negb]. rewrite Erx in Er2.
  eapply (erase_ok sb (disk_of x0) pid 1 x2 v [] n dp y2 i de m next z2 refs F2 V); try eassumption; [lia|unfold room, NBUF; cbn [length]; lia|apply irefs_positive|].
  intros s1 v1 L1 Es. eapply (drop_ok sb (disk_of x0) pid 1 v [] n i de m next z2 refs V K); try eassumption; [lia|unfold room, NBUF; cbn [length]; lia|apply irefs_positive|].
  intros s3 v3 L3 Dr. by eapply removed_ok.
Qed.

Lemma unlink_ok : names_file -> wpe (unlink cwd path) after (fun _ => False) x0.
Proof using R K Hlog Hcap Hcwd Hp.
  intros Hfile. pose proof (ar_vol _ _ _ _ R) as V. pose proof (vo_tree _ _ V) as T. pose proof (start_linked sb x0 v cwd path T Hcwd) as Hst.
  unfold unlink. apply wpe_bind_wp. eapply (begin_ok sb pid x0 v _ R). intros x1 F1 Ei1. assert (walk_start x1 cwd path = start) as Es by (unfold walk_start, inode_at; by rewrite Ei1).
  assert (length (@nil Z) < NBUF)%nat as HL by (cbn; unfold NBUF; lia). unfold nameiparent. apply wpe_bind_wp. eapply (namex_ok sb _ _ _ x1 v []); rewrite ?Es, ?Ei1; [exact F1|apply V|exact HL|apply R|exact T|lia| |exact Hp|done|by apply Forall_replicate|].
  { unfold has_cwd. rewrite Ei1. exact Hcwd. }
  intros [r name] x2 F2 C2 W. unfold walked in W. destruct (resolve sb true v start es) as [n|] eqn:Er.
  2: { destruct W as [Hr Hi]. cbn in Hr. subst r. apply wpe_bind, wpe_wp. eapply wp_mono; [apply (settle_same sb pid x0 v x2 (result (-1)) R F2 C2 Hi)|intros [] x3 H; by apply wpe_wp, wp_ret].
       intros v' Hv'. unfold unlink_result. by rewrite Er. }
  destruct W as (dp & z & Hr & Hz & Hc & Hi & Hnm). cbn [fst snd] in Hr, Hnm. subst r. destruct (Hnm eq_refl) as [El Hb]. clear Hnm.
  destruct (resolve_linked sb true v es T start n Hst Er) as [Hl Hd]. specialize (Hd eq_refl).
  apply wpe_bind_wp. eapply ilock_cached; [exact F2|apply V|exact HL|exact C2|apply not_elem_of_nil|exact Hz|exact Hc|apply Hl|].
  intros x3 y F3 C3 Ei3 Er3 He. assert (f_inodes x3 !! dp = Some y) as Hy by (rewrite Ei3; apply list_lookup_insert_eq; by eapply lookup_lt_Some). rewrite Hi in Er3.
  rewrite !namecmp_dots by (done || by repeat constructor). destruct (bool_decide _ || bool_decide _) eqn:Edots.
  - apply (bad_ok x3 n dp y F3 C3 Hy He (proj2 (proj2 Hl)) Er3). intros v' Hv'. unfold unlink_result. rewrite Er, El. cbv beta iota.
    assert (is_dots (dname name)) as Hdots by (unfold is_dots; by rewrite orb_true_iff, !bool_decide_eq_true in Edots). destruct (dir_find _ _ _) as [[i m]|]; [by rewrite decide_True|done].
  - assert (~ is_dots (dname name)) as Hdots by (unfold is_dots; rewrite orb_false_iff, !bool_decide_eq_false in Edots; tauto). pose proof (size_ref_get n refs).
    apply wpe_bind_wp. eapply (dirlookup_ok sb _ _ _ v [] n dp y (f_inodes x3) [dp] (vo_layout _ _ V) HL C3 Hy He (tr_dir _ _ T n Hl Hd) Hd); [rewrite Er3, (fo_inodes _ _ _ _ _ _ _ _ F3); lia|done|done|exact Hb|].
    intros r x4 F4 Hf. unfold found in Hf. destruct (dir_find v (dinode_at sb v n) (dname name)) as [[i m]|] eqn:Ef.
    + destruct Hf as (next & -> & Hg). by eapply unlink_found.
    + destruct Hf as [-> Ei4]. apply (bad_ok x4 n dp y F4); rewrite ?Ei4; [done|done|exact He|apply Hl|done|]. intros v' Hv'. unfold unlink_result. rewrite Er, El. cbv beta iota. by rewrite Ef.
Qed.
End whole.

Section theorems.
Context `{BD : !BlockDevice} `{DS : !Devsw}.

End theorems.

(** ** Example: removing a file of a new file system *)

#[local] Existing Instance no_devsw.

(** The process of [Atomic], with the path [/cat] in its memory. *)
Definition cat_mem : mem := store32 (store32 user_mem 0x80402010 0x7461632f) 0x80402014 0.
Definition cat_sys (x : fs) : sys := mkSys (mkPt [user_proc] 2 0) (mkKern (mkKmem cat_mem 0x80403000 true) x [] ∅).

Lemma cat_path x : arg (argstr 0 0) (str "/cat") (cat_sys x).
Proof. intros y. vm_compute. reflexivity. Qed.

Lemma demo_cat v : mounted v demo_files -> dir_find v (dinode_at mksb v ROOTINO) (str "cat") = Some (2%nat, 2).
Proof. intros M. destruct demo_fits as [_ Hfit]. apply (mounted_find v demo_files Hfit M 0 (str "_cat", replicate 700 65)). split; [done|lia|done]. Qed.

