(* ===== verification/Ide.v ===== *)
(** * [ide.c]: the queue of disk requests, the interrupt handler and the ports.

    The controller is hardware: a class states what its registers, commands
    and interrupts do. Requests wait in the list [idequeue] threaded by
    [qnext]; the head is the one the controller is working on. The theorem is
    a refinement: requests and interrupts, in any order, do to buffers and disk what a queue of
    atomic calls of the block-device contract of [Bio] does. *)

From stdpp Require Import gmap.
From S2P Require Import Prelude Params Bio Proc ProcInv.

Definition SECTOR_SIZE : Z := 512.
Definition IDE_BSY : Z := 0x80.
Definition IDE_DRDY : Z := 0x40.
Definition IDE_DF : Z := 0x20.
Definition IDE_ERR : Z := 0x01.
Definition IDE_CMD_READ : Z := 0x20.
Definition IDE_CMD_WRITE : Z := 0x30.
Definition IDE_CMD_RDMUL : Z := 0xc4.
Definition IDE_CMD_WRMUL : Z := 0xc5.

(** ** The controller *)

(** What it is doing, for drive 1: nothing, a read or a write of a sector, or
    waiting for the data of a write or for the data of a read to be taken. *)
Inductive phase := Ready | Reading (n : Z) | WantData (n : Z) | Writing (n : Z) (d : block) | HasData (n : Z).

(** The sector number in the task-file registers. *)
Definition lba (r : Z -> Z) : Z := r 0x1f3 + 2 ^ 8 * r 0x1f4 + 2 ^ 16 * r 0x1f5 + 2 ^ 24 * Z.land (r 0x1f6) 0x0f.

Definition task_file (p : Z) : Prop := p = 0x3f6 \/ 0x1f2 <= p <= 0x1f6.

(** The ports, and the ATA commands for one sector: a command starts when it is
    written to 0x1f7; the data of a write follows through 0x1f0; the
    interrupt ([irq]) comes when the drive has done the work; the status shows not
    ready for [lag] more reads, fewer than [polls]. *)
Class Ata := {
  ata : Type;
  inb : Z -> M ata Z;
  outb : Z -> Z -> M ata unit;
  insl : Z -> nat -> M ata block;
  outsl : Z -> block -> nat -> M ata unit;
  irq : ata -> ata;
  reg : ata -> Z -> Z;
  phase_of : ata -> phase;
  media : ata -> disk;
  lag : ata -> nat;
  polls : nat;
  lag_polls : forall a, (lag a < polls)%nat;
  ata_status : forall a, phase_of a = Ready \/ (exists n, phase_of a = HasData n) ->
    exists r a', inb 0x1f7 a = Ok r a' /\ phase_of a' = phase_of a /\ media a' = media a /\ (forall p, reg a' p = reg a p) /\
      if decide (lag a = 0%nat) then Z.land r (Z.lor IDE_BSY IDE_DRDY) = IDE_DRDY /\ Z.land r (Z.lor IDE_DF IDE_ERR) = 0
      else Z.land r (Z.lor IDE_BSY IDE_DRDY) <> IDE_DRDY /\ lag a = S (lag a');
  ata_reg : forall a p x, task_file p -> 0 <= x < 256 ->
    exists a', outb p x a = Ok tt a' /\ phase_of a' = phase_of a /\ media a' = media a /\
      forall q, reg a' q = if decide (q = p) then x else reg a q;
  ata_read : forall a, phase_of a = Ready -> reg a 0x1f2 = 1 -> Z.testbit (reg a 0x1f6) 4 = true ->
    0 <= lba (reg a) < Z.of_nat (length (blocks (media a))) ->
    exists a', outb 0x1f7 IDE_CMD_READ a = Ok tt a' /\ phase_of a' = Reading (lba (reg a)) /\ media a' = media a;
  ata_write : forall a, phase_of a = Ready -> reg a 0x1f2 = 1 -> Z.testbit (reg a 0x1f6) 4 = true ->
    0 <= lba (reg a) < Z.of_nat (length (blocks (media a))) ->
    exists a', outb 0x1f7 IDE_CMD_WRITE a = Ok tt a' /\ phase_of a' = WantData (lba (reg a)) /\ media a' = media a;
  ata_data_out : forall a n d, phase_of a = WantData n -> length d = BSIZE ->
    exists a', outsl 0x1f0 d (BSIZE / 4) a = Ok tt a' /\ phase_of a' = Writing n d /\ media a' = media a;
  ata_done_write : forall a n d, phase_of a = Writing n d -> phase_of (irq a) = Ready /\ media (irq a) = disk_write n d (media a);
  ata_done_read : forall a n, phase_of a = Reading n -> phase_of (irq a) = HasData n /\ media (irq a) = media a;
  ata_data_in : forall a n d, phase_of a = HasData n -> blocks (media a) !! Z.to_nat n = Some d ->
    exists a', insl 0x1f0 (BSIZE / 4) a = Ok d a' /\ phase_of a' = Ready /\ media a' = media a;
}.

(** ** The driver *)

Section driver.
Context `{AT : !Ata}.
(** The wait channel of a buffer: its address. *)
Context (bchan : nat -> chan).

Record ide := mkIde {
  id_bufs : list buf;
  idequeue : option nat;
  qnext : list (option nat);
  havedisk1 : bool;
  id_ata : ata;
  id_pt : ptable;
}.

Definition set_idbufs x s := mkIde x (idequeue s) (qnext s) (havedisk1 s) (id_ata s) (id_pt s).
Definition set_idequeue x s := mkIde (id_bufs s) x (qnext s) (havedisk1 s) (id_ata s) (id_pt s).
Definition set_qnext x s := mkIde (id_bufs s) (idequeue s) x (havedisk1 s) (id_ata s) (id_pt s).
Definition set_havedisk1 x s := mkIde (id_bufs s) (idequeue s) (qnext s) x (id_ata s) (id_pt s).
Definition set_ata x s := mkIde (id_bufs s) (idequeue s) (qnext s) (havedisk1 s) x (id_pt s).
Definition set_idpt x s := mkIde (id_bufs s) (idequeue s) (qnext s) (havedisk1 s) (id_ata s) x.

Definition port {A} (m : M ata A) : M ide A := zoom id_ata set_ata m.
Definition bf (s : ide) (b : nat) : buf := id_bufs s !!! b.
Definition upd_bf (b : nat) (f : buf -> buf) : M ide unit := modify (fun s => set_idbufs (<[b := f (bf s b)]> (id_bufs s)) s).

(** The status is read until it shows ready. *)
Fixpoint idewait_loop (fuel : nat) : M ata Z :=
  r ← inb 0x1f7;
  if Z.land r (Z.lor IDE_BSY IDE_DRDY) =? IDE_DRDY then mret r else
  match fuel with O => outOfFuel | S fuel' => idewait_loop fuel' end.
Definition idewait (checkerr : bool) : M ata Z :=
  r ← idewait_loop polls;
  if checkerr && negb (Z.land r (Z.lor IDE_DF IDE_ERR) =? 0) then mret (-1) else mret 0.

(** [ideinit]: is there a disk 1? *)
Fixpoint probe (n : nat) : M ata bool :=
  match n with
  | O => mret false
  | S n' => r ← inb 0x1f7; if negb (r =? 0) then mret true else probe n'
  end.
Definition ideinit : M ide unit :=
  port (idewait false) ;;
  port (outb 0x1f6 (Z.lor 0xe0 (Z.shiftl 1 4))) ;;
  r ← port (probe 1000);
  (if (r : bool) then modify (set_havedisk1 true) else mret tt) ;;
  port (outb 0x1f6 (Z.lor 0xe0 (Z.shiftl 0 4))).

Definition idestart (b : option nat) : M ide unit :=
  match b with
  | None => panic "idestart"
  | Some b =>
      s ← get;
      let x := bf s b in
      if FSSIZE <=? b_blockno x then panic "incorrect blockno" else
      let sector_per_block := Z.of_nat BSIZE / SECTOR_SIZE in
      let sector := b_blockno x * sector_per_block in
      let read_cmd := if sector_per_block =? 1 then IDE_CMD_READ else IDE_CMD_RDMUL in
      let write_cmd := if sector_per_block =? 1 then IDE_CMD_WRITE else IDE_CMD_WRMUL in
      if 7 <? sector_per_block then panic "idestart" else
      port (idewait false) ;;
      port (outb 0x3f6 0) ;;
      port (outb 0x1f2 sector_per_block) ;;
      port (outb 0x1f3 (Z.land sector 0xff)) ;;
      port (outb 0x1f4 (Z.land (Z.shiftr sector 8) 0xff)) ;;
      port (outb 0x1f5 (Z.land (Z.shiftr sector 16) 0xff)) ;;
      port (outb 0x1f6 (Z.lor (Z.lor 0xe0 (Z.shiftl (Z.land (b_dev x) 1) 4)) (Z.land (Z.shiftr sector 24) 0x0f))) ;;
      if flag_set B_DIRTY x then
        port (outb 0x1f7 write_cmd) ;;
        port (outsl 0x1f0 (b_data x) (BSIZE / 4))
      else port (outb 0x1f7 read_cmd)
  end.

Definition ideintr : M ide unit :=
  s ← get;
  match idequeue s with
  | None => mret tt
  | Some b =>
      modify (set_idequeue (qnext s !!! b)) ;;
      (if negb (flag_set B_DIRTY (bf s b)) then
         r ← port (idewait true);
         if 0 <=? r then d ← port (insl 0x1f0 (BSIZE / 4)); upd_bf b (set_data d) else mret tt
       else mret tt) ;;
      upd_bf b (fun x => set_flags (Z.lor (b_flags x) B_VALID) x) ;;
      upd_bf b (fun x => set_flags (Z.land (b_flags x) (Z.lnot B_DIRTY)) x) ;;
      modify (fun s => set_idpt (wakeup (bchan b) (id_pt s)) s) ;;
      s ← get;
      match idequeue s with None => mret tt | Some _ => idestart (idequeue s) end
  end.

(** [pp] is [&idequeue] or the address of a field [qnext]. *)
Definition load (pp : option nat) (s : ide) : option nat :=
  match pp with None => idequeue s | Some i => qnext s !!! i end.
Definition store (pp v : option nat) : M ide unit :=
  match pp with
  | None => modify (set_idequeue v)
  | Some i => modify (fun s => set_qnext (<[i := v]> (qnext s)) s)
  end.
Fixpoint find_end (fuel : nat) (pp : option nat) : M ide (option nat) :=
  s ← get;
  match load pp s with
  | None => mret pp
  | Some i => match fuel with O => outOfFuel | S fuel' => find_end fuel' (Some i) end
  end.

(** [iderw] up to its wait, for the process [pid]. *)
Definition iderw_start (pid : Z) (b : nat) : M ide unit :=
  s ← get;
  let x := bf s b in
  if negb (holdingsleep pid (b_lock x)) then panic "iderw: buf not locked" else
  if Z.land (b_flags x) (Z.lor B_VALID B_DIRTY) =? B_VALID then panic "iderw: nothing to do" else
  if negb (b_dev x =? 0) && negb (havedisk1 s) then panic "iderw: ide disk 1 not present" else
  store (Some b) None ;;
  pp ← find_end (length (id_bufs s)) None;
  store pp (Some b) ;;
  s ← get;
  if decide (idequeue s = Some b) then idestart (Some b) else mret tt.

(** A turn of the wait, by the process in entry [cur]. *)
Definition iderw_wait (cur b : nat) : M ide unit :=
  s ← get;
  if Z.land (b_flags (bf s b)) (Z.lor B_VALID B_DIRTY) =? B_VALID then mret tt else
  modify (fun s => set_idpt (sleep_locked cur (bchan b) (id_pt s)) s) ;; sleep.

(** After [sched] in [sleep] returns: the next turn. *)
Definition iderw_resume (cur b : nat) : M ide unit :=
  modify (fun s => set_idpt (awake_locked cur (id_pt s)) s) ;; iderw_wait cur b.

Definition iderw (pid : Z) (cur b : nat) : M ide unit := iderw_start pid b ;; iderw_wait cur b.
End driver.

(** ** The ports *)

Section ports.
Context `{AT : !Ata}.

Lemma idewait_loop_ok fuel : forall a, (lag a <= fuel)%nat -> phase_of a = Ready \/ (exists n, phase_of a = HasData n) ->
  wp (idewait_loop fuel) (fun r a' => Z.land r (Z.lor IDE_DF IDE_ERR) = 0 /\ phase_of a' = phase_of a /\ media a' = media a) a.
Proof.
  induction fuel as [|fuel IH]; intros a Hl Hp; cbn [idewait_loop]; destruct (ata_status a Hp) as (r & a' & E & Ep & Em & _ & Hs);
    apply wp_bind, wp_ok; exists r, a'; (split; [done|]); case_decide as Hz.
  1, 3: destruct Hs as [-> ?]; rewrite Z.eqb_refl; by apply wp_ret.
  - lia.
  - destruct Hs as [Hne Hl']. rewrite (proj2 (Z.eqb_neq _ _)) by done. eapply wp_mono; [apply IH; [lia|by rewrite Ep]|].
    intros r' a'' (? & -> & ->). by rewrite Ep, Em.
Qed.

Lemma idewait_ok c a (Q : Z -> ata -> Prop) : phase_of a = Ready \/ (exists n, phase_of a = HasData n) ->
  (forall a', phase_of a' = phase_of a -> media a' = media a -> Q 0 a') -> wp (idewait c) Q a.
Proof.
  intros Hp HQ. unfold idewait. apply wp_bind. eapply wp_mono; [apply idewait_loop_ok; [pose proof (lag_polls a); lia|done]|].
  intros r a' (-> & Ep & Em). rewrite andb_false_r. by apply wp_ret, HQ.
Qed.

(** The registers hold the sector number. *)
Lemma lba_sector n : 0 <= n < 2 ^ 28 ->
  Z.land n 0xff + 2 ^ 8 * Z.land (Z.shiftr n 8) 0xff + 2 ^ 16 * Z.land (Z.shiftr n 16) 0xff + 2 ^ 24 * Z.land (Z.shiftr n 24) 0x0f = n.
Proof.
  intros Hn. change 0xff with (Z.ones 8). change 0x0f with (Z.ones 4). rewrite !Z.land_ones, !Z.shiftr_div_pow2 by lia.
  Z.to_euclidean_division_equations. lia.
Qed.

Lemma drive_reg n : 0 <= n < 2 ^ 28 ->
  let r := Z.lor (Z.lor 0xe0 (Z.shiftl (Z.land ROOTDEV 1) 4)) (Z.land (Z.shiftr n 24) 0x0f) in
  0 <= r < 256 /\ Z.testbit r 4 = true /\ Z.land r 0x0f = Z.land (Z.shiftr n 24) 0x0f.
Proof.
  intros Hn r. unfold r. change (Z.lor 0xe0 (Z.shiftl (Z.land ROOTDEV 1) 4)) with 0xf0. change 0x0f with (Z.ones 4).
  rewrite Z.land_ones by lia. pose proof (Z.mod_pos_bound (Z.shiftr n 24) (2 ^ 4) ltac:(lia)) as Hx. set (x := Z.shiftr n 24 mod 2 ^ 4) in *.
  assert (x = 0 \/ x = 1 \/ x = 2 \/ x = 3 \/ x = 4 \/ x = 5 \/ x = 6 \/ x = 7 \/ x = 8 \/ x = 9 \/ x = 10 \/ x = 11 \/ x = 12 \/ x = 13 \/ x = 14 \/ x = 15) as Hc by lia.
  clearbody x. repeat destruct Hc as [->|Hc]; [..|subst x]; vm_compute; (split; [split; [discriminate|reflexivity]|done]).
Qed.
End ports.

(** ** Requests *)

Section refine.
Context `{AT : !Ata} `{BD : !BlockDevice}.
Context (bchan : nat -> chan).

(** A buffer that may be passed to [iderw]: locked, for the root device,
    dirty or not read yet. *)
Record req_ok (k : disk) (x : buf) : Prop := {
  rq_lock : sl_locked (b_lock x) = true;
  rq_dev : b_dev x = ROOTDEV;
  rq_block : 0 <= b_blockno x < Z.of_nat (length (blocks k));
  rq_fs : b_blockno x < FSSIZE;
  rq_flags : b_flags x = 0 \/ b_flags x = B_DIRTY \/ b_flags x = Z.lor B_VALID B_DIRTY;
  rq_data : length (b_data x) = BSIZE;
}.

(** What the controller does while [x] is served. *)
Definition serving (x : buf) : phase :=
  if flag_set B_DIRTY x then Writing (b_blockno x) (b_data x) else Reading (b_blockno x).

Lemma wp_port_reg {A} p x (m : M ide A) Q s :
  task_file p -> 0 <= x < 256 ->
  (forall a', phase_of a' = phase_of (id_ata s) -> media a' = media (id_ata s) ->
     (forall q, reg a' q = if decide (q = p) then x else reg (id_ata s) q) -> wp m Q (set_ata a' s)) ->
  wp (port (outb p x) ;; m) Q s.
Proof.
  intros Hp Hx HQ. destruct (ata_reg (id_ata s) p x Hp Hx) as (a' & E & Ep & Em & Er).
  apply wp_bind, wp_zoom, wp_ok. exists tt, a'. split; [done|]. by apply HQ.
Qed.

Lemma byte_land n : 0 <= Z.land n 0xff < 256.
Proof. change 0xff with (Z.ones 8). rewrite Z.land_ones by lia. apply Z.mod_pos_bound. lia. Qed.

Lemma idestart_ok b s (Q : unit -> ide -> Prop) :
  phase_of (id_ata s) = Ready -> req_ok (media (id_ata s)) (bf s b) ->
  (forall a', phase_of a' = serving (bf s b) -> media a' = media (id_ata s) -> Q tt (set_ata a' s)) ->
  wp (idestart (Some b)) Q s.
Proof.
  intros Hp [_ Hd Hb Hf _ Hl] HQ. unfold idestart. apply wp_bind, wp_get. rewrite (proj2 (Z.leb_gt FSSIZE _)) by done.
  change (Z.of_nat BSIZE / SECTOR_SIZE) with 1. cbn [Z.eqb Z.ltb Pos.eqb Z.compare]. rewrite Z.mul_1_r.
  set (n := b_blockno (bf s b)) in *. assert (0 <= n < 2 ^ 28) as Hn by (unfold FSSIZE in *; lia). rewrite Hd.
  destruct (drive_reg n Hn) as (Hr6 & Hr6b & Hr6l). set (r6 := Z.lor _ _) in *.
  apply wp_bind, wp_zoom, idewait_ok; [by left|]. intros a0 Ep0 Em0.
  apply wp_port_reg; [by left|lia|]. intros a1 Ep1 Em1 Er1. cbn [id_ata set_ata] in *.
  apply wp_port_reg; [right; lia|lia|]. intros a2 Ep2 Em2 Er2. cbn [id_ata set_ata] in *.
  apply wp_port_reg; [right; lia|apply byte_land|]. intros a3 Ep3 Em3 Er3. cbn [id_ata set_ata] in *.
  apply wp_port_reg; [right; lia|apply byte_land|]. intros a4 Ep4 Em4 Er4. cbn [id_ata set_ata] in *.
  apply wp_port_reg; [right; lia|apply byte_land|]. intros a5 Ep5 Em5 Er5. cbn [id_ata set_ata] in *.
  apply wp_port_reg; [right; lia|done|]. intros a6 Ep6 Em6 Er6. cbn [id_ata set_ata] in *.
  assert (phase_of a6 = Ready) as HR by congruence. assert (media a6 = media (id_ata s)) as HM by congruence.
  assert (reg a6 0x1f2 = 1) as H2 by (by rewrite Er6, Er5, Er4, Er3, Er2).
  assert (reg a6 0x1f6 = r6) as H6 by (by rewrite Er6).
  assert (lba (reg a6) = n) as HL.
  { unfold lba. rewrite H6, Hr6l. rewrite !Er6, !Er5, !Er4, !Er3. cbn [decide]. repeat (rewrite decide_False by lia || rewrite decide_True by lia). by apply lba_sector. }
  assert (Z.testbit (reg a6 0x1f6) 4 = true) as HT by (by rewrite H6).
  assert (0 <= lba (reg a6) < Z.of_nat (length (blocks (media a6)))) as HB by (by rewrite HL, HM).
  unfold serving in HQ. destruct (flag_set B_DIRTY (bf s b)).
  - destruct (ata_write a6 HR H2 HT HB) as (a7 & E7 & Ep7 & Em7). apply wp_bind, wp_zoom, wp_ok. exists tt, a7. split; [done|].
    destruct (ata_data_out a7 _ _ Ep7 Hl) as (a8 & E8 & Ep8 & Em8). apply wp_zoom, wp_ok. exists tt, a8. split; [done|].
    apply HQ; [by rewrite Ep8, HL|congruence].
  - destruct (ata_read a6 HR H2 HT HB) as (a7 & E7 & Ep7 & Em7). apply wp_zoom, wp_ok. exists tt, a7. split; [done|].
    apply HQ; [by rewrite Ep7, HL|congruence].
Qed.

(** *** The linked list *)

(** From the pointer [h], the fields [nx] lead through [q]. *)
Fixpoint qrep (nx : list (option nat)) (h : option nat) (q : list nat) : Prop :=
  match q with
  | [] => h = None
  | i :: q' => h = Some i /\ exists n, nx !! i = Some n /\ qrep nx n q'
  end.

Lemma qrep_ne nx h q i v : i ∉ q -> qrep nx h q -> qrep (<[i := v]> nx) h q.
Proof.
  revert h. induction q as [|j q IH]; intros h Hi; [done|]. apply not_elem_of_cons in Hi as [Hne Hi].
  intros [-> (n & Hn & Hq)]. split; [done|]. exists n. rewrite list_lookup_insert_ne by done. auto.
Qed.

(** The last pointer of the list that [pp] points to. *)
Definition end_ptr (pp : option nat) (q : list nat) : option nat := match last q with None => pp | Some i => Some i end.

Lemma end_ptr_cons pp i q : end_ptr pp (i :: q) = end_ptr (Some i) q.
Proof. unfold end_ptr. rewrite last_cons. by destruct (last q). Qed.

Lemma find_end_ok s q : forall fuel pp (Q : option nat -> ide -> Prop),
  qrep (qnext s) (load pp s) q -> (length q <= fuel)%nat -> Q (end_ptr pp q) s -> wp (find_end fuel pp) Q s.
Proof.
  induction q as [|i q IH]; intros fuel pp Q Hq Hf HQ; (destruct fuel as [|fuel]; [try (simpl in Hf; lia)|]); cbn [find_end]; apply wp_bind, wp_get.
  1, 2: cbn [qrep] in Hq; rewrite Hq; by apply wp_ret.
  destruct Hq as [-> (n & Hn & Hq)]. apply IH; [|simpl in Hf; lia|by rewrite <- (end_ptr_cons pp)].
  cbn [load]. by rewrite (list_lookup_total_correct _ _ _ Hn).
Qed.

Lemma qrep_snoc nx h q b : qrep nx h q -> q <> [] -> NoDup q -> b ∉ q -> nx !! b = Some None ->
  exists i, last q = Some i /\ qrep (<[i := Some b]> nx) h (q ++ [b]).
Proof.
  revert h. induction q as [|i q IH]; intros h Hq Hne Hnd Hb Hnb; [done|]. apply NoDup_cons in Hnd as [Hi Hnd].
  apply not_elem_of_cons in Hb as [Hbi Hb]. destruct Hq as [-> (n & Hn & Hq)]. destruct q as [|j q].
  - exists i. split; [done|]. cbn [app qrep]. split; [done|]. exists (Some b). rewrite list_lookup_insert_eq by (by eapply lookup_lt_Some).
    split; [done|]. split; [done|]. exists None. by rewrite list_lookup_insert_ne by done.
  - destruct (IH n Hq ltac:(done) Hnd Hb Hnb) as (x & Hx & Hr). exists x. split; [by rewrite last_cons, Hx|].
    cbn [app]. split; [done|]. exists n. split; [|done]. rewrite list_lookup_insert_ne; [done|]. intros ->.
    apply Hi. by apply last_Some_elem_of.
Qed.

(** *** The abstract server *)

(** A queue of requests, served in order by atomic calls of [iderw] of a block
    device that meets the contract of [Bio]; and the calls of the driver's [iderw] that have not returned: the
    entry of the process, and the buffer. *)
Record server := mkServer { a_bufs : list buf; a_queue : list nat; a_disk : disk; a_wait : list (nat * nat) }.

Definition serve (a : server) : server :=
  match a_queue a with
  | [] => a
  | b :: q =>
      let x := a_bufs a !!! b in
      match Bio.iderw (sl_pid (b_lock x)) x (a_disk a) with
      | Ok x' k' => mkServer (<[b := x']> (a_bufs a)) q k' (a_wait a)
      | _ => a
      end
  end.

(** A piece of code up to its end ([true]) or to where it sleeps ([false]). *)
Definition upto_sleep (m : M ide unit) : M ide bool := fun s =>
  match m s with
  | Ok _ s' => Ok true s'
  | Blocked s' => Ok false s'
  | Panic e => Panic e
  | Fault => Fault
  | OutOfFuel => OutOfFuel
  end.

(** A call of [iderw] by the process [pid] in entry [cur], up to its sleep; a process in [iderw] that gets the CPU again, woken or not; an interrupt when the drive has finished, or for no
    reason; a change of a buffer that is not in use by the driver; and what the rest of the kernel does to the process table. *)
Inductive event := EReq (pid : Z) (cur b : nat) | ERun (cur b : nat) | EIntr | ESpurious | EBuf (b : nat) (x : buf) | EProcs (f : ptable -> ptable).

Definition handle (ev : event) : M ide bool :=
  match ev with
  | EReq pid cur b => upto_sleep (iderw bchan pid cur b)
  | ERun cur b => upto_sleep (iderw_resume bchan cur b)
  | EIntr => upto_sleep (modify (fun s => set_ata (irq (id_ata s)) s) ;; ideintr bchan)
  | ESpurious => upto_sleep (ideintr bchan)
  | EBuf b x => upto_sleep (modify (fun s => set_idbufs (<[b := x]> (id_bufs s)) s))
  | EProcs f => upto_sleep (modify (fun s => set_idpt (f (id_pt s)) s))
  end.

Definition astep (ev : event) (a : server) : server :=
  match ev with
  | EReq _ cur b => mkServer (a_bufs a) (a_queue a ++ [b]) (a_disk a) (a_wait a ++ [(cur, b)])
  | ERun cur b => if decide (b ∈ a_queue a) then a else mkServer (a_bufs a) (a_queue a) (a_disk a) (filter (fun w => w <> (cur, b)) (a_wait a))
  | EIntr => serve a
  | ESpurious | EProcs _ => a
  | EBuf b x => mkServer (<[b := x]> (a_bufs a)) (a_queue a) (a_disk a) (a_wait a)
  end.

(** A call of [iderw] sleeps until its request has been served. *)
Definition returns (ev : event) (a : server) : bool :=
  match ev with EReq _ _ _ => false | ERun _ b => bool_decide (b ∉ a_queue a) | _ => true end.

Definition asleep (t : ptable) (i : nat) : Prop := p_state (proc_at t i) = SLEEPING.

(** The rest of the kernel may wake a process that waits for the disk, but does not put it to sleep. *)
Definition leaves_asleep (f : ptable -> ptable) (a : server) : Prop :=
  forall t, length (procs (f t)) = length (procs t) /\
    forall cur b, (cur, b) ∈ a_wait a -> asleep (f t) cur -> asleep t cur /\ p_chan (proc_at (f t) cur) = p_chan (proc_at t cur).

Definition may (ev : event) (a : server) : Prop :=
  match ev with
  | EReq pid cur b => (b < length (a_bufs a))%nat /\ (b ∉ a_queue a) /\ req_ok (a_disk a) (a_bufs a !!! b) /\
      holdingsleep pid (b_lock (a_bufs a !!! b)) = true /\ Z.of_nat cur < NPROC /\ (cur ∉ (a_wait a).*1)
  | ERun cur b => (cur, b) ∈ a_wait a
  | EIntr => a_queue a <> []
  | ESpurious => a_queue a = []
  | EBuf b _ => (b ∉ a_queue a) /\ (b ∉ (a_wait a).*2)
  | EProcs f => leaves_asleep f a
  end.

Fixpoint handle_all (evs : list event) : M ide (list bool) :=
  match evs with [] => mret [] | ev :: evs' => r ← handle ev; rs ← handle_all evs'; mret (r :: rs) end.
Fixpoint astep_all (evs : list event) (a : server) : server :=
  match evs with [] => a | ev :: evs' => astep_all evs' (astep ev a) end.
Fixpoint returns_all (evs : list event) (a : server) : list bool :=
  match evs with [] => [] | ev :: evs' => returns ev a :: returns_all evs' (astep ev a) end.
Fixpoint may_all (evs : list event) (a : server) : Prop :=
  match evs with [] => True | ev :: evs' => may ev a /\ may_all evs' (astep ev a) end.

(** Buffers, queue, controller and disk. *)
Record queue_rep (s : ide) (a : server) : Prop := {
  ir_bufs : id_bufs s = a_bufs a;
  ir_queue : qrep (qnext s) (idequeue s) (a_queue a);
  ir_nodup : NoDup (a_queue a);
  ir_len : length (qnext s) = length (a_bufs a);
  ir_disk1 : havedisk1 s = true;
  ir_media : media (id_ata s) = a_disk a;
  ir_phase : phase_of (id_ata s) = match a_queue a with [] => Ready | b :: _ => serving (a_bufs a !!! b) end;
  ir_reqs : Forall (fun b => (b < length (a_bufs a))%nat /\ req_ok (a_disk a) (a_bufs a !!! b)) (a_queue a);
}.

(** A process in [iderw] sleeps on its buffer, and only while its request is queued: once it is served, the process is awake and the buffer valid. *)
Definition wait_ok (s : ide) (a : server) (cur b : nat) : Prop :=
  (asleep (id_pt s) cur -> p_chan (proc_at (id_pt s) cur) = Some (bchan b) /\ b ∈ a_queue a) /\ (b ∉ a_queue a -> b_flags (a_bufs a !!! b) = B_VALID).

Record ide_rep (s : ide) (a : server) : Prop := {
  ir_rep : queue_rep s a;
  ir_procs : Z.of_nat (length (procs (id_pt s))) = NPROC;
  ir_waits : forall cur b, (cur, b) ∈ a_wait a -> Z.of_nat cur < NPROC /\ (b < length (a_bufs a))%nat /\ wait_ok s a cur b;
  ir_once : forall cur b b', (cur, b) ∈ a_wait a -> (cur, b') ∈ a_wait a -> b = b';
}.

(** Serving keeps the size of the disk, and so the other requests. *)
Lemma serve_step a b q : a_queue a = b :: q -> (b < length (a_bufs a))%nat -> req_ok (a_disk a) (a_bufs a !!! b) -> NoDup (b :: q) ->
  let x := a_bufs a !!! b in
  exists x' k', serve a = mkServer (<[b := x']> (a_bufs a)) q k' (a_wait a) /\ length (blocks k') = length (blocks (a_disk a)) /\
    if flag_set B_DIRTY x then x' = set_flags B_VALID x /\ k' = disk_write (b_blockno x) (b_data x) (a_disk a)
    else exists d, blocks (a_disk a) !! Z.to_nat (b_blockno x) = Some d /\ x' = set_flags B_VALID (set_data d x) /\ k' = a_disk a.
Proof.
  intros Eq Hb [Hlk Hd Hbl Hf Hfl Hl] Hnd x. unfold serve. rewrite Eq. cbv zeta. fold x in Hlk, Hd, Hbl, Hf, Hfl, Hl |- *.
  assert (holdingsleep (sl_pid (b_lock x)) (b_lock x) = true) as Hh by (unfold holdingsleep; by rewrite Hlk, Z.eqb_refl).
  destruct Hfl as [E|Hfl].
  - destruct (lookup_lt_is_Some_2 (blocks (a_disk a)) (Z.to_nat (b_blockno x))) as [d Hd']; [lia|].
    rewrite (iderw_read _ x (a_disk a) d) by (done || lia). unfold flag_set. rewrite E. cbn [Z.land Z.eqb negb]. eexists _, _. split; [done|]. split; [done|].
    by exists d.
  - rewrite (iderw_write _ x (a_disk a)) by done. eexists _, _. split; [done|]. split; [cbn; by rewrite length_insert|].
    unfold flag_set. destruct Hfl as [-> | ->]; done.
Qed.

(** *** The steps *)

Lemma queue_length s a : queue_rep s a -> (length (a_queue a) <= length (id_bufs s))%nat.
Proof.
  intros [Eb _ Hnd _ _ _ _ Hr]. rewrite Eb. rewrite <- (length_seq (length (a_bufs a)) 0). apply submseteq_length, NoDup_submseteq; [done|].
  intros b Hb. rewrite Forall_forall in Hr. apply elem_of_seq. destruct (Hr b Hb). lia.
Qed.

Lemma store_end {A} s a b (k : M ide A) Q : queue_rep s a -> (b < length (a_bufs a))%nat -> b ∉ a_queue a ->
  (forall h nx, length nx = length (qnext s) -> qrep nx h (a_queue a ++ [b]) -> (h = Some b <-> a_queue a = []) ->
     wp k Q (set_idequeue h (set_qnext nx s))) ->
  wp (store (Some b) None ;; pp ← find_end (length (id_bufs s)) None; store pp (Some b) ;; k) Q s.
Proof.
  intros R Hb Hnb HQ. pose proof (queue_length s a R) as Hlen. destruct R as [Eb Hq Hnd Hl _ _ _ _].
  apply wp_bind, wp_modify. set (s1 := set_qnext (<[b := None]> (qnext s)) s). pose proof (qrep_ne _ _ _ _ None Hnb Hq) as Hq1.
  assert (qnext s1 !! b = Some None) as Hb1 by (apply list_lookup_insert_eq; by rewrite Hl).
  apply wp_bind. apply (find_end_ok s1 (a_queue a)); [exact Hq1|exact Hlen|]. unfold end_ptr.
  destruct (decide (a_queue a = [])) as [E|E].
  - rewrite E in *. cbn [last]. apply wp_bind, wp_modify. apply (HQ (Some b) (qnext s1)); [by apply length_insert| |done].
    split; [done|]. by exists None.
  - destruct (qrep_snoc _ _ _ b Hq1 E Hnd Hnb Hb1) as (i & Hi & Hr). rewrite Hi. apply wp_bind, wp_modify.
    change (wp k Q (set_idequeue (idequeue s) (set_qnext (<[i := Some b]> (qnext s1)) s))).
    apply HQ; [rewrite length_insert; by apply length_insert|exact Hr|]. split; [|done]. intros Eh. exfalso. rewrite Eh in Hq. destruct (a_queue a) as [|j q]; [done|].
    destruct Hq as [[= ->] _]. apply Hnb. apply elem_of_cons. by left.
Qed.

Lemma request_ok pid cur b s a : queue_rep s a -> may (EReq pid cur b) a -> wp (iderw_start pid b) (fun _ s' => queue_rep s' (astep (EReq pid cur b) a) /\ id_pt s' = id_pt s) s.
Proof.
  intros R (Hb & Hnb & Hrq & Hh & _). pose proof R as [Eb Hq Hnd Hl H1 Hm Hp Hr]. unfold iderw_start. apply wp_bind, wp_get.
  unfold bf. rewrite Eb, Hh. cbn [negb]. rewrite (proj2 (Z.eqb_neq _ B_VALID)).
  2: { destruct (rq_flags _ _ Hrq) as [-> |[-> | ->]]; vm_compute; discriminate. }
  rewrite H1, andb_false_r. rewrite <- Eb.
  apply (store_end s a b); [done..|]. intros h nx Hnx Hrep Hiff. apply wp_bind, wp_get. cbn [idequeue set_idequeue].
  assert (Forall (fun b0 => (b0 < length (a_bufs a))%nat /\ req_ok (a_disk a) (a_bufs a !!! b0)) (a_queue a ++ [b])) as Hr'
    by (apply Forall_app; split; [done|]; by constructor).
  assert (NoDup (a_queue a ++ [b])) as Hnd' by (apply NoDup_app; split; [done|]; split; [set_solver|apply NoDup_singleton]).
  case_decide as Eh.
  - apply Hiff in Eh as E0. apply idestart_ok; [cbn; by rewrite Hp, E0|cbn; unfold bf; cbn; by rewrite Hm, Eb|]. intros a' Ep Em.
    split; [|done]. split; cbn; try done; [by rewrite Hnx|by rewrite Em|]. rewrite E0. cbn [app]. rewrite Ep. unfold bf. cbn. by rewrite Eb.
  - apply wp_ret. split; [|done]. split; cbn; try done; [by rewrite Hnx|]. destruct (a_queue a) as [|j q]; [by destruct Eh; apply Hiff|done].
Qed.

Lemma land_valid f : f = 0 \/ f = B_DIRTY \/ f = Z.lor B_VALID B_DIRTY -> Z.land (Z.lor f B_VALID) (Z.lnot B_DIRTY) = B_VALID.
Proof. by intros [-> |[-> | ->]]. Qed.

(** After the data was taken: the buffer is marked, its waiters woken, and the
    next request started. *)
Lemma finish_ok s a b q x' k' : queue_rep s a -> a_queue a = b :: q ->
  let x := a_bufs a !!! b in
  x' = set_flags B_VALID x \/ (exists d, x' = set_flags B_VALID (set_data d x)) ->
  length (blocks k') = length (blocks (a_disk a)) ->
  forall a2 y, phase_of a2 = Ready -> media a2 = k' -> set_flags B_VALID y = x' -> b_flags y = b_flags x ->
  wp (upd_bf b (fun x => set_flags (Z.lor (b_flags x) B_VALID) x) ;;
      upd_bf b (fun x => set_flags (Z.land (b_flags x) (Z.lnot B_DIRTY)) x) ;;
      modify (fun s => set_idpt (wakeup (bchan b) (id_pt s)) s) ;;
      s ← get;
      match idequeue s with None => mret tt | Some _ => idestart (idequeue s) end)
    (fun _ s' => queue_rep s' (mkServer (<[b := x']> (a_bufs a)) q k' (a_wait a)) /\ id_pt s' = wakeup (bchan b) (id_pt s))
    (set_ata a2 (set_idbufs (<[b := y]> (id_bufs s)) (set_idequeue (qnext s !!! b) s))).
Proof.
  intros R Eq x Hx Hk a2 y Ep Em Ey Ef. pose proof R as [Eb Hq Hnd Hl H1 Hm Hp Hr]. rewrite Eq in *.
  apply NoDup_cons in Hnd as [Hbq Hnd]. apply Forall_cons in Hr as [[Hb Hrq] Hr]. destruct Hq as [_ (n & Hn & Hq)].
  rewrite (list_lookup_total_correct _ _ _ Hn). apply wp_bind, wp_modify, wp_bind, wp_modify, wp_bind, wp_modify, wp_bind, wp_get.
  unfold bf. cbn [id_bufs set_idbufs set_idpt set_ata set_idequeue idequeue]. rewrite Eb.
  rewrite !list_insert_insert_eq, !list_lookup_total_insert_eq by (by rewrite ?length_insert).
  assert (set_flags (Z.land (b_flags (set_flags (Z.lor (b_flags y) B_VALID) y)) (Z.lnot B_DIRTY)) (set_flags (Z.lor (b_flags y) B_VALID) y) = x') as Ex.
  { cbn [b_flags set_flags]. rewrite Ef, land_valid by apply (rq_flags _ _ Hrq). rewrite <- Ey. by destruct y. }
  assert (forall c, c ∈ q -> <[b := x']> (a_bufs a) !!! c = a_bufs a !!! c) as Hsame.
  { intros c Hc. apply list_lookup_total_insert_ne. intros ->. done. }
  assert (Forall (fun c => (c < length (<[b := x']> (a_bufs a)))%nat /\ req_ok k' (<[b := x']> (a_bufs a) !!! c)) q) as Hr'.
  { apply Forall_forall. intros c Hc. rewrite Hsame, length_insert by done. rewrite Forall_forall in Hr. destruct (Hr c Hc) as [? [? ? ? ? ? ?]].
    split; [done|]. split; try done. by rewrite Hk. }
  rewrite Ex. destruct q as [|c q].
  - cbn [qrep] in Hq. rewrite Hq. apply wp_ret. split; [|done]. split; cbn; try done. by rewrite length_insert.
  - destruct Hq as [-> (n' & Hn' & Hq)]. apply idestart_ok; cbn; [done|unfold bf; cbn; rewrite Em; by apply Forall_cons in Hr' as [[_ ?] _]|].
    intros a3 Ep3 Em3. split; [|done]. split; cbn; try done; [by split; [|exists n']|by rewrite length_insert|congruence].
Qed.

Lemma intr_ok s a b q : queue_rep s a -> a_queue a = b :: q -> wp (modify (fun s => set_ata (irq (id_ata s)) s) ;; ideintr bchan) (fun _ s' => queue_rep s' (serve a) /\ id_pt s' = wakeup (bchan b) (id_pt s)) s.
Proof.
  intros R Eq. pose proof R as [Eb Hq Hnd Hl H1 Hm Hp Hr]. rewrite Eq in *.
  pose proof (proj1 (Forall_cons _ _ _) Hr) as [[Hb Hrq] _]. destruct (serve_step a b q Eq Hb Hrq Hnd) as (x' & k' & -> & Hk & Hx').
  apply wp_bind, wp_modify. unfold ideintr. apply wp_bind, wp_get. cbn [idequeue set_ata]. destruct Hq as [-> _].
  apply wp_bind, wp_modify. unfold bf at 1. cbn [id_bufs qnext set_ata]. rewrite Eb. unfold serving in Hp. set (x := a_bufs a !!! b) in *.
  destruct (flag_set B_DIRTY x) eqn:Ed; cbn [negb].
  - destruct Hx' as [Ex Ek]. destruct (ata_done_write _ _ _ Hp) as [Ep Em]. apply wp_bind, wp_ret.
    pose proof (finish_ok s a b q x' k' R Eq (or_introl Ex) Hk (irq (id_ata s)) x Ep ltac:(congruence) (eq_sym Ex) eq_refl) as W.
    rewrite Eb in W. unfold x in W. rewrite (list_insert_id (a_bufs a) b (a_bufs a !!! b)) in W by (by apply list_lookup_lookup_total_lt). rewrite <- Eb in W at 1. destruct s. exact W.
  - destruct Hx' as (d & Hd & Ex & Ek). destruct (ata_done_read _ _ Hp) as [Ep Em].
    assert (blocks (media (irq (id_ata s))) !! Z.to_nat (b_blockno x) = Some d) as Hd' by (by rewrite Em, Hm).
    apply wp_bind, wp_bind, wp_zoom, idewait_ok; [right; by eexists|]. intros a1 Ep1 Em1. cbn [id_ata set_ata set_idequeue] in Ep1, Em1. rewrite Ep in Ep1. rewrite <- Em1 in Hd'.
    cbn [Z.leb Z.compare]. apply wp_bind, wp_zoom, wp_ok. destruct (ata_data_in a1 _ d Ep1 Hd') as (a2 & E2 & Ep2 & Em2).
    exists d, a2. split; [exact E2|]. apply wp_modify. unfold bf. cbn [id_bufs set_ata set_idequeue]. rewrite Eb. fold x.
    pose proof (finish_ok s a b q x' k' R Eq (or_intror (ex_intro _ d Ex)) Hk a2 (set_data d x) Ep2 ltac:(congruence) (eq_sym Ex) eq_refl) as W.
    rewrite Eb in W. by destruct s.
Qed.

(** *** The processes that wait *)

Lemma wp_upto (m : M ide unit) Q s : wp m (fun _ s' => Q true s') s -> wp (upto_sleep m) Q s.
Proof. unfold wp, upto_sleep. by destruct (m s). Qed.
Lemma wp_upto_bind (m k : M ide unit) Q s : wp m (fun _ s' => wp (upto_sleep k) Q s') s -> wp (upto_sleep (m ;; k)) Q s.
Proof. unfold wp, upto_sleep, mbind, M_bind. by destruct (m s). Qed.

Lemma pending_flags f : f = 0 \/ f = B_DIRTY \/ f = Z.lor B_VALID B_DIRTY -> (Z.land f (Z.lor B_VALID B_DIRTY) =? B_VALID) = false.
Proof. by intros [-> |[-> | ->]]. Qed.

(** The state of the core does not depend on the process table or on who waits. *)
Lemma queue_rep_pt s a t : queue_rep s a -> queue_rep (set_idpt t s) a.
Proof. by intros []. Qed.
Lemma queue_rep_wait s a w : queue_rep s a -> queue_rep s (mkServer (a_bufs a) (a_queue a) (a_disk a) w).
Proof. by intros []. Qed.

(** A turn of the wait: it sleeps while the request is queued, and returns when it has been served. *)
Lemma wait_turn cur b s a (Q : bool -> ide -> Prop) : queue_rep s a -> (b ∉ a_queue a -> b_flags (a_bufs a !!! b) = B_VALID) ->
  (b ∈ a_queue a -> Q false (set_idpt (sleep_locked cur (bchan b) (id_pt s)) s)) -> (b ∉ a_queue a -> Q true s) -> wp (upto_sleep (iderw_wait bchan cur b)) Q s.
Proof.
  intros R Hv Hin Hout. unfold iderw_wait, wp, upto_sleep, mbind, M_bind, get. unfold bf. rewrite (ir_bufs _ _ R).
  destruct (decide (b ∈ a_queue a)) as [Hq|Hq].
  - pose proof (ir_reqs _ _ R) as Hr. rewrite Forall_forall in Hr. destruct (Hr b Hq) as [_ Hrq]. rewrite (pending_flags _ (rq_flags _ _ Hrq)). by apply Hin.
  - rewrite (Hv Hq). by apply Hout.
Qed.

Lemma req_step pid cur b s a : ide_rep s a -> may (EReq pid cur b) a -> wp (handle (EReq pid cur b)) (fun r s' => r = false /\ ide_rep s' (astep (EReq pid cur b) a)) s.
Proof.
  intros [R Hl Hw Ho] Hm. cbn [handle]. unfold iderw. apply wp_upto_bind. eapply wp_mono; [by apply (request_ok pid cur)|]. intros [] s1 [R1 Ep]. pose proof Hm as (Hb & Hnb & _ & _ & Hc & Hnw).
  assert (b ∈ a_queue a ++ [b]) as Hin by set_solver. assert (forall x, (cur, x) ∉ a_wait a) as Hno by (intros x Hx; apply Hnw, list_elem_of_fmap; by exists (cur, x)).
  apply (wait_turn cur b s1 _ _ R1); [done| |done]. intros _. split; [done|]. split.
  - by apply queue_rep_pt.
  - cbn [id_pt set_idpt]. unfold sleep_locked. by rewrite length_upd_proc, Ep.
  - intros c x Hx. cbn [a_wait astep] in Hx. apply elem_of_app in Hx as [Hx|Hx%list_elem_of_singleton].
    + destruct (Hw c x Hx) as (Hc' & Hx' & Hs & Hv). split; [done|]. split; [done|]. assert (c <> cur) as Hne by (intros ->; by destruct (Hno x)).
      split; cbn [a_queue a_bufs astep]; [|intros Hq; apply Hv; set_solver]. unfold asleep, sleep_locked. cbn [id_pt set_idpt]. rewrite Ep, proc_at_upd, decide_False by (done || lia). intros Ha. destruct (Hs Ha). split; [done|set_solver].
    + injection Hx as -> ->. split; [done|]. split; [done|]. split; cbn [a_queue a_bufs astep]; [|done]. unfold sleep_locked. cbn [id_pt set_idpt]. rewrite Ep, proc_at_upd, decide_True by (done || lia). done.
  - cbn [a_wait astep]. intros c x y. rewrite !elem_of_app, !list_elem_of_singleton. intros [Hx|[= -> ->]] [Hy|E]; [by eapply Ho|injection E as -> ->; by destruct (Hno x)|by destruct (Hno y)|by injection E].
Qed.

Lemma run_step cur b s a : ide_rep s a -> may (ERun cur b) a -> wp (handle (ERun cur b)) (fun r s' => r = returns (ERun cur b) a /\ ide_rep s' (astep (ERun cur b) a)) s.
Proof.
  intros [R Hl Hw Ho] Hm. cbn [handle]. unfold iderw_resume. apply wp_upto_bind, wp_modify. set (s1 := set_idpt _ s). cbn [may] in Hm. destruct (Hw cur b Hm) as (Hc & Hb & _ & Hv).
  assert (queue_rep s1 a) as R1 by (by apply queue_rep_pt). assert (Z.of_nat (length (procs (id_pt s1))) = NPROC) as Hl1 by (unfold s1, awake_locked; cbn; by rewrite length_insert).
  assert (forall c, c <> cur -> proc_at (id_pt s1) c = proc_at (id_pt s) c) as Hoth by (intros c Hne; unfold s1, awake_locked; cbn [id_pt set_idpt]; by rewrite proc_at_upd, decide_False by (done || lia)). clearbody s1.
  apply (wait_turn cur b s1 a _ R1 Hv); cbn [returns astep]; intros Hq.
  - rewrite bool_decide_eq_false_2 by tauto. split; [done|]. rewrite decide_True by done. split; [by apply queue_rep_pt|by unfold sleep_locked; cbn [id_pt set_idpt]; rewrite length_upd_proc| |done].
    intros c x Hx. destruct (Hw c x Hx) as (Hc' & Hx' & Hs & Hv'). split; [done|]. split; [done|]. split; [|done]. unfold asleep, sleep_locked. cbn [id_pt set_idpt].
    rewrite !proc_at_upd by lia. destruct (decide (c = cur)) as [->|Hne]; [|rewrite Hoth by done; by apply Hs]. rewrite (Ho cur x b Hx Hm). done.
  - rewrite bool_decide_eq_true_2 by done. split; [done|]. rewrite decide_False by done. split; [by apply queue_rep_wait|done| |].
    + cbn [a_wait]. intros c x [Hne Hx]%list_elem_of_filter. destruct (Hw c x Hx) as (Hc' & Hx' & Hs & Hv'). split; [done|]. split; [done|]. split; [|done]. unfold asleep. rewrite Hoth; [done|]. intros ->. apply Hne. by rewrite (Ho cur x b Hx Hm).
    + cbn [a_wait]. intros c x y [_ Hx]%list_elem_of_filter [_ Hy]%list_elem_of_filter. by eapply Ho.
Qed.

Lemma intr_step s a : ide_rep s a -> may EIntr a -> wp (handle EIntr) (fun r s' => r = true /\ ide_rep s' (astep EIntr a)) s.
Proof.
  intros [R Hl Hw Ho] Hm. cbn [may] in Hm. cbn [handle astep]. destruct (a_queue a) as [|b q] eqn:Eq; [done|]. apply wp_upto. eapply wp_mono; [by apply (intr_ok s a b q)|]. intros [] s1 [R1 Ep]. split; [done|].
  pose proof (ir_nodup _ _ R) as Hnd. pose proof (ir_reqs _ _ R) as Hr. rewrite Eq in Hnd, Hr. apply Forall_cons in Hr as [[Hb Hrq] _].
  destruct (serve_step a b q Eq Hb Hrq Hnd) as (x' & k' & Es & _ & Hx'). assert (b_flags x' = B_VALID) as Hf by (destruct (flag_set B_DIRTY _); [by destruct Hx' as [-> _]|by destruct Hx' as (d & _ & -> & _)]).
  rewrite Es in *. apply NoDup_cons in Hnd as [Hbq _]. split; [done|rewrite Ep; unfold wakeup, with_procs, wakeup1; cbn; by rewrite length_fmap| |done].
  intros c x Hx. cbn [a_wait a_bufs] in *. destruct (Hw c x Hx) as (Hc' & Hx2 & Hs & Hv). split; [done|]. split; [by rewrite length_insert|]. unfold wait_ok, asleep in *. cbn [a_queue a_bufs]. rewrite Eq in Hs, Hv. rewrite Ep. unfold wakeup. rewrite proc_at_wakeup. unfold wake. split.
  - case_decide as Hd; [done|]. intros Ha. destruct (Hs Ha) as [Ec Hin]. split; [done|]. apply elem_of_cons in Hin as [->|Hin]; [|done]. destruct Hd. by split.
  - intros Hq. destruct (decide (x = b)) as [->|Hne]; [by rewrite list_lookup_total_insert_eq|]. rewrite list_lookup_total_insert_ne by done. apply Hv. by rewrite not_elem_of_cons.
Qed.

Lemma buf_step b x s a : ide_rep s a -> may (EBuf b x) a -> wp (handle (EBuf b x)) (fun r s' => r = true /\ ide_rep s' (astep (EBuf b x) a)) s.
Proof.
  intros [R Hl Hw Ho] [Hm Hm']. apply wp_upto, wp_modify. split; [done|]. destruct R as [Eb Hq Hnd Hln H1 Hmd Hp Hr].
  assert (forall c, c ∈ a_queue a -> <[b := x]> (a_bufs a) !!! c = a_bufs a !!! c) as Hsame by (intros c Hc; apply list_lookup_total_insert_ne; by intros ->). split; [|done| |done].
  - split; cbn; [by rewrite Eb|done|done|by rewrite length_insert|done|done| |].
    + rewrite Hp. destruct (a_queue a) as [|c q]; [done|]. rewrite Hsame; [done|apply elem_of_cons; by left].
    + apply Forall_forall. intros c Hc. rewrite Hsame, length_insert by done. rewrite Forall_forall in Hr. by apply Hr.
  - intros c y Hy. destruct (Hw c y Hy) as (Hc & Hy' & Hs & Hv). split; [done|]. cbn [astep a_bufs]. split; [by rewrite length_insert|]. split; [done|]. cbn [a_queue a_bufs]. intros Hq'. rewrite list_lookup_total_insert_ne; [by apply Hv|].
    intros ->. apply Hm', list_elem_of_fmap. by exists (c, y).
Qed.

Lemma procs_step f s a : ide_rep s a -> may (EProcs f) a -> wp (handle (EProcs f)) (fun r s' => r = true /\ ide_rep s' (astep (EProcs f) a)) s.
Proof.
  intros [R Hl Hw Ho] Hm. apply wp_upto, wp_modify. split; [done|]. cbn [astep may] in *. destruct (Hm (id_pt s)) as [Hlen Ha]. split; [by apply queue_rep_pt|cbn; by rewrite Hlen| |done].
  intros c x Hx. destruct (Hw c x Hx) as (Hc & Hx' & Hs & Hv). split; [done|]. split; [done|]. split; [|done]. cbn [id_pt set_idpt]. intros Hsl. destruct (Ha c x Hx Hsl) as [Hsl' ->]. by apply Hs.
Qed.

(** C20 The driver serves requests in order and as the contract of block devices
    says. For any sequence of calls of [iderw] on locked buffers, turns of the processes waiting in them, completion interrupts,
    interrupts without a cause while nothing is queued, changes to buffers that the driver does not use and to the process table: the
    driver does not panic or hang; buffers, queue and disk are
    at every point those of a queue whose head is served by one atomic call of the [iderw] on which
    buffer cache and log are built, and the controller is working on the head; a call of [iderw] sleeps exactly until its request has been served, when its process
    is awake, so that no wakeup is lost, and it then returns with the buffer valid. *)
Theorem ide_refines evs : forall s a, ide_rep s a -> may_all evs a ->
  wp (handle_all evs) (fun rs s' => rs = returns_all evs a /\ ide_rep s' (astep_all evs a)) s.
Proof.
  induction evs as [|ev evs IH]; intros s a R Hm; [by apply wp_ret|]. destruct Hm as [Hm Hall]. cbn [handle_all astep_all returns_all]. apply wp_bind.
  apply (wp_mono _ (fun r s' => r = returns ev a /\ ide_rep s' (astep ev a))).
  - destruct ev as [pid cur b|cur b| | |b x|f]; [by apply req_step|by apply run_step|by apply intr_step| |by apply buf_step|by apply procs_step].
    apply wp_upto. unfold ideintr. apply wp_bind, wp_get. pose proof (ir_queue _ _ (ir_rep _ _ R)) as Hq. cbn [may] in Hm. rewrite Hm in Hq. cbn [qrep] in Hq. rewrite Hq. by apply wp_ret.
  - intros r s' [-> R']. apply wp_bind. eapply wp_mono; [by apply IH|]. intros rs s'' [-> R'']. by apply wp_ret.
Qed.
End refine.

(** ** A controller that meets the contract: registers, and a disk in memory *)

Record sim := mkSim { sim_reg : Z -> Z; sim_phase : phase; sim_media : disk }.

Definition sim_outb (p x : Z) : M sim unit := fun a =>
  if p =? 0x1f7 then
    Ok tt (mkSim (sim_reg a)
      (match sim_phase a with
       | Ready => if x =? IDE_CMD_READ then Reading (lba (sim_reg a)) else if x =? IDE_CMD_WRITE then WantData (lba (sim_reg a)) else Ready
       | ph => ph
       end) (sim_media a))
  else Ok tt (mkSim (fun q => if decide (q = p) then x else sim_reg a q) (sim_phase a) (sim_media a)).
Definition sim_outsl (p : Z) (d : block) (n : nat) : M sim unit := fun a =>
  Ok tt (mkSim (sim_reg a) (match sim_phase a with WantData n => Writing n d | ph => ph end) (sim_media a)).
Definition sim_insl (p : Z) (n : nat) : M sim block := fun a =>
  match sim_phase a with
  | HasData n => Ok (blocks (sim_media a) !!! Z.to_nat n) (mkSim (sim_reg a) Ready (sim_media a))
  | _ => Ok zero_block a
  end.
Definition sim_irq (a : sim) : sim :=
  match sim_phase a with
  | Writing n d => mkSim (sim_reg a) Ready (disk_write n d (sim_media a))
  | Reading n => mkSim (sim_reg a) (HasData n) (sim_media a)
  | _ => a
  end.

#[local] Program Instance sim_ata : Ata := {|
  ata := sim; inb := fun _ a => Ok IDE_DRDY a; outb := sim_outb; insl := sim_insl; outsl := sim_outsl; irq := sim_irq;
  reg := sim_reg; phase_of := sim_phase; media := sim_media; lag := fun _ => 0%nat; polls := 1%nat |}.
Next Obligation. intros a. apply Nat.lt_0_1. Qed.
Next Obligation. intros a _. by exists IDE_DRDY, a. Qed.
Next Obligation.
  intros a p x Hp _. unfold sim_outb. rewrite (proj2 (Z.eqb_neq p 0x1f7)); [by eexists|]. destruct Hp as [->|Hp]; [done|lia].
Qed.
Next Obligation. intros a Hp _ _ _. unfold sim_outb. rewrite Hp. by eexists. Qed.
Next Obligation. intros a Hp _ _ _. unfold sim_outb. rewrite Hp. by eexists. Qed.
Next Obligation. intros a n d Hp _. unfold sim_outsl. rewrite Hp. by eexists. Qed.
Next Obligation. intros a n d Hp. unfold sim_irq. by rewrite Hp. Qed.
Next Obligation. intros a n Hp. unfold sim_irq. by rewrite Hp. Qed.
Next Obligation.
  intros a n d Hp Hd. unfold sim_insl. rewrite Hp, (list_lookup_total_correct _ _ _ Hd). by eexists.
Qed.

(** One process writes block 1 from buffer 0, another reads it into buffer 1; the second one gets the CPU once too early. *)
Definition demo_buf (flags pid : Z) (d : block) : buf := mkBuf flags ROOTDEV 1 (mkSleeplock true pid) 1 0 0 d.
Definition demo_server : server :=
  mkServer [demo_buf B_DIRTY 1 (replicate BSIZE 7); demo_buf 0 2 zero_block] [] (mkDisk [zero_block; zero_block] []) [].
Definition demo_ide : ide :=
  mkIde (a_bufs demo_server) None [None; None] true (mkSim (fun _ => 0) Ready (a_disk demo_server)) (mkPt (replicate 64 inhabitant) 0 0).
Definition demo_events : list event := [ESpurious; EReq 1 0 0; EReq 2 1 1; EIntr; ERun 0 0; ERun 1 1; EIntr; ERun 1 1].

Lemma ide_refines_witness :
  wp (handle_all (fun i => CObj (Z.of_nat i)) demo_events)
    (fun rs s' => rs = [true; false; false; true; true; false; true; true] /\ b_data (bf s' 1) = replicate BSIZE 7) demo_ide.
Proof.
  eapply wp_mono; [apply (ide_refines (fun i => CObj (Z.of_nat i)) demo_events demo_ide demo_server)|].
  - split; [split; try done; apply NoDup_nil_2|done|by intros ? ? ?%elem_of_nil|by intros ? ? ? ?%elem_of_nil].
  - split; [done|]. split; [|split; [|split; [done|split; [|split; [|split; [done|split; [|done]]]]]]].
    + split; [simpl; lia|]. split; [apply not_elem_of_nil|]. split; [split; [done|done|cbn; lia|done|by right; left|done]|]. split; [done|]. split; [done|apply not_elem_of_nil].
    + split; [simpl; lia|]. split; [cbn; rewrite elem_of_cons; by intros [?|?%elem_of_nil]|]. split; [split; [done|done|cbn; lia|done|by left|done]|]. split; [done|]. split; [done|cbn; rewrite elem_of_cons; by intros [?|?%elem_of_nil]].
    + cbn [may]. apply (bool_decide_unpack _). by vm_compute.
    + cbn [may]. apply (bool_decide_unpack _). by vm_compute.
    + cbn [may]. apply (bool_decide_unpack _). by vm_compute.
  - intros rs s' [-> R]. split; [vm_compute; reflexivity|]. unfold bf. rewrite (ir_bufs _ _ (ir_rep _ _ _ R)). vm_compute. reflexivity.
Defined.
