(* ===== verification/Mp.v ===== *)
(** * [mp.c]: finding the processors.

    The BIOS leaves tables in memory; [mpinit] looks for them, checks them and
    collects the processors. The theorems show what it collects from a
    well-formed table, and that a table with an entry of an unknown type makes it
    loop for ever. *)

From Stdlib Require Import String.
From stdpp Require Import gmap.
From S2P Require Import Prelude CString Params Mmu.
Local Open Scope Z_scope.

Definition MPPROC : Z := 0.
Definition MPBUS : Z := 1.
Definition MPIOAPIC : Z := 2.
Definition MPIOINTR : Z := 3.
Definition MPLINTR : Z := 4.
Definition NCPU : nat := 8.

(** [sizeof] of [struct mp], [mpconf], [mpproc] and [mpioapic]. *)
Definition MP_SIZE : Z := 16.
Definition MPCONF_SIZE : Z := 44.
Definition MPPROC_SIZE : Z := 20.
Definition MPIOAPIC_SIZE : Z := 8.

(** The [n] bytes from [p] on, and 16-bit fields. *)
Fixpoint mem_bytes (m : mem) (p : Z) (n : nat) : list Z :=
  match n with O => [] | S n' => m p :: mem_bytes m (p + 1) n' end.
Definition load16 (m : mem) (a : Z) : Z := m a + 256 * m (a + 1).

(** [cpus[0..ncpu)] as the list of their [apicid]s, the other globals, and the bytes written to ports. *)
Record mpst := mkMpst { mp_cpus : list Z; mp_ioapicid : Z; mp_lapic : Z; mp_outs : list (Z * Z) }.

(** Fields of [struct mp] and [struct mpconf]. *)
Definition mp_physaddr (m : mem) (mp : Z) : Z := load32 m (mp + 4).
Definition mp_imcrp (m : mem) (mp : Z) : Z := m (mp + 12).
Definition conf_length (m : mem) (conf : Z) : Z := load16 m (conf + 4).
Definition conf_version (m : mem) (conf : Z) : Z := m (conf + 6).
Definition conf_lapicaddr (m : mem) (conf : Z) : Z := load32 m (conf + 36).

Definition sum (m : mem) (addr len : Z) : Z := u8 (foldr Z.add 0 (mem_bytes m addr (Z.to_nat len))).

Fixpoint mpsearch1_loop (m : mem) (fuel : nat) (p e : Z) : Z :=
  match fuel with
  | O => 0
  | S fuel' =>
      if negb (p <? e) then 0 else
      if (memcmp (mem_bytes m p 4) (str "_MP_") 4 =? 0) && (sum m p MP_SIZE =? 0) then p
      else mpsearch1_loop m fuel' (p + MP_SIZE) e
  end.

(** The loop ends when [len] bytes are searched. *)
Definition mpsearch1 (m : mem) (a len : Z) : Z :=
  let addr := P2V a in
  mpsearch1_loop m (Z.to_nat (len / MP_SIZE + 1)) addr (addr + len).

Definition mpsearch (m : mem) : Z :=
  let bda := P2V 0x400 in
  let p := Z.shiftl (Z.lor (Z.shiftl (m (bda + 0x0F)) 8) (m (bda + 0x0E))) 4 in
  let mp :=
    if negb (p =? 0) then mpsearch1 m p 1024
    else mpsearch1 m (u32 (Z.lor (Z.shiftl (m (bda + 0x14)) 8) (m (bda + 0x13)) * 1024 - 1024)) 1024 in
  if negb (mp =? 0) then mp else mpsearch1 m 0xF0000 0x10000.

(** The configuration table and the floating pointer, or none. *)
Definition mpconfig (m : mem) : option (Z * Z) :=
  let mp := mpsearch m in
  if (mp =? 0) || (mp_physaddr m mp =? 0) then None else
  let conf := P2V (mp_physaddr m mp) in
  if negb (memcmp (mem_bytes m conf 4) (str "PCMP") 4 =? 0) then None else
  if negb (conf_version m conf =? 1) && negb (conf_version m conf =? 4) then None else
  if negb (sum m conf (conf_length m conf) =? 0) then None else
  Some (conf, mp).

Definition add_cpu (apicid : Z) (s : mpst) : mpst :=
  if (length (mp_cpus s) <? NCPU)%nat then mkMpst (mp_cpus s ++ [apicid]) (mp_ioapicid s) (mp_lapic s) (mp_outs s) else s.
Definition set_ioapicid (id : Z) (s : mpst) : mpst := mkMpst (mp_cpus s) id (mp_lapic s) (mp_outs s).
Definition set_lapic (a : Z) (s : mpst) : mpst := mkMpst (mp_cpus s) (mp_ioapicid s) a (mp_outs s).
Definition outb (port b : Z) (s : mpst) : mpst := mkMpst (mp_cpus s) (mp_ioapicid s) (mp_lapic s) (mp_outs s ++ [(port, b)]).

(** The loop over the table. The [break] of the default case leaves the
    [switch], not the loop. *)
Fixpoint mp_loop (m : mem) (fuel : nat) (p e : Z) (ismp : bool) : M mpst bool :=
  if negb (p <? e) then mret ismp else
  match fuel with
  | O => outOfFuel
  | S fuel' =>
      let t := m p in
      if t =? MPPROC then modify (add_cpu (m (p + 1))) ;; mp_loop m fuel' (p + MPPROC_SIZE) e ismp
      else if t =? MPIOAPIC then modify (set_ioapicid (m (p + 1))) ;; mp_loop m fuel' (p + MPIOAPIC_SIZE) e ismp
      else if (t =? MPBUS) || (t =? MPIOINTR) || (t =? MPLINTR) then mp_loop m fuel' (p + 8) e ismp
      else mp_loop m fuel' p e false
  end.

(** [imcr] is what [inb(0x23)] returns. *)
Definition mpinit (m : mem) (imcr : Z) (fuel : nat) : M mpst unit :=
  match mpconfig m with
  | None => panic "Expect to run on an SMP"
  | Some (conf, mp) =>
      modify (set_lapic (conf_lapicaddr m conf)) ;;
      ismp ← mp_loop m fuel (conf + MPCONF_SIZE) (conf + conf_length m conf) true;
      if negb ismp then panic "Didn't find a suitable machine" else
      if negb (mp_imcrp m mp =? 0) then
        modify (outb 0x22 0x70) ;; modify (outb 0x23 (Z.lor imcr 1))
      else mret tt
  end.

(** ** What the searches return *)

Lemma length_mem_bytes m p n : length (mem_bytes m p n) = n.
Proof. revert p. induction n as [|n IH]; intros p; cbn; [done|]. by rewrite IH. Qed.

Lemma memcmp_eq n : forall s t, length s = n -> length t = n -> memcmp s t n = 0 <-> s = t.
Proof.
  induction n as [|n IH]; intros [|a s] [|b t] Hs Ht; try done. cbn. injection Hs as Hs. injection Ht as Ht.
  destruct (Z.eqb_spec a b) as [->|Hne]; cbn [negb]; [rewrite IH by done; split; [by intros ->|by intros [= ->]]|].
  split; [lia|by intros [= ? _]].
Qed.

(** A floating pointer structure. *)
Definition is_mp (m : mem) (p : Z) : Prop := mem_bytes m p 4 = str "_MP_" /\ sum m p MP_SIZE = 0.

Lemma mp_test m p : (memcmp (mem_bytes m p 4) (str "_MP_") 4 =? 0) && (sum m p MP_SIZE =? 0) = true <-> is_mp m p.
Proof. rewrite andb_true_iff, !Z.eqb_eq, memcmp_eq by (done || apply length_mem_bytes). done. Qed.

Lemma mpsearch1_valid m a len : mpsearch1 m a len <> 0 -> is_mp m (mpsearch1 m a len).
Proof.
  unfold mpsearch1. generalize (P2V a) (P2V a + len) (Z.to_nat (len / MP_SIZE + 1)). intros p e fuel. revert p.
  induction fuel as [|fuel IH]; intros p; cbn [mpsearch1_loop]; [done|]. destruct (p <? e); cbn [negb]; [|done].
  destruct (_ && _) eqn:Eb; [by rewrite mp_test in Eb|apply IH].
Qed.

Lemma mpsearch_valid m : mpsearch m <> 0 -> is_mp m (mpsearch m).
Proof.
  unfold mpsearch. cbv zeta. set (p := Z.shiftl _ 4). destruct (p =? 0); cbn [negb]; destruct (_ =? 0) eqn:E; cbn [negb]; apply mpsearch1_valid.
Qed.

(** What [mpconfig] has checked. *)
Record checked (m : mem) (conf mp : Z) : Prop := {
  ck_mp : is_mp m mp;
  ck_conf : conf = P2V (mp_physaddr m mp);
  ck_sig : mem_bytes m conf 4 = str "PCMP";
  ck_version : conf_version m conf = 1 \/ conf_version m conf = 4;
  ck_sum : sum m conf (conf_length m conf) = 0;
}.

Lemma mpconfig_checked m conf mp : mpconfig m = Some (conf, mp) -> checked m conf mp.
Proof.
  unfold mpconfig. cbv zeta. destruct (Z.eqb_spec (mpsearch m) 0) as [|Hne]; [done|]. cbn [orb]. destruct (mp_physaddr m (mpsearch m) =? 0); [done|].
  destruct (negb (memcmp _ _ _ =? 0)) eqn:Es; [done|]. apply negb_false_iff, Z.eqb_eq in Es. rewrite memcmp_eq in Es by (done || apply length_mem_bytes).
  destruct (_ && _) eqn:Ev; [done|]. destruct (negb (sum _ _ _ =? 0)) eqn:Ec; [done|]. apply negb_false_iff, Z.eqb_eq in Ec. intros [= <- <-].
  split; [by apply mpsearch_valid|done|done| |done]. apply andb_false_iff in Ev as [Ev|Ev]; apply negb_false_iff, Z.eqb_eq in Ev; [by left|by right].
Qed.

(** ** The table *)

Inductive mpentry := Proc (apicid : Z) | Ioapic (apicno : Z) | Other (type : Z).

Definition entry_at (m : mem) (p : Z) (e : mpentry) : Prop :=
  match e with
  | Proc id => m p = MPPROC /\ m (p + 1) = id
  | Ioapic no => m p = MPIOAPIC /\ m (p + 1) = no
  | Other t => m p = t /\ (t = MPBUS \/ t = MPIOINTR \/ t = MPLINTR)
  end.
Definition entry_size (e : mpentry) : Z := match e with Proc _ => 20 | _ => 8 end.

(** The entries from [p] on, and where they end. *)
Fixpoint table (m : mem) (p e : Z) (es : list mpentry) (q : Z) : Prop :=
  match es with
  | [] => p = q
  | x :: es' => p < e /\ entry_at m p x /\ table m (p + entry_size x) e es' q
  end.

Definition apicids (es : list mpentry) : list Z := omap (fun e => match e with Proc id => Some id | _ => None end) es.
Definition ioapics (es : list mpentry) : list Z := omap (fun e => match e with Ioapic no => Some no | _ => None end) es.

Definition collect (es : list mpentry) (s : mpst) : mpst :=
  mkMpst (take NCPU (mp_cpus s ++ apicids es)) (default (mp_ioapicid s) (last (ioapics es))) (mp_lapic s) (mp_outs s).

Lemma add_cpu_take id s rest : (length (mp_cpus s) <= NCPU)%nat ->
  take NCPU (mp_cpus (add_cpu id s) ++ rest) = take NCPU (mp_cpus s ++ id :: rest) /\ (length (mp_cpus (add_cpu id s)) <= NCPU)%nat.
Proof.
  intros Hl. unfold add_cpu. destruct (Nat.ltb_spec (length (mp_cpus s)) NCPU) as [Hlt|Hge]; cbn [mp_cpus].
  - rewrite length_app. cbn [length]. split; [by rewrite <- app_assoc|lia].
  - split; [|done]. by rewrite !take_app_le by lia.
Qed.

(** The known entries are collected; the loop is then at their end. *)
Lemma mp_loop_table m e q ismp es : forall p s fuel, table m p e es q -> (length (mp_cpus s) <= NCPU)%nat -> (length es <= fuel)%nat ->
  exists s', s' = collect es s /\ mp_loop m fuel p e ismp s = mp_loop m (fuel - length es) q e ismp s'.
Proof.
  induction es as [|x es IH]; intros p s fuel Ht Hl Hf.
  - cbn in Ht. subst q. exists s. split; [|by rewrite Nat.sub_0_r]. unfold collect. cbn. rewrite app_nil_r, take_ge by done. by destruct s.
  - destruct Ht as (Hlt & Hx & Ht). destruct fuel as [|fuel]; [cbn in Hf; lia|]. cbn [mp_loop length Nat.sub]. rewrite (proj2 (Z.ltb_lt _ _)) by done. cbn [negb].
    cbn [length] in Hf. destruct x as [id|no|t]; cbn [entry_at entry_size] in *.
    + destruct Hx as [-> ->]. destruct (add_cpu_take id s (apicids es) Hl) as [E Hl']. destruct (IH _ (add_cpu id s) fuel Ht Hl' ltac:(lia)) as (s' & -> & E').
      exists (collect (Proc id :: es) s). split; [done|]. etransitivity; [exact E'|]. f_equal. unfold collect. rewrite E. unfold add_cpu. by destruct (_ <? _)%nat.
    + destruct Hx as [-> ->]. destruct (IH _ (set_ioapicid no s) fuel Ht Hl ltac:(lia)) as (s' & -> & E').
      exists (collect (Ioapic no :: es) s). split; [done|]. etransitivity; [exact E'|]. f_equal. unfold collect. cbn [mp_cpus set_ioapicid mp_ioapicid mp_lapic mp_outs]. f_equal.
      change (ioapics (Ioapic no :: es)) with (no :: ioapics es). rewrite last_cons. by destruct (last (ioapics es)).
    + destruct Hx as [-> Ht']. destruct (IH _ s fuel Ht Hl ltac:(lia)) as (s' & -> & E'). exists (collect es s). split; [done|]. rewrite <- E'.
      destruct Ht' as [->|[->| ->]]; done.
Qed.

(** [mpinit] uses only tables that it has checked (signatures, version and checksums
    of the floating pointer and of the configuration table), and from a table of known
    entries that fills the length given it returns with the first [NCPU] processors in table order, the
    last I/O APIC and the local APIC address; without a valid table it panics. *)
Theorem mpinit_spec m imcr fuel s :
  (length (mp_cpus s) <= NCPU)%nat ->
  match mpconfig m with
  | None => mpinit m imcr fuel s = Panic "Expect to run on an SMP"
  | Some (conf, mp) => checked m conf mp /\
      forall es q, table m (conf + MPCONF_SIZE) (conf + conf_length m conf) es q -> conf + conf_length m conf <= q -> (length es <= fuel)%nat ->
      wp (mpinit m imcr fuel) (fun _ s' => mp_cpus s' = take NCPU (mp_cpus s ++ apicids es) /\
        mp_ioapicid s' = default (mp_ioapicid s) (last (ioapics es)) /\ mp_lapic s' = conf_lapicaddr m conf) s
  end.
Proof.
  intros Hl. unfold mpinit. destruct (mpconfig m) as [[conf mp]|] eqn:E; [|done]. split; [by apply mpconfig_checked|]. intros es q Ht Hq Hf.
  apply wp_bind, wp_modify, wp_bind. set (s1 := set_lapic _ s).
  destruct (mp_loop_table m _ q true es _ s1 fuel Ht Hl Hf) as (s' & -> & E'). unfold wp at 1. rewrite E'.
  assert (mp_loop m (fuel - length es) q (conf + conf_length m conf) true (collect es s1) = Ok true (collect es s1)) as ->.
  { destruct (fuel - length es)%nat; cbn; by rewrite (proj2 (Z.ltb_ge _ _)). }
  cbn [negb]. destruct (negb _); [apply wp_bind, wp_modify, wp_modify|apply wp_ret]; done.
Qed.

(** C39 A table with an entry of an unknown type is never rejected: the [break] of the default case leaves
    only the [switch], the loop stays at the entry, and [mpinit] does not
    return, however long it runs; its second panic cannot be reached. *)
Theorem mpinit_unknown_entry m imcr conf mp es q s :
  mpconfig m = Some (conf, mp) -> (length (mp_cpus s) <= NCPU)%nat ->
  table m (conf + MPCONF_SIZE) (conf + conf_length m conf) es q -> q < conf + conf_length m conf ->
  m q <> MPPROC -> m q <> MPIOAPIC -> m q <> MPBUS -> m q <> MPIOINTR -> m q <> MPLINTR ->
  forall fuel, mpinit m imcr fuel s = OutOfFuel.
Proof.
  intros E Hl Ht Hq N0 N2 N1 N3 N4. set (e := conf + conf_length m conf) in *.
  assert (forall fuel b t, mp_loop m fuel q e b t = OutOfFuel) as Hstay.
  { induction fuel as [|fuel IH]; intros b t; cbn [mp_loop]; rewrite (proj2 (Z.ltb_lt _ _)) by done; cbn [negb]; [done|].
    rewrite !(proj2 (Z.eqb_neq (m q) _)) by done. apply IH. }
  assert (forall es p fuel b t, table m p e es q -> mp_loop m fuel p e b t = OutOfFuel) as Hrun.
  { clear Ht es. induction es as [|x es IH]; intros p fuel b t Ht; [cbn in Ht; subst p; apply Hstay|]. destruct Ht as (Hlt & Hx & Ht).
    destruct fuel as [|fuel]; cbn [mp_loop]; rewrite (proj2 (Z.ltb_lt _ _)) by done; cbn [negb]; [done|]. destruct x as [id|no|ty]; cbn [entry_at entry_size] in *.
    - destruct Hx as [-> ->]. apply (IH _ fuel b (add_cpu id t) Ht).
    - destruct Hx as [-> ->]. apply (IH _ fuel b (set_ioapicid no t) Ht).
    - destruct Hx as [-> Hty]. destruct Hty as [->|[->| ->]]; apply (IH _ fuel b t Ht). }
  intros fuel. unfold mpinit. rewrite E. unfold mbind, M_bind, modify. by rewrite (Hrun es _ fuel true _ Ht).
Qed.

(** *** A machine with two processors *)

(** Memory with the pieces given, 0 elsewhere. *)
Fixpoint mem_of (l : list (Z * list Z)) : mem := fun x =>
  match l with
  | [] => 0
  | (a, bs) :: l' => if (a <=? x) && (x <? a + Z.of_nat (length bs)) then nth (Z.to_nat (x - a)) bs 0 else mem_of l' x
  end.

(** The floating pointer in the BIOS area, the configuration table at 4096, with the last entry [t]. *)
Definition demo_mp (c1 c2 t : Z) : mem := mem_of
  [(P2V 0xF0000, str "_MP_" ++ le_bytes 4 4096 ++ [1; 4; c1; 0; 0; 0; 0; 0]);
   (P2V 4096, str "PCMP" ++ [92; 0; 4; c2] ++ replicate 20 0 ++ replicate 8 0 ++ le_bytes 4 0xFEE00000 ++ replicate 4 0 ++
      [MPPROC; 0] ++ replicate 18 0 ++ [MPPROC; 1] ++ replicate 18 0 ++ [t; 2; 0; 0; 0; 0; 0; 0])].

Definition mpst0 : mpst := mkMpst [] 0 0 [].

Lemma mpinit_spec_witness : wp (mpinit (demo_mp 144 141 MPIOAPIC) 0 10) (fun _ s' => mp_cpus s' = [0; 1] /\ mp_ioapicid s' = 2) mpst0.
Proof.
  assert (mpconfig (demo_mp 144 141 MPIOAPIC) = Some (P2V 4096, P2V 0xF0000)) as E by (vm_compute; reflexivity).
  pose proof (mpinit_spec (demo_mp 144 141 MPIOAPIC) 0 10 mpst0) as H. rewrite E in H. destruct H as [_ H]; [cbn; lia|].
  eapply wp_mono; [apply (H [Proc 0; Proc 1; Ioapic 2] (P2V 4096 + 92))|].
  - vm_compute. repeat split.
  - vm_compute. congruence.
  - cbn. lia.
  - intros _ s' (H1 & H2 & _). split; [exact H1|exact H2].
Defined.

Lemma mpinit_unknown_entry_witness : demo_mp 144 134 9 (P2V 4096 + 84) = 9 /\ forall fuel, mpinit (demo_mp 144 134 9) 0 fuel mpst0 = OutOfFuel.
Proof.
  split; [vm_compute; reflexivity|].
  apply (mpinit_unknown_entry (demo_mp 144 134 9) 0 (P2V 4096) (P2V 0xF0000) [Proc 0; Proc 1] (P2V 4096 + 84)); try (vm_compute; congruence).
  - vm_compute. lia.
  - vm_compute. repeat split.
Defined.
