(* ===== verification/Trap.v ===== *)
(** * [trap.c]: system calls, interrupts and faults, on the whole kernel state.

    [trap] dispatches to the models of the other files: the system calls, the
    disk driver, the keyboard, the serial port and the process table. *)

From Stdlib Require Import String.
From stdpp Require Import gmap.
From S2P Require Import Prelude Seg CString Params Mmu Bio Log Fs File Proc ProcInv Ulib Kbd Console Syscall Exec Sysfile Ide Vm Writei ProcMem.
Local Open Scope Z_scope.

(** ** Characters from the keyboard and the serial port *)

(** The values [kbdgetc] returns to one [consoleintr], for what the status and
    data ports hold at each call; then there are no more data. *)
Fixpoint kbd_chars (ins : list (Z * Z)) (shift : Z) : list Z * Z :=
  match ins with
  | [] => ([], shift)
  | (st, data) :: ins' =>
      let '(c, shift) := kbdgetc shift st data in
      if c <? 0 then ([], shift) else
      let '(cs, shift) := kbd_chars ins' shift in (c :: cs, shift)
  end.

(** [uartgetc] on the line status and data registers. *)
Definition uartgetc (uart : bool) (lsr data : Z) : Z :=
  if negb uart then -1 else if Z.land lsr 1 =? 0 then -1 else data.
Fixpoint uart_chars (uart : bool) (ins : list (Z * Z)) : list Z :=
  match ins with
  | [] => []
  | (lsr, data) :: ins' => let c := uartgetc uart lsr data in if c <? 0 then [] else c :: uart_chars uart ins'
  end.

(** ** [trap] *)

Section trap.
Context `{AT : !Ata} `{BD : !BlockDevice} `{DS : !Devsw}.
Context (end_ data : Z).
(** Wait channels: the address of [ticks], and of the buffers. *)
Context (chan_ticks : chan) (bchan : nat -> chan).

(** The kernel: console (with processes, files and memory), [ticks], the shift
    state of [kbdgetc], the disk queue, and the number of [lapiceoi] calls. *)
Record tstate := mkT {
  t_con : cons;
  t_ticks : Z;
  t_shift : Z;
  t_idequeue : option nat;
  t_qnext : list (option nat);
  t_havedisk1 : bool;
  t_ata : ata;
  t_eoi : nat;
}.

Definition set_con x s := mkT x (t_ticks s) (t_shift s) (t_idequeue s) (t_qnext s) (t_havedisk1 s) (t_ata s) (t_eoi s).
Definition set_ticks x s := mkT (t_con s) x (t_shift s) (t_idequeue s) (t_qnext s) (t_havedisk1 s) (t_ata s) (t_eoi s).
Definition set_shift x s := mkT (t_con s) (t_ticks s) x (t_idequeue s) (t_qnext s) (t_havedisk1 s) (t_ata s) (t_eoi s).
Definition t_sys (s : tstate) : sys := c_sys (t_con s).

Definition conop {A} (m : M cons A) : M tstate A := zoom t_con set_con m.
Definition sysop {A} (m : M sys A) : M tstate A := conop (zoom c_sys set_sys m).
Definition machop {A} (m : M machine A) : M tstate A :=
  zoom (fun s => mkMachine (t_sys s) (t_ticks s)) (fun x s => set_ticks (ticks x) (set_con (set_sys (sy x) (t_con s)) s)) m.

(** The driver works on the buffers of [bio.c] and the process table. *)
Definition t_bio (s : sys) : bio := l_bio (f_l (k_fs (kn s))).
Definition set_t_bio (x : bio) (s : sys) : sys :=
  mkSys (pt s) (set_k_fs (set_fl (set_bio x (f_l (k_fs (kn s)))) (k_fs (kn s))) (kn s)).
Definition ide_of (s : tstate) : ide :=
  mkIde (bufs (t_bio (t_sys s))) (t_idequeue s) (t_qnext s) (t_havedisk1 s) (t_ata s) (pt (t_sys s)).
Definition put_ide (x : ide) (s : tstate) : tstate :=
  let y := set_t_bio (set_bufs (id_bufs x) (t_bio (t_sys s))) (t_sys s) in
  mkT (set_sys (mkSys (id_pt x) (kn y)) (t_con s)) (t_ticks s) (t_shift s) (idequeue x) (qnext x) (havedisk1 x) (id_ata x) (t_eoi s).
Definition ideop {A} (m : M ide A) : M tstate A := zoom ide_of put_ide m.

Definition lapiceoi : M tstate unit :=
  modify (fun s => mkT (t_con s) (t_ticks s) (t_shift s) (t_idequeue s) (t_qnext s) (t_havedisk1 s) (t_ata s) (S (t_eoi s))).

(** Console output of [cprintf]; [name] is the only string argument. *)
Definition cprint (fmt : string) (args : list Z) (name : list Z) : M tstate unit :=
  match cprintf (fun i => args !!! i) (fun _ => name) (str fmt ++ [10]) 0 with
  | Some out => conop (consolewrite_loop out)
  | None => fault
  end.

(** What the hardware holds when the trap happens: the CPU that runs, the
    process on it, what the keyboard and serial ports deliver, the fault address, and the
    page a pipe would get. *)
Record hw := mkHw { hw_cpu : Z; hw_proc : option nat; hw_kbd : list (Z * Z); hw_uart : list (Z * Z); hw_cr2 : Z; hw_page : list Z }.

Section run.
(** [others]: what other processes, on this and on other CPUs, do from the point where the process gives up the CPU to where it gets it back; any function. *)
Context (h : hw) (tf : trapframe) (others : tstate -> tstate).

Definition user_mode : bool := Z.land (tf_cs tf) 3 =? DPL_USER.

Definition trap_syscall : M tstate unit :=
  match hw_proc h with
  | None => fault
  | Some cur =>
      p ← sysop (myproc cur);
      (if p_killed p then sysop (exit end_ cur) else mret tt) ;;
      sysop (updp cur (set_tf tf)) ;;
      machop (syscall end_ data cur (hw_page h)) ;;
      p ← sysop (myproc cur);
      if p_killed p then sysop (exit end_ cur) else mret tt
  end.

Definition trap_timer : M tstate unit :=
  (if hw_cpu h =? 0 then
     modify (fun s => set_ticks (u32 (t_ticks s + 1)) s) ;;
     sysop (ptop (wakeup chan_ticks))
   else mret tt) ;;
  lapiceoi.

Definition kbdintr : M tstate unit :=
  s ← get;
  let '(cs, shift) := kbd_chars (hw_kbd h) (t_shift s) in
  modify (set_shift shift) ;;
  conop (consoleintr cs) ;; mret tt.
Definition uartintr : M tstate unit :=
  s ← get;
  conop (consoleintr (uart_chars (c_uart (t_con s)) (hw_uart h))) ;; mret tt.

(** A fault: our mistake in the kernel, the end of the process in user space. *)
Definition trap_fault : M tstate unit :=
  let kernel := cprint "unexpected trap %d from cpu %d eip %x (cr2=0x%x)" [tf_trapno tf; hw_cpu h; tf_eip tf; hw_cr2 h] [] ;; panic "trap" in
  match hw_proc h with
  | None => kernel
  | Some cur =>
      if Z.land (tf_cs tf) 3 =? 0 then kernel else
      p ← sysop (myproc cur);
      cprint "pid %d %s: trap %d err %d on cpu %d eip 0x%x addr 0x%x--kill proc"
        [p_pid p; 1; tf_trapno tf; tf_err tf; hw_cpu h; tf_eip tf; hw_cr2 h] (p_name p) ;;
      sysop (updp cur (set_killed true))
  end.

Definition dispatch : M tstate unit :=
  let no := tf_trapno tf in
  if no =? T_IRQ0 + IRQ_TIMER then trap_timer
  else if no =? T_IRQ0 + IRQ_IDE then ideop (ideintr bchan) ;; lapiceoi
  else if no =? T_IRQ0 + IRQ_IDE + 1 then mret tt
  else if no =? T_IRQ0 + IRQ_KBD then kbdintr ;; lapiceoi
  else if no =? T_IRQ0 + IRQ_COM1 then uartintr ;; lapiceoi
  else if (no =? T_IRQ0 + 7) || (no =? T_IRQ0 + IRQ_SPURIOUS) then
    cprint "cpu%d: spurious interrupt at %x:%x" [hw_cpu h; tf_cs tf; tf_eip tf] [] ;; lapiceoi
  else trap_fault.

(** Force a killed process to exit when it is in user space. *)
Definition exit_if_killed : M tstate unit :=
  match hw_proc h with
  | None => mret tt
  | Some cur =>
      p ← sysop (myproc cur);
      if p_killed p && user_mode then sysop (exit end_ cur) else mret tt
  end.

(** [yield]: the process is left [RUNNABLE] by the section before [sched], and goes on when the scheduler has picked it again. *)
Definition trap_yield : M tstate unit :=
  match hw_proc h with
  | None => mret tt
  | Some cur =>
      p ← sysop (myproc cur);
      if bool_decide (p_state p = RUNNING) && (tf_trapno tf =? T_IRQ0 + IRQ_TIMER) then
        sysop (ptop (yield_locked cur)) ;; modify others
      else mret tt
  end.

(** Check if the process has been killed since it yielded. *)
Definition trap_resume : M tstate unit := exit_if_killed.

Definition trap : M tstate unit :=
  if tf_trapno tf =? T_SYSCALL then trap_syscall else
  dispatch ;;
  exit_if_killed ;;
  trap_yield ;;
  trap_resume.
End run.
End trap.

(** ** Results of code that may panic, block or fault *)

Definition wlp {S A} (m : M S A) (Q : A -> S -> Prop) (s : S) : Prop := forall a s', m s = Ok a s' -> Q a s'.

Lemma wlp_ret {S A} (a : A) (Q : A -> S -> Prop) s : Q a s -> wlp (mret a) Q s.
Proof. by intros HQ ? ? [= <- <-]. Qed.
Lemma wlp_bind {S A B} (m : M S A) (f : A -> M S B) Q s : wlp m (fun a s' => wlp (f a) Q s') s -> wlp (a ← m; f a) Q s.
Proof.
  intros H b s'. change ((a ← m; f a) s) with (match m s with Ok a t => f a t | Panic e => Panic e | Blocked t => Blocked t | Fault => Fault | OutOfFuel => OutOfFuel end).
  destruct (m s) as [a t| | | |] eqn:E; try done. by apply H.
Qed.
Lemma wlp_mono {S A} (m : M S A) (P Q : A -> S -> Prop) s : wlp m P s -> (forall a s', P a s' -> Q a s') -> wlp m Q s.
Proof. intros H HPQ a s' E. by apply HPQ, H. Qed.
Lemma wlp_any {S A} (m : M S A) (Q : A -> S -> Prop) s : (forall a s', Q a s') -> wlp m Q s.
Proof. intros HQ a s' _. apply HQ. Qed.
Lemma wlp_zoom {S T A} prj inj (m : M T A) (Q : A -> S -> Prop) s : wlp m (fun a t => Q a (inj t s)) (prj s) -> wlp (zoom prj inj m) Q s.
Proof. intros H a s'. unfold zoom. destruct (m (prj s)) eqn:E; try done. intros [= <- <-]. by apply H. Qed.
Lemma wlp_gets {S A} (f : S -> A) (Q : A -> S -> Prop) s : Q (f s) s -> wlp (Prelude.gets f) Q s.
Proof. by intros HQ ? ? [= <- <-]. Qed.
Lemma wlp_get {S} (Q : S -> S -> Prop) s : Q s s -> wlp get Q s.
Proof. by intros HQ ? ? [= <- <-]. Qed.
Lemma wlp_modify {S} (f : S -> S) (Q : unit -> S -> Prop) s : Q tt (f s) -> wlp (modify f) Q s.
Proof. by intros HQ ? ? [= <- <-]. Qed.
Lemma wlp_sleep {S A} (Q : A -> S -> Prop) s : wlp sleep Q s.
Proof. done. Qed.
Lemma wlp_panic {S A} e (Q : A -> S -> Prop) s : wlp (panic e) Q s.
Proof. done. Qed.
Lemma wlp_fault {S A} (Q : A -> S -> Prop) s : wlp fault Q s.
Proof. done. Qed.

Section returns.
Context `{AT : !Ata} `{BD : !BlockDevice} `{DS : !Devsw}.
Context (end_ data : Z) (chan_ticks : chan) (bchan : nat -> chan).
Abbreviation killed s cur := (p_killed (proc_at (pt (t_sys s)) cur)).

(** [exit] does not return. *)
Lemma exit_gone cur (Q : unit -> tstate -> Prop) s : wlp (sysop (exit end_ cur)) Q s.
Proof. apply wlp_zoom, wlp_zoom, wlp_bind, wlp_any. intros. apply wlp_sleep. Qed.

Lemma myproc_result cur (Q : proc -> tstate -> Prop) s : Q (proc_at (pt (t_sys s)) cur) s -> wlp (sysop (myproc cur)) Q s.
Proof. intros HQ. apply wlp_zoom, wlp_zoom, wlp_gets. by destruct s as [[] ? ? ? ? ? ? ?]. Qed.

(** The last check of every path. *)
Lemma exit_if_killed_result h tf cur s : hw_proc h = Some cur ->
  wlp (exit_if_killed end_ h tf) (fun _ s' => s' = s /\ (user_mode tf = true -> killed s cur = false)) s.
Proof.
  intros Hc. unfold exit_if_killed. rewrite Hc. apply wlp_bind, myproc_result.
  destruct (p_killed _) eqn:Ek, (user_mode tf) eqn:Eu; cbn [andb]; [apply exit_gone|by apply wlp_ret..].
Qed.

(** Output changes no process. *)
Lemma uartputc_sys c s : wlp (uartputc c) (fun _ s' => c_sys s' = c_sys s) s.
Proof. unfold uartputc. apply wlp_bind, wlp_get. destruct (c_uart s); [by apply wlp_modify|by apply wlp_ret]. Qed.

Lemma consputc_sys c s : wlp (consputc c) (fun _ s' => c_sys s' = c_sys s) s.
Proof.
  unfold consputc. apply wlp_bind, wlp_get. destruct (c_panicked s); [apply wlp_sleep|].
  assert (forall d t, c_sys t = c_sys s -> wlp (uartputc d) (fun _ s' => c_sys s' = c_sys s) t) as Hu
    by (intros d t Et; rewrite <- Et; apply uartputc_sys).
  apply wlp_bind. apply (wlp_mono _ (fun _ s' => c_sys s' = c_sys s)).
  - destruct (_ =? _); [|by apply Hu]. apply wlp_bind. eapply wlp_mono; [by apply Hu|]. intros ? t1 E1.
    apply wlp_bind. eapply wlp_mono; [by apply Hu|]. intros ? t2 E2. by apply Hu.
  - intros ? t Et. apply wlp_zoom, wlp_any. by intros.
Qed.

Lemma cprint_sys fmt args name s : wlp (cprint fmt args name) (fun _ s' => t_sys s' = t_sys s) s.
Proof.
  unfold cprint. destruct (cprintf _ _ _ _) as [out|]; [|apply wlp_fault]. apply wlp_zoom. unfold t_sys. cbn [t_con set_con].
  generalize (t_con s). induction out as [|c out IH]; intros t; [by apply wlp_ret|]. cbn [consolewrite_loop]. apply wlp_bind.
  eapply wlp_mono; [apply consputc_sys|]. intros ? t' <-. apply IH.
Qed.

(** The interrupts that [trap] expects. *)
Definition expected (no : Z) : bool :=
  (no =? T_SYSCALL) || (no =? T_IRQ0 + IRQ_TIMER) || (no =? T_IRQ0 + IRQ_IDE) || (no =? T_IRQ0 + IRQ_IDE + 1) || (no =? T_IRQ0 + IRQ_KBD) ||
  (no =? T_IRQ0 + IRQ_COM1) || (no =? T_IRQ0 + 7) || (no =? T_IRQ0 + IRQ_SPURIOUS).

(** After an unexpected one the process is marked, if the call goes on at all. *)
Lemma dispatch_result h tf cur s : hw_proc h = Some cur -> (cur < length (procs (pt (t_sys s))))%nat -> tf_trapno tf <> T_SYSCALL ->
  wlp (dispatch chan_ticks bchan h tf)
    (fun _ s' => expected (tf_trapno tf) = true \/ Z.land (tf_cs tf) 3 <> 0 /\ killed s' cur = true) s.
Proof.
  intros Hc Hl Hn. unfold dispatch, expected. cbv zeta. rewrite (proj2 (Z.eqb_neq _ T_SYSCALL)) by done. cbn [orb].
  destruct (_ =? T_IRQ0 + IRQ_TIMER); [apply wlp_any; by left|]. destruct (_ =? T_IRQ0 + IRQ_IDE); [apply wlp_any; by left|].
  destruct (_ =? T_IRQ0 + IRQ_IDE + 1); [apply wlp_any; by left|]. destruct (_ =? T_IRQ0 + IRQ_KBD); [apply wlp_any; by left|].
  destruct (_ =? T_IRQ0 + IRQ_COM1); [apply wlp_any; by left|]. cbn [orb]. destruct (_ || _); [apply wlp_any; by left|].
  unfold trap_fault. cbv zeta. rewrite Hc. destruct (Z.eqb_spec (Z.land (tf_cs tf) 3) 0) as [E|E].
  { apply wlp_bind, wlp_any. intros. apply wlp_panic. }
  apply wlp_bind, myproc_result, wlp_bind. eapply wlp_mono; [apply cprint_sys|]. intros [] s' Es.
  apply wlp_zoom, wlp_zoom, wlp_modify. right. split; [done|]. unfold t_sys in *. cbn [c_sys set_sys t_con set_con pt]. rewrite Es.
  by rewrite proc_at_upd, decide_True by done.
Qed.

(** C30 Which traps come back. Whatever happens in between (system calls, device
    interrupts, anything that other processes do while this one has given up the CPU on a clock tick), [trap] returns to user space only a process
    that is not marked killed at that moment; and after an exception that is not an interrupt or a
    system call it never returns. *)
Theorem trap_returns h tf others cur s s' :
  hw_proc h = Some cur -> (cur < length (procs (pt (t_sys s))))%nat -> Z.land (tf_cs tf) 3 = 0 \/ Z.land (tf_cs tf) 3 = DPL_USER ->
  trap end_ data chan_ticks bchan h tf others s = Ok tt s' ->
  (user_mode tf = true \/ tf_trapno tf = T_SYSCALL -> killed s' cur = false) /\ expected (tf_trapno tf) = true.
Proof.
  intros Hc Hl Hcs. revert s'. enough (wlp (trap end_ data chan_ticks bchan h tf others) (fun _ s' =>
    (user_mode tf = true \/ tf_trapno tf = T_SYSCALL -> killed s' cur = false) /\ expected (tf_trapno tf) = true) s) as W by (intros s'; apply W).
  unfold trap. destruct (Z.eqb_spec (tf_trapno tf) T_SYSCALL) as [E|E].
  - unfold trap_syscall. rewrite Hc. apply wlp_bind, wlp_any. intros p s1. apply wlp_bind, wlp_any. intros ? s2.
    apply wlp_bind, wlp_any. intros ? s3. apply wlp_bind, wlp_any. intros ? s4. apply wlp_bind, myproc_result.
    destruct (p_killed _) eqn:Ek; [apply exit_gone|]. apply wlp_ret. split; [done|]. unfold expected. by rewrite E.
  - apply wlp_bind. eapply wlp_mono; [by apply dispatch_result|]. intros ? s1 H1.
    apply wlp_bind. eapply wlp_mono; [by apply (exit_if_killed_result h tf cur)|]. intros ? s2 [-> H2].
    apply wlp_bind, wlp_any. intros ? s3.
    eapply wlp_mono; [by apply (exit_if_killed_result h tf cur)|]. intros ? s4 [-> H4]. split; [by intros [?|?]; [apply H4|]|].
    destruct H1 as [?|[Hu Hk]]; [done|]. destruct Hcs as [?|Hcs]; [done|]. rewrite H2 in Hk; [done|]. unfold user_mode. by rewrite Hcs.
Qed.
End returns.

(** ** Traps on a small machine *)

#[local] Existing Instance sim_ata.
#[local] Existing Instance no_devsw.

Definition demo_trap : tstate :=
  mkT demo_cons 41 0 None [] true (mkSim (fun _ => 0) Ready (mkDisk [] [])) 0.
(** [uptime()], and a clock tick in user space. *)
Definition demo_tf : trapframe := mkTf 0 0 0 0 0 0 0 14 0 0 0 0 64 0 0 0x1b 0 0 0.
Definition tick_tf : trapframe := mkTf 0 0 0 0 0 0 0 14 0 0 0 0 32 0 0 0x1b 0 0 0.
Definition demo_hw : hw := mkHw 0 (Some 0%nat) [] [] 0 [].
(** The process gets the CPU back, having been killed or not. *)
Definition again (k : bool) (s : tstate) : tstate :=
  set_con (set_sys (mkSys (upd_proc 0 (set_killed k) (run_locked 0 (pt (t_sys s)))) (kn (t_sys s))) (t_con s)) s.
Abbreviation demo_run := (trap demo_end 0 (CObj 1) (fun i => CObj (Z.of_nat i + 2)) demo_hw).

Lemma trap_returns_witness :
  (exists s', demo_run demo_tf id demo_trap = Ok tt s' /\ p_killed (proc_at (pt (t_sys s')) 0) = false /\ tf_eax (p_tf (proc_at (pt (t_sys s')) 0)) = 41) /\
  (exists s', demo_run tick_tf (again false) demo_trap = Ok tt s' /\ p_killed (proc_at (pt (t_sys s')) 0) = false /\ t_ticks s' = 42) /\
  (forall s', demo_run tick_tf (again true) demo_trap <> Ok tt s').
Proof.
  split; [|split].
  - assert (match demo_run demo_tf id demo_trap with Ok _ s' => tf_eax (p_tf (proc_at (pt (t_sys s')) 0)) =? 41 | _ => false end = true) as H by (vm_compute; reflexivity).
    destruct (demo_run demo_tf id demo_trap) as [[] s'| | | |] eqn:E; try discriminate H. exists s'. split; [reflexivity|]. split; [|by apply Z.eqb_eq].
    apply (trap_returns demo_end 0 (CObj 1) (fun i => CObj (Z.of_nat i + 2)) demo_hw demo_tf id 0 demo_trap s'); [reflexivity|cbn; lia|by right|exact E|by left].
  - assert (match demo_run tick_tf (again false) demo_trap with Ok _ s' => t_ticks s' =? 42 | _ => false end = true) as H by (vm_compute; reflexivity).
    destruct (demo_run tick_tf (again false) demo_trap) as [[] s'| | | |] eqn:E; try discriminate H. exists s'. split; [reflexivity|]. split; [|by apply Z.eqb_eq].
    apply (trap_returns demo_end 0 (CObj 1) (fun i => CObj (Z.of_nat i + 2)) demo_hw tick_tf (again false) 0 demo_trap s'); [reflexivity|cbn; lia|by right|exact E|by left].
  - intros s' E. apply (f_equal (fun r => match r with Ok _ _ => true | _ => false end)) in E. vm_compute in E. discriminate E.
Defined.
