(* ===== verification/Refs.v ===== *)
(** * Reference counts of open files, across processes.

    [struct file] counts the descriptors that refer to it. The count is kept
    by [sysfile.c], [file.c] and [proc.c] together: every system call
    preserves it, so a descriptor never refers to a file that was freed. *)

From stdpp Require Import gmap.
From S2P Require Import Prelude CString Params Mmu Bio Log Trans Pipe Kalloc Vm Fs File Proc ProcInv ProcMem Syscall Exec Sysfile.

(** ** Triples over returning and blocking runs *)

Definition tri {S A} (P : S -> Prop) (m : M S A) (Q : A -> S -> Prop) (B : S -> Prop) : Prop :=
  forall s, P s -> match m s with Ok a s' => Q a s' | Blocked s' => B s' | _ => True end.

Section tri.
Context {S : Type}.
Implicit Types (P B : S -> Prop).

Lemma tri_ret {A} (a : A) P (Q : A -> S -> Prop) B : (forall s, P s -> Q a s) -> tri P (mret a) Q B.
Proof. intros H s Hs. by apply H. Qed.
Lemma tri_bind {A C} (m : M S A) (k : A -> M S C) P R Q B :
  tri P m R B -> (forall a, tri (R a) (k a) Q B) -> tri P (m ≫= k) Q B.
Proof.
  intros Hm Hk s Hs. specialize (Hm s Hs). unfold mbind, M_bind. destruct (m s) as [a s'| |s'| |]; try done.
  by apply Hk.
Qed.
Lemma tri_conseq {A} (m : M S A) P P' (Q Q' : A -> S -> Prop) B :
  (forall s, P s -> P' s) -> tri P' m Q' B -> (forall a s, Q' a s -> Q a s) -> tri P m Q B.
Proof. intros HP Hm HQ s Hs. specialize (Hm s (HP s Hs)). destruct (m s); auto. Qed.
Lemma tri_get P (Q : S -> S -> Prop) B : (forall s, P s -> Q s s) -> tri P get Q B.
Proof. intros H s Hs. by apply H. Qed.
Lemma tri_gets {A} (f : S -> A) P (Q : A -> S -> Prop) B : (forall s, P s -> Q (f s) s) -> tri P (gets f) Q B.
Proof. intros H s Hs. by apply H. Qed.
Lemma tri_modify (f : S -> S) P (Q : unit -> S -> Prop) B : (forall s, P s -> Q tt (f s)) -> tri P (modify f) Q B.
Proof. intros H s Hs. by apply H. Qed.
Lemma tri_false {A} (m : M S A) P Q B : (forall s, P s -> False) -> tri P m Q B.
Proof. intros H s Hs. destruct (H s Hs). Qed.
End tri.

(** ** Counting descriptors *)

Definition isfd (f : nat) (o : option nat) : Z := if decide (o = Some f) then 1 else 0.
Fixpoint count (f : nat) (l : list (option nat)) : Z :=
  match l with [] => 0 | o :: l' => isfd f o + count f l' end.
Definition holds_l (f : nat) (l : list proc) : Z := foldr (fun p acc => count f (p_ofile p) + acc) 0 l.
Definition holds (t : ptable) (f : nat) : Z := holds_l f (procs t).

Definition closed (p : proc) : Prop := Forall (fun o => o = None) (p_ofile p).
Definition idle (p : proc) : Prop := p_state p = UNUSED \/ p_state p = ZOMBIE.

Lemma isfd_nonneg f o : 0 <= isfd f o.
Proof. unfold isfd. case_decide; lia. Qed.
Lemma count_nonneg f l : 0 <= count f l.
Proof. induction l as [|o l IH]; cbn; [lia|]. pose proof (isfd_nonneg f o). lia. Qed.
Lemma count_closed f p : closed p -> count f (p_ofile p) = 0.
Proof. unfold closed. intros H. induction H as [|o l -> H IH]; [done|]. cbn [count]. rewrite IH. done. Qed.
Lemma count_insert f l i o : (i < length l)%nat ->
  count f (<[i := o]> l) = count f l - isfd f (l !!! i) + isfd f o.
Proof.
  revert i. induction l as [|x l IH]; intros i Hi; cbn [length] in Hi; [lia|].
  destruct i as [|i]; [cbn; lia|]. change (<[S i := o]> (x :: l)) with (x :: <[i := o]> l).
  change ((x :: l) !!! S i) with (l !!! i). cbn [count]. rewrite (IH i ltac:(lia)). lia.
Qed.
Lemma count_pos f l i : l !! i = Some (Some f) -> 1 <= count f l.
Proof.
  revert i. induction l as [|x l IH]; intros [|i]; cbn; try done.
  - intros [= ->]. unfold isfd. rewrite decide_True by done. pose proof (count_nonneg f l). lia.
  - intros H. pose proof (IH i H). pose proof (isfd_nonneg f x). lia.
Qed.

Lemma holds_l_nonneg f l : 0 <= holds_l f l.
Proof. induction l as [|p l IH]; cbn; [lia|]. pose proof (count_nonneg f (p_ofile p)). unfold holds_l in IH. lia. Qed.
Lemma holds_l_insert f l i p : (i < length l)%nat ->
  holds_l f (<[i := p]> l) = holds_l f l - count f (p_ofile (l !!! i)) + count f (p_ofile p).
Proof.
  revert i. induction l as [|x l IH]; intros i Hi; cbn [length] in Hi; [lia|].
  destruct i as [|i]; [cbn; lia|]. change (<[S i := p]> (x :: l)) with (x :: <[i := p]> l).
  change ((x :: l) !!! S i) with (l !!! i). unfold holds_l in *. cbn [foldr]. rewrite (IH i ltac:(lia)). lia.
Qed.
Lemma holds_l_ge f l i : count f (p_ofile (l !!! i)) <= holds_l f l.
Proof.
  revert i. induction l as [|x l IH]; intros i.
  { rewrite count_closed; [done|]. destruct i; by repeat constructor. }
  destruct i as [|i].
  - pose proof (holds_l_nonneg f l). unfold holds_l in *. cbn. lia.
  - change ((x :: l) !!! S i) with (l !!! i). cbn. pose proof (IH i). pose proof (count_nonneg f (p_ofile x)). unfold holds_l in *. lia.
Qed.

Lemma holds_upd t f i g : (i < length (procs t))%nat ->
  holds (upd_proc i g t) f = holds t f - count f (p_ofile (proc_at t i)) + count f (p_ofile (g (proc_at t i))).
Proof. intros Hi. unfold holds, upd_proc. cbn [procs]. by rewrite holds_l_insert. Qed.
Lemma holds_ext t t' f : p_ofile <$> procs t' = p_ofile <$> procs t -> holds t' f = holds t f.
Proof.
  unfold holds. generalize (procs t) (procs t'). intros l. induction l as [|p l IH]; intros [|p' l']; cbn; try done.
  intros [= E1 E2]. unfold holds_l in IH. by rewrite E1, (IH _ E2).
Qed.

(** ** The invariant

    [e f]: references to [f] held by the running call itself. *)
Section refs.
Context (cur : nat).

Record refs (e : nat -> Z) (s : sys) : Prop := {
  rf_ref : forall f, fl_ref (file_at (kn s) f) = holds (pt s) f + e f;
  rf_len : forall i, length (p_ofile (proc_at (pt s) i)) = 16%nat;
  rf_idle : forall i, idle (proc_at (pt s) i) -> closed (proc_at (pt s) i);
}.

Definition none : nat -> Z := fun _ => 0.
Definition plus (f : nat) (e : nat -> Z) : nat -> Z := fun g => e g + (if decide (g = f) then 1 else 0).
Definition minus (f : nat) (e : nat -> Z) : nat -> Z := fun g => e g - (if decide (g = f) then 1 else 0).

(** While a call of [cur] sleeps, every file that another process has open
    still counts it. *)
Definition asleep (s : sys) : Prop :=
  exists e, refs e s /\ forall f, 0 <= e f + count f (p_ofile (proc_at (pt s) cur)).

(** [cur] is a live process. *)
Definition inv (e : nat -> Z) (s : sys) : Prop := refs e s /\ ~ idle (proc_at (pt s) cur).

Lemma inv_asleep e s : (forall f, 0 <= e f) -> inv e s -> asleep s.
Proof.
  intros He [R _]. exists e. split; [done|]. intros f. pose proof (count_nonneg f (p_ofile (proc_at (pt s) cur))).
  specialize (He f). lia.
Qed.

Lemma idle_range t : ~ idle (proc_at t cur) -> (cur < length (procs t))%nat.
Proof. intros H. apply used_in_range. intros E. apply H. by left. Qed.

Lemma refs_ext e e' s : (forall f, e f = e' f) -> refs e s -> refs e' s.
Proof. intros E [R L I]. split; [|done..]. intros f. by rewrite <- E. Qed.
Lemma inv_ext e e' s : (forall f, e f = e' f) -> inv e s -> inv e' s.
Proof. intros E [R L]. split; [by eapply refs_ext|done]. Qed.

(** An update of one process that leaves its descriptors alone. *)
Lemma refs_updp e s i g : refs e s -> p_ofile (g (proc_at (pt s) i)) = p_ofile (proc_at (pt s) i) ->
  (idle (g (proc_at (pt s) i)) -> closed (proc_at (pt s) i)) -> refs e (mkSys (upd_proc i g (pt s)) (kn s)).
Proof.
  intros [R L I] Ho Hi. destruct (decide (i < length (procs (pt s)))%nat) as [Hr|Hr].
  - split; cbn [pt kn].
    + intros f. rewrite R, holds_upd, Ho by done. lia.
    + intros j. rewrite proc_at_upd by done. case_decide; [by rewrite Ho|done].
    + intros j. rewrite proc_at_upd by done. case_decide; [|apply I]. subst j. intros H. unfold closed. rewrite Ho. by apply Hi.
  - replace (upd_proc i g (pt s)) with (pt s); [by split|]. unfold upd_proc. rewrite list_insert_ge by lia. by destruct (pt s).
Qed.

Lemma refs_kern e s k : refs e s -> (forall f, fl_ref (file_at k f) = fl_ref (file_at (kn s) f)) -> refs e (mkSys (pt s) k).
Proof. intros [R L I] E. split; cbn [pt kn]; [|done..]. intros f. by rewrite E. Qed.
End refs.

(** ** Code that leaves the counts alone *)

Definition same_refs (k k' : kern) : Prop := forall f, fl_ref (file_at k' f) = fl_ref (file_at k f).
Definition kkeeps {A} (m : M kern A) : Prop := forall k, tri (same_refs k) m (fun _ => same_refs k) (same_refs k).

Lemma kk_zoom {T A} (prj : kern -> T) (inj : T -> kern -> kern) (m : M T A) :
  (forall t k, ftable (inj t k) = ftable k) -> kkeeps (zoom prj inj m).
Proof.
  intros H k s Hs. unfold zoom. destruct (m (prj s)); try done; intros f; unfold file_at; rewrite H; apply Hs.
Qed.
Lemma kk_fsop {A} (m : M fs A) : kkeeps (fsop m).
Proof. by apply kk_zoom. Qed.
Lemma kk_memop {A} (m : M kmem A) : kkeeps (memop m).
Proof. by apply kk_zoom. Qed.
Lemma kk_ret {A} (a : A) : kkeeps (mret a).
Proof. intros k. by apply tri_ret. Qed.
Lemma kk_bind {A C} (m : M kern A) (f : A -> M kern C) : kkeeps m -> (forall a, kkeeps (f a)) -> kkeeps (m ≫= f).
Proof. intros Hm Hf k. eapply tri_bind; [apply Hm|]. intros a. apply Hf. Qed.
Lemma kk_get : kkeeps get.
Proof. intros k. by apply tri_get. Qed.
Lemma kk_panic {A} msg : kkeeps (panic (A := A) msg).
Proof. intros k s Hs. done. Qed.
Lemma kk_fault {A} : kkeeps (fault (A := A)).
Proof. intros k s Hs. done. Qed.
Lemma kk_fuel {A} : kkeeps (outOfFuel (A := A)).
Proof. intros k s Hs. done. Qed.
Lemma kk_sleep {A} : kkeeps (sleep (A := A)).
Proof. intros k s Hs. done. Qed.
Lemma kk_modify f : (forall k, ftable (f k) = ftable k) -> kkeeps (modify f).
Proof. intros H k. apply tri_modify. intros s Hs g. unfold file_at. rewrite H. apply Hs. Qed.
Lemma kk_upd_file i g : (forall x, fl_ref (g x) = fl_ref x) -> kkeeps (upd_file i g).
Proof.
  intros H k. apply tri_modify. intros s Hs f. rewrite <- Hs. unfold file_at. cbn [ftable set_ftable].
  destruct (decide (f = i)) as [->|Hne]; [|by rewrite list_lookup_total_insert_ne].
  destruct (decide (i < length (ftable s))%nat).
  - by rewrite list_lookup_total_insert_eq, H.
  - by rewrite list_insert_ge by lia.
Qed.

(** Split code at its binds and branches. *)
Ltac kstep :=
  match goal with
  | |- kkeeps (_ ≫= _) => apply kk_bind; [|intros ?]
  | |- kkeeps (mret _) => apply kk_ret
  | |- kkeeps get => apply kk_get
  | |- kkeeps (fsop _) => apply kk_fsop
  | |- kkeeps (memop _) => apply kk_memop
  | |- kkeeps (panic _) => apply kk_panic
  | |- kkeeps fault => apply kk_fault
  | |- kkeeps outOfFuel => apply kk_fuel
  | |- kkeeps sleep => apply kk_sleep
  | |- kkeeps (modify _) => apply kk_modify; done
  | |- kkeeps (upd_file _ _) => apply kk_upd_file; done
  | |- kkeeps (match ?x with _ => _ end) => destruct x
  | |- kkeeps (let _ := _ in _) => cbv zeta
  end.

Section kops.
Context `{BD : !BlockDevice} `{DS : !Devsw}.
Context (end_ : Z).

Lemma kk_filestat f : kkeeps (filestat f).
Proof. unfold filestat. repeat kstep. Qed.
Lemma kk_fileread f killed n : kkeeps (fileread f killed n).
Proof. unfold fileread, piperead. repeat kstep. Qed.
Lemma kk_filewrite_loop fuel f src i : kkeeps (filewrite_loop fuel f src i).
Proof.
  revert src i. induction fuel as [|fuel IH]; intros src i; cbn [filewrite_loop]; unfold filewrite_chunk; repeat kstep.
  apply IH.
Qed.
Lemma kk_filewrite f killed src : kkeeps (filewrite f killed src).
Proof. unfold filewrite, pipewrite. repeat (kstep || apply kk_filewrite_loop). Qed.
Lemma kk_pipe_close p w : kkeeps (pipe_close end_ p w).
Proof. unfold pipe_close. repeat kstep. Qed.

Lemma file_in_range k f : fl_ref (file_at k f) <> 0 -> (f < length (ftable k))%nat.
Proof.
  intros H. destruct (decide (f < length (ftable k))%nat); [done|]. exfalso. apply H. unfold file_at.
  by rewrite list_lookup_total_alt, lookup_ge_None_2 by lia.
Qed.

(** [k'] has [d] more references to [f]. *)
Definition more_refs (f : nat) (d : Z) (k k' : kern) : Prop :=
  forall g, fl_ref (file_at k' g) = fl_ref (file_at k g) + if decide (g = f) then d else 0.

Lemma upd_more f g d k : fl_ref (g (file_at k f)) = fl_ref (file_at k f) + d -> (f < length (ftable k))%nat ->
  more_refs f d k (set_ftable (<[f := g (file_at k f)]> (ftable k)) k).
Proof.
  intros H Hr j. unfold file_at in *. cbn [ftable set_ftable]. case_decide as E.
  - subst j. by rewrite list_lookup_total_insert_eq.
  - rewrite list_lookup_total_insert_ne by done. lia.
Qed.

Lemma filedup_refs k f : match filedup f k with Ok g k' => g = f /\ more_refs f 1 k k' | Blocked k' => False | _ => True end.
Proof.
  unfold filedup, mbind, M_bind, get. destruct (Z.ltb_spec (fl_ref (file_at k f)) 1); [done|].
  unfold upd_file, modify, mret, M_ret. split; [done|].
  apply (upd_more f (fun x => set_fref (fl_ref x + 1) x)); [done|apply file_in_range; lia].
Qed.

Lemma find_file_spec l i f : find_file l i = Some f -> exists j, f = (i + j)%nat /\ (j < length l)%nat /\ fl_ref (l !!! j) = 0.
Proof.
  revert i. induction l as [|x l IH]; intros i; [done|]. cbn [find_file]. destruct (Z.eqb_spec (fl_ref x) 0) as [E|E].
  - intros [= <-]. exists 0%nat. split; [lia|]. split; [cbn; lia|done].
  - intros H. destruct (IH _ H) as (j & -> & Hj & Hr). exists (S j). split; [lia|]. split; [cbn; lia|done].
Qed.

Lemma filealloc_refs k :
  match filealloc k with
  | Ok (Some f) k' => more_refs f 1 k k' | Ok None k' => same_refs k k' | Blocked k' => False | _ => True
  end.
Proof.
  unfold filealloc, mbind, M_bind, get. destruct (find_file (ftable k) 0) as [f|] eqn:E; [|by intros f].
  apply find_file_spec in E as (j & -> & Hj & Hr). cbn [Nat.add]. unfold upd_file, modify, mret, M_ret.
  apply (upd_more j (set_fref 1)); [|done]. unfold file_at. rewrite Hr. done.
Qed.

Lemma more_same f d k k' k'' : more_refs f d k k' -> same_refs k' k'' -> more_refs f d k k''.
Proof. intros H1 H2 g. by rewrite H2. Qed.

Lemma fileclose_tri k f : tri (fun s => s = k) (fileclose end_ f) (fun _ => more_refs f (-1) k) (more_refs f (-1) k).
Proof.
  unfold fileclose. eapply (tri_bind _ _ _ (fun a s => a = k /\ s = k)); [by apply tri_get; intros s ->|].
  intros a. destruct (Z.ltb_spec (fl_ref (file_at a f)) 1) as [|Hr]; [by intros s _|].
  apply (tri_bind _ _ _ (fun _ s => more_refs f (-1) k s /\ 1 <= fl_ref (file_at k f))).
  { apply tri_modify. intros s [-> ->]. split; [|done]. apply (upd_more f (fun x => set_fref (fl_ref x - 1) x)); [done|].
    apply file_in_range. lia. }
  intros _. apply (tri_bind _ _ _ (fun a s => a = s /\ more_refs f (-1) k s /\ 1 <= fl_ref (file_at k f))); [by apply tri_get|].
  intros k1. cbv zeta. destruct (Z.ltb_spec 0 (fl_ref (file_at k1 f))) as [|Hz]; [apply tri_ret; by intros s (_ & ? & _)|].
  apply (tri_bind _ _ _ (fun _ => more_refs f (-1) k)).
  { apply tri_modify. intros s (-> & H1 & H2). destruct (decide (f < length (ftable s))%nat) as [Hl|Hl].
    - eapply more_same; [exact H1|]. intros g.
      rewrite (upd_more f (fun x => set_ftype FD_NONE (set_fref 0 x)) (- fl_ref (file_at s f)) s) by (cbn; lia || done).
      case_decide as E; [subst g|lia]. specialize (H1 f). rewrite decide_True in H1 by done. lia.
    - by rewrite list_insert_ge by lia; destruct s. }
  intros _. assert (forall (m : M kern unit), kkeeps m -> tri (more_refs f (-1) k) m (fun _ => more_refs f (-1) k) (more_refs f (-1) k)) as K.
  { intros m Hm s Hs. specialize (Hm s s ltac:(done)). destruct (m s); try done; by eapply more_same. }
  destruct (fl_type (file_at k1 f)); apply K; [apply kk_ret|apply kk_pipe_close|apply kk_fsop].
Qed.
End kops.

(** ** System calls *)

Section sops.
Context `{BD : !BlockDevice} `{DS : !Devsw}.
Context (end_ data : Z) (cur : nat).
Abbreviation inv := (inv cur).
Abbreviation asleep := (asleep cur).

Definition skeeps {A} (m : M sys A) : Prop :=
  forall e, (forall f, 0 <= e f) -> tri (inv e) m (fun _ => inv e) asleep.

Lemma sk_ret {A} (a : A) : skeeps (mret a).
Proof. intros e He. by apply tri_ret. Qed.
Lemma sk_bind {A C} (m : M sys A) (k : A -> M sys C) : skeeps m -> (forall a, skeeps (k a)) -> skeeps (m ≫= k).
Proof. intros Hm Hk e He. eapply tri_bind; [by apply Hm|]. intros a. by apply Hk. Qed.
Lemma sk_get : skeeps get.
Proof. intros e He. by apply tri_get. Qed.
Lemma sk_myproc i : skeeps (myproc i).
Proof. intros e He. by apply tri_gets. Qed.
Lemma sk_panic {A} msg : skeeps (panic (A := A) msg).
Proof. intros e He s Hs. done. Qed.
Lemma sk_fault {A} : skeeps (fault (A := A)).
Proof. intros e He s Hs. done. Qed.
Lemma sk_fuel {A} : skeeps (outOfFuel (A := A)).
Proof. intros e He s Hs. done. Qed.
Lemma sk_sleep {A} : skeeps (sleep (A := A)).
Proof. intros e He s Hs. by eapply inv_asleep. Qed.
Lemma inv_updp e s i g : (forall p, p_ofile (g p) = p_ofile p) -> (forall p, idle (g p) -> idle p) ->
  inv e s -> inv e (mkSys (upd_proc i g (pt s)) (kn s)).
Proof.
  intros Ho Hi [R L]. split.
  - apply refs_updp; [done|done|]. intros H. apply (rf_idle _ _ R), Hi, H.
  - cbn [pt]. pose proof (idle_range cur _ L) as Hr. destruct (decide (i < length (procs (pt s)))%nat) as [Hl|Hl].
    + rewrite proc_at_upd by done. case_decide as E; [subst i|done]. intros H. by apply L, Hi.
    + unfold upd_proc. rewrite list_insert_ge by lia. by destruct (pt s).
Qed.
Lemma sk_updp i g : (forall p, p_ofile (g p) = p_ofile p) -> (forall p, idle (g p) -> idle p) -> skeeps (updp i g).
Proof. intros Ho Hi e He. apply tri_modify. intros s. by apply inv_updp. Qed.

Lemma inv_kern e s k : inv e s -> same_refs (kn s) k -> inv e (mkSys (pt s) k).
Proof. intros [R L] Hk. split; [by apply refs_kern|done]. Qed.

Lemma sk_knop {A} (m : M kern A) : kkeeps m -> skeeps (knop m).
Proof.
  intros Hm e He s Hs. unfold knop, zoom. specialize (Hm (kn s) (kn s) ltac:(done)). destruct (m (kn s)); try done.
  - by apply inv_kern.
  - eapply inv_asleep; [exact He|]. by apply inv_kern.
Qed.
Lemma sk_fsys {A} (m : M fs A) : skeeps (fsys m).
Proof. apply sk_knop, kk_fsop. Qed.
Lemma sk_vmop {A} (m : M kmem A) : skeeps (vmop m).
Proof. apply sk_knop, kk_memop. Qed.

Ltac sstep :=
  match goal with
  | |- skeeps (_ ≫= _) => apply sk_bind; [|intros ?]
  | |- skeeps (mret _) => apply sk_ret
  | |- skeeps get => apply sk_get
  | |- skeeps (myproc _) => apply sk_myproc
  | |- skeeps (fsys _) => apply sk_fsys
  | |- skeeps (vmop _) => apply sk_vmop
  | |- skeeps (panic _) => apply sk_panic
  | |- skeeps fault => apply sk_fault
  | |- skeeps outOfFuel => apply sk_fuel
  | |- skeeps sleep => apply sk_sleep
  | |- skeeps (updp _ _) => apply sk_updp; [by intros ?|by intros ?]
  | |- skeeps (match ?x with _ => _ end) => destruct x
  | |- skeeps (let _ := _ in _) => cbv zeta
  end.

Lemma sk_argint n : skeeps (argint cur n).
Proof. unfold argint, fetchint. repeat sstep. Qed.
Lemma sk_argptr n size : skeeps (argptr cur n size).
Proof. unfold argptr. repeat (sstep || apply sk_argint). Qed.
Lemma sk_fetchstr a : skeeps (fetchstr cur a).
Proof. unfold fetchstr. repeat sstep. Qed.
Lemma sk_argstr n : skeeps (argstr cur n).
Proof. unfold argstr. repeat (sstep || apply sk_argint || apply sk_fetchstr). Qed.
Lemma sk_need {A} (m : M sys (option A)) k : skeeps m -> (forall a, skeeps (k a)) -> skeeps (need m k).
Proof. intros Hm Hk. unfold need. apply sk_bind; [done|]. intros [a|]; [apply Hk|apply sk_ret]. Qed.
Lemma sk_need_op {A} (m : M sys (option A)) k : skeeps m -> (forall a, skeeps (k a)) -> skeeps (need_op m k).
Proof. intros Hm Hk. unfold need_op. apply sk_bind; [done|]. intros [a|]; [apply Hk|repeat sstep]. Qed.
Lemma sk_mycwd : skeeps (mycwd cur).
Proof. unfold mycwd. repeat sstep. Qed.
Lemma sk_argfd n : skeeps (argfd cur n).
Proof. unfold argfd. repeat (sstep || apply sk_argint). Qed.

Ltac sargs :=
  repeat first
    [ sstep | apply sk_argint | apply sk_argptr | apply sk_argstr | apply sk_argfd | apply sk_mycwd
    | apply sk_knop, kk_filestat | apply sk_knop, kk_fileread | apply sk_knop, kk_filewrite
    | apply sk_need; [|intros [? ?]] | apply sk_need; [|intros ?] | apply sk_need_op; [|intros ?] ].

Lemma sk_sys_read : skeeps (sys_read cur).
Proof. unfold sys_read. sargs. Qed.
Lemma sk_sys_write : skeeps (sys_write cur).
Proof. unfold sys_write. sargs. Qed.
Lemma sk_sys_fstat : skeeps (sys_fstat cur).
Proof. unfold sys_fstat. sargs. Qed.
Lemma sk_sys_link : skeeps (sys_link cur).
Proof. unfold sys_link. sargs. Qed.
Lemma sk_sys_unlink : skeeps (sys_unlink cur).
Proof. unfold sys_unlink. sargs. Qed.
Lemma sk_sys_mkdir : skeeps (sys_mkdir cur).
Proof. unfold sys_mkdir. sargs. Qed.
Lemma sk_sys_mknod : skeeps (sys_mknod cur).
Proof. unfold sys_mknod. sargs. Qed.
Lemma sk_sys_chdir : skeeps (sys_chdir cur).
Proof. unfold sys_chdir. sargs. Qed.
Lemma sk_growproc n : skeeps (growproc end_ cur n).
Proof. unfold growproc, switchuvm. repeat sstep. Qed.
Lemma sk_sys_sbrk : skeeps (sys_sbrk end_ cur).
Proof. unfold sys_sbrk. repeat (sstep || apply sk_argint || apply sk_growproc). Qed.

Lemma sk_loaduvm_loop fuel pgdir a ip i off sz : skeeps (loaduvm_loop fuel pgdir a ip i off sz).
Proof.
  revert i. induction fuel as [|fuel IH]; intros i; cbn [loaduvm_loop]; unfold readi_to; repeat sstep. apply IH.
Qed.
Lemma sk_exec_load n ip pgdir off sz : skeeps (exec_load end_ n ip pgdir off sz).
Proof.
  revert off sz. induction n as [|n IH]; intros off sz; cbn [exec_load]; unfold loaduvm;
    repeat (sstep || apply sk_loaduvm_loop || apply IH).
Qed.
Lemma sk_push_args argv argc pgdir sp : skeeps (push_args argv argc pgdir sp).
Proof.
  revert argc sp. induction argv as [|a argv IH]; intros argc sp; cbn [push_args]; repeat (sstep || apply IH).
Qed.
Lemma sk_exec path argv : skeeps (exec end_ data cur path argv).
Proof.
  unfold exec, exec_stack, exec_commit, exec_bad, switchuvm.
  repeat (sstep || apply sk_exec_load || apply sk_push_args).
Qed.
Lemma sk_fetch_argv n u i : skeeps (fetch_argv cur n u i).
Proof.
  revert i. induction n as [|n IH]; intros i; cbn [fetch_argv]; unfold fetchint;
    repeat (sstep || apply sk_fetchstr || apply IH).
Qed.
Lemma sk_sys_exec : skeeps (sys_exec end_ data cur).
Proof. unfold sys_exec. sargs; [apply sk_fetch_argv|apply sk_exec]. Qed.

(** ** Calls that open, close and duplicate *)

Lemma inv_more e s f d k : inv e s -> more_refs f d (kn s) k ->
  inv (fun g => e g + if decide (g = f) then d else 0) (mkSys (pt s) k).
Proof.
  intros [[R Hl I] L] Hm. split; [|done]. split; cbn [pt kn]; [|done..]. intros g. rewrite Hm, R. lia.
Qed.

Lemma filealloc_inv e : tri (inv e) (knop filealloc) (fun r => match r with Some f => inv (plus f e) | None => inv e end) asleep.
Proof.
  intros s Hs. unfold knop, zoom. pose proof (filealloc_refs (kn s)) as H. destruct (filealloc (kn s)) as [[f|] k| |k| |]; try done.
  - eapply inv_ext; [|apply inv_more; eassumption]. done.
  - by apply inv_kern.
Qed.

Lemma filedup_inv e f : tri (inv e) (knop (filedup f)) (fun g s => g = f /\ inv (plus f e) s) asleep.
Proof.
  intros s Hs. unfold knop, zoom. pose proof (filedup_refs (kn s) f) as H. destruct (filedup f (kn s)) as [g k| |k| |]; try done.
  destruct H as [-> H]. split; [done|]. eapply inv_ext; [|apply inv_more; eassumption]. done.
Qed.

(** Closing a file for which a reference is held, or the one of [cur]. *)
Lemma fileclose_inv e f (P : sys -> Prop) :
  (forall s, P s -> inv e s /\ forall g, 0 <= minus f e g + count g (p_ofile (proc_at (pt s) cur))) ->
  tri P (knop (fileclose end_ f)) (fun _ s' => inv (minus f e) s' /\ exists s, P s /\ pt s' = pt s) asleep.
Proof.
  intros HP s Hs. destruct (HP s Hs) as [Hi Hc]. unfold knop, zoom. pose proof (fileclose_tri end_ (kn s) f (kn s) eq_refl) as H.
  assert (forall k, more_refs f (-1) (kn s) k -> inv (minus f e) (mkSys (pt s) k)) as K.
  { intros k Hk. eapply inv_ext; [|by apply inv_more]. intros g. unfold minus. case_decide; lia. }
  destruct (fileclose end_ f (kn s)) as [u k| |k| |]; try done.
  - split; [by apply K|]. by exists s.
  - exists (minus f e). split; [apply K, H|done].
Qed.

Lemma set_fd_inv e s q fd o : inv e s -> (fd < 16)%nat -> ~ idle (proc_at (pt s) q) ->
  let old := p_ofile (proc_at (pt s) q) !!! fd in
  inv (fun g => e g + isfd g old - isfd g o)
    (mkSys (upd_proc q (fun p => set_ofile (<[fd := o]> (p_ofile p)) p) (pt s)) (kn s)).
Proof.
  intros [[R Hl I] L] Hfd Hq old. pose proof (idle_range q _ Hq) as Hr.
  split; [split; cbn [pt kn]|cbn [pt]].
  - intros g. rewrite R, holds_upd by done. cbn [set_ofile p_ofile]. rewrite count_insert by (rewrite Hl; lia). fold old. lia.
  - intros i. rewrite proc_at_upd by done. case_decide; [|apply Hl]. cbn [set_ofile p_ofile]. by rewrite length_insert.
  - intros i. rewrite proc_at_upd by done. case_decide; [|apply I]. intros Hid. by destruct Hq.
  - rewrite proc_at_upd by done. case_decide; [exact Hq|exact L].
Qed.

Lemma find_fd_spec l i fd : find_fd l i = Some fd -> exists j, fd = (i + j)%nat /\ (j < length l)%nat /\ l !!! j = None.
Proof.
  revert i. induction l as [|[f|] l IH]; intros i; cbn [find_fd]; [done| |].
  - intros H. destruct (IH _ H) as (j & -> & Hj & Hn). exists (S j). split; [lia|]. split; [cbn; lia|done].
  - intros [= <-]. exists 0%nat. split; [lia|]. split; [cbn; lia|done].
Qed.

(** The descriptor takes over the reference of the caller. *)
Lemma fdalloc_inv e f : tri (inv e) (fdalloc cur f)
  (fun r s => r < 0 /\ inv e s \/ 0 <= r /\ inv (minus f e) s /\ (Z.to_nat r < 16)%nat /\
     p_ofile (proc_at (pt s) cur) !!! Z.to_nat r = Some f) asleep.
Proof.
  intros s Hs. unfold fdalloc, mbind, M_bind, myproc, gets. destruct (find_fd _ _) as [fd|] eqn:E; [|by left].
  apply find_fd_spec in E as (j & -> & Hj & Hn). cbn [Nat.add].
  assert (length (p_ofile (proc_at (pt s) cur)) = 16%nat) as Hl by apply Hs.
  pose proof (idle_range cur _ (proj2 Hs)) as Hr. right. rewrite Nat2Z.id. split; [lia|]. split_and!.
  - eapply inv_ext; [|apply (set_fd_inv e s cur j (Some f)); [done|lia|apply Hs]]. intros g. cbv zeta. rewrite Hn. unfold minus, isfd.
    rewrite decide_False by done. repeat case_decide; try lia; naive_solver.
  - lia.
  - cbn [pt]. rewrite proc_at_upd, decide_True by done. cbn [set_ofile p_ofile]. by rewrite list_lookup_total_insert_eq.
Qed.

Lemma argfd_inv e n : (forall f, 0 <= e f) -> tri (inv e) (argfd cur n)
  (fun r s => inv e s /\ match r with
     | Some (fd, f) => 0 <= fd < 16 /\ p_ofile (proc_at (pt s) cur) !!! Z.to_nat fd = Some f | None => True end) asleep.
Proof.
  intros He. unfold argfd. eapply tri_bind; [by apply sk_argint|]. intros [fd|]; [|by apply tri_ret].
  intros s Hs. unfold mbind, M_bind, myproc, gets. destruct (_ || _) eqn:E; [done|]. zcase. unfold NOFILE in *.
  destruct (p_ofile _ !!! _) as [f|] eqn:Ef; cbn; [|done]. split; [done|]. split; [lia|done].
Qed.

Lemma plus_none_nonneg f g : 0 <= plus f none g.
Proof. unfold plus, none. case_decide; lia. Qed.

Lemma sys_dup_inv : tri (inv none) (sys_dup cur) (fun _ => inv none) asleep.
Proof.
  unfold sys_dup, need. eapply tri_bind; [by apply argfd_inv|]. intros [[fd f]|]; [|apply tri_ret; by intros s [? _]].
  eapply tri_bind; [eapply tri_conseq; [|apply (fdalloc_inv none f)|]; [by intros s [? _]|by intros r s H; exact H]|].
  intros r. destruct (Z.ltb_spec r 0) as [Hr|Hr]; [apply tri_ret; intros s [[_ ?]|[? _]]; [done|lia]|].
  eapply tri_bind; [eapply tri_conseq; [|apply (filedup_inv (minus f none) f)|]|].
  - intros s [[? _]|(_ & ? & _)]; [lia|done].
  - intros g s [_ H]. exact H.
  - intros g. apply tri_ret. intros s. apply inv_ext. intros h. unfold plus, minus, none. case_decide; lia.
Qed.

Lemma sys_close_inv : tri (inv none) (sys_close end_ cur) (fun _ => inv none) asleep.
Proof.
  unfold sys_close, need. eapply tri_bind; [by apply argfd_inv|]. intros [[fd f]|]; [|apply tri_ret; by intros s [? _]].
  apply (tri_bind _ _ _ (fun _ => inv (plus f none))).
  { apply tri_modify. intros s (H & Hfd & Hf). eapply inv_ext; [|apply (set_fd_inv none s cur (Z.to_nat fd) None); [done|lia|apply H]].
    intros g. cbv zeta. rewrite Hf. unfold plus, none, isfd. repeat case_decide; naive_solver. }
  intros _. eapply tri_bind; [apply (fileclose_inv (plus f none) f (inv (plus f none)))|].
  - intros s H. split; [done|]. intros g. pose proof (count_nonneg g (p_ofile (proc_at (pt s) cur))).
    unfold minus, plus, none. case_decide; lia.
  - intros u. apply tri_ret. intros s [H _]. revert H. apply inv_ext. intros g. unfold minus, plus, none. case_decide; lia.
Qed.

(** From the file table alone to the invariant. *)
Definition krefs (k : kern) (e : nat -> Z) (k' : kern) : Prop := forall g, fl_ref (file_at k' g) = fl_ref (file_at k g) + e g.
Definition kasleep (k k' : kern) : Prop := exists e, (forall f, 0 <= e f) /\ krefs k e k'.

Lemma knop_inv {A} (m : M kern A) (d : A -> nat -> Z) e : (forall f, 0 <= e f) ->
  (forall k, tri (krefs k none) m (fun a => krefs k (d a)) (kasleep k)) ->
  tri (inv e) (knop m) (fun a => inv (fun g => e g + d a g)) asleep.
Proof.
  intros He Hm s [[R Hl I] L]. unfold knop, zoom. specialize (Hm (kn s) (kn s)). 
  assert (krefs (kn s) none (kn s)) as K0 by (intros g; unfold none; lia). specialize (Hm K0).
  assert (forall d k, krefs (kn s) d k -> inv (fun g => e g + d g) (mkSys (pt s) k)) as K.
  { intros d' k Hk. split; [|done]. split; cbn [pt kn]; [|done..]. intros g. rewrite Hk, R. lia. }
  destruct (m (kn s)) as [a k| |k| |]; try done; [by apply K|]. destruct Hm as (d' & Hd & Hk).
  eapply inv_asleep; [|by apply K]. intros g. specialize (He g). specialize (Hd g). lia.
Qed.

Lemma k_filealloc k e : tri (krefs k e) filealloc (fun r => match r with Some f => krefs k (plus f e) | None => krefs k e end) (kasleep k).
Proof.
  intros s Hs. pose proof (filealloc_refs s) as H. destruct (filealloc s) as [[f|] k'| |k'| |]; try done.
  - intros g. rewrite (H g), (Hs g). unfold plus. lia.
  - intros g. by rewrite (H g).
Qed.
Lemma k_fileclose k e f : (forall g, 0 <= minus f e g) ->
  tri (krefs k e) (fileclose end_ f) (fun _ => krefs k (minus f e)) (kasleep k).
Proof.
  intros He s Hs. pose proof (fileclose_tri end_ s f s eq_refl) as H.
  assert (forall k', more_refs f (-1) s k' -> krefs k (minus f e) k') as K.
  { intros k' Hk g. rewrite (Hk g), (Hs g). unfold minus. case_decide; lia. }
  destruct (fileclose end_ f s) as [u k'| |k'| |]; try done; [by apply K|]. exists (minus f e). split; [done|by apply K].
Qed.
Lemma k_keeps {A} (m : M kern A) k e : (forall f, 0 <= e f) -> kkeeps m -> tri (krefs k e) m (fun _ => krefs k e) (kasleep k).
Proof.
  intros He Hm s Hs. specialize (Hm s s ltac:(done)). destruct (m s) as [a k'| |k'| |]; try done.
  - intros g. by rewrite Hm.
  - exists e. split; [done|]. intros g. by rewrite Hm.
Qed.

Definition pair_refs (r : option (nat * nat)) : nat -> Z :=
  match r with Some (f0, f1) => plus f1 (plus f0 none) | None => none end.

Lemma krefs_ext k e e' k' : (forall g, e g = e' g) -> krefs k e k' -> krefs k e' k'.
Proof. intros E H g. by rewrite H, E. Qed.

Lemma pipealloc_refs d k : tri (krefs k none) (pipealloc end_ d) (fun r => krefs k (pair_refs r)) (kasleep k).
Proof.
  unfold pipealloc. eapply tri_bind; [apply k_filealloc|]. intros [f0|]; [|by apply tri_ret].
  eapply tri_bind; [apply k_filealloc|]. intros [f1|].
  - eapply tri_bind; [apply k_keeps; [|apply kk_memop]; intros g; unfold plus, none; repeat case_decide; lia|].
    intros p. destruct (p =? 0).
    + eapply tri_bind; [apply (k_fileclose k _ f0); intros g; unfold minus, plus, none; repeat case_decide; lia|]. intros ?.
      eapply tri_bind; [apply (k_fileclose k _ f1); intros g; unfold minus, plus, none; repeat case_decide; lia|]. intros ?.
      apply tri_ret. intros s. apply krefs_ext. intros g. unfold pair_refs, minus, plus, none. repeat case_decide; lia.
    + eapply tri_bind; [|intros ?; eapply tri_bind; [|intros ?; eapply tri_bind; [|intros ?; apply tri_ret; intros s H; exact H]]].
      1: apply k_keeps; [|by apply kk_modify].
      2, 3: apply k_keeps; [|by apply kk_upd_file].
      all: intros g; unfold pair_refs, plus, none; repeat case_decide; lia.
  - eapply tri_bind; [apply (k_fileclose k _ f0); intros g; unfold minus, plus, none; case_decide; lia|]. intros ?.
    apply tri_ret. intros s. apply krefs_ext. intros g. unfold pair_refs, minus, plus, none. case_decide; lia.
Qed.

Lemma sk_use {A} (m : M sys A) (P : sys -> Prop) :
  (forall s, P s -> inv none s) -> skeeps m -> tri P m (fun _ => inv none) asleep.
Proof. intros HP Hm s Hs. apply Hm; [done|by apply HP]. Qed.

(** The descriptors of two files, or neither. *)
Lemma sys_pipe_inv d : tri (inv none) (sys_pipe end_ cur d) (fun _ => inv none) asleep.
Proof.
  unfold sys_pipe, need. eapply tri_bind; [by apply sk_argptr|]. intros [a|]; [|by apply tri_ret].
  eapply tri_bind; [apply (knop_inv _ _ none (fun _ => Z.le_refl 0) (pipealloc_refs d))|].
  intros [[rf wf]|]; [|apply tri_ret; intros s; apply inv_ext; intros g; unfold pair_refs, none; lia].
  set (e2 := plus wf (plus rf none)).
  assert (forall (P : sys -> Prop), (forall s, P s -> inv e2 s) ->
    tri P (knop (fileclose end_ rf) ;; knop (fileclose end_ wf) ;; mret (-1)) (fun _ => inv none) asleep) as Hbad.
  { intros P HP. eapply tri_bind; [apply (fileclose_inv e2 rf P)|].
    - intros s Hs. split; [by apply HP|]. intros g. pose proof (count_nonneg g (p_ofile (proc_at (pt s) cur))).
      unfold e2, minus, plus, none. repeat case_decide; lia.
    - intros u. eapply tri_bind; [apply (fileclose_inv (minus rf e2) wf)|].
      + intros s [Hs _]. split; [exact Hs|]. intros g. pose proof (count_nonneg g (p_ofile (proc_at (pt s) cur))).
        unfold e2, minus, plus, none. repeat case_decide; lia.
      + intros v. apply tri_ret. intros s [H _]. revert H. apply inv_ext. intros g. unfold e2, minus, plus, none.
        repeat case_decide; lia. }
  eapply tri_bind; [eapply tri_conseq; [|apply (fdalloc_inv e2 rf)|intros r s H; exact H]|].
  { intros s. apply inv_ext. intros g. unfold pair_refs, e2, none. lia. }
  intros fd0. cbn beta. destruct (Z.ltb_spec fd0 0) as [Hneg|Hpos].
  { eapply (tri_bind _ _ _ (fun r s => r = -1 /\ inv e2 s)); [apply tri_ret; intros s [[_ H]|[? _]]; [done|lia]|].
    intros r s [-> Hs]. cbn [Z.ltb Z.compare]. rewrite (proj2 (Z.leb_gt 0 fd0)) by done.
    apply (Hbad (fun s => inv e2 s)); done. }
  apply (tri_bind _ _ _ (fun r s => r < 0 /\ inv (minus rf e2) s /\ (Z.to_nat fd0 < 16)%nat /\
      p_ofile (proc_at (pt s) cur) !!! Z.to_nat fd0 = Some rf \/ 0 <= r /\ inv none s)).
  { intros s [[? _]|(_ & Hs & Hfd & Hf)]; [lia|]. pose proof (fdalloc_inv (minus rf e2) wf s Hs) as H.
    unfold fdalloc, mbind, M_bind, myproc, gets in *. destruct (find_fd _ _) as [fd|].
    - right. destruct H as [[? _]|(_ & H & _)]; [lia|]. split; [lia|]. revert H. apply inv_ext. intros g.
      unfold e2, minus, plus, none. repeat case_decide; lia.
    - left. done. }
  intros fd1. destruct (Z.ltb_spec fd1 0) as [Hneg|Hpos1].
  - rewrite (proj2 (Z.leb_le 0 fd0)) by done. apply (tri_bind _ _ _ (fun _ => inv e2)); [|intros u; by apply Hbad].
    apply tri_modify. intros s [(_ & Hs & Hfd & Hf)|[? _]]; [|lia].
    eapply inv_ext; [|apply (set_fd_inv (minus rf e2) s cur (Z.to_nat fd0) None); [done|done|apply Hs]].
    intros g. cbv zeta. rewrite Hf. unfold e2, minus, plus, none, isfd. repeat case_decide; try lia; naive_solver.
  - apply sk_use.
    + intros s [[? _]|[_ H]]; [lia|exact H].
    + repeat sstep.
Qed.

Lemma sys_open_inv : tri (inv none) (sys_open end_ cur) (fun _ => inv none) asleep.
Proof.
  assert (forall f, 0 <= none f) as H0 by done.
  unfold sys_open, need. eapply tri_bind; [by apply sk_argstr|]. intros [path|]; [|by apply tri_ret].
  eapply tri_bind; [by apply sk_argint|]. intros [omode|]; [|by apply tri_ret].
  eapply tri_bind; [by apply sk_mycwd|]. intros cwd. eapply tri_bind; [by apply sk_fsys|]. intros u.
  eapply tri_bind; [by apply sk_fsys|]. intros [ip|]; [|by apply tri_ret].
  eapply tri_bind; [apply filealloc_inv|]. intros [f|].
  2: { apply (tri_bind _ _ _ (fun _ => inv none)); [by apply tri_ret|]. intros fd. apply sk_use; [done|]. repeat sstep. }
  eapply tri_bind; [apply (fdalloc_inv (plus f none) f)|]. intros fd. destruct (Z.ltb_spec fd 0) as [Hneg|Hpos].
  - eapply tri_bind; [apply (fileclose_inv (plus f none) f)|].
    + intros s [[_ Hs]|[? _]]; [|lia]. split; [exact Hs|]. intros g. pose proof (count_nonneg g (p_ofile (proc_at (pt s) cur))).
      unfold minus, plus, none. case_decide; lia.
    + intros v. apply sk_use.
      * intros s [H _]. revert H. apply inv_ext. intros g. unfold minus, plus, none. case_decide; lia.
      * repeat sstep.
  - apply sk_use.
    + intros s [[? _]|(_ & H & _)]; [lia|]. revert H. apply inv_ext. intros g. unfold minus, plus, none. case_decide; lia.
    + repeat (sstep || (apply sk_knop, kk_upd_file; done)).
Qed.

(** ** Processes *)

Lemma sys_kill_inv : tri (inv none) (sys_kill cur) (fun _ => inv none) asleep.
Proof.
  unfold sys_kill. eapply tri_bind; [by apply sk_argint|]. intros [pid|]; [|by apply tri_ret].
  intros s Hs. unfold mbind, M_bind, get, kill. destruct (find_pid _ _ _) as [i|]; [|by destruct s].
  unfold ptop, modify, mret, M_ret. apply inv_updp; [| |done].
  - intros p. cbv zeta. by case_decide.
  - intros p. cbv zeta. cbn [set_killed p_state]. case_decide as E; [|done]. by intros [?|?].
Qed.

Lemma wait_inv : tri (inv none) (wait end_ cur) (fun _ => inv none) asleep.
Proof.
  unfold wait. apply (tri_bind _ _ _ (fun a s => a = s /\ inv none s)); [by apply tri_get|]. intros a.
  pose proof (wait_scan_spec cur (procs (pt a)) 0 false) as Hscan.
  destruct (wait_scan (procs (pt a)) 0 cur false) as [[i|] hk] eqn:Es.
  - destruct Hscan as (j & p & -> & Hj & _ & Hz). cbn [Nat.add].
    apply proc_at_lookup in Hj as [Hj Hlt].
    assert (forall (A : Type) (m : M kmem A), tri (fun s => inv none s /\ pt s = pt a) (vmop m)
      (fun _ s => inv none s /\ pt s = pt a) asleep) as Hvm.
    { intros A m s [Hs Hp]. pose proof (sk_vmop m none ltac:(done) s Hs) as H. unfold vmop, knop, zoom in *.
      by destruct (memop m (kn s)). }
    eapply tri_bind; [eapply tri_conseq; [|apply Hvm|intros ? ? H; exact H]; by intros s [<- ?]|]. intros u.
    eapply tri_bind; [apply Hvm|]. intros v. apply (tri_bind _ _ _ (fun _ => inv none)); [|intros w; by apply tri_ret].
    apply tri_modify. intros s [[R L] Hp].
    assert (idle (proc_at (pt s) j)) as Hid by (right; by rewrite Hp, Hj).
    split.
    + apply refs_updp; [done|done|]. intros _. by apply (rf_idle _ _ R).
    + cbn [pt]. rewrite proc_at_upd by (by rewrite Hp). case_decide as E; [subst j|done]. contradiction.
  - unfold wait_locked. rewrite Es. destruct (_ || _).
    + apply tri_ret. by intros s [_ ?].
    + apply (tri_bind _ _ _ (fun _ => inv none)); [|intros u; by apply sk_sleep].
      apply tri_modify. intros s [-> Hs]. apply inv_updp; [done| |done]. intros p [?|?]; done.
Qed.

(** [allocproc] gives an entry without open files. *)
Definition fresh (np : nat) (s : sys) : Prop :=
  inv none s /\ np <> cur /\ (np < length (procs (pt s)))%nat /\ closed (proc_at (pt s) np) /\ ~ idle (proc_at (pt s) np).

Lemma fresh_vmop {A} np (m : M kmem A) : tri (fresh np) (vmop m) (fun _ => fresh np) asleep.
Proof.
  intros s [Hs H]. pose proof (sk_vmop m none ltac:(done) s Hs) as K. unfold vmop, knop, zoom in *.
  by destruct (memop m (kn s)).
Qed.
Lemma fresh_updp np g : (forall p, p_ofile (g p) = p_ofile p) -> (forall p, idle (g p) -> idle p) ->
  tri (fresh np) (updp np g) (fun _ => fresh np) asleep.
Proof.
  intros Ho Hi. apply tri_modify. intros s (Hs & Hne & Hl & Hc & Hid). split; [by apply inv_updp|]. cbn [pt].
  rewrite length_upd_proc, proc_at_upd, decide_True by done. split_and!; [done..| |].
  - unfold closed. by rewrite Ho.
  - intros H. by apply Hid, Hi.
Qed.

(** Giving the entry back. *)
Lemma fresh_drop np : tri (fresh np) (updp np (set_state UNUSED)) (fun _ => inv none) asleep.
Proof.
  apply tri_modify. intros s ([R L] & Hne & Hl & Hc & Hid). split; [by apply refs_updp|]. cbn [pt].
  by rewrite proc_at_upd, decide_False by done.
Qed.

Lemma find_unused_idle l i r : find_unused l i = Some r ->
  exists j, r = (i + j)%nat /\ (j < length l)%nat /\ p_state (l !!! j) = UNUSED.
Proof.
  revert i. induction l as [|p l IH]; intros i; cbn [find_unused]; [done|]. case_decide as E.
  - intros [= <-]. exists 0%nat. split; [lia|]. split; [cbn; lia|done].
  - intros H. destruct (IH _ H) as (j & -> & Hj & Hu). exists (S j). split; [lia|]. split; [cbn; lia|done].
Qed.

Lemma allocproc_inv : tri (inv none) allocproc (fun r => match r with Some np => fresh np | None => inv none end) asleep.
Proof.
  unfold allocproc. apply (tri_bind _ _ _ (fun a s => a = s /\ inv none s)); [by apply tri_get|]. intros a.
  unfold alloc_locked. destruct (find_unused (procs (pt a)) 0) as [np|] eqn:E.
  - apply find_unused_idle in E as (j & -> & Hj & Hu). cbn [Nat.add]. change (procs (pt a) !!! j) with (proc_at (pt a) j) in Hu.
    apply (tri_bind _ _ _ (fun _ => fresh j)).
    { apply tri_modify. intros s [-> [R L]]. assert (closed (proc_at (pt s) j)) as Hc by (apply (rf_idle _ _ R); by left).
      assert (j <> cur) as Hne by (intros ->; apply L; by left).
      set (g := fun p => set_pid (nextpid (pt s)) (set_state EMBRYO p)).
      pose proof (refs_updp none s j g R eq_refl ltac:(done)) as [R1 R2 R3].
      split; [split; [by split|]|]; unfold proc_at; cbn [pt procs].
      - fold (upd_proc j g (pt s)). pose proof (proc_at_upd (pt s) j g cur Hj) as Hq. rewrite decide_False in Hq by done.
        change (~ idle (proc_at (upd_proc j g (pt s)) cur)). by rewrite Hq.
      - pose proof (proc_at_upd (pt s) j g j Hj) as Hq. rewrite decide_True in Hq by done.
        split_and!; [done|by rewrite length_upd_proc| |].
        + change (closed (proc_at (upd_proc j g (pt s)) j)). by rewrite Hq.
        + change (~ idle (proc_at (upd_proc j g (pt s)) j)). rewrite Hq. by intros [?|?]. }
    intros u. eapply tri_bind; [apply fresh_vmop|]. intros k.
    eapply tri_bind; [by apply (fresh_updp j (set_kstack k))|]. intros v. destruct (k =? 0); [|by apply tri_ret].
    eapply tri_bind; [apply fresh_drop|]. intros w. by apply tri_ret.
  - apply (tri_bind _ _ _ (fun _ => inv none)); [|intros u; by apply tri_ret].
    apply tri_modify. intros s [-> H]. by destruct s.
Qed.

Lemma tri_for_loop {S} (I : Z -> S -> Prop) n i body (B : S -> Prop) :
  (forall j, i <= j < i + Z.of_nat n -> tri (I j) (body j) (fun _ => I (j + 1)) B) ->
  tri (I i) (for_loop n i body) (fun _ => I (i + Z.of_nat n)) B.
Proof.
  revert i. induction n as [|n IH]; intros i Hb; cbn [for_loop].
  - apply tri_ret. intros s. by rewrite Z.add_0_r.
  - eapply tri_bind; [apply Hb; lia|]. intros u. replace (i + Z.of_nat (Datatypes.S n)) with (i + 1 + Z.of_nat n) by lia.
    apply IH. intros j Hj. apply Hb. lia.
Qed.

(** The descriptors [0..i)] of the child are copied. *)
Definition copied (np : nat) (i : Z) (s : sys) : Prop :=
  inv none s /\ ~ idle (proc_at (pt s) np) /\
  forall j, (Z.to_nat i <= j < 16)%nat -> p_ofile (proc_at (pt s) np) !!! j = None.

Lemma closed_lookup p j : closed p -> (j < length (p_ofile p))%nat -> p_ofile p !!! j = None.
Proof.
  intros Hc Hj. destruct (lookup_lt_is_Some_2 _ _ Hj) as [o Ho]. rewrite (list_lookup_total_correct _ _ _ Ho).
  by eapply (Forall_lookup_1 _ _ _ _ Hc).
Qed.

Lemma copy_fd np i f : 0 <= i < 16 ->
  tri (copied np i) (g ← knop (filedup f); updp np (fun q => set_ofile (<[Z.to_nat i := Some g]> (p_ofile q)) q))
    (fun _ => copied np (i + 1)) asleep.
Proof.
  intros Hi. apply (tri_bind _ _ _ (fun g s => g = f /\ inv (plus f none) s /\ ~ idle (proc_at (pt s) np) /\
    forall j, (Z.to_nat i <= j < 16)%nat -> p_ofile (proc_at (pt s) np) !!! j = None)).
  { intros s [Hs Hn]. pose proof (filedup_inv none f s Hs) as H. unfold knop, zoom in *.
    destruct (filedup f (kn s)); try done. destruct H as [-> H]. done. }
  intros g. apply tri_modify. intros s (-> & Hs & Hid & Hn). pose proof (idle_range np _ Hid) as Hr.
  assert (length (p_ofile (proc_at (pt s) np)) = 16%nat) as Hl by apply Hs.
  unfold copied. cbn [pt]. rewrite !proc_at_upd, !decide_True by done. split_and!.
  - eapply inv_ext; [|apply (set_fd_inv (plus f none) s np (Z.to_nat i) (Some f)); [done|lia|done]].
    intros g. cbv zeta. rewrite Hn by lia. unfold plus, none, isfd. repeat case_decide; try lia; naive_solver.
  - exact Hid.
  - intros j Hj. cbn [set_ofile p_ofile]. rewrite list_lookup_total_insert_ne by lia. apply Hn. lia.
Qed.

Lemma fork_inv : tri (inv none) (fork end_ data cur) (fun _ => inv none) asleep.
Proof.
  unfold fork. eapply tri_bind; [apply allocproc_inv|]. intros [np|]; [|by apply tri_ret].
  apply (tri_bind _ _ _ (fun _ => fresh np)); [by apply tri_gets|]. intros p.
  eapply tri_bind; [apply fresh_vmop|]. intros d. eapply tri_bind; [by apply fresh_updp|]. intros u.
  destruct (d =? 0).
  - apply (tri_bind _ _ _ (fun _ => fresh np)); [by apply tri_gets|]. intros q.
    eapply tri_bind; [apply fresh_vmop|]. intros v. eapply tri_bind; [by apply fresh_updp|]. intros w.
    eapply tri_bind; [apply fresh_drop|]. intros x. by apply tri_ret.
  - do 3 (eapply tri_bind; [by apply fresh_updp|]; intros ?).
    apply (tri_bind _ _ _ (fun _ => copied np 16)).
    + eapply tri_conseq; [|apply (tri_for_loop (copied np) (Z.to_nat NOFILE) 0)|intros ? s H; exact H].
      * intros s (Hs & _ & _ & Hc & Hid). split; [done|]. split; [done|]. intros j Hj. apply closed_lookup; [done|].
        rewrite (rf_len _ _ (proj1 Hs)). lia.
      * intros j Hj. change (Z.of_nat (Z.to_nat NOFILE)) with 16 in Hj.
        destruct (p_ofile p !!! Z.to_nat j) as [f|]; [apply copy_fd; lia|].
        apply tri_ret. intros s (Hs & Hid & Hn). split; [done|]. split; [done|]. intros k Hk. apply Hn. lia.
    + intros v. apply sk_use; [by intros s [? _]|].
      repeat (sstep || (apply sk_knop, kk_fsop) || (apply sk_updp; [done|by intros q [?|?]])).
Qed.

(** [exit]: the loop that closes, and the rest. *)
Definition closing (i : Z) (s : sys) : Prop :=
  inv none s /\ forall j, (j < Z.to_nat i)%nat -> p_ofile (proc_at (pt s) cur) !!! j = None.

Lemma close_fd i : 0 <= i < 16 ->
  tri (closing i)
    (p ← myproc cur;
     match p_ofile p !!! Z.to_nat i with
     | None => mret tt
     | Some f =>
         knop (fileclose end_ f) ;;
         updp cur (fun q => set_ofile (<[Z.to_nat i := None]> (p_ofile q)) q)
     end)
    (fun _ => closing (i + 1)) asleep.
Proof.
  intros Hi. apply (tri_bind _ _ _ (fun p s => p = proc_at (pt s) cur /\ closing i s)); [by apply tri_gets|]. intros p.
  destruct (p_ofile p !!! Z.to_nat i) as [f|] eqn:E.
  - eapply tri_bind; [apply (fileclose_inv none f (fun s => p = proc_at (pt s) cur /\ closing i s))|].
    + intros s [-> [Hs Hc]]. split; [done|]. intros g. unfold minus, none.
      assert (length (p_ofile (proc_at (pt s) cur)) = 16%nat) as Hl by apply Hs.
      pose proof (count_nonneg g (p_ofile (proc_at (pt s) cur))). case_decide as Eg; [subst g|lia].
      assert (1 <= count f (p_ofile (proc_at (pt s) cur))); [|lia].
      apply (count_pos _ _ (Z.to_nat i)). rewrite <- E. apply list_lookup_lookup_total_lt. lia.
    + intros u. apply tri_modify. intros s' [Hs' (s & [-> [Hs Hc]] & Ep)].
      pose proof (idle_range cur _ (proj2 Hs')) as Hr. rewrite Ep in Hr. rewrite <- Ep in E, Hc.
      assert (length (p_ofile (proc_at (pt s') cur)) = 16%nat) as Hl by apply Hs'.
      unfold closing. cbn [pt]. split.
      * eapply inv_ext; [|apply (set_fd_inv (minus f none) s' cur (Z.to_nat i) None); [done|lia|apply Hs']].
        intros g. cbv zeta. rewrite E. unfold minus, none, isfd. repeat case_decide; try lia; naive_solver.
      * intros j Hj. rewrite proc_at_upd, decide_True by (rewrite ?Ep; done). cbn [set_ofile p_ofile].
        destruct (decide (j = Z.to_nat i)) as [->|Hne]; [by rewrite list_lookup_total_insert_eq by lia|].
        rewrite list_lookup_total_insert_ne by done. apply Hc. lia.
  - apply tri_ret. intros s [-> [Hs Hc]]. split; [done|]. intros j Hj.
    destruct (decide (j = Z.to_nat i)) as [->|Hne]; [done|]. apply Hc. lia.
Qed.

Lemma refs_pt e s t : refs e s -> length (procs t) = length (procs (pt s)) ->
  (forall j, p_ofile (proc_at t j) = p_ofile (proc_at (pt s) j)) ->
  (forall j, idle (proc_at t j) -> closed (proc_at (pt s) j)) -> refs e (mkSys t (kn s)).
Proof.
  intros [R Hl I] Hlen Ho Hi. split; cbn [pt kn].
  - intros f. rewrite R. f_equal. symmetry. apply holds_ext. apply list_eq. intros j. rewrite !list_lookup_fmap.
    pose proof (Ho j) as Hj. unfold proc_at in Hj. destruct (decide (j < length (procs t))%nat) as [Hlt|Hge].
    + destruct (lookup_lt_is_Some_2 (procs t) j Hlt) as [p Hp].
      destruct (lookup_lt_is_Some_2 (procs (pt s)) j ltac:(lia)) as [q Hq].
      rewrite (list_lookup_total_correct _ _ _ Hp), (list_lookup_total_correct _ _ _ Hq) in Hj. rewrite Hp, Hq. cbn. by rewrite Hj.
    + by rewrite !lookup_ge_None_2 by lia.
  - intros j. by rewrite Ho.
  - intros j Hj. unfold closed. rewrite Ho. by apply Hi.
Qed.

Lemma wake_ofile c p : p_ofile (wake c p) = p_ofile p.
Proof. unfold wake. by case_decide. Qed.
Lemma wake_idle c p : idle (wake c p) -> idle p.
Proof. unfold wake. case_decide; [|done]. by intros [?|?]. Qed.
Lemma adopt_ofile c i p : p_ofile (adopt c i p) = p_ofile p /\ (idle (adopt c i p) -> idle p).
Proof. unfold adopt. by case_decide. Qed.

Lemma exit_locked_files t : (cur < length (procs t))%nat ->
  length (procs (exit_locked cur t)) = length (procs t) /\
  forall j, p_ofile (proc_at (exit_locked cur t) j) = p_ofile (proc_at t j) /\
    (idle (proc_at (exit_locked cur t) j) -> j = cur \/ idle (proc_at t j)).
Proof.
  intros Hr. unfold exit_locked.
  set (t1 := match p_parent (proc_at t cur) with Some q => with_procs (wakeup1 (CProc q)) t | None => t end).
  assert (length (procs t1) = length (procs t) /\ forall j, p_ofile (proc_at t1 j) = p_ofile (proc_at t j) /\
    (idle (proc_at t1 j) -> idle (proc_at t j))) as [L1 H1].
  { unfold t1. destruct (p_parent _); [|done]. split; [by cbn; unfold wakeup1; rewrite length_fmap|]. intros j.
    rewrite proc_at_wakeup, wake_ofile. split; [done|apply wake_idle]. }
  destruct (reparent_spec (length (procs t1)) cur 0 t1) as (L2 & _ & _ & b & _ & H2).
  split; [by rewrite length_upd_proc, L2, L1|]. intros j. rewrite proc_at_upd by (rewrite L2, L1; done).
  assert (p_ofile (proc_at (reparent (length (procs t1)) cur 0 t1) j) = p_ofile (proc_at t j) /\
    (idle (proc_at (reparent (length (procs t1)) cur 0 t1) j) -> idle (proc_at t j))) as [Ho Hi].
  { rewrite H2. destruct (H1 j) as [Ho1 Hi1]. destruct (adopt_ofile cur (initproc t1) (proc_at t1 j)) as [Ho2 Hi2].
    unfold wake_if. destruct b; rewrite ?wake_ofile; case_decide as Hd; (split; [congruence|]); intros Hid;
      eauto using wake_idle. }
  case_decide as E; [subst j|by auto]. split; [done|]. by left.
Qed.

(** [exit] closes every file of the process. *)
Lemma exit_run_inv : tri (inv none) (exit_run end_ cur) (fun _ => refs none) asleep.
Proof.
  unfold exit_run. apply (tri_bind _ _ _ (fun _ => inv none)); [by apply tri_get|]. intros a.
  destruct (_ =? _)%nat; [by intros s Hs|].
  apply (tri_bind _ _ _ (fun _ => closing 16)).
  { eapply tri_conseq; [|apply (tri_for_loop closing (Z.to_nat NOFILE) 0)|intros ? s H; exact H].
    - intros s Hs. split; [done|]. intros j Hj. lia.
    - intros j Hj. change (Z.of_nat (Z.to_nat NOFILE)) with 16 in Hj. apply close_fd. lia. }
  intros u. apply (tri_bind _ _ _ (fun p s => closing 16 s)); [by apply tri_gets|]. intros p.
  apply (tri_bind _ _ _ (fun _ => closing 16)).
  { destruct (p_cwd p) as [ip|]; [|by intros s Hs]. intros s [Hs Hc]. unfold knop, zoom.
    pose proof (sk_fsys (lop begin_op;; iput ip;; lop end_op) none ltac:(done) s Hs) as H. unfold fsys, knop, zoom in H.
    by destruct (fsop _ (kn s)). }
  intros v. apply (tri_bind _ _ _ (fun _ => closing 16)).
  { apply tri_modify. intros s [Hs Hc]. pose proof (idle_range cur _ (proj2 Hs)) as Hr. split; [by apply inv_updp|].
    intros j Hj. cbn [pt]. rewrite proc_at_upd, decide_True by done. by apply Hc. }
  intros w. apply tri_modify. intros s [[R L] Hc]. pose proof (idle_range cur _ L) as Hr.
  destruct (exit_locked_files (pt s) Hr) as [Hl H].
  assert (closed (proc_at (pt s) cur)) as Hcl.
  { apply Forall_lookup_2. intros j o Hj. pose proof (lookup_lt_Some _ _ _ Hj) as Hlt. rewrite (rf_len _ _ R) in Hlt.
    rewrite <- (Hc j) by (cbn; lia). symmetry. by apply list_lookup_total_correct. }
  apply refs_pt; [done|done|apply H|]. intros j Hj. destruct (proj2 (H j) Hj) as [->|Hi]; [done|by apply (rf_idle _ _ R)].
Qed.

Lemma exit_inv : tri (inv none) (exit end_ cur) (fun _ => inv none) asleep.
Proof.
  unfold exit. eapply tri_bind; [apply exit_run_inv|]. intros u s Hs. exists none. split; [done|].
  intros f. pose proof (count_nonneg f (p_ofile (proc_at (pt s) cur))). unfold none. lia.
Qed.

(** ** Every system call *)

Lemma sys_exit_inv : tri (inv none) (sys_exit end_ cur) (fun _ => inv none) asleep.
Proof. unfold sys_exit. eapply tri_bind; [apply exit_inv|]. intros u. by apply tri_ret. Qed.

Definition minv (s : machine) : Prop := inv none (sy s).
Definition masleep (s : machine) : Prop := asleep (sy s).

Lemma syop_inv {A} (m : M sys A) : tri (inv none) m (fun _ => inv none) asleep -> tri minv (syop m) (fun _ => minv) masleep.
Proof. intros Hm s Hs. specialize (Hm (sy s) Hs). unfold syop, zoom. by destruct (m (sy s)). Qed.
Lemma syop_keeps {A} (m : M sys A) : skeeps m -> tri minv (syop m) (fun _ => minv) masleep.
Proof. intros Hm. apply syop_inv. by apply Hm. Qed.

Lemma sys_sleep_inv : tri minv (sys_sleep cur) (fun _ => minv) masleep.
Proof.
  unfold sys_sleep. eapply tri_bind; [apply syop_keeps, sk_argint|]. intros [n|]; [|by apply tri_ret].
  apply (tri_bind _ _ _ (fun _ => minv)); [by apply tri_gets|]. intros t0. unfold sys_sleep_turn.
  apply (tri_bind _ _ _ (fun _ => minv)); [by apply tri_get|]. intros a. destruct (_ <? _); [|by apply tri_ret].
  eapply tri_bind; [apply syop_keeps, sk_myproc|]. intros p. destruct (p_killed p); [by apply tri_ret|].
  intros s Hs. by apply (inv_asleep cur none).
Qed.

Lemma syscalls_inv d n : tri minv (syscalls end_ data cur d n) (fun _ => minv) masleep.
Proof.
  destruct n; cbn [syscalls]; try apply syop_inv.
  - apply fork_inv.
  - apply sys_exit_inv.
  - apply wait_inv.
  - apply sys_pipe_inv.
  - by apply sk_sys_read.
  - apply sys_kill_inv.
  - by apply sk_sys_exec.
  - by apply sk_sys_fstat.
  - by apply sk_sys_chdir.
  - apply sys_dup_inv.
  - apply (sk_bind _ _ (sk_myproc cur) (fun p => sk_ret _)); done.
  - by apply sk_sys_sbrk.
  - apply sys_sleep_inv.
  - apply (tri_bind _ _ _ (fun _ => minv)); [by apply tri_gets|]. intros t. by apply tri_ret.
  - apply sys_open_inv.
  - by apply sk_sys_write.
  - by apply sk_sys_mknod.
  - by apply sk_sys_unlink.
  - by apply sk_sys_link.
  - by apply sk_sys_mkdir.
  - apply sys_close_inv.
Qed.

Lemma syscall_inv d : tri minv (syscall end_ data cur d) (fun _ => minv) masleep.
Proof.
  unfold syscall. eapply tri_bind; [apply syop_keeps, sk_myproc|]. intros p. cbv zeta.
  apply (tri_bind _ _ _ (fun _ => minv)).
  - destruct (if _ : bool then _ else _) as [n|]; [apply syscalls_inv|by apply tri_ret].
  - intros r. apply syop_keeps, sk_updp; [done|done].
Qed.
End sops.

Lemma holds_l_two f l i j : i <> j -> count f (p_ofile (l !!! i)) + count f (p_ofile (l !!! j)) <= holds_l f l.
Proof.
  revert i j. induction l as [|p l IH]; intros i j Hne.
  { rewrite !count_closed; [done|destruct j; by repeat constructor|destruct i; by repeat constructor]. }
  destruct i as [|i], j as [|j]; [done|..].
  - change ((p :: l) !!! S j) with (l !!! j). change ((p :: l) !!! 0%nat) with p.
    pose proof (holds_l_ge f l j). unfold holds_l in *. cbn [foldr]. lia.
  - change ((p :: l) !!! S i) with (l !!! i). change ((p :: l) !!! 0%nat) with p.
    pose proof (holds_l_ge f l i). unfold holds_l in *. cbn [foldr]. lia.
  - change ((p :: l) !!! S i) with (l !!! i). change ((p :: l) !!! S j) with (l !!! j).
    specialize (IH i j ltac:(lia)). pose proof (count_nonneg f (p_ofile p)). unfold holds_l in *. cbn [foldr]. lia.
Qed.

(** A file that another process has open is in use. *)
Lemma asleep_live cur s i fd f : asleep cur s -> i <> cur -> p_ofile (proc_at (pt s) i) !! fd = Some (Some f) ->
  1 <= fl_ref (file_at (kn s) f).
Proof.
  intros (e & R & He) Hne Hfd. rewrite (rf_ref _ _ R). pose proof (count_pos _ _ _ Hfd) as H1. specialize (He f).
  pose proof (holds_l_two f (procs (pt s)) i cur Hne). unfold holds, proc_at in *. lia.
Qed.

Lemma refs_live s i fd f : refs none s -> p_ofile (proc_at (pt s) i) !! fd = Some (Some f) ->
  1 <= fl_ref (file_at (kn s) f).
Proof.
  intros R Hfd. rewrite (rf_ref _ _ R). pose proof (count_pos _ _ _ Hfd) as H1.
  pose proof (holds_l_ge f (procs (pt s)) i). unfold holds, proc_at, none in *. lia.
Qed.

(** C8 Reference counts of open files. Start from a state in which every
    [struct file] counts exactly the descriptors of all processes that refer
    to it, and entries not in use or zombies have none open. Whatever system
    call the current process makes, with whatever arguments and outcome, the
    same holds when it returns; while it sleeps inside the call, every file
    that another process has open is still in use; and [exit] ends with the
    same invariant. So no descriptor ever refers to a file that was freed. *)
Theorem file_refs_invariant `{BD : !BlockDevice} `{DS : !Devsw} end_ data cur d (s : machine) :
  refs none (sy s) -> ~ idle (proc_at (pt (sy s)) cur) ->
  let live s' := forall i fd f, i <> cur -> p_ofile (proc_at (pt s') i) !! fd = Some (Some f) -> 1 <= fl_ref (file_at (kn s') f) in
  match syscall end_ data cur d s with
  | Ok _ s' => refs none (sy s') /\ live (sy s')
  | Blocked s' => live (sy s')
  | _ => True
  end /\
  match exit_run end_ cur (sy s) with
  | Ok _ s' => refs none s' /\ live s'
  | Blocked s' => live s'
  | _ => True
  end.
Proof.
  intros R L live. split.
  - pose proof (syscall_inv end_ data cur d s (conj R L)) as H. destruct (syscall end_ data cur d s) as [u s'| |s'| |]; try done.
    + destruct H as [R' _]. split; [done|]. intros i fd f _. by apply refs_live.
    + intros i fd f. by apply asleep_live.
  - pose proof (exit_run_inv end_ cur (sy s) (conj R L)) as H. destruct (exit_run end_ cur (sy s)) as [u s'| |s'| |]; try done.
    + split; [done|]. intros i fd f _. by apply refs_live.
    + intros i fd f. by apply asleep_live.
Qed.

(** ** A process with one open file that calls [dup(0)] *)

#[export] Instance demo_devsw : Devsw := {| dev_read := fun _ => None; dev_write := fun _ => None |}.

Definition demo_file : file := mkFile FD_NONE 1 true false 0 0 0.
Definition demo_caller : proc :=
  set_tf (mkTf 0 0 0 0 0 0 0 10 0 0 0 0 0 0 0 0 0 0x2c 0) (set_ofile (<[0%nat := Some 0%nat]> (p_ofile proc0)) (demo_proc 4096)).
Definition demo2 : machine :=
  mkMachine (mkSys (mkPt [demo_caller] 2 0) (set_ftable [demo_file] (kn demo1_sys))) 0.

Lemma demo2_refs : refs none (sy demo2) /\ ~ idle (proc_at (pt (sy demo2)) 0).
Proof.
  split; [|by intros [?|?]]. split.
  - intros [|f]; [done|]. unfold holds, none. cbn. done.
  - intros [|i]; [done|]. destruct i; done.
  - intros [|i]; [by intros [?|?]|]. intros _. destruct i; by repeat constructor.
Qed.

Lemma demo2_dup :
  match syscall demo_end 0x80108000 0 [] demo2 with Ok _ s' => fl_ref (file_at (kn (sy s')) 0) =? 2 | _ => false end = true.
Proof. vm_compute. reflexivity. Qed.

Lemma file_refs_invariant_witness :
  exists s', syscall demo_end 0x80108000 0 [] demo2 = Ok tt s' /\ refs none (sy s') /\ fl_ref (file_at (kn (sy s')) 0) = 2.
Proof.
  destruct demo2_refs as [R L].
  destruct (file_refs_invariant demo_end 0x80108000 0 [] demo2 R L) as [H _]. revert H. pose proof demo2_dup as K. revert K.
  destruct (syscall demo_end 0x80108000 0 [] demo2) as [[] s'|?|?| |]; intros K H; try discriminate K.
  exists s'. split; [reflexivity|]. split; [apply H|]. apply Z.eqb_eq. exact K.
Defined.
